(* ===== verification/_CoqProject ===== *)
-Q . S2P
Prelude.v
Opcode.v
ScriptNum.v
ScriptTypes.v
Stack.v
CheckSig.v
Sample.v
MultiSig.v
Eval.v
EvalFacts.v
Conditionals.v
Interpreter.v
InterpreterFacts.v
Bitcoin.v
Runtime.v
SigChecker.v
PalletTypes.v
Pallet.v
TxSanity.v
Client.v
HeaderVerify.v
Import.v
BlockVerify.v
Ledger.v
ImportBlock.v
Solver.v
Compressor.v
Snapshot.v
MuHash.v
SnapshotStore.v
TxOutSet.v
Collections.v
MempoolTypes.v
Arena.v
MempoolInner.v
CoinsView.v
Policy.v
Validation.v
ValidationFacts.v
Finalize.v
Mempool.v
MempoolFacts.v
Package.v
BlockPreparation.v
NetworkTypes.v
OrphanPool.v
BlockDownloader.v
DownloaderFacts.v
TxRelay.v
PeerStore.v
PeerManager.v
PeerManagerFacts.v
SyncTypes.v
BlocksFirst.v
HeadersFirst.v
ChainSync.v
SyncFacts.v
NetworkProcessor.v
Connection.v
NetworkFacts.v
IndexerDb.v
IndexerQuery.v
IndexerFacts.v
IndexerChain.v
IndexerSpec.v
Indexer.v
IndexerRun.v
Executive.v
ExecutiveFacts.v
RuntimeLedger.v
NetworkRequest.v
SyncingStrategy.v
SyncingStrategyFacts.v
ImportQueue.v
Finalizer.v
NetworkApi.v
NodeChain.v
Rpc.v
RpcBitcoind.v
RpcFacts.v
