(* ===== verification/Prelude.v ===== *)
(** * A verification library for subcoin, a Bitcoin full node on Substrate

    Subcoin follows the Bitcoin chain inside a Substrate node.  A Bitcoin block
    that arrives from the network is verified against Bitcoin's consensus rules
    (crate [sc-consensus-nakamoto]), its inputs with one of three script
    engines, one of which is written in Rust (crate [subcoin-script]); it is then
    turned into a Substrate block and executed by the runtime, whose only state
    is the UTXO set (crate [pallet-bitcoin]).  The node finds Bitcoin headers
    through digests of Substrate headers and an auxiliary store (crate
    [subcoin-primitives]), and can write the UTXO set as a snapshot in Bitcoin
    Core's format (crate [subcoin-utxo-snapshot]) and hash it (crate
    [subcoin-crypto]).  Transactions that are not yet in a block wait in the
    mempool (crate [subcoin-mempool]); the network (crate [subcoin-network])
    connects to peers, chooses one, downloads headers and blocks from it, hands
    the blocks to the import queue and relays the transactions of the mempool.
    The service (crate [subcoin-service]) finalises blocks and answers requests
    of other Subcoin nodes, from which snapcake (crate [subcoin-snapcake])
    downloads the UTXO set.  An indexer (crate [subcoin-indexer]) keeps a
    database of addresses, and two JSON-RPC interfaces (crates [subcoin-rpc],
    [subcoin-rpc-bitcoind]) give out what the node knows.

    ** How the program is modelled

    Rust functions are Rocq functions of the same name; [Result] is the type
    [res] below, which also has the outcome [Panic] for [unwrap], [expect],
    [assert!], [unreachable!], an index out of range, and arithmetic that leaves
    the range of its type (the behaviour of checked builds; where theorems show
    that no such outcome occurs, wrapping builds agree).  Integers are [Z] with
    the bounds of their type written out; bytes are [Z] from 0 to 255; loops are
    structural recursions, or recursions on fuel with a theorem that the fuel is
    enough.  State is passed explicitly.  Code outside the repository
    (rust-bitcoin, secp256k1, hash functions, bitcoinconsensus, the Substrate
    client) is a type class of operations; what its documentation promises and
    the proofs use is a class of laws next to it, and each class has a concrete
    instance (the modules called [Sample...]) on which the theorems are
    instantiated.  The order in which Rust iterates over a hash map or set is
    such a class, [HashOrder]; the clock is an argument; locks are held for the
    whole of an operation, so that operations are functions of the state;
    messages to other tasks are returned.  [f64] is the binary floating point of
    the Standard Library at double precision.

    ** The files

    The script interpreter, [crates/subcoin-script/src]:
    - [Opcode]: [opcode.rs], the opcode table.
    - [ScriptNum]: [num.rs], numbers on the stack, their codec and arithmetic.
    - [ScriptTypes]: [lib.rs], [constants.rs], [error.rs]: flags, signature
      versions, execution data, errors; the classes [ScriptApi], [HashApi],
      [KeyApi] for script parsing, hashes and keys, and [SignatureChecker] for
      the trait of that name.
    - [Stack]: [stack.rs], [GenericStack] with every operation.
    - [CheckSig]: [interpreter/eval/sig.rs], encoding checks, [find_and_delete]
      and the signature opcodes; [MultiSig]: [interpreter/eval/multisig.rs].
    - [Eval]: [interpreter/eval.rs], the loop over the instructions with every
      opcode; [EvalFacts] and [Conditionals] hold its theorems.
    - [Interpreter]: [interpreter.rs], [verify_script] with P2SH, segwit and
      taproot; [InterpreterFacts] holds its theorems.
    - [SigChecker]: [signature_checker.rs], the two signature checkers, proved
      against the interface [SafeChecker] that the interpreter relies on.
    - [Solver]: [solver.rs], the classification of output scripts.
    - [Sample]: concrete instances of the classes.

    The ledger:
    - [Bitcoin]: the data types of rust-bitcoin, and [TxApi] for what it
      computes on transactions.
    - [Runtime]: [crates/subcoin-runtime-primitives/src/lib.rs]: coins, ids, the
      block subsidy.
    - [PalletTypes], [Pallet]: [crates/pallet-bitcoin/src/types.rs] and [lib.rs]:
      the runtime's transaction types and the execution of a transaction.
    - [TxSanity]: [crates/subcoin-primitives/src/consensus.rs].
    - [Client]: [crates/subcoin-primitives/src/lib.rs]: digests, the client
      extensions, median time past, block locators.
    - [HeaderVerify]: [crates/sc-consensus-nakamoto/src/chain_params.rs] and
      [verification/header_verify.rs].
    - [BlockVerify]: [verification.rs], [verification/script_verify.rs] and
      [verification/tx_verify.rs] of the same crate.
    - [Ledger]: how verification and execution of a block fit together.
    - [Import], [ImportBlock]: [aux_schema.rs] and [block_import.rs] of the same
      crate, cumulative work, fork choice and the import of a block;
      [ImportQueue]: [import_queue.rs] and [verifier.rs], batches of blocks
      through the importer into the client, and the verifier of Substrate's own
      queue; also the command [import_blocks.rs] of [crates/subcoin-node].
    - [BlockPreparation]: [block_preparation.rs], the execution levels of a block
      and the outputs its inputs need, over a class for the provider of outputs.
    - [Executive]: [crates/pallet-executive/src/lib.rs], the execution of a block
      in a state monad over the classes [RuntimeTypes] and [FrameRuntime] for
      FRAME, with theorems in [ExecutiveFacts]; [RuntimeLedger]: the block
      weights of [crates/subcoin-runtime/src/lib.rs], and the executive on the
      Bitcoin pallet.

    Snapshots and the UTXO set:
    - [Compressor]: [compressor.rs], [script.rs], and [Snapshot]: [lib.rs],
      [serialize.rs], of [crates/subcoin-utxo-snapshot/src].
    - [MuHash]: [crates/subcoin-crypto/src], the multiset hash modulo
      2 ^ 3072 - 1103717.
    - [SnapshotStore]: the stores and the snapshot manager of
      [crates/subcoin-snapcake/src]; [TxOutSet]: the interception of state
      responses there, and [gettxoutsetinfo] and [dumptxoutset] of
      [crates/subcoin-node/src/commands].
    - [NetworkRequest]: [crates/subcoin-service/src/network_request_handler.rs];
      [SyncingStrategy]: [crates/subcoin-snapcake/src/syncing_strategy.rs] over a
      class for Substrate's own strategies, with theorems in
      [SyncingStrategyFacts].

    The mempool, [crates/subcoin-mempool/src]:
    - [Collections]: hash collections, loops and [f64], shared by all components.
    - [MempoolTypes]: [types.rs], [options.rs], [error.rs].
    - [Arena]: [arena.rs], the entries with their five indices; [MempoolInner]:
      [inner.rs], the graph of ancestors and descendants, removal, trimming and
      expiry; [CoinsView]: [coins_view.rs].
    - [Policy]: [policy.rs]; [Validation], [Finalize]: [validation.rs], from the
      checks of a transaction to its entry; [ValidationFacts] holds theorems.
    - [Mempool]: [lib.rs], the operations of the pool, and the types of
      [crates/subcoin-primitives/src/tx_pool.rs]; [MempoolFacts] holds its
      theorems.
    - [Package]: packages of transactions ([validation.rs], [lib.rs]).

    The network, [crates/subcoin-network/src]:
    - [NetworkTypes]: peers, inventories, configuration ([lib.rs]).
    - [OrphanPool]: [sync/orphan_blocks_pool.rs]; [BlockDownloader]:
      [sync/block_downloader.rs], with theorems in [DownloaderFacts].
    - [TxRelay]: [tx_relay.rs], over the class [TxPool] for the trait of
      [tx_pool.rs]; the mempool is an instance and discharges its law.
    - [PeerStore]: [peer_store.rs] and [address_book.rs]; [PeerManager]:
      [peer_manager.rs], with theorems in [PeerManagerFacts].
    - [SyncTypes] (with [checkpoint.rs]), [BlocksFirst], [HeadersFirst],
      [ChainSync]: [sync.rs] and the strategies under [sync/strategy];
      [SyncFacts] holds their theorems.
    - [NetworkProcessor]: [network_processor.rs], every event, message, request
      and tick as a step on the states above; [Connection]: [peer_connection.rs]
      and [lib.rs]; [NetworkFacts] holds the theorems on runs of the processor.
    - [NetworkApi]: [network_api.rs], the trait of the network as the class
      [NetworkApi] with its law, and the three implementations.

    The node:
    - [IndexerDb]: [db.rs] of [crates/subcoin-indexer/src], the tables as finite
      maps and the statements on them; [IndexerQuery]: [queries.rs]; [Indexer]:
      [indexer.rs].  [IndexerFacts] shows that the batched writing equals one
      statement after the other; [IndexerChain], [IndexerSpec] and [IndexerRun]
      build on it.
    - [Finalizer]: [crates/subcoin-service/src/finalizer.rs].
    - [NodeChain]: [transaction_adapter.rs], [genesis_block_builder.rs] and the
      genesis mapping of [lib.rs] of the same crate, and the conversion of blocks
      of [crates/subcoin-primitives/src/lib.rs].
    - [Rpc]: [crates/subcoin-rpc/src]; [RpcBitcoind]:
      [crates/subcoin-rpc-bitcoind/src]; [RpcFacts] holds their theorems.

    ** What is shown

    - The money supply.  [Ledger.no_inflation] simulates the verifier by the
      runtime: a block that passes verification against its parent's state
      executes without panic, every coin it spends being present and spent once,
      and adds at most the subsidy to the value of the UTXO set.
      [Ledger.money_supply] follows by induction on the chain: less than 21
      million bitcoins at every height, and a coin counter that is the size of
      the set.  Their assumptions are stated in [block_on]: values within their
      types, new transaction ids (BIP 30), and [OP_RETURN] outputs that stay
      unspent within their block; [Ledger.return_output_spent] shows that the
      last one is needed.
    - The chain.  [ImportBlock.import_block_spec]: what an import checks and what
      it hands to the client.  [ImportQueue.import_queue_most_work] composes it
      with the queue, the client and the fork choice of [Import]: whatever
      batches arrive, the best block heads a chain with the most work.
      [Finalizer.finalizer_spec]: what is finalised, under any interleaving of
      imports and the worker.
    - Execution.  [Pallet.transact_spec] gives the exact effect of an extrinsic,
      panics included; [PalletTypes] shows what survives the runtime's
      representation of a transaction.  [ExecutiveFacts.execute_block_spec]
      characterises the blocks that the executive runs without panic, and
      [RuntimeLedger.executive_refines_ledger] shows that it then leaves the
      coins of [Ledger].
    - Preparation.  [BlockPreparation.execution_levels_spec] and
      [BlockPreparation.prepare_spec]: the levels respect the dependencies within
      the block, and lookups agree with the state of the parent.
    - Consensus checks.  [TxSanity.transaction_sanity] and
      [HeaderVerify.header_verify_spec] characterise what is accepted, the
      latter also where the verifier panics; [HeaderVerify.retarget_spec] bounds
      the difficulty adjustment; [Client] has the median time, locators and
      digests.
    - Scripts.  [EvalFacts.eval_script_safe] and
      [InterpreterFacts.verify_script_no_panic]: no script makes the interpreter
      panic before taproot, and the stack limits hold throughout.
      [MultiSig.checkmultisig_m_of_n], [InterpreterFacts.p2wpkh_spend],
      [CheckSig.check_signature_encoding_spec] and others give the meaning of
      the operations against independent specifications; round trips and exact
      arithmetic of script numbers are in [ScriptNum].  The taproot theorems of
      [InterpreterFacts] show where the code departs from the rules.
    - Snapshots.  What is written can be read back
      ([Snapshot.write_coins_roundtrip]); the MuHash digest depends on the
      multiset only ([MuHash.muhash_multiset]); a complete state download gives
      the snapshot and the hash of the set, in whatever parts it arrives
      ([TxOutSet.state_sync_spec]).  [SyncingStrategyFacts] has safety and
      liveness of the download: with answering peers it starts after three
      rounds, and one silent peer stalls it.
    - The mempool.  [MempoolFacts.mempool_invariant]: after any sequence of
      operations no two transactions of the pool spend the same output, and
      indices and totals are right; it rests on [Arena.arena_indices] and
      [CoinsView.coins_view_refines].  [MempoolFacts.accept_single_transaction_spec]
      and [MempoolFacts.remove_for_block_spec] give the effect of acceptance and
      of a block; [Policy.is_standard_tx_spec] characterises standard
      transactions.  [Package] has the order, the rollback and the gaps of
      packages.  Theorems on trimming, expiry and packages show where the code
      departs from its intention.
    - Download.  [DownloaderFacts]: what arrives is queued at its height with the
      orphans it connects, handed over in order, and every missing block is
      requested.
    - Sync.  [SyncFacts.on_headers_spec] and [SyncFacts.select_next_peer_spec]
      give the effect of headers and the choice of peers; three theorems exhibit
      a panic on a duplicate block and two ways in which sync stops.
    - Relay.  [TxRelay]: the loop over an inventory equals a reference, and along
      any history a transaction is announced to a peer once.
    - Peers.  [NetworkFacts]: along any run of the processor peers count as
      connected only after the handshake, and those of the sync are connected;
      [Connection.connection_delivers]: messages arrive whole and in order,
      however the stream is cut.
    - The index.  [IndexerRun.index_gap_spec] and [IndexerRun.notification_spec]:
      catching up, interrupted or not, and following the best chain leave the
      index of that chain; [IndexerSpec.address_balance_spec]: its balances are
      the sums of its history.
    - The interfaces.  [RpcFacts.rpc_blocks_spec] composes genesis, import and the
      methods: every imported block is given out, but for the witness of its
      coinbase, and the best block has the most work.
      [RpcFacts.rpc_transactions_spec] composes them with the index: exactly the
      transactions of the chain are found.

    ** Fuel

    Loops on fuel: [find_and_delete] (the length of the script, each iteration
    advances), the multisig loop (one more than the number of keys, each
    iteration consumes one), [strip_zeros] (nine divisions), the locator (40
    iterations, as the step doubles after eight); the graph searches of the
    mempool (the size of the graph), trimming (the number of entries, each round
    removes one), the topological sort (the number of transactions), the removal
    of orphans (one more than the number of children, each is queued once); the
    execution levels (one more than the number of transactions, each round
    removes a level), the decoder of a connection (one more than the number of
    bytes, each message takes some), the range of the indexer (one more than the
    number of blocks, each batch has one).  The theorems on these functions show
    that the fuel does not run out.

    ** What is not modelled

    Sockets, files, channels and the scheduling of tasks, which show up as the
    arguments and effects of the operations; SQLite, of whose failures only the
    ones that the data can cause are outcomes; FRAME, the Substrate client with
    its own sync strategies and import, and SCALE, which are classes; progress
    bars, logs, metrics and the printing of JSON.  Not modelled at all, as they
    start and configure the other parts or format text: the service's start-up,
    the command line of the node and of snapcake, the commands that print a block
    or a snapshot file, the informant, the FRAME configuration of the runtime, the
    dummy pools of the service and the mempool crate, whose methods are
    unimplemented, and the functions behind the try-runtime feature, which do not
    compile. *)

From Stdlib Require Import ZArith Lia.
From stdpp Require Import prelude.

#[global] Open Scope Z_scope.

(** ** Outcomes of fallible Rust code

    [Ok] and [Err] are the constructors of Rust's [Result]; [Panic] is the
    outcome of [unreachable!], [assert!], [expect], [unwrap], an index out of
    bounds or a failed conversion: the thread unwinds and no value is
    returned.  The monad below threads both. *)

Inductive res (E A : Type) : Type :=
| Ok (a : A)
| Err (e : E)
| Panic.
Arguments Ok {E A} a.
Arguments Err {E A} e.
Arguments Panic {E A}.

#[export] Instance res_ret {E} : MRet (res E) := fun A a => Ok a.
#[export] Instance res_bind {E} : MBind (res E) := fun A B f m =>
  match m with
  | Ok a => f a
  | Err e => Err e
  | Panic => Panic
  end.
#[export] Instance res_fmap {E} : FMap (res E) := fun A B f m =>
  match m with
  | Ok a => Ok (f a)
  | Err e => Err e
  | Panic => Panic
  end.

#[export] Instance res_eq_dec {E A} `{EqDecision E, EqDecision A} :
  EqDecision (res E A).
Proof. solve_decision. Defined.

(** [Result::map_err], and the conversion the [?] operator performs through
    [From] when the error types differ. *)
Definition map_err {E F A} (f : E -> F) (m : res E A) : res F A :=
  match m with
  | Ok a => Ok a
  | Err e => Err (f e)
  | Panic => Panic
  end.

(** A Rust [Result] returned by code that does not panic. *)
Definition of_sum {E A} (s : E + A) : res E A :=
  match s with
  | inl e => Err e
  | inr a => Ok a
  end.

(** [Option::ok_or]. *)
Definition ok_or {E A} (e : E) (o : option A) : res E A :=
  match o with
  | Some a => Ok a
  | None => Err e
  end.

(** [Option::expect] / [Option::unwrap] and slice indexing: a missing value
    panics. *)
Definition expect {E A} (o : option A) : res E A :=
  match o with
  | Some a => Ok a
  | None => Panic
  end.

(** [v[i]]. *)
Definition index {E A} (l : list A) (i : nat) : res E A := expect (l !! i).

(** [v[i..]] and [v[i..j]]: a bound past the end panics. *)
Definition slice_from {E A} (l : list A) (i : nat) : res E (list A) :=
  if (i <=? length l)%nat then Ok (skipn i l) else Panic.
Definition slice {E A} (l : list A) (i j : nat) : res E (list A) :=
  if (i <=? j)%nat && (j <=? length l)%nat then Ok (firstn (j - i) (skipn i l)) else Panic.

(** [assert!]. *)
Definition rassert {E} (b : bool) : res E unit :=
  if b then Ok tt else Panic.

(** [if b { return Err(e) }]. *)
Definition reject_if {E} (b : bool) (e : E) : res E unit :=
  if b then Err e else Ok tt.

Definition is_ok {E A} (m : res E A) : bool :=
  match m with Ok _ => true | _ => false end.

(** The value of a result that is known to be there. *)
Definition from_ok {E A} (d : A) (m : res E A) : A :=
  match m with Ok a => a | _ => d end.

Lemma from_ok_eq {E A} (d : A) (m : res E A) : is_ok m = true -> m = Ok (from_ok d m).
Proof. by destruct m. Qed.

(** Neither a panic nor an error. *)
Definition no_panic {E A} (m : res E A) : Prop := m <> Panic.

(** ** Fixed-width integers

    A machine integer is the [Z] it denotes, together with the range of its
    type; the wrapping and checked operations of the source are written out
    on [Z]. *)

Definition u8_max : Z := 255.
Definition u16_max : Z := 65535.
Definition u32_max : Z := 4294967295.
Definition u64_max : Z := 18446744073709551615.
Definition i64_min : Z := -9223372036854775808.
Definition i64_max : Z := 9223372036854775807.

Definition is_u8 (z : Z) : Prop := 0 <= z <= u8_max.
Definition is_u16 (z : Z) : Prop := 0 <= z <= u16_max.
Definition is_u32 (z : Z) : Prop := 0 <= z <= u32_max.
Definition is_u64 (z : Z) : Prop := 0 <= z <= u64_max.
Definition is_i64 (z : Z) : Prop := i64_min <= z <= i64_max.

Definition in_i64 (z : Z) : bool := (i64_min <=? z) && (z <=? i64_max).
Definition in_u64 (z : Z) : bool := (0 <=? z) && (z <=? u64_max).

(** The [as i64] cast (two's complement wrap-around). *)
Definition wrap_i64 (z : Z) : Z := (z + 2 ^ 63) mod 2 ^ 64 - 2 ^ 63.
(** The [as i32] cast. *)
Definition wrap_i32 (z : Z) : Z := (z + 2 ^ 31) mod 2 ^ 32 - 2 ^ 31.
(** The [as u64] cast. *)
Definition wrap_u64 (z : Z) : Z := z mod 2 ^ 64.
(** The [as u32] cast. *)
Definition wrap_u32 (z : Z) : Z := z mod 2 ^ 32.
(** The [as u8] cast. *)
Definition wrap_u8 (z : Z) : Z := z mod 2 ^ 8.

(** [i64::checked_add] and friends: [None] on overflow. *)
Definition checked_i64 (z : Z) : option Z := if in_i64 z then Some z else None.
Definition checked_u32 (z : Z) : option Z := if (0 <=? z) && (z <=? u32_max) then Some z else None.
Definition checked_u64 (z : Z) : option Z := if in_u64 z then Some z else None.

(** [Iterator::sum], as an integer. *)
Definition zsum (l : list Z) : Z := foldr Z.add 0 l.

(** ** Bytes *)

Abbreviation byte := Z (only parsing).
Abbreviation bytes := (list Z) (only parsing).

Definition bytes_ok (bs : list Z) : Prop := Forall is_u8 bs.

(** Least significant byte first. *)
Fixpoint le_value (bs : list Z) : Z :=
  match bs with
  | [] => 0
  | b :: bs => b + 256 * le_value bs
  end.

(** Most significant byte first. *)
Definition be_value (bs : list Z) : Z := le_value (reverse bs).

(** [n] bytes of [z], least significant first ([to_le_bytes]). *)
Fixpoint le_bytes (n : nat) (z : Z) : list Z :=
  match n with
  | O => []
  | S n => z mod 256 :: le_bytes n (z / 256)
  end.

(** ** Lemmas on outcomes *)

Section res_lemmas.
Context {E A B : Type}.
Implicit Types (m : res E A) (f : A -> res E B).

Lemma bind_Ok f m b : (x ← m; f x) = Ok b <-> exists a, m = Ok a /\ f a = Ok b.
Proof. destruct m; naive_solver. Qed.

Lemma bind_Err f m e :
  (x ← m; f x) = Err e <-> m = Err e \/ exists a, m = Ok a /\ f a = Err e.
Proof. destruct m; naive_solver. Qed.

Lemma bind_Panic f m :
  (x ← m; f x) = Panic <-> m = Panic \/ exists a, m = Ok a /\ f a = Panic.
Proof. destruct m; naive_solver. Qed.

Lemma no_panic_bind f m :
  no_panic m -> (forall a, m = Ok a -> no_panic (f a)) -> no_panic (x ← m; f x).
Proof. unfold no_panic. destruct m; naive_solver. Qed.

Lemma no_panic_Ok (a : A) : no_panic (Ok (E := E) a).
Proof. done. Qed.

Lemma no_panic_Err (e : E) : no_panic (Err (A := A) e).
Proof. done. Qed.

Lemma no_panic_map_err {F} (g : E -> F) m : no_panic m -> no_panic (map_err g m).
Proof. by destruct m. Qed.

Lemma no_panic_ok_or (e : E) (o : option A) : no_panic (ok_or e o).
Proof. by destruct o. Qed.

Lemma map_err_Ok {F} (g : E -> F) m a : map_err g m = Ok a <-> m = Ok a.
Proof. destruct m; naive_solver. Qed.

Lemma no_panic_of_sum (s : E + A) : no_panic (of_sum s).
Proof. by destruct s. Qed.

Lemma of_sum_Ok (s : E + A) a : of_sum s = Ok a <-> s = inr a.
Proof. destruct s; naive_solver. Qed.

Lemma ok_or_Ok (e : E) (o : option A) a : ok_or e o = Ok a <-> o = Some a.
Proof. destruct o; naive_solver. Qed.

Lemma expect_Ok (o : option A) a : expect (E := E) o = Ok a <-> o = Some a.
Proof. destruct o; naive_solver. Qed.

Lemma index_Ok (l : list A) i a : index (E := E) l i = Ok a <-> l !! i = Some a.
Proof. apply expect_Ok. Qed.

Lemma index_lt (l : list A) i : (i < length l)%nat -> exists a, index (E := E) l i = Ok a.
Proof. intros [a Ha]%lookup_lt_is_Some. exists a. by apply index_Ok. Qed.

Lemma no_panic_index (l : list A) i : (i < length l)%nat -> no_panic (index (E := E) l i).
Proof. intros [a Ha]%index_lt. by rewrite Ha. Qed.

Lemma slice_from_Ok (l : list A) i a :
  slice_from (E := E) l i = Ok a <-> (i <= length l)%nat /\ a = skipn i l.
Proof. unfold slice_from. destruct (Nat.leb_spec i (length l)); naive_solver lia. Qed.

Lemma slice_from_le (l : list A) i :
  (i <= length l)%nat -> slice_from (E := E) l i = Ok (skipn i l).
Proof. intros. by apply slice_from_Ok. Qed.

Lemma slice_le (l : list A) i j :
  (i <= j <= length l)%nat -> slice (E := E) l i j = Ok (firstn (j - i) (skipn i l)).
Proof.
  intros [Hij Hj]. unfold slice.
  by rewrite (proj2 (Nat.leb_le i j) Hij), (proj2 (Nat.leb_le j (length l)) Hj).
Qed.

Lemma reject_if_Ok (b : bool) (e : E) u : reject_if b e = Ok u <-> b = false.
Proof. destruct b, u; naive_solver. Qed.

Lemma reject_if_false (b : bool) (e : E) : b = false -> reject_if b e = Ok tt.
Proof. by intros ->. Qed.

Lemma no_panic_reject_if (b : bool) (e : E) : no_panic (reject_if b e).
Proof. by destruct b. Qed.
End res_lemmas.

Create HintDb rust discriminated.
#[export] Hint Resolve no_panic_Ok no_panic_Err no_panic_map_err no_panic_ok_or
  no_panic_reject_if no_panic_of_sum : rust.

(** Reduce the monad only. *)
Ltac rcbn :=
  cbn [mbind mret fmap res_bind res_ret res_fmap expect ok_or map_err reject_if rassert].

(** Split every successful step of a hypothesis [_ = Ok _] into its parts. *)
Ltac inv_ok :=
  repeat match goal with
  | H : (_ ≫= _) = Ok _ |- _ => apply bind_Ok in H; destruct H as (? & ? & H)
  | H : map_err _ _ = Ok _ |- _ => apply map_err_Ok in H
  | H : ok_or _ _ = Ok _ |- _ => apply ok_or_Ok in H
  | H : of_sum _ = Ok _ |- _ => apply of_sum_Ok in H
  | H : expect _ = Ok _ |- _ => apply expect_Ok in H
  | H : index _ _ = Ok _ |- _ => apply index_Ok in H
  | H : slice_from _ _ = Ok _ |- _ => apply slice_from_Ok in H as [? H]
  | H : reject_if _ _ = Ok _ |- _ => apply reject_if_Ok in H
  | H : rassert ?b = Ok _ |- _ => unfold rassert in H; destruct b eqn:?
  | H : Ok _ = Ok _ |- _ => injection H as H
  | H : Err _ = Ok _ |- _ => discriminate H
  | H : Panic = Ok _ |- _ => discriminate H
  | H : mret _ = Ok _ |- _ => injection H as H
  end; subst.

(** ** Safe outcomes

    [safe m Q]: the computation does not panic, and a value it returns
    satisfies [Q] (an error is allowed). *)
Definition safe {E A} (m : res E A) (Q : A -> Prop) : Prop :=
  match m with
  | Ok a => Q a
  | Err _ => True
  | Panic => False
  end.

Section safe_lemmas.
Context {E A B : Type}.
Implicit Types (m : res E A) (Q : A -> Prop).

Lemma safe_iff m Q : safe m Q <-> no_panic m /\ forall a, m = Ok a -> Q a.
Proof. unfold no_panic. destruct m; naive_solver. Qed.

Lemma safe_bind (f : A -> res E B) m Q R :
  safe m Q -> (forall a, Q a -> safe (f a) R) -> safe (x ← m; f x) R.
Proof. destruct m; cbn; auto. Qed.

Lemma safe_mono m Q R : safe m Q -> (forall a, Q a -> R a) -> safe m R.
Proof. destruct m; cbn; auto. Qed.

Lemma safe_map_err {F} (g : E -> F) m Q : safe m Q -> safe (map_err g m) Q.
Proof. by destruct m. Qed.

Lemma safe_reject_if (b : bool) (e : E) : safe (reject_if b e) (fun _ => b = false).
Proof. by destruct b. Qed.

Lemma safe_ok_or (e : E) (o : option A) : safe (ok_or e o) (fun a => o = Some a).
Proof. by destruct o. Qed.

Lemma safe_no_panic m Q : safe m Q -> no_panic m.
Proof. by intros [? _]%safe_iff. Qed.

Lemma safe_Ok_inv m Q a : safe m Q -> m = Ok a -> Q a.
Proof. by intros H ->. Qed.
End safe_lemmas.

(** Take the next step of a computation with a safety lemma, naming the value
    it returns and what is known of it. *)
Tactic Notation "safe_step" uconstr(lem) "as" simple_intropattern(x) simple_intropattern(H) :=
  eapply safe_bind; [ try apply safe_map_err; eapply lem; eauto | cbv beta; intros x H ].

(** Reduce only the binds of known outcomes. *)
Tactic Notation "rbind" := cbn [mbind mret res_bind res_ret].
Tactic Notation "rbind" "in" hyp(H) := cbn [mbind mret res_bind res_ret] in H.

(** Solve a boolean test by arithmetic. *)
Ltac btest :=
  repeat first [ rewrite Nat.ltb_ge | rewrite Nat.ltb_lt | rewrite Nat.leb_gt | rewrite Nat.leb_le
               | rewrite Z.ltb_ge | rewrite Z.ltb_lt | rewrite Z.leb_gt | rewrite Z.leb_le
               | rewrite Z.eqb_eq | rewrite Z.eqb_neq
               | rewrite Nat.eqb_eq | rewrite Nat.eqb_neq | rewrite negb_false_iff
               | rewrite negb_true_iff | rewrite andb_true_iff | rewrite orb_false_iff ];
  try lia.

(** Turn the boolean tests among the hypotheses into propositions. *)
Ltac bools :=
  repeat match goal with
  | u : unit |- _ => destruct u
  | H : negb _ = false |- _ => apply negb_false_iff in H
  | H : negb _ = true |- _ => apply negb_true_iff in H
  | H : (_ && _) = true |- _ => apply andb_true_iff in H as [? ?]
  | H : (_ || _) = false |- _ => apply orb_false_iff in H as [? ?]
  | H : (_ <=? _)%nat = true |- _ => apply Nat.leb_le in H
  | H : (_ <=? _)%nat = false |- _ => apply Nat.leb_gt in H
  | H : (_ <? _)%nat = true |- _ => apply Nat.ltb_lt in H
  | H : (_ <? _)%nat = false |- _ => apply Nat.ltb_ge in H
  | H : (_ =? _)%nat = true |- _ => apply Nat.eqb_eq in H
  | H : (_ =? _)%nat = false |- _ => apply Nat.eqb_neq in H
  | H : (_ <=? _)%Z = true |- _ => apply Z.leb_le in H
  | H : (_ <=? _)%Z = false |- _ => apply Z.leb_gt in H
  | H : (_ <? _)%Z = true |- _ => apply Z.ltb_lt in H
  | H : (_ <? _)%Z = false |- _ => apply Z.ltb_ge in H
  | H : (_ =? _)%Z = true |- _ => apply Z.eqb_eq in H
  | H : (_ =? _)%Z = false |- _ => apply Z.eqb_neq in H
  | H : bool_decide _ = true |- _ => apply bool_decide_eq_true in H
  | H : bool_decide _ = false |- _ => apply bool_decide_eq_false in H
  end.

(** Show that a sequence of steps does not panic: one goal per step that the
    hint database does not settle. *)
Ltac np_step :=
  first
  [ solve [eauto with rust]
  | apply no_panic_bind; [ | intros ? ?; inv_ok ]
  | apply no_panic_map_err
  | match goal with
    | |- no_panic (match ?x with _ => _ end) => destruct x eqn:?
    | |- no_panic (let '_ := ?x in _) => destruct x eqn:?
    end ].
Ltac np := repeat np_step.

(** [lia] on goals with quotients and remainders. *)
Ltac zdm := Z.to_euclidean_division_equations; lia.

(** ** Lemmas on integers and bits *)

Lemma div_low_high m q k : 0 <= m < 2 ^ k -> (m + q * 2 ^ k) / 2 ^ k = q.
Proof. intros H. rewrite Z.div_add by lia. rewrite Z.div_small by lia. lia. Qed.

Lemma mod_low_high m q k : 0 <= m < 2 ^ k -> (m + q * 2 ^ k) mod 2 ^ k = m.
Proof. intros H. rewrite Z.mod_add by lia. apply Z.mod_small. lia. Qed.

Lemma testbit_low_high m q k i :
  0 <= k -> 0 <= m < 2 ^ k -> 0 <= i ->
  Z.testbit (m + q * 2 ^ k) i = if i <? k then Z.testbit m i else Z.testbit q (i - k).
Proof.
  intros Hk Hm Hi. destruct (Z.ltb_spec i k).
  - rewrite <- (mod_low_high m q k Hm) at 2.
    by rewrite Z.mod_pow2_bits_low by lia.
  - rewrite <- (div_low_high m q k Hm) at 2.
    rewrite Z.div_pow2_bits by lia. f_equal. lia.
Qed.

Lemma testbit_small m k i : 0 <= k <= i -> 0 <= m < 2 ^ k -> Z.testbit m i = false.
Proof.
  intros Hk Hm. pose proof (testbit_low_high m 0 k i) as H.
  rewrite Z.mul_0_l, Z.add_0_r in H. rewrite H by lia.
  destruct (Z.ltb_spec i k); [lia |]. apply Z.testbit_0_l.
Qed.

Lemma testbit_high q k i :
  0 <= k -> 0 <= i ->
  Z.testbit (q * 2 ^ k) i = if i <? k then false else Z.testbit q (i - k).
Proof.
  intros Hk Hi. replace (q * 2 ^ k) with (0 + q * 2 ^ k) by lia.
  rewrite testbit_low_high by lia. by rewrite Z.testbit_0_l.
Qed.

Lemma lor_low_high m q k :
  0 <= k -> 0 <= m < 2 ^ k -> Z.lor m (q * 2 ^ k) = m + q * 2 ^ k.
Proof.
  intros Hk Hm. apply Z.bits_inj'. intros i Hi.
  rewrite Z.lor_spec, testbit_low_high, testbit_high by lia.
  destruct (Z.ltb_spec i k); [by rewrite orb_false_r |].
  by rewrite (testbit_small m k) by lia.
Qed.

Lemma clear_high m q k :
  0 <= k -> 0 <= m < 2 ^ k -> Z.land (m + q * 2 ^ k) (Z.lnot (q * 2 ^ k)) = m.
Proof.
  intros Hk Hm. apply Z.bits_inj'. intros i Hi.
  rewrite Z.land_spec, Z.lnot_spec, testbit_low_high, testbit_high by lia.
  destruct (Z.ltb_spec i k); [by rewrite andb_true_r |].
  rewrite (testbit_small m k) by lia. by destruct (Z.testbit q (i - k)).
Qed.

Lemma land_ones_mod z k : 0 <= k -> Z.land z (2 ^ k - 1) = z mod 2 ^ k.
Proof. intros. rewrite <- Z.land_ones by lia. by rewrite Z.ones_equiv. Qed.

Lemma wrap_i64_id z : is_i64 z -> wrap_i64 z = z.
Proof.
  unfold is_i64, i64_min, i64_max, wrap_i64. intros. rewrite Z.mod_small; lia.
Qed.

Lemma wrap_i64_range z : is_i64 (wrap_i64 z).
Proof.
  unfold is_i64, i64_min, i64_max, wrap_i64.
  pose proof (Z.mod_pos_bound (z + 2 ^ 63) (2 ^ 64)). lia.
Qed.

Lemma in_i64_spec z : in_i64 z = true <-> is_i64 z.
Proof. unfold in_i64, is_i64. lia. Qed.

Lemma in_u64_spec z : in_u64 z = true <-> is_u64 z.
Proof. unfold in_u64, is_u64. lia. Qed.

Lemma checked_u64_Ok {E} z : is_u64 z -> expect (E := E) (checked_u64 z) = Ok z.
Proof. intros Hz%in_u64_spec. unfold checked_u64. by rewrite Hz. Qed.

Lemma checked_u32_Ok {E} z : is_u32 z -> expect (E := E) (checked_u32 z) = Ok z.
Proof.
  unfold is_u32, checked_u32. intros [H0 H1].
  by rewrite (proj2 (Z.leb_le 0 z) H0), (proj2 (Z.leb_le z u32_max) H1).
Qed.

(** A decidable property of bytes holds when it holds of the 256 bytes. *)
Lemma u8_forall (P : Z -> bool) (b : Z) :
  forallb P (seqZ 0 256) = true -> is_u8 b -> P b = true.
Proof.
  rewrite forallb_forall. unfold is_u8, u8_max. intros H Hb.
  apply H, list_elem_of_In, elem_of_seqZ. lia.
Qed.

Lemma zsum_app l1 l2 : zsum (l1 ++ l2) = zsum l1 + zsum l2.
Proof. unfold zsum. induction l1 as [| z l1 IH]; cbn; lia. Qed.

Lemma zsum_nonneg l : Forall (Z.le 0) l -> 0 <= zsum l.
Proof. unfold zsum. induction 1; cbn; lia. Qed.

(** ** Lemmas on byte strings *)

Lemma bytes_ok_app bs1 bs2 : bytes_ok (bs1 ++ bs2) <-> bytes_ok bs1 /\ bytes_ok bs2.
Proof. apply Forall_app. Qed.

Lemma bytes_ok_cons b bs : bytes_ok (b :: bs) <-> is_u8 b /\ bytes_ok bs.
Proof. apply Forall_cons_iff. Qed.

Lemma bytes_ok_nil : bytes_ok [].
Proof. apply Forall_nil_2. Qed.

Lemma bytes_ok_snoc bs b : bytes_ok (bs ++ [b]) <-> bytes_ok bs /\ is_u8 b.
Proof.
  rewrite bytes_ok_app, bytes_ok_cons. pose proof bytes_ok_nil. naive_solver.
Qed.

#[export] Hint Resolve bytes_ok_nil : rust.

Definition bytes_okb (bs : list Z) : bool := forallb (fun b => (0 <=? b) && (b <=? u8_max)) bs.

Lemma bytes_okb_spec bs : bytes_okb bs = true <-> bytes_ok bs.
Proof.
  unfold bytes_okb, bytes_ok, is_u8. rewrite forallb_forall, List.Forall_forall.
  split; intros H b Hb; specialize (H b Hb); [bools; lia | btest].
Qed.

Lemma le_value_app bs1 bs2 :
  le_value (bs1 ++ bs2) = le_value bs1 + 2 ^ (8 * Z.of_nat (length bs1)) * le_value bs2.
Proof.
  induction bs1 as [| b bs1 IH]; cbn [le_value app length]; [lia |].
  rewrite IH, Nat2Z.inj_succ, Z.mul_succ_r, Z.pow_add_r by lia. lia.
Qed.

Lemma le_value_bound bs :
  bytes_ok bs -> 0 <= le_value bs < 2 ^ (8 * Z.of_nat (length bs)).
Proof.
  induction bs as [| b bs IH]; cbn [le_value length]; [lia |].
  rewrite bytes_ok_cons, Nat2Z.inj_succ, Z.mul_succ_r, Z.pow_add_r by lia.
  unfold is_u8, u8_max. intros [? ?%IH]. lia.
Qed.

Lemma le_value_snoc_pos bs b :
  bytes_ok bs -> 0 < b -> 0 < le_value (bs ++ [b]).
Proof.
  intros Hbs Hb. rewrite le_value_app. cbn [le_value].
  pose proof (le_value_bound bs Hbs).
  assert (0 < 2 ^ (8 * Z.of_nat (length bs))) by (apply Z.pow_pos_nonneg; lia). nia.
Qed.

Lemma le_bytes_length n z : length (le_bytes n z) = n.
Proof. revert z. induction n; intros; cbn; auto. Qed.

Lemma le_bytes_ok n z : bytes_ok (le_bytes n z).
Proof.
  revert z. induction n; intros; cbn [le_bytes]; [apply bytes_ok_nil |].
  apply bytes_ok_cons. split; [| auto]. unfold is_u8, u8_max.
  pose proof (Z.mod_pos_bound z 256). lia.
Qed.

Lemma le_value_bytes n z :
  0 <= z < 2 ^ (8 * Z.of_nat n) -> le_value (le_bytes n z) = z.
Proof.
  revert z. induction n as [| n IH]; intros z; cbn [le_bytes le_value]; [lia |].
  rewrite Nat2Z.inj_succ, Z.mul_succ_r, Z.pow_add_r by lia. intros Hz.
  rewrite IH; [pose proof (Z.div_mod z 256); lia |].
  split; [apply Z.div_pos; lia | apply Z.div_lt_upper_bound; lia].
Qed.

Lemma le_bytes_value bs : bytes_ok bs -> le_bytes (length bs) (le_value bs) = bs.
Proof.
  induction bs as [| b bs IH]; cbn [le_bytes le_value length]; [done |].
  rewrite bytes_ok_cons. unfold is_u8, u8_max. intros [Hb Hbs]. f_equal.
  - rewrite Z.mul_comm, Z.mod_add by lia. apply Z.mod_small. lia.
  - rewrite Z.mul_comm, Z.div_add by lia. rewrite Z.div_small by lia. auto.
Qed.

#[export] Hint Resolve le_bytes_ok : rust.
