(* ===== verification/Opcode.v ===== *)
(** * Script opcodes ([crates/subcoin-script/src/opcode.rs])

    The [Opcode] enumeration of the interpreter with its [#[repr(u8)]] values
    ([as_u8] is the cast [opcode as u8]) and the generated conversion
    [from_u8]. *)

From Stdlib Require Import ZArith Lia.
From stdpp Require Import prelude.
From S2P Require Import Prelude.

(** Script opcodes. *)
Inductive Opcode :=
| OP_0 | OP_PUSHBYTES_1 | OP_PUSHBYTES_2 | OP_PUSHBYTES_3 | OP_PUSHBYTES_4
| OP_PUSHBYTES_5 | OP_PUSHBYTES_6 | OP_PUSHBYTES_7 | OP_PUSHBYTES_8 | OP_PUSHBYTES_9
| OP_PUSHBYTES_10 | OP_PUSHBYTES_11 | OP_PUSHBYTES_12 | OP_PUSHBYTES_13
| OP_PUSHBYTES_14 | OP_PUSHBYTES_15 | OP_PUSHBYTES_16 | OP_PUSHBYTES_17
| OP_PUSHBYTES_18 | OP_PUSHBYTES_19 | OP_PUSHBYTES_20 | OP_PUSHBYTES_21
| OP_PUSHBYTES_22 | OP_PUSHBYTES_23 | OP_PUSHBYTES_24 | OP_PUSHBYTES_25
| OP_PUSHBYTES_26 | OP_PUSHBYTES_27 | OP_PUSHBYTES_28 | OP_PUSHBYTES_29
| OP_PUSHBYTES_30 | OP_PUSHBYTES_31 | OP_PUSHBYTES_32 | OP_PUSHBYTES_33
| OP_PUSHBYTES_34 | OP_PUSHBYTES_35 | OP_PUSHBYTES_36 | OP_PUSHBYTES_37
| OP_PUSHBYTES_38 | OP_PUSHBYTES_39 | OP_PUSHBYTES_40 | OP_PUSHBYTES_41
| OP_PUSHBYTES_42 | OP_PUSHBYTES_43 | OP_PUSHBYTES_44 | OP_PUSHBYTES_45
| OP_PUSHBYTES_46 | OP_PUSHBYTES_47 | OP_PUSHBYTES_48 | OP_PUSHBYTES_49
| OP_PUSHBYTES_50 | OP_PUSHBYTES_51 | OP_PUSHBYTES_52 | OP_PUSHBYTES_53
| OP_PUSHBYTES_54 | OP_PUSHBYTES_55 | OP_PUSHBYTES_56 | OP_PUSHBYTES_57
| OP_PUSHBYTES_58 | OP_PUSHBYTES_59 | OP_PUSHBYTES_60 | OP_PUSHBYTES_61
| OP_PUSHBYTES_62 | OP_PUSHBYTES_63 | OP_PUSHBYTES_64 | OP_PUSHBYTES_65
| OP_PUSHBYTES_66 | OP_PUSHBYTES_67 | OP_PUSHBYTES_68 | OP_PUSHBYTES_69
| OP_PUSHBYTES_70 | OP_PUSHBYTES_71 | OP_PUSHBYTES_72 | OP_PUSHBYTES_73
| OP_PUSHBYTES_74 | OP_PUSHBYTES_75 | OP_PUSHDATA1 | OP_PUSHDATA2 | OP_PUSHDATA4
| OP_1NEGATE | OP_1 | OP_2 | OP_3 | OP_4 | OP_5 | OP_6 | OP_7 | OP_8 | OP_9 | OP_10
| OP_11 | OP_12 | OP_13 | OP_14 | OP_15 | OP_16 | OP_NOP | OP_IF | OP_NOTIF | OP_ELSE
| OP_ENDIF | OP_VERIFY | OP_RETURN | OP_TOALTSTACK | OP_FROMALTSTACK | OP_2DROP
| OP_2DUP | OP_3DUP | OP_2OVER | OP_2ROT | OP_2SWAP | OP_IFDUP | OP_DEPTH | OP_DROP
| OP_DUP | OP_NIP | OP_OVER | OP_PICK | OP_ROLL | OP_ROT | OP_SWAP | OP_TUCK | OP_CAT
| OP_SUBSTR | OP_LEFT | OP_RIGHT | OP_SIZE | OP_INVERT | OP_AND | OP_OR | OP_XOR
| OP_EQUAL | OP_EQUALVERIFY | OP_1ADD | OP_1SUB | OP_2MUL | OP_2DIV | OP_NEGATE
| OP_ABS | OP_NOT | OP_0NOTEQUAL | OP_ADD | OP_SUB | OP_MUL | OP_DIV | OP_MOD
| OP_LSHIFT | OP_RSHIFT | OP_BOOLAND | OP_BOOLOR | OP_NUMEQUAL | OP_NUMEQUALVERIFY
| OP_NUMNOTEQUAL | OP_LESSTHAN | OP_GREATERTHAN | OP_LESSTHANOREQUAL
| OP_GREATERTHANOREQUAL | OP_MIN | OP_MAX | OP_WITHIN | OP_RIPEMD160 | OP_SHA1
| OP_SHA256 | OP_HASH160 | OP_HASH256 | OP_CODESEPARATOR | OP_CHECKSIG
| OP_CHECKSIGVERIFY | OP_CHECKMULTISIG | OP_CHECKMULTISIGVERIFY | OP_CHECKSIGADD
| OP_CHECKLOCKTIMEVERIFY | OP_CHECKSEQUENCEVERIFY | OP_RESERVED | OP_VER | OP_RESERVED1
| OP_RESERVED2 | OP_VERIF | OP_VERNOTIF | OP_NOP1 | OP_NOP4 | OP_NOP5 | OP_NOP6
| OP_NOP7 | OP_NOP8 | OP_NOP9 | OP_NOP10.

(** The discriminant of an opcode. *)
Definition as_u8 (op : Opcode) : Z :=
  match op with
  | OP_0 => 0x00 | OP_PUSHBYTES_1 => 0x01 | OP_PUSHBYTES_2 => 0x02
  | OP_PUSHBYTES_3 => 0x03 | OP_PUSHBYTES_4 => 0x04 | OP_PUSHBYTES_5 => 0x05
  | OP_PUSHBYTES_6 => 0x06 | OP_PUSHBYTES_7 => 0x07 | OP_PUSHBYTES_8 => 0x08
  | OP_PUSHBYTES_9 => 0x09 | OP_PUSHBYTES_10 => 0x0a | OP_PUSHBYTES_11 => 0x0b
  | OP_PUSHBYTES_12 => 0x0c | OP_PUSHBYTES_13 => 0x0d | OP_PUSHBYTES_14 => 0x0e
  | OP_PUSHBYTES_15 => 0x0f | OP_PUSHBYTES_16 => 0x10 | OP_PUSHBYTES_17 => 0x11
  | OP_PUSHBYTES_18 => 0x12 | OP_PUSHBYTES_19 => 0x13 | OP_PUSHBYTES_20 => 0x14
  | OP_PUSHBYTES_21 => 0x15 | OP_PUSHBYTES_22 => 0x16 | OP_PUSHBYTES_23 => 0x17
  | OP_PUSHBYTES_24 => 0x18 | OP_PUSHBYTES_25 => 0x19 | OP_PUSHBYTES_26 => 0x1a
  | OP_PUSHBYTES_27 => 0x1b | OP_PUSHBYTES_28 => 0x1c | OP_PUSHBYTES_29 => 0x1d
  | OP_PUSHBYTES_30 => 0x1e | OP_PUSHBYTES_31 => 0x1f | OP_PUSHBYTES_32 => 0x20
  | OP_PUSHBYTES_33 => 0x21 | OP_PUSHBYTES_34 => 0x22 | OP_PUSHBYTES_35 => 0x23
  | OP_PUSHBYTES_36 => 0x24 | OP_PUSHBYTES_37 => 0x25 | OP_PUSHBYTES_38 => 0x26
  | OP_PUSHBYTES_39 => 0x27 | OP_PUSHBYTES_40 => 0x28 | OP_PUSHBYTES_41 => 0x29
  | OP_PUSHBYTES_42 => 0x2a | OP_PUSHBYTES_43 => 0x2b | OP_PUSHBYTES_44 => 0x2c
  | OP_PUSHBYTES_45 => 0x2d | OP_PUSHBYTES_46 => 0x2e | OP_PUSHBYTES_47 => 0x2f
  | OP_PUSHBYTES_48 => 0x30 | OP_PUSHBYTES_49 => 0x31 | OP_PUSHBYTES_50 => 0x32
  | OP_PUSHBYTES_51 => 0x33 | OP_PUSHBYTES_52 => 0x34 | OP_PUSHBYTES_53 => 0x35
  | OP_PUSHBYTES_54 => 0x36 | OP_PUSHBYTES_55 => 0x37 | OP_PUSHBYTES_56 => 0x38
  | OP_PUSHBYTES_57 => 0x39 | OP_PUSHBYTES_58 => 0x3a | OP_PUSHBYTES_59 => 0x3b
  | OP_PUSHBYTES_60 => 0x3c | OP_PUSHBYTES_61 => 0x3d | OP_PUSHBYTES_62 => 0x3e
  | OP_PUSHBYTES_63 => 0x3f | OP_PUSHBYTES_64 => 0x40 | OP_PUSHBYTES_65 => 0x41
  | OP_PUSHBYTES_66 => 0x42 | OP_PUSHBYTES_67 => 0x43 | OP_PUSHBYTES_68 => 0x44
  | OP_PUSHBYTES_69 => 0x45 | OP_PUSHBYTES_70 => 0x46 | OP_PUSHBYTES_71 => 0x47
  | OP_PUSHBYTES_72 => 0x48 | OP_PUSHBYTES_73 => 0x49 | OP_PUSHBYTES_74 => 0x4a
  | OP_PUSHBYTES_75 => 0x4b | OP_PUSHDATA1 => 0x4c | OP_PUSHDATA2 => 0x4d
  | OP_PUSHDATA4 => 0x4e | OP_1NEGATE => 0x4f | OP_1 => 0x51 | OP_2 => 0x52
  | OP_3 => 0x53 | OP_4 => 0x54 | OP_5 => 0x55 | OP_6 => 0x56 | OP_7 => 0x57
  | OP_8 => 0x58 | OP_9 => 0x59 | OP_10 => 0x5a | OP_11 => 0x5b | OP_12 => 0x5c
  | OP_13 => 0x5d | OP_14 => 0x5e | OP_15 => 0x5f | OP_16 => 0x60 | OP_NOP => 0x61
  | OP_IF => 0x63 | OP_NOTIF => 0x64 | OP_ELSE => 0x67 | OP_ENDIF => 0x68
  | OP_VERIFY => 0x69 | OP_RETURN => 0x6a | OP_TOALTSTACK => 0x6b
  | OP_FROMALTSTACK => 0x6c | OP_2DROP => 0x6d | OP_2DUP => 0x6e | OP_3DUP => 0x6f
  | OP_2OVER => 0x70 | OP_2ROT => 0x71 | OP_2SWAP => 0x72 | OP_IFDUP => 0x73
  | OP_DEPTH => 0x74 | OP_DROP => 0x75 | OP_DUP => 0x76 | OP_NIP => 0x77
  | OP_OVER => 0x78 | OP_PICK => 0x79 | OP_ROLL => 0x7a | OP_ROT => 0x7b
  | OP_SWAP => 0x7c | OP_TUCK => 0x7d | OP_CAT => 0x7e | OP_SUBSTR => 0x7f
  | OP_LEFT => 0x80 | OP_RIGHT => 0x81 | OP_SIZE => 0x82 | OP_INVERT => 0x83
  | OP_AND => 0x84 | OP_OR => 0x85 | OP_XOR => 0x86 | OP_EQUAL => 0x87
  | OP_EQUALVERIFY => 0x88 | OP_1ADD => 0x8b | OP_1SUB => 0x8c | OP_2MUL => 0x8d
  | OP_2DIV => 0x8e | OP_NEGATE => 0x8f | OP_ABS => 0x90 | OP_NOT => 0x91
  | OP_0NOTEQUAL => 0x92 | OP_ADD => 0x93 | OP_SUB => 0x94 | OP_MUL => 0x95
  | OP_DIV => 0x96 | OP_MOD => 0x97 | OP_LSHIFT => 0x98 | OP_RSHIFT => 0x99
  | OP_BOOLAND => 0x9a | OP_BOOLOR => 0x9b | OP_NUMEQUAL => 0x9c
  | OP_NUMEQUALVERIFY => 0x9d | OP_NUMNOTEQUAL => 0x9e | OP_LESSTHAN => 0x9f
  | OP_GREATERTHAN => 0xa0 | OP_LESSTHANOREQUAL => 0xa1 | OP_GREATERTHANOREQUAL => 0xa2
  | OP_MIN => 0xa3 | OP_MAX => 0xa4 | OP_WITHIN => 0xa5 | OP_RIPEMD160 => 0xa6
  | OP_SHA1 => 0xa7 | OP_SHA256 => 0xa8 | OP_HASH160 => 0xa9 | OP_HASH256 => 0xaa
  | OP_CODESEPARATOR => 0xab | OP_CHECKSIG => 0xac | OP_CHECKSIGVERIFY => 0xad
  | OP_CHECKMULTISIG => 0xae | OP_CHECKMULTISIGVERIFY => 0xaf | OP_CHECKSIGADD => 0xba
  | OP_CHECKLOCKTIMEVERIFY => 0xb1 | OP_CHECKSEQUENCEVERIFY => 0xb2
  | OP_RESERVED => 0x50 | OP_VER => 0x62 | OP_RESERVED1 => 0x89 | OP_RESERVED2 => 0x8a
  | OP_VERIF => 0x65 | OP_VERNOTIF => 0x66 | OP_NOP1 => 0xb0 | OP_NOP4 => 0xb3
  | OP_NOP5 => 0xb4 | OP_NOP6 => 0xb5 | OP_NOP7 => 0xb6 | OP_NOP8 => 0xb7
  | OP_NOP9 => 0xb8 | OP_NOP10 => 0xb9
  end.

(** Converts a [u8] to [Opcode]. *)
Definition from_u8 (value : Z) : option Opcode :=
  match value with
  | 0x00 => Some OP_0 | 0x01 => Some OP_PUSHBYTES_1 | 0x02 => Some OP_PUSHBYTES_2
  | 0x03 => Some OP_PUSHBYTES_3 | 0x04 => Some OP_PUSHBYTES_4
  | 0x05 => Some OP_PUSHBYTES_5 | 0x06 => Some OP_PUSHBYTES_6
  | 0x07 => Some OP_PUSHBYTES_7 | 0x08 => Some OP_PUSHBYTES_8
  | 0x09 => Some OP_PUSHBYTES_9 | 0x0a => Some OP_PUSHBYTES_10
  | 0x0b => Some OP_PUSHBYTES_11 | 0x0c => Some OP_PUSHBYTES_12
  | 0x0d => Some OP_PUSHBYTES_13 | 0x0e => Some OP_PUSHBYTES_14
  | 0x0f => Some OP_PUSHBYTES_15 | 0x10 => Some OP_PUSHBYTES_16
  | 0x11 => Some OP_PUSHBYTES_17 | 0x12 => Some OP_PUSHBYTES_18
  | 0x13 => Some OP_PUSHBYTES_19 | 0x14 => Some OP_PUSHBYTES_20
  | 0x15 => Some OP_PUSHBYTES_21 | 0x16 => Some OP_PUSHBYTES_22
  | 0x17 => Some OP_PUSHBYTES_23 | 0x18 => Some OP_PUSHBYTES_24
  | 0x19 => Some OP_PUSHBYTES_25 | 0x1a => Some OP_PUSHBYTES_26
  | 0x1b => Some OP_PUSHBYTES_27 | 0x1c => Some OP_PUSHBYTES_28
  | 0x1d => Some OP_PUSHBYTES_29 | 0x1e => Some OP_PUSHBYTES_30
  | 0x1f => Some OP_PUSHBYTES_31 | 0x20 => Some OP_PUSHBYTES_32
  | 0x21 => Some OP_PUSHBYTES_33 | 0x22 => Some OP_PUSHBYTES_34
  | 0x23 => Some OP_PUSHBYTES_35 | 0x24 => Some OP_PUSHBYTES_36
  | 0x25 => Some OP_PUSHBYTES_37 | 0x26 => Some OP_PUSHBYTES_38
  | 0x27 => Some OP_PUSHBYTES_39 | 0x28 => Some OP_PUSHBYTES_40
  | 0x29 => Some OP_PUSHBYTES_41 | 0x2a => Some OP_PUSHBYTES_42
  | 0x2b => Some OP_PUSHBYTES_43 | 0x2c => Some OP_PUSHBYTES_44
  | 0x2d => Some OP_PUSHBYTES_45 | 0x2e => Some OP_PUSHBYTES_46
  | 0x2f => Some OP_PUSHBYTES_47 | 0x30 => Some OP_PUSHBYTES_48
  | 0x31 => Some OP_PUSHBYTES_49 | 0x32 => Some OP_PUSHBYTES_50
  | 0x33 => Some OP_PUSHBYTES_51 | 0x34 => Some OP_PUSHBYTES_52
  | 0x35 => Some OP_PUSHBYTES_53 | 0x36 => Some OP_PUSHBYTES_54
  | 0x37 => Some OP_PUSHBYTES_55 | 0x38 => Some OP_PUSHBYTES_56
  | 0x39 => Some OP_PUSHBYTES_57 | 0x3a => Some OP_PUSHBYTES_58
  | 0x3b => Some OP_PUSHBYTES_59 | 0x3c => Some OP_PUSHBYTES_60
  | 0x3d => Some OP_PUSHBYTES_61 | 0x3e => Some OP_PUSHBYTES_62
  | 0x3f => Some OP_PUSHBYTES_63 | 0x40 => Some OP_PUSHBYTES_64
  | 0x41 => Some OP_PUSHBYTES_65 | 0x42 => Some OP_PUSHBYTES_66
  | 0x43 => Some OP_PUSHBYTES_67 | 0x44 => Some OP_PUSHBYTES_68
  | 0x45 => Some OP_PUSHBYTES_69 | 0x46 => Some OP_PUSHBYTES_70
  | 0x47 => Some OP_PUSHBYTES_71 | 0x48 => Some OP_PUSHBYTES_72
  | 0x49 => Some OP_PUSHBYTES_73 | 0x4a => Some OP_PUSHBYTES_74
  | 0x4b => Some OP_PUSHBYTES_75 | 0x4c => Some OP_PUSHDATA1
  | 0x4d => Some OP_PUSHDATA2 | 0x4e => Some OP_PUSHDATA4 | 0x4f => Some OP_1NEGATE
  | 0x51 => Some OP_1 | 0x52 => Some OP_2 | 0x53 => Some OP_3 | 0x54 => Some OP_4
  | 0x55 => Some OP_5 | 0x56 => Some OP_6 | 0x57 => Some OP_7 | 0x58 => Some OP_8
  | 0x59 => Some OP_9 | 0x5a => Some OP_10 | 0x5b => Some OP_11 | 0x5c => Some OP_12
  | 0x5d => Some OP_13 | 0x5e => Some OP_14 | 0x5f => Some OP_15 | 0x60 => Some OP_16
  | 0x61 => Some OP_NOP | 0x63 => Some OP_IF | 0x64 => Some OP_NOTIF
  | 0x67 => Some OP_ELSE | 0x68 => Some OP_ENDIF | 0x69 => Some OP_VERIFY
  | 0x6a => Some OP_RETURN | 0x6b => Some OP_TOALTSTACK | 0x6c => Some OP_FROMALTSTACK
  | 0x6d => Some OP_2DROP | 0x6e => Some OP_2DUP | 0x6f => Some OP_3DUP
  | 0x70 => Some OP_2OVER | 0x71 => Some OP_2ROT | 0x72 => Some OP_2SWAP
  | 0x73 => Some OP_IFDUP | 0x74 => Some OP_DEPTH | 0x75 => Some OP_DROP
  | 0x76 => Some OP_DUP | 0x77 => Some OP_NIP | 0x78 => Some OP_OVER
  | 0x79 => Some OP_PICK | 0x7a => Some OP_ROLL | 0x7b => Some OP_ROT
  | 0x7c => Some OP_SWAP | 0x7d => Some OP_TUCK | 0x7e => Some OP_CAT
  | 0x7f => Some OP_SUBSTR | 0x80 => Some OP_LEFT | 0x81 => Some OP_RIGHT
  | 0x82 => Some OP_SIZE | 0x83 => Some OP_INVERT | 0x84 => Some OP_AND
  | 0x85 => Some OP_OR | 0x86 => Some OP_XOR | 0x87 => Some OP_EQUAL
  | 0x88 => Some OP_EQUALVERIFY | 0x8b => Some OP_1ADD | 0x8c => Some OP_1SUB
  | 0x8d => Some OP_2MUL | 0x8e => Some OP_2DIV | 0x8f => Some OP_NEGATE
  | 0x90 => Some OP_ABS | 0x91 => Some OP_NOT | 0x92 => Some OP_0NOTEQUAL
  | 0x93 => Some OP_ADD | 0x94 => Some OP_SUB | 0x95 => Some OP_MUL
  | 0x96 => Some OP_DIV | 0x97 => Some OP_MOD | 0x98 => Some OP_LSHIFT
  | 0x99 => Some OP_RSHIFT | 0x9a => Some OP_BOOLAND | 0x9b => Some OP_BOOLOR
  | 0x9c => Some OP_NUMEQUAL | 0x9d => Some OP_NUMEQUALVERIFY
  | 0x9e => Some OP_NUMNOTEQUAL | 0x9f => Some OP_LESSTHAN
  | 0xa0 => Some OP_GREATERTHAN | 0xa1 => Some OP_LESSTHANOREQUAL
  | 0xa2 => Some OP_GREATERTHANOREQUAL | 0xa3 => Some OP_MIN | 0xa4 => Some OP_MAX
  | 0xa5 => Some OP_WITHIN | 0xa6 => Some OP_RIPEMD160 | 0xa7 => Some OP_SHA1
  | 0xa8 => Some OP_SHA256 | 0xa9 => Some OP_HASH160 | 0xaa => Some OP_HASH256
  | 0xab => Some OP_CODESEPARATOR | 0xac => Some OP_CHECKSIG
  | 0xad => Some OP_CHECKSIGVERIFY | 0xae => Some OP_CHECKMULTISIG
  | 0xaf => Some OP_CHECKMULTISIGVERIFY | 0xba => Some OP_CHECKSIGADD
  | 0xb1 => Some OP_CHECKLOCKTIMEVERIFY | 0xb2 => Some OP_CHECKSEQUENCEVERIFY
  | 0x50 => Some OP_RESERVED | 0x62 => Some OP_VER | 0x89 => Some OP_RESERVED1
  | 0x8a => Some OP_RESERVED2 | 0x65 => Some OP_VERIF | 0x66 => Some OP_VERNOTIF
  | 0xb0 => Some OP_NOP1 | 0xb3 => Some OP_NOP4 | 0xb4 => Some OP_NOP5
  | 0xb5 => Some OP_NOP6 | 0xb6 => Some OP_NOP7 | 0xb7 => Some OP_NOP8
  | 0xb8 => Some OP_NOP9 | 0xb9 => Some OP_NOP10
  | _ => None
  end.

Lemma as_u8_range op : is_u8 (as_u8 op).
Proof. destruct op; unfold is_u8, u8_max; cbn; lia. Qed.

Lemma from_as_u8 op : from_u8 (as_u8 op) = Some op.
Proof. by destruct op. Qed.

#[export] Instance as_u8_inj : Inj (=) (=) as_u8.
Proof.
  intros op1 op2 H. apply (f_equal from_u8) in H. rewrite !from_as_u8 in H. congruence.
Qed.

#[export] Instance Opcode_eq_dec : EqDecision Opcode.
Proof.
  intros x y. destruct (decide (as_u8 x = as_u8 y)) as [H | H].
  - left. by apply (inj as_u8).
  - right. congruence.
Defined.

(** A byte decodes to an opcode exactly when it is that opcode's value. *)
Lemma from_u8_iff value op :
  is_u8 value -> from_u8 value = Some op <-> value = as_u8 op.
Proof.
  intros Hv. split; [| intros ->; apply from_as_u8].
  intros H.
  pose proof (u8_forall
    (fun v => match from_u8 v with Some op => v =? as_u8 op | None => true end)
    value eq_refl Hv) as Hc.
  cbn beta in Hc. rewrite H in Hc. lia.
Qed.
