(* ===== verification/ScriptNum.v ===== *)
(** * Script numbers ([crates/subcoin-script/src/num.rs])

    A [ScriptNum] wraps an [i64]; it is the [Z] of that [i64].  The file holds
    the decoder [from_bytes], the encoder [as_bytes], the minimality test and
    the checked arithmetic, and proves that decoder and encoder are inverse,
    that the accepted minimal encodings are exactly the encoder's outputs, and
    the ranges the script interpreter relies on. *)

From Stdlib Require Import ZArith Lia.
From stdpp Require Import prelude.
From S2P Require Import Prelude.

(** Script number error type. *)
Inductive NumError :=
| NumOverflow
| NotMinimallyEncoded.

#[export] Instance NumError_eq_dec : EqDecision NumError.
Proof. solve_decision. Defined.

Module ScriptNum.

(** Maximum script number length in bytes. *)
Definition MAX_NUM_SIZE : nat := 4.

(** [i64::wrapping_shl]: the shift amount is taken modulo 64. *)
Definition wrapping_shl (z s : Z) : Z := wrap_i64 (Z.shiftl z (s mod 64)).

(** Unary minus on [i64]. *)
Definition neg_i64 {E} (z : Z) : res E Z := expect (checked_i64 (- z)).

(** Check if the byte array is minimally encoded. *)
Definition is_minimally_encoded (data : bytes) : bool :=
  match reverse data with
  | [] => true
  | b :: rest =>
      negb ((Z.land b 0x7f =? 0) &&
            match rest with
            | [] => true
            | b' :: _ => Z.land b' 0x80 =? 0
            end)
  end.

(** The loop [result |= i64::from(byte).wrapping_shl(8 * i)]. *)
Fixpoint parse_le (i : Z) (data : bytes) (result : Z) : Z :=
  match data with
  | [] => result
  | b :: data => parse_le (i + 1) data (Z.lor result (wrapping_shl b (8 * i)))
  end.

(** Construct a [ScriptNum] with size validation. *)
Definition from_bytes (data : bytes) (require_minimal : bool)
    (max_size : option nat) : res NumError Z :=
  let max_size := default MAX_NUM_SIZE max_size in
  if (max_size <? length data)%nat then Err NumOverflow
  else
    match last data with
    | None => Ok 0
    | Some last_byte =>
        if require_minimal && negb (is_minimally_encoded data)
        then Err NotMinimallyEncoded
        else
          let result := parse_le 0 data 0 in
          if negb (Z.land last_byte 0x80 =? 0) then
            neg_i64 (Z.land result
                       (Z.lnot (wrapping_shl 0x80 (8 * (Z.of_nat (length data) - 1)))))
          else Ok result
    end.

(** The loop that emits the bytes of the absolute value.  The value is below
    [2^63], so eight rounds empty it ([abs_bytes_value]). *)
Fixpoint abs_bytes (fuel : nat) (abs_value : Z) : bytes :=
  match fuel with
  | O => []
  | S fuel =>
      if abs_value =? 0 then []
      else Z.land abs_value 0xff :: abs_bytes fuel (Z.shiftr abs_value 8)
  end.

(** [result[len - 1] |= 0x80]. *)
Definition set_sign (result : bytes) : bytes :=
  match last result with
  | None => result
  | Some b => removelast result ++ [Z.lor b 0x80]
  end.

(** Convert the number to a minimally encoded byte vector.  [i64::abs]
    overflows on [i64::MIN]. *)
Definition as_bytes {E} (value : Z) : res E bytes :=
  if value =? 0 then Ok []
  else
    abs_value ← expect (checked_i64 (Z.abs value));
    let result := abs_bytes 8 abs_value in
    let negative := value <? 0 in
    b ← expect (last result);
    if negb (Z.land b 0x80 =? 0) then
      Ok (result ++ [if negative then 0x80 else 0])
    else if negative then Ok (set_sign result)
    else Ok result.

Definition is_zero (value : Z) : bool := value =? 0.
Definition is_negative (value : Z) : bool := value <? 0.

Definition abs {E} (value : Z) : res E Z := expect (checked_i64 (Z.abs value)).
Definition add (v1 v2 : Z) : res NumError Z := ok_or NumOverflow (checked_i64 (v1 + v2)).
Definition sub (v1 v2 : Z) : res NumError Z := ok_or NumOverflow (checked_i64 (v1 - v2)).
Definition neg (v : Z) : res NumError Z := ok_or NumOverflow (checked_i64 (- v)).

(** ** The intended reading: sign and magnitude, little endian *)

Definition sm_value (data : bytes) : Z :=
  match last data with
  | None => 0
  | Some b =>
      let m := le_value (removelast data) +
               2 ^ (8 * (Z.of_nat (length data) - 1)) * (b mod 128) in
      if 128 <=? b then - m else m
  end.

(** ** Lemmas *)

Lemma land_7f b : is_u8 b -> Z.land b 0x7f = b mod 128.
Proof. intros. apply (land_ones_mod b 7). lia. Qed.

Lemma land_80 b : is_u8 b -> Z.land b 0x80 = if 128 <=? b then 128 else 0.
Proof.
  intros Hb. apply Z.eqb_eq.
  by apply (u8_forall (fun b => Z.land b 0x80 =? if 128 <=? b then 128 else 0)).
Qed.

Lemma land_80_zero b : is_u8 b -> (Z.land b 0x80 =? 0) = (b <? 128).
Proof.
  intros Hb. rewrite land_80 by done.
  destruct (Z.leb_spec 128 b), (Z.ltb_spec b 128); auto; lia.
Qed.

Lemma last_snoc_split {A} (l : list A) x :
  last l = Some x -> l = removelast l ++ [x].
Proof.
  intros H. apply last_Some in H as [l' ->]. by rewrite removelast_last.
Qed.

(** A shifted byte is a multiple of the shift, also when it wraps. *)
Lemma wrapping_shl_multiple b i :
  0 <= i < 8 -> exists q, wrapping_shl b (8 * i) = q * 2 ^ (8 * i) /\
                          (is_u8 b -> i < 7 \/ b < 128 -> q = b).
Proof.
  intros Hi. unfold wrapping_shl. rewrite Z.mod_small by lia.
  rewrite Z.shiftl_mul_pow2 by lia. unfold wrap_i64.
  exists (b - 2 ^ (64 - 8 * i) * ((b * 2 ^ (8 * i) + 2 ^ 63) / 2 ^ 64)). split.
  - rewrite Z.mod_eq by lia.
    replace (2 ^ 64) with (2 ^ (64 - 8 * i) * 2 ^ (8 * i)) at 1
      by (rewrite <- Z.pow_add_r by lia; f_equal; lia).
    lia.
  - unfold is_u8, u8_max. intros Hb Hc.
    rewrite Z.div_small; [lia |]. split; [nia |].
    destruct (decide (i < 7)).
    + assert (2 ^ (8 * i) <= 2 ^ 48) by (apply Z.pow_le_mono_r; lia). nia.
    + replace i with 7 by lia. lia.
Qed.

Lemma parse_le_small i data acc :
  0 <= i -> i + Z.of_nat (length data) <= 8 ->
  bytes_ok data -> 0 <= acc < 2 ^ (8 * i) ->
  (i + Z.of_nat (length data) = 8 -> forall b, last data = Some b -> b < 128) ->
  parse_le i data acc = acc + 2 ^ (8 * i) * le_value data.
Proof.
  revert i acc. induction data as [| b data IH]; intros i acc Hi Hlen Hok Hacc Hlast;
    cbn [parse_le le_value length] in *; [lia |].
  apply bytes_ok_cons in Hok as [Hb Hok].
  destruct (wrapping_shl_multiple b i) as (q & -> & Hq); [lia |].
  rewrite lor_low_high by lia.
  rewrite Hq; [| done |].
  - assert (2 ^ (8 * (i + 1)) = 2 ^ (8 * i) * 256) as E
      by (rewrite Z.mul_add_distr_l, Z.pow_add_r by lia; lia).
    unfold is_u8, u8_max in Hb. rewrite IH; [rewrite E; lia | lia | lia | done | | ].
    + rewrite E. nia.
    + intros ? b' Hb'. apply Hlast; [lia |]. by rewrite last_cons, Hb'.
  - destruct (decide (i < 7)); [by left | right]. apply Hlast; [lia |].
    destruct data; [done | cbn in Hlen; lia].
Qed.

Lemma parse_le_snoc i data b acc :
  parse_le i (data ++ [b]) acc =
  Z.lor (parse_le i data acc) (wrapping_shl b (8 * (i + Z.of_nat (length data)))).
Proof.
  revert i acc. induction data as [| x data IH]; intros i acc; cbn [parse_le app length].
  - by rewrite Z.add_0_r.
  - rewrite IH. do 3 f_equal. lia.
Qed.

(** The sign bit of the top byte sits at a multiple of its own weight, also in
    the eighth byte, where the shift wraps to a negative number. *)
Lemma wrapping_shl_sign b n :
  0 <= n < 8 -> is_u8 b -> 128 <= b ->
  exists Q, wrapping_shl 0x80 (8 * n) = Q * 2 ^ (8 * n + 7) /\
            wrapping_shl b (8 * n) = (b mod 128 + Q * 2 ^ 7) * 2 ^ (8 * n).
Proof.
  unfold is_u8, u8_max. intros Hn Hb Hs.
  assert (b mod 128 = b - 128) as Hm by zdm. rewrite Hm.
  destruct (decide (n < 7)).
  - exists 1.
    destruct (wrapping_shl_multiple 128 n) as (q & -> & Hq); [lia |].
    destruct (wrapping_shl_multiple b n) as (q' & -> & Hq'); [lia |].
    rewrite Hq, Hq' by (unfold is_u8, u8_max; lia).
    split; [rewrite Z.pow_add_r by lia |]; lia.
  - exists (-1). replace n with 7 by lia.
    unfold wrapping_shl, wrap_i64. change (8 * 7 mod 64) with 56.
    rewrite !Z.shiftl_mul_pow2 by lia. split; [reflexivity |].
    rewrite <- (Z.mod_unique _ (2 ^ 64) 1 (b * 2 ^ 56 - 2 ^ 63)); lia.
Qed.

Lemma sm_magnitude_bound d b :
  bytes_ok d -> is_u8 b ->
  0 <= le_value d + 2 ^ (8 * Z.of_nat (length d)) * (b mod 128)
    < 2 ^ (8 * Z.of_nat (length d) + 7).
Proof.
  intros Hd Hb. pose proof (le_value_bound d Hd).
  rewrite Z.pow_add_r by lia. pose proof (Z.mod_pos_bound b 128). nia.
Qed.

Lemma from_bytes_parse data d b :
  data = d ++ [b] -> bytes_ok data -> (length data <= 8)%nat ->
  (if negb (Z.land b 0x80 =? 0)
   then neg_i64 (Z.land (parse_le 0 data 0)
          (Z.lnot (wrapping_shl 0x80 (8 * (Z.of_nat (length data) - 1)))))
   else Ok (parse_le 0 data 0)) = Ok (E := NumError) (sm_value data).
Proof.
  intros -> [Hd Hb]%bytes_ok_snoc Hlen.
  rewrite length_app in Hlen. cbn in Hlen.
  pose proof (sm_magnitude_bound d b Hd Hb) as Hmag.
  unfold sm_value. rewrite last_snoc, removelast_last, length_app. cbn [length].
  replace (Z.of_nat (length d + 1) - 1) with (Z.of_nat (length d)) by lia.
  rewrite land_80_zero by done. destruct (Z.ltb_spec b 128), (Z.leb_spec 128 b); try lia.
  - cbn. rewrite parse_le_small; rewrite ?length_app; cbn [length]; try lia.
    + rewrite le_value_app. cbn [le_value]. f_equal.
      unfold is_u8 in Hb. rewrite Z.mod_small by lia. lia.
    + by apply bytes_ok_snoc.
    + intros _ ? [= <-]%(eq_trans (eq_sym (last_snoc _ _))). lia.
  - destruct (wrapping_shl_sign b (Z.of_nat (length d))) as (Q & HQ & HQb);
      [lia | done | done |].
    cbn [negb]. rewrite parse_le_snoc, Z.add_0_l, HQ, HQb.
    pose proof (le_value_bound d Hd) as Hdb.
    rewrite parse_le_small by (try lia; try done; intros; lia).
    rewrite Z.add_0_l, lor_low_high by lia.
    replace (_ + _) with (le_value d + 2 ^ (8 * Z.of_nat (length d)) * (b mod 128)
                          + Q * 2 ^ (8 * Z.of_nat (length d) + 7))
      by (rewrite Z.pow_add_r by lia; lia).
    rewrite clear_high by lia. unfold neg_i64, checked_i64.
    assert (in_i64 (- (le_value d + 2 ^ (8 * Z.of_nat (length d)) * (b mod 128))) = true)
      as ->; [| done].
    apply in_i64_spec. unfold is_i64, i64_min, i64_max.
    assert (2 ^ (8 * Z.of_nat (length d) + 7) <= 2 ^ 63) by (apply Z.pow_le_mono_r; lia).
    lia.
Qed.

(** The decoder computes the sign-and-magnitude reading of the bytes, for
    every limit up to the eight bytes of an [i64]. *)
Lemma from_bytes_spec data rm max_size :
  bytes_ok data -> (default MAX_NUM_SIZE max_size <= 8)%nat ->
  from_bytes data rm max_size =
    if (default MAX_NUM_SIZE max_size <? length data)%nat then Err NumOverflow
    else if rm && negb (is_minimally_encoded data) then Err NotMinimallyEncoded
    else Ok (sm_value data).
Proof.
  intros Hok Hmax. unfold from_bytes.
  destruct (Nat.ltb_spec (default MAX_NUM_SIZE max_size) (length data)); [done |].
  destruct (last data) as [b |] eqn:Hlast.
  - destruct (rm && _); [done |].
    eapply from_bytes_parse; [by apply last_snoc_split | done | lia].
  - apply last_None in Hlast as ->. by rewrite andb_false_r.
Qed.

Lemma sm_value_bound data :
  bytes_ok data -> data <> [] ->
  Z.abs (sm_value data) < 2 ^ (8 * Z.of_nat (length data) - 1).
Proof.
  intros Hok Hne. unfold sm_value. destruct (last data) as [b |] eqn:Hl;
    [| by apply last_None in Hl].
  apply last_snoc_split in Hl. rewrite Hl in Hok |- *.
  apply bytes_ok_snoc in Hok as [Hd Hb].
  pose proof (sm_magnitude_bound _ _ Hd Hb).
  rewrite removelast_last, length_app. cbn [length].
  replace (Z.of_nat (length (removelast data) + 1) - 1)
    with (Z.of_nat (length (removelast data))) by lia.
  replace (8 * Z.of_nat (length (removelast data) + 1) - 1)
    with (8 * Z.of_nat (length (removelast data)) + 7) by lia.
  destruct (128 <=? b); lia.
Qed.

(** *** The encoder *)

(** No redundant top byte. *)
Definition no_top_zero (e : bytes) : Prop := forall b, last e = Some b -> b <> 0.

Lemma abs_bytes_le fuel e :
  bytes_ok e -> no_top_zero e -> (length e <= fuel)%nat ->
  abs_bytes fuel (le_value e) = e.
Proof.
  revert e. induction fuel as [| fuel IH]; intros [| b e] Hok Htop Hlen;
    cbn [abs_bytes le_value length] in *; try lia; try done.
  apply bytes_ok_cons in Hok as [Hb Hok]. pose proof (le_value_bound e Hok) as He.
  unfold is_u8, u8_max in Hb.
  assert (no_top_zero e) as Htop'.
  { intros c Hc. apply Htop. by rewrite last_cons, Hc. }
  assert (b + 256 * le_value e <> 0) as Hnz.
  { intros H0. assert (b = 0 /\ le_value e = 0) as [-> He0] by lia.
    destruct e as [| c e']; [by apply (Htop 0) |].
    pose proof (IH (c :: e') Hok Htop' ltac:(lia)) as Habs. rewrite He0 in Habs.
    by destruct fuel. }
  destruct (Z.eqb_spec (b + 256 * le_value e) 0); [done |].
  change 0xff with (2 ^ 8 - 1). rewrite land_ones_mod, Z.shiftr_div_pow2 by lia.
  change (2 ^ 8) with 256.
  replace ((b + 256 * le_value e) mod 256) with b by zdm.
  replace ((b + 256 * le_value e) / 256) with (le_value e) by zdm.
  by rewrite IH by (done || lia).
Qed.

Lemma abs_bytes_value fuel a :
  0 <= a < 2 ^ (8 * Z.of_nat fuel) ->
  le_value (abs_bytes fuel a) = a /\ bytes_ok (abs_bytes fuel a) /\
  no_top_zero (abs_bytes fuel a).
Proof.
  revert a. induction fuel as [| fuel IH]; intros a Ha; cbn [abs_bytes].
  { split_and!; [cbn; lia | apply bytes_ok_nil | by intros ?]. }
  rewrite Nat2Z.inj_succ, Z.mul_succ_r, Z.pow_add_r in Ha by lia.
  destruct (Z.eqb_spec a 0) as [-> | Ha0].
  { split_and!; [done | apply bytes_ok_nil | by intros ?]. }
  change 0xff with (2 ^ 8 - 1). rewrite land_ones_mod, Z.shiftr_div_pow2 by lia.
  change (2 ^ 8) with 256 in *.
  destruct (IH (a / 256)) as (Hv & Hok & Htop).
  { split; [apply Z.div_pos; lia | apply Z.div_lt_upper_bound; lia]. }
  split_and!.
  - cbn [le_value]. rewrite Hv. zdm.
  - apply bytes_ok_cons. split; [| done]. unfold is_u8, u8_max. zdm.
  - intros b. rewrite last_cons. destruct (last (abs_bytes fuel (a / 256))) eqn:Hl.
    + intros [= <-]. by apply Htop.
    + intros [= <-]. apply last_None in Hl. rewrite Hl in Hv. cbn in Hv. zdm.
Qed.

Lemma lor_80 c : is_u8 c -> c < 128 -> Z.lor c 0x80 = c + 128.
Proof.
  intros Hc Hlt. pose proof (u8_forall (fun c => (128 <=? c) || (Z.lor c 0x80 =? c + 128)) c
    eq_refl Hc) as H. cbn beta in H.
  apply orb_true_iff in H as [? | ?]; lia.
Qed.

(** The encoder on a magnitude given by its bytes: a top byte below 128 takes
    the sign bit, another top byte is followed by a sign byte. *)
Lemma as_bytes_magnitude {E} v e b :
  bytes_ok (e ++ [b]) -> b <> 0 -> (length e < 8)%nat ->
  Z.abs v = le_value (e ++ [b]) -> is_i64 (Z.abs v) ->
  as_bytes (E := E) v =
    Ok (if 128 <=? b then (e ++ [b]) ++ [if v <? 0 then 0x80 else 0]
        else e ++ [if v <? 0 then b + 128 else b]).
Proof.
  intros Hok Hb0 Hlen Hv Hr. pose proof Hok as [He Hb]%bytes_ok_snoc.
  pose proof (le_value_bound e He). unfold is_u8 in Hb.
  unfold as_bytes. destruct (Z.eqb_spec v 0) as [-> |].
  { pose proof (le_value_snoc_pos e b He). lia. }
  unfold checked_i64. apply in_i64_spec in Hr. rewrite Hr. rcbn.
  rewrite Hv, abs_bytes_le; [| done | | by rewrite length_app; cbn; lia].
  2:{ intros c. rewrite last_snoc. by intros [= <-]. }
  rewrite last_snoc. rcbn. rewrite land_80_zero by done.
  destruct (Z.ltb_spec b 128), (Z.leb_spec 128 b); try lia; cbn [negb].
  - destruct (v <? 0); [| done]. unfold set_sign.
    by rewrite last_snoc, removelast_last, lor_80.
  - done.
Qed.

Lemma is_minimally_encoded_snoc e b :
  is_u8 b -> bytes_ok e ->
  is_minimally_encoded (e ++ [b]) =
    negb ((b mod 128 =? 0) && match last e with None => true | Some c => c <? 128 end).
Proof.
  intros Hb He. unfold is_minimally_encoded. rewrite reverse_app. cbn.
  rewrite land_7f by done. do 2 f_equal.
  destruct e as [| c e _] using rev_ind; [done |].
  rewrite reverse_app, last_snoc. cbn. apply bytes_ok_snoc in He as [_ Hc].
  by rewrite land_80_zero.
Qed.

(** A minimal string and its value determine each other. *)
Lemma as_bytes_sm_value {E} data :
  bytes_ok data -> (length data <= 8)%nat -> is_minimally_encoded data = true ->
  as_bytes (E := E) (sm_value data) = Ok data.
Proof.
  intros Hok Hlen Hmin. destruct data as [| b e _] using rev_ind; [done |].
  pose proof Hok as [He Hb]%bytes_ok_snoc. unfold is_u8, u8_max in Hb.
  pose proof (sm_value_bound _ Hok ltac:(by destruct e)) as Hbound.
  rewrite is_minimally_encoded_snoc in Hmin by done.
  assert (is_i64 (Z.abs (sm_value (e ++ [b])))) as Hr.
  { unfold is_i64, i64_min, i64_max.
    assert (2 ^ (8 * Z.of_nat (length (e ++ [b])) - 1) <= 2 ^ 63)
      by (apply Z.pow_le_mono_r; lia). lia. }
  rewrite length_app in Hlen. cbn in Hlen.
  pose proof (sm_magnitude_bound e b He Hb) as Hm.
  unfold sm_value in *. rewrite last_snoc, removelast_last, length_app in *.
  cbn [length] in *.
  replace (Z.of_nat (length e + 1) - 1) with (Z.of_nat (length e)) in * by lia.
  set (m := le_value e + _) in *.
  destruct (Z.eqb_spec (b mod 128) 0) as [Hz | Hnz].
  - destruct (last e) as [c |] eqn:Hc; [| done]. cbn in Hmin.
    assert (m = le_value e) as Hme by (unfold m; rewrite Hz; lia).
    pose proof (last_snoc_split _ _ Hc) as He'. set (e' := removelast e) in *.
    rewrite (as_bytes_magnitude _ e' c); rewrite <- ?He'; try done; try lia.
    + destruct (Z.leb_spec 128 c); [| lia].
      assert (is_u8 c /\ bytes_ok e') as [Hc8 ?].
      { rewrite He' in He. apply bytes_ok_snoc in He. naive_solver. }
      pose proof (le_value_bound e' ltac:(done)).
      rewrite He', le_value_app in Hme. cbn [le_value] in Hme.
      do 3 f_equal. unfold is_u8 in Hc8.
      assert (0 < m) by nia.
      destruct (Z.leb_spec 128 b), (Z.ltb_spec (- m) 0), (Z.ltb_spec m 0); try lia; zdm.
    + rewrite He', length_app in Hlen. cbn in Hlen. lia.
    + destruct (128 <=? b); lia.
  - assert (0 < m) by (unfold m; pose proof (le_value_bound e He); nia).
    rewrite (as_bytes_magnitude _ e (b mod 128)); try done; try lia.
    + destruct (Z.leb_spec 128 (b mod 128)); [zdm |]. do 3 f_equal.
      destruct (Z.leb_spec 128 b), (Z.ltb_spec (- m) 0), (Z.ltb_spec m 0); try lia; zdm.
    + apply bytes_ok_snoc. split; [done |]. unfold is_u8, u8_max. zdm.
    + rewrite le_value_app. cbn [le_value]. destruct (128 <=? b); unfold m in *; lia.
Qed.

Lemma sm_value_snoc e b :
  sm_value (e ++ [b]) =
    let m := le_value e + 2 ^ (8 * Z.of_nat (length e)) * (b mod 128) in
    if 128 <=? b then - m else m.
Proof.
  unfold sm_value. rewrite last_snoc, removelast_last, length_app. cbn [length].
  by replace (Z.of_nat (length e + 1) - 1) with (Z.of_nat (length e)) by lia.
Qed.

(** The encoder succeeds on every value but [i64::MIN], with the shortest
    string that has room for the sign. *)
Lemma as_bytes_spec {E} v k :
  Z.abs v <= i64_max -> (1 <= k)%nat -> Z.abs v < 2 ^ (8 * Z.of_nat k - 1) ->
  exists d, as_bytes (E := E) v = Ok d /\ bytes_ok d /\ (length d <= k)%nat /\
            is_minimally_encoded d = true /\ sm_value d = v.
Proof.
  unfold i64_max. intros Hv Hk Hvk.
  destruct (Z.eqb_spec v 0) as [-> | Hv0].
  { exists []. split_and!; auto with rust; cbn; lia. }
  destruct (abs_bytes_value 8 (Z.abs v)) as (Hval & Hok & Htop); [lia |].
  set (e0 := abs_bytes 8 (Z.abs v)) in *.
  destruct e0 as [| b e _] using rev_ind; [cbn in Hval; lia |].
  pose proof (Htop b (last_snoc _ _)) as Hb0.
  pose proof Hok as [He Hb]%bytes_ok_snoc. pose proof (le_value_bound e He) as Hbe.
  pose proof Hval as Hval'. rewrite le_value_app in Hval'. cbn [le_value] in Hval'.
  unfold is_u8, u8_max in Hb.
  assert (Hlen : forall j n, 0 <= j -> 2 ^ j <= Z.abs v -> Z.abs v < 2 ^ n -> j < n).
  { intros j n ? H1 H2. apply (Z.pow_lt_mono_r_iff 2); [lia | | lia].
    destruct (decide (0 <= n)); [done |]. rewrite (Z.pow_neg_r 2 n) in H2; lia. }
  assert (8 * Z.of_nat (length e) < 63) by (apply Hlen; [lia | nia | lia]).
  eexists. split; [apply (as_bytes_magnitude v e b); try done; try lia |].
  { unfold is_i64, i64_min, i64_max. lia. }
  destruct (Z.leb_spec 128 b); rewrite sm_value_snoc, is_minimally_encoded_snoc, ?length_app;
    try done; cbn [length].
  - assert (8 * Z.of_nat (length e) + 7 < 8 * Z.of_nat k - 1).
    { apply Hlen; [lia | | lia]. rewrite Z.pow_add_r by lia. nia. }
    split_and!; [apply bytes_ok_snoc; split; [done |]; unfold is_u8, u8_max;
                 destruct (v <? 0); lia | lia | |].
    + rewrite last_snoc. destruct (v <? 0), (Z.ltb_spec b 128); done || lia.
    + rewrite Hval. destruct (Z.ltb_spec v 0);
        [change (128 <=? 128) with true; change (128 mod 128) with 0
        |change (128 <=? 0) with false; change (0 mod 128) with 0]; cbv iota zeta; lia.
  - destruct (v <? 0); unfold is_u8, u8_max; lia.
  - assert (8 * Z.of_nat (length e) < 8 * Z.of_nat k - 1) by (apply Hlen; [lia | nia | lia]).
    split_and!; [apply bytes_ok_snoc; split; [done |]; unfold is_u8, u8_max;
                 destruct (v <? 0); lia | lia | |].
    + destruct (Z.ltb_spec v 0), (Z.eqb_spec ((b + 128) mod 128) 0),
        (Z.eqb_spec (b mod 128) 0); try done; zdm.
    + destruct (Z.ltb_spec v 0), (Z.leb_spec 128 (b + 128)), (Z.leb_spec 128 b); try lia;
        cbv zeta;
        [replace ((b + 128) mod 128) with b by zdm | replace (b mod 128) with b by zdm];
        lia.
  - destruct (v <? 0); unfold is_u8, u8_max; lia.
Qed.

(** ** Properties *)

(** encoding then decoding a script number gives it back: every [i64]
    other than [i64::MIN] is encoded, in at most [k] bytes when its magnitude
    is below [2^(8k-1)], and the decoder limited to [k] bytes returns it, with
    or without the minimality requirement. *)
Lemma script_num_roundtrip (v : Z) (k : nat) (rm : bool) :
  Z.abs v <= i64_max -> (1 <= k <= 8)%nat -> Z.abs v < 2 ^ (8 * Z.of_nat k - 1) ->
  exists d, as_bytes (E := NumError) v = Ok d /\ (length d <= k)%nat /\
            from_bytes d rm (Some k) = Ok v.
Proof.
  intros Hv Hk Hvk.
  destruct (as_bytes_spec (E := NumError) v k) as (d & Hd & Hok & Hlen & Hmin & Hval);
    [done | lia | done |].
  exists d. split_and!; [done | done |].
  rewrite from_bytes_spec by (done || cbn; lia).
  change (default MAX_NUM_SIZE (Some k)) with k.
  destruct (Nat.ltb_spec k (length d)); [lia |].
  by rewrite Hmin, andb_false_r, Hval.
Qed.

(** Instance: [-2147483648] does not fit four bytes but fits five. *)
Lemma script_num_roundtrip_witness :
  exists d, as_bytes (E := NumError) (-2147483648) = Ok d /\ (length d <= 5)%nat /\
            from_bytes d true (Some 5%nat) = Ok (-2147483648).
Proof. apply (script_num_roundtrip (-2147483648) 5 true); vm_compute; lia || congruence. Defined.

(** the minimality test is exact: a byte string accepted under the
    minimality requirement is the one the encoder produces for its value, so
    two accepted strings with the same value are equal. *)
Lemma script_num_canonical (d : bytes) (max_size : option nat) (v : Z) :
  bytes_ok d -> (default MAX_NUM_SIZE max_size <= 8)%nat ->
  from_bytes d true max_size = Ok v -> as_bytes (E := NumError) v = Ok d.
Proof.
  intros Hok Hmax H. rewrite from_bytes_spec in H by done.
  destruct (Nat.ltb_spec (default MAX_NUM_SIZE max_size) (length d)); [done |].
  destruct (is_minimally_encoded d) eqn:Hmin; [| done]. injection H as <-.
  apply as_bytes_sm_value; [done | lia | done].
Qed.

Lemma script_num_canonical_witness :
  as_bytes (E := NumError) (-128) = Ok [0x80; 0x80].
Proof.
  apply (script_num_canonical [0x80; 0x80] None (-128));
    [| vm_compute; lia | vm_compute; reflexivity].
  repeat constructor; vm_compute; congruence.
Defined.

Lemma from_bytes_default_range d rm v :
  bytes_ok d -> from_bytes d rm None = Ok v -> Z.abs v < 2 ^ 31.
Proof.
  intros Hok H. rewrite from_bytes_spec in H by (done || vm_compute; lia).
  change (default MAX_NUM_SIZE None) with 4%nat in H.
  destruct (Nat.ltb_spec 4 (length d)); [done |].
  destruct (rm && _); [done |]. injection H as <-.
  destruct (decide (d = [])) as [-> | Hne]; [done |].
  pose proof (sm_value_bound d Hok Hne).
  assert (2 ^ (8 * Z.of_nat (length d) - 1) <= 2 ^ 31) by (apply Z.pow_le_mono_r; lia). lia.
Qed.

Lemma checked_i64_small z : Z.abs z <= i64_max -> checked_i64 z = Some z.
Proof.
  intros Hz. unfold checked_i64. assert (in_i64 z = true) as ->; [| done].
  apply in_i64_spec. unfold is_i64, i64_min, i64_max in *. lia.
Qed.

(** arithmetic on decoded operands neither overflows nor panics.  Operands
    read with the default four-byte limit are below [2^31] in magnitude, so
    the checked [i64] operations all succeed with the exact result, and every
    such result is encoded in at most five bytes. *)
Lemma script_arithmetic_exact (d1 d2 : bytes) (rm : bool) (a b : Z) :
  bytes_ok d1 -> bytes_ok d2 ->
  from_bytes d1 rm None = Ok a -> from_bytes d2 rm None = Ok b ->
  add a b = Ok (a + b) /\ sub a b = Ok (a - b) /\ neg a = Ok (- a) /\
  abs (E := NumError) a = Ok (Z.abs a) /\
  Forall (fun r => exists d, as_bytes (E := NumError) r = Ok d /\ (length d <= 5)%nat)
    [a + b; a - b; - a; Z.abs a].
Proof.
  intros Hd1 Hd2 Ha%from_bytes_default_range Hb%from_bytes_default_range; [| done..].
  unfold add, sub, neg, abs.
  rewrite !checked_i64_small by (unfold i64_max; lia). split_and!; try done.
  assert (Henc : forall r, Z.abs r < 2 ^ 39 ->
            exists d, as_bytes (E := NumError) r = Ok d /\ (length d <= 5)%nat).
  { intros r Hr. destruct (as_bytes_spec (E := NumError) r 5) as (d & ? & _ & ? & _);
      [unfold i64_max; lia | lia | cbn; lia | by exists d]. }
  rewrite !Forall_cons_iff. split_and!; [apply Henc; lia .. | by apply Forall_nil].
Qed.

Lemma script_arithmetic_exact_witness :
  add 2147483647 2147483647 = Ok 4294967294 /\
  from_bytes [0xff; 0xff; 0xff; 0x7f] true None = Ok 2147483647.
Proof.
  split; [| vm_compute; reflexivity].
  apply (script_arithmetic_exact [0xff; 0xff; 0xff; 0x7f] [0xff; 0xff; 0xff; 0x7f] true
           2147483647 2147483647); try (vm_compute; reflexivity);
    repeat constructor; vm_compute; congruence.
Defined.

End ScriptNum.
