(* ===== verification/ScriptTypes.v ===== *)
(** * Types shared by the script interpreter

    Verification flags, signature versions and execution data
    ([crates/subcoin-script/src/lib.rs]), constants ([constants.rs]), the error
    types ([error.rs], [stack.rs], [interpreter/eval/sig.rs],
    [interpreter/eval/multisig.rs], [signature_checker.rs]), and, as type
    classes, the parts of the rust-bitcoin and secp256k1 crates the
    interpreter calls.  Those crates are not part of this repository: the
    classes declare the functions, and the [...Laws] classes state the
    documented behaviour some theorems rely on. *)

From Stdlib Require Import ZArith Lia.
From stdpp Require Import prelude.
From S2P Require Import Prelude Opcode ScriptNum.

(** ** Constants ([constants.rs]) *)

(** Re-exported from rust-bitcoin ([bitcoin::constants]). *)
Definition MAX_SCRIPT_ELEMENT_SIZE : nat := 520.

Definition COMPRESSED_PUBKEY_SIZE : nat := 33.
Definition WITNESS_V0_SCRIPTHASH_SIZE : nat := 32.
Definition WITNESS_V0_KEYHASH_SIZE : nat := 20.
Definition WITNESS_V0_TAPROOT_SIZE : nat := 32.
(** The maximum combined height of stack and alt stack. *)
Definition MAX_STACK_SIZE : nat := 1000.
Definition MAX_PUBKEYS_PER_MULTISIG : Z := 20.
(** Maximum number of non-push operations per script. *)
Definition MAX_OPS_PER_SCRIPT : nat := 201.
Definition SEQUENCE_LOCKTIME_DISABLE_FLAG : Z := Z.shiftl 1 31.
Definition VALIDATION_WEIGHT_PER_SIGOP_PASSED : Z := 50.
Definition VALIDATION_WEIGHT_OFFSET : Z := 50.
(** Half order of secp256k1. *)
Definition HALF_ORDER : Z :=
  Z.shiftr 0xFFFFFFFFFFFFFFFFFFFFFFFFFFFFFFFEBAAEDCE6AF48A03BBFD25E8CD0364141 1.

(** ** Verification flags

    A [VerifyFlags] value is the [u32] of its bits. *)

Module VerifyFlags.
Definition NONE : Z := 0.
Definition P2SH : Z := Z.shiftl 1 0.
Definition STRICTENC : Z := Z.shiftl 1 1.
Definition DERSIG : Z := Z.shiftl 1 2.
Definition LOW_S : Z := Z.shiftl 1 3.
Definition NULLDUMMY : Z := Z.shiftl 1 4.
Definition SIGPUSHONLY : Z := Z.shiftl 1 5.
Definition MINIMALDATA : Z := Z.shiftl 1 6.
Definition DISCOURAGE_UPGRADABLE_NOPS : Z := Z.shiftl 1 7.
Definition CLEANSTACK : Z := Z.shiftl 1 8.
Definition CHECKLOCKTIMEVERIFY : Z := Z.shiftl 1 9.
Definition CHECKSEQUENCEVERIFY : Z := Z.shiftl 1 10.
Definition WITNESS : Z := Z.shiftl 1 11.
Definition DISCOURAGE_UPGRADABLE_WITNESS_PROGRAM : Z := Z.shiftl 1 12.
Definition MINIMALIF : Z := Z.shiftl 1 13.
Definition NULLFAIL : Z := Z.shiftl 1 14.
Definition WITNESS_PUBKEYTYPE : Z := Z.shiftl 1 15.
Definition CONST_SCRIPTCODE : Z := Z.shiftl 1 16.
Definition TAPROOT : Z := Z.shiftl 1 17.
Definition DISCOURAGE_UPGRADABLE_TAPROOT_VERSION : Z := Z.shiftl 1 18.
Definition DISCOURAGE_OP_SUCCESS : Z := Z.shiftl 1 19.
Definition DISCOURAGE_UPGRADABLE_PUBKEYTYPE : Z := Z.shiftl 1 20.
End VerifyFlags.

(** The bit tests of a flags value: some bit in common, all bits contained. *)
Definition intersects (flags other : Z) : bool := negb (Z.land flags other =? 0).
Definition contains (flags other : Z) : bool := Z.land flags other =? other.

Definition verify_minimaldata (flags : Z) : bool := contains flags VerifyFlags.MINIMALDATA.
Definition verify_sigpushonly (flags : Z) : bool := contains flags VerifyFlags.SIGPUSHONLY.
Definition verify_p2sh (flags : Z) : bool := contains flags VerifyFlags.P2SH.
Definition verify_witness (flags : Z) : bool := contains flags VerifyFlags.WITNESS.
Definition verify_discourage_upgradable_witness_program (flags : Z) : bool :=
  contains flags VerifyFlags.DISCOURAGE_UPGRADABLE_WITNESS_PROGRAM.

(** ** Signature versions and execution data *)

(** Represents different signature verification schemes used in Bitcoin. *)
Inductive SigVersion :=
| Base
| WitnessV0
| Taproot
| Tapscript.

#[export] Instance SigVersion_eq_dec : EqDecision SigVersion.
Proof. solve_decision. Defined.

Record ScriptExecutionData := mk_exec_data {
  tapleaf_hash_init : bool;
  tapleaf_hash : bytes;
  codeseparator_pos_init : bool;
  codeseparator_pos : Z;
  annex_init : bool;
  annex_present : bool;
  annex_hash : bytes;
  annex : option bytes;
  validation_weight_left_init : bool;
  validation_weight_left : Z;
  output_hash : option bytes;
}.

(** [ScriptExecutionData::default()]. *)
Definition default_exec_data : ScriptExecutionData := {|
  tapleaf_hash_init := false;
  tapleaf_hash := replicate 32 0;
  codeseparator_pos_init := false;
  codeseparator_pos := 0;
  annex_init := false;
  annex_present := false;
  annex_hash := replicate 32 0;
  annex := None;
  validation_weight_left_init := false;
  validation_weight_left := 0;
  output_hash := None;
|}.

(** ** Errors *)

(** An error value of an external crate, carried opaquely. *)
Inductive ExtError := ExternalError (code : Z).

Inductive StackError :=
| InvalidOperation
| StackNum (e : NumError).

Inductive SignatureError :=
| InvalidSignatureVersion
| EcdsaError (e : ExtError)
| ParseEcdsaSignature (e : ExtError)
| SchnorrError (e : ExtError)
| EcdsaSignatureHash (e : ExtError)
| TaprootSignatureHash (e : ExtError).

Inductive SignatureEncodingError :=
| TooShort
| TooLong
| InvalidSequenceId
| InvalidDataLength
| InvalidIntegerIdR
| ZeroLengthR
| NegativeR
| TooMuchPaddingR
| InvalidIntegerIdS
| ZeroLengthS
| NegativeS
| TooMuchPaddingS.

Inductive CheckSigError :=
| FindAndDelete
| UnsupportedSigHashType
| CheckSigDiscourageUpgradablePubkeyType
| BadPubKey
| PubKeyType
| WitnessPubKeyType
| NullFail
| HighS
| TapscriptValidationWeight
| Der (e : SignatureEncodingError)
| Schnorr (e : ExtError)
| CheckSigInvalidSignature (e : SignatureError)
| CheckSigSecp256k1 (e : ExtError).

Inductive CheckMultiSigError :=
| InvalidPubkeyCount
| TooManyOps
| InvalidSignatureCount (n : nat)
| SignatureNullDummy (n : nat)
| TapscriptCheckMultiSig
| CheckMultiSigVerify
| MultiCheckSig (e : CheckSigError)
| MultiInvalidSignature (e : SignatureError)
| MultiStack (e : StackError).

(** Script error type ([error.rs]); an opcode is its byte. *)
Inductive Error :=
| EvalFalse
| OpReturn
| ScriptSize
| PushSize
| OpCount
| StackSize
| SigCount
| PubkeyCount
| Verify (op : Z)
| BadOpcode
| DisabledOpcode (op : Z)
| StackErr (e : StackError)
| UnbalancedConditional
| NegativeLocktime
| UnsatisfiedLocktime
| SigHashType
| WitnessMalleated
| WitnessUnexpected
| WitnessMalleatedP2SH
| CleanStack
| Minimalif
| SigPushOnly
| WitnessProgramWitnessEmpty
| WitnessProgramMismatch
| WitnessProgramWrongLength
| DiscourageUpgradableNops
| DiscourageUpgradableWitnessProgram
| DiscourageUpgradableTaprootProgram
| DiscourageUpgradableTaprootVersion
| DiscourageOpSuccess
| DiscourageUpgradablePubkeyType
| SchnorrSigSize
| SchnorrSigHashType
| SchnorrSig
| TaprootWrongControlSize
| TaprootValidationWeight
| TaprootCheckmultisig
| TaprootMinimalif
| OpCodeSeparator
| SigFindAndDelete
| ErrorCount
| NoScriptExecution
| InvalidAltStackOperation
| UnknownOpcode (op : Z)
| ReadInstruction (e : ExtError)
| CheckSig (e : CheckSigError)
| CheckMultiSig (e : CheckMultiSigError)
| Num (e : NumError)
| Signature (e : SignatureError)
| SchnorrSignature (e : ExtError)
| TaprootErr (e : ExtError)
| Secp256k1 (e : ExtError).

(** ** External interfaces *)

(** [bitcoin::script::Instruction]. *)
Inductive Instruction :=
| PushBytes (data : bytes)
| Op (op : Z).

(** [bitcoin::Script]: parsing and classification of script bytes. *)
Class ScriptApi := {
  (** [Script::instruction_indices]: the instructions with their offsets; a
      parse error is the last item. *)
  instruction_indices : bytes -> list (ExtError + nat * Instruction);
  (** [Script::instruction_indices_minimal]. *)
  instruction_indices_minimal : bytes -> list (ExtError + nat * Instruction);
  (** [Script::instructions]. *)
  instructions : bytes -> list (ExtError + Instruction);
  is_push_only : bytes -> bool;
  is_p2sh : bytes -> bool;
  is_p2pkh : bytes -> bool;
  is_op_return : bytes -> bool;
  (** [Script::witness_version], the version as its number. *)
  witness_version : bytes -> option Z;
  (** [WitnessProgram::new]: the program, or one of its two length errors. *)
  witness_program_new : Z -> bytes -> ExtError + bytes;
  (** [Script::p2pk_public_key], the key in its serialised form. *)
  p2pk_public_key : bytes -> option bytes;
  (** [Builder::default().push_slice(data).into_script()]. *)
  push_slice : bytes -> bytes;
  (** [Witness::size]: the length of the serialised witness. *)
  witness_size : list bytes -> Z;
}.

(** The number of bytes the encoding of an instruction takes at least. *)
Definition instruction_size (i : Instruction) : nat :=
  match i with
  | PushBytes b => (length b + 1)%nat
  | Op _ => 1%nat
  end.

Fixpoint instructions_size (l : list (ExtError + nat * Instruction)) : nat :=
  match l with
  | inr (_, i) :: l => (instruction_size i + instructions_size l)%nat
  | _ => 0%nat
  end.

(** What the instruction iterators of rust-bitcoin guarantee: an [Op] is a
    non-push opcode ([OP_0] and the other push opcodes are [PushBytes]), the
    bytes of a push are bytes of the script, the instructions do not overlap,
    and a pay-to-script-hash script is [OP_HASH160 <20 bytes> OP_EQUAL]. *)
Class ScriptLaws `{ScriptApi} : Prop := {
  parse_ops script l i op :
    l = instruction_indices script \/ l = instruction_indices_minimal script ->
    bytes_ok script -> In (inr (i, Op op)) l -> 0x4e < op <= u8_max;
  parse_pushes script l i d :
    l = instruction_indices script \/ l = instruction_indices_minimal script ->
    bytes_ok script -> In (inr (i, PushBytes d)) l -> bytes_ok d;
  parse_size script l :
    l = instruction_indices script \/ l = instruction_indices_minimal script ->
    (instructions_size l <= length script)%nat;
  parse_p2sh script l :
    l = instruction_indices script \/ l = instruction_indices_minimal script ->
    is_p2sh script = true ->
    exists i1 i2 i3 h, length h = 20%nat /\
      l = [inr (i1, Op 0xa9); inr (i2, PushBytes h); inr (i3, Op 0x87)];
  (** [OP_DUP OP_HASH160 <20 bytes> OP_EQUALVERIFY OP_CHECKSIG], as built by the
      [Builder], parses back. *)
  parse_p2pkh h l :
    length h = 20%nat ->
    let script := [0x76; 0xa9] ++ push_slice h ++ [0x88; 0xac] in
    l = instruction_indices script \/ l = instruction_indices_minimal script ->
    exists i1 i2 i3 i4 i5,
      l = [inr (i1, Op 0x76); inr (i2, Op 0xa9); inr (i3, PushBytes h);
           inr (i4, Op 0x88); inr (i5, Op 0xac)];
  (** The script of a push starts with its opcode: it is not empty. *)
  push_slice_nonempty d : push_slice d <> [];
  push_slice_bytes d : bytes_ok d -> (length d <= MAX_SCRIPT_ELEMENT_SIZE)%nat ->
    bytes_ok (push_slice d);
  (** A witness version opcode is followed by a push of at least two bytes. *)
  witness_version_length script version :
    witness_version script = Some version -> (4 <= length script)%nat;
  (** [WitnessProgram::new] returns the bytes it is given, and checks the
      length of a version 0 program. *)
  witness_program_bytes version p p' : witness_program_new version p = inr p' -> p' = p;
  witness_program_v0 p p' :
    witness_program_new 0 p = inr p' -> length p = 20%nat \/ length p = 32%nat;
}.

(** Hash functions of [bitcoin::hashes] and the script hashes built on them. *)
Class HashApi := {
  ripemd160 : bytes -> bytes;
  sha1 : bytes -> bytes;
  sha256 : bytes -> bytes;
  hash160 : bytes -> bytes;
  sha256d : bytes -> bytes;
  (** [TapLeafHash::from_script]. *)
  tap_leaf_hash : bytes -> Z -> bytes;
}.

(** The digests are byte strings of fixed length. *)
Class HashLaws `{HashApi} : Prop := {
  hash_bytes x : bytes_ok (ripemd160 x) /\ bytes_ok (sha1 x) /\ bytes_ok (sha256 x) /\
                 bytes_ok (hash160 x) /\ bytes_ok (sha256d x);
  hash_lengths x : length (ripemd160 x) = 20%nat /\ length (sha1 x) = 20%nat /\
                   length (sha256 x) = 32%nat /\ length (hash160 x) = 20%nat /\
                   length (sha256d x) = 32%nat;
}.

(** Keys and signatures of the bitcoin and secp256k1 crates. *)
Class KeyApi := {
  ecdsa_signature : Type;
  public_key : Type;
  schnorr_signature : Type;
  xonly_public_key : Type;
  (** [secp256k1::ecdsa::Signature::from_der_lax] then [normalize_s]. *)
  from_der_lax : bytes -> ExtError + ecdsa_signature;
  public_key_from_slice : bytes -> ExtError + public_key;
  schnorr_from_slice : bytes -> ExtError + schnorr_signature;
  xonly_from_slice : bytes -> ExtError + xonly_public_key;
  (** [LeafVersion::from_consensus]. *)
  leaf_version_from_consensus : Z -> option Z;
  (** [ControlBlock::decode]. *)
  control_block_decode : bytes -> ExtError + bytes;
  (** [ControlBlock::verify_taproot_commitment]. *)
  verify_taproot_commitment : bytes -> xonly_public_key -> bytes -> bool;
}.

(** [EcdsaSignature]: the parsed signature and its hash type. *)
Record EcdsaSignature `{KeyApi} := mk_ecdsa {
  ecdsa_sig : ecdsa_signature;
  sighash_type : Z;
}.

(** [EcdsaSignature::parse_der_lax]. *)
Definition parse_der_lax `{KeyApi} (full_sig_bytes : bytes) : res ExtError EcdsaSignature :=
  sighash_type ← ok_or (ExternalError 0) (last full_sig_bytes);
  let sig := removelast full_sig_bytes in
  signature ← of_sum (from_der_lax sig);
  Ok {| ecdsa_sig := signature; sighash_type := sighash_type |}.

(** The [SignatureChecker] trait.  Its implementations only mutate a sighash
    cache, so the methods are functions. *)
Class SignatureChecker `{KeyApi} := {
  sc_check_ecdsa_signature :
    EcdsaSignature -> public_key -> bytes -> SigVersion -> res SignatureError bool;
  sc_check_schnorr_signature :
    schnorr_signature -> xonly_public_key -> SigVersion -> ScriptExecutionData ->
    res SignatureError bool;
  (** [None] is a panic: the input index is out of range. *)
  sc_check_lock_time : Z -> option bool;
  sc_check_sequence : Z -> option bool;
}.

(** Verify the signature against the public key
    ([signature_checker::check_ecdsa_signature]). *)
Definition check_ecdsa_signature `{SignatureChecker} {E} (sig public_key : bytes)
    (subscript : bytes) (sig_version : SigVersion) : res E bool :=
  match parse_der_lax sig with
  | Ok sig =>
      match public_key_from_slice public_key with
      | inr key =>
          match sc_check_ecdsa_signature sig key subscript sig_version with
          | Ok b => Ok b
          | Err _ => Ok false
          | Panic => Panic
          end
      | inl _ => Ok false
      end
  | Err _ => Ok false
  | Panic => Panic
  end.
