(* ===== verification/Stack.v ===== *)
(** * The script stack ([crates/subcoin-script/src/stack.rs])

    [GenericStack] wraps a vector whose last element is the top.  Every
    operation of the source is a function from stacks to an outcome; the
    slices and indices are written with the same bounds, so an index out of
    range would be a [Panic]. *)

From Stdlib Require Import ZArith Lia.
From stdpp Require Import prelude.
From S2P Require Import Prelude Opcode ScriptNum ScriptTypes.

(** A stack used for managing script execution data. *)
Record GenericStack (T : Type) := mk_stack {
  data : list T;
  minimaldata : bool;
}.
Arguments mk_stack {T}.
Arguments data {T}.
Arguments minimaldata {T}.

(** Stack for the script execution. *)
Abbreviation Stack := (GenericStack bytes).

(** Converts a byte slice to a boolean. *)
Definition cast_to_bool (d : bytes) : bool :=
  match last d with
  | Some b =>
      existsb (fun x => negb (x =? 0)) (removelast d) ||
      (negb (b =? 0) && negb (b =? 0x80))
  | None => false
  end.

Module GenericStack.
Section ops.
Context {T : Type}.
Implicit Types (s : GenericStack T) (n i : nat).

Definition new (d : list T) (verify_minimaldata : bool) : GenericStack T :=
  {| data := d; minimaldata := verify_minimaldata |}.

Definition with_data (d : list T) : GenericStack T :=
  {| data := d; minimaldata := false |}.

Definition with_flags (flags : Z) : GenericStack T :=
  {| data := []; minimaldata := verify_minimaldata flags |}.

Definition set_data s (d : list T) : GenericStack T :=
  {| data := d; minimaldata := minimaldata s |}.

Definition len s : nat := length (data s).
Definition is_empty s : bool := match data s with [] => true | _ => false end.

(** Ensure there are at least [n] elements on the stack. *)
Definition require s n : res StackError unit :=
  if (len s <? n)%nat then Err InvalidOperation else Ok tt.

(** Returns the last element of the stack. *)
Definition last s : res StackError T := ok_or InvalidOperation (list.last (data s)).

(** Removes and returns the last element of the stack. *)
Definition pop s : res StackError (T * GenericStack T) :=
  x ← ok_or InvalidOperation (list.last (data s));
  Ok (x, set_data s (removelast (data s))).

(** Push an element onto the stack. *)
Definition push s (value : T) : GenericStack T := set_data s (data s ++ [value]).

(** Returns the element at the specified position from the top. *)
Definition top s i : res StackError T :=
  let pos := (i + 1)%nat in
  require s pos;;
  expect (data s !! (len s - pos)%nat).

(** Removes the element at the given index. *)
Definition remove s i : res StackError (T * GenericStack T) :=
  let pos := (i + 1)%nat in
  require s pos;;
  let to_remove := (len s - pos)%nat in
  x ← expect (data s !! to_remove);
  Ok (x, set_data s (firstn to_remove (data s) ++ skipn (S to_remove) (data s))).

(** Removes the top [n] stack items. *)
Definition drop s n : res StackError (GenericStack T) :=
  require s n;;
  Ok (set_data s (Nat.iter n (@removelast T) (data s))).

(** Duplicates the top [n] items on the stack. *)
Definition dup s n : res StackError (GenericStack T) :=
  require s n;;
  Ok (set_data s (data s ++ skipn (len s - n) (data s))).

(** Copies [n] items [n] items back to the top of the stack. *)
Definition over s n : res StackError (GenericStack T) :=
  let count := (n * 2)%nat in
  require s count;;
  Ok (set_data s (data s ++ firstn n (skipn (len s - count) (data s)))).

(** Rotates the top [3n] items on the stack to the left [n] times. *)
Definition rot s n : res StackError (GenericStack T) :=
  let count := (n * 3)%nat in
  require s count;;
  let start_index := (len s - count)%nat in
  let slice := skipn start_index (data s) in
  Ok (set_data s (firstn start_index (data s) ++ (skipn n slice ++ firstn n slice))).

(** Swaps the top [n] items on the stack with those below them. *)
Definition swap s n : res StackError (GenericStack T) :=
  let count := (n * 2)%nat in
  require s count;;
  let mid := (len s - count + n)%nat in
  let lower := firstn mid (data s) in
  let upper := skipn mid (data s) in
  let base := (len s - count)%nat in
  Ok (set_data s ((firstn base lower ++ firstn n upper) ++
                  (skipn base lower ++ skipn n upper))).

(** Removes the second-to-top stack item ([Vec::swap_remove]). *)
Definition nip s : res StackError (GenericStack T) :=
  require s 2;;
  x ← expect (list.last (data s));
  Ok (set_data s (removelast (<[(len s - 2)%nat := x]> (data s)))).

(** Copies the top item before the second-to-top item ([Vec::insert]). *)
Definition tuck s : res StackError (GenericStack T) :=
  require s 2;;
  v ← expect (list.last (data s));
  Ok (set_data s (firstn (len s - 2) (data s) ++ v :: skipn (len s - 2) (data s))).
End ops.

(** Pops a number from the stack and converts it into a [ScriptNum]. *)
Definition pop_num (s : Stack) : res StackError (Z * Stack) :=
  '(x, s') ← pop s;
  n ← map_err StackNum (ScriptNum.from_bytes x (minimaldata s) None);
  Ok (n, s').

(** Peeks the top element and converts it to a boolean. *)
Definition peek_bool (s : Stack) : res StackError bool :=
  x ← last s;
  Ok (cast_to_bool x).

(** Pops the top element and converts it to a boolean. *)
Definition pop_bool (s : Stack) : res StackError (bool * Stack) :=
  '(x, s') ← pop s;
  Ok (cast_to_bool x, s').

Definition push_num {E} (s : Stack) (num : Z) : res E Stack :=
  b ← ScriptNum.as_bytes num;
  Ok (push s b).

Definition push_bool (s : Stack) (b : bool) : Stack :=
  if b then push s [1] else push s [].

(** [Vec::truncate] through [DerefMut]. *)
Definition truncate {T} (s : GenericStack T) (n : nat) : GenericStack T :=
  set_data s (firstn n (data s)).
End GenericStack.
Export (hints) GenericStack.
Module GS := GenericStack.

(** ** Lemmas *)

Section lemmas.
Context {T : Type}.
Implicit Types (s : GenericStack T) (d pre a b c : list T).

Lemma require_Ok s n : GS.require s n = Ok tt <-> (n <= GS.len s)%nat.
Proof. unfold GS.require. destruct (Nat.ltb_spec (GS.len s) n); naive_solver lia. Qed.

Lemma require_enough s n : (n <= GS.len s)%nat -> GS.require s n = Ok tt.
Proof. apply require_Ok. Qed.

Lemma require_short s n : (GS.len s < n)%nat -> GS.require s n = Err InvalidOperation.
Proof. intros. unfold GS.require. by destruct (Nat.ltb_spec (GS.len s) n); [| lia]. Qed.

Lemma no_panic_require s n : no_panic (GS.require s n).
Proof. unfold GS.require. by destruct (GS.len s <? n)%nat. Qed.

Lemma iter_removelast n d : Nat.iter n (@removelast T) d = firstn (length d - n) d.
Proof.
  induction n as [| n IH].
  - rewrite Nat.sub_0_r. by rewrite firstn_all.
  - rewrite Nat.iter_succ, IH. destruct (decide (n < length d)%nat).
    + replace (length d - n)%nat with (S (length d - S n)) by lia.
      apply removelast_firstn. lia.
    + replace (length d - n)%nat with 0%nat by lia.
      by replace (length d - S n)%nat with 0%nat by lia.
Qed.

Lemma pop_snoc d x m : GS.pop (mk_stack (d ++ [x]) m) = Ok (x, mk_stack d m).
Proof. unfold GS.pop. cbn. rewrite last_snoc. cbn. by rewrite removelast_last. Qed.

Lemma pop_Ok s x s' :
  GS.pop s = Ok (x, s') -> data s = data s' ++ [x] /\ minimaldata s' = minimaldata s.
Proof.
  unfold GS.pop. intros H. inv_ok. split; [| done].
  cbn. by apply ScriptNum.last_snoc_split.
Qed.

Lemma last_Ok s x : GS.last s = Ok x <-> exists d, data s = d ++ [x].
Proof. unfold GS.last. rewrite ok_or_Ok. apply last_Some. Qed.

Lemma no_panic_pop s : no_panic (GS.pop s).
Proof. unfold GS.pop. np. Qed.

Lemma no_panic_last s : no_panic (GS.last s).
Proof. unfold GS.last. np. Qed.

Lemma lookup_top s i :
  (i < GS.len s)%nat -> is_Some (data s !! (GS.len s - (i + 1))%nat).
Proof. intros. apply lookup_lt_is_Some. unfold GS.len in *. lia. Qed.

Lemma no_panic_top s i : no_panic (GS.top s i).
Proof.
  unfold GS.top. apply no_panic_bind; [apply no_panic_require |].
  intros [] H%require_Ok. destruct (lookup_top s i ltac:(lia)) as [x Hx].
  cbv zeta. rewrite Hx. done.
Qed.

Lemma no_panic_remove s i : no_panic (GS.remove s i).
Proof.
  unfold GS.remove. apply no_panic_bind; [apply no_panic_require |].
  intros [] H%require_Ok. destruct (lookup_top s i ltac:(lia)) as [x Hx].
  cbv zeta. rewrite Hx. done.
Qed.

Lemma last_nonempty s : (1 <= GS.len s)%nat -> is_Some (list.last (data s)).
Proof. intros H. apply last_is_Some. intros E. unfold GS.len in H.
  rewrite E in H. cbn in H. lia.
Qed.

Lemma no_panic_nip s : no_panic (GS.nip s).
Proof.
  unfold GS.nip. apply no_panic_bind; [apply no_panic_require |].
  intros [] H%require_Ok. by destruct (last_nonempty s ltac:(lia)) as [x ->].
Qed.

Lemma no_panic_tuck s : no_panic (GS.tuck s).
Proof.
  unfold GS.tuck. apply no_panic_bind; [apply no_panic_require |].
  intros [] H%require_Ok. by destruct (last_nonempty s ltac:(lia)) as [x ->].
Qed.
End lemmas.

#[export] Hint Resolve no_panic_require no_panic_pop no_panic_last no_panic_top
  no_panic_remove no_panic_nip no_panic_tuck : rust.

Section no_panic.
Context {T : Type}.
Implicit Types (s : GenericStack T).

Lemma no_panic_drop s n : no_panic (GS.drop s n).
Proof. unfold GS.drop. np. Qed.
Lemma no_panic_dup s n : no_panic (GS.dup s n).
Proof. unfold GS.dup. np. Qed.
Lemma no_panic_over s n : no_panic (GS.over s n).
Proof. unfold GS.over. np. Qed.
Lemma no_panic_rot s n : no_panic (GS.rot s n).
Proof. unfold GS.rot. np. Qed.
Lemma no_panic_swap s n : no_panic (GS.swap s n).
Proof. unfold GS.swap. np. Qed.
Lemma no_panic_peek_bool (s : Stack) : no_panic (GS.peek_bool s).
Proof. unfold GS.peek_bool. np. Qed.
Lemma no_panic_pop_bool (s : Stack) : no_panic (GS.pop_bool s).
Proof. unfold GS.pop_bool. np. Qed.
End no_panic.

#[export] Hint Resolve no_panic_drop no_panic_dup no_panic_over no_panic_rot
  no_panic_swap no_panic_peek_bool no_panic_pop_bool : rust.

(** ** Properties *)

(** Rewrite slices of a vector given as blocks. *)
Ltac blocks :=
  unfold GS.len, GS.set_data in *; cbn [data minimaldata] in *;
  repeat rewrite ?length_app, ?length_cons, ?length_nil;
  repeat match goal with
  | |- context [firstn ?k (?x ++ ?y)] =>
      first [ rewrite (take_app_length' x y k) by (rewrite ?length_app; cbn; lia)
            | rewrite (firstn_all2 (x ++ y)) by (rewrite ?length_app; cbn; lia) ]
  | |- context [skipn ?k (?x ++ ?y)] =>
      rewrite (drop_app_length' x y k) by (rewrite ?length_app; cbn; lia)
  | |- context [firstn ?k ?x] => rewrite (firstn_all2 x (n := k)) by (rewrite ?length_app; cbn; lia)
  | |- context [skipn ?k ?x] => rewrite (skipn_all2 x (n := k)) by (rewrite ?length_app; cbn; lia)
  end.

Section spec.
Context {T : Type}.
Implicit Types (pre a b c : list T) (m : bool).

Lemma dup_spec pre a m n :
  length a = n -> GS.dup (mk_stack (pre ++ a) m) n = Ok (mk_stack (pre ++ a ++ a) m).
Proof.
  intros Ha. unfold GS.dup. rewrite require_enough by (blocks; lia). rcbn.
  blocks. by rewrite (assoc_L (++)).
Qed.

Lemma over_spec pre a b m n :
  length a = n -> length b = n ->
  GS.over (mk_stack (pre ++ a ++ b) m) n = Ok (mk_stack (pre ++ a ++ b ++ a) m).
Proof.
  intros Ha Hb. unfold GS.over. rewrite require_enough by (blocks; lia). rcbn.
  blocks. by rewrite <- !(assoc_L (++)).
Qed.

Lemma rot_spec pre a b c m n :
  length a = n -> length b = n -> length c = n ->
  GS.rot (mk_stack (pre ++ a ++ b ++ c) m) n = Ok (mk_stack (pre ++ b ++ c ++ a) m).
Proof.
  intros Ha Hb Hc. unfold GS.rot. rewrite require_enough by (blocks; lia). rcbn.
  blocks. by rewrite <- !(assoc_L (++)).
Qed.

Lemma swap_spec pre a b m n :
  length a = n -> length b = n ->
  GS.swap (mk_stack (pre ++ a ++ b) m) n = Ok (mk_stack (pre ++ b ++ a) m).
Proof.
  intros Ha Hb. unfold GS.swap. rewrite require_enough by (blocks; lia). rcbn.
  rewrite (assoc_L (++) pre a b). blocks.
  by rewrite app_nil_r, <- !(assoc_L (++)).
Qed.

Lemma drop_spec pre a m n :
  length a = n -> GS.drop (mk_stack (pre ++ a) m) n = Ok (mk_stack pre m).
Proof.
  intros Ha. unfold GS.drop. rewrite require_enough by (blocks; lia). rcbn.
  rewrite iter_removelast. by blocks.
Qed.

Lemma nip_spec pre x y m :
  GS.nip (mk_stack (pre ++ [x; y]) m) = Ok (mk_stack (pre ++ [y]) m).
Proof.
  unfold GS.nip. rewrite require_enough by (blocks; lia). rcbn.
  cbn [data]. rewrite last_app. cbn. blocks.
  replace (length pre + 2 - 2)%nat with (length pre + 0)%nat by lia.
  rewrite insert_app_r. cbn. change [y; y] with ([y] ++ [y]).
  by rewrite (assoc_L (++)), removelast_last.
Qed.

Lemma tuck_spec pre x y m :
  GS.tuck (mk_stack (pre ++ [x; y]) m) = Ok (mk_stack (pre ++ [y; x; y]) m).
Proof.
  unfold GS.tuck. rewrite require_enough by (blocks; lia). rcbn.
  cbn [data]. rewrite last_app. cbn. by blocks.
Qed.

Lemma remove_spec pre x post m :
  GS.remove (mk_stack (pre ++ x :: post) m) (length post)
  = Ok (x, mk_stack (pre ++ post) m).
Proof.
  unfold GS.remove. rewrite require_enough by (blocks; lia). rcbn.
  unfold GS.len. cbn [data].
  replace (length (pre ++ x :: post) - (length post + 1))%nat with (length pre)
    by (rewrite length_app; cbn; lia).
  rewrite list_lookup_middle by done. rcbn. unfold GS.set_data. cbn [minimaldata].
  rewrite take_app_length.
  replace (S (length pre)) with (length (pre ++ [x])) by (rewrite length_app; cbn; lia).
  change (x :: post) with ([x] ++ post). by rewrite (assoc_L (++)), drop_app_length.
Qed.
End spec.

(** the stack shuffles do what their documentation says: on a stack whose
    top blocks [a], [b], [c] have [n] items each they drop, duplicate, copy,
    swap and rotate whole blocks and leave the rest of the stack alone, and
    each of them reports [InvalidOperation] exactly when the stack is shorter
    than the blocks it works on. *)
Lemma stack_shuffles {T} (pre a b c : list T) (x y : T) (m : bool) (n : nat) :
  length a = n -> length b = n -> length c = n ->
  GS.drop (mk_stack (pre ++ a) m) n = Ok (mk_stack pre m) /\
  GS.dup (mk_stack (pre ++ a) m) n = Ok (mk_stack (pre ++ a ++ a) m) /\
  GS.over (mk_stack (pre ++ a ++ b) m) n = Ok (mk_stack (pre ++ a ++ b ++ a) m) /\
  GS.swap (mk_stack (pre ++ a ++ b) m) n = Ok (mk_stack (pre ++ b ++ a) m) /\
  GS.rot (mk_stack (pre ++ a ++ b ++ c) m) n = Ok (mk_stack (pre ++ b ++ c ++ a) m) /\
  GS.nip (mk_stack (pre ++ [x; y]) m) = Ok (mk_stack (pre ++ [y]) m) /\
  GS.tuck (mk_stack (pre ++ [x; y]) m) = Ok (mk_stack (pre ++ [y; x; y]) m) /\
  (forall s : GenericStack T,
     (is_ok (GS.drop s n) = true <-> (n <= GS.len s)%nat) /\
     (is_ok (GS.dup s n) = true <-> (n <= GS.len s)%nat) /\
     (is_ok (GS.over s n) = true <-> (n * 2 <= GS.len s)%nat) /\
     (is_ok (GS.swap s n) = true <-> (n * 2 <= GS.len s)%nat) /\
     (is_ok (GS.rot s n) = true <-> (n * 3 <= GS.len s)%nat)).
Proof.
  intros Ha Hb Hc.
  split_and!; [by apply drop_spec | by apply dup_spec | by apply over_spec
              | by apply swap_spec | by apply rot_spec | apply nip_spec | apply tuck_spec |].
  intros s.
  assert (Hreq : forall k, GS.require s k = Ok tt /\ (k <= GS.len s)%nat \/
                           GS.require s k = Err InvalidOperation /\ ~ (k <= GS.len s)%nat).
  { intros k. destruct (decide (k <= GS.len s)%nat).
    - left. by rewrite require_enough.
    - right. by rewrite require_short by lia. }
  unfold GS.drop, GS.dup, GS.over, GS.swap, GS.rot.
  split_and!; cbv zeta;
    match goal with |- context [GS.require s ?k] =>
      destruct (Hreq k) as [[-> ?] | [-> ?]] end; rcbn; cbn [is_ok]; naive_solver.
Qed.

Lemma stack_shuffles_witness :
  GS.rot (mk_stack [7; 1; 2; 3] false) 1 = Ok (mk_stack [7; 2; 3; 1] false).
Proof.
  exact (proj1 (proj2 (proj2 (proj2 (proj2
    (stack_shuffles [7] [1] [2] [3] 0 0 false 1 eq_refl eq_refl eq_refl)))))).
Defined.

Lemma le_value_zero e :
  bytes_ok e -> existsb (fun x => negb (x =? 0)) e = negb (le_value e =? 0).
Proof.
  induction e as [| b e IH]; [done |]. rewrite bytes_ok_cons. intros [Hb He].
  cbn [existsb le_value]. rewrite IH by done.
  pose proof (le_value_bound e He). unfold is_u8 in Hb.
  destruct (Z.eqb_spec b 0), (Z.eqb_spec (le_value e) 0),
    (Z.eqb_spec (b + 256 * le_value e) 0); try done; lia.
Qed.

(** a stack element is true exactly when the number it denotes (sign and
    magnitude, of any length) is not zero; negative zero is false. *)
Lemma cast_to_bool_nonzero (d : bytes) :
  bytes_ok d -> cast_to_bool d = negb (ScriptNum.sm_value d =? 0).
Proof.
  intros Hok. destruct d as [| b e _] using rev_ind; [done |].
  apply bytes_ok_snoc in Hok as [He Hb]. unfold is_u8, u8_max in Hb.
  unfold cast_to_bool. rewrite ScriptNum.sm_value_snoc, last_snoc, removelast_last.
  rewrite le_value_zero by done. pose proof (le_value_bound e He) as Hv. cbv zeta.
  assert (0 < 2 ^ (8 * Z.of_nat (length e))) by (apply Z.pow_pos_nonneg; lia).
  assert (b mod 128 = 0 <-> b = 0 \/ b = 128) by zdm.
  pose proof (Z.mod_pos_bound b 128).
  destruct (Z.eqb_spec (le_value e) 0) as [-> | Hnz]; cbn [negb orb].
  - destruct (Z.leb_spec 128 b), (Z.eqb_spec b 0), (Z.eqb_spec b 128);
      match goal with |- context [?v =? 0] => destruct (Z.eqb_spec v 0) end;
      cbn; try done; nia.
  - destruct (Z.leb_spec 128 b);
      match goal with |- context [?v =? 0] => destruct (Z.eqb_spec v 0) end;
      cbn; try done; nia.
Qed.

Lemma cast_to_bool_nonzero_witness :
  cast_to_bool [0; 0x80] = negb (ScriptNum.sm_value [0; 0x80] =? 0).
Proof.
  apply (cast_to_bool_nonzero [0; 0x80]). repeat constructor; vm_compute; congruence.
Defined.
