(* ===== verification/CheckSig.v ===== *)
(** * Signature opcodes ([crates/subcoin-script/src/interpreter/eval/sig.rs])

    The encoding rules for signatures and public keys, the deletion of a
    signature from the script it signs, and the evaluation of [OP_CHECKSIG]
    before and in tapscript. *)

From Stdlib Require Import ZArith Lia.
From stdpp Require Import prelude.
From S2P Require Import Prelude Opcode ScriptNum ScriptTypes Stack.

Definition SIGHASH_ALL : Z := 0x01.
Definition SIGHASH_SINGLE : Z := 0x03.
Definition SIGHASH_ANYONECANPAY : Z := 0x80.

(** ** [find_and_delete] *)

(** The [while] loop: [found] matches so far, the bytes kept in [result], the
    position [i].  Each round advances [i], so [length script + 1] rounds are
    enough ([find_and_delete_spec]). *)
Fixpoint find_and_delete_loop {E} (fuel : nat) (script sig : bytes)
    (found : nat) (result : bytes) (i : nat) : res E (nat * bytes * nat) :=
  match fuel with
  | O => Panic
  | S fuel =>
      if (i <=? length script - length sig)%nat then
        window ← slice script i (i + length sig);
        if bool_decide (window = sig) then
          find_and_delete_loop fuel script sig (found + 1) result (i + length sig)
        else
          b ← index script i;
          find_and_delete_loop fuel script sig found (result ++ [b]) (i + 1)
      else Ok (found, result, i)
  end.

(** Returns the number of matches and the script without them. *)
Definition find_and_delete {E} (script sig : bytes) : res E (nat * bytes) :=
  if bool_decide (sig = []) || (length script <? length sig)%nat then Ok (0%nat, script)
  else
    '(found, result, i) ← find_and_delete_loop (length script + 1) script sig 0 [] 0;
    rest ← slice_from script i;
    Ok (found, result ++ rest).

(** ** Encoding of signatures *)

Record EncodedS := mk_encoded_s {
  s_offset : nat;
  s_length : nat;
}.

Definition is_valid_signature_encoding (sig : bytes)
    : res SignatureEncodingError EncodedS :=
  let len := length sig in
  reject_if (len <? 9)%nat TooShort;;
  reject_if (73 <? len)%nat TooLong;;
  b0 ← index sig 0;
  reject_if (negb (b0 =? 0x30)) InvalidSequenceId;;
  b1 ← index sig 1;
  reject_if (negb (b1 =? Z.of_nat len - 3)) InvalidDataLength;;
  b3 ← index sig 3;
  let len_r := Z.to_nat b3 in
  reject_if (len <=? 5 + len_r)%nat InvalidDataLength;;
  bs ← index sig (5 + len_r);
  let len_s := Z.to_nat bs in
  reject_if (negb (len_r + len_s + 7 =? len)%nat) InvalidDataLength;;
  b2 ← index sig 2;
  reject_if (negb (b2 =? 0x02)) InvalidIntegerIdR;;
  reject_if (len_r =? 0)%nat ZeroLengthR;;
  b4 ← index sig 4;
  reject_if (negb (Z.land b4 0x80 =? 0)) NegativeR;;
  (if (1 <? len_r)%nat && (b4 =? 0) then
     b5 ← index sig 5;
     reject_if (Z.land b5 0x80 =? 0) TooMuchPaddingR
   else Ok tt);;
  s_id ← index sig (len_r + 4);
  reject_if (negb (s_id =? 0x02)) InvalidIntegerIdS;;
  reject_if (len_s =? 0)%nat ZeroLengthS;;
  s0 ← index sig (len_r + 6);
  reject_if (negb (Z.land s0 0x80 =? 0)) NegativeS;;
  (if (1 <? len_s)%nat && (s0 =? 0) then
     s1 ← index sig (len_r + 7);
     reject_if (Z.land s1 0x80 =? 0) TooMuchPaddingS
   else Ok tt);;
  Ok {| s_offset := len_r + 6; s_length := len_s |}.

Definition is_low_der_signature (sig : bytes) : res CheckSigError unit :=
  encoded_s ← map_err Der (is_valid_signature_encoding sig);
  s_bytes ← slice sig (s_offset encoded_s) (s_offset encoded_s + s_length encoded_s);
  let s_value := be_value s_bytes in
  reject_if (HALF_ORDER <? s_value) HighS.

Definition is_defined_hashtype_signature (sig : bytes) : bool :=
  match last sig with
  | None => false
  | Some last_bit =>
      let n_hash_type := Z.land last_bit (u8_max - SIGHASH_ANYONECANPAY) in
      (SIGHASH_ALL <=? n_hash_type) && (n_hash_type <=? SIGHASH_SINGLE)
  end.

Definition check_signature_encoding (sig : bytes) (flags : Z) : res CheckSigError unit :=
  if bool_decide (sig = []) then Ok tt
  else
    (if intersects flags (Z.lor (Z.lor VerifyFlags.DERSIG VerifyFlags.LOW_S)
                                VerifyFlags.STRICTENC)
     then map_err Der (is_valid_signature_encoding sig);; Ok tt
     else Ok tt);;
    (if intersects flags VerifyFlags.LOW_S then is_low_der_signature sig else Ok tt);;
    reject_if (intersects flags VerifyFlags.STRICTENC &&
               negb (is_defined_hashtype_signature sig)) UnsupportedSigHashType.

(** ** Encoding of public keys *)

Definition is_public_key (v : bytes) : bool :=
  match length v, v with
  | 33%nat, v0 :: _ => (v0 =? 2) || (v0 =? 3)
  | 65%nat, v0 :: _ => v0 =? 4
  | _, _ => false
  end.

Definition is_compressed_pubkey (pubkey : bytes) : bool :=
  match pubkey with
  | b :: _ => (length pubkey =? COMPRESSED_PUBKEY_SIZE)%nat && ((b =? 0x02) || (b =? 0x03))
  | [] => false
  end.

Definition check_pubkey_encoding (pubkey : bytes) (flags : Z) (sig_version : SigVersion)
    : res CheckSigError unit :=
  reject_if (intersects flags VerifyFlags.STRICTENC && negb (is_public_key pubkey)) BadPubKey;;
  reject_if (intersects flags VerifyFlags.WITNESS_PUBKEYTYPE &&
             bool_decide (sig_version = WitnessV0) &&
             negb (is_compressed_pubkey pubkey)) WitnessPubKeyType.

(** ** [OP_CHECKSIG] *)

Section checksig.
Context `{SignatureChecker}.

Definition eval_checksig_pre_tapscript (sig pubkey script : bytes) (begincodehash : nat)
    (flags : Z) (sig_version : SigVersion) : res CheckSigError bool :=
  subscript ← slice_from script begincodehash;
  subscript ←
    (if bool_decide (sig_version = Base) then
       '(found, subscript) ← find_and_delete subscript sig;
       reject_if ((0 <? found)%nat && intersects flags VerifyFlags.CONST_SCRIPTCODE)
         FindAndDelete;;
       Ok subscript
     else Ok subscript);
  check_signature_encoding sig flags;;
  check_pubkey_encoding pubkey flags sig_version;;
  success ← check_ecdsa_signature sig pubkey subscript sig_version;
  reject_if (negb success && intersects flags VerifyFlags.NULLFAIL &&
             negb (bool_decide (sig = []))) NullFail;;
  Ok success.

Definition set_validation_weight_left (d : ScriptExecutionData) (w : Z)
    : ScriptExecutionData := {|
  tapleaf_hash_init := tapleaf_hash_init d;
  tapleaf_hash := tapleaf_hash d;
  codeseparator_pos_init := codeseparator_pos_init d;
  codeseparator_pos := codeseparator_pos d;
  annex_init := annex_init d;
  annex_present := annex_present d;
  annex_hash := annex_hash d;
  annex := annex d;
  validation_weight_left_init := validation_weight_left_init d;
  validation_weight_left := w;
  output_hash := output_hash d;
|}.

(** The result and the updated execution data. *)
Definition eval_checksig_tapscript (sig pubkey : bytes) (flags : Z)
    (sig_version : SigVersion) (exec_data : ScriptExecutionData)
    : res CheckSigError (bool * ScriptExecutionData) :=
  let success := negb (bool_decide (sig = [])) in
  exec_data ←
    (if success then
       rassert (validation_weight_left_init exec_data);;
       w ← ok_or TapscriptValidationWeight
             (checked_i64 (validation_weight_left exec_data
                           - VALIDATION_WEIGHT_PER_SIGOP_PASSED));
       Ok (set_validation_weight_left exec_data w)
     else Ok exec_data);
  match length pubkey with
  | 0%nat => Err PubKeyType
  | 32%nat =>
      if success then
        sig ← map_err Schnorr (of_sum (schnorr_from_slice sig));
        pubkey ← map_err CheckSigSecp256k1 (of_sum (xonly_from_slice pubkey));
        verified ← map_err CheckSigInvalidSignature
                     (sc_check_schnorr_signature sig pubkey sig_version exec_data);
        Ok (verified, exec_data)
      else Ok (true, exec_data)
  | _ =>
      reject_if (intersects flags VerifyFlags.DISCOURAGE_UPGRADABLE_PUBKEYTYPE)
        CheckSigDiscourageUpgradablePubkeyType;;
      Ok (true, exec_data)
  end.

Definition handle_checksig (sig pubkey script : bytes) (begincodehash : nat)
    (exec_data : ScriptExecutionData) (flags : Z) (sig_version : SigVersion)
    : res CheckSigError (bool * ScriptExecutionData) :=
  match sig_version with
  | Base | WitnessV0 =>
      success ← eval_checksig_pre_tapscript sig pubkey script begincodehash flags sig_version;
      Ok (success, exec_data)
  | Taproot => eval_checksig_tapscript sig pubkey flags sig_version exec_data
  | Tapscript => Panic
  end.
End checksig.

(** ** Lemmas on [find_and_delete] *)

(** [Deleted sig s n out]: scanning [s] from the left and dropping every
    occurrence of [sig] met, without rescanning, drops [n] of them and leaves
    [out]. *)
Inductive Deleted (sig : bytes) : bytes -> nat -> bytes -> Prop :=
| del_short s : (length s < length sig)%nat -> Deleted sig s 0 s
| del_hit rest n out : Deleted sig rest n out -> Deleted sig (sig ++ rest) (S n) out
| del_keep b rest n out :
    (length sig <= length (b :: rest))%nat -> ~ sig `prefix_of` (b :: rest) ->
    Deleted sig rest n out -> Deleted sig (b :: rest) n (b :: out).

Lemma window_prefix (sig s : bytes) :
  (length sig <= length s)%nat ->
  firstn (length sig) s = sig <-> sig `prefix_of` s.
Proof.
  intros _. split.
  - intros <-. exists (skipn (length sig) s). by rewrite take_drop.
  - intros [k ->]. apply take_app_length.
Qed.

Lemma find_and_delete_loop_spec {E} script sig :
  sig <> [] -> (length sig <= length script)%nat ->
  forall fuel i found result,
  (i <= length script)%nat -> (length script - i < fuel)%nat ->
  exists n out i',
    find_and_delete_loop (E := E) fuel script sig found result i
      = Ok ((found + n)%nat, result ++ out, i') /\
    (i' <= length script)%nat /\
    Deleted sig (skipn i script) n (out ++ skipn i' script).
Proof.
  intros Hne Hlen. assert (0 < length sig)%nat by (destruct sig; cbn; [done | lia]).
  induction fuel as [| fuel IH]; intros i found result Hi Hf; [lia |].
  cbn [find_and_delete_loop]. destruct (Nat.leb_spec i (length script - length sig)) as [Hle |].
  - rewrite slice_le by lia. rcbn.
    replace (i + length sig - i)%nat with (length sig) by lia.
    pose proof (length_skipn i script) as Hsk.
    case_bool_decide as Hw.
    + destruct (IH (i + length sig)%nat (found + 1)%nat result) as (n & out & i' & -> & ? & Hd); [lia.. |].
      exists (S n), out, i'. split_and!; [by rewrite <- Nat.add_assoc | done |].
      rewrite window_prefix in Hw by lia. destruct Hw as [k Hk].
      assert (skipn (i + length sig) script = k) as <-.
      { by rewrite Nat.add_comm, <- skipn_skipn, Hk, drop_app_length. }
      rewrite Hk. by apply del_hit.
    + destruct (index_lt (E := E) script i ltac:(lia)) as [b Hb]. rewrite Hb. rcbn.
      apply index_Ok in Hb.
      destruct (IH (i + 1)%nat found (result ++ [b])) as (n & out & i' & -> & ? & Hd); [lia.. |].
      exists n, (b :: out), i'. split_and!; [by rewrite <- (assoc_L (++)) | done |].
      pose proof (drop_S script b i Hb) as HS. rewrite HS in *.
      rewrite Nat.add_1_r in Hd.
      apply del_keep; [cbn in *; lia | rewrite <- window_prefix by (cbn in *; lia); done | done].
  - exists 0%nat, [], i. rewrite Nat.add_0_r, app_nil_r. split_and!; [done.. |].
    apply del_short. cbn [app]. rewrite length_skipn. lia.
Qed.

Lemma find_and_delete_total {E} script sig :
  sig <> [] ->
  exists n out, find_and_delete (E := E) script sig = Ok (n, out) /\ Deleted sig script n out.
Proof.
  intros Hne. unfold find_and_delete. rewrite bool_decide_eq_false_2 by done. cbn [orb].
  destruct (Nat.ltb_spec (length script) (length sig)).
  - eexists _, _. split; [done |]. by apply del_short.
  - destruct (find_and_delete_loop_spec (E := E) script sig Hne ltac:(lia)
      (length script + 1) 0 0 []) as (n & out & i & -> & Hi & Hd); [lia.. |].
    rcbn. rewrite slice_from_le by done. rcbn. by eexists _, _.
Qed.

Lemma Deleted_det sig s n out n' out' :
  sig <> [] -> Deleted sig s n out -> Deleted sig s n' out' -> n = n' /\ out = out'.
Proof.
  intros Hne H. revert n' out'. induction H as [s Hs | rest n out H IH | b rest n out Hl Hp H IH];
    intros n' out' H'; inversion H' as [s' Hs' | rest' m out1 H1 Heq | b' rest' m out1 Hl' Hp' H1 Heq]; subst.
  - done.
  - rewrite length_app in Hs. lia.
  - lia.
  - rewrite length_app in Hs'. lia.
  - apply app_inv_head in Heq. subst. destruct (IH _ _ H1). split; [lia | done].
  - destruct Hp'. rewrite <- Heq in *. by exists rest.
  - lia.
  - destruct Hp. by exists rest'.
  - destruct (IH _ _ H1). by subst.
Qed.

Lemma Deleted_length sig s n out :
  Deleted sig s n out -> length s = (length out + n * length sig)%nat.
Proof. induction 1; rewrite ?length_app; cbn [length] in *; lia. Qed.

Lemma Deleted_none sig s n out :
  Deleted sig s n out -> n = 0%nat -> out = s /\ ~ exists p q, s = p ++ sig ++ q.
Proof.
  induction 1 as [s Hs | | b rest n out Hl Hp H IH]; intros Hn; [| done |].
  - split; [done |]. intros (p & q & ->). rewrite !length_app in Hs. lia.
  - destruct (IH Hn) as [-> Hno]. split; [done |]. intros ([| c p] & q & Heq).
    + apply Hp. by exists q.
    + injection Heq as -> Heq. apply Hno. by exists p, q.
Qed.

Lemma Deleted_bytes_ok sig s n out : Deleted sig s n out -> bytes_ok s -> bytes_ok out.
Proof.
  induction 1; [done | |]; rewrite ?bytes_ok_app, ?bytes_ok_cons; naive_solver.
Qed.

(** [find_and_delete] terminates without an index error and returns
    exactly the result of one left-to-right pass that drops every occurrence
    of the signature met: the count and the remaining bytes are those of
    [Deleted], the lengths add up, and nothing is found exactly when the
    signature does not occur (the script is then unchanged). *)
Lemma find_and_delete_spec (script sig : bytes) (n : nat) (out : bytes) :
  sig <> [] ->
  (find_and_delete (E := CheckSigError) script sig = Ok (n, out) <-> Deleted sig script n out) /\
  (find_and_delete (E := CheckSigError) script sig = Ok (n, out) ->
     length script = (length out + n * length sig)%nat /\
     (n = 0%nat <-> ~ exists p q, script = p ++ sig ++ q) /\
     (n = 0%nat -> out = script)) /\
  no_panic (find_and_delete (E := CheckSigError) script sig).
Proof.
  intros Hne. destruct (find_and_delete_total (E := CheckSigError) script sig Hne) as (m & o & Hm & Hd).
  rewrite Hm. split_and!; [| | done].
  - split; [by intros [= <- <-] |]. intros H. by destruct (Deleted_det _ _ _ _ _ _ Hne Hd H) as [-> ->].
  - intros [= <- <-]. split_and!; [by apply Deleted_length | | by intros [-> _]%(Deleted_none _ _ _ _ Hd)].
    split; [by intros [_ ?]%(Deleted_none _ _ _ _ Hd) |].
    intros Hno. destruct m as [| m]; [done | destruct Hno].
    clear Hm. remember (S m) as k eqn:Hk. revert m Hk.
    induction Hd as [| rest | b rest n' out' Hl Hp Hd IH]; intros m Hk; [done | by exists [], rest |].
    destruct (IH m Hk) as (p & q & ->). by exists (b :: p), q.
Qed.

Lemma find_and_delete_spec_witness :
  find_and_delete (E := CheckSigError) [1; 2; 1; 2; 3; 1; 2] [1; 2] = Ok (3%nat, [3]) /\
  length [1; 2; 1; 2; 3; 1; 2] = (length [3] + 3 * length [1; 2])%nat.
Proof.
  assert (Hr : find_and_delete (E := CheckSigError) [1; 2; 1; 2; 3; 1; 2] [1; 2] = Ok (3%nat, [3]))
    by reflexivity.
  split; [exact Hr |].
  destruct (find_and_delete_spec [1; 2; 1; 2; 3; 1; 2] [1; 2] 3 [3] ltac:(done)) as (_ & H & _).
  exact (proj1 (H Hr)).
Defined.

(** ** Lemmas on the DER encoding *)

(** A positive integer in its shortest big-endian form: not empty, sign bit
    clear, and no leading zero byte unless the next byte needs it. *)
Definition canonical_uint (v : bytes) : Prop :=
  match v with
  | [] => False
  | b0 :: rest => b0 < 128 /\ (b0 = 0 -> match rest with [] => True | b1 :: _ => 128 <= b1 end)
  end.

(** [0x30 [total-length] 0x02 [R-length] [R] 0x02 [S-length] [S] [sighash-type]],
    the grammar the comment above the source function gives. *)
Definition der_layout (r s : bytes) (hash_type : Z) : bytes :=
  0x30 :: Z.of_nat (length r + length s + 4) :: 0x02 :: Z.of_nat (length r) ::
  r ++ 0x02 :: Z.of_nat (length s) :: s ++ [hash_type].

Definition der_signature (sig r s : bytes) (hash_type : Z) : Prop :=
  sig = der_layout r s hash_type /\ canonical_uint r /\ canonical_uint s /\
  (length sig <= 73)%nat.

(** The sign and padding tests of the source, on the integer [v] found at
    offset [off] of a signature [l], accept exactly the canonical integers. *)
Lemma uint_checks {E} (e : E) (l v : bytes) off :
  bytes_ok v -> v <> [] ->
  (forall i, (i < length v)%nat -> l !! (off + i)%nat = v !! i) ->
  (exists b0, l !! off = Some b0 /\ Z.land b0 0x80 = 0 /\
     (if (1 <? length v)%nat && (b0 =? 0) then
        b1 ← index l (off + 1); reject_if (Z.land b1 0x80 =? 0) e
      else Ok tt) = Ok tt) <-> canonical_uint v.
Proof.
  intros Hok Hne Hl. destruct v as [| b0 v]; [done |].
  apply bytes_ok_cons in Hok as [Hb Hv].
  pose proof (Hl 0%nat ltac:(cbn; lia)) as H0. rewrite Nat.add_0_r in H0. cbn in H0.
  transitivity ((b0 <? 128) = true /\
    (if (1 <? length (b0 :: v))%nat && (b0 =? 0) then
        b1 ← index l (off + 1); reject_if (Z.land b1 0x80 =? 0) e
      else Ok tt) = Ok tt).
  { rewrite H0, <- (ScriptNum.land_80_zero b0), Z.eqb_eq by done. naive_solver. }
  unfold canonical_uint. destruct v as [| b1 v].
  - cbn. intuition lia.
  - pose proof (Hl 1%nat ltac:(cbn; lia)) as H1. cbn in H1. unfold index. rewrite H1.
    apply bytes_ok_cons in Hv as [Hb1 _]. cbn [length].
    rewrite (proj2 (Nat.ltb_lt 1 (S (S (length v)))) ltac:(lia)). rcbn. cbn [andb].
    rewrite ScriptNum.land_80_zero by done.
    destruct (Z.eqb_spec b0 0), (Z.ltb_spec b0 128), (Z.ltb_spec b1 128);
      split; intros [? ?]; split; try done; naive_solver lia.
Qed.

(** Lookups in a vector of the signature's shape. *)
Lemma der_lookup b0 b1 b2 b3 (r tail : bytes) i :
  (b0 :: b1 :: b2 :: b3 :: r ++ tail) !! (length r + 4 + i)%nat = tail !! i.
Proof.
  replace (length r + 4 + i)%nat with (S (S (S (S (length r + i))))) by lia.
  change ((r ++ tail) !! (length r + i)%nat = tail !! i).
  rewrite lookup_app_r by lia. f_equal. lia.
Qed.

Lemma der_shape (sig : bytes) n :
  (n + 6 <= length sig)%nat ->
  exists b0 b1 b2 b3 r t0 t1 tail,
    sig = b0 :: b1 :: b2 :: b3 :: r ++ t0 :: t1 :: tail /\ length r = n.
Proof.
  intros Hn. destruct sig as [| b0 [| b1 [| b2 [| b3 sig]]]]; cbn in Hn; try lia.
  destruct (skipn n sig) as [| t0 [| t1 tail]] eqn:Ht.
  1,2: apply (f_equal length) in Ht; rewrite length_skipn in Ht; cbn in Ht; lia.
  exists b0, b1, b2, b3, (firstn n sig), t0, t1, tail. split.
  - rewrite <- Ht. by rewrite take_drop.
  - rewrite length_firstn. lia.
Qed.

Lemma der_lookup_r b0 b1 b2 b3 (r tail : bytes) i :
  (i < length r)%nat -> (b0 :: b1 :: b2 :: b3 :: r ++ tail) !! (4 + i)%nat = r !! i.
Proof. intros Hi. change ((r ++ tail) !! i = r !! i). by apply lookup_app_l. Qed.

Lemma valid_encoding_sound sig e :
  bytes_ok sig -> is_valid_signature_encoding sig = Ok e ->
  exists r s ht, der_signature sig r s ht /\
    e = {| s_offset := length r + 6; s_length := length s |}.
Proof.
  intros Hok H. unfold is_valid_signature_encoding in H. cbv zeta in H. inv_ok.
  bools.
  destruct (der_shape sig (Z.to_nat x5)) as (b0 & b1 & b2 & b3 & r & t0 & t1 & tail & -> & Hr); [lia |].
  cbn in H2, H4, H6, H10. simplify_eq. rewrite <- Hr in *.
  replace (5 + length r)%nat with (length r + 4 + 1)%nat in H8 by lia.
  replace (length r + 4)%nat with (length r + 4 + 0)%nat in H16 by lia.
  rewrite der_lookup in H8, H16. injection H8 as ->. injection H16 as ->.
  destruct tail as [| ht s _] using rev_ind; [cbn in *; rewrite length_app in *; cbn in *; lia |].
  repeat (rewrite ?length_app, ?length_cons in *; cbn [length] in * ).
  assert (Hs : length s = Z.to_nat x7) by lia. rewrite <- Hs in *.
  repeat (rewrite ?bytes_ok_cons, ?bytes_ok_app in Hok). unfold is_u8 in Hok.
  assert (x5 = Z.of_nat (length r)) as -> by lia. assert (x7 = Z.of_nat (length s)) as -> by lia.
  exists r, s, ht. split; [| done]. split_and!.
  - unfold der_layout. do 2 f_equal. lia.
  - apply (uint_checks TooMuchPaddingR (48 :: b1 :: 2 :: Z.of_nat (length r) :: r ++ 2 :: Z.of_nat (length s) :: s ++ [ht]) r 4); [tauto | by destruct r | |].
    + apply der_lookup_r.
    + exists x12. split_and!; [done | done | exact H15].
  - apply (uint_checks TooMuchPaddingS (48 :: b1 :: 2 :: Z.of_nat (length r) :: r ++ 2 :: Z.of_nat (length s) :: s ++ [ht]) s (length r + 6)); [tauto | by destruct s | |].
    + intros i Hi. replace (length r + 6 + i)%nat with (length r + 4 + (2 + i))%nat by lia.
      rewrite der_lookup. change ((s ++ [ht]) !! i = s !! i). by apply lookup_app_l.
    + exists x18. split_and!; [done.. |]. by replace (length r + 6 + 1)%nat with (length r + 7)%nat by lia.
  - unfold der_layout. repeat (rewrite ?length_app, ?length_cons; cbn [length]). lia.
Qed.

Lemma der_length r s ht : length (der_layout r s ht) = (length r + length s + 7)%nat.
Proof. unfold der_layout. repeat (rewrite ?length_app, ?length_cons; cbn [length]). lia. Qed.

Lemma der_lookup_s r s ht i :
  (i < length s)%nat -> der_layout r s ht !! (length r + 6 + i)%nat = s !! i.
Proof.
  intros Hi. replace (length r + 6 + i)%nat with (length r + 4 + (2 + i))%nat by lia.
  unfold der_layout. rewrite der_lookup.
  change ((s ++ [ht]) !! i = s !! i). by apply lookup_app_l.
Qed.

Lemma valid_encoding_complete sig r s ht :
  bytes_ok sig -> der_signature sig r s ht ->
  is_valid_signature_encoding sig = Ok {| s_offset := length r + 6; s_length := length s |}.
Proof.
  intros Hok (-> & Hr & Hs & Hlen).
  pose proof (der_length r s ht) as Hl. rewrite Hl in Hlen.
  assert (Hr0 : r <> []) by (by destruct r). assert (Hs0 : s <> []) by (by destruct s).
  assert (Hrs : bytes_ok r /\ bytes_ok s).
  { unfold der_layout in Hok. repeat (rewrite ?bytes_ok_cons, ?bytes_ok_app in Hok). tauto. }
  apply (uint_checks TooMuchPaddingR (der_layout r s ht) r 4) in Hr as (r0 & Hr1 & Hr2 & Hr3);
    [| tauto | done | apply der_lookup_r].
  apply (uint_checks TooMuchPaddingS (der_layout r s ht) s (length r + 6)) in Hs as (s0 & Hs1 & Hs2 & Hs3);
    [| tauto | done | apply der_lookup_s].
  replace (length r + 6 + 1)%nat with (length r + 7)%nat in Hs3 by lia. cbn [Nat.add] in Hr3.
  assert (0 < length r /\ 0 < length s)%nat by (destruct r, s; cbn; done || lia).
  unfold is_valid_signature_encoding. cbv zeta. rewrite Hl.
  change (index (der_layout r s ht) 0) with (Ok (E := SignatureEncodingError) 0x30).
  change (index (der_layout r s ht) 1)
    with (Ok (E := SignatureEncodingError) (Z.of_nat (length r + length s + 4))).
  change (index (der_layout r s ht) 2) with (Ok (E := SignatureEncodingError) 0x02).
  change (index (der_layout r s ht) 3)
    with (Ok (E := SignatureEncodingError) (Z.of_nat (length r))).
  assert (Hid : der_layout r s ht !! (length r + 4)%nat = Some 2).
  { rewrite <- (Nat.add_0_r (length r + 4)). unfold der_layout. by rewrite der_lookup. }
  assert (Hls : der_layout r s ht !! (5 + length r)%nat = Some (Z.of_nat (length s))).
  { replace (5 + length r)%nat with (length r + 4 + 1)%nat by lia.
    unfold der_layout. by rewrite der_lookup. }
  apply (index_Ok (E := SignatureEncodingError)) in Hr1, Hs1, Hid, Hls.
  repeat first [ rewrite reject_if_false by (btest; done || lia)
               | rewrite Nat2Z.id | rewrite Hls | rewrite Hr1 | rewrite Hid | rewrite Hs1
               | rewrite Hr3 | rewrite Hs3 | rewrite Hr2 | rewrite Hs2 | progress rbind ].
  done.
Qed.

Lemma no_panic_valid_encoding sig : no_panic (is_valid_signature_encoding sig).
Proof.
  unfold is_valid_signature_encoding. cbv zeta.
  repeat (first [ apply no_panic_index; bools; lia | np_step ]).
Qed.
#[export] Hint Resolve no_panic_valid_encoding : rust.

Lemma der_slice_s r s ht :
  slice (E := CheckSigError) (der_layout r s ht) (length r + 6) (length r + 6 + length s) = Ok s.
Proof.
  rewrite slice_le by (rewrite der_length; lia).
  replace (length r + 6 + length s - (length r + 6))%nat with (length s) by lia.
  unfold der_layout. f_equal.
  change (0x30 :: Z.of_nat (length r + length s + 4) :: 0x02 :: Z.of_nat (length r) ::
          r ++ 0x02 :: Z.of_nat (length s) :: s ++ [ht])
    with ([0x30; Z.of_nat (length r + length s + 4); 0x02; Z.of_nat (length r)] ++
          r ++ [0x02; Z.of_nat (length s)] ++ s ++ [ht]).
  rewrite !(assoc_L (++)). rewrite <- (assoc_L (++) _ s [ht]).
  rewrite drop_app_length' by (rewrite !length_app; cbn; lia).
  by rewrite take_app_length.
Qed.

Lemma is_low_der_Ok sig :
  bytes_ok sig ->
  is_low_der_signature sig = Ok tt <->
  exists r s ht, der_signature sig r s ht /\ be_value s <= HALF_ORDER.
Proof.
  intros Hok. unfold is_low_der_signature. split.
  - intros H. inv_ok.
    apply valid_encoding_sound in H0 as (r & s & ht & Hd & ->); [| done].
    exists r, s, ht. split; [done |]. destruct Hd as [-> _]. cbn in H1.
    rewrite der_slice_s in H1. injection H1 as <-. bools. done.
  - intros (r & s & ht & Hd & Hle). rewrite (valid_encoding_complete _ r s ht) by done.
    destruct Hd as [-> _]. rcbn. cbn [s_offset s_length]. rewrite der_slice_s. rcbn.
    by rewrite (proj2 (Z.ltb_ge _ _) Hle).
Qed.

Lemma no_panic_is_low_der sig : bytes_ok sig -> no_panic (is_low_der_signature sig).
Proof.
  intros Hok. unfold is_low_der_signature. apply no_panic_bind; [np |].
  intros e He. inv_ok. apply valid_encoding_sound in He as (r & s & ht & [-> _] & ->); [| done].
  cbn [s_offset s_length]. rewrite der_slice_s. np.
Qed.
#[export] Hint Resolve no_panic_is_low_der : rust.

Lemma no_panic_check_signature_encoding sig flags :
  bytes_ok sig -> no_panic (check_signature_encoding sig flags).
Proof. intros. unfold check_signature_encoding. np. Qed.

Lemma no_panic_check_pubkey_encoding pubkey flags v :
  no_panic (check_pubkey_encoding pubkey flags v).
Proof. unfold check_pubkey_encoding. np. Qed.

Lemma no_panic_find_and_delete {E} script sig : no_panic (find_and_delete (E := E) script sig).
Proof.
  destruct (decide (sig = [])) as [-> | Hne]; [done |].
  by destruct (find_and_delete_total (E := E) script sig Hne) as (n & out & -> & _).
Qed.
#[export] Hint Resolve no_panic_check_signature_encoding no_panic_check_pubkey_encoding
  no_panic_find_and_delete : rust.

Lemma defined_hashtype sig :
  bytes_ok sig ->
  is_defined_hashtype_signature sig = true <->
  exists ht, last sig = Some ht /\ In ht [0x01; 0x02; 0x03; 0x81; 0x82; 0x83].
Proof.
  intros Hok. unfold is_defined_hashtype_signature. destruct (last sig) as [ht |] eqn:Hl.
  - apply last_Some in Hl as [l ->]. apply bytes_ok_snoc in Hok as [_ Hht].
    apply (u8_forall (fun b => Bool.eqb
      (let t := Z.land b (u8_max - SIGHASH_ANYONECANPAY) in
       (SIGHASH_ALL <=? t) && (t <=? SIGHASH_SINGLE))
      (existsb (Z.eqb b) [0x01; 0x02; 0x03; 0x81; 0x82; 0x83]))) in Hht; [| vm_compute; done].
    apply Bool.eqb_prop in Hht. cbv zeta in *. rewrite Hht, existsb_exists.
    split.
    + intros (x & Hx & <-%Z.eqb_eq). by exists ht.
    + intros (x & [= <-] & Hx). exists ht. by rewrite Z.eqb_refl.
  - naive_solver.
Qed.

(** what [check_signature_encoding] accepts.  An empty signature always
    passes; any other passes exactly when, under the flags that ask for it, it
    is the strict DER layout of two shortest-form positive integers R and S
    followed by a hash type byte (BIP 66), S is at most half the group order
    (BIP 62, low S), and the hash type is ALL, NONE or SINGLE with or without
    ANYONECANPAY.  No signature makes the indexing panic. *)
Lemma check_signature_encoding_spec (sig : bytes) (flags : Z) :
  bytes_ok sig ->
  (check_signature_encoding sig flags = Ok tt <->
   sig = [] \/
   ((intersects flags (Z.lor (Z.lor VerifyFlags.DERSIG VerifyFlags.LOW_S) VerifyFlags.STRICTENC)
       = true -> exists r s ht, der_signature sig r s ht) /\
    (intersects flags VerifyFlags.LOW_S = true ->
       exists r s ht, der_signature sig r s ht /\ be_value s <= HALF_ORDER) /\
    (intersects flags VerifyFlags.STRICTENC = true ->
       exists ht, last sig = Some ht /\ In ht [0x01; 0x02; 0x03; 0x81; 0x82; 0x83]))) /\
  no_panic (check_signature_encoding sig flags).
Proof.
  intros Hok. split; [| auto with rust].
  assert (Hv : is_ok (is_valid_signature_encoding sig) = true <->
               exists r s ht, der_signature sig r s ht).
  { split.
    - destruct (is_valid_signature_encoding sig) eqn:He; try done. intros _.
      apply valid_encoding_sound in He as (r & s & ht & ? & _); eauto.
    - intros (r & s & ht & Hd). by rewrite (valid_encoding_complete _ _ _ _ Hok Hd). }
  unfold check_signature_encoding. case_bool_decide as Hsig; [by subst; split; auto |].
  rewrite <- Hv, <- is_low_der_Ok, <- defined_hashtype by done.
  destruct (intersects flags (Z.lor _ _)), (intersects flags VerifyFlags.LOW_S),
    (intersects flags VerifyFlags.STRICTENC), (is_valid_signature_encoding sig),
    (is_low_der_signature sig) as [[] | |], (is_defined_hashtype_signature sig);
    cbn; naive_solver.
Qed.

Definition sample_signature : bytes := [0x30; 6; 2; 1; 5; 2; 1; 9; 1].

Lemma check_signature_encoding_spec_witness :
  exists r s ht, der_signature sample_signature r s ht /\ be_value s <= HALF_ORDER.
Proof.
  assert (Hok : bytes_ok sample_signature) by (repeat constructor; vm_compute; congruence).
  destruct (check_signature_encoding_spec sample_signature VerifyFlags.LOW_S Hok) as [[H _] _].
  destruct (H eq_refl) as [H' | (_ & H' & _)]; [discriminate H' |]. exact (H' eq_refl).
Defined.

(** ** [OP_CHECKSIG] does not panic before tapscript *)

(** A checker whose ECDSA and time lock checks always return: what the
    evaluation of opcodes needs of the [SignatureChecker] it is given. *)
Class SafeChecker `{SignatureChecker} : Prop := {
  safe_ecdsa sig key script v : no_panic (sc_check_ecdsa_signature sig key script v);
  safe_lock_time n : is_Some (sc_check_lock_time n);
  safe_sequence n : is_Some (sc_check_sequence n);
}.

Section checksig_lemmas.
Context `{SignatureChecker}.

Lemma no_panic_parse_der_lax sig : no_panic (parse_der_lax sig).
Proof. unfold parse_der_lax. np. Qed.

Lemma no_panic_check_ecdsa `{!SafeChecker} {E} sig key script v :
  no_panic (check_ecdsa_signature (E := E) sig key script v).
Proof.
  unfold check_ecdsa_signature. pose proof (no_panic_parse_der_lax sig) as Hp.
  destruct (parse_der_lax sig) as [s | |]; [| done | done].
  destruct (public_key_from_slice key) as [? | k]; [done |].
  pose proof (safe_ecdsa s k script v) as Hc.
  by destruct (sc_check_ecdsa_signature s k script v).
Qed.

Lemma no_panic_handle_checksig `{!SafeChecker} sig pubkey script begincode d flags v :
  bytes_ok sig -> (begincode <= length script)%nat -> v = Base \/ v = WitnessV0 ->
  no_panic (handle_checksig sig pubkey script begincode d flags v).
Proof.
  intros Hs Hb Hv.
  assert (no_panic (eval_checksig_pre_tapscript sig pubkey script begincode flags v)).
  { unfold eval_checksig_pre_tapscript. rewrite slice_from_le by done. rbind.
    pose proof (@no_panic_check_ecdsa _ CheckSigError). np. }
  unfold handle_checksig. destruct Hv as [-> | ->]; np.
Qed.
End checksig_lemmas.
