(* ===== verification/Sample.v ===== *)
(** * Concrete instances of the external interfaces

    Small functions in the place of the rust-bitcoin and secp256k1 crates, so
    that the laws assumed of them are seen to be satisfiable and theorems about
    the interpreter can be evaluated on concrete scripts.  The instruction
    parser follows the script format; hashes and signatures are toys (a
    signature is valid for the key it spells out). *)

From Stdlib Require Import ZArith Lia.
From stdpp Require Import prelude.
From S2P Require Import Prelude Opcode ScriptNum ScriptTypes Stack CheckSig.

Module Sample.

(** A push of [n] bytes after a length field of [k] bytes, or a parse error. *)
Definition push_length (op : Z) (rest : bytes) : option (nat * nat) :=
  if op <=? 0x4b then Some (0%nat, Z.to_nat op)
  else
    let k := if op =? 0x4c then 1%nat else if op =? 0x4d then 2%nat else 4%nat in
    if (k <=? length rest)%nat then Some (k, Z.to_nat (le_value (firstn k rest))) else None.

(** [Script::instruction_indices]. *)
Fixpoint parse (fuel pos : nat) (s : bytes) : list (ExtError + nat * Instruction) :=
  match fuel, s with
  | S fuel, op :: rest =>
      if 0x4e <? op then inr (pos, Op op) :: parse fuel (pos + 1) rest
      else
        match push_length op rest with
        | Some (k, n) =>
            let body := skipn k rest in
            if (n <=? length body)%nat then
              inr (pos, PushBytes (firstn n body)) :: parse fuel (pos + 1 + k + n) (skipn n body)
            else [inl (ExternalError 1)]
        | None => [inl (ExternalError 1)]
        end
  | _, _ => []
  end.

Definition sample_is_p2sh (s : bytes) : bool :=
  match s with
  | a :: b :: rest =>
      (a =? 0xa9) && (b =? 20) && (length rest =? 21)%nat && bool_decide (last rest = Some 0x87)
  | _ => false
  end.

(** A version opcode followed by one push that ends the script. *)
Definition sample_witness_version (s : bytes) : option Z :=
  match s with
  | v :: n :: rest =>
      if (length rest =? Z.to_nat n)%nat && (2 <=? n) && (n <=? 40) then
        if v =? 0 then Some 0 else if (0x51 <=? v) && (v <=? 0x60) then Some (v - 0x50) else None
      else None
  | _ => None
  end.

(** The opcode and length field of a push. *)
Definition push_opcode (n : nat) : bytes :=
  if (n <=? 75)%nat then [Z.of_nat n] else if (n <=? 255)%nat then [0x4c; Z.of_nat n]
  else 0x4d :: le_bytes 2 (Z.of_nat n).

Definition is_push (i : ExtError + nat * Instruction) : bool :=
  match i with
  | inr (_, PushBytes _) => true
  | inr (_, Op op) => op <=? 0x60
  | inl _ => false
  end.

#[export] Instance script_api : ScriptApi := {|
  instruction_indices s := parse (length s) 0 s;
  instruction_indices_minimal s := parse (length s) 0 s;
  instructions s := map (fun x => match x with inl e => inl e | inr (_, i) => inr i end)
                        (parse (length s) 0 s);
  is_push_only s := forallb is_push (parse (length s) 0 s);
  is_p2sh := sample_is_p2sh;
  is_p2pkh s := match parse (length s) 0 s with
                | [inr (_, Op a); inr (_, Op b); inr (_, PushBytes h); inr (_, Op c); inr (_, Op d)] =>
                    (a =? 0x76) && (b =? 0xa9) && (length h =? 20)%nat && (c =? 0x88) && (d =? 0xac)
                | _ => false
                end;
  is_op_return s := match s with a :: _ => a =? 0x6a | _ => false end;
  witness_version := sample_witness_version;
  witness_program_new v p :=
    if (v =? 0) && negb ((length p =? 20)%nat || (length p =? 32)%nat)
    then inl (ExternalError 2) else inr p;
  p2pk_public_key s := match parse (length s) 0 s with
                       | [inr (_, PushBytes k); inr (_, Op a)] => if a =? 0xac then Some k else None
                       | _ => None
                       end;
  push_slice d := push_opcode (length d) ++ d;
  witness_size w := Z.of_nat (length (concat w)) + Z.of_nat (length w) + 1;
|}.

Definition toy_hash (n : nat) (bs : bytes) : bytes := le_bytes n (le_value bs + 1).

#[export] Instance hash_api : HashApi := {|
  ripemd160 := toy_hash 20;
  sha1 := toy_hash 20;
  sha256 := toy_hash 32;
  hash160 := toy_hash 20;
  sha256d := toy_hash 32;
  tap_leaf_hash s _ := toy_hash 32 s;
|}.

#[export] Instance key_api : KeyApi := {|
  ecdsa_signature := bytes;
  public_key := bytes;
  schnorr_signature := bytes;
  xonly_public_key := bytes;
  from_der_lax := inr;
  public_key_from_slice := inr;
  schnorr_from_slice := inr;
  xonly_from_slice := inr;
  leaf_version_from_consensus v := if (v =? 0x50) || Z.odd v then None else Some v;
  control_block_decode := inr;
  verify_taproot_commitment _ _ _ := true;
|}.

#[export] Instance checker : SignatureChecker := {|
  sc_check_ecdsa_signature sig key _ _ := Ok (bool_decide (ecdsa_sig sig = key));
  sc_check_schnorr_signature sig key _ _ := Ok (bool_decide (sig = key));
  sc_check_lock_time n := Some (n <=? 500);
  sc_check_sequence n := Some (n <=? 500);
|}.

#[export] Instance safe_checker : SafeChecker.
Proof. split; [done | by eexists | by eexists]. Qed.

#[export] Instance hash_laws : HashLaws.
Proof. split; intros x; split_and!; apply le_bytes_ok || apply le_bytes_length. Qed.

Lemma bytes_ok_skipn n bs : bytes_ok bs -> bytes_ok (skipn n bs).
Proof. apply Forall_drop. Qed.

Lemma parse_instr fuel pos s p i :
  bytes_ok s -> In (inr (p, i)) (parse fuel pos s) ->
  match i with Op op => 0x4e < op <= u8_max | PushBytes d => bytes_ok d end.
Proof.
  revert pos s. induction fuel as [| fuel IH]; intros pos s Hs Hin; [done |].
  destruct s as [| op rest]; [done |]. apply bytes_ok_cons in Hs as [Hop Hr]. cbn [parse] in Hin.
  destruct (Z.ltb_spec 0x4e op).
  - destruct Hin as [[= <- <-] | Hin]; [unfold is_u8 in Hop; lia | by eapply IH].
  - destruct (push_length op rest) as [[k n] |]; [| by destruct Hin].
    destruct (_ <=? _)%nat; [| by destruct Hin].
    destruct Hin as [[= <- <-] | Hin].
    + by apply Forall_take, Forall_drop.
    + eapply IH; [| done]. by do 2 apply Forall_drop.
Qed.

Lemma parse_total fuel pos s : (instructions_size (parse fuel pos s) <= length s)%nat.
Proof.
  revert pos s. induction fuel as [| fuel IH]; intros pos s; [cbn; lia |].
  destruct s as [| op rest]; [done |]. cbn [parse]. destruct (0x4e <? op).
  - cbn [instructions_size instruction_size length]. specialize (IH (pos + 1)%nat rest). lia.
  - destruct (push_length op rest) as [[k n] |]; [| cbn; lia]. cbv zeta.
    destruct (Nat.leb_spec n (length (skipn k rest))) as [Hn |]; [| cbn; lia].
    cbn [instructions_size instruction_size length].
    specialize (IH (pos + 1 + k + n)%nat (skipn n (skipn k rest))).
    rewrite length_firstn, !length_skipn in *. lia.
Qed.

Lemma parse_op fuel pos op rest :
  0x4e < op -> parse (S fuel) pos (op :: rest) = inr (pos, Op op) :: parse fuel (pos + 1) rest.
Proof. intros H. cbn [parse]. by rewrite (proj2 (Z.ltb_lt _ _) H). Qed.

Lemma parse_push fuel pos (d rest : bytes) :
  (length d <= 75)%nat ->
  parse (S fuel) pos (Z.of_nat (length d) :: d ++ rest)
  = inr (pos, PushBytes d) :: parse fuel (pos + 1 + 0 + length d) rest.
Proof.
  intros H. cbn [parse]. rewrite (proj2 (Z.ltb_ge _ _)) by lia. unfold push_length.
  rewrite (proj2 (Z.leb_le _ _)) by lia. cbv zeta. rewrite drop_0, Nat2Z.id.
  rewrite (proj2 (Nat.leb_le _ _)) by (rewrite length_app; lia).
  by rewrite take_app_length, drop_app_length.
Qed.

Lemma parse_p2sh_script s :
  sample_is_p2sh s = true ->
  exists h, length h = 20%nat /\
    parse (length s) 0 s = [inr (0%nat, Op 0xa9); inr (1%nat, PushBytes h); inr (22%nat, Op 0x87)].
Proof.
  intros H. unfold sample_is_p2sh in H.
  destruct s as [| a [| b rest]]; [done.. |]. bools. subst a b. destruct rest as [| c h _] using rev_ind; [done |].
  match goal with Hl : last _ = Some _, Hn : length _ = 21%nat |- _ =>
    rewrite last_snoc in Hl; injection Hl as ->; rewrite length_app in Hn; cbn [length] in Hn end.
  exists h. split; [lia |].
  replace (length (0xa9 :: 20 :: h ++ [0x87])) with (S (S (S 20))) by (cbn; rewrite length_app; cbn; lia).
  rewrite parse_op by lia. replace 20 with (Z.of_nat (length h)) by lia.
  rewrite parse_push, parse_op by lia. cbn [parse]. repeat f_equal. lia.
Qed.

#[export] Instance script_laws : ScriptLaws.
Proof.
  split; cbn [instruction_indices instruction_indices_minimal is_p2sh push_slice script_api].
  - intros s l i op Hl Hs Hin. assert (l = parse (length s) 0 s) as -> by naive_solver.
    exact (parse_instr _ _ _ _ _ Hs Hin).
  - intros s l i d Hl Hs Hin. assert (l = parse (length s) 0 s) as -> by naive_solver.
    exact (parse_instr _ _ _ _ _ Hs Hin).
  - intros s l Hl. assert (l = parse (length s) 0 s) as -> by naive_solver. apply parse_total.
  - intros s l Hl Hp. assert (l = parse (length s) 0 s) as -> by naive_solver.
    destruct (parse_p2sh_script s Hp) as (h & Hh & ->). by eexists _, _, _, h.
  - intros h l Hh Hl. cbv zeta in Hl.
    set (script := [0x76; 0xa9] ++ _ ++ [0x88; 0xac]) in *.
    assert (l = parse (length script) 0 script) as -> by naive_solver. unfold script, push_opcode.
    rewrite (proj2 (Nat.leb_le _ _)) by lia. cbn [app].
    rewrite 3!length_cons, length_app, Hh. cbn [length Nat.add].
    rewrite 2!parse_op, <- Hh, parse_push, 2!parse_op by lia.
    rewrite Hh. by do 5 eexists.
  - intros d. unfold push_opcode. by repeat case_match.
  - intros d Hd Hl. apply bytes_ok_app. split; [| done]. unfold push_opcode.
    destruct (Nat.leb_spec (length d) 75), (Nat.leb_spec (length d) 255);
      rewrite ?bytes_ok_cons; unfold is_u8, u8_max; split_and!; auto with rust; lia.
  - intros s n. cbn. unfold sample_witness_version. destruct s as [| v [| k rest]]; [done.. |].
    destruct (_ && _) eqn:Hb; [| done]. bools. cbn [length]. intros _. lia.
  - intros n p p'. cbn. destruct (_ && _); naive_solver.
  - intros p p'. cbn. destruct (Nat.eqb_spec (length p) 20), (Nat.eqb_spec (length p) 32); naive_solver.
Qed.
End Sample.
