(* ===== verification/MultiSig.v ===== *)
(** * [OP_CHECKMULTISIG] ([crates/subcoin-script/src/interpreter/eval/multisig.rs])

    The evaluation of the multi-signature opcodes, and the equivalence of its
    greedy loop with the definition of an m-of-n match. *)

From Stdlib Require Import ZArith Lia.
From stdpp Require Import prelude.
From S2P Require Import Prelude Opcode ScriptNum ScriptTypes Stack CheckSig Sample.

Inductive MultiSigOp :=
| OpCheckMultiSig
| OpCheckMultiSigVerify.

(** [for _ in 0..n { items.push(stack.pop()?) }]. *)
Fixpoint pop_items (n : nat) (stack : Stack) (items : list bytes)
    : res StackError (list bytes * Stack) :=
  match n with
  | O => Ok (items, stack)
  | S n =>
      '(x, stack) ← GS.pop stack;
      pop_items n stack (items ++ [x])
  end.

Section multisig.
Context `{ScriptApi} `{SignatureChecker}.

(** The loop that removes the pushes of the signatures from the script code
    of a pre-segwit script.  A push of more than [u32::MAX] bytes cannot be
    built. *)
Fixpoint delete_signatures (sigs : list bytes) (subscript : bytes) (flags : Z)
    (sig_version : SigVersion) : res CheckMultiSigError bytes :=
  match sigs with
  | [] => Ok subscript
  | signature :: sigs =>
      subscript ←
        (if bool_decide (sig_version = Base) then
           rassert (Z.of_nat (length signature) <=? u32_max);;
           let sig_script := push_slice signature in
           '(found, subscript) ← find_and_delete subscript sig_script;
           reject_if ((0 <? found)%nat && intersects flags VerifyFlags.CONST_SCRIPTCODE)
             (MultiCheckSig FindAndDelete);;
           Ok subscript
         else Ok subscript);
      delete_signatures sigs subscript flags sig_version
  end.

(** The verification loop.  Every round moves to the next key, so one round
    per key is enough ([multisig_loop_spec]). *)
Fixpoint multisig_loop (fuel : nat) (keys sigs : list bytes) (flags : Z)
    (subscript : bytes) (sig_version : SigVersion) (success : bool)
    (checked_keys_count satisfied_sigs_count : nat) : res CheckMultiSigError bool :=
  if (satisfied_sigs_count <? length sigs)%nat && success then
    match fuel with
    | O => Panic
    | S fuel =>
        key ← index keys checked_keys_count;
        sig ← index sigs satisfied_sigs_count;
        map_err MultiCheckSig (check_signature_encoding sig flags);;
        map_err MultiCheckSig (check_pubkey_encoding key flags sig_version);;
        signature_is_correct ← check_ecdsa_signature sig key subscript sig_version;
        let satisfied_sigs_count :=
          if (signature_is_correct : bool) then (satisfied_sigs_count + 1)%nat
          else satisfied_sigs_count in
        let checked_keys_count := (checked_keys_count + 1)%nat in
        let success := (length sigs - satisfied_sigs_count <=?
                        length keys - checked_keys_count)%nat in
        multisig_loop fuel keys sigs flags subscript sig_version success
          checked_keys_count satisfied_sigs_count
    end
  else Ok success.

(** Returns the outcome, the stack and the operation count. *)
Definition eval_checkmultisig (stack : Stack) (flags : Z) (begincode : nat)
    (script : bytes) (sig_version : SigVersion) (op_count : nat)
    : res CheckMultiSigError (bool * Stack * nat) :=
  reject_if (bool_decide (sig_version = Tapscript)) TapscriptCheckMultiSig;;
  '(keys_count, stack) ← map_err MultiStack (GS.pop_num stack);
  reject_if ((keys_count <? 0) || (MAX_PUBKEYS_PER_MULTISIG <? keys_count))
    InvalidPubkeyCount;;
  let keys_count := Z.to_nat keys_count in
  let op_count := (op_count + keys_count)%nat in
  reject_if (MAX_OPS_PER_SCRIPT <? op_count)%nat TooManyOps;;
  '(keys, stack) ← map_err MultiStack (pop_items keys_count stack []);
  '(sigs_count, stack) ← map_err MultiStack (GS.pop_num stack);
  reject_if ((sigs_count <? 0) || (keys_count <? Z.to_nat sigs_count)%nat)
    (InvalidSignatureCount keys_count);;
  let sigs_count := Z.to_nat sigs_count in
  '(sigs, stack) ← map_err MultiStack (pop_items sigs_count stack []);
  '(dummy, stack) ← map_err MultiStack (GS.pop stack);
  reject_if (intersects flags VerifyFlags.NULLDUMMY && negb (bool_decide (dummy = [])))
    (SignatureNullDummy (length dummy));;
  subscript ← slice_from script begincode;
  subscript ← delete_signatures sigs subscript flags sig_version;
  success ← multisig_loop (length keys) keys sigs flags subscript sig_version true 0 0;
  Ok (success, stack, op_count).

Definition handle_checkmultisig (stack : Stack) (flags : Z) (begincode : nat)
    (script : bytes) (sig_version : SigVersion) (multisig_op : MultiSigOp)
    (op_count : nat) : res CheckMultiSigError (Stack * nat) :=
  '(success, stack, op_count) ←
    eval_checkmultisig stack flags begincode script sig_version op_count;
  match multisig_op with
  | OpCheckMultiSig => Ok (GS.push_bool stack success, op_count)
  | OpCheckMultiSigVerify =>
      if success then Ok (stack, op_count) else Err CheckMultiSigVerify
  end.
End multisig.

(** ** The m-of-n match *)

(** [SigsMatch ok sigs keys]: the signatures can be assigned to keys of the
    list, each signature to a key it verifies under, in the order of the
    list and without using a key twice. *)
Inductive SigsMatch {S K} (ok : S -> K -> bool) : list S -> list K -> Prop :=
| match_done keys : SigsMatch ok [] keys
| match_use s k sigs keys :
    ok s k = true -> SigsMatch ok sigs keys -> SigsMatch ok (s :: sigs) (k :: keys)
| match_skip s k sigs keys :
    SigsMatch ok (s :: sigs) keys -> SigsMatch ok (s :: sigs) (k :: keys).

Section match_lemmas.
Context {S K : Type} (ok : S -> K -> bool).

Lemma SigsMatch_length sigs keys :
  SigsMatch ok sigs keys -> (length sigs <= length keys)%nat.
Proof. induction 1; cbn in *; lia. Qed.

Lemma SigsMatch_weaken s sigs keys : SigsMatch ok (s :: sigs) keys -> SigsMatch ok sigs keys.
Proof.
  intros H. remember (s :: sigs) as l eqn:El. revert s sigs El.
  induction H as [| s k sigs keys Hok H IH | s k sigs keys H IH]; intros s' sigs' [=]; subst.
  - destruct sigs' as [| s'' sigs']; [constructor | by apply match_skip].
  - specialize (IH _ _ eq_refl). destruct sigs'; [constructor | by apply match_skip].
Qed.

(** Taking the first key a signature verifies under loses nothing. *)
Lemma SigsMatch_greedy s sigs k keys :
  SigsMatch ok (s :: sigs) (k :: keys) <->
  SigsMatch ok (if ok s k then sigs else s :: sigs) keys.
Proof.
  split.
  - intros H. inversion H; subst.
    + by match goal with H : ok s k = true |- _ => rewrite H end.
    + destruct (ok s k); [by eapply SigsMatch_weaken | done].
  - destruct (ok s k) eqn:E; [by apply match_use | by apply match_skip].
Qed.
End match_lemmas.

(** ** The loop decides the match *)

Section loop.
Context `{ScriptApi} `{SignatureChecker} `{!SafeChecker}.

(** The verdict on one signature and one key. *)
Definition ecdsa_ok (subscript : bytes) (v : SigVersion) (sig key : bytes) : bool :=
  match check_ecdsa_signature (E := CheckMultiSigError) sig key subscript v with
  | Ok b => b
  | _ => false
  end.

Lemma check_ecdsa_verdict sig key subscript v :
  check_ecdsa_signature (E := CheckMultiSigError) sig key subscript v
  = Ok (ecdsa_ok subscript v sig key).
Proof.
  unfold ecdsa_ok.
  pose proof (no_panic_check_ecdsa (E := CheckMultiSigError) sig key subscript v) as Hp.
  revert Hp. unfold check_ecdsa_signature.
  destruct (parse_der_lax sig) as [s | |]; [| done..].
  destruct (public_key_from_slice key) as [? | k]; [done |].
  by destruct (sc_check_ecdsa_signature s k subscript v).
Qed.

Lemma multisig_loop_spec keys sigs flags subscript v :
  Forall (fun sig => check_signature_encoding sig flags = Ok tt) sigs ->
  Forall (fun key => check_pubkey_encoding key flags v = Ok tt) keys ->
  forall fuel ck ss,
  (ck <= length keys)%nat -> (ss <= length sigs)%nat -> (length keys - ck <= fuel)%nat ->
  exists b,
    multisig_loop fuel keys sigs flags subscript v
      (length sigs - ss <=? length keys - ck)%nat ck ss = Ok b /\
    (b = true <-> SigsMatch (ecdsa_ok subscript v) (skipn ss sigs) (skipn ck keys)).
Proof.
  intros Hsigs Hkeys. induction fuel as [| fuel IH]; intros ck ss Hck Hss Hf; cbn [multisig_loop];
    destruct (Nat.ltb_spec ss (length sigs)), (Nat.leb_spec (length sigs - ss) (length keys - ck));
    cbn [andb]; try lia.
  (* the loop has ended: every signature is used, or too few keys are left *)
  all: try by (eexists; split; [done |]; split; [intros _ | done];
               rewrite skipn_all2 by lia; constructor).
  all: try by (eexists; split; [done |]; split; [done |]; intros Hm%SigsMatch_length;
               rewrite !length_skipn in Hm; lia).
  destruct (index_lt (E := CheckMultiSigError) keys ck ltac:(lia)) as [key Hkey].
  destruct (index_lt (E := CheckMultiSigError) sigs ss ltac:(lia)) as [sig Hsig].
  rewrite Hkey, Hsig. rbind. apply index_Ok in Hkey, Hsig.
  rewrite (Forall_lookup_1 _ _ _ _ Hsigs Hsig), (Forall_lookup_1 _ _ _ _ Hkeys Hkey).
  cbn [map_err]. rbind. rewrite check_ecdsa_verdict. rbind. cbv zeta.
  rewrite (drop_S _ _ _ Hkey), (drop_S _ _ _ Hsig), !Nat.add_1_r.
  setoid_rewrite SigsMatch_greedy.
  destruct (ecdsa_ok subscript v sig key).
  - apply IH; lia.
  - rewrite <- (drop_S _ _ _ Hsig). apply IH; lia.
Qed.

Lemma pop_items_spec pre l items m :
  pop_items (length l) (mk_stack (pre ++ reverse l) m) items = Ok (items ++ l, mk_stack pre m).
Proof.
  revert items. induction l as [| x l IH]; intros items; cbn [length pop_items].
  - by rewrite !app_nil_r.
  - rewrite reverse_cons, (assoc_L (++)), pop_snoc. rbind.
    by rewrite IH, <- (assoc_L (++)).
Qed.

Lemma pop_num_snoc d x m n :
  ScriptNum.from_bytes x m None = Ok n ->
  GS.pop_num (mk_stack (d ++ [x]) m) = Ok (n, mk_stack d m).
Proof. intros Hn. unfold GS.pop_num. rewrite pop_snoc. rbind. cbn [minimaldata]. by rewrite Hn. Qed.

(** C28: [OP_CHECKMULTISIG] is m-of-n.  On a stack that holds, from the
    bottom, a dummy, [m] signatures, the number [m], [n] keys and the number
    [n] (m <= n <= 20, well encoded under the flags, within the operation
    limit), the handler consumes exactly these items and pushes true if and
    only if the signatures can be assigned, in order, to distinct keys they
    verify under; the operation count grows by [n].  The handler always
    returns. *)
Theorem checkmultisig_m_of_n (pre keys sigs : list bytes) (dummy nb mb script subscript : bytes)
    (minimal : bool) (flags : Z) (begincode op_count : nat) (v : SigVersion) :
  v <> Tapscript ->
  ScriptNum.from_bytes nb minimal None = Ok (Z.of_nat (length keys)) ->
  ScriptNum.from_bytes mb minimal None = Ok (Z.of_nat (length sigs)) ->
  (length sigs <= length keys <= 20)%nat ->
  (op_count + length keys <= MAX_OPS_PER_SCRIPT)%nat ->
  (intersects flags VerifyFlags.NULLDUMMY = true -> dummy = []) ->
  (begincode <= length script)%nat ->
  delete_signatures sigs (skipn begincode script) flags v = Ok subscript ->
  Forall (fun sig => check_signature_encoding sig flags = Ok tt) sigs ->
  Forall (fun key => check_pubkey_encoding key flags v = Ok tt) keys ->
  exists b,
    handle_checkmultisig
      (mk_stack (pre ++ [dummy] ++ reverse sigs ++ [mb] ++ reverse keys ++ [nb]) minimal)
      flags begincode script v OpCheckMultiSig op_count
      = Ok (GS.push_bool (mk_stack pre minimal) b, (op_count + length keys)%nat) /\
    (b = true <-> SigsMatch (ecdsa_ok subscript v) sigs keys).
Proof.
  intros Hv Hnb Hmb Hlen Hops Hdummy Hbegin Hdel Hsigs Hkeys.
  destruct (multisig_loop_spec keys sigs flags subscript v Hsigs Hkeys (length keys) 0 0)
    as (b & Hloop & Hb); [lia.. |].
  rewrite (proj2 (Nat.leb_le (length sigs - 0) (length keys - 0)) ltac:(lia)) in Hloop.
  exists b. split; [| done]. unfold handle_checkmultisig, eval_checkmultisig.
  rewrite bool_decide_eq_false_2 by done. cbn [reject_if]. rbind.
  rewrite !(assoc_L (++)), (pop_num_snoc _ nb _ _ Hnb). cbn [map_err]. rbind.
  unfold MAX_PUBKEYS_PER_MULTISIG. rewrite Nat2Z.id.
  rewrite 2!reject_if_false by (btest; lia). rbind.
  rewrite pop_items_spec. cbn [map_err app]. rbind.
  rewrite (pop_num_snoc _ mb _ _ Hmb). cbn [map_err]. rbind. rewrite Nat2Z.id.
  rewrite reject_if_false by (btest; lia). rbind.
  rewrite pop_items_spec. cbn [map_err app]. rbind.
  rewrite pop_snoc. cbn [map_err]. rbind.
  rewrite reject_if_false
    by (destruct (intersects flags VerifyFlags.NULLDUMMY); [by rewrite Hdummy | done]). rbind.
  rewrite slice_from_le by done. rbind. rewrite Hdel. rbind. by rewrite Hloop.
Qed.
End loop.

Import (hints) Sample.

(** Two of three: the signatures of the first and the third key. *)
Lemma checkmultisig_m_of_n_witness :
  exists b,
    handle_checkmultisig (mk_stack [[]; [3; 1]; [1; 1]; [2]; [3]; [2]; [1]; [3]] true)
      VerifyFlags.NULLDUMMY 0 [] WitnessV0 OpCheckMultiSig 0
      = Ok (GS.push_bool (mk_stack [] true) b, 3%nat) /\
    (b = true <-> SigsMatch (ecdsa_ok [] WitnessV0) [[1; 1]; [3; 1]] [[1]; [2]; [3]]).
Proof.
  apply (checkmultisig_m_of_n [] [[1]; [2]; [3]] [[1; 1]; [3; 1]] [] [3] [2] [] []
           true VerifyFlags.NULLDUMMY 0 0 WitnessV0); try reflexivity; try (cbn; lia).
  - discriminate.
  - vm_compute; lia.
  - repeat constructor.
  - repeat constructor.
Defined.
