(* ===== verification/Eval.v ===== *)
(** * The script interpreter loop ([crates/subcoin-script/src/interpreter/eval.rs])

    [eval_script] runs the instructions of a script over a stack.  The local
    variables of the Rust function are the fields of [EvalState]; each group of
    match arms is a definition, [exec_opcode] is the [match], [exec_instruction]
    one turn of the [for] loop and [run] the loop. *)

From Stdlib Require Import ZArith Lia.
From stdpp Require Import prelude.
From S2P Require Import Prelude Opcode ScriptNum ScriptTypes Stack CheckSig MultiSig.

Record EvalState := mk_eval {
  es_stack : Stack;
  es_alt_stack : Stack;
  es_exec_stack : list bool;
  es_begincode : nat;
  es_op_count : nat;
  es_opcode_pos : Z;
  es_pc : nat;
  es_exec_data : ScriptExecutionData;
}.

(** How a match arm ends: it falls out of the [match], or it continues with
    the next instruction at once. *)
Inductive Flow :=
| Next (st : EvalState)
| Continue (st : EvalState).

Definition set_stack (st : EvalState) (s : Stack) : EvalState :=
  mk_eval s (es_alt_stack st) (es_exec_stack st) (es_begincode st) (es_op_count st)
    (es_opcode_pos st) (es_pc st) (es_exec_data st).

Definition set_alt_stack (st : EvalState) (s : Stack) : EvalState :=
  mk_eval (es_stack st) s (es_exec_stack st) (es_begincode st) (es_op_count st)
    (es_opcode_pos st) (es_pc st) (es_exec_data st).

Definition set_exec_stack (st : EvalState) (x : list bool) : EvalState :=
  mk_eval (es_stack st) (es_alt_stack st) x (es_begincode st) (es_op_count st)
    (es_opcode_pos st) (es_pc st) (es_exec_data st).

Definition set_op_count (st : EvalState) (n : nat) : EvalState :=
  mk_eval (es_stack st) (es_alt_stack st) (es_exec_stack st) (es_begincode st) n
    (es_opcode_pos st) (es_pc st) (es_exec_data st).

Definition set_pc (st : EvalState) (n : nat) : EvalState :=
  mk_eval (es_stack st) (es_alt_stack st) (es_exec_stack st) (es_begincode st)
    (es_op_count st) (es_opcode_pos st) n (es_exec_data st).

Definition set_opcode_pos (st : EvalState) (n : Z) : EvalState :=
  mk_eval (es_stack st) (es_alt_stack st) (es_exec_stack st) (es_begincode st)
    (es_op_count st) n (es_pc st) (es_exec_data st).

Definition set_exec_data (st : EvalState) (d : ScriptExecutionData) : EvalState :=
  mk_eval (es_stack st) (es_alt_stack st) (es_exec_stack st) (es_begincode st)
    (es_op_count st) (es_opcode_pos st) (es_pc st) d.

(** [exec_data.codeseparator_pos = pos]. *)
Definition set_codeseparator_pos (d : ScriptExecutionData) (pos : Z) : ScriptExecutionData := {|
  tapleaf_hash_init := tapleaf_hash_init d;
  tapleaf_hash := tapleaf_hash d;
  codeseparator_pos_init := codeseparator_pos_init d;
  codeseparator_pos := pos;
  annex_init := annex_init d;
  annex_present := annex_present d;
  annex_hash := annex_hash d;
  annex := annex d;
  validation_weight_left_init := validation_weight_left_init d;
  validation_weight_left := validation_weight_left d;
  output_hash := output_hash d;
|}.

(** The [?] on a stack operation. *)
Abbreviation stk m := (map_err StackErr m).

(** The number of script bytes the source attributes to an instruction. *)
Definition step (i : Instruction) : nat :=
  match i with
  | PushBytes b => (length b + 1)%nat
  | Op _ => 1%nat
  end.

(** ** The arms that only work on the stack *)

(** [ScriptNum::from(bool)]. *)
Definition num_of_bool (b : bool) : Z := if b then 1 else 0.

(** Pop a number, push the result of [f]. *)
Definition arith1 (f : Z -> res Error Z) (s : Stack) : res Error Stack :=
  '(n, s) ← stk (GS.pop_num s);
  r ← f n;
  GS.push_num s r.

(** Pop [v1], then [v2], push the result of [f v1 v2]. *)
Definition arith2 (f : Z -> Z -> res Error Z) (s : Stack) : res Error Stack :=
  '(v1, s) ← stk (GS.pop_num s);
  '(v2, s) ← stk (GS.pop_num s);
  r ← f v1 v2;
  GS.push_num s r.

(** "Constants": [OP_1NEGATE] and [OP_1] to [OP_16]. *)
Definition op_constant (opcode : Opcode) (s : Stack) : res Error Stack :=
  let value := as_u8 opcode - (as_u8 OP_1 - 1) in
  GS.push_num s value.

(** [OP_PICK] and [OP_ROLL]. *)
Definition op_pick_roll (opcode : Opcode) (s : Stack) : res Error Stack :=
  '(n, s) ← stk (GS.pop_num s);
  reject_if ((n <? 0) || (Z.of_nat (GS.len s) <=? n)) (StackErr InvalidOperation);;
  '(v, s) ←
    (if bool_decide (opcode = OP_PICK) then
       v ← stk (GS.top s (Z.to_nat n));
       Ok (v, s)
     else stk (GS.remove s (Z.to_nat n)));
  Ok (GS.push s v).

(** "Stack": the arms that need only the main stack. *)
Definition op_stack (opcode : Opcode) (s : Stack) : res Error Stack :=
  match opcode with
  | OP_2DROP => stk (GS.drop s 2)
  | OP_2DUP => stk (GS.dup s 2)
  | OP_3DUP => stk (GS.dup s 3)
  | OP_2OVER => stk (GS.over s 2)
  | OP_2ROT => stk (GS.rot s 2)
  | OP_2SWAP => stk (GS.swap s 2)
  | OP_IFDUP =>
      b ← stk (GS.peek_bool s);
      if (b : bool) then stk (GS.dup s 1) else Ok s
  | OP_DEPTH => GS.push_num s (Z.of_nat (GS.len s))
  | OP_DROP => stk (GS.drop s 1)
  | OP_DUP => stk (GS.dup s 1)
  | OP_NIP => stk (GS.nip s)
  | OP_OVER => stk (GS.over s 1)
  | OP_PICK | OP_ROLL => op_pick_roll opcode s
  | OP_ROT => stk (GS.rot s 1)
  | OP_SWAP => stk (GS.swap s 1)
  | OP_TUCK => stk (GS.tuck s)
  | _ => Panic
  end.

(** [OP_SIZE]. *)
Definition op_size (s : Stack) : res Error Stack :=
  x ← stk (GS.last s);
  GS.push_num s (Z.of_nat (length x)).

(** [OP_EQUAL] and [OP_EQUALVERIFY]. *)
Definition op_equal (opcode : Opcode) (op : Z) (s : Stack) : res Error Stack :=
  '(x, s) ← stk (GS.pop s);
  '(y, s) ← stk (GS.pop s);
  let equal := bool_decide (x = y) in
  if bool_decide (opcode = OP_EQUAL) then Ok (GS.push_bool s equal)
  else reject_if (negb equal) (Verify op);; Ok s.

(** [OP_NUMEQUALVERIFY]. *)
Definition op_numequalverify (op : Z) (s : Stack) : res Error Stack :=
  '(v1, s) ← stk (GS.pop_num s);
  '(v2, s) ← stk (GS.pop_num s);
  reject_if (negb (v1 =? v2)) (Verify op);;
  Ok s.

(** [OP_WITHIN]: x min max. *)
Definition op_within (s : Stack) : res Error Stack :=
  '(v1, s) ← stk (GS.pop_num s);
  '(v2, s) ← stk (GS.pop_num s);
  '(v3, s) ← stk (GS.pop_num s);
  Ok (GS.push_bool s ((v2 <=? v3) && (v3 <? v1))).

(** "Arithmetic". *)
Definition op_arithmetic (opcode : Opcode) (op : Z) (s : Stack) : res Error Stack :=
  match opcode with
  | OP_2MUL | OP_2DIV | OP_MUL | OP_DIV | OP_MOD | OP_LSHIFT | OP_RSHIFT =>
      Err (DisabledOpcode op)
  | OP_1ADD => arith1 (fun n => map_err Num (ScriptNum.add n 1)) s
  | OP_1SUB => arith1 (fun n => map_err Num (ScriptNum.sub n 1)) s
  | OP_NEGATE => arith1 (fun n => map_err Num (ScriptNum.neg n)) s
  | OP_ABS => arith1 ScriptNum.abs s
  | OP_NOT => arith1 (fun n => Ok (num_of_bool (ScriptNum.is_zero n))) s
  | OP_0NOTEQUAL => arith1 (fun n => Ok (num_of_bool (negb (ScriptNum.is_zero n)))) s
  | OP_ADD => arith2 (fun v1 v2 => map_err Num (ScriptNum.add v1 v2)) s
  | OP_SUB => arith2 (fun v1 v2 => map_err Num (ScriptNum.sub v2 v1)) s
  | OP_BOOLAND =>
      arith2 (fun v1 v2 =>
        Ok (num_of_bool (negb (ScriptNum.is_zero v1) && negb (ScriptNum.is_zero v2)))) s
  | OP_BOOLOR =>
      arith2 (fun v1 v2 =>
        Ok (num_of_bool (negb (ScriptNum.is_zero v1) || negb (ScriptNum.is_zero v2)))) s
  | OP_NUMEQUAL => arith2 (fun v1 v2 => Ok (num_of_bool (v1 =? v2))) s
  | OP_NUMEQUALVERIFY => op_numequalverify op s
  | OP_NUMNOTEQUAL => arith2 (fun v1 v2 => Ok (num_of_bool (negb (v1 =? v2)))) s
  | OP_LESSTHAN => arith2 (fun v1 v2 => Ok (num_of_bool (v2 <? v1))) s
  | OP_GREATERTHAN => arith2 (fun v1 v2 => Ok (num_of_bool (v1 <? v2))) s
  | OP_LESSTHANOREQUAL => arith2 (fun v1 v2 => Ok (num_of_bool (v2 <=? v1))) s
  | OP_GREATERTHANOREQUAL => arith2 (fun v1 v2 => Ok (num_of_bool (v1 <=? v2))) s
  | OP_MIN => arith2 (fun v1 v2 => Ok (Z.min v1 v2)) s
  | OP_MAX => arith2 (fun v1 v2 => Ok (Z.max v1 v2)) s
  | OP_WITHIN => op_within s
  | _ => Panic
  end.

(** "Crypto": the hash opcodes. *)
Definition op_hash `{HashApi} (opcode : Opcode) (s : Stack) : res Error Stack :=
  '(x, s) ← stk (GS.pop s);
  match opcode with
  | OP_RIPEMD160 => Ok (GS.push s (ripemd160 x))
  | OP_SHA1 => Ok (GS.push s (sha1 x))
  | OP_SHA256 => Ok (GS.push s (sha256 x))
  | OP_HASH160 => Ok (GS.push s (hash160 x))
  | OP_HASH256 => Ok (GS.push s (sha256d x))
  | _ => Panic
  end.

(** ** The arms that use more of the state *)

(** [top.len() > 1 || (top.len() == 1 && top[0] != 1)]. *)
Definition not_minimal_if (top : bytes) : bool :=
  match top with
  | [] => false
  | [b] => negb (b =? 1)
  | _ => true
  end.

(** [OP_IF] and [OP_NOTIF]. *)
Definition op_if (opcode : Opcode) (flags : Z) (sig_version : SigVersion)
    (executing : bool) (st : EvalState) : res Error EvalState :=
  '(value, s) ←
    (if executing then
       '(top, s) ← stk (GS.pop (es_stack st));
       reject_if (bool_decide (sig_version = Tapscript) && not_minimal_if top)
         TaprootMinimalif;;
       reject_if (bool_decide (sig_version = WitnessV0) &&
                  intersects flags VerifyFlags.MINIMALIF && not_minimal_if top) Minimalif;;
       let value := cast_to_bool top in
       Ok (if bool_decide (opcode = OP_NOTIF) then negb value else value, s)
     else Ok (false, es_stack st));
  Ok (set_exec_stack (set_stack st s) (es_exec_stack st ++ [value])).

(** [OP_ELSE]: toggle the innermost condition. *)
Definition op_else (st : EvalState) : res Error EvalState :=
  match last (es_exec_stack st) with
  | Some b => Ok (set_exec_stack st (removelast (es_exec_stack st) ++ [negb b]))
  | None => Err UnbalancedConditional
  end.

(** [OP_ENDIF]. *)
Definition op_endif (st : EvalState) : res Error EvalState :=
  match es_exec_stack st with
  | [] => Err UnbalancedConditional
  | _ => Ok (set_exec_stack st (removelast (es_exec_stack st)))
  end.

(** [OP_VERIFY]. *)
Definition op_verify (op : Z) (st : EvalState) : res Error EvalState :=
  '(exec_value, s) ← stk (GS.pop_bool (es_stack st));
  reject_if (negb exec_value) (Verify op);;
  Ok (set_stack st s).

Definition op_toaltstack (st : EvalState) : res Error EvalState :=
  '(v, s) ← stk (GS.pop (es_stack st));
  Ok (set_alt_stack (set_stack st s) (GS.push (es_alt_stack st) v)).

Definition op_fromaltstack (st : EvalState) : res Error EvalState :=
  '(v, a) ← map_err (fun _ => InvalidAltStackOperation) (GS.pop (es_alt_stack st));
  Ok (set_alt_stack (set_stack st (GS.push (es_stack st) v)) a).

Definition op_codeseparator (flags : Z) (sig_version : SigVersion) (st : EvalState)
    : res Error EvalState :=
  reject_if (bool_decide (sig_version = Base) &&
             intersects flags VerifyFlags.CONST_SCRIPTCODE) OpCodeSeparator;;
  Ok (mk_eval (es_stack st) (es_alt_stack st) (es_exec_stack st) (es_pc st)
        (es_op_count st) (es_opcode_pos st) (es_pc st)
        (set_codeseparator_pos (es_exec_data st) (es_opcode_pos st))).

(** "Reserved words". *)
Definition op_reserved (op : Z) (executing : bool) (st : EvalState) : res Error EvalState :=
  reject_if executing (DisabledOpcode op);;
  Ok st.

(** The upgradable NOPs. *)
Definition op_upgradable_nop (flags : Z) (st : EvalState) : res Error EvalState :=
  reject_if (intersects flags VerifyFlags.DISCOURAGE_UPGRADABLE_NOPS)
    DiscourageUpgradableNops;;
  Ok st.

Section eval.
Context `{ScriptApi} `{HashApi} `{SignatureChecker}.

(** [OP_CHECKSIG] and [OP_CHECKSIGVERIFY]. *)
Definition op_checksig (opcode : Opcode) (op : Z) (script : bytes) (flags : Z)
    (sig_version : SigVersion) (st : EvalState) : res Error EvalState :=
  '(pubkey, s) ← stk (GS.pop (es_stack st));
  '(sig, s) ← stk (GS.pop s);
  '(success, d) ← map_err CheckSig
    (handle_checksig sig pubkey script (es_begincode st) (es_exec_data st) flags sig_version);
  let st := set_exec_data (set_stack st s) d in
  if bool_decide (opcode = OP_CHECKSIG) then Ok (set_stack st (GS.push_bool s success))
  else reject_if (negb success) (Verify op);; Ok st.

(** [OP_CHECKMULTISIG] and [OP_CHECKMULTISIGVERIFY]. *)
Definition op_checkmultisig (opcode : Opcode) (script : bytes) (flags : Z)
    (sig_version : SigVersion) (st : EvalState) : res Error EvalState :=
  let multisig_op :=
    if bool_decide (opcode = OP_CHECKMULTISIG) then OpCheckMultiSig
    else OpCheckMultiSigVerify in
  '(s, op_count) ← map_err CheckMultiSig
    (handle_checkmultisig (es_stack st) flags (es_begincode st) script sig_version
       multisig_op (es_op_count st));
  Ok (set_op_count (set_stack st s) op_count).

(** [OP_CHECKSIGADD]: (sig num pubkey -- num). *)
Definition op_checksigadd (script : bytes) (flags : Z) (sig_version : SigVersion)
    (st : EvalState) : res Error EvalState :=
  '(pubkey, s) ← stk (GS.pop (es_stack st));
  '(num, s) ← stk (GS.pop_num s);
  '(sig, s) ← stk (GS.pop s);
  '(success, d) ← map_err CheckSig
    (handle_checksig sig pubkey script (es_begincode st) (es_exec_data st) flags sig_version);
  v ← expect (checked_i64 (num + if (success : bool) then 1 else 0));
  s ← GS.push_num s v;
  Ok (set_exec_data (set_stack st s) d).

Definition op_checklocktimeverify (flags : Z) (st : EvalState) : res Error Flow :=
  if negb (intersects flags VerifyFlags.CHECKLOCKTIMEVERIFY) then Ok (Continue st)
  else
    x ← stk (GS.last (es_stack st));
    lock_time ← map_err Num
      (ScriptNum.from_bytes x (intersects flags VerifyFlags.MINIMALDATA) (Some 5%nat));
    reject_if (ScriptNum.is_negative lock_time) NegativeLocktime;;
    satisfied ← expect (sc_check_lock_time lock_time);
    reject_if (negb satisfied) UnsatisfiedLocktime;;
    Ok (Next st).

Definition op_checksequenceverify (flags : Z) (st : EvalState) : res Error Flow :=
  if negb (intersects flags VerifyFlags.CHECKSEQUENCEVERIFY) then Ok (Continue st)
  else
    x ← stk (GS.last (es_stack st));
    sequence ← map_err Num
      (ScriptNum.from_bytes x (intersects flags VerifyFlags.MINIMALDATA) (Some 5%nat));
    reject_if (ScriptNum.is_negative sequence) NegativeLocktime;;
    satisfied ←
      (if Z.land sequence SEQUENCE_LOCKTIME_DISABLE_FLAG =? 0
       then expect (sc_check_sequence sequence) else Ok true);
    reject_if (negb satisfied) UnsatisfiedLocktime;;
    Ok (Next st).

Definition on_stack (f : Stack -> res Error Stack) (st : EvalState) : res Error Flow :=
  s ← f (es_stack st);
  Ok (Next (set_stack st s)).

Definition next (m : res Error EvalState) : res Error Flow :=
  st ← m;
  Ok (Next st).

(** [match opcode { ... }]. *)
Definition exec_opcode (opcode : Opcode) (op : Z) (script : bytes) (flags : Z)
    (sig_version : SigVersion) (executing : bool) (st : EvalState) : res Error Flow :=
  match opcode with
  | OP_0 | OP_PUSHBYTES_1 | OP_PUSHBYTES_2 | OP_PUSHBYTES_3 | OP_PUSHBYTES_4 |
  OP_PUSHBYTES_5 | OP_PUSHBYTES_6 | OP_PUSHBYTES_7 | OP_PUSHBYTES_8 | OP_PUSHBYTES_9 |
  OP_PUSHBYTES_10 | OP_PUSHBYTES_11 | OP_PUSHBYTES_12 | OP_PUSHBYTES_13 | OP_PUSHBYTES_14 |
  OP_PUSHBYTES_15 | OP_PUSHBYTES_16 | OP_PUSHBYTES_17 | OP_PUSHBYTES_18 | OP_PUSHBYTES_19 |
  OP_PUSHBYTES_20 | OP_PUSHBYTES_21 | OP_PUSHBYTES_22 | OP_PUSHBYTES_23 | OP_PUSHBYTES_24 |
  OP_PUSHBYTES_25 | OP_PUSHBYTES_26 | OP_PUSHBYTES_27 | OP_PUSHBYTES_28 | OP_PUSHBYTES_29 |
  OP_PUSHBYTES_30 | OP_PUSHBYTES_31 | OP_PUSHBYTES_32 | OP_PUSHBYTES_33 | OP_PUSHBYTES_34 |
  OP_PUSHBYTES_35 | OP_PUSHBYTES_36 | OP_PUSHBYTES_37 | OP_PUSHBYTES_38 | OP_PUSHBYTES_39 |
  OP_PUSHBYTES_40 | OP_PUSHBYTES_41 | OP_PUSHBYTES_42 | OP_PUSHBYTES_43 | OP_PUSHBYTES_44 |
  OP_PUSHBYTES_45 | OP_PUSHBYTES_46 | OP_PUSHBYTES_47 | OP_PUSHBYTES_48 | OP_PUSHBYTES_49 |
  OP_PUSHBYTES_50 | OP_PUSHBYTES_51 | OP_PUSHBYTES_52 | OP_PUSHBYTES_53 | OP_PUSHBYTES_54 |
  OP_PUSHBYTES_55 | OP_PUSHBYTES_56 | OP_PUSHBYTES_57 | OP_PUSHBYTES_58 | OP_PUSHBYTES_59 |
  OP_PUSHBYTES_60 | OP_PUSHBYTES_61 | OP_PUSHBYTES_62 | OP_PUSHBYTES_63 | OP_PUSHBYTES_64 |
  OP_PUSHBYTES_65 | OP_PUSHBYTES_66 | OP_PUSHBYTES_67 | OP_PUSHBYTES_68 | OP_PUSHBYTES_69 |
  OP_PUSHBYTES_70 | OP_PUSHBYTES_71 | OP_PUSHBYTES_72 | OP_PUSHBYTES_73 | OP_PUSHBYTES_74 |
  OP_PUSHBYTES_75 | OP_PUSHDATA1 | OP_PUSHDATA2 | OP_PUSHDATA4 => Panic
  (* Constants *)
  | OP_1NEGATE | OP_1 | OP_2 | OP_3 | OP_4 | OP_5 | OP_6 | OP_7 | OP_8 | OP_9 | OP_10 |
  OP_11 | OP_12 | OP_13 | OP_14 | OP_15 | OP_16 => on_stack (op_constant opcode) st
  (* Flow control *)
  | OP_NOP => Ok (Next st)
  | OP_IF | OP_NOTIF => next (op_if opcode flags sig_version executing st)
  | OP_ELSE => next (op_else st)
  | OP_ENDIF => next (op_endif st)
  | OP_VERIFY => next (op_verify op st)
  | OP_RETURN => Err OpReturn
  (* Stack *)
  | OP_TOALTSTACK => next (op_toaltstack st)
  | OP_FROMALTSTACK => next (op_fromaltstack st)
  | OP_2DROP | OP_2DUP | OP_3DUP | OP_2OVER | OP_2ROT | OP_2SWAP | OP_IFDUP | OP_DEPTH
  | OP_DROP | OP_DUP | OP_NIP | OP_OVER | OP_PICK | OP_ROLL | OP_ROT | OP_SWAP | OP_TUCK =>
      on_stack (op_stack opcode) st
  (* Splice *)
  | OP_CAT | OP_SUBSTR | OP_LEFT | OP_RIGHT => Err (DisabledOpcode op)
  | OP_SIZE => on_stack op_size st
  (* Bitwise logic *)
  | OP_INVERT | OP_AND | OP_OR | OP_XOR => Err (DisabledOpcode op)
  | OP_EQUAL | OP_EQUALVERIFY => on_stack (op_equal opcode op) st
  (* Arithmetic *)
  | OP_2MUL | OP_2DIV | OP_MUL | OP_DIV | OP_MOD | OP_LSHIFT | OP_RSHIFT
  | OP_1ADD | OP_1SUB | OP_NEGATE | OP_ABS | OP_NOT | OP_0NOTEQUAL | OP_ADD | OP_SUB
  | OP_BOOLAND | OP_BOOLOR | OP_NUMEQUAL | OP_NUMEQUALVERIFY | OP_NUMNOTEQUAL
  | OP_LESSTHAN | OP_GREATERTHAN | OP_LESSTHANOREQUAL | OP_GREATERTHANOREQUAL
  | OP_MIN | OP_MAX | OP_WITHIN => on_stack (op_arithmetic opcode op) st
  (* Crypto *)
  | OP_RIPEMD160 | OP_SHA1 | OP_SHA256 | OP_HASH160 | OP_HASH256 =>
      on_stack (op_hash opcode) st
  | OP_CODESEPARATOR => next (op_codeseparator flags sig_version st)
  | OP_CHECKSIG | OP_CHECKSIGVERIFY =>
      next (op_checksig opcode op script flags sig_version st)
  | OP_CHECKMULTISIG | OP_CHECKMULTISIGVERIFY =>
      next (op_checkmultisig opcode script flags sig_version st)
  | OP_CHECKSIGADD => next (op_checksigadd script flags sig_version st)
  (* Locktime *)
  | OP_CHECKLOCKTIMEVERIFY => op_checklocktimeverify flags st
  | OP_CHECKSEQUENCEVERIFY => op_checksequenceverify flags st
  (* Reserved words *)
  | OP_RESERVED | OP_VER | OP_RESERVED1 | OP_RESERVED2 => next (op_reserved op executing st)
  | OP_VERIF | OP_VERNOTIF => Err (DisabledOpcode op)
  | OP_NOP1 | OP_NOP4 | OP_NOP5 | OP_NOP6 | OP_NOP7 | OP_NOP8 | OP_NOP9 | OP_NOP10 =>
      next (op_upgradable_nop flags st)
  end.

(** The operation limit of pre-tapscript scripts. *)
Definition count_op (op : Z) (sig_version : SigVersion) (st : EvalState)
    : res Error EvalState :=
  if bool_decide (sig_version = Base \/ sig_version = WitnessV0) &&
     (as_u8 OP_16 <? op)
  then
    let op_count := (es_op_count st + 1)%nat in
    reject_if (MAX_OPS_PER_SCRIPT <? op_count)%nat OpCount;;
    Ok (set_op_count st op_count)
  else Ok st.

(** [exec_stack.iter().all(|x| *x)]. *)
Definition is_executing (st : EvalState) : bool := forallb (fun x => x) (es_exec_stack st).

(** Conditionals are handled even when not executing. *)
Definition is_conditional (i : Instruction) : bool :=
  match i with
  | Op op => (as_u8 OP_IF <=? op) && (op <=? as_u8 OP_ENDIF)
  | PushBytes _ => false
  end.

(** [match instruction { ... }]. *)
Definition dispatch (i : Instruction) (script : bytes) (flags : Z)
    (sig_version : SigVersion) (executing : bool) (st : EvalState) : res Error Flow :=
  match i with
  | PushBytes p =>
      reject_if (MAX_SCRIPT_ELEMENT_SIZE <? length p)%nat PushSize;;
      Ok (Next (set_stack st (GS.push (es_stack st) p)))
  | Op op =>
      st ← count_op op sig_version st;
      opcode ← ok_or (UnknownOpcode op) (from_u8 op);
      exec_opcode opcode op script flags sig_version executing st
  end.

(** One turn of the loop. *)
Definition exec_instruction (i : Instruction) (script : bytes) (flags : Z)
    (sig_version : SigVersion) (st : EvalState) : res Error EvalState :=
  let st := set_pc st (es_pc st + step i) in
  let executing := is_executing st in
  if negb (executing || is_conditional i) then Ok st
  else
    flow ← dispatch i script flags sig_version executing st;
    match flow with
    | Continue st => Ok st
    | Next st =>
        let st := set_opcode_pos st (es_opcode_pos st + 1) in
        reject_if (MAX_STACK_SIZE <? GS.len (es_stack st) + GS.len (es_alt_stack st))%nat
          StackSize;;
        Ok st
    end.

(** [for instruction in instructions]. *)
Fixpoint run (instrs : list (ExtError + nat * Instruction)) (script : bytes) (flags : Z)
    (sig_version : SigVersion) (st : EvalState) : res Error EvalState :=
  match instrs with
  | [] => Ok st
  | inl e :: _ => Err (ReadInstruction e)
  | inr (_, i) :: instrs =>
      st ← exec_instruction i script flags sig_version st;
      run instrs script flags sig_version st
  end.

Definition initial_state (stack : Stack) (flags : Z) (d : ScriptExecutionData) : EvalState :=
  mk_eval stack (GS.with_flags flags) [] 0 0 0 0 d.

Definition script_instructions (script : bytes) (flags : Z)
    : list (ExtError + nat * Instruction) :=
  if intersects flags VerifyFlags.MINIMALDATA then instruction_indices_minimal script
  else instruction_indices script.

(** Returns the verdict, the stack and the execution data. *)
Definition eval_script (stack : Stack) (script : bytes) (flags : Z)
    (sig_version : SigVersion) (exec_data : ScriptExecutionData)
    : res Error (bool * Stack * ScriptExecutionData) :=
  reject_if (bool_decide (sig_version = Taproot)) NoScriptExecution;;
  st ← run (script_instructions script flags) script flags sig_version
         (initial_state stack flags exec_data);
  reject_if (match es_exec_stack st with [] => false | _ => true end) UnbalancedConditional;;
  success ← (if GS.is_empty (es_stack st) then Ok false else stk (GS.peek_bool (es_stack st)));
  Ok (success, es_stack st, es_exec_data st).
End eval.
