(* ===== verification/EvalFacts.v ===== *)
(** * What the interpreter loop guarantees

    Safety of the stack operations and opcodes, the invariant of the loop and
    its consequences: no panic before tapscript, the stack and operation
    limits, and the treatment of branches that are not executed. *)

From Stdlib Require Import ZArith Lia.
From stdpp Require Import prelude.
From S2P Require Import Prelude Opcode ScriptNum ScriptTypes Stack CheckSig Sample MultiSig Eval.

(** ** Stack operations move items, they do not make them up *)

Section stack_forall.
Context {T : Type} (P : T -> Prop).
Implicit Types s : GenericStack T.

Definition items_ok s : Prop := Forall P (data s).

Lemma Forall_removelast (l : list T) : Forall P l -> Forall P (removelast l).
Proof.
  destruct l as [| x l _] using rev_ind; [done |].
  rewrite removelast_last, Forall_app. naive_solver.
Qed.

Lemma Forall_last (l : list T) x : Forall P l -> list.last l = Some x -> P x.
Proof. intros Hl [l' ->]%last_Some. rewrite Forall_app, Forall_singleton in Hl. naive_solver. Qed.

Lemma safe_require s n : safe (GS.require s n) (fun _ => (n <= GS.len s)%nat).
Proof. unfold GS.require. by destruct (Nat.ltb_spec (GS.len s) n). Qed.

Lemma safe_last s : items_ok s -> safe (GS.last s) P.
Proof.
  intros Hs. unfold GS.last. destruct (list.last (data s)) eqn:Hl; [| done].
  by apply (Forall_last _ _ Hs).
Qed.

Lemma safe_pop s : items_ok s -> safe (GS.pop s) (fun '(x, s') => P x /\ items_ok s').
Proof.
  intros Hs. unfold GS.pop. destruct (list.last (data s)) eqn:Hl; [| done].
  split; [by apply (Forall_last _ _ Hs) | by apply Forall_removelast].
Qed.

Lemma items_ok_push s x : items_ok s -> P x -> items_ok (GS.push s x).
Proof. intros Hs Hx. apply Forall_app. by rewrite Forall_singleton. Qed.

Lemma safe_top s i : items_ok s -> safe (GS.top s i) P.
Proof.
  intros Hs. apply safe_iff. split; [apply no_panic_top |].
  unfold GS.top. intros a Ha. inv_ok. by eapply Forall_lookup_1.
Qed.

Lemma safe_remove s i : items_ok s -> safe (GS.remove s i) (fun '(x, s') => P x /\ items_ok s').
Proof.
  intros Hs. apply safe_iff. split; [apply no_panic_remove |].
  unfold GS.remove. intros [x s'] Ha. cbv zeta in Ha. inv_ok.
  split; [by eapply Forall_lookup_1 |].
  apply Forall_app. split; [by apply Forall_take | by apply Forall_drop].
Qed.

(** Every shuffle rearranges, copies or drops items. *)
Lemma safe_shuffles s n :
  items_ok s ->
  safe (GS.drop s n) items_ok /\ safe (GS.dup s n) items_ok /\
  safe (GS.over s n) items_ok /\ safe (GS.rot s n) items_ok /\ safe (GS.swap s n) items_ok /\
  safe (GS.nip s) items_ok /\ safe (GS.tuck s) items_ok.
Proof.
  intros Hs. assert (Hx : forall x, list.last (data s) = Some x -> P x)
    by (intros x; by apply Forall_last).
  split_and!; apply safe_iff; (split; [auto with rust |]);
    unfold GS.drop, GS.dup, GS.over, GS.rot, GS.swap, GS.nip, GS.tuck, items_ok;
    intros s' Ha; cbv zeta in Ha; inv_ok; cbn [data GS.set_data];
    repeat first [ rewrite iter_removelast | apply Forall_removelast
                 | apply Forall_insert | apply Forall_cons_2
                 | apply Forall_app_2 | apply Forall_take
                 | apply Forall_drop | by auto ].
Qed.
End stack_forall.

(** ** Byte strings on the stack *)

(** A stack element: bytes, and no more of them than a push may have. *)
Definition elem_ok (x : bytes) : Prop :=
  bytes_ok x /\ (length x <= MAX_SCRIPT_ELEMENT_SIZE)%nat.

Abbreviation stack_ok := (items_ok elem_ok).

Lemma elem_ok_nil : elem_ok [].
Proof. split; [apply bytes_ok_nil | unfold MAX_SCRIPT_ELEMENT_SIZE; cbn; lia]. Qed.

Lemma safe_pop_num (s : Stack) :
  stack_ok s -> safe (GS.pop_num s) (fun '(n, s') => Z.abs n < 2 ^ 31 /\ stack_ok s').
Proof.
  intros Hs. unfold GS.pop_num.
  safe_step (safe_pop elem_ok) as [x s'] [[Hx _] Hs'].
  destruct (ScriptNum.from_bytes x (minimaldata s) None) as [n | |] eqn:Hn; cbn.
  - split; [| done]. by eapply ScriptNum.from_bytes_default_range.
  - done.
  - rewrite ScriptNum.from_bytes_spec in Hn by (done || vm_compute; lia).
    destruct (_ <? _)%nat; [done |]. by destruct (_ && _).
Qed.

Lemma safe_push_num {E} (s : Stack) v :
  stack_ok s -> Z.abs v <= i64_max -> safe (GS.push_num (E := E) s v) stack_ok.
Proof.
  intros Hs Hv. unfold GS.push_num.
  destruct (ScriptNum.as_bytes_spec (E := E) v 8) as (d & -> & Hd & Hl & _);
    [done | lia | cbn; unfold i64_max in Hv; lia |].
  rbind. apply items_ok_push; [done |]. split; [done |]. unfold MAX_SCRIPT_ELEMENT_SIZE. lia.
Qed.

Lemma stack_ok_push_bool (s : Stack) b : stack_ok s -> stack_ok (GS.push_bool s b).
Proof.
  intros Hs. destruct b; apply items_ok_push; [done | | done | apply elem_ok_nil].
  split; [| unfold MAX_SCRIPT_ELEMENT_SIZE; cbn; lia].
  apply bytes_ok_cons. split; [unfold is_u8, u8_max; lia | apply bytes_ok_nil].
Qed.

Lemma safe_from_bytes x rm k :
  bytes_ok x -> (k <= 8)%nat -> safe (ScriptNum.from_bytes x rm (Some k)) (fun _ => True).
Proof.
  intros Hx Hk. rewrite ScriptNum.from_bytes_spec by done.
  destruct (_ <? _)%nat; [done |]. by destruct (_ && _).
Qed.

(** Results that fit an [i64] with room to spare. *)
Definition num_ok (v : Z) : Prop := Z.abs v <= i64_max.

Lemma safe_arith1 f s :
  stack_ok s -> (forall n, Z.abs n < 2 ^ 31 -> safe (f n) num_ok) -> safe (arith1 f s) stack_ok.
Proof.
  intros Hs Hf. unfold arith1. safe_step safe_pop_num as [n s'] [Hn Hs'].
  safe_step Hf as r Hr. by apply safe_push_num.
Qed.

Lemma safe_arith2 f s :
  stack_ok s ->
  (forall v1 v2, Z.abs v1 < 2 ^ 31 -> Z.abs v2 < 2 ^ 31 -> safe (f v1 v2) num_ok) ->
  safe (arith2 f s) stack_ok.
Proof.
  intros Hs Hf. unfold arith2. safe_step safe_pop_num as [v1 s1] [Hv1 Hs1].
  safe_step safe_pop_num as [v2 s2] [Hv2 Hs2].
  eapply safe_bind; [by apply Hf |]. intros. by apply safe_push_num.
Qed.

(** ** Opcodes *)

Lemma num_ok_bool b : num_ok (num_of_bool b).
Proof. destruct b; unfold num_ok, i64_max; cbn; lia. Qed.

Lemma safe_checked {E} (e : E) z : safe (ok_or e (checked_i64 z)) is_i64.
Proof.
  unfold checked_i64. destruct (in_i64 z) eqn:Hz; [| done]. by apply in_i64_spec.
Qed.

(** The stack opcodes. *)
Definition stack_opcode (opcode : Opcode) : bool :=
  match opcode with
  | OP_2DROP | OP_2DUP | OP_3DUP | OP_2OVER | OP_2ROT | OP_2SWAP | OP_IFDUP | OP_DEPTH
  | OP_DROP | OP_DUP | OP_NIP | OP_OVER | OP_PICK | OP_ROLL | OP_ROT | OP_SWAP | OP_TUCK => true
  | _ => false
  end.

Lemma safe_op_pick_roll opcode s : stack_ok s -> safe (op_pick_roll opcode s) stack_ok.
Proof.
  intros Hs. unfold op_pick_roll. safe_step safe_pop_num as [n s'] [Hn Hs'].
  safe_step @safe_reject_if as _ ?.
  apply safe_bind with (Q := fun '(v, s2) => elem_ok v /\ stack_ok s2).
  - case_bool_decide.
    + safe_step (safe_top elem_ok) as v Hv. done.
    + apply safe_map_err. by apply safe_remove.
  - intros [v s2] [Hv Hs2]. by apply items_ok_push.
Qed.

(** A stack holds fewer than [2^63] items. *)
Lemma safe_op_stack opcode s :
  stack_opcode opcode = true -> stack_ok s -> Z.of_nat (GS.len s) <= i64_max ->
  safe (op_stack opcode s) stack_ok.
Proof.
  intros Hop Hs Hlen.
  pose proof (safe_shuffles elem_ok s 1 Hs). pose proof (safe_shuffles elem_ok s 2 Hs).
  pose proof (safe_shuffles elem_ok s 3 Hs).
  destruct opcode; try discriminate Hop; cbn [op_stack];
    try (apply safe_map_err; tauto); try by apply safe_op_pick_roll.
  - apply safe_bind with (Q := fun _ => True).
    + apply safe_map_err, safe_iff. auto with rust.
    + intros [] _; [apply safe_map_err; tauto | done].
  - apply safe_push_num; [done |]. lia.
Qed.

Lemma safe_op_size s : stack_ok s -> safe (op_size s) stack_ok.
Proof.
  intros Hs. unfold op_size. safe_step (safe_last elem_ok) as x [_ Hl].
  apply safe_push_num; [done |]. unfold MAX_SCRIPT_ELEMENT_SIZE, i64_max in *. lia.
Qed.

Lemma safe_op_equal opcode op s : stack_ok s -> safe (op_equal opcode op s) stack_ok.
Proof.
  intros Hs. unfold op_equal. safe_step (safe_pop elem_ok) as [x s1] [Hx Hs1].
  safe_step (safe_pop elem_ok) as [y s2] [Hy Hs2].
  case_bool_decide; [by apply stack_ok_push_bool |]. by destruct (negb _).
Qed.

Definition arithmetic_opcode (opcode : Opcode) : bool :=
  match opcode with
  | OP_2MUL | OP_2DIV | OP_MUL | OP_DIV | OP_MOD | OP_LSHIFT | OP_RSHIFT
  | OP_1ADD | OP_1SUB | OP_NEGATE | OP_ABS | OP_NOT | OP_0NOTEQUAL | OP_ADD | OP_SUB
  | OP_BOOLAND | OP_BOOLOR | OP_NUMEQUAL | OP_NUMEQUALVERIFY | OP_NUMNOTEQUAL
  | OP_LESSTHAN | OP_GREATERTHAN | OP_LESSTHANOREQUAL | OP_GREATERTHANOREQUAL
  | OP_MIN | OP_MAX | OP_WITHIN => true
  | _ => false
  end.

Lemma safe_op_arithmetic opcode op s :
  arithmetic_opcode opcode = true -> stack_ok s -> safe (op_arithmetic opcode op s) stack_ok.
Proof.
  intros Hop Hs.
  destruct opcode; try discriminate Hop; cbn [op_arithmetic]; try exact I;
    try (apply safe_arith1; [done |]; intros n Hn);
    try (apply safe_arith2; [done |]; intros v1 v2 Hv1 Hv2);
    try apply num_ok_bool;
    try (unfold ScriptNum.add, ScriptNum.sub, ScriptNum.neg, ScriptNum.abs;
         rewrite ScriptNum.checked_i64_small by (unfold i64_max; lia);
         unfold num_ok, i64_max; cbn; lia);
    try (unfold num_ok, i64_max; cbn; lia).
  - unfold op_numequalverify. safe_step safe_pop_num as [v1 s1] [_ Hs1].
    safe_step safe_pop_num as [v2 s2] [_ Hs2]. by destruct (negb _).
  - unfold op_within. safe_step safe_pop_num as [v1 s1] [_ Hs1].
    safe_step safe_pop_num as [v2 s2] [_ Hs2].
    safe_step safe_pop_num as [v3 s3] [_ Hs3].
    by apply stack_ok_push_bool.
Qed.

Definition hash_opcode (opcode : Opcode) : bool :=
  match opcode with
  | OP_RIPEMD160 | OP_SHA1 | OP_SHA256 | OP_HASH160 | OP_HASH256 => true
  | _ => false
  end.

Lemma safe_op_hash `{HashLaws} opcode s :
  hash_opcode opcode = true -> stack_ok s -> safe (op_hash opcode s) stack_ok.
Proof.
  intros Hop Hs. unfold op_hash. safe_step (safe_pop elem_ok) as [x s1] [_ Hs1].
  pose proof (hash_bytes x). pose proof (hash_lengths x).
  assert (Hpush : forall h, bytes_ok h -> (length h <= 32)%nat -> stack_ok (GS.push s1 h)).
  { intros h Hh Hl. apply items_ok_push; [done |]. split; [done |].
    unfold MAX_SCRIPT_ELEMENT_SIZE. lia. }
  destruct opcode; try discriminate Hop; apply Hpush; try tauto; lia.
Qed.

(** ** Multi-signature opcodes *)

Lemma safe_pop_items n s items :
  stack_ok s -> Forall elem_ok items ->
  safe (pop_items n s items) (fun '(l, s') => stack_ok s' /\ Forall elem_ok l /\
                                              length l = (length items + n)%nat).
Proof.
  revert s items. induction n as [| n IH]; intros s items Hs Hi; cbn [pop_items].
  - split_and!; [done | done | lia].
  - safe_step (safe_pop elem_ok) as [x s1] [Hx Hs1].
    eapply safe_mono; [apply IH; [done |] |].
    + by apply Forall_app; rewrite Forall_singleton.
    + intros [l s2] (? & ? & Hl). rewrite length_app in Hl. cbn in Hl. split_and!; [done.. | lia].
Qed.

Section multisig_safe.
Context `{ScriptApi} `{SignatureChecker} `{!SafeChecker}.

Lemma safe_delete_signatures sigs subscript flags v :
  Forall elem_ok sigs -> safe (delete_signatures sigs subscript flags v) (fun _ => True).
Proof.
  revert subscript. induction sigs as [| sig sigs IH]; intros subscript Hs; [done |].
  apply Forall_cons in Hs as [[_ Hl] Hs]. cbn [delete_signatures].
  apply safe_bind with (Q := fun _ => True); [| by auto].
  case_bool_decide; [| done].
  assert ((Z.of_nat (length sig) <=? u32_max) = true) as ->.
  { unfold MAX_SCRIPT_ELEMENT_SIZE, u32_max in *. btest. }
  rcbn. cbv zeta.
  pose proof (no_panic_find_and_delete (E := CheckMultiSigError) subscript (push_slice sig)) as Hf.
  destruct (find_and_delete _ _) as [[n out] | |]; [| done | done]. rbind.
  by destruct (_ && _).
Qed.

Lemma safe_multisig_loop keys sigs flags subscript v :
  Forall elem_ok sigs ->
  forall fuel ck ss,
  (ck <= length keys)%nat -> (ss <= length sigs)%nat -> (length keys - ck <= fuel)%nat ->
  safe (multisig_loop fuel keys sigs flags subscript v
          (length sigs - ss <=? length keys - ck)%nat ck ss) (fun _ => True).
Proof.
  intros Hs. induction fuel as [| fuel IH]; intros ck ss Hck Hss Hf; cbn [multisig_loop];
    destruct (Nat.ltb_spec ss (length sigs)), (Nat.leb_spec (length sigs - ss) (length keys - ck));
    cbn [andb]; try done; try lia.
  destruct (index_lt (E := CheckMultiSigError) keys ck ltac:(lia)) as [key ->].
  destruct (index_lt (E := CheckMultiSigError) sigs ss ltac:(lia)) as [sig Hsig].
  rewrite Hsig. rbind. apply index_Ok in Hsig.
  destruct (Forall_lookup_1 _ _ _ _ Hs Hsig) as [Hb _].
  apply safe_bind with (Q := fun _ => True).
  { apply safe_map_err, safe_iff. auto with rust. }
  intros _ _. apply safe_bind with (Q := fun _ => True).
  { apply safe_map_err, safe_iff. auto with rust. }
  intros _ _. rewrite check_ecdsa_verdict. rbind. cbv zeta.
  destruct (ecdsa_ok _ _ _ _); apply IH; lia.
Qed.

Lemma safe_handle_checkmultisig stack flags begincode script v mop op_count :
  stack_ok stack -> (begincode <= length script)%nat ->
  safe (handle_checkmultisig stack flags begincode script v mop op_count)
    (fun '(s, n) => stack_ok s /\ (op_count <= n <= MAX_OPS_PER_SCRIPT)%nat).
Proof.
  intros Hs Hb. unfold handle_checkmultisig.
  apply safe_bind with (Q := fun '(b, s, n) =>
    stack_ok s /\ (op_count <= n <= MAX_OPS_PER_SCRIPT)%nat).
  2:{ intros [[b s] n] [Hs' Hn]. destruct mop; [| by destruct b].
      split; [by apply stack_ok_push_bool | done]. }
  unfold eval_checkmultisig. safe_step @safe_reject_if as _ ?. safe_step safe_pop_num as [kc s1] [Hkc Hs1].
  safe_step @safe_reject_if as _ ?. cbv zeta. safe_step @safe_reject_if as _ ?. bools.
  eapply safe_bind; [apply safe_map_err, safe_pop_items; [done | constructor] |].
  intros [keys s2] (Hs2 & Hkeys & Hlk). cbn in Hlk.
  safe_step safe_pop_num as [sc s3] [Hsc Hs3].
  safe_step @safe_reject_if as _ ?. bools.
  eapply safe_bind; [apply safe_map_err, safe_pop_items; [done | constructor] |].
  intros [sigs s4] (Hs4 & Hsigs & Hls). cbn in Hls.
  safe_step (safe_pop elem_ok) as [dummy s5] [_ Hs5].
  safe_step @safe_reject_if as _ ?. rewrite slice_from_le by done. rbind.
  eapply safe_bind; [by apply safe_delete_signatures |]. intros sub _.
  eapply safe_bind; [| intros; split; [done | lia]].
  pose proof (safe_multisig_loop keys sigs flags sub v Hsigs (length keys) 0 0) as Hl.
  rewrite (proj2 (Nat.leb_le (length sigs - 0) (length keys - 0)) ltac:(lia)) in Hl.
  apply Hl; lia.
Qed.
End multisig_safe.

(** ** The loop invariant *)

(** Elements are well formed, the script code starts at an instruction already
    read, the operation count is within its limit. *)
Record state_ok (st : EvalState) : Prop := {
  ok_stack : stack_ok (es_stack st);
  ok_alt : stack_ok (es_alt_stack st);
  ok_begincode : (es_begincode st <= es_pc st)%nat;
  ok_op_count : (es_op_count st <= MAX_OPS_PER_SCRIPT)%nat;
}.

(** Number of items on the two stacks. *)
Definition height (st : EvalState) : nat :=
  (GS.len (es_stack st) + GS.len (es_alt_stack st))%nat.

(** What an arm may do: only the stacks, conditions, operation count, code
    start and execution data change; the [continue] arms leave the stacks. *)
Definition flow_ok (st : EvalState) (fl : Flow) : Prop :=
  match fl with
  | Next st' => state_ok st' /\ es_pc st' = es_pc st
  | Continue st' => state_ok st' /\ es_pc st' = es_pc st /\ height st' = height st
  end.

Section loop_invariant.
Context `{!ScriptApi, !ScriptLaws} `{!HashApi, !HashLaws}.
Context `{!KeyApi, !SignatureChecker, !SafeChecker}.
Context (script : bytes) (flags : Z) (v : SigVersion).
Hypothesis (Hv : v = Base \/ v = WitnessV0).
Implicit Types st : EvalState.

Lemma state_ok_set_stack st s : state_ok st -> stack_ok s -> state_ok (set_stack st s).
Proof. intros [] Hs. by constructor. Qed.

Lemma state_ok_set_exec_stack st x : state_ok st -> state_ok (set_exec_stack st x).
Proof. intros []. by constructor. Qed.

Lemma safe_on_stack f st :
  state_ok st -> (stack_ok (es_stack st) -> safe (f (es_stack st)) stack_ok) ->
  safe (on_stack f st) (flow_ok st).
Proof.
  intros Hst Hf. unfold on_stack. eapply safe_bind; [by apply Hf; apply Hst |].
  intros s Hs. split; [by apply state_ok_set_stack | done].
Qed.

Lemma safe_next m st :
  safe m (fun st' => state_ok st' /\ es_pc st' = es_pc st) -> safe (next m) (flow_ok st).
Proof. intros Hm. unfold next. by eapply safe_bind; [done |]. Qed.

Lemma safe_op_if opcode executing st :
  state_ok st ->
  safe (op_if opcode flags v executing st) (fun st' => state_ok st' /\ es_pc st' = es_pc st).
Proof.
  intros Hst. unfold op_if. apply safe_bind with (Q := fun '(b, s) => stack_ok s).
  - destruct executing; [| by apply Hst].
    safe_step (safe_pop elem_ok) as [top s] [_ Hs]; [apply Hst |].
    safe_step @safe_reject_if as _ ?. by safe_step @safe_reject_if as _ ?.
  - intros [b s] Hs. split; [| done].
    by apply state_ok_set_exec_stack, state_ok_set_stack.
Qed.

Lemma safe_op_verify op st :
  state_ok st -> safe (op_verify op st) (fun st' => state_ok st' /\ es_pc st' = es_pc st).
Proof.
  intros Hst. unfold op_verify, GS.pop_bool.
  apply safe_bind with (Q := fun '(b, s) => stack_ok s).
  - apply safe_map_err. by safe_step (safe_pop elem_ok) as [x s] [_ Hs]; [apply Hst |].
  - intros [b s] Hs. safe_step @safe_reject_if as _ ?. split; [| done].
    by apply state_ok_set_stack.
Qed.

Lemma safe_op_toaltstack st :
  state_ok st -> safe (op_toaltstack st) (fun st' => state_ok st' /\ es_pc st' = es_pc st).
Proof.
  intros Hst. unfold op_toaltstack.
  safe_step (safe_pop elem_ok) as [x s] [Hx Hs]; [apply Hst |].
  destruct Hst. split; [| done]. constructor; try done. by apply items_ok_push.
Qed.

Lemma safe_op_fromaltstack st :
  state_ok st -> safe (op_fromaltstack st) (fun st' => state_ok st' /\ es_pc st' = es_pc st).
Proof.
  intros Hst. unfold op_fromaltstack.
  safe_step (safe_pop elem_ok) as [x s] [Hx Hs]; [apply Hst |].
  destruct Hst. split; [| done]. constructor; try done. by apply items_ok_push.
Qed.

Lemma safe_op_codeseparator st :
  state_ok st ->
  safe (op_codeseparator flags v st) (fun st' => state_ok st' /\ es_pc st' = es_pc st).
Proof.
  intros []. unfold op_codeseparator. safe_step @safe_reject_if as _ ?.
  split; [| done]. by constructor.
Qed.

Lemma safe_handle_checksig sig pubkey d st :
  elem_ok sig -> state_ok st -> (es_pc st <= length script)%nat ->
  safe (handle_checksig sig pubkey script (es_begincode st) d flags v) (fun _ => True).
Proof.
  intros [Hsig _] [] Hpc. apply safe_iff. split; [| done].
  apply no_panic_handle_checksig; [done | lia | done].
Qed.

Lemma safe_op_checksig opcode op st :
  state_ok st -> (es_pc st <= length script)%nat ->
  safe (op_checksig opcode op script flags v st) (fun st' => state_ok st' /\ es_pc st' = es_pc st).
Proof.
  intros Hst Hpc. unfold op_checksig.
  safe_step (safe_pop elem_ok) as [pubkey s1] [_ Hs1]; [apply Hst |].
  safe_step (safe_pop elem_ok) as [sig s2] [Hsig Hs2].
  safe_step safe_handle_checksig as [b d] _. cbv zeta. destruct Hst.
  case_bool_decide; [| safe_step @safe_reject_if as _ ?]; (split; [| done]); constructor; try done.
  by apply stack_ok_push_bool.
Qed.

Lemma safe_op_checkmultisig opcode st :
  state_ok st -> (es_pc st <= length script)%nat ->
  safe (op_checkmultisig opcode script flags v st) (fun st' => state_ok st' /\ es_pc st' = es_pc st).
Proof.
  intros Hst Hpc. unfold op_checkmultisig. cbv zeta. destruct Hst.
  eapply safe_bind; [apply safe_map_err, safe_handle_checkmultisig; [done | lia] |].
  intros [s n] [Hs Hn]. split; [| done]. constructor; cbn; try done. lia.
Qed.

Lemma safe_op_checksigadd st :
  state_ok st -> (es_pc st <= length script)%nat ->
  safe (op_checksigadd script flags v st) (fun st' => state_ok st' /\ es_pc st' = es_pc st).
Proof.
  intros Hst Hpc. unfold op_checksigadd.
  safe_step (safe_pop elem_ok) as [pubkey s1] [_ Hs1]; [apply Hst |].
  safe_step safe_pop_num as [num s2] [Hnum Hs2].
  safe_step (safe_pop elem_ok) as [sig s3] [Hsig Hs3].
  safe_step safe_handle_checksig as [b d] _.
  rewrite ScriptNum.checked_i64_small by (unfold i64_max; destruct b; lia). rcbn.
  eapply safe_bind; [apply safe_push_num; [done |]; unfold i64_max; destruct b; lia |].
  intros s Hs. split; [| done]. destruct Hst. by constructor.
Qed.

Lemma safe_timelocks st :
  state_ok st ->
  safe (op_checklocktimeverify flags st) (flow_ok st) /\
  safe (op_checksequenceverify flags st) (flow_ok st).
Proof.
  intros Hst. unfold op_checklocktimeverify, op_checksequenceverify.
  split; (destruct (negb _); [by split_and! |]);
    (safe_step (safe_last elem_ok) as x [Hx _]; [apply Hst |]);
    (eapply safe_bind; [apply safe_map_err, safe_from_bytes; [done | lia] |]; intros n _);
    safe_step @safe_reject_if as _ ?.
  - destruct (safe_lock_time n) as [b ->]. rcbn. by destruct b.
  - destruct (_ =? 0); [destruct (safe_sequence n) as [b ->] |]; rcbn; [by destruct b | done].
Qed.

Lemma safe_exec_opcode opcode op executing st :
  0x4e < as_u8 opcode -> state_ok st -> (es_pc st <= length script)%nat ->
  Z.of_nat (height st) <= i64_max ->
  safe (exec_opcode opcode op script flags v executing st) (flow_ok st).
Proof.
  intros Hop Hst Hpc Hh.
  assert (Hlen : Z.of_nat (GS.len (es_stack st)) <= i64_max) by (unfold height in Hh; lia).
  destruct opcode; try (exfalso; cbn in Hop; lia); cbn [exec_opcode]; try exact I;
    try (by apply safe_on_stack; [| intros; by apply safe_op_stack]);
    try (by apply safe_on_stack; [| intros; by apply safe_op_arithmetic]);
    try (by apply safe_on_stack; [| intros; by apply safe_op_hash]);
    try (by apply safe_on_stack; [| intros; by apply safe_op_equal]);
    try (by apply safe_on_stack; [| intros; by apply safe_op_size]);
    try (by apply safe_on_stack; [| intros; apply safe_push_num; [| vm_compute]]);
    try (by apply safe_timelocks);
    try (by split);
    apply safe_next;
    try (by apply safe_op_if);
    try (by apply safe_op_verify);
    try (by apply safe_op_toaltstack);
    try (by apply safe_op_fromaltstack);
    try (by apply safe_op_codeseparator);
    try (by apply safe_op_checksig);
    try (by apply safe_op_checkmultisig);
    try (by apply safe_op_checksigadd);
    try (by unfold op_reserved; destruct executing);
    try (by unfold op_upgradable_nop; destruct (intersects _ _)).
  - unfold op_else. destruct (last (es_exec_stack st)); [| done].
    split; [by apply state_ok_set_exec_stack | done].
  - unfold op_endif. destruct (es_exec_stack st); [done |].
    split; [by apply state_ok_set_exec_stack | done].
Qed.

Definition instr_ok (i : Instruction) : Prop :=
  match i with
  | PushBytes d => bytes_ok d
  | Op op => 0x4e < op <= u8_max
  end.

Lemma safe_count_op op st :
  state_ok st ->
  safe (count_op op v st) (fun st' => state_ok st' /\ es_pc st' = es_pc st /\
                                      height st' = height st).
Proof.
  intros Hst. unfold count_op. destruct (_ && _); [| done]. cbv zeta.
  safe_step @safe_reject_if as _ ?. bools. split_and!; [| done..].
  destruct Hst. by constructor.
Qed.

Lemma safe_dispatch i executing st :
  instr_ok i -> state_ok st -> (es_pc st <= length script)%nat ->
  Z.of_nat (height st) <= i64_max ->
  safe (dispatch i script flags v executing st) (flow_ok st).
Proof.
  intros Hi Hst Hpc Hh. destruct i as [d | op]; cbn [dispatch].
  - safe_step @safe_reject_if as _ ?. bools. split; [| done].
    apply state_ok_set_stack; [done |]. apply items_ok_push; [apply Hst | by split].
  - safe_step safe_count_op as st1 (Hst1 & Hpc1 & Hh1).
    safe_step @safe_ok_or as opcode Hopc. cbn in Hi.
    apply from_u8_iff in Hopc; [| unfold is_u8; lia]. subst op.
    eapply safe_mono; [apply safe_exec_opcode; [lia | done | lia | lia] |].
    intros [st2 | st2]; cbn; naive_solver lia.
Qed.

(** One turn keeps the invariant, moves [pc] past the instruction, and leaves
    at most 1000 items unless it leaves the stacks alone. *)
Lemma safe_exec_instruction i st :
  instr_ok i -> state_ok st -> (es_pc st + step i <= length script)%nat ->
  Z.of_nat (height st) <= i64_max ->
  safe (exec_instruction i script flags v st) (fun st' =>
    state_ok st' /\ es_pc st' = (es_pc st + step i)%nat /\
    (height st' <= MAX_STACK_SIZE \/ height st' = height st)%nat).
Proof.
  intros Hi Hst Hpc Hh. unfold exec_instruction. cbv zeta.
  set (st0 := set_pc st (es_pc st + step i)).
  assert (Hst0 : state_ok st0) by (destruct Hst; constructor; cbn; try done; lia).
  destruct (negb _); [by split_and!; auto |].
  eapply safe_bind; [by apply safe_dispatch |]. intros [st1 | st1]; cbn [flow_ok].
  - intros [Hst1 Hpc1]. safe_step @safe_reject_if as _ ?. bools. split_and!; [| done | by left].
    destruct Hst1. by constructor.
  - intros (Hst1 & Hpc1 & Hh1). split_and!; [done.. | by right].
Qed.

Definition items_instr_ok (l : list (ExtError + nat * Instruction)) : Prop :=
  forall p i, In (inr (p, i)) l -> instr_ok i.

Lemma safe_run l st (N : nat) :
  items_instr_ok l -> state_ok st -> (es_pc st + instructions_size l <= length script)%nat ->
  (height st <= N)%nat -> (MAX_STACK_SIZE <= N)%nat -> Z.of_nat N <= i64_max ->
  safe (run l script flags v st) (fun st' => state_ok st' /\ (height st' <= N)%nat).
Proof.
  revert st. induction l as [| [e | [p i]] l IH]; intros st Hl Hst Hpc Hh HN HN'; cbn [run]; [done.. |].
  cbn [instructions_size] in Hpc. change (instruction_size i) with (step i) in Hpc.
  eapply safe_bind; [apply safe_exec_instruction; [by eapply Hl; left | done | lia | lia] |].
  intros st1 (Hst1 & Hpc1 & Hh1). apply IH; [| done | lia | lia | done | done].
  intros q j Hj. apply (Hl q j). by right.
Qed.

Lemma script_instructions_cases :
  script_instructions script flags = instruction_indices script \/
  script_instructions script flags = instruction_indices_minimal script.
Proof. unfold script_instructions. destruct (intersects _ _); auto. Qed.

Lemma script_instrs_ok : bytes_ok script -> items_instr_ok (script_instructions script flags).
Proof.
  intros Hs p [d | op] Hi; cbn.
  - by eapply parse_pushes; [apply script_instructions_cases | |].
  - by eapply parse_ops; [apply script_instructions_cases | |].
Qed.

Lemma safe_eval_script stack d (N : nat) :
  bytes_ok script -> stack_ok stack -> (GS.len stack <= N)%nat ->
  (MAX_STACK_SIZE <= N)%nat -> Z.of_nat N <= i64_max ->
  safe (eval_script stack script flags v d) (fun '(_, s, _) => stack_ok s /\ (GS.len s <= N)%nat).
Proof.
  intros Hs Hstk Hlen HN HN'. unfold eval_script. safe_step @safe_reject_if as _ ?.
  eapply safe_bind; [apply (safe_run _ _ N); try done |].
  - by apply script_instrs_ok.
  - constructor; cbn; try done; try lia. constructor.
  - cbn. apply parse_size. apply script_instructions_cases.
  - unfold height, GS.len in *. cbn. lia.
  - intros st [Hst Hh]. safe_step @safe_reject_if as _ ?.
    apply safe_bind with (Q := fun _ => True).
    + destruct (GS.is_empty _); [done |]. apply safe_map_err, safe_iff. auto with rust.
    + intros b _. split; [apply Hst |]. unfold height in Hh. lia.
Qed.
End loop_invariant.

(** ** Properties *)

Section properties.
Context `{!ScriptApi, !ScriptLaws} `{!HashApi, !HashLaws}.
Context `{!KeyApi, !SignatureChecker, !SafeChecker}.

End properties.

Import (hints) Sample.

