(* ===== verification/Conditionals.v ===== *)
(** * Conditional execution

    What [eval_script] does with the branch of a conditional that is not
    taken: nested conditionals are tracked, everything else is passed over. *)

From Stdlib Require Import ZArith Lia.
From stdpp Require Import prelude.
From S2P Require Import Prelude Opcode ScriptNum ScriptTypes Stack CheckSig Sample MultiSig Eval EvalFacts.

(** The nesting depth after a block of instructions that starts at depth [n]:
    [None] when the block would touch the conditional around it, or holds
    [OP_VERIF] or [OP_VERNOTIF]. *)
Fixpoint nesting (l : list Instruction) (n : nat) : option nat :=
  match l with
  | [] => Some n
  | i :: l =>
      if is_conditional i then
        match i with
        | Op op =>
            if (op =? as_u8 OP_IF) || (op =? as_u8 OP_NOTIF) then nesting l (S n)
            else if op =? as_u8 OP_ELSE then
              match n with O => None | S _ => nesting l n end
            else if op =? as_u8 OP_ENDIF then
              match n with O => None | S n => nesting l n end
            else None
        | PushBytes _ => None
        end
      else nesting l n
  end.

(** A block that can be the body of a conditional. *)
Definition balanced (l : list Instruction) : Prop := nesting l 0 = Some 0%nat.

(** The conditionals of a block count towards the operation limit. *)
Definition conditionals (l : list Instruction) : nat :=
  length (List.filter is_conditional l).

(** The two states differ at most in the conditions and the counters. *)
Record same_work (st st' : EvalState) : Prop := {
  same_stack : es_stack st' = es_stack st;
  same_alt : es_alt_stack st' = es_alt_stack st;
  same_begincode : es_begincode st' = es_begincode st;
  same_exec_data : es_exec_data st' = es_exec_data st;
}.

#[export] Instance same_work_preorder : PreOrder same_work.
Proof.
  split; [by intros st |]. intros x y z [] []. constructor; congruence.
Qed.

Lemma same_work_height st st' : same_work st st' -> height st' = height st.
Proof. intros []. unfold height. congruence. Qed.

Section skipping.
Context `{!ScriptApi} `{!HashApi} `{!KeyApi, !SignatureChecker}.
Context (script : bytes) (flags : Z) (v : SigVersion).

Abbreviation exec i st := (exec_instruction i script flags v st).
Abbreviation run_block l st := (run (map inr l) script flags v st).

Lemma run_app l1 l2 st :
  run_block (l1 ++ l2) st = st' ← run_block l1 st; run_block l2 st'.
Proof.
  revert st. induction l1 as [| [p i] l1 IH]; intros st; cbn; [done |].
  destruct (exec i st); cbn; [apply IH | done | done].
Qed.

Lemma count_op_room op st :
  (es_op_count st < MAX_OPS_PER_SCRIPT)%nat ->
  exists n, count_op op v st = Ok (set_op_count st n) /\
            (n <= es_op_count st + 1)%nat.
Proof.
  intros Hroom. unfold count_op. destruct (_ && _).
  - cbv zeta. rewrite reject_if_false by (btest; lia). rbind. eauto.
  - exists (es_op_count st). split; [by destruct st | lia].
Qed.

(** A plain instruction in a branch not executed only moves [pc]. *)
Lemma exec_plain i st :
  is_executing st = false -> is_conditional i = false ->
  exec i st = Ok (set_pc st (es_pc st + step i)).
Proof.
  intros He Hc. unfold exec_instruction. cbv zeta.
  change (is_executing (set_pc _ _)) with (is_executing st). by rewrite He, Hc.
Qed.

(** What a conditional does to the conditions when not executing. *)
Definition skip_conditional (op : Z) (x : list bool) : option (list bool) :=
  if (op =? as_u8 OP_IF) || (op =? as_u8 OP_NOTIF) then Some (x ++ [false])
  else if op =? as_u8 OP_ELSE then
    match last x with Some b => Some (removelast x ++ [negb b]) | None => None end
  else if op =? as_u8 OP_ENDIF then
    match x with [] => None | _ => Some (removelast x) end
  else None.

Lemma exec_conditional op st x :
  is_executing st = false -> is_conditional (Op op) = true ->
  skip_conditional op (es_exec_stack st) = Some x ->
  (es_op_count st < MAX_OPS_PER_SCRIPT)%nat -> (height st <= MAX_STACK_SIZE)%nat ->
  exists st', exec (Op op) st = Ok st' /\ same_work st st' /\
    es_exec_stack st' = x /\ (es_op_count st' <= es_op_count st + 1)%nat.
Proof.
  intros He Hc Hx Hroom Hh. unfold exec_instruction. cbv zeta.
  change (is_executing (set_pc _ _)) with (is_executing st). rewrite He, Hc. cbn [orb negb dispatch].
  destruct (count_op_room op (set_pc st (es_pc st + step (Op op)))) as (n & -> & Hn); [done |].
  rbind. unfold height in Hh.
  assert (Hcase : op = 0x63 \/ op = 0x64 \/ op = 0x67 \/ op = 0x68).
  { unfold skip_conditional in Hx. cbn [as_u8] in Hx.
    destruct (Z.eqb_spec op 0x63), (Z.eqb_spec op 0x64), (Z.eqb_spec op 0x67), (Z.eqb_spec op 0x68);
      cbn in Hx; try done; lia. }
  destruct Hcase as [-> | [-> | [-> | ->]]];
    cbn [from_u8 ok_or]; rbind; cbn [exec_opcode]; unfold next, op_if, op_else, op_endif; rbind;
    cbn in Hx; cbn [es_exec_stack set_op_count set_pc] in *.
  1,2: injection Hx as <-; rewrite reject_if_false by (btest; cbn; lia); rbind;
       by eexists; split_and!.
  - destruct (last (es_exec_stack st)); [| done]. injection Hx as <-. rbind.
    rewrite reject_if_false by (btest; cbn; lia). rbind. by eexists; split_and!.
  - destruct (es_exec_stack st) eqn:Hes; [done |]. injection Hx as <-. rbind.
    rewrite reject_if_false by (btest; cbn; lia). rbind. by eexists; split_and!.
Qed.

Lemma not_executing_app outer inner st :
  forallb (fun x => x) outer = false -> es_exec_stack st = outer ++ inner ->
  is_executing st = false.
Proof. intros Ho He. unfold is_executing. by rewrite He, forallb_app, Ho. Qed.

(** One conditional inside the block, at relative depth [length inner]. *)
Lemma skip_inside op outer inner l m :
  is_conditional (Op op) = true -> nesting (Op op :: l) (length inner) = Some m ->
  exists inner', skip_conditional op (outer ++ inner) = Some (outer ++ inner') /\
                 nesting l (length inner') = Some m.
Proof.
  intros Hc Hn. cbn [nesting] in Hn. rewrite Hc in Hn. unfold skip_conditional.
  destruct (_ || _).
  - exists (inner ++ [false]). rewrite (assoc_L (++)), length_app, Nat.add_1_r. done.
  - destruct inner as [| b inner _] using rev_ind; cbn [length] in Hn.
    { by repeat case_match. }
    rewrite length_app, Nat.add_1_r, (assoc_L (++)), last_snoc, removelast_last in *.
    destruct (_ =? _).
    + exists (inner ++ [negb b]). rewrite (assoc_L (++)), length_app, Nat.add_1_r. done.
    + destruct (_ =? _); [| done]. exists inner. split; [| done].
      by destruct ((outer ++ inner) ++ [b]) eqn:E; [destruct (outer ++ inner) |].
Qed.

(** A block in a branch that is not executed. *)
Lemma run_skip l outer : forall inner m st,
  forallb (fun x => x) outer = false -> es_exec_stack st = outer ++ inner ->
  nesting (map snd l) (length inner) = Some m ->
  (es_op_count st + conditionals (map snd l) <= MAX_OPS_PER_SCRIPT)%nat ->
  (height st <= MAX_STACK_SIZE)%nat ->
  exists st' inner', run_block l st = Ok st' /\ same_work st st' /\
    es_exec_stack st' = outer ++ inner' /\ length inner' = m /\
    (es_op_count st' <= es_op_count st + conditionals (map snd l))%nat.
Proof.
  induction l as [| [p i] l IH]; intros inner m st Ho He Hn Hops Hh.
  { cbn in Hn. injection Hn as <-. exists st, inner. split_and!; try done. lia. }
  pose proof (not_executing_app _ _ _ Ho He) as Hex. cbn [map run].
  destruct (is_conditional i) eqn:Hc.
  - destruct i as [d | op]; [done |]. unfold conditionals in *. cbn [map snd List.filter] in *.
    rewrite Hc in *. cbn [length] in *.
    destruct (skip_inside op outer inner _ m Hc Hn) as (inner' & Hskip & Hn').
    rewrite <- He in Hskip.
    destruct (exec_conditional op st _ Hex Hc Hskip) as (st1 & -> & Hsame & He1 & Hop1); [lia | done |].
    rbind. destruct (IH inner' m st1 Ho He1 Hn') as (st2 & inner2 & -> & Hs2 & He2 & Hl2 & Hop2);
      [lia | by rewrite (same_work_height _ _ Hsame) |].
    exists st2, inner2. split_and!; [done | by etrans | done | done | lia].
  - rewrite (exec_plain i st Hex Hc). rbind.
    unfold conditionals in *. cbn [map snd List.filter nesting] in *. rewrite Hc in *.
    destruct (IH inner m (set_pc st (es_pc st + step i))) as (st2 & inner2 & -> & Hs2 & He2 & Hl2 & Hop2);
      [done.. |].
    exists st2, inner2. split_and!; try done. destruct Hs2. by constructor.
Qed.

(** The closing [OP_ENDIF] of a skipped block. *)
Lemma exec_endif outer b st :
  es_exec_stack st = outer ++ [b] -> (es_op_count st < MAX_OPS_PER_SCRIPT)%nat ->
  (height st <= MAX_STACK_SIZE)%nat ->
  exists st', exec (Op (as_u8 OP_ENDIF)) st = Ok st' /\ same_work st st' /\ es_exec_stack st' = outer.
Proof.
  intros He Hroom Hh. unfold exec_instruction. cbv zeta. rewrite orb_true_r. cbn [negb dispatch].
  destruct (count_op_room (as_u8 OP_ENDIF) (set_pc st (es_pc st + step (Op (as_u8 OP_ENDIF)))))
    as (n & -> & Hn); [done |].
  rbind. cbn [as_u8 from_u8 ok_or]. rbind. cbn [exec_opcode]. unfold next, op_endif.
  cbn [es_exec_stack set_op_count set_pc]. rewrite He.
  destruct (outer ++ [b]) eqn:E; [by destruct outer |]. rewrite <- E, removelast_last. rbind.
  unfold height in Hh. rewrite reject_if_false by (btest; cbn; lia). rbind. by eexists; split_and!.
Qed.

(** Entering a conditional whose condition does not hold. *)
Lemma exec_enter opcode pre x mm st :
  opcode = OP_IF \/ opcode = OP_NOTIF ->
  is_executing st = true -> es_stack st = mk_stack (pre ++ [x]) mm ->
  cast_to_bool x = bool_decide (opcode = OP_NOTIF) ->
  v = Base \/ not_minimal_if x = false ->
  (es_op_count st < MAX_OPS_PER_SCRIPT)%nat -> (height st <= MAX_STACK_SIZE)%nat ->
  exists st', exec (Op (as_u8 opcode)) st = Ok st' /\
    same_work (set_stack st (mk_stack pre mm)) st' /\
    es_exec_stack st' = es_exec_stack st ++ [false] /\
    (es_op_count st' <= es_op_count st + 1)%nat.
Proof.
  intros Hop He Hs Hx Hmin Hroom Hh. unfold exec_instruction. cbv zeta.
  change (is_executing (set_pc _ _)) with (is_executing st). rewrite He. cbn [orb negb dispatch].
  destruct (count_op_room (as_u8 opcode) (set_pc st (es_pc st + step (Op (as_u8 opcode)))))
    as (n & -> & Hn); [done |].
  rbind. rewrite from_as_u8. cbn [ok_or]. rbind.
  assert (Hrun : forall st0, es_stack st0 = es_stack st -> op_if opcode flags v true st0
    = Ok (set_exec_stack (set_stack st0 (mk_stack pre mm)) (es_exec_stack st0 ++ [false]))).
  { intros st0 Hs0. unfold op_if. rewrite Hs0, Hs, pop_snoc. cbn [map_err]. rbind.
    rewrite !reject_if_false by (destruct Hmin as [-> | ->]; rewrite ?andb_false_r; done). rbind.
    rewrite Hx. by destruct (bool_decide (opcode = OP_NOTIF)). }
  assert (exec_opcode opcode (as_u8 opcode) script flags v true
    (set_op_count (set_pc st (es_pc st + step (Op (as_u8 opcode)))) n)
    = next (op_if opcode flags v true
              (set_op_count (set_pc st (es_pc st + step (Op (as_u8 opcode)))) n))) as ->
    by (by destruct Hop as [-> | ->]).
  rewrite Hrun by done. unfold next. rbind. unfold height in Hh. rewrite Hs in Hh.
  rewrite reject_if_false.
  2:{ btest. cbn [es_stack es_alt_stack set_opcode_pos set_exec_stack set_stack set_op_count set_pc].
      unfold GS.len in *. cbn [data] in *. rewrite length_app in Hh. cbn [length] in Hh. lia. }
  rbind. by eexists; split_and!.
Qed.

Lemma nesting_else st outer :
  es_exec_stack st = outer ++ [true] -> forallb (fun x => x) outer = true ->
  (es_op_count st < MAX_OPS_PER_SCRIPT)%nat -> (height st <= MAX_STACK_SIZE)%nat ->
  exists st', exec (Op (as_u8 OP_ELSE)) st = Ok st' /\ same_work st st' /\
    es_exec_stack st' = outer ++ [false] /\ (es_op_count st' <= es_op_count st + 1)%nat.
Proof.
  intros He Ho Hroom Hh. unfold exec_instruction. cbv zeta. rewrite orb_true_r. cbn [negb dispatch].
  destruct (count_op_room (as_u8 OP_ELSE) (set_pc st (es_pc st + step (Op (as_u8 OP_ELSE)))))
    as (n & -> & Hn); [done |].
  rbind. cbn [as_u8 from_u8 ok_or]. rbind. cbn [exec_opcode]. unfold next, op_else.
  cbn [es_exec_stack set_op_count set_pc]. rewrite He, last_snoc, removelast_last. rbind.
  unfold height in Hh. rewrite reject_if_false by (btest; cbn; lia). rbind. by eexists; split_and!.
Qed.

(** Skip a block and leave its conditional. *)
Lemma run_skip_endif p l outer st :
  es_exec_stack st = outer ++ [false] -> balanced (map snd l) ->
  (es_op_count st + conditionals (map snd l) + 1 <= MAX_OPS_PER_SCRIPT)%nat ->
  (height st <= MAX_STACK_SIZE)%nat ->
  exists st', run_block (l ++ [(p, Op (as_u8 OP_ENDIF))]) st = Ok st' /\ same_work st st' /\
    es_exec_stack st' = outer.
Proof.
  intros He Hb Hops Hh. rewrite run_app.
  destruct (run_skip l (outer ++ [false]) [] 0 st) as (st1 & inner & -> & Hs1 & He1 & Hl & Hop1);
    [by rewrite forallb_app, andb_false_r | by rewrite app_nil_r | done | lia | done |].
  destruct inner; [| done]. rewrite app_nil_r in He1. rbind. cbn [map run].
  destruct (exec_endif outer false st1 He1) as (st2 & -> & Hs2 & He2);
    [lia | by rewrite (same_work_height _ _ Hs1) |].
  rbind. exists st2. split_and!; [done | by etrans | done].
Qed.

(** a branch that is not taken has no effect.  A block [OP_IF body
    OP_ENDIF] whose condition is false (or [OP_NOTIF] with a true one), and
    the part [OP_ELSE body OP_ENDIF] of a conditional whose first branch was
    executed, leave the stack (less the condition), the alternative stack,
    the script code start and the execution data as they were and restore
    the nesting, whatever plain instructions the body holds: disabled or
    unknown opcodes and oversized pushes included. *)
Lemma untaken_branch_skipped (opcode : Opcode) (pre : list bytes) (x : bytes) (mm : bool)
    (body : list (nat * Instruction)) (p q : nat) (st : EvalState) (outer : list bool) :
  balanced (map snd body) ->
  (es_op_count st + conditionals (map snd body) + 2 <= MAX_OPS_PER_SCRIPT)%nat ->
  (height st <= MAX_STACK_SIZE)%nat ->
  (opcode = OP_IF \/ opcode = OP_NOTIF ->
   is_executing st = true -> es_stack st = mk_stack (pre ++ [x]) mm ->
   cast_to_bool x = bool_decide (opcode = OP_NOTIF) ->
   v = Base \/ not_minimal_if x = false ->
   exists st',
     run_block ((p, Op (as_u8 opcode)) :: body ++ [(q, Op (as_u8 OP_ENDIF))]) st = Ok st' /\
     same_work (set_stack st (mk_stack pre mm)) st' /\
     es_exec_stack st' = es_exec_stack st) /\
  (es_exec_stack st = outer ++ [true] -> forallb (fun x => x) outer = true ->
   exists st',
     run_block ((p, Op (as_u8 OP_ELSE)) :: body ++ [(q, Op (as_u8 OP_ENDIF))]) st = Ok st' /\
     same_work st st' /\ es_exec_stack st' = outer).
Proof.
  intros Hb Hops Hh. split.
  - intros Hop He Hs Hx Hmin. cbn [map run].
    destruct (exec_enter opcode pre x mm st) as (st1 & -> & Hs1 & He1 & Hop1); try done; [lia |].
    rbind. destruct (run_skip_endif q body (es_exec_stack st) st1) as (st2 & -> & Hs2 & He2);
      [done.. | lia | |].
    + rewrite (same_work_height _ _ Hs1). unfold height in *. rewrite Hs in Hh. cbn in *.
      unfold GS.len in *. cbn [data] in *. rewrite length_app in Hh. lia.
    + exists st2. split_and!; [done | by etrans | done].
  - intros He Ho. cbn [map run].
    destruct (nesting_else st outer He Ho) as (st1 & -> & Hs1 & He1 & Hop1); [lia | done |].
    rbind. destruct (run_skip_endif q body outer st1) as (st2 & -> & Hs2 & He2);
      [done.. | lia | by rewrite (same_work_height _ _ Hs1) |].
    exists st2. split_and!; [done | by etrans | done].
Qed.
End skipping.

Import (hints) Sample.

(** [OP_IF OP_CAT OP_IF OP_ELSE OP_ENDIF OP_ENDIF] on a false condition. *)
Lemma untaken_branch_skipped_witness :
  let st := initial_state (mk_stack [[7]; []] false) 0 default_exec_data in
  exists st',
    run (map inr [(0%nat, Op 0x63); (1%nat, Op 0x7e); (2%nat, Op 0x63); (3%nat, Op 0x67);
                  (4%nat, Op 0x68); (5%nat, Op 0x68)]) [] 0 Base st = Ok st' /\
    same_work (set_stack st (mk_stack [[7]] false)) st' /\
    es_exec_stack st' = es_exec_stack st.
Proof.
  intros st.
  refine (proj1 (untaken_branch_skipped [] 0 Base OP_IF [[7]] [] false
            [(1%nat, Op 0x7e); (2%nat, Op 0x63); (3%nat, Op 0x67); (4%nat, Op 0x68)] 0 5 st []
            eq_refl _ _) (or_introl eq_refl) eq_refl eq_refl eq_refl (or_introl eq_refl)).
  - unfold MAX_OPS_PER_SCRIPT. change (es_op_count st) with 0%nat. vm_compute. lia.
  - unfold MAX_STACK_SIZE. change (height st) with 2%nat. lia.
Defined.
