(* ===== verification/Interpreter.v ===== *)
(** * Script verification ([crates/subcoin-script/src/interpreter.rs])

    [verify_script] evaluates the unlocking and the locking script on one
    stack, then the redeem script of a pay-to-script-hash output and the
    witness program of a segwit output. *)

From Stdlib Require Import ZArith Lia.
From stdpp Require Import prelude.
From S2P Require Import Prelude Opcode ScriptNum ScriptTypes Stack CheckSig Sample MultiSig Eval EvalFacts.

(** Constants of [bitcoin::taproot]. *)
Definition TAPROOT_ANNEX_PREFIX : Z := 0x50.
Definition TAPROOT_CONTROL_BASE_SIZE : nat := 33.
Definition TAPROOT_CONTROL_NODE_SIZE : nat := 32.
Definition TAPROOT_CONTROL_MAX_SIZE : nat := (33 + 32 * 128)%nat.
Definition TAPROOT_LEAF_MASK : Z := 0xfe.
Definition TAPROOT_LEAF_TAPSCRIPT : Z := 0xc0.

(** [bitcoin::WitnessProgram]. *)
Record WitnessProgram := mk_witness_program {
  wp_version : Z;
  wp_program : bytes;
}.

Definition is_op_success (opcode : Z) : bool :=
  (opcode =? 0x50) || ((0x7b <=? opcode) && (opcode <=? 0xb9)).

Section interpreter.
Context `{!ScriptApi} `{!HashApi} `{!KeyApi, !SignatureChecker}.

Definition parse_witness_program (script_pubkey : bytes) : res Error (option WitnessProgram) :=
  match witness_version script_pubkey with
  | Some version =>
      bs ← slice_from script_pubkey 2;
      match witness_program_new version bs with
      | inr program => Ok (Some {| wp_version := version; wp_program := program |})
      | inl _ => Err WitnessProgramWrongLength
      end
  | None => Ok None
  end.

(** The OP_SUCCESSx scan of a tapscript: [true] when the script succeeds at
    once. *)
Fixpoint scan_op_success (l : list (ExtError + Instruction)) (flags : Z) : res Error bool :=
  match l with
  | [] => Ok false
  | inl e :: _ => Err (ReadInstruction e)
  | inr (PushBytes _) :: _ => Err BadOpcode
  | inr (Op opcode) :: l =>
      if is_op_success opcode then
        reject_if (intersects flags VerifyFlags.DISCOURAGE_OP_SUCCESS) DiscourageOpSuccess;;
        Ok true
      else scan_op_success l flags
  end.

Definition execute_witness_script (stack_span : list bytes) (exec_script : bytes) (flags : Z)
    (sig_version : SigVersion) (exec_data : ScriptExecutionData) : res Error unit :=
  let stack := GS.new stack_span true in
  succeeded ←
    (if bool_decide (sig_version = Tapscript) then
       b ← scan_op_success (instructions exec_script) flags;
       if (b : bool) then Ok true
       else
         reject_if (MAX_STACK_SIZE <? GS.len stack)%nat StackSize;;
         Ok false
     else Ok false);
  if (succeeded : bool) then Ok tt
  else
    reject_if (existsb (fun elem => (MAX_SCRIPT_ELEMENT_SIZE <? length elem)%nat) (data stack))
      PushSize;;
    '(_, stack, _) ← eval_script stack exec_script flags sig_version exec_data;
    reject_if (negb (GS.len stack =? 1)%nat) CleanStack;;
    b ← stk (GS.peek_bool stack);
    reject_if (negb b) EvalFalse.

(** The execution data of a taproot input, and the stack without the annex. *)
Definition take_annex (witness_stack : Stack) : res Error (ScriptExecutionData * Stack) :=
  '(annex, witness_stack) ←
    (if (2 <=? GS.len witness_stack)%nat then
       top ← stk (GS.last witness_stack);
       match top with
       | b :: _ =>
           if b =? TAPROOT_ANNEX_PREFIX then
             '(annex, witness_stack) ← stk (GS.pop witness_stack);
             Ok (Some annex, witness_stack)
           else Ok (None, witness_stack)
       | [] => Ok (None, witness_stack)
       end
     else Ok (None, witness_stack));
  let d := default_exec_data in
  Ok (mk_exec_data (tapleaf_hash_init d) (tapleaf_hash d) (codeseparator_pos_init d)
        (codeseparator_pos d) true
        (match annex with Some _ => true | None => annex_present d end)
        (match annex with Some a => sha256 a | None => annex_hash d end)
        annex (validation_weight_left_init d) (validation_weight_left d) (output_hash d),
      witness_stack).

Definition set_tapleaf_hash (d : ScriptExecutionData) (h : bytes) (init : bool) :=
  mk_exec_data init h (codeseparator_pos_init d) (codeseparator_pos d) (annex_init d)
    (annex_present d) (annex_hash d) (annex d) (validation_weight_left_init d)
    (validation_weight_left d) (output_hash d).

Definition init_validation_weight (d : ScriptExecutionData) (w : Z) :=
  mk_exec_data (tapleaf_hash_init d) (tapleaf_hash d) (codeseparator_pos_init d)
    (codeseparator_pos d) (annex_init d) (annex_present d) (annex_hash d) (annex d)
    true w (output_hash d).

(** Key path: the witness is a single signature. *)
Definition verify_key_path (witness_stack : Stack) (program : bytes)
    (exec_data : ScriptExecutionData) : res Error unit :=
  sig ← stk (GS.last witness_stack);
  sig ← map_err SchnorrSignature (of_sum (schnorr_from_slice sig));
  pubkey ← map_err Secp256k1 (of_sum (xonly_from_slice program));
  map_err Signature (sc_check_schnorr_signature sig pubkey Taproot exec_data);;
  Ok tt.

Definition wrong_control_size (control : bytes) : bool :=
  (length control <? TAPROOT_CONTROL_BASE_SIZE)%nat ||
  (TAPROOT_CONTROL_MAX_SIZE <? length control)%nat ||
  negb (((length control - TAPROOT_CONTROL_BASE_SIZE) mod TAPROOT_CONTROL_NODE_SIZE =? 0)%nat).

(** Script path: the witness ends with the script and the control block. *)
Definition verify_script_path (witness : list bytes) (witness_stack : Stack) (program : bytes)
    (flags : Z) (exec_data : ScriptExecutionData) : res Error unit :=
  '(control, witness_stack) ← stk (GS.pop witness_stack);
  '(script, witness_stack) ← stk (GS.pop witness_stack);
  reject_if (wrong_control_size control) TaprootWrongControlSize;;
  c0 ← index control 0;
  let leaf_version := Z.land c0 TAPROOT_LEAF_MASK in
  leaf ← expect (leaf_version_from_consensus leaf_version);
  let tapleaf_hash := tap_leaf_hash script leaf in
  control_block ← map_err TaprootErr (of_sum (control_block_decode control));
  output_key ← map_err Secp256k1 (of_sum (xonly_from_slice program));
  reject_if (negb (verify_taproot_commitment control_block output_key script))
    WitnessProgramMismatch;;
  let exec_data := set_tapleaf_hash exec_data tapleaf_hash true in
  if leaf_version =? TAPROOT_LEAF_TAPSCRIPT then
    let exec_data :=
      init_validation_weight exec_data (witness_size witness + VALIDATION_WEIGHT_OFFSET) in
    execute_witness_script (data witness_stack) script flags Tapscript exec_data
  else
    reject_if (intersects flags VerifyFlags.DISCOURAGE_UPGRADABLE_TAPROOT_VERSION)
      DiscourageUpgradableTaprootVersion.

(** [DUP HASH160 <program> EQUALVERIFY CHECKSIG]. *)
Definition p2wpkh_script (program : bytes) : bytes :=
  [as_u8 OP_DUP; as_u8 OP_HASH160] ++ push_slice program ++
  [as_u8 OP_EQUALVERIFY; as_u8 OP_CHECKSIG].

Definition verify_witness_v0 (witness_stack : Stack) (program : bytes) (flags : Z)
    : res Error unit :=
  if (length program =? WITNESS_V0_SCRIPTHASH_SIZE)%nat then
    reject_if (GS.is_empty witness_stack) WitnessProgramWitnessEmpty;;
    '(witness_script, witness_stack) ← stk (GS.pop witness_stack);
    reject_if (negb (bool_decide (sha256 witness_script = program))) WitnessProgramMismatch;;
    execute_witness_script (data witness_stack) witness_script flags WitnessV0 default_exec_data
  else if (length program =? WITNESS_V0_KEYHASH_SIZE)%nat then
    reject_if (negb (GS.len witness_stack =? 2)%nat) WitnessProgramMismatch;;
    execute_witness_script (data witness_stack) (p2wpkh_script program) flags WitnessV0
      default_exec_data
  else Panic.

Definition verify_witness_program (witness : list bytes) (witness_program : WitnessProgram)
    (flags : Z) (is_p2sh : bool) : res Error unit :=
  let witness_stack := GS.with_data witness in
  let version := wp_version witness_program in
  let program := wp_program witness_program in
  if version =? 0 then verify_witness_v0 witness_stack program flags
  else if (version =? 1) && (length program =? WITNESS_V0_TAPROOT_SIZE)%nat && negb is_p2sh then
    if negb (intersects flags VerifyFlags.TAPROOT) then Ok tt
    else
      reject_if (GS.is_empty witness_stack) WitnessProgramWitnessEmpty;;
      '(exec_data, witness_stack) ← take_annex witness_stack;
      if (GS.len witness_stack =? 1)%nat then verify_key_path witness_stack program exec_data
      else verify_script_path witness witness_stack program flags exec_data
  else
    reject_if (intersects flags VerifyFlags.DISCOURAGE_UPGRADABLE_WITNESS_PROGRAM)
      DiscourageUpgradableWitnessProgram.

(** "Bare witness program": whether there was one, and the stack. *)
Definition verify_bare_witness (script_sig script_pubkey : bytes) (witness : list bytes)
    (flags : Z) (stack : Stack) : res Error (bool * Stack) :=
  if intersects flags VerifyFlags.WITNESS then
    program ← parse_witness_program script_pubkey;
    match program with
    | Some witness_program =>
        reject_if (negb (bool_decide (script_sig = []))) WitnessMalleated;;
        verify_witness_program witness witness_program flags false;;
        Ok (true, GS.truncate stack 1)
    | None => Ok (false, stack)
    end
  else Ok (false, stack).

(** "Additional validation for spend-to-script-hash transactions". *)
Definition verify_redeem_script (script_sig : bytes) (witness : list bytes) (flags : Z)
    (had_witness : bool) (stack_copy : Stack) : res Error (bool * Stack) :=
  reject_if (negb (is_push_only script_sig)) SigPushOnly;;
  let stack := stack_copy in
  rassert (negb (GS.is_empty stack));;
  '(pubkey2, stack) ← stk (GS.pop stack);
  '(_, stack, _) ← eval_script stack pubkey2 flags Base default_exec_data;
  reject_if (GS.is_empty stack) EvalFalse;;
  b ← stk (GS.peek_bool stack);
  reject_if (negb b) EvalFalse;;
  if intersects flags VerifyFlags.WITNESS then
    program ← parse_witness_program pubkey2;
    match program with
    | Some witness_program =>
        rassert (Z.of_nat (length pubkey2) <=? u32_max);;
        let redeem_script := push_slice pubkey2 in
        reject_if (negb (bool_decide (script_sig = redeem_script))) WitnessMalleatedP2SH;;
        verify_witness_program witness witness_program flags true;;
        Ok (true, GS.truncate stack 1)
    | None => Ok (had_witness, stack)
    end
  else Ok (had_witness, stack).

(** The clean stack and unexpected witness checks. *)
Definition final_checks (witness : list bytes) (flags : Z) (had_witness : bool) (stack : Stack)
    : res Error unit :=
  (if intersects flags VerifyFlags.CLEANSTACK then
     rassert (verify_p2sh flags && verify_witness flags);;
     reject_if (negb (GS.len stack =? 1)%nat) CleanStack
   else Ok tt);;
  (if intersects flags VerifyFlags.WITNESS then
     rassert (verify_p2sh flags);;
     reject_if (negb had_witness && negb (bool_decide (witness = []))) WitnessUnexpected
   else Ok tt).

(** Verifies the script validity. *)
Definition verify_script (script_sig script_pubkey : bytes) (witness : list bytes) (flags : Z)
    : res Error unit :=
  reject_if (intersects flags VerifyFlags.SIGPUSHONLY && negb (is_push_only script_sig))
    SigPushOnly;;
  '(_, stack, _) ← eval_script (GS.with_flags flags) script_sig flags Base default_exec_data;
  let stack_copy_for_p2sh := if intersects flags VerifyFlags.P2SH then Some stack else None in
  '(_, stack, _) ← eval_script stack script_pubkey flags Base default_exec_data;
  reject_if (GS.is_empty stack) EvalFalse;;
  b ← stk (GS.peek_bool stack);
  reject_if (negb b) EvalFalse;;
  '(had_witness, stack) ← verify_bare_witness script_sig script_pubkey witness flags stack;
  '(had_witness, stack) ←
    (match stack_copy_for_p2sh with
     | Some stack_copy =>
         if is_p2sh script_pubkey
         then verify_redeem_script script_sig witness flags had_witness stack_copy
         else Ok (had_witness, stack)
     | None => Ok (had_witness, stack)
     end);
  final_checks witness flags had_witness stack.
End interpreter.
