(* ===== verification/InterpreterFacts.v ===== *)
(** * What script verification guarantees

    No panic on the paths before taproot, the meaning of the pay-to-public-key-
    hash templates, and the consequences of the taproot paths as written. *)

From Stdlib Require Import ZArith Lia.
From stdpp Require Import prelude.
From S2P Require Import Prelude Opcode ScriptNum ScriptTypes Stack CheckSig Sample MultiSig Eval EvalFacts Conditionals Interpreter.

Section safety.
Context `{!ScriptApi, !ScriptLaws} `{!HashApi, !HashLaws}.
Context `{!KeyApi, !SignatureChecker, !SafeChecker}.

Lemma safe_parse_witness_program script :
  safe (parse_witness_program script) (fun o =>
    match o with
    | Some p => wp_program p = skipn 2 script /\
                (wp_version p = 0 -> length (wp_program p) = 20%nat \/ length (wp_program p) = 32%nat)
    | None => True
    end).
Proof.
  unfold parse_witness_program. destruct (witness_version script) as [ver |] eqn:Hw; [| done].
  rewrite slice_from_le by (apply witness_version_length in Hw; lia). rbind.
  destruct (witness_program_new ver (skipn 2 script)) as [e | p] eqn:Hp; [done |].
  cbn. pose proof (witness_program_bytes _ _ _ Hp) as ->. split; [done |].
  intros ->. by eapply witness_program_v0.
Qed.

(** The elements of a stack are bytes, of any length. *)
Abbreviation raw_ok l := (Forall bytes_ok l).

Lemma stack_ok_short l m :
  raw_ok l ->
  existsb (fun elem => (MAX_SCRIPT_ELEMENT_SIZE <? length elem)%nat) l = false ->
  stack_ok (mk_stack l m).
Proof.
  intros Hl He. apply Forall_forall. intros x Hx. split.
  - rewrite Forall_forall in Hl. by apply Hl.
  - assert ((MAX_SCRIPT_ELEMENT_SIZE <? length x)%nat = false) as Hn%Nat.ltb_ge; [| done].
    destruct (_ <? _)%nat eqn:Hlt; [| done]. rewrite <- He. symmetry.
    apply existsb_exists. exists x. by rewrite <- list_elem_of_In.
Qed.

Lemma safe_execute_v0 span script flags d :
  raw_ok span -> Z.of_nat (length span) <= i64_max -> bytes_ok script ->
  safe (execute_witness_script span script flags WitnessV0 d) (fun _ => True).
Proof.
  intros Hspan Hlen Hs. unfold execute_witness_script. cbv zeta.
  rewrite bool_decide_eq_false_2 by done. rbind. safe_step @safe_reject_if as _ Hshort.
  eapply safe_bind.
  - apply (safe_eval_script script flags WitnessV0 (or_intror eq_refl) _ d
             (max MAX_STACK_SIZE (length span))); try done.
    + by apply stack_ok_short.
    + apply Nat.le_max_r.
    + apply Nat.le_max_l.
    + rewrite Nat2Z.inj_max. unfold MAX_STACK_SIZE, i64_max in *. lia.
  - intros [[b s] d'] [Hs' _]. safe_step @safe_reject_if as _ ?.
    apply safe_bind with (Q := fun _ => True).
    + apply safe_map_err, safe_iff. auto with rust.
    + intros c _. by destruct c.
Qed.

Lemma safe_verify_witness_v0 witness program flags :
  raw_ok witness -> Z.of_nat (length witness) <= i64_max -> bytes_ok program ->
  length program = 20%nat \/ length program = 32%nat ->
  safe (verify_witness_v0 (GS.with_data witness) program flags) (fun _ => True).
Proof.
  intros Hw Hlen Hp Hl. unfold verify_witness_v0.
  destruct (Nat.eqb_spec (length program) WITNESS_V0_SCRIPTHASH_SIZE) as [| Hne].
  - safe_step @safe_reject_if as _ ?.
    destruct (GS.pop (GS.with_data witness)) as [[ws s'] | |] eqn:Hpop;
      [| done | by apply no_panic_pop in Hpop].
    apply pop_Ok in Hpop as [Hd _]. cbn in Hd. subst witness.
    apply Forall_app in Hw as [Hw Hws]. rewrite Forall_singleton in Hws. rcbn.
    safe_step @safe_reject_if as _ ?. apply safe_execute_v0; [done | | done].
    rewrite length_app in Hlen. lia.
  - destruct (Nat.eqb_spec (length program) WITNESS_V0_KEYHASH_SIZE) as [Hk |].
    2:{ exfalso. unfold WITNESS_V0_SCRIPTHASH_SIZE, WITNESS_V0_KEYHASH_SIZE in *. lia. }
    safe_step @safe_reject_if as _ ?. apply safe_execute_v0; [done | done |].
    unfold p2wpkh_script. rewrite !bytes_ok_app. split_and!; try by apply bytes_okb_spec.
    apply push_slice_bytes; [done |]. unfold MAX_SCRIPT_ELEMENT_SIZE, WITNESS_V0_KEYHASH_SIZE in *. lia.
Qed.

(** Without the taproot flag every witness program is handled safely. *)
Lemma safe_verify_witness_program script witness p flags b :
  intersects flags VerifyFlags.TAPROOT = false ->
  raw_ok witness -> Z.of_nat (length witness) <= i64_max -> bytes_ok script ->
  parse_witness_program script = Ok (Some p) ->
  safe (verify_witness_program witness p flags b) (fun _ => True).
Proof.
  intros Ht Hw Hlen Hs Hp. pose proof (safe_parse_witness_program script) as Hsafe.
  rewrite Hp in Hsafe. destruct Hsafe as [Hbytes Hv0]. unfold verify_witness_program. cbv zeta.
  destruct (Z.eqb_spec (wp_version p) 0) as [Hv |].
  - apply safe_verify_witness_v0; [done | done | | by apply Hv0].
    rewrite Hbytes. by apply Sample.bytes_ok_skipn.
  - match goal with |- safe (if ?c then _ else _) _ => destruct c end;
      [rewrite Ht; exact I |].
    eapply safe_mono; [apply safe_reject_if | done].
Qed.

(** A pay-to-script-hash output cannot be evaluated on an empty stack. *)
Lemma p2sh_empty_stack script flags mm d :
  is_p2sh script = true ->
  exists e, eval_script (mk_stack [] mm) script flags Base d = Err e.
Proof.
  intros Hp. unfold eval_script. rewrite bool_decide_eq_false_2 by done. rcbn.
  destruct (parse_p2sh script (script_instructions script flags)) as (i1 & i2 & i3 & h & _ & ->);
    [apply script_instructions_cases | done |].
  by eexists.
Qed.

(** The stack of a script evaluation that starts from nothing. *)
Lemma eval_base_ok stack script flags d b s d' :
  bytes_ok script -> stack_ok stack -> (GS.len stack <= MAX_STACK_SIZE)%nat ->
  eval_script stack script flags Base d = Ok (b, s, d') ->
  stack_ok s /\ (GS.len s <= MAX_STACK_SIZE)%nat.
Proof.
  intros Hs Hst Hl He.
  pose proof (safe_eval_script script flags Base (or_introl eq_refl) stack d MAX_STACK_SIZE
                Hs Hst Hl (le_n _)) as Hsafe.
  rewrite He in Hsafe. apply Hsafe. unfold MAX_STACK_SIZE, i64_max. lia.
Qed.

Lemma no_panic_eval_base stack script flags d :
  bytes_ok script -> stack_ok stack -> (GS.len stack <= MAX_STACK_SIZE)%nat ->
  no_panic (eval_script stack script flags Base d).
Proof.
  intros Hs Hst Hl.
  pose proof (safe_eval_script script flags Base (or_introl eq_refl) stack d MAX_STACK_SIZE
                Hs Hst Hl (le_n _)) as Hsafe.
  apply safe_iff in Hsafe as [Hp _]; [done |]. unfold MAX_STACK_SIZE, i64_max. lia.
Qed.

Lemma no_panic_bare_witness script_sig script_pubkey witness flags stack :
  intersects flags VerifyFlags.TAPROOT = false ->
  raw_ok witness -> Z.of_nat (length witness) <= i64_max -> bytes_ok script_pubkey ->
  no_panic (verify_bare_witness script_sig script_pubkey witness flags stack).
Proof.
  intros Ht Hw Hlen Hs. unfold verify_bare_witness. destruct (intersects flags VerifyFlags.WITNESS); [| done].
  pose proof (safe_parse_witness_program script_pubkey) as Hsafe.
  destruct (parse_witness_program script_pubkey) as [[p |] | |] eqn:Hp; try done. rbind.
  apply no_panic_bind; [auto with rust |]. intros _ _.
  apply no_panic_bind; [| done].
  eapply safe_no_panic. by apply (safe_verify_witness_program script_pubkey).
Qed.

Lemma no_panic_redeem script_sig witness flags had stack :
  intersects flags VerifyFlags.TAPROOT = false ->
  raw_ok witness -> Z.of_nat (length witness) <= i64_max ->
  stack_ok stack -> (GS.len stack <= MAX_STACK_SIZE)%nat -> data stack <> [] ->
  no_panic (verify_redeem_script script_sig witness flags had stack).
Proof.
  intros Ht Hw Hlen Hst Hl Hne. unfold verify_redeem_script. apply no_panic_bind; [auto with rust |].
  intros _ _. cbv zeta. assert (GS.is_empty stack = false) as ->
    by (unfold GS.is_empty; by destruct (data stack)).
  cbn [negb rassert]. rbind.
  pose proof (safe_pop elem_ok stack Hst) as Hpop.
  destruct (GS.pop stack) as [[pubkey2 s1] | |] eqn:Hp; [| done | done].
  destruct Hpop as [[Hpk Hpl] Hs1]. apply pop_Ok in Hp as [Hd _]. cbn [map_err]. rbind.
  assert (Hl1 : (GS.len s1 <= MAX_STACK_SIZE)%nat).
  { unfold GS.len in *. rewrite Hd, length_app in Hl. lia. }
  apply no_panic_bind; [by apply no_panic_eval_base |]. intros [[b s2] d] He.
  apply no_panic_bind; [auto with rust |]. intros _ _.
  apply no_panic_bind; [auto with rust |]. intros c _.
  apply no_panic_bind; [auto with rust |]. intros _ _.
  destruct (intersects flags VerifyFlags.WITNESS); [| done].
  pose proof (safe_parse_witness_program pubkey2) as Hsafe.
  destruct (parse_witness_program pubkey2) as [[p |] | |] eqn:Hwp; try done. rbind.
  assert ((Z.of_nat (length pubkey2) <=? u32_max) = true) as ->
    by (unfold MAX_SCRIPT_ELEMENT_SIZE, u32_max in *; btest). cbn [rassert]. rbind. cbv zeta.
  apply no_panic_bind; [auto with rust |]. intros _ _.
  apply no_panic_bind; [| done].
  eapply safe_no_panic. by apply (safe_verify_witness_program pubkey2).
Qed.

End safety.

(** ** Pay to public key hash *)

Section p2pkh.
Context `{!ScriptApi, !ScriptLaws} `{!HashApi} `{!KeyApi, !SignatureChecker}.
Context (script : bytes) (flags : Z) (v : SigVersion).

(** An opcode that only works on the stack, in an executed branch. *)
Lemma exec_stack_opcode opcode f st :
  (forall st0, exec_opcode opcode (as_u8 opcode) script flags v true st0 = on_stack f st0) ->
  is_executing st = true -> (es_op_count st < MAX_OPS_PER_SCRIPT)%nat ->
  match f (es_stack st) with
  | Ok s' =>
      (GS.len s' + GS.len (es_alt_stack st) <= MAX_STACK_SIZE)%nat ->
      exists st', exec_instruction (Op (as_u8 opcode)) script flags v st = Ok st' /\
        same_work (set_stack st s') st' /\ es_exec_stack st' = es_exec_stack st /\
        (es_op_count st' <= es_op_count st + 1)%nat
  | Err e => exec_instruction (Op (as_u8 opcode)) script flags v st = Err e
  | Panic => exec_instruction (Op (as_u8 opcode)) script flags v st = Panic
  end.
Proof.
  intros Hf He Hroom. unfold exec_instruction. cbv zeta.
  change (is_executing (set_pc _ _)) with (is_executing st). rewrite He. cbn [orb negb dispatch].
  destruct (count_op_room v (as_u8 opcode) (set_pc st (es_pc st + step (Op (as_u8 opcode)))))
    as (n & -> & Hn); [done |].
  rbind. rewrite from_as_u8. cbn [ok_or]. rbind. rewrite Hf. unfold on_stack.
  change (es_stack (set_op_count _ _)) with (es_stack st).
  destruct (f (es_stack st)) as [s' | e |]; rbind; [| done | done]. intros Hlen.
  rewrite reject_if_false by (btest; cbn; lia). rbind. by eexists; split_and!.
Qed.

(** A push in an executed branch. *)
Lemma exec_push d st :
  is_executing st = true -> (length d <= MAX_SCRIPT_ELEMENT_SIZE)%nat ->
  (height st < MAX_STACK_SIZE)%nat ->
  exists st', exec_instruction (PushBytes d) script flags v st = Ok st' /\
    same_work (set_stack st (GS.push (es_stack st) d)) st' /\
    es_exec_stack st' = es_exec_stack st /\ es_op_count st' = es_op_count st.
Proof.
  intros He Hd Hh. unfold exec_instruction. cbv zeta.
  change (is_executing (set_pc _ _)) with (is_executing st). rewrite He. cbn [orb negb dispatch].
  rewrite reject_if_false by (btest; lia). rbind.
  rewrite reject_if_false. { rbind. by eexists; split_and!. }
  btest. unfold height, GS.len in *. cbn [es_stack es_alt_stack set_stack set_pc set_opcode_pos
    GS.push GS.set_data data] in *. rewrite length_app. cbn [length]. lia.
Qed.

(** [OP_CHECKSIG] before tapscript. *)
Lemma exec_checksig pre sig pubkey mm st :
  v = Base \/ v = WitnessV0 ->
  is_executing st = true -> (es_op_count st < MAX_OPS_PER_SCRIPT)%nat ->
  es_stack st = mk_stack (pre ++ [sig; pubkey]) mm -> (height st <= MAX_STACK_SIZE)%nat ->
  match eval_checksig_pre_tapscript sig pubkey script (es_begincode st) flags v with
  | Ok b =>
      exists st', exec_instruction (Op (as_u8 OP_CHECKSIG)) script flags v st = Ok st' /\
        same_work (set_stack st (GS.push_bool (mk_stack pre mm) b)) st' /\
        es_exec_stack st' = es_exec_stack st
  | Err e => exec_instruction (Op (as_u8 OP_CHECKSIG)) script flags v st = Err (CheckSig e)
  | Panic => exec_instruction (Op (as_u8 OP_CHECKSIG)) script flags v st = Panic
  end.
Proof.
  intros Hv He Hroom Hs Hh. unfold exec_instruction. cbv zeta.
  change (is_executing (set_pc _ _)) with (is_executing st). rewrite He. cbn [orb negb dispatch].
  destruct (count_op_room v (as_u8 OP_CHECKSIG) (set_pc st (es_pc st + step (Op (as_u8 OP_CHECKSIG)))))
    as (n & -> & Hn); [done |].
  rbind. rewrite from_as_u8. cbn [ok_or]. rbind. cbn [exec_opcode]. unfold next, op_checksig.
  change (es_stack (set_op_count _ _)) with (es_stack st).
  change (es_begincode (set_op_count _ _)) with (es_begincode st).
  rewrite Hs. change [sig; pubkey] with ([sig] ++ [pubkey]).
  rewrite (assoc_L (++)), pop_snoc. cbn [map_err]. rbind. rewrite pop_snoc. cbn [map_err]. rbind.
  assert (handle_checksig sig pubkey script (es_begincode st)
    (es_exec_data (set_op_count (set_pc st (es_pc st + step (Op (as_u8 OP_CHECKSIG)))) n)) flags v
    = success ← eval_checksig_pre_tapscript sig pubkey script (es_begincode st) flags v;
      Ok (success, es_exec_data st)) as -> by (by destruct Hv as [-> | ->]).
  destruct (eval_checksig_pre_tapscript _ _ _ _ _ _) as [b | e |]; cbn [map_err]; rbind; [| done | done].
  cbn [map_err]. rbind. rewrite bool_decide_eq_true_2 by done. rbind.
  rewrite reject_if_false. { rbind. by eexists; split_and!. }
  btest. unfold height, GS.len in *. rewrite Hs in Hh.
  cbn [es_stack es_alt_stack set_exec_data set_stack set_op_count set_pc set_opcode_pos data] in *.
  rewrite length_app in Hh. cbn [length] in Hh.
  destruct b; cbn [GS.push_bool GS.push GS.set_data data]; rewrite length_app; cbn [length]; lia.
Qed.

End p2pkh.

(** [at_stack st0 st s k]: from [st0], at most [k] counted opcodes later, with
    the stack [s] and nothing else changed. *)
Record at_stack (st0 st : EvalState) (s : Stack) (k : nat) : Prop := {
  at_work : same_work (set_stack st0 s) st;
  at_exec : es_exec_stack st = es_exec_stack st0;
  at_ops : (es_op_count st <= es_op_count st0 + k)%nat;
}.

Section straight_line.
Context `{!ScriptApi} `{!HashApi} `{!KeyApi, !SignatureChecker}.
Context (script : bytes) (flags : Z) (v : SigVersion) (st0 : EvalState).
Hypothesis (Hexec : is_executing st0 = true).

Lemma at_executing st s k : at_stack st0 st s k -> is_executing st = true.
Proof. intros [_ Hx _]. unfold is_executing in *. by rewrite Hx. Qed.

Lemma at_stack_eq st s k : at_stack st0 st s k -> es_stack st = s.
Proof. by intros [[] _ _]. Qed.

Lemma at_next st st' s s' k n :
  at_stack st0 st s k -> same_work (set_stack st s') st' ->
  es_exec_stack st' = es_exec_stack st -> (es_op_count st' <= es_op_count st + n)%nat ->
  at_stack st0 st' s' (k + n).
Proof.
  intros [[] He Ho] [] He' Ho'. cbn in *. split; [| congruence | lia].
  constructor; cbn; congruence.
Qed.

Lemma at_op opcode f st s k :
  (forall st0, exec_opcode opcode (as_u8 opcode) script flags v true st0 = on_stack f st0) ->
  at_stack st0 st s k -> (es_op_count st0 + k < MAX_OPS_PER_SCRIPT)%nat ->
  match f s with
  | Ok s' =>
      (GS.len s' + GS.len (es_alt_stack st0) <= MAX_STACK_SIZE)%nat ->
      exists st', exec_instruction (Op (as_u8 opcode)) script flags v st = Ok st' /\
        at_stack st0 st' s' (k + 1)
  | Err e => exec_instruction (Op (as_u8 opcode)) script flags v st = Err e
  | Panic => exec_instruction (Op (as_u8 opcode)) script flags v st = Panic
  end.
Proof.
  intros Hf Hat Hops.
  pose proof (exec_stack_opcode script flags v opcode f st Hf (at_executing _ _ _ Hat)) as Hx.
  rewrite (at_stack_eq _ _ _ Hat) in Hx. pose proof (at_ops _ _ _ _ Hat).
  destruct (f s) as [s' | e |]; [| apply Hx; lia..]. intros Hlen.
  destruct Hx as (st' & -> & Hw & He & Ho); [lia | |].
  - destruct Hat as [[_ Ha _ _] _ _]. cbn in Ha. by rewrite Ha.
  - exists st'. split; [done |]. by eapply at_next.
Qed.

Lemma at_push d st s k :
  at_stack st0 st s k -> (length d <= MAX_SCRIPT_ELEMENT_SIZE)%nat ->
  (GS.len s + GS.len (es_alt_stack st0) < MAX_STACK_SIZE)%nat ->
  exists st', exec_instruction (PushBytes d) script flags v st = Ok st' /\
    at_stack st0 st' (GS.push s d) (k + 0).
Proof.
  intros Hat Hd Hlen.
  destruct (exec_push script flags v d st (at_executing _ _ _ Hat) Hd) as (st' & -> & Hw & He & Ho).
  - destruct Hat as [[Hs Ha _ _] _ _]. cbn in Hs, Ha. unfold height. by rewrite Hs, Ha.
  - exists st'. split; [done |]. rewrite (at_stack_eq _ _ _ Hat) in Hw.
    eapply at_next; [done.. | lia].
Qed.
End straight_line.

(** What the pay-to-public-key-hash template computes. *)
Definition p2pkh_result `{!ScriptApi} `{!HashApi} `{!KeyApi, !SignatureChecker}
    (sig pubkey h : bytes) (flags : Z) (v : SigVersion) : res Error bool :=
  if bool_decide (hash160 pubkey = h) then
    map_err CheckSig (eval_checksig_pre_tapscript sig pubkey (p2wpkh_script h) 0 flags v)
  else Err (Verify (as_u8 OP_EQUALVERIFY)).

Section p2pkh_template.
Context `{!ScriptApi, !ScriptLaws} `{!HashApi} `{!KeyApi, !SignatureChecker}.
Context (pre : list bytes) (sig pubkey h : bytes) (mm : bool) (flags : Z) (v : SigVersion)
  (d : ScriptExecutionData).
Hypothesis (Hv : v = Base \/ v = WitnessV0) (Hh : length h = 20%nat).
Hypothesis (Hpre : (length pre + 4 <= MAX_STACK_SIZE)%nat).

Let script := p2wpkh_script h.
Let st0 := initial_state (mk_stack (pre ++ [sig; pubkey]) mm) flags d.

(** [OP_DUP OP_HASH160 <h>]. *)
Lemma p2pkh_hash i1 i2 i3 l :
  exists st, at_stack st0 st (mk_stack (pre ++ [sig; pubkey; hash160 pubkey; h]) mm) 2 /\
    run (inr (i1, Op 0x76) :: inr (i2, Op 0xa9) :: inr (i3, PushBytes h) :: l) script flags v st0
    = run l script flags v st.
Proof.
  unfold MAX_STACK_SIZE in Hpre. cbn [run].
  change 0x76 with (as_u8 OP_DUP). change 0xa9 with (as_u8 OP_HASH160).
  pose proof (at_op script flags v st0 eq_refl OP_DUP (op_stack OP_DUP) st0 (es_stack st0) 0
                (fun _ => eq_refl)) as K.
  specialize (K ltac:(constructor; [by constructor | done | lia])).
  cbn [op_stack es_stack st0 initial_state] in K.
  change [sig; pubkey] with ([sig] ++ [pubkey]) in K. rewrite (assoc_L (++)), dup_spec in K by done.
  destruct K as (st1 & -> & A1); [vm_compute; lia | |].
  { unfold GS.len, MAX_STACK_SIZE. cbn [data]. rewrite !length_app. cbn. lia. }
  rbind. pose proof (at_op script flags v st0 eq_refl OP_HASH160 (op_hash OP_HASH160) st1 _ _
                       (fun _ => eq_refl) A1) as K.
  unfold op_hash in K. rewrite (assoc_L (++)), pop_snoc in K.
  destruct K as (st2 & -> & A2); [vm_compute; lia | |].
  { unfold GS.len, MAX_STACK_SIZE. cbn [data GS.push GS.set_data]. rewrite !length_app. cbn. lia. }
  rbind. destruct (at_push script flags v st0 eq_refl h st2 _ _ A2) as (st3 & -> & A3).
  { unfold MAX_SCRIPT_ELEMENT_SIZE. lia. }
  { unfold MAX_STACK_SIZE, GS.len. cbn [data GS.push GS.set_data]. rewrite !length_app. cbn. lia. }
  exists st3. split; [| done].
  unfold GS.push, GS.set_data in A3. cbn [data minimaldata] in A3. by rewrite <- !(assoc_L (++)) in A3.
Qed.

(** [OP_EQUALVERIFY]. *)
Lemma p2pkh_equalverify st :
  at_stack st0 st (mk_stack (pre ++ [sig; pubkey; hash160 pubkey; h]) mm) 2 ->
  if bool_decide (hash160 pubkey = h) then
    exists st', exec_instruction (Op 0x88) script flags v st = Ok st' /\
      at_stack st0 st' (mk_stack (pre ++ [sig; pubkey]) mm) 3
  else exec_instruction (Op 0x88) script flags v st = Err (Verify 0x88).
Proof.
  intros A3. unfold MAX_STACK_SIZE in Hpre.
  pose proof (at_op script flags v st0 eq_refl OP_EQUALVERIFY (op_equal OP_EQUALVERIFY 0x88) st _ _
                (fun _ => eq_refl) A3) as K.
  change [sig; pubkey; hash160 pubkey; h] with ([sig; pubkey] ++ [hash160 pubkey] ++ [h]) in K.
  unfold op_equal in K. rewrite 2!(assoc_L (++)), pop_snoc in K.
  cbn [map_err mbind res_bind] in K. rewrite pop_snoc in K.
  cbn [map_err mbind res_bind] in K. rewrite (bool_decide_eq_false_2 (OP_EQUALVERIFY = OP_EQUAL)) in K by done.
  cbv zeta in K.
  destruct (decide (hash160 pubkey = h)) as [Heq | Hne].
  - rewrite bool_decide_eq_true_2 in K by done. rewrite bool_decide_eq_true_2 by done.
    destruct K as (st' & K & A4); [vm_compute; lia | | by exists st'].
    unfold GS.len, MAX_STACK_SIZE. cbn [data]. rewrite length_app. cbn. lia.
  - rewrite bool_decide_eq_false_2 in K by done. rewrite bool_decide_eq_false_2 by done. apply K. vm_compute. lia.
Qed.

Lemma peek_push_bool s b : GS.is_empty (GS.push_bool s b) = false /\
  GS.peek_bool (GS.push_bool s b) = Ok b.
Proof.
  unfold GS.is_empty, GS.peek_bool, GS.last.
  destruct b; cbn [GS.push_bool GS.push GS.set_data data]; rewrite last_snoc;
    (split; [| done]); by destruct (data s).
Qed.

Lemma eval_p2pkh :
  eval_script (mk_stack (pre ++ [sig; pubkey]) mm) script flags v d =
  b ← p2pkh_result sig pubkey h flags v; Ok (b, GS.push_bool (mk_stack pre mm) b, d).
Proof.
  unfold eval_script. rewrite reject_if_false by (destruct Hv as [-> | ->]; done).
  rbind. destruct (parse_p2pkh h (script_instructions (p2wpkh_script h) flags)) as
    (i1 & i2 & i3 & i4 & i5 & Hl); [done | apply script_instructions_cases |].
  fold script in Hl. rewrite Hl. fold st0.
  destruct (p2pkh_hash i1 i2 i3 [inr (i4, Op 0x88); inr (i5, Op 0xac)]) as (st3 & A3 & ->).
  cbn [run]. pose proof (p2pkh_equalverify st3 A3) as K. unfold p2pkh_result.
  destruct (bool_decide (hash160 pubkey = h)); [| by rewrite K].
  destruct K as (st4 & -> & A4). rbind. pose proof (at_stack_eq _ _ _ _ A4) as S4.
  pose proof (exec_checksig script flags v pre sig pubkey mm st4 Hv
                (at_executing st0 eq_refl _ _ _ A4)) as K.
  destruct A4 as [[_ Ha Hb Hd] X4 O4]. cbn in Ha, Hb, Hd, X4, O4. rewrite Hb in K.
  assert (O4' : (es_op_count st4 < MAX_OPS_PER_SCRIPT)%nat) by (unfold MAX_OPS_PER_SCRIPT; lia).
  assert (L4 : (height st4 <= MAX_STACK_SIZE)%nat).
  { unfold MAX_STACK_SIZE in *. unfold height, GS.len. rewrite S4, Ha. cbn [data].
    rewrite length_app. cbn. lia. }
  specialize (K O4' S4 L4). change 0xac with (as_u8 OP_CHECKSIG).
  destruct (eval_checksig_pre_tapscript _ _ _ _ _ _) as [b | e |]; [| by rewrite K..].
  destruct K as (st5 & -> & [S5 _ _ D5] & X5). rbind. cbn [map_err]. rbind.
  rewrite X5, X4. cbn [reject_if]. rbind. rewrite S5, D5. cbn [es_stack es_exec_data set_stack].
  destruct (peek_push_bool (mk_stack pre mm) b) as [-> ->]. by rewrite Hd.
Qed.
End p2pkh_template.

Section segwit.
Context `{!ScriptApi, !ScriptLaws} `{!HashApi} `{!KeyApi, !SignatureChecker}.

Lemma checksig_v0_true sig pubkey script flags :
  eval_checksig_pre_tapscript sig pubkey script 0 flags WitnessV0 = Ok true <->
  check_signature_encoding sig flags = Ok tt /\
  check_pubkey_encoding pubkey flags WitnessV0 = Ok tt /\
  check_ecdsa_signature (E := CheckSigError) sig pubkey script WitnessV0 = Ok true.
Proof.
  unfold eval_checksig_pre_tapscript. rewrite slice_from_le by lia. rbind. rewrite drop_0.
  rewrite (bool_decide_eq_false_2 (WitnessV0 = Base)) by done. rbind.
  destruct (check_signature_encoding sig flags) as [[] | |]; rbind; [| naive_solver..].
  destruct (check_pubkey_encoding pubkey flags WitnessV0) as [[] | |]; rbind; [| naive_solver..].
  destruct (check_ecdsa_signature _ _ _ _) as [[] | |]; rbind; [naive_solver | | naive_solver..].
  destruct (_ && _); naive_solver.
Qed.

(** a native or nested pay-to-witness-public-key-hash output is spent
    exactly by a witness of two elements, a signature and a public key of at
    most 520 bytes each, where the key hashes to the program and signature
    and key pass the encoding rules and verify for the implied script code;
    a witness of any other size is a program mismatch. *)
Lemma p2wpkh_spend (witness : list bytes) (sig pubkey h : bytes) (flags : Z) (nested : bool) :
  length h = 20%nat ->
  (verify_witness_program [sig; pubkey] {| wp_version := 0; wp_program := h |} flags nested
     = Ok tt <->
   (length sig <= MAX_SCRIPT_ELEMENT_SIZE)%nat /\ (length pubkey <= MAX_SCRIPT_ELEMENT_SIZE)%nat /\
   hash160 pubkey = h /\
   check_signature_encoding sig flags = Ok tt /\
   check_pubkey_encoding pubkey flags WitnessV0 = Ok tt /\
   check_ecdsa_signature (E := CheckSigError) sig pubkey (p2wpkh_script h) WitnessV0 = Ok true) /\
  (length witness <> 2%nat ->
   verify_witness_program witness {| wp_version := 0; wp_program := h |} flags nested
     = Err WitnessProgramMismatch).
Proof.
  intros Hh. unfold verify_witness_program, verify_witness_v0. cbv zeta. cbn [wp_version wp_program].
  change (0 =? 0) with true. cbv iota. rewrite Hh.
  change (20 =? WITNESS_V0_SCRIPTHASH_SIZE)%nat with false.
  change (20 =? WITNESS_V0_KEYHASH_SIZE)%nat with true. cbv iota. split.
  - cbn [GS.len GS.with_data data length Nat.eqb negb reject_if]. rbind.
    unfold execute_witness_script. cbv zeta. rewrite bool_decide_eq_false_2 by done. rbind.
    rewrite <- checksig_v0_true. cbn [GS.new data existsb].
    destruct (Nat.ltb_spec MAX_SCRIPT_ELEMENT_SIZE (length sig)); cbn [orb reject_if]; rbind.
    { split; [done | lia]. }
    destruct (Nat.ltb_spec MAX_SCRIPT_ELEMENT_SIZE (length pubkey)); cbn [orb reject_if]; rbind.
    { split; [done | lia]. }
    unfold GS.new. change [sig; pubkey] with ([] ++ [sig; pubkey]).
    rewrite (eval_p2pkh [] sig pubkey h true flags WitnessV0 default_exec_data (or_intror eq_refl) Hh)
      by (unfold MAX_STACK_SIZE; cbn; lia).
    unfold p2pkh_result. case_bool_decide as Hk; [| rbind; naive_solver].
    destruct (eval_checksig_pre_tapscript _ _ _ _ _ _) as [[] | |]; vm_compute; naive_solver.
  - intros Hw. change (GS.len (GS.with_data witness)) with (length witness).
    by rewrite (proj2 (Nat.eqb_neq _ _) Hw).
Qed.
End segwit.

(** ** Taproot as written *)

Section taproot.
Context `{!ScriptApi} `{!HashApi} `{!KeyApi, !SignatureChecker}.

(** the first instruction decides a tapscript.  A push makes it fail with
    [BadOpcode]; an opcode in the range the source treats as OP_SUCCESSx
    (0x50 and 0x7b to 0xb9, which includes OP_CHECKSIG, OP_ADD and
    OP_EQUAL) makes it succeed for every witness stack, unless the
    DISCOURAGE_OP_SUCCESS flag is set.  No signature is checked. *)
Lemma tapscript_first_instruction (span : list bytes) (script : bytes) (flags : Z)
    (d : ScriptExecutionData) (i : Instruction) (rest : list (ExtError + Instruction)) :
  instructions script = inr i :: rest ->
  match i with
  | PushBytes _ => execute_witness_script span script flags Tapscript d = Err BadOpcode
  | Op op =>
      op = 0x50 \/ 0x7b <= op <= 0xb9 ->
      execute_witness_script span script flags Tapscript d =
        if intersects flags VerifyFlags.DISCOURAGE_OP_SUCCESS then Err DiscourageOpSuccess
        else Ok tt
  end.
Proof.
  intros Hi. unfold execute_witness_script. cbv zeta.
  rewrite bool_decide_eq_true_2, Hi by done. destruct i as [b | op]; [done |]. intros Hop.
  cbn [scan_op_success]. unfold is_op_success.
  assert ((op =? 0x50) || ((0x7b <=? op) && (op <=? 0xb9)) = true) as ->.
  { destruct Hop as [-> | Hop]; [done |]. rewrite orb_true_iff. right. btest. }
  by destruct (intersects _ _).
Qed.

(** the taproot key path accepts any signature it can parse: whatever
    verdict the checker returns, the spend succeeds; it fails only when the
    signature, the key or the signature hash cannot be computed. *)
Lemma key_path_ignores_verdict (s : Stack) (sig program : bytes) (d : ScriptExecutionData)
    (psig : schnorr_signature) (pkey : xonly_public_key) (verdict : bool) :
  GS.last s = Ok sig -> schnorr_from_slice sig = inr psig -> xonly_from_slice program = inr pkey ->
  sc_check_schnorr_signature psig pkey Taproot d = Ok verdict ->
  verify_key_path s program d = Ok tt.
Proof.
  intros Hs Hp Hk Hc. unfold verify_key_path. rewrite Hs. rcbn. rewrite Hp. cbn [of_sum map_err].
  rbind. rewrite Hk. cbn [of_sum map_err]. rbind. by rewrite Hc.
Qed.

(** a script path spend whose control block starts with 0x50 or 0x51
    panics: the leaf version 0x50 is not a valid [LeafVersion], and the
    conversion is an [expect]. *)
Lemma leaf_version_panic (witness : list bytes) (s : Stack) (control script program : bytes)
    (flags : Z) (d : ScriptExecutionData) (pre : list bytes) (c0 : Z) (c : bytes) :
  leaf_version_from_consensus TAPROOT_ANNEX_PREFIX = None ->
  data s = pre ++ [script; control] -> control = c0 :: c -> c0 = 0x50 \/ c0 = 0x51 ->
  wrong_control_size control = false ->
  verify_script_path witness s program flags d = Panic.
Proof.
  intros Hlaw Hs -> Hc0 Hsize. unfold verify_script_path. destruct s as [l m]. cbn [data] in Hs. subst l.
  change [script; c0 :: c] with ([script] ++ [c0 :: c]). rewrite (assoc_L (++)), pop_snoc.
  cbn [map_err]. rbind. rewrite pop_snoc. cbn [map_err]. rbind.
  rewrite Hsize. cbn [reject_if]. rbind.
  assert (Z.land c0 TAPROOT_LEAF_MASK = TAPROOT_ANNEX_PREFIX) as Hleaf by (by destruct Hc0 as [-> | ->]).
  cbv zeta. change (index (c0 :: c) 0) with (Ok (E := Error) c0). rbind. by rewrite Hleaf, Hlaw.
Qed.
End taproot.

Import (hints) Sample.


(** The toy signature of a key is the key followed by a hash type. *)
Lemma p2wpkh_spend_witness :
  verify_witness_program [[2; 1]; [2]] {| wp_version := 0; wp_program := hash160 [2] |} 0 false = Ok tt.
Proof.
  assert (Hh : length (hash160 [2]) = 20%nat) by (vm_compute; reflexivity).
  refine (proj2 (proj1 (p2wpkh_spend [] [2; 1] [2] (hash160 [2]) 0 false Hh)) _).
  split_and!; try reflexivity; vm_compute; lia.
Defined.

(** [OP_CHECKSIG] on its own, with an empty witness stack. *)
Lemma tapscript_first_instruction_witness :
  execute_witness_script [] [0xac] 0 Tapscript default_exec_data = Ok tt.
Proof.
  assert (Hi : instructions [0xac] = [inr (Op 0xac)]) by reflexivity.
  refine (tapscript_first_instruction [] [0xac] 0 default_exec_data (Op 0xac) [] Hi _).
  right. lia.
Defined.

(** The sample checker rejects this signature. *)
Lemma key_path_ignores_verdict_witness :
  verify_key_path (mk_stack [[1]] false) [2] default_exec_data = Ok tt.
Proof.
  apply (key_path_ignores_verdict (mk_stack [[1]] false) [1] [2] default_exec_data
           ([1] : @schnorr_signature Sample.key_api) ([2] : @xonly_public_key Sample.key_api) false);
    reflexivity.
Defined.

Lemma leaf_version_panic_witness :
  verify_script_path [] (mk_stack [[0x51]; 0x51 :: replicate 32 7] false) (replicate 32 9) 0
    default_exec_data = Panic.
Proof.
  apply (leaf_version_panic [] (mk_stack [[0x51]; 0x51 :: replicate 32 7] false)
           (0x51 :: replicate 32 7) [0x51] (replicate 32 9) 0 default_exec_data [] 0x51 (replicate 32 7));
    try reflexivity. by right.
Defined.
