(* ===== verification/Bitcoin.v ===== *)
(** * Transactions and blocks

    The rust-bitcoin data types the consensus code works on: plain records.  A
    hash is its 32 bytes; amounts, versions, sequence numbers and lock times
    are the integers of their consensus encoding. *)

From Stdlib Require Import ZArith Lia.
From stdpp Require Import prelude countable.
From S2P Require Import Prelude.

(** [bitcoin::OutPoint]. *)
Record OutPoint := mk_outpoint {
  op_txid : bytes;
  op_vout : Z;
}.

(** [bitcoin::TxIn]. *)
Record TxIn := mk_txin {
  previous_output : OutPoint;
  script_sig : bytes;
  sequence : Z;
  txin_witness : list bytes;
}.

(** [bitcoin::TxOut]. *)
Record TxOut := mk_txout {
  value : Z;
  script_pubkey : bytes;
}.

(** [bitcoin::Transaction]. *)
Record Transaction := mk_tx {
  tx_version : Z;
  tx_lock_time : Z;
  tx_input : list TxIn;
  tx_output : list TxOut;
}.

(** [bitcoin::block::Header] and [bitcoin::Block]; [bits] is the compact
    target. *)
Record Header := mk_header {
  header_version : Z;
  prev_blockhash : bytes;
  merkle_root : bytes;
  header_time : Z;
  bits : Z;
  nonce : Z;
}.

Record Block := mk_block {
  block_header : Header;
  txdata : list Transaction;
}.

(** [bitcoin::absolute::LockTime]; a transaction holds it by its consensus
    value. *)
Inductive AbsoluteLockTime :=
| AbsBlocks (h : Z)
| AbsSeconds (t : Z).

#[export] Instance OutPoint_eq_dec : EqDecision OutPoint.
Proof. solve_decision. Defined.
#[export] Instance TxIn_eq_dec : EqDecision TxIn.
Proof. solve_decision. Defined.
#[export] Instance TxOut_eq_dec : EqDecision TxOut.
Proof. solve_decision. Defined.
#[export] Instance Transaction_eq_dec : EqDecision Transaction.
Proof. solve_decision. Defined.

#[export] Instance OutPoint_countable : Countable OutPoint.
Proof.
  refine (inj_countable' (fun o => (op_txid o, op_vout o)) (fun '(t, v) => mk_outpoint t v) _).
  by intros [].
Defined.

(** [OutPoint::null]: the zero hash and [u32::MAX]. *)
Definition null_outpoint : OutPoint := mk_outpoint (replicate 32 0) u32_max.

Definition is_null (o : OutPoint) : bool := bool_decide (o = null_outpoint).

(** [Transaction::is_coinbase]: one input, with the null outpoint. *)
Definition is_coinbase (tx : Transaction) : bool :=
  match tx_input tx with
  | [i] => is_null (previous_output i)
  | _ => false
  end.

(** ** rust-bitcoin *)

(** The parts of rust-bitcoin that compute on transactions. *)
Class TxApi := {
  (** [Transaction::compute_txid]. *)
  compute_txid : Transaction -> bytes;
  (** [Transaction::base_size], the size without witness data. *)
  base_size : Transaction -> Z;
  (** [Script::count_sigops_legacy]. *)
  count_sigops_legacy : bytes -> Z;
  (** [Transaction::total_sigop_cost], which looks up spent outputs. *)
  total_sigop_cost : Transaction -> (OutPoint -> option TxOut) -> Z;
  (** [absolute::LockTime::from_consensus], [Height::from_consensus] and
      [Time::from_consensus]. *)
  lock_time_from_consensus : Z -> AbsoluteLockTime;
  height_from_consensus : Z -> option Z;
  time_from_consensus : Z -> option Z;
}.

(** [LOCK_TIME_THRESHOLD]: heights are below it, timestamps are not. *)
Definition LOCK_TIME_THRESHOLD : Z := 500000000.

(** What rust-bitcoin documents of these: ids do not depend on witness data, a
    lock time is a height exactly below the threshold, sizes and counts are not
    negative. *)
Definition without_witness (tx : Transaction) : Transaction :=
  mk_tx (tx_version tx) (tx_lock_time tx)
    (map (fun i => mk_txin (previous_output i) (script_sig i) (sequence i) []) (tx_input tx))
    (tx_output tx).

Class TxLaws `{TxApi} : Prop := {
  compute_txid_witness tx tx' :
    without_witness tx = without_witness tx' -> compute_txid tx = compute_txid tx';
  lock_time_threshold n :
    lock_time_from_consensus n = if n <? LOCK_TIME_THRESHOLD then AbsBlocks n else AbsSeconds n;
  height_threshold n :
    height_from_consensus n = if n <? LOCK_TIME_THRESHOLD then Some n else None;
  time_threshold n :
    time_from_consensus n = if n <? LOCK_TIME_THRESHOLD then None else Some n;
}.

(** A concrete instance: ids spell out the transaction without its witnesses;
    sizes and signature operations are simple counts. *)
Module SampleTx.
Definition txid (tx : Transaction) : bytes :=
  tx_version tx :: tx_lock_time tx ::
  concat (map (fun i => op_vout (previous_output i) :: sequence i :: op_txid (previous_output i)
                        ++ script_sig i) (tx_input tx)) ++
  concat (map (fun o => value o :: script_pubkey o) (tx_output tx)).

Definition tx_api : TxApi := {|
  compute_txid := txid;
  base_size tx := 10 + 40 * Z.of_nat (length (tx_input tx)) + 9 * Z.of_nat (length (tx_output tx));
  count_sigops_legacy s := Z.of_nat (length (filter (fun b => b = 0xac) s));
  total_sigop_cost tx _ := 4 * Z.of_nat (length (tx_input tx));
  lock_time_from_consensus n := if n <? LOCK_TIME_THRESHOLD then AbsBlocks n else AbsSeconds n;
  height_from_consensus n := if n <? LOCK_TIME_THRESHOLD then Some n else None;
  time_from_consensus n := if n <? LOCK_TIME_THRESHOLD then None else Some n;
|}.
#[export] Existing Instance tx_api.

#[export] Instance tx_laws : TxLaws.
Proof.
  split; try done. intros tx tx' H. cbn. unfold txid. unfold without_witness in H.
  injection H as Hv Hl Hi Ho. rewrite Hv, Hl, Ho. f_equal. f_equal. f_equal. f_equal.
  apply (f_equal (map (fun i => op_vout (previous_output i) :: sequence i ::
    op_txid (previous_output i) ++ script_sig i))) in Hi.
  by rewrite !map_map in Hi.
Qed.
End SampleTx.
