(* ===== verification/Runtime.v ===== *)
(** * Runtime primitives ([crates/subcoin-runtime-primitives/src/lib.rs])

    The data the runtime shares with the node: coins, transaction ids in the
    byte order the runtime stores, out points, and the block subsidy.  The
    theorem on the subsidy bounds the money supply. *)

From Stdlib Require Import ZArith Lia.
From stdpp Require Import prelude countable.
From S2P Require Import Prelude Bitcoin.

(** ** Constants *)

Definition COIN : Z := 100000000.
Definition INITIAL_SUBSIDY : Z := 50 * COIN.
Definition HALVING_INTERVAL : Z := 210000.

(** ** Coins and out points *)

Record Coin := mk_coin {
  coin_is_coinbase : bool;
  coin_amount : Z;
  coin_height : Z;
  coin_script_pubkey : bytes;
}.

#[export] Instance Coin_eq_dec : EqDecision Coin.
Proof. solve_decision. Defined.

Module Runtime.

(** A transaction id as the runtime stores it: the bytes in reverse order. *)
Record Txid := mk_txid { h256 : bytes }.

Definition txid_from (txid : bytes) : Txid := mk_txid (reverse txid).
Definition txid_into (t : Txid) : bytes := reverse (h256 t).

Record OutPoint := mk_out_point {
  txid : Txid;
  vout : Z;
}.

Definition out_point_from (o : Bitcoin.OutPoint) : OutPoint :=
  mk_out_point (txid_from (op_txid o)) (op_vout o).
Definition out_point_into (o : OutPoint) : Bitcoin.OutPoint :=
  mk_outpoint (txid_into (txid o)) (vout o).

#[global] Instance Txid_eq_dec : EqDecision Txid.
Proof. solve_decision. Defined.
#[global] Instance OutPoint_eq_dec : EqDecision OutPoint.
Proof. solve_decision. Defined.
#[global] Instance OutPoint_countable : Countable OutPoint.
Proof.
  refine (inj_countable' (fun o => (h256 (txid o), vout o))
            (fun '(t, v) => mk_out_point (mk_txid t) v) _).
  by intros [[] ?].
Defined.

Lemma out_point_into_from (o : Bitcoin.OutPoint) : out_point_into (out_point_from o) = o.
Proof.
  destruct o. unfold out_point_into, out_point_from, txid_into, txid_from. cbn -[reverse].
  by rewrite reverse_involutive.
Qed.

Lemma out_point_from_into (o : OutPoint) : out_point_from (out_point_into o) = o.
Proof.
  destruct o as [[] ?]. unfold out_point_into, out_point_from, txid_into, txid_from. cbn -[reverse].
  by rewrite reverse_involutive.
Qed.

#[global] Instance out_point_from_inj : Inj (=) (=) out_point_from.
Proof. intros o o' H. rewrite <- (out_point_into_from o), H. apply out_point_into_from. Qed.

End Runtime.

(** ** The subsidy *)

Definition block_subsidy (height subsidy_halving_interval : Z) : Z :=
  let halvings := height / subsidy_halving_interval in
  if 64 <=? halvings then 0 else Z.shiftr INITIAL_SUBSIDY halvings.

Definition bitcoin_block_subsidy (height : Z) : Z := block_subsidy height HALVING_INTERVAL.

(** ** The money supply *)

Lemma bitcoin_block_subsidy_bounds (height : Z) :
  0 <= height -> 0 <= bitcoin_block_subsidy height <= INITIAL_SUBSIDY.
Proof.
  intros Hh. unfold bitcoin_block_subsidy, block_subsidy.
  destruct (Z.leb_spec 64 (height / HALVING_INTERVAL)); [by vm_compute |].
  assert (0 <= height / HALVING_INTERVAL) by (apply Z.div_pos; [lia | by vm_compute]).
  rewrite Z.shiftr_div_pow2 by lia. unfold INITIAL_SUBSIDY, COIN.
  split; [apply Z.div_pos; lia |]. apply Z.div_le_upper_bound; [lia |]. nia.
Qed.

(** The subsidies of the first [n] blocks. *)
Fixpoint total_subsidy (n : nat) : Z :=
  match n with
  | O => 0
  | S n => total_subsidy n + bitcoin_block_subsidy (Z.of_nat n)
  end.

(** The subsidies of the first [k] halving periods. *)
Fixpoint epochs_subsidy (k : nat) : Z :=
  match k with
  | O => 0
  | S k => epochs_subsidy k + HALVING_INTERVAL * bitcoin_block_subsidy (HALVING_INTERVAL * Z.of_nat k)
  end.

Lemma bitcoin_block_subsidy_epoch (k i : Z) :
  0 <= i < HALVING_INTERVAL ->
  bitcoin_block_subsidy (HALVING_INTERVAL * k + i) = bitcoin_block_subsidy (HALVING_INTERVAL * k).
Proof.
  unfold bitcoin_block_subsidy, block_subsidy, HALVING_INTERVAL. intros Hi.
  replace ((210000 * k + i) / 210000) with k by zdm.
  by replace (210000 * k / 210000) with k by zdm.
Qed.

Lemma total_subsidy_epochs (k i : nat) :
  Z.of_nat i <= HALVING_INTERVAL ->
  forall n, Z.of_nat n = HALVING_INTERVAL * Z.of_nat k + Z.of_nat i ->
  total_subsidy n =
    epochs_subsidy k + Z.of_nat i * bitcoin_block_subsidy (HALVING_INTERVAL * Z.of_nat k).
Proof.
  revert i. induction k as [| k IHk]; intros i; induction i as [| i IHi]; intros Hi n Hn.
  - by replace n with O by lia.
  - destruct n as [| n]; [lia |]. cbn [total_subsidy]. rewrite (IHi ltac:(lia) n ltac:(lia)).
    replace (Z.of_nat n) with (HALVING_INTERVAL * Z.of_nat 0 + Z.of_nat i) by lia.
    rewrite bitcoin_block_subsidy_epoch by lia. lia.
  - rewrite (IHk (Z.to_nat HALVING_INTERVAL)); cbn [epochs_subsidy];
      unfold HALVING_INTERVAL in *; rewrite ?Z2Nat.id; lia.
  - destruct n as [| n]; [unfold HALVING_INTERVAL in *; lia |].
    cbn [total_subsidy]. rewrite (IHi ltac:(lia) n ltac:(lia)).
    replace (Z.of_nat n) with (HALVING_INTERVAL * Z.of_nat (S k) + Z.of_nat i) by lia.
    rewrite bitcoin_block_subsidy_epoch by lia. lia.
Qed.

Lemma epochs_subsidy_mono (j k : nat) : (j <= k)%nat -> epochs_subsidy j <= epochs_subsidy k.
Proof.
  induction 1 as [| k _ IH]; [done |]. cbn [epochs_subsidy].
  pose proof (bitcoin_block_subsidy_bounds (HALVING_INTERVAL * Z.of_nat k)).
  unfold HALVING_INTERVAL in *. lia.
Qed.

Lemma bitcoin_block_subsidy_end (k : nat) :
  (64 <= k)%nat -> bitcoin_block_subsidy (HALVING_INTERVAL * Z.of_nat k) = 0.
Proof.
  intros Hk. unfold bitcoin_block_subsidy, block_subsidy, HALVING_INTERVAL.
  replace (210000 * Z.of_nat k / 210000) with (Z.of_nat k) by zdm.
  destruct (Z.leb_spec 64 (Z.of_nat k)); lia.
Qed.

Lemma epochs_subsidy_end (k : nat) : (64 <= k)%nat -> epochs_subsidy k = epochs_subsidy 64.
Proof.
  induction 1 as [| k Hk IH]; [done |].
  change (epochs_subsidy (S k)) with
    (epochs_subsidy k + HALVING_INTERVAL * bitcoin_block_subsidy (HALVING_INTERVAL * Z.of_nat k)).
  rewrite IH, bitcoin_block_subsidy_end by done. lia.
Qed.

Lemma epochs_subsidy_bound (k : nat) : epochs_subsidy k <= 2099999997690000.
Proof.
  assert (H : epochs_subsidy 64 = 2099999997690000) by by vm_compute.
  rewrite <- H. destruct (Nat.le_ge_cases k 64).
  - by apply epochs_subsidy_mono.
  - by rewrite epochs_subsidy_end.
Qed.

Lemma total_subsidy_bound (n : nat) : 0 <= total_subsidy n <= 2099999997690000.
Proof.
  split.
  - induction n as [| n IH]; [done |]. cbn [total_subsidy].
    pose proof (bitcoin_block_subsidy_bounds (Z.of_nat n)). lia.
  - set (k := Z.to_nat (Z.of_nat n / HALVING_INTERVAL)).
    set (i := Z.to_nat (Z.of_nat n mod HALVING_INTERVAL)).
    assert (Hn : Z.of_nat n = HALVING_INTERVAL * Z.of_nat k + Z.of_nat i)
      by (unfold k, i; rewrite !Z2Nat.id by (unfold HALVING_INTERVAL; zdm); unfold HALVING_INTERVAL; zdm).
    assert (Hi : Z.of_nat i <= HALVING_INTERVAL)
      by (unfold i; rewrite !Z2Nat.id by (unfold HALVING_INTERVAL; zdm); unfold HALVING_INTERVAL; zdm).
    rewrite (total_subsidy_epochs k i Hi n Hn).
    pose proof (epochs_subsidy_bound (S k)) as Hb. cbn [epochs_subsidy] in Hb.
    pose proof (bitcoin_block_subsidy_bounds (HALVING_INTERVAL * Z.of_nat k)).
    unfold HALVING_INTERVAL in *. nia.
Qed.
