(* ===== verification/SigChecker.v ===== *)
(** * Signature checkers ([crates/subcoin-script/src/signature_checker.rs])

    The two implementations of the [SignatureChecker] trait: [NoSignatureCheck]
    and [TransactionSignatureChecker], with the removal of [OP_CODESEPARATOR]
    from the script a legacy signature commits to and the time lock checks. *)

From Stdlib Require Import ZArith Lia.
From stdpp Require Import prelude.
From S2P Require Import Prelude Opcode ScriptNum ScriptTypes Stack CheckSig Sample MultiSig Eval EvalFacts Bitcoin.

(** [bitcoin::relative::LockTime]. *)
Inductive RelativeLockTime :=
| RelBlocks (h : Z)
| RelTime (t : Z).

(** Lock times, signature hashes and signature verification of the bitcoin and
    secp256k1 crates. *)
Class SighashApi `{!KeyApi} := {
  absolute_from_consensus : Z -> AbsoluteLockTime;
  (** [Sequence::to_relative_lock_time], and [relative::LockTime::from_consensus]
      which goes through it. *)
  to_relative_lock_time : Z -> option RelativeLockTime;
  (** [SighashCache::legacy_signature_hash] on transaction, input and script. *)
  legacy_signature_hash : Transaction -> nat -> bytes -> Z -> ExtError + bytes;
  (** [segwit_v0_encode_signing_data_to] then the hash: fails on a bad input index. *)
  segwit_v0_signature_hash : Transaction -> nat -> bytes -> Z -> Z -> option bytes;
  (** [taproot_signature_hash] with [Prevouts::All]. *)
  taproot_signature_hash :
    Transaction -> nat -> list TxOut -> option bytes -> bytes -> Z -> schnorr_signature ->
    ExtError + bytes;
  (** [Annex::new] accepts the annex. *)
  annex_new : bytes -> bool;
  verify_ecdsa : bytes -> ecdsa_signature -> public_key -> bool;
  verify_schnorr : schnorr_signature -> bytes -> xonly_public_key -> bool;
}.

(** What the documentation of the lock time types states (BIP 65 and BIP 68). *)
Class LockTimeLaws `{SighashApi} : Prop := {
  absolute_threshold n :
    absolute_from_consensus n = if n <? 500000000 then AbsBlocks n else AbsSeconds n;
  relative_bits n :
    is_u32 n ->
    to_relative_lock_time n =
      if Z.testbit n 31 then None
      else if Z.testbit n 22 then Some (RelTime (n mod 65536))
      else Some (RelBlocks (n mod 65536));
}.

(** ** [remove_op_codeseparator] *)

Inductive BaseSighashScript :=
| Original (script : bytes)
| Sanitized (script : bytes).

Definition as_script (b : BaseSighashScript) : bytes :=
  match b with
  | Original script => script
  | Sanitized script => script
  end.

Section codeseparator.
Context `{!ScriptApi}.

(** [instructions().any(...)]: a parse error panics, unless a separator comes
    first. *)
Fixpoint has_code_separators {E} (l : list (ExtError + Instruction)) : res E bool :=
  match l with
  | [] => Ok false
  | inl _ :: _ => Panic
  | inr (Op op) :: l =>
      if op =? as_u8 OP_CODESEPARATOR then Ok true else has_code_separators l
  | inr (PushBytes _) :: l => has_code_separators l
  end.

(** The copying loop. *)
Fixpoint copy_instructions {E} (l : list (ExtError + nat * Instruction)) (original_bytes : bytes)
    (sanitized_script : bytes) (last_pos : nat) : res E (bytes * nat) :=
  match l with
  | [] => Ok (sanitized_script, last_pos)
  | inl _ :: _ => Panic
  | inr (pos, Op op) :: l =>
      if op =? as_u8 OP_CODESEPARATOR then
        copy_instructions l original_bytes sanitized_script (pos + 1)
      else
        b ← index original_bytes pos;
        copy_instructions l original_bytes (sanitized_script ++ [b]) (pos + 1)
  | inr (pos, PushBytes data) :: l =>
      let data_end := (pos + 1 + length data)%nat in
      bs ← slice original_bytes pos data_end;
      copy_instructions l original_bytes (sanitized_script ++ bs) data_end
  end.

Definition remove_op_codeseparator {E} (script : bytes) : res E BaseSighashScript :=
  found ← has_code_separators (instructions script);
  if negb found then Ok (Original script)
  else
    '(sanitized_script, last_pos) ← copy_instructions (instruction_indices script) script [] 0;
    rest ← slice_from script last_pos;
    Ok (Sanitized (sanitized_script ++ rest)).
End codeseparator.

(** ** The checkers *)

(** A checker that skips all signature checks. *)
Definition NoSignatureCheck `{!KeyApi} : SignatureChecker := {|
  sc_check_ecdsa_signature _ _ _ _ := Ok true;
  sc_check_schnorr_signature _ _ _ _ := Ok true;
  sc_check_lock_time _ := Some true;
  sc_check_sequence _ := Some true;
|}.

Definition UINT256_ONE : bytes := 1 :: replicate 31 0.
Definition SIGHASH_MASK : Z := 0x1f.
Definition SEQUENCE_FINAL : Z := u32_max.

Record TransactionSignatureChecker := mk_checker {
  ck_tx : Transaction;
  ck_input_index : nat;
  ck_input_amount : Z;
  ck_prev_outs : list TxOut;
}.

(** [TransactionSignatureChecker::new]. *)
Definition new_checker (tx : Transaction) (input_index : nat) (input_amount : Z)
    : TransactionSignatureChecker := {|
  ck_tx := tx;
  ck_input_index := input_index;
  ck_input_amount := input_amount;
  ck_prev_outs := [];
|}.

Section transaction_checker.
Context `{!ScriptApi} `{!KeyApi, !SighashApi}.
Implicit Types c : TransactionSignatureChecker.

(** The message of an ECDSA signature. *)
Definition ecdsa_message c (sig : EcdsaSignature) (script : bytes) (v : SigVersion)
    : res SignatureError bytes :=
  match v with
  | Base =>
      base_sighash_script ← remove_op_codeseparator script;
      if (Z.land (sighash_type sig) SIGHASH_MASK =? 3) &&
         (length (tx_output (ck_tx c)) <=? ck_input_index c)%nat
      then Ok UINT256_ONE
      else
        map_err EcdsaSignatureHash
          (of_sum (legacy_signature_hash (ck_tx c) (ck_input_index c)
                     (as_script base_sighash_script) (sighash_type sig)))
  | WitnessV0 =>
      expect (segwit_v0_signature_hash (ck_tx c) (ck_input_index c) script
                (ck_input_amount c) (sighash_type sig))
  | _ => Err InvalidSignatureVersion
  end.

Definition tx_check_ecdsa_signature c (sig : EcdsaSignature) (pk : public_key) (script : bytes)
    (v : SigVersion) : res SignatureError bool :=
  msg ← ecdsa_message c sig script v;
  Ok (verify_ecdsa msg (ecdsa_sig sig) pk).

Definition tx_check_schnorr_signature c (sig : schnorr_signature) (pk : xonly_public_key)
    (v : SigVersion) (exec_data : ScriptExecutionData) : res SignatureError bool :=
  reject_if (negb (bool_decide (v = Taproot \/ v = Tapscript))) InvalidSignatureVersion;;
  let last_codeseparator_pos :=
    if codeseparator_pos_init exec_data then Some (codeseparator_pos exec_data) else None in
  annex ←
    (match annex exec_data with
     | Some a => rassert (annex_new a);; Ok (Some a)
     | None => Ok None
     end);
  msg ← map_err TaprootSignatureHash
    (of_sum (taproot_signature_hash (ck_tx c) (ck_input_index c) (ck_prev_outs c) annex
               (tapleaf_hash exec_data) (default u32_max last_codeseparator_pos) sig));
  Ok (verify_schnorr sig msg pk).

(** [self.tx.input[self.input_index].sequence]: [None] when out of range. *)
Definition input_sequence c : option Z :=
  sequence <$> tx_input (ck_tx c) !! ck_input_index c.

Definition tx_check_lock_time c (lock_time : Z) : option bool :=
  if negb ((0 <=? lock_time) && (lock_time <=? u32_max)) then Some false
  else
    let comparable :=
      match absolute_from_consensus lock_time, absolute_from_consensus (tx_lock_time (ck_tx c)) with
      | AbsBlocks h1, AbsBlocks h2 => negb (h2 <? h1)
      | AbsSeconds t1, AbsSeconds t2 => negb (t2 <? t1)
      | AbsBlocks _, AbsSeconds _ => false
      | AbsSeconds _, AbsBlocks _ => false
      end in
    if negb comparable then Some false
    else
      seq ← input_sequence c;
      Some (negb (seq =? SEQUENCE_FINAL)).

Definition tx_check_sequence c (seq : Z) : option bool :=
  if tx_version (ck_tx c) <? 2 then Some false
  else
    input_seq ← input_sequence c;
    match to_relative_lock_time input_seq with
    | None => Some false
    | Some input_lock_time =>
        if negb ((0 <=? seq) && (seq <=? u32_max)) then Some false
        else
          match to_relative_lock_time seq with
          | None => Some false
          | Some lock_time =>
              Some match lock_time, input_lock_time with
                   | RelBlocks h1, RelBlocks h2 => negb (h2 <? h1)
                   | RelTime t1, RelTime t2 => negb (t2 <? t1)
                   | RelBlocks _, RelTime _ => false
                   | RelTime _, RelBlocks _ => false
                   end
          end
    end.

(** [impl SignatureChecker for TransactionSignatureChecker]. *)
Definition transaction_checker c : SignatureChecker := {|
  sc_check_ecdsa_signature := tx_check_ecdsa_signature c;
  sc_check_schnorr_signature := tx_check_schnorr_signature c;
  sc_check_lock_time := tx_check_lock_time c;
  sc_check_sequence := tx_check_sequence c;
|}.
End transaction_checker.

#[export] Instance no_signature_check_safe `{!KeyApi} : SafeChecker (H0 := NoSignatureCheck).
Proof. split; [done | by eexists | by eexists]. Qed.

(** ** Removal of separators *)

(** The encoding of an instruction whose push, if any, is a direct one. *)
Definition encode_direct (i : Instruction) : bytes :=
  match i with
  | Op op => [op]
  | PushBytes d => Z.of_nat (length d) :: d
  end.

Definition encode_script (l : list Instruction) : bytes := concat (map encode_direct l).

(** The instructions with their offsets, starting at [pos]. *)
Fixpoint with_offsets (pos : nat) (l : list Instruction) : list (ExtError + nat * Instruction) :=
  match l with
  | [] => []
  | i :: l => inr (pos, i) :: with_offsets (pos + length (encode_direct i)) l
  end.

Definition is_separator (i : Instruction) : bool :=
  match i with
  | Op op => op =? as_u8 OP_CODESEPARATOR
  | PushBytes _ => false
  end.

Lemma has_code_separators_spec {E} l :
  has_code_separators (E := E) (map inr l) = Ok (existsb is_separator l).
Proof.
  induction l as [| [d | op] l IH]; cbn [map has_code_separators existsb is_separator]; [done.. |].
  destruct (op =? _); [done | apply IH].
Qed.

Lemma copy_instructions_spec {E} pre l acc :
  exists last_pos, copy_instructions (E := E) (with_offsets (length pre) l) (pre ++ encode_script l) acc
      (length pre)
    = Ok (acc ++ encode_script (List.filter (fun i => negb (is_separator i)) l), last_pos) /\
    last_pos = length (pre ++ encode_script l).
Proof.
  revert pre acc. induction l as [| i l IH]; intros pre acc.
  - exists (length pre). cbn. by rewrite !app_nil_r.
  - cbn [with_offsets copy_instructions List.filter].
    assert (Hs : pre ++ encode_script (i :: l) = (pre ++ encode_direct i) ++ encode_script l)
      by (by rewrite <- (assoc_L (++))).
    rewrite Hs. rewrite <- length_app.
    destruct i as [d | op]; cbn [is_separator negb].
    + specialize (IH (pre ++ encode_direct (PushBytes d)) (acc ++ encode_direct (PushBytes d))).
      rewrite slice_le by (rewrite !length_app; cbn; lia). rbind.
      replace (length pre + 1 + length d)%nat with (length (pre ++ encode_direct (PushBytes d)))
        by (rewrite length_app; cbn; lia).
      replace (length (pre ++ encode_direct (PushBytes d)) - length pre)%nat
        with (length (encode_direct (PushBytes d))) by (rewrite length_app; lia).
      rewrite <- (assoc_L (++) pre), drop_app_length, take_app_length, (assoc_L (++) pre).
      destruct IH as (p & -> & Hp). exists p. split; [| done].
      unfold encode_script. cbn [map concat]. by rewrite (assoc_L (++)).
    + replace (length pre + 1)%nat with (length (pre ++ encode_direct (Op op)))
        by (rewrite length_app; done).
      destruct (op =? as_u8 OP_CODESEPARATOR).
      * apply (IH (pre ++ encode_direct (Op op)) acc).
      * assert (index (E := E) ((pre ++ encode_direct (Op op)) ++ encode_script l) (length pre) = Ok op) as ->.
        { apply index_Ok. rewrite <- (assoc_L (++)). by apply list_lookup_middle. }
        rbind. destruct (IH (pre ++ encode_direct (Op op)) (acc ++ [op])) as (p & -> & Hp).
        exists p. split; [| done]. unfold encode_script. cbn [negb map concat encode_direct].
        by rewrite <- (assoc_L (++)).
Qed.

Lemma filter_no_separator l :
  existsb is_separator l = false -> List.filter (fun i => negb (is_separator i)) l = l.
Proof.
  induction l as [| i l IH]; [done |]. cbn [existsb List.filter].
  intros [-> Hl]%orb_false_iff. cbn [negb]. by rewrite IH.
Qed.

(** the script a legacy signature commits to is the script code with its
    [OP_CODESEPARATOR]s removed and every other instruction kept, for a script
    whose pushes are all direct. *)
Lemma remove_op_codeseparator_spec `{!ScriptApi} (l : list Instruction) :
  instructions (encode_script l) = map inr l ->
  instruction_indices (encode_script l) = with_offsets 0 l ->
  exists b, remove_op_codeseparator (E := SignatureError) (encode_script l) = Ok b /\
    as_script b = encode_script (List.filter (fun i => negb (is_separator i)) l).
Proof.
  intros Hi Hx. unfold remove_op_codeseparator. rewrite Hi, has_code_separators_spec. rbind.
  destruct (existsb is_separator l) eqn:Hsep; cbn [negb].
  - rewrite Hx. destruct (copy_instructions_spec (E := SignatureError) [] l []) as (p & Hc & Hp).
    cbn [length app] in Hc, Hp. rewrite Hc. rbind.
    rewrite slice_from_le by lia. rbind. eexists. split; [done |]. cbn [as_script].
    by rewrite Hp, drop_all, app_nil_r.
  - eexists. split; [done |]. cbn [as_script]. by rewrite filter_no_separator.
Qed.

(** a legacy signature check panics on a script that does not parse to its
    end: when the instructions of the script code, none of them a separator,
    end in a parse error, the transaction checker panics for every signature
    and key, although the interpreter only reads the instructions it
    executes. *)
Lemma unparsable_script_panics `{!ScriptApi} `{!KeyApi, !SighashApi}
    (c : TransactionSignatureChecker) (sig : EcdsaSignature) (pk : public_key) (script : bytes)
    (l : list Instruction) (e : ExtError) (rest : list (ExtError + Instruction)) :
  instructions script = map inr l ++ inl e :: rest ->
  existsb is_separator l = false ->
  tx_check_ecdsa_signature c sig pk script Base = Panic.
Proof.
  intros Hi Hl. unfold tx_check_ecdsa_signature, ecdsa_message, remove_op_codeseparator. rewrite Hi.
  assert (has_code_separators (E := SignatureError) (map inr l ++ inl e :: rest) = Panic) as ->; [| done].
  clear Hi. induction l as [| [d | op] l IH]; [done | apply IH; exact Hl |].
  cbn [existsb is_separator] in Hl. apply orb_false_iff in Hl as [Hop Hl].
  cbn [map app has_code_separators]. rewrite Hop. by apply IH.
Qed.

(** ** Time locks *)

Definition LOCKTIME_THRESHOLD : Z := 500000000.

(** the time lock checks are BIP 65 and BIP 112.  For the input being
    checked, [check_lock_time] holds exactly when the operand fits 32 bits, is
    of the same kind as the transaction's lock time (height or time), does not
    exceed it, and the input is not final; [check_sequence] holds exactly when
    the transaction has version 2 or more, neither sequence number has the
    disable bit, both are of the same kind (bit 22), and the low 16 bits of the
    operand do not exceed those of the input. *)
Lemma timelocks_spec `{!KeyApi, !SighashApi, !LockTimeLaws} (c : TransactionSignatureChecker)
    (i : TxIn) (n : Z) :
  tx_input (ck_tx c) !! ck_input_index c = Some i ->
  is_u32 (sequence i) ->
  (exists b, tx_check_lock_time c n = Some b /\
     (b = true <->
      is_u32 n /\ (n < LOCKTIME_THRESHOLD <-> tx_lock_time (ck_tx c) < LOCKTIME_THRESHOLD) /\
      n <= tx_lock_time (ck_tx c) /\ sequence i <> SEQUENCE_FINAL)) /\
  (exists b, tx_check_sequence c n = Some b /\
     (b = true <->
      2 <= tx_version (ck_tx c) /\ is_u32 n /\
      Z.testbit (sequence i) 31 = false /\ Z.testbit n 31 = false /\
      Z.testbit n 22 = Z.testbit (sequence i) 22 /\
      n mod 65536 <= sequence i mod 65536)).
Proof.
  intros Hi Hseq. unfold is_u32, LOCKTIME_THRESHOLD. split.
  - unfold tx_check_lock_time, input_sequence. rewrite Hi. cbn [fmap option_fmap option_map].
    rewrite !absolute_threshold.
    destruct (Z.leb_spec 0 n), (Z.leb_spec n u32_max); cbn [andb negb];
      try (eexists; split; [done |]; intuition (done || lia)).
    destruct (Z.ltb_spec n 500000000), (Z.ltb_spec (tx_lock_time (ck_tx c)) 500000000);
      try (eexists; split; [done |]; intuition (done || lia));
      destruct (Z.ltb_spec (tx_lock_time (ck_tx c)) n), (Z.eqb_spec (sequence i) SEQUENCE_FINAL);
      (eexists; split; [done |]); intuition (done || lia).
  - unfold tx_check_sequence, input_sequence. rewrite Hi. cbn [fmap option_fmap option_map].
    destruct (Z.ltb_spec (tx_version (ck_tx c)) 2); [eexists; split; [done |]; intuition (done || lia) |].
    cbn [mbind option_bind]. rewrite (relative_bits (sequence i)) by done.
    destruct (Z.testbit (sequence i) 31); [eexists; split; [done |]; intuition (done || lia) |].
    destruct (Z.leb_spec 0 n), (Z.leb_spec n u32_max); cbn [andb negb];
      try (by destruct (Z.testbit (sequence i) 22); eexists; (split; [done |]); intuition (done || lia)).
    rewrite (relative_bits n) by (unfold is_u32; lia).
    destruct (Z.testbit n 31), (Z.testbit n 22), (Z.testbit (sequence i) 22);
      destruct (Z.ltb_spec (sequence i mod 65536) (n mod 65536));
      (eexists; split; [done |]); intuition (done || lia).
Qed.

(** ** Instances *)

Import (hints) Sample.

(** Lock times as documented; toy signature hashes. *)
Definition sample_sighash : SighashApi (H := Sample.key_api) := {|
  absolute_from_consensus n := if n <? 500000000 then AbsBlocks n else AbsSeconds n;
  to_relative_lock_time n :=
    if Z.testbit n 31 then None
    else if Z.testbit n 22 then Some (RelTime (n mod 65536)) else Some (RelBlocks (n mod 65536));
  legacy_signature_hash _ _ s _ := inr s;
  segwit_v0_signature_hash _ _ s _ _ := Some s;
  taproot_signature_hash _ _ _ _ h _ _ := inr h;
  annex_new a := match a with b :: _ => b =? 0x50 | [] => false end;
  verify_ecdsa _ sig key := bool_decide ((sig : bytes) = key);
  verify_schnorr sig _ key := bool_decide ((sig : bytes) = key);
|}.
#[local] Existing Instance sample_sighash.

#[local] Instance sample_lock_time_laws : LockTimeLaws.
Proof. by split. Qed.

Lemma remove_op_codeseparator_spec_witness :
  exists b, remove_op_codeseparator (E := SignatureError) [0x76; 0xab; 2; 7; 8; 0xac] = Ok b /\
    as_script b = [0x76; 2; 7; 8; 0xac].
Proof.
  assert (Hi : instructions (encode_script [Op 0x76; Op 0xab; PushBytes [7; 8]; Op 0xac])
               = map inr [Op 0x76; Op 0xab; PushBytes [7; 8]; Op 0xac]) by reflexivity.
  assert (Hx : instruction_indices (encode_script [Op 0x76; Op 0xab; PushBytes [7; 8]; Op 0xac])
               = with_offsets 0 [Op 0x76; Op 0xab; PushBytes [7; 8]; Op 0xac]) by reflexivity.
  exact (remove_op_codeseparator_spec [Op 0x76; Op 0xab; PushBytes [7; 8]; Op 0xac] Hi Hx).
Defined.

(** With [OP_PUSHDATA1] the copied range is one byte short: the last byte of
    the data is lost. *)
Example pushdata_truncated :
  remove_op_codeseparator (E := SignatureError) [0x4c; 2; 7; 8; 0xab] = Ok (Sanitized [0x4c; 2; 7]).
Proof. reflexivity. Qed.

Definition sample_tx : Transaction :=
  mk_tx 2 400 [mk_txin (mk_outpoint [1] 0) [] 10 []] [mk_txout 5 []].

(** [OP_CHECKSIG] followed by a truncated push. *)
Lemma unparsable_script_panics_witness :
  tx_check_ecdsa_signature (new_checker sample_tx 0 5) (mk_ecdsa Sample.key_api [1] 1) [1]
    [0xac; 0x05] Base = Panic.
Proof.
  assert (Hi : instructions [0xac; 0x05] = map inr [Op 0xac] ++ [inl (ExternalError 1)]) by reflexivity.
  exact (unparsable_script_panics (new_checker sample_tx 0 5) (mk_ecdsa Sample.key_api [1] 1)
           ([1] : @public_key Sample.key_api) [0xac; 0x05] [Op 0xac] (ExternalError 1) [] Hi eq_refl).
Defined.

Lemma timelocks_spec_witness :
  exists b, tx_check_lock_time (new_checker sample_tx 0 5) 300 = Some b /\ b = true.
Proof.
  assert (Hi : tx_input (ck_tx (new_checker sample_tx 0 5)) !! ck_input_index (new_checker sample_tx 0 5)
               = Some (mk_txin (mk_outpoint [1] 0) [] 10 [])) by reflexivity.
  destruct (timelocks_spec (new_checker sample_tx 0 5) _ 300 Hi) as [(b & Hb & Hiff) _];
    [vm_compute; split; congruence |].
  exists b. split; [exact Hb |]. apply Hiff. split_and!; vm_compute; try split; congruence.
Defined.
