(* ===== verification/PalletTypes.v ===== *)
(** * Transaction types of the runtime ([crates/pallet-bitcoin/src/types.rs])

    The pallet's own representation of Bitcoin transactions, and the
    conversions from and to rust-bitcoin. *)

From Stdlib Require Import ZArith Lia.
From stdpp Require Import prelude.
From S2P Require Import Prelude Bitcoin Runtime.

Module Types.

Inductive LockTime :=
| Height (n : Z)
| Time (n : Z).

Record RegularTxIn := mk_regular_txin {
  previous_output : Runtime.OutPoint;
  unlocking_script : bytes;
  sequence : Z;
  witness : list bytes;
}.

Inductive TxIn :=
| Coinbase (data : bytes) (sequence : Z)
| Regular (i : RegularTxIn).

Record TxOut := mk_txout {
  value : Z;
  script_pubkey : bytes;
}.

Record Transaction := mk_transaction {
  version : Z;
  lock_time : LockTime;
  input : list TxIn;
  output : list TxOut;
}.

(** ** Conversions *)

Definition lock_time_from (l : AbsoluteLockTime) : LockTime :=
  match l with
  | AbsBlocks n => Height n
  | AbsSeconds n => Time n
  end.

Section conversions.
Context `{!TxApi} {E : Type}.

(** Back to the consensus value; a value on the wrong side of the threshold
    panics. *)
Definition lock_time_into (l : LockTime) : res E Z :=
  match l with
  | Height n => expect (height_from_consensus n)
  | Time n => expect (time_from_consensus n)
  end.

Definition txin_from (i : Bitcoin.TxIn) : TxIn :=
  if is_null (Bitcoin.previous_output i) then Coinbase (script_sig i) (Bitcoin.sequence i)
  else Regular (mk_regular_txin (Runtime.out_point_from (Bitcoin.previous_output i))
                  (script_sig i) (Bitcoin.sequence i) (txin_witness i)).

Definition txin_into (i : TxIn) : Bitcoin.TxIn :=
  match i with
  | Coinbase data sequence => mk_txin null_outpoint data sequence []
  | Regular r =>
      mk_txin (Runtime.out_point_into (previous_output r)) (unlocking_script r) (sequence r) (witness r)
  end.

Definition transaction_into (val : Transaction) : res E Bitcoin.Transaction :=
  lock_time ← lock_time_into (lock_time val);
  mret (mk_tx (version val) lock_time
    (map txin_into (input val))
    (map (fun o => Bitcoin.mk_txout (value o) (script_pubkey o)) (output val))).

Definition transaction_from (btc_tx : Bitcoin.Transaction) : Transaction :=
  mk_transaction (tx_version btc_tx)
    (lock_time_from (lock_time_from_consensus (tx_lock_time btc_tx)))
    (map txin_from (tx_input btc_tx))
    (map (fun o => mk_txout (Bitcoin.value o) (Bitcoin.script_pubkey o)) (tx_output btc_tx)).

(** ** Round trip *)

(** What survives the conversion: the witness of an input with the null
    out point does not. *)
Definition drop_null_witness (i : Bitcoin.TxIn) : Bitcoin.TxIn :=
  if is_null (Bitcoin.previous_output i)
  then mk_txin (Bitcoin.previous_output i) (script_sig i) (Bitcoin.sequence i) []
  else i.

Definition stored (tx : Bitcoin.Transaction) : Bitcoin.Transaction :=
  mk_tx (tx_version tx) (tx_lock_time tx) (map drop_null_witness (tx_input tx)) (tx_output tx).

Lemma txin_roundtrip (i : Bitcoin.TxIn) : txin_into (txin_from i) = drop_null_witness i.
Proof.
  unfold txin_from, drop_null_witness, is_null. case_bool_decide as Hn; cbn.
  - by rewrite Hn.
  - rewrite Runtime.out_point_into_from. by destruct i.
Qed.

Lemma transaction_roundtrip_full `{!TxLaws} (tx : Bitcoin.Transaction) :
  transaction_into (transaction_from tx) = Ok (stored tx).
Proof.
  unfold transaction_into, transaction_from, stored, lock_time_into. cbn.
  rewrite lock_time_threshold, !map_map, (map_ext _ drop_null_witness) by apply txin_roundtrip.
  rewrite (map_ext (fun x => Bitcoin.mk_txout _ _) id), map_id by (intros x; by destruct x).
  destruct (Z.ltb_spec (tx_lock_time tx) LOCK_TIME_THRESHOLD) as [Hl | Hl]; cbn.
  - rewrite height_threshold. by destruct (Z.ltb_spec (tx_lock_time tx) LOCK_TIME_THRESHOLD); [| lia].
  - rewrite time_threshold. by destruct (Z.ltb_spec (tx_lock_time tx) LOCK_TIME_THRESHOLD); [lia |].
Qed.

Lemma stored_txid `{!TxLaws} (tx : Bitcoin.Transaction) : compute_txid (stored tx) = compute_txid tx.
Proof.
  apply compute_txid_witness. unfold without_witness, stored. cbn. f_equal. rewrite map_map.
  apply map_ext. intros i. unfold drop_null_witness. by destruct (is_null _).
Qed.

Lemma stored_inputs (tx : Bitcoin.Transaction) :
  map Bitcoin.previous_output (tx_input (stored tx)) = map Bitcoin.previous_output (tx_input tx).
Proof.
  cbn. rewrite map_map. apply map_ext. intros i. unfold drop_null_witness. by destruct (is_null _).
Qed.

Lemma stored_coinbase (tx : Bitcoin.Transaction) : is_coinbase (stored tx) = is_coinbase tx.
Proof.
  unfold is_coinbase. cbn. destruct (tx_input tx) as [| i [| ??]]; cbn; try done.
  unfold drop_null_witness. by destruct (is_null (Bitcoin.previous_output i)) eqn:Hn; cbn.
Qed.

(** a Bitcoin transaction stored in the runtime and read back has the same
    transaction id, version, lock time, outputs and inputs; only the witness of
    an input with the null out point, a coinbase's, is lost, so a transaction
    without one comes back unchanged. *)
Lemma transaction_roundtrip `{!TxLaws} (tx : Bitcoin.Transaction) :
  exists tx', transaction_into (transaction_from tx) = Ok tx' /\
    compute_txid tx' = compute_txid tx /\
    without_witness tx' = without_witness tx /\
    is_coinbase tx' = is_coinbase tx /\
    ((forall i, i ∈ tx_input tx -> is_null (Bitcoin.previous_output i) = true -> txin_witness i = []) ->
     tx' = tx).
Proof.
  exists (stored tx). split; [apply transaction_roundtrip_full |].
  split; [apply stored_txid |]. split; [| split; [apply stored_coinbase |]].
  - unfold without_witness, stored. cbn. f_equal. rewrite map_map.
    apply map_ext. intros i. unfold drop_null_witness. by destruct (is_null _).
  - intros Hw. destruct tx as [v l ins outs]. unfold stored. cbn in *. f_equal.
    rewrite <- (map_id ins) at 2. apply map_ext_in. intros i Hi%list_elem_of_In.
    specialize (Hw i Hi). unfold drop_null_witness.
    destruct (is_null _); [| done]. destruct i; cbn in *. by rewrite Hw.
Qed.
End conversions.

End Types.

Import (hints) SampleTx.

(** A coinbase with a witness: it comes back without. *)
Lemma transaction_roundtrip_witness :
  exists tx', Types.transaction_into (E := unit) (Types.transaction_from
      (mk_tx 2 0 [mk_txin null_outpoint [1; 2] 5 [replicate 32 0]] [])) = Ok tx' /\
    compute_txid (TxApi := SampleTx.tx_api) tx' = [2; 0; u32_max; 5] ++ replicate 32 0 ++ [1; 2].
Proof.
  destruct (Types.transaction_roundtrip (E := unit)
    (mk_tx 2 0 [mk_txin null_outpoint [1; 2] 5 [replicate 32 0]] [])) as (tx' & Hok & Hid & _).
  exists tx'. split; [exact Hok |]. rewrite Hid. reflexivity.
Defined.
