(* ===== verification/Pallet.v ===== *)
(** * The Bitcoin pallet ([crates/pallet-bitcoin/src/lib.rs])

    The runtime's state is the UTXO set and its size; a transaction is executed
    by removing the coins it spends and adding the coins it creates. *)

From Stdlib Require Import ZArith Lia.
From stdpp Require Import prelude gmap.
From S2P Require Import Prelude Opcode ScriptNum ScriptTypes Stack CheckSig Sample Bitcoin Runtime PalletTypes.

(** ** State *)

(** [Coins] and [CoinsCount]. *)
Record PalletState := mk_pallet {
  coins : gmap Runtime.OutPoint Coin;
  coins_count : Z;
}.

(** The origin of an extrinsic, and the error of [ensure_none]. *)
Inductive RawOrigin := RootOrigin | SignedOrigin | NoneOrigin.
Inductive DispatchError := BadOrigin.

Definition ensure_none (origin : RawOrigin) : res DispatchError unit :=
  match origin with
  | NoneOrigin => Ok tt
  | _ => Err BadOrigin
  end.

Definition BIP30_EXCEPTION_HEIGHTS : list Z := [91722; 91812].

Definition get_utxos (s : PalletState) (outpoints : list Runtime.OutPoint) : list (option Coin) :=
  map (fun o => coins s !! o) outpoints.

(** ** Executing a transaction *)

Section pallet.
Context `{!ScriptApi, !TxApi} {E : Type}.

(** The coins of the outputs, skipping [OP_RETURN]; [index] counts from the
    first output. *)
Fixpoint new_coins (txid : bytes) (is_coinbase : bool) (height : Z) (index : nat)
    (outputs : list TxOut) : list (OutPoint * Coin) :=
  match outputs with
  | [] => []
  | txout :: outputs =>
      let rest := new_coins txid is_coinbase height (S index) outputs in
      if is_op_return (script_pubkey txout) then rest
      else (mk_outpoint txid (wrap_u32 (Z.of_nat index)),
            mk_coin is_coinbase (value txout) height (script_pubkey txout)) :: rest
  end.

(** [Coins::insert] for each new coin. *)
Fixpoint insert_coins (l : list (OutPoint * Coin)) (m : gmap Runtime.OutPoint Coin) :
    gmap Runtime.OutPoint Coin :=
  match l with
  | [] => m
  | (o, c) :: l => insert_coins l (<[Runtime.out_point_from o := c]> m)
  end.

(** [Coins::take] for each input; a missing coin panics. *)
Fixpoint take_coins (inputs : list TxIn) (m : gmap Runtime.OutPoint Coin) :
    res E (gmap Runtime.OutPoint Coin) :=
  match inputs with
  | [] => Ok m
  | i :: inputs =>
      let o := Runtime.out_point_from (previous_output i) in
      match m !! o with
      | Some _ => take_coins inputs (delete o m)
      | None => Panic
      end
  end.

Definition process_bitcoin_transaction (height : Z) (tx : Transaction) (s : PalletState) :
    res E PalletState :=
  let txid := compute_txid tx in
  let is_coinbase := is_coinbase tx in
  if is_coinbase && bool_decide (height ∈ BIP30_EXCEPTION_HEIGHTS) then mret s
  else
    let new_coins := new_coins txid is_coinbase height 0 (tx_output tx) in
    let num_created := Z.of_nat (length new_coins) in
    if is_coinbase then
      v ← expect (checked_u64 (coins_count s + num_created));
      mret (mk_pallet (insert_coins new_coins (coins s)) v)
    else
      let num_consumed := Z.of_nat (length (tx_input tx)) in
      m ← take_coins (tx_input tx) (coins s);
      v ← expect (checked_u64 (coins_count s + num_created));
      v ← expect (checked_u64 (v - num_consumed));
      mret (mk_pallet (insert_coins new_coins m) v).
End pallet.

(** [Call::transact]: the state changes of a failed call are discarded. *)
Definition transact `{!ScriptApi, !TxApi} (origin : RawOrigin) (height : Z) (btc_tx : Types.Transaction)
    (s : PalletState) : res DispatchError PalletState :=
  ensure_none origin;;
  tx ← Types.transaction_into btc_tx;
  process_bitcoin_transaction height tx s.

(** ** The UTXO set as a ledger *)

(** The total value of a UTXO set. *)
Definition supply (m : gmap Runtime.OutPoint Coin) : Z :=
  map_fold (fun _ c acc => coin_amount c + acc) 0 m.

Lemma supply_empty : supply ∅ = 0.
Proof. apply map_fold_empty. Qed.

Lemma supply_insert m o c : m !! o = None -> supply (<[o := c]> m) = coin_amount c + supply m.
Proof. intros H. unfold supply. rewrite map_fold_insert_L; [done | | done]. intros. lia. Qed.

Lemma supply_delete m o c : m !! o = Some c -> supply m = coin_amount c + supply (delete o m).
Proof.
  intros H. rewrite <- (insert_delete_id m o c H) at 1. apply supply_insert, lookup_delete_eq.
Qed.

(** The well-formed states: the counter is the size of the set. *)
Definition pallet_wf (s : PalletState) : Prop := coins_count s = Z.of_nat (size (coins s)).

Abbreviation utxo s o := (coins s !! Runtime.out_point_from o) (only parsing).

(** The coin an out point refers to when it is an output of the transaction. *)
Definition created_coin `{!ScriptApi, !TxApi} (height : Z) (tx : Transaction) (o : OutPoint) : option Coin :=
  if bool_decide (op_txid o = compute_txid tx) && (0 <=? op_vout o) then
    match tx_output tx !! Z.to_nat (op_vout o) with
    | Some out =>
        if is_op_return (script_pubkey out) then None
        else Some (mk_coin (is_coinbase tx) (value out) height (script_pubkey out))
    | None => None
    end
  else None.

(** The out points a transaction spends. *)
Definition spends (tx : Transaction) : list OutPoint :=
  if is_coinbase tx then [] else map previous_output (tx_input tx).

Definition spendable (s : PalletState) (tx : Transaction) : Prop :=
  NoDup (spends tx) /\ forall o, o ∈ spends tx -> is_Some (utxo s o).

(** No output of the transaction is in the set yet. *)
Definition fresh_tx `{!TxApi} (s : PalletState) (tx : Transaction) : Prop :=
  forall vout, utxo s (mk_outpoint (compute_txid tx) vout) = None.

Section take_coins.
Context {E : Type}.
Implicit Types (m : gmap Runtime.OutPoint Coin).

Lemma take_coins_lookup ins m m' o :
  take_coins (E := E) ins m = Ok m' ->
  m' !! Runtime.out_point_from o =
    if bool_decide (o ∈ map previous_output ins) then None else m !! Runtime.out_point_from o.
Proof.
  revert m. induction ins as [| i ins IH]; intros m; cbn [take_coins map].
  - by intros [= ->].
  - destruct (m !! _) as [c |] eqn:Hc; [| done]. intros H%IH. rewrite H.
    destruct (decide (o = previous_output i)) as [-> | Hne].
    + rewrite lookup_delete_eq, (bool_decide_eq_true_2 (_ ∈ previous_output i :: _)) by left.
      by destruct (bool_decide _).
    + rewrite lookup_delete_ne by (by intros ?%(inj _)).
      assert (Heq : o ∈ previous_output i :: map previous_output ins <-> o ∈ map previous_output ins)
        by (rewrite elem_of_cons; naive_solver).
      by rewrite (bool_decide_ext _ _ Heq).
Qed.

Lemma take_coins_size ins m m' :
  take_coins (E := E) ins m = Ok m' -> size m = (size m' + length ins)%nat.
Proof.
  revert m. induction ins as [| i ins IH]; intros m; cbn [take_coins length].
  - intros [= ->]. lia.
  - destruct (m !! _) as [c |] eqn:Hc; [| done]. intros H%IH.
    rewrite map_size_delete_Some in H by eauto.
    assert (size m ≠ 0%nat) by (eapply map_size_ne_0_lookup_2; eauto). lia.
Qed.

Lemma take_coins_spec ins m :
  (NoDup (map previous_output ins) /\
     forall o, o ∈ map previous_output ins -> is_Some (m !! Runtime.out_point_from o)) /\
     (exists m', take_coins (E := E) ins m = Ok m') \/
  ~ (NoDup (map previous_output ins) /\
     forall o, o ∈ map previous_output ins -> is_Some (m !! Runtime.out_point_from o)) /\
     take_coins (E := E) ins m = Panic.
Proof.
  revert m. induction ins as [| i ins IH]; intros m; cbn [take_coins map].
  - left. split; [| eauto]. split; [apply NoDup_nil_2 |]. by intros o ?%elem_of_nil.
  - destruct (m !! _) as [c |] eqn:Hc.
    + destruct (IH (delete (Runtime.out_point_from (previous_output i)) m))
        as [[[Hnd Hall] Hok] | [Hno Hp]]; [left | right].
      * split; [| done]. split.
        -- apply NoDup_cons. split; [| done]. intros Hin. apply Hall in Hin.
           rewrite lookup_delete_eq in Hin. by destruct Hin.
        -- intros o [-> | Hin]%elem_of_cons; [eauto |]. apply Hall in Hin.
           by apply lookup_delete_is_Some in Hin as [_ ?].
      * split; [| done]. intros [[Hni Hnd]%NoDup_cons Hall]. apply Hno. split; [done |].
        intros o Hin. rewrite lookup_delete_ne; [apply Hall; by right |].
        intros Heq%(inj Runtime.out_point_from). by subst o.
    + right. split; [| done]. intros [_ Hall]. destruct (Hall (previous_output i)) as [c Hc'].
      * left.
      * by rewrite Hc in Hc'.
Qed.
End take_coins.

Section insert_coins.
Context `{!ScriptApi, !TxApi}.
Implicit Types (m : gmap Runtime.OutPoint Coin) (outs : list TxOut).
Variables (txid : bytes) (cb : bool) (height : Z).

(** The output an out point refers to among [outs], numbered from [k]. *)
Definition output_coin (k : nat) outs (o : OutPoint) : option Coin :=
  if bool_decide (op_txid o = txid) && (Z.of_nat k <=? op_vout o) then
    match outs !! (Z.to_nat (op_vout o) - k)%nat with
    | Some out =>
        if is_op_return (script_pubkey out) then None
        else Some (mk_coin cb (value out) height (script_pubkey out))
    | None => None
    end
  else None.

Lemma output_coin_cons k out outs o :
  output_coin k (out :: outs) o =
    if bool_decide (o = mk_outpoint txid (Z.of_nat k)) then
      if is_op_return (script_pubkey out) then None
      else Some (mk_coin cb (value out) height (script_pubkey out))
    else output_coin (S k) outs o.
Proof.
  unfold output_coin. destruct o as [t v]. cbn [op_txid op_vout].
  case_bool_decide as Ht; cbn [andb]; case_bool_decide as Ho; subst; try congruence.
  - injection Ho as ->. rewrite Z.leb_refl, Nat2Z.id, Nat.sub_diag. done.
  - destruct (Z.leb_spec (Z.of_nat k) v), (Z.leb_spec (Z.of_nat (S k)) v); try lia; try done.
    + by replace (Z.to_nat v - k)%nat with (S (Z.to_nat v - S k)) by lia.
    + assert (v = Z.of_nat k) as -> by lia. congruence.
Qed.

Lemma wrap_index k : Z.of_nat k < 2 ^ 32 -> wrap_u32 (Z.of_nat k) = Z.of_nat k.
Proof. intros. unfold wrap_u32. apply Z.mod_small. lia. Qed.

Lemma insert_coins_lookup k outs m o :
  Z.of_nat (k + length outs) <= 2 ^ 32 ->
  insert_coins (new_coins txid cb height k outs) m !! Runtime.out_point_from o =
    match output_coin k outs o with
    | Some c => Some c
    | None => m !! Runtime.out_point_from o
    end.
Proof.
  revert k m. induction outs as [| out outs IH]; intros k m Hk; cbn [new_coins insert_coins].
  - unfold output_coin. by destruct (_ && _).
  - cbn [length] in Hk. rewrite output_coin_cons.
    assert (Hskip : forall t, bool_decide (o = mk_outpoint txid (Z.of_nat k)) = true ->
              match output_coin (S k) outs o with Some c => Some c | None => t end = t).
    { intros t ->%bool_decide_eq_true. unfold output_coin. cbn [op_txid op_vout].
      destruct (Z.leb_spec (Z.of_nat (S k)) (Z.of_nat k)); [lia |]. by rewrite andb_false_r. }
    destruct (is_op_return (script_pubkey out)); cbn [insert_coins]; rewrite IH by lia.
    + destruct (bool_decide _) eqn:Ho; [by rewrite Hskip | done].
    + rewrite wrap_index by lia. destruct (bool_decide _) eqn:Ho.
      * rewrite Hskip by done. apply bool_decide_eq_true in Ho as ->. apply lookup_insert_eq.
      * apply bool_decide_eq_false in Ho. rewrite lookup_insert_ne; [done |].
        intros Heq%(inj Runtime.out_point_from). congruence.
Qed.

Lemma insert_coins_size_supply k outs m :
  Z.of_nat (k + length outs) <= 2 ^ 32 ->
  (forall v, Z.of_nat k <= v -> m !! Runtime.out_point_from (mk_outpoint txid v) = None) ->
  size (insert_coins (new_coins txid cb height k outs) m)
    = (size m + length (new_coins txid cb height k outs))%nat /\
  supply (insert_coins (new_coins txid cb height k outs) m)
    = supply m + zsum (map (fun oc => coin_amount oc.2) (new_coins txid cb height k outs)).
Proof.
  revert k m. induction outs as [| out outs IH]; intros k m Hk Hf; cbn [new_coins].
  { cbn. lia. }
  cbn [length] in Hk. destruct (is_op_return (script_pubkey out)).
  { apply IH; [lia |]. intros. apply Hf. lia. }
  cbn [insert_coins length map snd coin_amount]. rewrite wrap_index by lia.
  set (key := Runtime.out_point_from (mk_outpoint txid (Z.of_nat k))).
  set (c := mk_coin _ _ _ _).
  assert (Hkey : m !! key = None) by (apply Hf; lia).
  destruct (IH (S k) (<[key := c]> m)) as [-> ->]; [lia | |].
  - intros v Hv. rewrite lookup_insert_ne; [apply Hf; lia |].
    intros Heq%(inj Runtime.out_point_from). injection Heq. lia.
  - rewrite map_size_insert_None, supply_insert by done. unfold zsum, c.
    cbn [foldr coin_amount snd]. lia.
Qed.

Lemma new_coins_length k outs : (length (new_coins txid cb height k outs) <= length outs)%nat.
Proof.
  revert k. induction outs as [| out outs IH]; intros k; cbn [new_coins length]; [lia |].
  specialize (IH (S k)). destruct (is_op_return _); cbn [length]; lia.
Qed.

Lemma new_coins_value k outs :
  Forall (fun o => 0 <= value o) outs ->
  0 <= zsum (map (fun oc => coin_amount oc.2) (new_coins txid cb height k outs)) <= zsum (map value outs).
Proof.
  intros Hvs. revert k. induction Hvs as [| out outs Ho Hvs IH]; intros k; cbn [new_coins map]; [done |].
  specialize (IH (S k)). destruct (is_op_return _); cbn [map foldr zsum snd coin_amount] in *;
    unfold zsum in *; lia.
Qed.
End insert_coins.

(** ** Executing a transaction *)

Section process.
Context `{!ScriptApi, !TxApi} {E : Type}.
Implicit Types (s : PalletState) (tx : Transaction).

Lemma created_coin_output height tx o :
  created_coin height tx o = output_coin (compute_txid tx) (is_coinbase tx) height 0 (tx_output tx) o.
Proof. unfold created_coin, output_coin. by rewrite Nat.sub_0_r. Qed.

(** Executing the outputs on the set left by the inputs. *)
Lemma create_coins height tx m :
  Z.of_nat (length (tx_output tx)) <= u32_max ->
  (forall vout, m !! Runtime.out_point_from (mk_outpoint (compute_txid tx) vout) = None) ->
  let l := new_coins (compute_txid tx) (is_coinbase tx) height 0 (tx_output tx) in
  (forall o, insert_coins l m !! Runtime.out_point_from o =
     match created_coin height tx o with
     | Some c => Some c
     | None => m !! Runtime.out_point_from o
     end) /\
  size (insert_coins l m) = (size m + length l)%nat /\
  supply (insert_coins l m) = supply m + zsum (map (fun oc => coin_amount oc.2) l).
Proof.
  intros Hlen Hf l. unfold u32_max in Hlen. split.
  - intros o. rewrite created_coin_output. apply insert_coins_lookup. cbn. lia.
  - apply insert_coins_size_supply; [cbn; lia |]. intros v _. apply Hf.
Qed.

(** The value a transaction takes out of the set: the amounts of the coins it
    spends. *)
Definition coins_value (m : gmap Runtime.OutPoint Coin) (os : list OutPoint) : Z :=
  zsum (map (fun o => default 0 (coin_amount <$> m !! Runtime.out_point_from o)) os).

Lemma coins_value_delete m o os :
  o ∉ os -> coins_value (delete (Runtime.out_point_from o) m) os = coins_value m os.
Proof.
  intros Hni. unfold coins_value. f_equal. apply map_ext_in. intros o' Hin%list_elem_of_In.
  rewrite lookup_delete_ne; [done |]. intros Heq%(inj Runtime.out_point_from). by subst.
Qed.

Lemma take_coins_supply ins m m' :
  take_coins (E := E) ins m = Ok m' -> NoDup (map previous_output ins) ->
  supply m = supply m' + coins_value m (map previous_output ins).
Proof.
  revert m. induction ins as [| i ins IH]; intros m; cbn [take_coins map].
  - intros [= ->] _. cbn. lia.
  - destruct (m !! _) as [c |] eqn:Hc; [| done]. intros Ht [Hni Hnd]%NoDup_cons.
    rewrite (supply_delete m _ c Hc), (IH _ Ht Hnd), coins_value_delete by done.
    unfold coins_value, zsum. cbn [map foldr]. rewrite Hc. cbn. lia.
Qed.

(** What a successful execution does to the state. *)
Record executed (height : Z) tx s s' : Prop := {
  executed_wf : pallet_wf s';
  executed_utxos o :
    utxo s' o = match created_coin height tx o with
                | Some c => Some c
                | None => if bool_decide (o ∈ spends tx) then None else utxo s o
                end;
  executed_supply :
    supply (coins s') = supply (coins s) - coins_value (coins s) (spends tx)
      + zsum (map (fun oc => coin_amount oc.2)
                (new_coins (compute_txid tx) (is_coinbase tx) height 0 (tx_output tx)));
  executed_count : coins_count s' <= coins_count s + Z.of_nat (length (tx_output tx));
}.

(** The conditions under which the pallet is called. *)
Record admissible (height : Z) tx s : Prop := {
  adm_wf : pallet_wf s;
  adm_fresh : fresh_tx s tx;
  adm_outputs : Z.of_nat (length (tx_output tx)) <= u32_max;
  adm_count : coins_count s + Z.of_nat (length (tx_output tx)) <= u64_max;
  adm_bip30 : is_coinbase tx = true -> height ∉ BIP30_EXCEPTION_HEIGHTS;
}.

Lemma process_executed height tx s :
  admissible height tx s ->
  spendable s tx /\ (exists s', process_bitcoin_transaction (E := E) height tx s = Ok s' /\
                               executed height tx s s') \/
  ~ spendable s tx /\ process_bitcoin_transaction (E := E) height tx s = Panic.
Proof.
  intros [Hwf Hf Hlen Hcount Hbip]. unfold process_bitcoin_transaction, spendable, spends.
  pose proof (new_coins_length (compute_txid tx) (is_coinbase tx) height 0 (tx_output tx)) as Hn.
  unfold pallet_wf in Hwf. destruct (is_coinbase tx) eqn:Hcb; cbn [andb].
  - left. split; [split; [apply NoDup_nil_2 | by intros o ?%elem_of_nil] |].
    rewrite bool_decide_eq_false_2 by auto.
    rewrite checked_u64_Ok by (unfold is_u64; lia). rbind. eexists. split; [done |].
    destruct (create_coins height tx (coins s) Hlen Hf) as (Hl & Hs & Hv). rewrite Hcb in Hl, Hs, Hv.
    split; unfold pallet_wf, spends; rewrite ?Hcb; cbn [coins coins_count].
    + lia.
    + intros o. by rewrite Hl.
    + rewrite Hv. unfold coins_value. cbn. lia.
    + lia.
  - destruct (take_coins_spec (E := E) (tx_input tx) (coins s)) as [[Hok [m Hm]] | [Hno Hp]];
      [left | right; split; [done |]; by rewrite Hp].
    split; [done |]. rewrite Hm. rbind. pose proof (take_coins_size _ _ _ Hm) as Hsz.
    rewrite checked_u64_Ok by (unfold is_u64; lia). rbind.
    rewrite checked_u64_Ok by (unfold is_u64; lia). rbind. eexists. split; [done |].
    pose proof (take_coins_supply _ _ _ Hm (proj1 Hok)) as Hsup.
    assert (Hfm : forall vout, m !! Runtime.out_point_from (mk_outpoint (compute_txid tx) vout) = None)
      by (intros vout; rewrite (take_coins_lookup _ _ _ _ Hm), Hf; by destruct (bool_decide _)).
    destruct (create_coins height tx m Hlen Hfm) as (Hl & Hs & Hv). rewrite Hcb in Hl, Hs, Hv.
    split; unfold pallet_wf, spends; rewrite ?Hcb; cbn [coins coins_count].
    + lia.
    + intros o. by rewrite Hl, (take_coins_lookup _ _ _ _ Hm).
    + rewrite Hv. lia.
    + lia.
Qed.
End process.

(** ** The extrinsic *)

Section transact.
Context `{!ScriptApi, !TxApi, !TxLaws}.
Implicit Types (s : PalletState) (tx : Transaction).

Lemma stored_spends tx : spends (Types.stored tx) = spends tx.
Proof. unfold spends. by rewrite Types.stored_coinbase, Types.stored_inputs. Qed.

Lemma stored_created height tx o : created_coin height (Types.stored tx) o = created_coin height tx o.
Proof. unfold created_coin. by rewrite Types.stored_txid, Types.stored_coinbase. Qed.

Lemma stored_process {E} height tx s :
  process_bitcoin_transaction (E := E) height (Types.stored tx) s =
  process_bitcoin_transaction height tx s.
Proof.
  unfold process_bitcoin_transaction. rewrite Types.stored_txid, Types.stored_coinbase.
  assert (Ht : forall m, take_coins (E := E) (tx_input (Types.stored tx)) m = take_coins (tx_input tx) m).
  { cbn. induction (tx_input tx) as [| i ins IH]; intros m; cbn [map take_coins]; [done |].
    assert (previous_output (Types.drop_null_witness i) = previous_output i) as ->
      by (unfold Types.drop_null_witness; by destruct (is_null _)).
    destruct (m !! _); [apply IH | done]. }
  rewrite Ht. cbn [Types.stored tx_input tx_output]. by rewrite length_map.
Qed.

Lemma transact_process height tx s :
  transact NoneOrigin height (Types.transaction_from tx) s = process_bitcoin_transaction height tx s.
Proof.
  unfold transact. cbn [ensure_none]. rbind. rewrite Types.transaction_roundtrip_full. rbind.
  apply stored_process.
Qed.

End transact.

(** ** Instances *)

Import (hints) Sample SampleTx.

Definition sample_spend : Transaction := mk_tx 1 0 [mk_txin (mk_outpoint [7] 1) [] 10 []] [mk_txout 5 [0x51]; mk_txout 0 [0x6a]].
Definition sample_set : PalletState :=
  mk_pallet {[ Runtime.out_point_from (mk_outpoint [7] 1) := mk_coin false 8 3 [0x51] ]} 1.

