(* ===== verification/TxSanity.v ===== *)
(** * Context-free transaction checks ([crates/subcoin-primitives/src/consensus.rs])

    [check_transaction_sanity], and the theorem that it accepts exactly the
    transactions that satisfy the rules it documents. *)

From Stdlib Require Import ZArith Lia.
From stdpp Require Import prelude gmap.
From S2P Require Import Prelude Bitcoin.

Definition MIN_COINBASE_SCRIPT_LEN : nat := 2.
Definition MAX_COINBASE_SCRIPT_LEN : nat := 100.

(** [Amount::MAX_MONEY], [WITNESS_SCALE_FACTOR] and [Weight::MAX_BLOCK]. *)
Definition AMOUNT_MAX_MONEY : Z := 2100000000000000.
Definition WITNESS_SCALE_FACTOR : Z := 4.
Definition MAX_BLOCK_WEIGHT : Z := 4000000.

Inductive TxError :=
| EmptyInput
| EmptyOutput
| TransactionOversize
| DuplicateTxInput (index : nat)
| OutputValueTooLarge (v : Z)
| TotalOutputValueTooLarge (v : Z)
| BadCoinbaseLength (n : nat)
| PreviousOutputNull.

(** The loop over the outputs; [Amount] addition panics on overflow. *)
Fixpoint check_outputs (outputs : list TxOut) (value_out : Z) : res TxError unit :=
  match outputs with
  | [] => Ok tt
  | txout :: outputs =>
      reject_if (AMOUNT_MAX_MONEY <? value txout) (OutputValueTooLarge (value txout));;
      value_out ← expect (checked_u64 (value_out + value txout));
      reject_if (AMOUNT_MAX_MONEY <? value_out) (TotalOutputValueTooLarge value_out);;
      check_outputs outputs value_out
  end.

(** The loop over the inputs with the set of out points seen. *)
Fixpoint check_duplicate_inputs (index : nat) (inputs : list TxIn) (seen_inputs : gset OutPoint) :
    res TxError unit :=
  match inputs with
  | [] => Ok tt
  | txin :: inputs =>
      if bool_decide (previous_output txin ∈ seen_inputs) then Err (DuplicateTxInput index)
      else check_duplicate_inputs (S index) inputs ({[ previous_output txin ]} ∪ seen_inputs)
  end.

Definition check_transaction_sanity `{!TxApi} (tx : Transaction) : res TxError unit :=
  reject_if (bool_decide (tx_input tx = [])) EmptyInput;;
  reject_if (bool_decide (tx_output tx = [])) EmptyOutput;;
  reject_if (MAX_BLOCK_WEIGHT <? base_size tx * WITNESS_SCALE_FACTOR) TransactionOversize;;
  check_outputs (tx_output tx) 0;;
  check_duplicate_inputs 0 (tx_input tx) ∅;;
  if is_coinbase tx then
    txin ← index (tx_input tx) 0;
    let script_sig_len := length (script_sig txin) in
    reject_if (negb ((MIN_COINBASE_SCRIPT_LEN <=? script_sig_len)%nat &&
                     (script_sig_len <=? MAX_COINBASE_SCRIPT_LEN)%nat))
      (BadCoinbaseLength script_sig_len)
  else
    reject_if (existsb (fun txin => is_null (previous_output txin)) (tx_input tx)) PreviousOutputNull.

(** ** The rules *)

Record sane `{!TxApi} (tx : Transaction) : Prop := {
  sane_inputs : tx_input tx <> [];
  sane_outputs : tx_output tx <> [];
  sane_size : base_size tx * WITNESS_SCALE_FACTOR <= MAX_BLOCK_WEIGHT;
  sane_values : Forall (fun o => value o <= AMOUNT_MAX_MONEY) (tx_output tx);
  sane_total : zsum (map value (tx_output tx)) <= AMOUNT_MAX_MONEY;
  sane_distinct : NoDup (map previous_output (tx_input tx));
  sane_coinbase i : is_coinbase tx = true -> tx_input tx = [i] ->
    (MIN_COINBASE_SCRIPT_LEN <= length (script_sig i) <= MAX_COINBASE_SCRIPT_LEN)%nat;
  sane_regular : is_coinbase tx = false ->
    Forall (fun i => previous_output i <> null_outpoint) (tx_input tx);
}.

Lemma check_outputs_spec outs v :
  Forall (fun o => is_u64 (value o)) outs -> 0 <= v <= AMOUNT_MAX_MONEY ->
  no_panic (check_outputs outs v) /\
  (check_outputs outs v = Ok tt <->
   Forall (fun o => value o <= AMOUNT_MAX_MONEY) outs /\ v + zsum (map value outs) <= AMOUNT_MAX_MONEY).
Proof.
  intros Hu. revert v. induction Hu as [| o outs Ho Hu IH]; intros v Hv; cbn [check_outputs map].
  { split; [done |]. split; [| done]. intros _. split; [apply Forall_nil_2 | cbn; lia]. }
  unfold is_u64 in Ho. destruct (Z.ltb_spec AMOUNT_MAX_MONEY (value o)) as [Hgt | Hle]; rcbn.
  { split; [done |]. split; [done |]. intros [Hall _]. apply Forall_cons in Hall. lia. }
  rewrite checked_u64_Ok by (unfold is_u64, AMOUNT_MAX_MONEY in *; unfold u64_max; lia). rbind.
  assert (Hsum : 0 <= zsum (map value outs)).
  { apply zsum_nonneg, Forall_map. eapply Forall_impl; [exact Hu |]. intros ? []. cbn. lia. }
  unfold zsum in *. cbn [foldr]. destruct (Z.ltb_spec AMOUNT_MAX_MONEY (v + value o)); rcbn.
  - split; [done |]. split; [done |]. intros [_ ?]. lia.
  - destruct (IH (v + value o)) as [Hnp Hiff]; [lia |]. split; [done |].
    rewrite Hiff, Forall_cons. split; intros; destruct_and?; split_and?; try done; lia.
Qed.

Lemma check_duplicate_inputs_spec ins k (seen : gset OutPoint) :
  no_panic (check_duplicate_inputs k ins seen) /\
  (check_duplicate_inputs k ins seen = Ok tt <->
   NoDup (map previous_output ins) /\ forall o, o ∈ map previous_output ins -> o ∉ seen).
Proof.
  revert k seen. induction ins as [| i ins IH]; intros k seen; cbn [check_duplicate_inputs map].
  - split; [done |]. split; [| done]. split; [apply NoDup_nil_2 |]. by intros o ?%elem_of_nil.
  - case_bool_decide as Hin.
    + split; [done |]. split; [done |]. intros [_ Hall]. by destruct (Hall (previous_output i)); [left |].
    + destruct (IH (S k) ({[ previous_output i ]} ∪ seen)) as [Hnp Hiff]. split; [done |].
      rewrite Hiff, NoDup_cons. set_solver.
Qed.

Lemma existsb_null ins :
  existsb (fun i => is_null (previous_output i)) ins = false <->
  Forall (fun i => previous_output i <> null_outpoint) ins.
Proof.
  induction ins as [| i ins IH]; cbn; [split; [intros; apply Forall_nil_2 | done] |].
  rewrite orb_false_iff, IH, Forall_cons. unfold is_null. by rewrite bool_decide_eq_false.
Qed.

Section sanity.
Context `{!TxApi}.

Lemma index_coinbase {E} tx :
  is_coinbase tx = true -> exists i, tx_input tx = [i] /\ index (E := E) (tx_input tx) 0 = Ok i.
Proof.
  unfold is_coinbase. destruct (tx_input tx) as [| i [| ??]]; try done. intros _. by exists i.
Qed.

Lemma check_transaction_sanity_spec tx :
  Forall (fun o => is_u64 (value o)) (tx_output tx) ->
  no_panic (check_transaction_sanity tx) /\ (check_transaction_sanity tx = Ok tt <-> sane tx).
Proof.
  intros Hu. unfold check_transaction_sanity.
  destruct (check_outputs_spec (tx_output tx) 0 Hu) as [Hnp1 Hiff1];
    [unfold AMOUNT_MAX_MONEY; lia |].
  destruct (check_duplicate_inputs_spec (tx_input tx) 0 ∅) as [Hnp2 Hiff2].
  split.
  - apply no_panic_bind; [apply no_panic_reject_if | intros _ _].
    apply no_panic_bind; [apply no_panic_reject_if | intros _ _].
    apply no_panic_bind; [apply no_panic_reject_if | intros _ _].
    apply no_panic_bind; [done | intros _ _]. apply no_panic_bind; [done | intros _ _].
    destruct (is_coinbase tx) eqn:Hcb; [| apply no_panic_reject_if].
    destruct (index_coinbase (E := TxError) tx Hcb) as (i & _ & ->). apply no_panic_reject_if.
  - split.
    + intros Hok. inv_ok. bools.
      match goal with K : check_outputs _ _ = _ |- _ => apply Hiff1 in K as [Hv Ht] end.
      match goal with K : check_duplicate_inputs _ _ _ = _ |- _ => apply Hiff2 in K as [Hd _] end.
      split; try done.
      * intros i Hcb Hi. rewrite Hcb in Hok. rewrite Hi in Hok. change (index [i] 0) with (Ok (E := TxError) i) in Hok.
        inv_ok. bools. lia.
      * intros Hcb. rewrite Hcb in Hok. inv_ok. by apply existsb_null.
    + intros [Hi Ho Hs Hv Ht Hd Hc Hr].
      rewrite !(bool_decide_eq_false_2 (_ = [])) by done.
      rewrite !(reject_if_false false) by done. rbind.
      rewrite (reject_if_false (_ <? _)) by btest. rbind.
      rewrite (proj2 Hiff1) by (split; [done | lia]). rbind.
      rewrite (proj2 Hiff2) by (split; [done | set_solver]). rbind.
      destruct (is_coinbase tx) eqn:Hcb.
      * destruct (index_coinbase (E := TxError) tx Hcb) as (i & Hi1 & ->). rbind.
        destruct (Hc i eq_refl Hi1). apply reject_if_false. btest.
      * apply reject_if_false, existsb_null. auto.
Qed.

(** C12: the context-free check of a transaction never panics, and accepts exactly
    the transactions with inputs and outputs, a base size within the block
    limit, output values and their total within the money supply, distinct
    inputs, and a coinbase script of 2 to 100 bytes or no null input. *)
Theorem transaction_sanity tx :
  Forall (fun o => is_u64 (value o)) (tx_output tx) ->
  no_panic (check_transaction_sanity tx) /\ (check_transaction_sanity tx = Ok tt <-> sane tx).
Proof. apply check_transaction_sanity_spec. Qed.
End sanity.

(** ** Instances *)

Import (hints) SampleTx.

Lemma transaction_sanity_witness :
  check_transaction_sanity (mk_tx 2 0 [mk_txin (mk_outpoint [7] 1) [] 10 []] [mk_txout 5 [0x51]]) = Ok tt
  /\ ~ sane (mk_tx 2 0 [mk_txin (mk_outpoint [7] 1) [] 10 []; mk_txin (mk_outpoint [7] 1) [] 9 []]
               [mk_txout 5 [0x51]]).
Proof.
  split; [reflexivity |]. intros Hs.
  apply (transaction_sanity (mk_tx 2 0 [mk_txin (mk_outpoint [7] 1) [] 10 [];
           mk_txin (mk_outpoint [7] 1) [] 9 []] [mk_txout 5 [0x51]])) in Hs.
  - discriminate Hs.
  - apply Forall_singleton. vm_compute. split; congruence.
Defined.
