(* ===== verification/Client.v ===== *)
(** * The chain as the node sees it ([crates/subcoin-primitives/src/lib.rs],
      [crates/sc-consensus-nakamoto/src/aux_schema.rs])

    The Substrate client is a parameter; on top of it the code finds Bitcoin
    headers through the digests of Substrate headers and an auxiliary store,
    and derives the median time past, block locators and cumulative work. *)

From Stdlib Require Import ZArith Lia Sorting.Sorted.
From stdpp Require Import prelude sorting.
From S2P Require Import Prelude Bitcoin.

(** ** The Substrate client *)

(** [sp_blockchain::Error], as far as it is told apart. *)
Inductive ClientError :=
| BackendError
| UnknownBlock
| MissingHeader
| OtherClientError (code : Z).

(** [DigestItem]: pre-runtime digests carry an engine id; the others are not
    looked at. *)
Inductive DigestItem :=
| PreRuntime (engine_id : bytes) (data : bytes)
| OtherDigest.

(** A Substrate header, as its digest and its hash. *)
Record SubstrateHeader := mk_substrate_header {
  digest_logs : list DigestItem;
  substrate_hash : bytes;
}.

(** [HeaderBackend] and [AuxStore]; hashes are byte strings, numbers are the
    runtime's [u32] block numbers. *)
Record Client := mk_client {
  get_aux : bytes -> ClientError + option bytes;
  client_number : bytes -> ClientError + option Z;
  client_hash : Z -> ClientError + option bytes;
  client_header : bytes -> ClientError + option SubstrateHeader;
  best_hash : bytes;
  best_number : Z;
}.

(** [.ok().flatten()]. *)
Definition ok_flatten {A} (r : ClientError + option A) : option A :=
  match r with
  | inr o => o
  | inl _ => None
  end.

(** Codecs of rust-bitcoin and of the SCALE crate. *)
Class ChainApi := {
  (** [Header::block_hash], [consensus_encode] and [consensus_decode]. *)
  block_hash : Header -> bytes;
  encode_header : Header -> bytes;
  decode_header : bytes -> option Header;
  (** [Block::Hash] as SCALE bytes. *)
  encode_hash : bytes -> bytes;
  decode_hash : bytes -> option bytes;
}.

Class ChainLaws `{ChainApi} : Prop := {
  block_hash_length h : length (block_hash h) = 32%nat;
  decode_encode_header h : decode_header (encode_header h) = Some h;
  decode_encode_hash h : length h = 32%nat -> decode_hash (encode_hash h) = Some h;
}.

(** ** Digests *)

(** [*b"hash"] and [*b"hedr"]. *)
Definition NAKAMOTO_HASH_ENGINE_ID : bytes := [0x68; 0x61; 0x73; 0x68].
Definition NAKAMOTO_HEADER_ENGINE_ID : bytes := [0x68; 0x65; 0x64; 0x72].

Inductive HeaderError :=
| MultiplePreRuntimeDigests
| MissingBitcoinBlockHashDigest
| InvalidBitcoinBlockHashDigest
| MissingBitcoinBlockHeader
| InvalidBitcoinBlockHeader.

(** The loop over the logs that looks for one pre-runtime digest of an engine. *)
Fixpoint find_pre_digest (engine : bytes) (logs : list DigestItem) (pre_digest : option bytes) :
    res HeaderError (option bytes) :=
  match logs with
  | [] => Ok pre_digest
  | PreRuntime id v :: logs =>
      if bool_decide (id = engine) then
        match pre_digest with
        | Some _ => Err MultiplePreRuntimeDigests
        | None => find_pre_digest engine logs (Some v)
        end
      else find_pre_digest engine logs pre_digest
  | OtherDigest :: logs => find_pre_digest engine logs pre_digest
  end.

Section chain.
Context `{!ChainApi}.
Implicit Types (c : Client).

Definition substrate_header_digest (bitcoin_header : Header) : list DigestItem :=
  [PreRuntime NAKAMOTO_HASH_ENGINE_ID (reverse (block_hash bitcoin_header));
   PreRuntime NAKAMOTO_HEADER_ENGINE_ID (encode_header bitcoin_header)].

Definition extract_bitcoin_block_hash (h : SubstrateHeader) : res HeaderError bytes :=
  pre_digest ← find_pre_digest NAKAMOTO_HASH_ENGINE_ID (digest_logs h) None;
  raw ← ok_or MissingBitcoinBlockHashDigest pre_digest;
  let raw_bitcoin_block_hash := reverse raw in
  if (length raw_bitcoin_block_hash =? 32)%nat then Ok raw_bitcoin_block_hash
  else Err InvalidBitcoinBlockHashDigest.

Definition extract_bitcoin_block_header (h : SubstrateHeader) : res HeaderError Header :=
  pre_digest ← find_pre_digest NAKAMOTO_HEADER_ENGINE_ID (digest_logs h) None;
  raw ← ok_or MissingBitcoinBlockHeader pre_digest;
  ok_or InvalidBitcoinBlockHeader (decode_header raw).

(** ** [BackendExt] *)

(** [Result::ok]; none of the computations it is applied to panics. *)
Definition ok {E A} (r : res E A) : option A :=
  match r with
  | Ok a => Some a
  | _ => None
  end.

Definition block_exists c (bitcoin_block_hash : bytes) : bool :=
  bool_decide (is_Some (ok_flatten (get_aux c bitcoin_block_hash))).

Definition substrate_block_hash_for c (bitcoin_block_hash : bytes) : option bytes :=
  ok_flatten (get_aux c bitcoin_block_hash) ≫= decode_hash.

Definition bitcoin_block_hash_for c (substrate_block_hash : bytes) : option bytes :=
  ok_flatten (client_header c substrate_block_hash) ≫= fun h => ok (extract_bitcoin_block_hash h).

Definition backend_block_number c (bitcoin_block_hash : bytes) : option Z :=
  substrate_block_hash_for c bitcoin_block_hash ≫= fun h => ok_flatten (client_number c h).

Definition backend_block_hash c (number : Z) : option bytes :=
  ok_flatten (client_hash c number) ≫= bitcoin_block_hash_for c.

Definition backend_block_header c (bitcoin_block_hash : bytes) : option Header :=
  substrate_block_hash_for c bitcoin_block_hash ≫= fun h =>
  ok_flatten (client_header c h) ≫= fun header => ok (extract_bitcoin_block_header header).

(** ** [ClientExt] *)

Definition MEDIAN_TIME_SPAN : nat := 11.
Definition ZERO_HASH : bytes := replicate 32 0.

(** The timestamps of up to [n] ancestors. *)
Fixpoint collect_timestamps c (n : nat) (prev_hash : bytes) : option (list Z) :=
  match n with
  | O => Some []
  | S n =>
      if bool_decide (prev_hash = ZERO_HASH) then Some []
      else
        header ← backend_block_header c prev_hash;
        rest ← collect_timestamps c n (prev_blockhash header);
        Some (header_time header :: rest)
  end.

Definition calculate_median_time_past c (hash : bytes) : option Z :=
  header ← backend_block_header c hash;
  rest ← collect_timestamps c (MEDIAN_TIME_SPAN - 1) (prev_blockhash header);
  let timestamps := merge_sort Z.le (header_time header :: rest) in
  timestamps !! (length timestamps / 2)%nat.

Record BlockMetadata := mk_block_metadata {
  bm_height : Z;
  bm_median_time_past : Z;
}.

Definition get_block_metadata c (hash : bytes) : option BlockMetadata :=
  height ← backend_block_number c hash;
  median_time_past ← calculate_median_time_past c hash;
  Some (mk_block_metadata height median_time_past).

Definition is_block_on_active_chain c (hash : bytes) : bool :=
  match (backend_block_number c hash ≫= backend_block_hash c) with
  | Some canonical_hash => bool_decide (canonical_hash = hash)
  | None => false
  end.
End chain.

(** ** Block locators *)

(** The loop of [locator_indexes]: [len] is the number of indexes pushed.  The
    step is a [u32]: doubling it past the range panics. *)
Fixpoint locator_loop {E} (fuel : nat) (from step : Z) (len : nat) : res E (list Z) :=
  match fuel with
  | O => Panic
  | S fuel =>
      if from <=? 0 then Ok [0]
      else
        step ← (if (8 <=? len)%nat then
                  (if step * 2 <=? u32_max then Ok (step * 2) else Panic)
                else Ok step);
        rest ← locator_loop fuel (Z.max 0 (from - step)) step (S len);
        Ok (from :: rest)
  end.

(** 40 iterations are enough for every [u32], see [locator_indexes_spec]. *)
Definition locator_indexes {E} (from : Z) : res E (list Z) := locator_loop 40 from 1 0.

Record BlockLocator := mk_block_locator {
  latest_block : Z;
  locator_hashes : list bytes;
}.

Section locator.
Context `{!ChainApi}.

(** The hash pushed for a height, if any. *)
Definition locator_hash (c : Client) (search_pending_block : Z -> option bytes) (height : Z) : option bytes :=
  match search_pending_block height with
  | Some bitcoin_hash => Some bitcoin_hash
  | None =>
      hash ← ok_flatten (client_hash c height);
      header ← ok_flatten (client_header c hash);
      bitcoin_block_hash_for c (substrate_hash header)
  end.

Definition block_locator {E} (c : Client) (from : option Z) (search_pending_block : Z -> option bytes) :
    res E BlockLocator :=
  let from := default (best_number c) from in
  indexes ← locator_indexes from;
  Ok (mk_block_locator from (omap (locator_hash c search_pending_block) indexes)).
End locator.

(** ** Digests: lemmas *)

Section digest_facts.
Context `{!ChainApi, !ChainLaws}.

(** An item that belongs to another engine. *)
Definition foreign (d : DigestItem) : Prop :=
  match d with
  | PreRuntime id _ => id <> NAKAMOTO_HASH_ENGINE_ID /\ id <> NAKAMOTO_HEADER_ENGINE_ID
  | OtherDigest => True
  end.

Lemma find_pre_digest_skip engine l rest acc :
  engine = NAKAMOTO_HASH_ENGINE_ID \/ engine = NAKAMOTO_HEADER_ENGINE_ID -> Forall foreign l ->
  find_pre_digest engine (l ++ rest) acc = find_pre_digest engine rest acc.
Proof.
  intros He. induction 1 as [| [id v |] l Hd Hl IH]; cbn; [done | | done].
  rewrite bool_decide_eq_false_2; [done |]. destruct Hd. by destruct He; subst.
Qed.

Lemma find_pre_digest_foreign engine l acc :
  engine = NAKAMOTO_HASH_ENGINE_ID \/ engine = NAKAMOTO_HEADER_ENGINE_ID -> Forall foreign l ->
  find_pre_digest engine l acc = Ok acc.
Proof. intros. rewrite <- (app_nil_r l). by rewrite find_pre_digest_skip. Qed.

Lemma extract_digest (h : Header) (sub : bytes) :
  extract_bitcoin_block_hash (mk_substrate_header (substrate_header_digest h) sub) = Ok (block_hash h) /\
  extract_bitcoin_block_header (mk_substrate_header (substrate_header_digest h) sub) = Ok h.
Proof.
  unfold extract_bitcoin_block_hash, extract_bitcoin_block_header, substrate_header_digest.
  cbn [digest_logs find_pre_digest].
  repeat first [rewrite (bool_decide_eq_true_2 (_ = _)) by reflexivity
               | rewrite (bool_decide_eq_false_2 (_ = _)) by discriminate].
  rbind. cbn [ok_or]. rbind. by rewrite reverse_involutive, block_hash_length, decode_encode_header.
Qed.

(** the Bitcoin hash and header put into the digest of a Substrate header are
    read back from it, whatever items of other engines surround them; a second
    item of one of the engines is refused. *)
Lemma digest_roundtrip (h : Header) (pre post : list DigestItem) (sub : bytes) :
  Forall foreign pre -> Forall foreign post ->
  let header := mk_substrate_header (pre ++ substrate_header_digest h ++ post) sub in
  let twice := mk_substrate_header (pre ++ substrate_header_digest h ++ substrate_header_digest h) sub in
  extract_bitcoin_block_hash header = Ok (block_hash h) /\
  extract_bitcoin_block_header header = Ok h /\
  extract_bitcoin_block_hash twice = Err MultiplePreRuntimeDigests /\
  extract_bitcoin_block_header twice = Err MultiplePreRuntimeDigests.
Proof.
  intros Hpre Hpost header twice.
  unfold extract_bitcoin_block_hash, extract_bitcoin_block_header, header, twice. cbn [digest_logs].
  rewrite !(find_pre_digest_skip _ pre) by auto. unfold substrate_header_digest.
  cbn [app find_pre_digest].
  repeat first [rewrite (bool_decide_eq_true_2 (_ = _)) by reflexivity
               | rewrite (bool_decide_eq_false_2 (_ = _)) by discriminate].
  rewrite !find_pre_digest_foreign by auto. rbind. cbn [ok_or]. rbind.
  by rewrite reverse_involutive, block_hash_length, decode_encode_header.
Qed.
End digest_facts.

(** ** Locators: lemmas *)

Section locator_facts.
Context {E : Type}.

Lemma locator_loop_terminates fuel k from len :
  (8 <= len)%nat -> 0 <= k <= 31 -> 32 - k <= Z.of_nat fuel ->
  0 <= from <= 2 ^ 32 - 2 ^ (k + 1) ->
  exists l, locator_loop (E := E) fuel from (2 ^ k) len = Ok l.
Proof.
  revert k from len. induction fuel as [| fuel IH]; intros k from len Hlen Hk Hfuel Hfrom; [lia |].
  cbn [locator_loop]. destruct (Z.leb_spec from 0) as [Hz | Hpos]; [eauto |].
  destruct (Nat.leb_spec 8 len); [| lia].
  assert (Hk31 : k + 1 < 32).
  { destruct (Z.lt_ge_cases (k + 1) 32) as [| Hge]; [done |].
    assert (k = 31) as -> by lia. lia. }
  replace (2 ^ k * 2) with (2 ^ (k + 1)) by (rewrite Z.pow_add_r by lia; lia).
  assert (2 ^ (k + 1) <= 2 ^ 31) by (apply Z.pow_le_mono_r; lia).
  rewrite (proj2 (Z.leb_le _ _)) by (unfold u32_max; lia). rbind.
  assert (Hpow : 2 ^ (k + 1 + 1) = 2 * 2 ^ (k + 1)) by (rewrite Z.pow_add_r by lia; lia).
  destruct (IH (k + 1) (Z.max 0 (from - 2 ^ (k + 1))) (S len)) as [l Hl]; [lia .. | lia |].
  rewrite Hl. rbind. eauto.
Qed.

Lemma locator_loop_first fuel from len :
  (len <= 8)%nat -> (8 - len + 32 <= fuel)%nat ->
  0 <= from -> from + Z.of_nat len <= u32_max ->
  exists l, locator_loop (E := E) fuel from 1 len = Ok l.
Proof.
  unfold u32_max. intros Hlen. remember (8 - len)%nat as d eqn:Hd.
  revert fuel from len Hlen Hd. induction d as [| d IH]; intros fuel from len Hlen Hd Hfuel Hfrom Hmax.
  - apply (locator_loop_terminates fuel 0 from len); lia.
  - destruct fuel as [| fuel]; [lia |]. cbn [locator_loop].
    destruct (Z.leb_spec from 0) as [| Hpos]; [eauto |].
    destruct (Nat.leb_spec 8 len); [lia |]. rbind.
    destruct (IH fuel (Z.max 0 (from - 1)) (S len)) as [l Hl]; [lia .. |].
    rewrite Hl. rbind. eauto.
Qed.

Lemma locator_loop_shape fuel from step len l :
  1 <= step -> 0 <= from -> locator_loop (E := E) fuel from step len = Ok l ->
  head l = Some from /\ last l = Some 0 /\ StronglySorted Z.gt l /\ (length l <= fuel)%nat.
Proof.
  revert from step len l. induction fuel as [| fuel IH]; intros from step len l Hs Hf; [done |].
  cbn [locator_loop]. destruct (Z.leb_spec from 0) as [Hz | Hpos].
  - intros [= <-]. assert (from = 0) as -> by lia. split_and!; [done | done | | cbn; lia].
    repeat constructor.
  - intros Hl. inv_ok.
    match goal with K : (if _ then _ else _) = Ok ?s |- _ => assert (1 <= s) by
      (destruct (8 <=? len)%nat; [destruct (_ <=? _) |]; inv_ok; lia); rename s into st end.
    match goal with K : locator_loop _ _ _ _ = Ok ?r |- _ =>
      destruct (IH (Z.max 0 (from - st)) st (S len) r ltac:(lia) ltac:(lia) K) as (Hh & Hl & Hsort & Hlen);
      rename r into rest end.
    destruct rest as [| y rest]; [done |]. injection Hh as ->.
    split_and!; [done | done | | cbn [length] in *; lia].
    constructor; [done |]. apply StronglySorted_inv in Hsort as [_ Hall].
    constructor; [lia |]. eapply Forall_impl; [exact Hall |]. cbn. intros. lia.
Qed.

Lemma locator_loop_dense fuel from len l (j : nat) :
  (len + j <= 8)%nat -> Z.of_nat j <= from ->
  locator_loop (E := E) fuel from 1 len = Ok l -> l !! j = Some (from - Z.of_nat j).
Proof.
  revert from len l j. induction fuel as [| fuel IH]; intros from len l j Hj Hf; [done |].
  cbn [locator_loop]. destruct (Z.leb_spec from 0) as [Hz | Hpos].
  - intros [= <-]. assert (j = 0%nat) as -> by lia. cbn. f_equal. lia.
  - intros Hl. inv_ok. destruct j as [| j]; [cbn; f_equal; lia |].
    destruct (Nat.leb_spec 8 len); [lia |]. inv_ok. cbn [lookup list_lookup].
    match goal with K : locator_loop _ _ _ _ = Ok _ |- _ => apply (IH _ (S len) _ j) in K; [| lia ..] end.
    etransitivity; [eassumption |]. f_equal. lia.
Qed.

Lemma locator_indexes_full from :
  is_u32 from ->
  exists l, locator_indexes (E := E) from = Ok l /\
    head l = Some from /\ last l = Some 0 /\ StronglySorted Z.gt l /\ (length l <= 40)%nat /\
    forall j : nat, (j <= 8)%nat -> Z.of_nat j <= from -> l !! j = Some (from - Z.of_nat j).
Proof.
  intros Hf. unfold is_u32 in Hf. unfold locator_indexes.
  destruct (locator_loop_first 40 from 0) as [l Hl]; [lia .. |]. exists l.
  destruct (locator_loop_shape 40 from 1 0 l ltac:(lia) ltac:(lia) Hl) as (? & ? & ? & ?).
  split_and!; try done. intros j Hj Hjf. by apply (locator_loop_dense 40 from 0 l j).
Qed.

(** for every [u32] height the locator heights are computed without overflow
    of the step and within 40 iterations: they start at the given height, go
    down strictly, without a gap over the first eight blocks, and end with the
    genesis block, in at most 40 entries. *)
Lemma locator_indexes_spec from :
  is_u32 from ->
  exists l, locator_indexes (E := E) from = Ok l /\
    head l = Some from /\ last l = Some 0 /\ StronglySorted Z.gt l /\ (length l <= 40)%nat /\
    forall j : nat, (j <= 8)%nat -> Z.of_nat j <= from -> l !! j = Some (from - Z.of_nat j).
Proof. apply locator_indexes_full. Qed.
End locator_facts.

Lemma locator_indexes_spec_witness :
  exists l, locator_indexes (E := unit) 20 = Ok l /\ l !! 8%nat = Some 12.
Proof.
  destruct (locator_indexes_spec (E := unit) 20) as (l & Hl & _ & _ & _ & _ & Hd).
  - vm_compute. split; congruence.
  - exists l. split; [exact Hl |]. apply (Hd 8%nat); lia.
Defined.

(** ** Median time past: lemmas *)

Lemma sorted_lookup_le (l : list Z) (i j : nat) (a b : Z) :
  StronglySorted Z.le l -> (i <= j)%nat -> l !! i = Some a -> l !! j = Some b -> a <= b.
Proof.
  intros Hs Hij Ha Hb. destruct (decide (i = j)) as [-> | Hne]; [rewrite Ha in Hb; injection Hb; lia |].
  apply (StronglySorted_app_1_elem_of Z.le (take j l) (drop j l)).
  - by rewrite take_drop.
  - apply list_elem_of_lookup. exists i. by rewrite lookup_take_lt by lia.
  - apply list_elem_of_lookup. exists 0%nat. by rewrite lookup_drop, Nat.add_0_r.
Qed.

Lemma filter_all_length {A} (P : A -> Prop) `{!forall x, Decision (P x)} (l : list A) :
  Forall P l -> length (filter P l) = length l.
Proof.
  induction 1 as [| x l Hx Hl IH]; [done |]. rewrite filter_cons_True by done. cbn. by rewrite IH.
Qed.

(** In a sorted list the element in position [k] has [k + 1] elements up to it
    and all but [k] from it on. *)
Lemma sorted_rank (l : list Z) (k : nat) (m : Z) :
  StronglySorted Z.le l -> l !! k = Some m ->
  (k < length (filter (fun t => (t <= m)%Z) l))%nat /\
  (length l - k <= length (filter (fun t => (m <= t)%Z) l))%nat.
Proof.
  intros Hs Hm. pose proof (lookup_lt_Some _ _ _ Hm) as Hk. split.
  - rewrite <- (take_drop (S k) l), filter_app, length_app, filter_all_length.
    + rewrite length_take. lia.
    + apply Forall_lookup. intros i x [Hx Hi]%lookup_take_Some.
      apply (sorted_lookup_le l i k x m Hs); [lia | done ..].
  - rewrite <- (take_drop k l) at 2.
    rewrite filter_app, length_app, (filter_all_length _ (drop k l)).
    + rewrite length_drop. lia.
    + apply Forall_lookup. intros i x Hx. rewrite lookup_drop in Hx.
      apply (sorted_lookup_le l k (k + i) m x Hs); [lia | done ..].
Qed.

Section median.
Context `{!ChainApi}.
Implicit Types (c : Client) (hs : list Header).

(** [hs] are the headers found from [hash] on, following the parent hashes. *)
Fixpoint ancestry c (hash : bytes) hs : Prop :=
  match hs with
  | [] => True
  | h :: hs => backend_block_header c hash = Some h /\ ancestry c (prev_blockhash h) hs
  end.

(** It has [n] headers, or ends at the first block of the chain. *)
Fixpoint full_window (n : nat) (hash : bytes) hs : Prop :=
  match n, hs with
  | O, [] => True
  | S n, [] => hash = ZERO_HASH
  | S n, h :: hs => hash <> ZERO_HASH /\ full_window n (prev_blockhash h) hs
  | O, _ :: _ => False
  end.

Lemma collect_timestamps_spec c n hash hs :
  ancestry c hash hs -> full_window n hash hs ->
  collect_timestamps c n hash = Some (map header_time hs).
Proof.
  revert hash hs. induction n as [| n IH]; intros hash [| h hs]; cbn; try done.
  - by intros _ ->.
  - intros [Hh Ha] [Hz Hw]. rewrite bool_decide_eq_false_2 by done. rewrite Hh. cbn.
    by rewrite (IH _ _ Ha Hw).
Qed.

(** the median time past of a block is one of the timestamps of the block
    and its up to ten ancestors; at least half of them are not later than it
    and at least half not earlier. *)
Lemma median_time_past_spec c hash h hs :
  ancestry c hash (h :: hs) -> full_window 10 (prev_blockhash h) hs ->
  exists m, calculate_median_time_past c hash = Some m /\
    let ts := map header_time (h :: hs) in
    m ∈ ts /\
    (length ts < 2 * length (filter (fun t => (t <= m)%Z) ts))%nat /\
    (length ts <= 2 * length (filter (fun t => (m <= t)%Z) ts))%nat.
Proof.
  intros [Hh Ha] Hw. unfold calculate_median_time_past. rewrite Hh. cbn [mbind option_bind].
  change (MEDIAN_TIME_SPAN - 1)%nat with 10%nat. rewrite (collect_timestamps_spec _ _ _ _ Ha Hw).
  cbn [mbind option_bind]. change (header_time h :: map header_time hs) with (map header_time (h :: hs)).
  set (ts := map header_time (h :: hs)). pose proof (merge_sort_Permutation Z.le ts) as Hp.
  assert (Hs : StronglySorted Z.le (merge_sort Z.le ts)) by apply (StronglySorted_merge_sort Z.le).
  pose proof (Permutation_length Hp) as Hlen.
  assert (Hpos : (length ts <> 0)%nat) by done.
  destruct (lookup_lt_is_Some_2 (merge_sort Z.le ts) (length (merge_sort Z.le ts) / 2)) as [m Hm].
  { rewrite Hlen. apply Nat.div_lt; lia. }
  exists m. split; [done |]. cbv zeta. destruct (sorted_rank _ _ _ Hs Hm) as [Hle Hge].
  rewrite !Hlen in *. rewrite (Permutation_length (filter_Permutation _ _ _ Hp)) in Hle.
  rewrite (Permutation_length (filter_Permutation _ _ _ Hp)) in Hge.
  pose proof (Nat.div_mod_eq (length ts) 2). pose proof (Nat.mod_upper_bound (length ts) 2).
  split_and!; [| lia | lia]. rewrite <- Hp. by eapply list_elem_of_lookup_2.
Qed.
End median.

(** ** Instances *)

(** A concrete instance: the hash of a header is its nonce on 32 bytes; a header
    is encoded field by field, the parent hash with its length. *)
Module SampleChain.
Definition sample_decode (bs : bytes) : option Header :=
  match bs with
  | v :: t :: b :: n :: k :: rest =>
      Some (mk_header v (firstn (Z.to_nat k) rest) (skipn (Z.to_nat k) rest) t b n)
  | _ => None
  end.

Definition chain_api : ChainApi := {|
  block_hash h := le_bytes 32 (nonce h);
  encode_header h :=
    [header_version h; header_time h; bits h; nonce h; Z.of_nat (length (prev_blockhash h))]
    ++ prev_blockhash h ++ merkle_root h;
  decode_header := sample_decode;
  encode_hash h := h;
  decode_hash h := Some h;
|}.
#[export] Existing Instance chain_api.

#[export] Instance chain_laws : ChainLaws.
Proof.
  split; [intros; apply le_bytes_length | | done].
  intros [v p m t b n]. cbn. by rewrite Nat2Z.id, take_app_length, drop_app_length.
Qed.

(** Headers with nonces 1 to 4; the last one is the best block. *)
Definition header (n t : Z) : Header :=
  mk_header 4 (if n =? 1 then ZERO_HASH else le_bytes 32 (n - 1)) [] t 0x207fffff n.

Definition times : list Z := [100; 130; 120; 140].

Definition find_header (hash : bytes) : option SubstrateHeader :=
  let n := le_value hash in
  t ← (if (1 <=? n) then times !! Z.to_nat (n - 1) else None);
  Some (mk_substrate_header (substrate_header_digest (header n t)) hash).

Definition client : Client := {|
  get_aux k := inr (match find_header k with Some _ => Some k | None => None end);
  client_number hash := inr (match find_header hash with Some _ => Some (le_value hash - 1) | None => None end);
  client_hash n := inr (if (0 <=? n) && (n <? 4) then Some (le_bytes 32 (n + 1)) else None);
  client_header hash := inr (find_header hash);
  best_hash := le_bytes 32 4;
  best_number := 3;
|}.
End SampleChain.

Import (hints) SampleChain.

Lemma digest_roundtrip_witness :
  extract_bitcoin_block_header
    (mk_substrate_header (OtherDigest :: substrate_header_digest (SampleChain.header 3 120) ++
       [PreRuntime [1; 2; 3; 4] []]) []) = Ok (SampleChain.header 3 120).
Proof.
  destruct (digest_roundtrip (SampleChain.header 3 120) [OtherDigest] [PreRuntime [1; 2; 3; 4] []] [])
    as (_ & Hh & _).
  - by constructor.
  - by constructor.
  - exact Hh.
Defined.

Lemma median_time_past_spec_witness :
  exists m, calculate_median_time_past SampleChain.client (le_bytes 32 3) = Some m /\ m ∈ [120; 130; 100].
Proof.
  destruct (median_time_past_spec SampleChain.client (le_bytes 32 3) (SampleChain.header 3 120)
    [SampleChain.header 2 130; SampleChain.header 1 100]) as (m & Hm & Hin & _).
  - cbn [ancestry]. split_and!; (reflexivity || exact I).
  - cbn [full_window]. split_and!; [discriminate | discriminate | reflexivity].
  - exists m. split; [exact Hm | exact Hin].
Defined.
