(* ===== verification/HeaderVerify.v ===== *)
(** * Header verification ([crates/sc-consensus-nakamoto/src/chain_params.rs],
      [verification/header_verify.rs])

    Chain parameters, the difficulty adjustment, and the checks of a block
    header against its parent. *)

From Stdlib Require Import ZArith Lia.
From stdpp Require Import prelude sorting.
From S2P Require Import Prelude Bitcoin Client.

(** ** Chain parameters *)

(** [bitcoin::Network]. *)
Inductive Network := Mainnet | Testnet | Signet | Regtest | OtherNetwork.

(** [bitcoin::consensus::Params], as far as it is used;
    [difficulty_adjustment_interval] is the method of that name. *)
Record Params := mk_params {
  bip34_height : Z;
  bip65_height : Z;
  bip66_height : Z;
  no_pow_retargeting : bool;
  pow_target_timespan : Z;
  difficulty_adjustment_interval : Z;
  max_attainable_target : Z;
}.

Record ChainParams := mk_chain_params {
  params : Params;
  csv_height : Z;
  segwit_height : Z;
  script_flag_exceptions : list (bytes * Z);
}.

(** Flags of the bitcoinconsensus crate. *)
Definition CORE_VERIFY_NONE : Z := 0.
Definition CORE_VERIFY_P2SH : Z := Z.shiftl 1 0.
Definition CORE_VERIFY_DERSIG : Z := Z.shiftl 1 2.
Definition CORE_VERIFY_NULLDUMMY : Z := Z.shiftl 1 4.
Definition CORE_VERIFY_CHECKLOCKTIMEVERIFY : Z := Z.shiftl 1 9.
Definition CORE_VERIFY_CHECKSEQUENCEVERIFY : Z := Z.shiftl 1 10.
Definition CORE_VERIFY_WITNESS : Z := Z.shiftl 1 11.

(** Proof of work in rust-bitcoin; a [Target] is the number it denotes. *)
Class PowApi := {
  params_new : Network -> Params;
  (** [Header::target]. *)
  target : Header -> Z;
  (** [Target::to_compact_lossy().to_consensus()]. *)
  to_compact : Z -> Z;
  (** [Header::validate_pow] succeeds. *)
  validate_pow : Header -> Z -> bool;
  (** [Target::MAX]. *)
  target_max : Z;
  (** [Header::work]. *)
  work : Header -> Z;
}.

(** A hash as it is displayed: the bytes in reverse order. *)
Definition parse_hash (displayed : Z) : bytes := le_bytes 32 displayed.

Definition chain_params_new `{!PowApi} {E} (network : Network) : res E ChainParams :=
  let params := params_new network in
  match network with
  | Mainnet => Ok (mk_chain_params params 419328 481824
      [(parse_hash 0x00000000000002dc756eebf4f49723ed8d30cc28a5f108eb94b1ba88ac4f9c22,
        CORE_VERIFY_NONE);
       (parse_hash 0x0000000000000000000f14c35b2d841e986ab5441de8c585d5ffe55ea1e395ad,
        Z.lor CORE_VERIFY_P2SH CORE_VERIFY_WITNESS)])
  | Testnet => Ok (mk_chain_params params 770112 834624
      [(parse_hash 0x00000000dd30457c001f4095d208cc1296b0eed002427aa599874af7a432b105,
        CORE_VERIFY_NONE)])
  | Signet => Ok (mk_chain_params params 1 1 [])
  | Regtest => Ok (mk_chain_params params 1 0 [])
  | OtherNetwork => Panic
  end.

(** ** Difficulty adjustment *)

Inductive HeaderVerifyError :=
| BadDifficultyBits (got expected : Z)
| InvalidProofOfWork
| TooFarInFuture
| TimeTooOld
| BadVersion
| HeaderClientError (e : ClientError).

Definition MAX_FUTURE_BLOCK_TIME : Z := 2 * 60 * 60.

(** [U256] multiplication wraps around. *)
Definition u256_mul (a b : Z) : Z := (a * b) mod 2 ^ 256.

Definition calculate_next_work_required (previous_target first_block_time last_block_time : Z)
    (params : Params) : Z :=
  let actual_timespan := Z.max 0 (last_block_time - first_block_time) in
  let pow_target_timespan := pow_target_timespan params in
  let actual_timespan :=
    if actual_timespan <? pow_target_timespan / 4 then pow_target_timespan / 4 else actual_timespan in
  let actual_timespan :=
    if pow_target_timespan * 4 <? actual_timespan then pow_target_timespan * 4 else actual_timespan in
  let pow_limit := max_attainable_target params in
  let target := u256_mul previous_target actual_timespan / pow_target_timespan in
  if pow_limit <? target then pow_limit else target.

Section verify.
Context `{!ChainApi, !PowApi}.
Implicit Types (c : Client).

Definition get_next_work_required c (last_block_height : Z) (last_block : Header) (params : Params) :
    res HeaderVerifyError Z :=
  if no_pow_retargeting params then Ok (target last_block)
  else
    height ← expect (checked_u32 (last_block_height + 1));
    let interval := difficulty_adjustment_interval params in
    if (interval <=? height) && (height mod interval =? 0) then
      let last_retarget_height := height - interval in
      retarget_header_hash ← expect (backend_block_hash c last_retarget_height);
      retarget_header ← expect (backend_block_header c retarget_header_hash);
      Ok (calculate_next_work_required (target last_block) (header_time retarget_header)
            (header_time last_block) params)
    else Ok (target last_block).

(** [HeaderVerifier::verify]; [current_time] is the system clock in seconds. *)
Definition header_verify c (chain_params : ChainParams) (current_time : Z) (header : Header) :
    res HeaderVerifyError Z :=
  let prev_block_hash := prev_blockhash header in
  prev_block_header ← ok_or (HeaderClientError MissingHeader) (backend_block_header c prev_block_hash);
  prev_block_height ← expect (backend_block_number c prev_block_hash);
  expected_target ← get_next_work_required c prev_block_height prev_block_header (params chain_params);
  let expected_bits := to_compact expected_target in
  let actual_target := target header in
  let actual_bits := to_compact actual_target in
  reject_if (negb (actual_bits =? expected_bits)) (BadDifficultyBits actual_target expected_target);;
  reject_if (negb (validate_pow header actual_target)) InvalidProofOfWork;;
  latest_time ← expect (checked_u32 (current_time + MAX_FUTURE_BLOCK_TIME));
  reject_if (latest_time <? header_time header) TooFarInFuture;;
  block_number ← expect (checked_u32 (prev_block_height + 1));
  let version := header_version header in
  reject_if ((version <? 2) && (bip34_height (params chain_params) <=? block_number)
             || (version <? 3) && (bip66_height (params chain_params) <=? block_number)
             || (version <? 4) && (bip65_height (params chain_params) <=? block_number)) BadVersion;;
  if csv_height chain_params <=? block_number then
    let block_hash := block_hash header in
    mtp ← expect (calculate_median_time_past c block_hash);
    let mtp := wrap_u32 mtp in
    reject_if (header_time header <=? mtp) TimeTooOld;;
    Ok mtp
  else Ok (header_time header).

Definition has_valid_proof_of_work (chain_params : ChainParams) (header : Header) : bool :=
  let t := target header in
  if (t =? 0) || (target_max <? t) || (max_attainable_target (params chain_params) <? t) then false
  else validate_pow header t.
End verify.

(** ** The difficulty adjustment stays in range *)

(** C11: at a retarget the new target is the old one scaled by the time the last
    period took, the factor limited to the range from a quarter to four; it
    never exceeds the limit of the chain, and the 256 bit product does not
    overflow for a chain whose limit leaves room for it, as Bitcoin's does. *)
Theorem retarget_spec (previous first last : Z) (p : Params) :
  0 <= previous <= max_attainable_target p ->
  0 < pow_target_timespan p -> pow_target_timespan p mod 4 = 0 ->
  max_attainable_target p * (pow_target_timespan p * 4) < 2 ^ 256 ->
  let T := pow_target_timespan p in
  let timespan := Z.min (T * 4) (Z.max (T / 4) (last - first)) in
  let new := calculate_next_work_required previous first last p in
  new = Z.min (max_attainable_target p) (previous * timespan / T) /\
  0 <= new <= 4 * previous /\ (previous / 4 <= new).
Proof.
  intros Hprev HT H4 Hroom T timespan new.
  assert (Hts : T / 4 <= timespan <= T * 4) by (unfold timespan, T in *; zdm).
  assert (Hq : 0 <= T / 4) by (apply Z.div_pos; unfold T; lia).
  assert (Hprod : 0 <= previous * timespan < 2 ^ 256) by (unfold T in *; nia).
  assert (Hnew : new = Z.min (max_attainable_target p) (previous * timespan / T)).
  { unfold new, calculate_next_work_required. fold T. cbv zeta.
    set (a := if Z.max 0 (last - first) <? T / 4 then T / 4 else Z.max 0 (last - first)).
    assert (Ha : (if T * 4 <? a then T * 4 else a) = timespan).
    { unfold a, timespan. destruct (Z.ltb_spec (Z.max 0 (last - first)) (T / 4));
        [destruct (Z.ltb_spec (T * 4) (T / 4)) |
         destruct (Z.ltb_spec (T * 4) (Z.max 0 (last - first)))]; lia. }
    rewrite Ha. unfold u256_mul. rewrite Z.mod_small by lia.
    destruct (Z.ltb_spec (max_attainable_target p) (previous * timespan / T)); lia. }
  split; [done |]. rewrite Hnew.
  assert (Hlo : previous / 4 <= previous * timespan / T).
  { apply Z.div_le_lower_bound; [done |].
    assert (HTq : T = 4 * (T / 4)) by (unfold T in *; zdm).
    pose proof (Z.mul_div_le previous 4). nia. }
  assert (Hhi : previous * timespan / T <= 4 * previous).
  { apply Z.div_le_upper_bound; [done |]. nia. }
  pose proof (Z.div_le_upper_bound previous 4 previous). assert (0 <= previous / 4) by (apply Z.div_pos; lia).
  lia.
Qed.

(** The parameters of Bitcoin mainnet. *)
Definition mainnet_params : Params :=
  mk_params 227931 388381 363725 false 1209600 2016 (0xffff * 2 ^ 208).

Lemma retarget_spec_witness :
  calculate_next_work_required 1000000 0 (2 * 1209600) mainnet_params = 2000000 /\
  0 <= calculate_next_work_required 1000000 0 (2 * 1209600) mainnet_params <= 4 * 1000000.
Proof.
  destruct (retarget_spec 1000000 0 (2 * 1209600) mainnet_params) as (Hnew & Hb & _);
    [vm_compute; split; congruence | reflexivity | reflexivity | reflexivity |].
  split; [rewrite Hnew; reflexivity | exact Hb].
Defined.

(** ** Accepted headers *)

Section header_facts.
Context `{!ChainApi, !PowApi}.
Implicit Types (c : Client).

(** The version a block must have at a height. *)
Definition required_version (p : Params) (number : Z) : Z :=
  if bip65_height p <=? number then 4
  else if bip66_height p <=? number then 3
  else if bip34_height p <=? number then 2
  else i64_min.

(** The checks of a header that do not depend on the median time. *)
Record header_ok c (cp : ChainParams) (now expected number : Z) (header : Header) : Prop := {
  ok_bits : to_compact (target header) = to_compact expected;
  ok_pow : validate_pow header (target header) = true;
  ok_time : header_time header <= now + MAX_FUTURE_BLOCK_TIME;
  ok_version : required_version (params cp) number <= header_version header;
}.

Lemma version_test (p : Params) number version :
  i64_min <= version -> 
  bip34_height p <= bip66_height p <= bip65_height p ->
  (version <? 2) && (bip34_height p <=? number) || (version <? 3) && (bip66_height p <=? number)
    || (version <? 4) && (bip65_height p <=? number) = false <->
  required_version p number <= version.
Proof.
  unfold required_version. intros Hv Hp.
  destruct (Z.ltb_spec version 2), (Z.ltb_spec version 3), (Z.ltb_spec version 4),
    (Z.leb_spec (bip34_height p) number), (Z.leb_spec (bip66_height p) number),
    (Z.leb_spec (bip65_height p) number); cbn; (split; [try discriminate | ]; lia) || lia.
Qed.

Lemma header_verify_steps c cp now header prev height expected :
  backend_block_header c (prev_blockhash header) = Some prev ->
  backend_block_number c (prev_blockhash header) = Some height ->
  get_next_work_required c height prev (params cp) = Ok expected ->
  is_u32 (now + MAX_FUTURE_BLOCK_TIME) -> is_u32 (height + 1) ->
  i64_min <= header_version header ->
  bip34_height (params cp) <= bip66_height (params cp) <= bip65_height (params cp) ->
  header_ok c cp now expected (height + 1) header /\
    header_verify c cp now header =
      (if csv_height cp <=? height + 1 then
         mtp ← expect (calculate_median_time_past c (block_hash header));
         reject_if (header_time header <=? wrap_u32 mtp) TimeTooOld;;
         Ok (wrap_u32 mtp)
       else Ok (header_time header)) \/
  ~ header_ok c cp now expected (height + 1) header /\
    exists e, header_verify c cp now header = Err e.
Proof.
  intros Hprev Hnum Hexp Hnow Hheight Hver Hbips. unfold header_verify.
  rewrite Hprev, Hnum. cbn [ok_or expect]. rbind. rewrite Hexp. rbind.
  destruct (Z.eqb_spec (to_compact (target header)) (to_compact expected)) as [Hb | Hb];
    cbn [negb reject_if]; rbind; [| right; split; [by intros [] | eauto]].
  destruct (validate_pow header (target header)) eqn:Hpow;
    cbn [negb reject_if]; rbind; [| right; split; [intros []; congruence | eauto]].
  rewrite (checked_u32_Ok (now + _)) by done. rbind.
  destruct (Z.ltb_spec (now + MAX_FUTURE_BLOCK_TIME) (header_time header));
    cbn [reject_if]; rbind; [right; split; [intros []; lia | eauto] |].
  rewrite checked_u32_Ok by done. rbind.
  pose proof (version_test (params cp) (height + 1) (header_version header) Hver Hbips) as Hvt.
  destruct (_ || _); cbn [reject_if]; rbind.
  - right. split; [intros []; by apply Hvt in ok_version0 | eauto].
  - left. split; [| done]. split; [done | done | lia | by apply Hvt].
Qed.

Lemma unknown_header_no_mtp c hash :
  backend_block_header c hash = None -> calculate_median_time_past c hash = None.
Proof. unfold calculate_median_time_past. by intros ->. Qed.

Lemma header_verify_Ok c cp now header t :
  header_verify c cp now header = Ok t ->
  exists height, backend_block_number c (prev_blockhash header) = Some height /\
    (csv_height cp <= height + 1 -> backend_block_header c (block_hash header) <> None).
Proof.
  intros Hok. unfold header_verify in Hok. apply bind_Ok in Hok as (prev & _ & Hok).
  apply bind_Ok in Hok as (height & Hh & Hok). apply expect_Ok in Hh. exists height. split; [done |].
  do 4 apply bind_Ok in Hok as (? & _ & Hok). apply bind_Ok in Hok as (? & _ & Hok).
  apply bind_Ok in Hok as (number & Hn & Hok). apply expect_Ok in Hn. unfold checked_u32 in Hn.
  destruct (_ && _); [injection Hn as <- | done]. apply bind_Ok in Hok as (? & _ & Hok).
  intros Hcsv Hnone. destruct (Z.leb_spec (csv_height cp) (height + 1)); [| lia].
  by rewrite (unknown_header_no_mtp _ _ Hnone) in Hok.
Qed.

(** C10: below the height where relative lock times activate, a header on a known
    parent is accepted exactly when its difficulty bits, proof of work, time
    and version are right, and the cut-off for lock times is its own time.
    From that height on the verifier asks for the median time of the block
    being verified: for a block the client does not know yet, every header
    that passes these checks makes it panic. *)
Theorem header_verify_spec c cp now header prev height expected :
  backend_block_header c (prev_blockhash header) = Some prev ->
  backend_block_number c (prev_blockhash header) = Some height ->
  get_next_work_required c height prev (params cp) = Ok expected ->
  is_u32 (now + MAX_FUTURE_BLOCK_TIME) -> is_u32 (height + 1) ->
  i64_min <= header_version header ->
  bip34_height (params cp) <= bip66_height (params cp) <= bip65_height (params cp) ->
  (height + 1 < csv_height cp ->
     forall t, header_verify c cp now header = Ok t <->
       header_ok c cp now expected (height + 1) header /\ t = header_time header) /\
  (csv_height cp <= height + 1 -> backend_block_header c (block_hash header) = None ->
     header_ok c cp now expected (height + 1) header ->
     header_verify c cp now header = Panic).
Proof.
  intros Hprev Hnum Hexp Hnow Hheight Hver Hbips.
  destruct (header_verify_steps c cp now header prev height expected Hprev Hnum Hexp Hnow Hheight Hver Hbips)
    as [[Hok ->] | [Hno [e ->]]]; (split; [intros Hcsv t | intros Hcsv Hnew]).
  - destruct (Z.leb_spec (csv_height cp) (height + 1)); [lia |]. naive_solver.
  - destruct (Z.leb_spec (csv_height cp) (height + 1)); [| lia].
    by rewrite (unknown_header_no_mtp _ _ Hnew).
  - naive_solver.
  - done.
Qed.
End header_facts.

(** ** Instances *)

(** Every target is the header's [bits]; any nonce is work enough. *)
Module SamplePow.
Definition pow_api : PowApi := {|
  params_new n := match n with
                  | Mainnet => mainnet_params
                  | _ => mk_params 1 1 1 true 1209600 2016 (2 ^ 255)
                  end;
  target := bits;
  to_compact t := t;
  validate_pow _ _ := true;
  target_max := 2 ^ 224;
  work _ := 2;
|}.
#[export] Existing Instance pow_api.

Definition regtest : ChainParams := mk_chain_params (params_new Regtest) 1 0 [].
End SamplePow.

Import (hints) SampleChain SamplePow.

(** The next block on a chain like regtest's, where relative lock times are
    active from the first block on. *)
Lemma header_verify_spec_witness :
  header_verify SampleChain.client SamplePow.regtest 1000 (SampleChain.header 5 150) = Panic.
Proof.
  assert (Hok : header_ok SampleChain.client SamplePow.regtest 1000 0x207fffff (3 + 1)
                  (SampleChain.header 5 150)) by (split; by vm_compute).
  destruct (header_verify_spec SampleChain.client SamplePow.regtest 1000 (SampleChain.header 5 150)
    (SampleChain.header 4 140) 3 0x207fffff) as [_ Hpanic];
    [reflexivity | reflexivity | reflexivity | vm_compute; split; congruence
     | vm_compute; split; congruence | by vm_compute | vm_compute; split; congruence |].
  apply Hpanic; [by vm_compute | reflexivity | exact Hok].
Defined.
