(* ===== verification/Import.v ===== *)
(** * Block import and fork choice ([crates/sc-consensus-nakamoto/src/block_import.rs],
      [aux_schema.rs])

    The cumulative work of every block is kept in the auxiliary store of the
    client; a block becomes the best one when its chain has more work than the
    best chain so far.  The theorem on the sequence of imports shows that the
    best block always heads a chain with the most work. *)

From Stdlib Require Import ZArith Lia.
From stdpp Require Import prelude gmap sorting.
From S2P Require Import Prelude Bitcoin Client HeaderVerify.

(** ** Cumulative work in the auxiliary store ([aux_schema.rs]) *)

(** [b"chain_work"]. *)
Definition CHAIN_WORK : bytes := [0x63; 0x68; 0x61; 0x69; 0x6e; 0x5f; 0x77; 0x6f; 0x72; 0x6b].

(** The SCALE encoding of the pair of [b"chain_work"] and the vector of the 32
    bytes of a block hash: the array as it is, the compact length of the
    vector, its bytes. *)
Definition chain_work_key (bitcoin_block_hash : bytes) : bytes :=
  CHAIN_WORK ++ [Z.shiftl 32 2] ++ bitcoin_block_hash.

(** The entry for [write_aux]. *)
Definition write_chain_work (bitcoin_block_hash : bytes) (chain_work : Z) : bytes * bytes :=
  (chain_work_key bitcoin_block_hash, le_bytes 32 chain_work).

(** [T::decode] at [[u8; 32]]: fewer bytes are an error, more are ignored. *)
Definition load_decode (c : Client) (key : bytes) : res ClientError (option bytes) :=
  t ← of_sum (get_aux c key);
  match t with
  | Some t => if (length t <? 32)%nat then Err BackendError else Ok (Some (firstn 32 t))
  | None => Ok None
  end.

Definition load_chain_work (c : Client) (bitcoin_block_hash : bytes) : res ClientError Z :=
  t ← load_decode c (chain_work_key bitcoin_block_hash);
  w ← ok_or BackendError t;
  Ok (le_value w).

(** ** Work and fork choice *)

(** Addition of [Work]: 256 bits. *)
Definition checked_u256 (z : Z) : option Z := if (0 <=? z) && (z <? 2 ^ 256) then Some z else None.

Section import.
Context `{!ChainApi, !PowApi}.
Implicit Types (c : Client).

(** The cumulative work of the block, and whether it becomes the best one. *)
Definition calculate_chain_work_and_fork_choice c (block_header : Header) (block_number : Z) :
    res ClientError (Z * bool) :=
  let prev_blockhash := prev_blockhash block_header in
  parent_work ←
    (if block_number =? 1 then
       genesis ← expect (backend_block_header c prev_blockhash);
       Ok (work genesis)
     else load_chain_work c prev_blockhash);
  total_work ← expect (checked_u256 (parent_work + work block_header));
  parent_hash ← ok_or BackendError (substrate_block_hash_for c prev_blockhash);
  last_best_work ←
    (if bool_decide (best_hash c = parent_hash) then Ok parent_work
     else
       bitcoin_block_hash ← expect (bitcoin_block_hash_for c (best_hash c));
       load_chain_work c bitcoin_block_hash);
  Ok (total_work, last_best_work <? total_work).

(** The auxiliary entries of an import. *)
Definition write_aux_storage (bitcoin_block_hash substrate_block_hash : bytes) (chain_work : Z) :
    list (bytes * bytes) :=
  [(bitcoin_block_hash, encode_hash substrate_block_hash);
   write_chain_work bitcoin_block_hash chain_work].

(** ** Imports *)

(** What the Substrate client does with an import: it stores the auxiliary
    entries, the header and its number, and takes the block as the best one
    when the fork choice says so. *)
Definition lookup_aux (aux : list (bytes * bytes)) (k : bytes) : option bytes :=
  snd <$> find (fun e => bool_decide (e.1 = k)) aux.

Definition import_into c (number : Z) (header : SubstrateHeader) (aux : list (bytes * bytes)) (best : bool) :
    Client := {|
  get_aux k := match lookup_aux aux k with
               | Some v => inr (Some v)
               | None => get_aux c k
               end;
  client_number h := if bool_decide (h = substrate_hash header) then inr (Some number) else client_number c h;
  client_hash n := client_hash c n;
  client_header h := if bool_decide (h = substrate_hash header) then inr (Some header) else client_header c h;
  best_hash := if best then substrate_hash header else best_hash c;
  best_number := if best then number else best_number c;
|}.

(** A client that knows the genesis block only. *)
Record genesis_client c (genesis : Header) (sub : bytes) : Prop := {
  gc_length : length sub = 32%nat;
  gc_header : backend_block_header c (block_hash genesis) = Some genesis;
  gc_sub : substrate_block_hash_for c (block_hash genesis) = Some sub;
  gc_number : backend_block_number c (block_hash genesis) = Some 0;
  gc_back : bitcoin_block_hash_for c sub = Some (block_hash genesis);
  gc_best : best_hash c = sub;
  gc_aux k : k <> block_hash genesis -> get_aux c k = inr None;
  gc_headers h : h <> sub -> client_header c h = inr None;
}.

(** The clients reached by importing blocks: each one new, on a known parent,
    under a fresh Substrate hash. *)
Inductive imports (genesis : Header) (sub0 : bytes) : Client -> Prop :=
| imports_genesis c : genesis_client c genesis sub0 -> imports genesis sub0 c
| imports_block c header sub parent total best :
    imports genesis sub0 c ->
    get_aux c (block_hash header) = inr None ->
    client_header c sub = inr None -> length sub = 32%nat ->
    length (prev_blockhash header) = 32%nat ->
    backend_block_number c (prev_blockhash header) = Some parent ->
    calculate_chain_work_and_fork_choice c header (parent + 1) = Ok (total, best) ->
    imports genesis sub0
      (import_into c (parent + 1) (mk_substrate_header (substrate_header_digest header) sub)
         (write_aux_storage (block_hash header) sub total) best).

(** The work of the chain a block heads: genesis, and then its ancestors. *)
Inductive chain_work c (genesis : Header) : bytes -> Z -> Prop :=
| work_genesis : chain_work c genesis (block_hash genesis) (work genesis)
| work_block header w :
    backend_block_header c (block_hash header) = Some header ->
    block_hash header <> block_hash genesis ->
    chain_work c genesis (prev_blockhash header) w ->
    chain_work c genesis (block_hash header) (w + work header).
End import.

(** ** The block tree *)

Section tree.
Context `{!ChainApi, !ChainLaws, !PowApi}.
Implicit Types (c : Client).

(** What the client knows of a block. *)
Record Entry := mk_entry_of {
  e_header : Header;
  e_number : Z;
  e_sub : bytes;
  e_total : Z;
}.

Record known c (hash : bytes) (e : Entry) : Prop := {
  k_hash : block_hash (e_header e) = hash;
  k_sub : substrate_block_hash_for c hash = Some (e_sub e);
  k_header : backend_block_header c hash = Some (e_header e);
  k_number : backend_block_number c hash = Some (e_number e);
  k_back : bitcoin_block_hash_for c (e_sub e) = Some hash;
  k_client : client_header c (e_sub e) <> inr None;
  k_work : e_number e <> 0 -> load_chain_work c hash = Ok (e_total e);
}.

(** The tree of blocks a client holds, with its best block. *)
Record tree c (genesis : Header) (M : gmap bytes Entry) (best : Entry) : Prop := {
  t_known hash e : M !! hash = Some e -> known c hash e;
  t_unknown hash : length hash = 32%nat -> M !! hash = None -> get_aux c hash = inr None;
  t_genesis : exists e, M !! block_hash genesis = Some e /\ e_number e = 0;
  t_zero hash e : M !! hash = Some e -> e_number e = 0 -> e_header e = genesis /\ e_total e = work genesis;
  t_parent hash e : M !! hash = Some e -> e_number e <> 0 ->
    0 < e_number e /\ exists p, M !! prev_blockhash (e_header e) = Some p /\
      e_number e = e_number p + 1 /\ e_total e = e_total p + work (e_header e);
  t_no_work : load_chain_work c (block_hash genesis) = Err BackendError;
  t_best : M !! block_hash (e_header best) = Some best /\ e_sub best = best_hash c;
  t_max hash e : M !! hash = Some e -> e_total e <= e_total best;
}.

Lemma chain_work_key_inj h h' : chain_work_key h = chain_work_key h' -> h = h'.
Proof. unfold chain_work_key. intros Heq. by apply app_inj_1 in Heq as [_ [= Heq]]. Qed.

Lemma chain_work_key_length h : length (chain_work_key h) = (11 + length h)%nat.
Proof. unfold chain_work_key. rewrite !length_app. done. Qed.

Lemma hash_not_key hash h : length hash = 32%nat -> length h = 32%nat -> hash <> chain_work_key h.
Proof. intros Hl Hh ->. rewrite chain_work_key_length in Hl. lia. Qed.

Lemma known_length c hash e : known c hash e -> length hash = 32%nat.
Proof. intros Hk. rewrite <- (k_hash _ _ _ Hk). apply block_hash_length. Qed.

(** A block that can be found is in the tree. *)
Lemma tree_lookup c genesis M best hash n :
  tree c genesis M best -> length hash = 32%nat -> backend_block_number c hash = Some n ->
  exists e, M !! hash = Some e /\ e_number e = n.
Proof.
  intros Ht Hl Hn. destruct (M !! hash) as [e |] eqn:He.
  - exists e. split; [done |]. rewrite (k_number _ _ _ (t_known _ _ _ _ Ht _ _ He)) in Hn. congruence.
  - unfold backend_block_number, substrate_block_hash_for in Hn.
    by rewrite (t_unknown _ _ _ _ Ht _ Hl He) in Hn.
Qed.

Lemma tree_header c genesis M best header :
  tree c genesis M best -> backend_block_header c (block_hash header) = Some header ->
  exists e, M !! block_hash header = Some e /\ e_header e = header.
Proof.
  intros Ht Hh. destruct (M !! block_hash header) as [e |] eqn:He.
  - exists e. split; [done |]. rewrite (k_header _ _ _ (t_known _ _ _ _ Ht _ _ He)) in Hh. congruence.
  - unfold backend_block_header, substrate_block_hash_for in Hh.
    by rewrite (t_unknown _ _ _ _ Ht _ (block_hash_length _) He) in Hh.
Qed.

(** The work that is calculated for a new block, and the choice. *)
Lemma calculate_in_tree c genesis M best header p parent total b :
  tree c genesis M best -> M !! prev_blockhash header = Some p -> e_number p = parent ->
  calculate_chain_work_and_fork_choice c header (parent + 1) = Ok (total, b) ->
  total = e_total p + work header /\ 0 <= total < 2 ^ 256 /\ b = (e_total best <? total).
Proof.
  intros Ht Hp Hn Hok. pose proof (t_known _ _ _ _ Ht _ _ Hp) as Hk.
  unfold calculate_chain_work_and_fork_choice in Hok. apply bind_Ok in Hok as (pw & Hpw & Hok).
  assert (pw = e_total p) as ->.
  { destruct (Z.eqb_spec (parent + 1) 1) as [Hone | Hone].
    - rewrite (k_header _ _ _ Hk) in Hpw. cbn in Hpw.
      destruct (t_zero _ _ _ _ Ht _ _ Hp) as [<- ->]; [lia |]. congruence.
    - rewrite (k_work _ _ _ Hk) in Hpw by lia. congruence. }
  apply bind_Ok in Hok as (tw & Htw & Hok). apply expect_Ok in Htw. unfold checked_u256 in Htw.
  destruct ((0 <=? _) && _) eqn:Hr; [| done]. injection Htw as <-. bools.
  rewrite (k_sub _ _ _ Hk) in Hok. cbn [ok_or] in Hok. rbind in Hok.
  apply bind_Ok in Hok as (bw & Hbw & Hok). injection Hok as <- <-.
  destruct (t_best _ _ _ _ Ht) as [Hb Hbs]. pose proof (t_known _ _ _ _ Ht _ _ Hb) as Hkb.
  assert (bw = e_total best) as ->; [| done].
  case_bool_decide as Heq.
  - assert (Hsame : prev_blockhash header = block_hash (e_header best)).
    { pose proof (k_back _ _ _ Hk) as Hb1. pose proof (k_back _ _ _ Hkb) as Hb2.
      rewrite Hbs, Heq in Hb2. congruence. }
    rewrite <- Hsame, Hp in Hb. congruence.
  - rewrite <- Hbs, (k_back _ _ _ Hkb) in Hbw. cbn [expect] in Hbw. rbind in Hbw.
    destruct (decide (e_number best = 0)) as [Hz | Hz].
    + destruct (t_zero _ _ _ _ Ht _ _ Hb Hz) as [Hg _]. rewrite Hg, (t_no_work _ _ _ _ Ht) in Hbw. done.
    + rewrite (k_work _ _ _ Hkb Hz) in Hbw. congruence.
Qed.

(** *** One import *)

Section step.
Context (c : Client) (header : Header) (sub : bytes) (number total : Z) (b : bool).
Context (Hsub : length sub = 32%nat) (Hnew : client_header c sub = inr None).
Context (Hrange : 0 <= total < 2 ^ 256).

Let sh := mk_substrate_header (substrate_header_digest header) sub.
Let c' := import_into c number sh (write_aux_storage (block_hash header) sub total) b.

Lemma import_aux k :
  get_aux c' k =
    if bool_decide (k = block_hash header) then inr (Some (encode_hash sub))
    else if bool_decide (k = chain_work_key (block_hash header)) then inr (Some (le_bytes 32 total))
    else get_aux c k.
Proof.
  unfold c', import_into, write_aux_storage, write_chain_work, lookup_aux. cbn [get_aux find fst].
  repeat case_bool_decide; by cbn; congruence.
Qed.

Lemma import_known_new :
  known c' (block_hash header) (mk_entry_of header number sub total).
Proof.
  assert (Hs : substrate_block_hash_for c' (block_hash header) = Some sub).
  { unfold substrate_block_hash_for. rewrite import_aux, bool_decide_eq_true_2 by done. cbn.
    by apply decode_encode_hash. }
  assert (Hh : client_header c' sub = inr (Some sh)).
  { unfold c', import_into. cbn. by rewrite bool_decide_eq_true_2. }
  destruct (extract_digest header sub) as [Eh Ex]. fold sh in Eh, Ex.
  split; cbn [e_header e_number e_sub e_total]; [done | done | | | | |].
  - unfold backend_block_header. rewrite Hs. cbn [mbind option_bind]. rewrite Hh. cbn [ok_flatten mbind option_bind]. by rewrite Ex.
  - unfold backend_block_number. rewrite Hs. unfold c', import_into. cbn. by rewrite bool_decide_eq_true_2.
  - unfold bitcoin_block_hash_for. rewrite Hh. cbn [ok_flatten mbind option_bind]. by rewrite Eh.
  - by rewrite Hh.
  - intros _. unfold load_chain_work, load_decode. rewrite import_aux, bool_decide_eq_false_2.
    + rewrite bool_decide_eq_true_2 by done. cbn [of_sum]. rbind. rewrite le_bytes_length. cbn [Nat.ltb Nat.leb].
      rbind. cbn [ok_or]. rbind. rewrite firstn_all2 by (by rewrite le_bytes_length).
      rewrite le_value_bytes by (cbn; lia). done.
    + intros Heq. symmetry in Heq. apply hash_not_key in Heq; auto using block_hash_length.
Qed.

(** Everything known of another block stays. *)
Lemma import_aux_other hash :
  hash <> block_hash header -> length hash = 32%nat -> get_aux c' hash = get_aux c hash.
Proof.
  intros Hne Hl. rewrite import_aux, !bool_decide_eq_false_2; [done | | done].
  apply hash_not_key; auto using block_hash_length.
Qed.

Lemma import_work_other hash :
  hash <> block_hash header -> length hash = 32%nat -> load_chain_work c' hash = load_chain_work c hash.
Proof.
  intros Hne Hl. unfold load_chain_work, load_decode. rewrite import_aux, !bool_decide_eq_false_2; [done | |].
  - by intros ?%chain_work_key_inj.
  - intros Heq. symmetry in Heq. apply hash_not_key in Heq; auto using block_hash_length.
Qed.

Lemma import_known_old hash e : hash <> block_hash header -> known c hash e -> known c' hash e.
Proof.
  intros Hne Hk. pose proof (known_length _ _ _ Hk) as Hl. destruct Hk as [K1 K2 K3 K4 K5 K6 K7].
  assert (Hse : e_sub e <> sub) by (intros Heq; rewrite Heq in K6; congruence).
  assert (Hs : substrate_block_hash_for c' hash = Some (e_sub e)).
  { unfold substrate_block_hash_for in *. by rewrite import_aux_other. }
  assert (Hh : client_header c' (e_sub e) = client_header c (e_sub e)).
  { unfold c', import_into. cbn. by rewrite bool_decide_eq_false_2. }
  split; [done | done | | | | congruence |].
  - unfold backend_block_header in *. rewrite Hs. rewrite K2 in K3. cbn [mbind option_bind] in *. by rewrite Hh.
  - unfold backend_block_number in *. rewrite Hs. rewrite K2 in K4. cbn [mbind option_bind] in *.
    unfold c', import_into. cbn. by rewrite bool_decide_eq_false_2.
  - unfold bitcoin_block_hash_for in *. by rewrite Hh.
  - intros Hz. rewrite import_work_other by done. auto.
Qed.

Lemma import_tree genesis M best p :
  tree c genesis M best -> get_aux c (block_hash header) = inr None ->
  M !! prev_blockhash header = Some p -> number = e_number p + 1 ->
  total = e_total p + work header -> b = (e_total best <? total) ->
  exists M' best', tree c' genesis M' best'.
Proof.
  intros Ht Hfresh Hp Hnum Htot Hb. set (new := mk_entry_of header number sub total).
  assert (Hnone : M !! block_hash header = None).
  { destruct (M !! block_hash header) as [e |] eqn:He; [| done].
    pose proof (k_sub _ _ _ (t_known _ _ _ _ Ht _ _ He)) as K.
    unfold substrate_block_hash_for in K. by rewrite Hfresh in K. }
  destruct (t_genesis _ _ _ _ Ht) as (g & Hg & Hg0).
  assert (Hpos : 0 <= e_number p).
  { destruct (decide (e_number p = 0)); [lia |]. destruct (t_parent _ _ _ _ Ht _ _ Hp); [done | lia]. }
  exists (<[block_hash header := new]> M), (if b then new else best).
  assert (Hlk : forall hash e, <[block_hash header := new]> M !! hash = Some e ->
    hash = block_hash header /\ e = new \/ hash <> block_hash header /\ M !! hash = Some e).
  { intros hash e [[<- <-] | [Hne He]]%lookup_insert_Some; auto. }
  assert (Hin : forall hash e, M !! hash = Some e -> <[block_hash header := new]> M !! hash = Some e).
  { intros hash e He. rewrite lookup_insert_ne; [done |]. congruence. }
  split.
  - intros hash e [[-> ->] | [Hne He]]%Hlk; [apply import_known_new |].
    apply import_known_old; [done |]. by apply (t_known _ _ _ _ Ht).
  - intros hash Hl [Hm Hne]%lookup_insert_None. rewrite import_aux_other by done. by apply (t_unknown _ _ _ _ Ht).
  - exists g. auto.
  - intros hash e [[-> ->] | [Hne He]]%Hlk; [cbn; lia | by apply (t_zero _ _ _ _ Ht hash)].
  - intros hash e [[-> ->] | [Hne He]]%Hlk Hz; cbn.
    + split; [lia |]. exists p. auto.
    + destruct (t_parent _ _ _ _ Ht _ _ He Hz) as (? & q & Hq & ? & ?). split; [done |]. exists q. auto.
  - rewrite import_work_other; [apply (t_no_work _ _ _ _ Ht) | congruence | apply block_hash_length].
  - destruct b; cbn; [by rewrite lookup_insert_eq |]. destruct (t_best _ _ _ _ Ht). auto.
  - intros hash e [[-> ->] | [Hne He]]%Hlk; [| apply (t_max _ _ _ _ Ht) in He];
      destruct b; cbn in *; subst; symmetry in Hb; bools; lia.
Qed.
End step.

(** *** All imports *)

Lemma genesis_tree c genesis sub :
  genesis_client c genesis sub ->
  tree c genesis {[block_hash genesis := mk_entry_of genesis 0 sub (work genesis)]}
    (mk_entry_of genesis 0 sub (work genesis)).
Proof.
  intros [G1 G2 G3 G4 G5 G6 G7 G8].
  assert (Hlk : forall hash e, ({[block_hash genesis := mk_entry_of genesis 0 sub (work genesis)]}
      : gmap bytes Entry) !! hash = Some e ->
      hash = block_hash genesis /\ e = mk_entry_of genesis 0 sub (work genesis))
    by (intros hash e [<- <-]%lookup_singleton_Some; done).
  split.
  - intros hash e [-> ->]%Hlk. split; cbn; try done.
    intros Hc. unfold backend_block_header in G2. rewrite G3 in G2. cbn in G2. by rewrite Hc in G2.
  - intros hash Hl Hne%lookup_singleton_None. by apply G7.
  - eexists. by rewrite lookup_singleton_eq.
  - by intros hash e [-> ->]%Hlk.
  - by intros hash e [-> ->]%Hlk.
  - unfold load_chain_work, load_decode. rewrite G7; [done |].
    intros Heq. symmetry in Heq. apply hash_not_key in Heq; auto using block_hash_length.
  - cbn. by rewrite lookup_singleton_eq.
  - intros hash e [-> ->]%Hlk. cbn. lia.
Qed.

Lemma imports_tree genesis sub0 c : imports genesis sub0 c -> exists M best, tree c genesis M best.
Proof.
  induction 1 as [c Hg | c header sub parent total b Hi (M & best & Ht) Hfresh Hnew Hsub Hprev Hnum Hcalc].
  - eauto using genesis_tree.
  - destruct (tree_lookup _ _ _ _ _ _ Ht Hprev Hnum) as (p & Hp & Hpn).
    destruct (calculate_in_tree _ _ _ _ _ _ _ _ _ Ht Hp Hpn Hcalc) as (Htot & Hrange & Hb).
    apply (import_tree c header sub (parent + 1) total b Hsub Hnew Hrange genesis M best p); try done. lia.
Qed.

(** In a tree the work of a chain is the total of its head. *)
Lemma tree_chain_work c genesis M best hash w :
  tree c genesis M best -> chain_work c genesis hash w -> exists e, M !! hash = Some e /\ e_total e = w.
Proof.
  intros Ht. induction 1 as [| header w Hh Hne Hw (p & Hp & Hpw)].
  - destruct (t_genesis _ _ _ _ Ht) as (e & He & Hz). exists e. split; [done |].
    by destruct (t_zero _ _ _ _ Ht _ _ He Hz).
  - destruct (tree_header _ _ _ _ _ Ht Hh) as (e & He & Hhe). exists e. split; [done |].
    assert (Hz : e_number e <> 0).
    { intros Hz. destruct (t_zero _ _ _ _ Ht _ _ He Hz) as [Hg _]. congruence. }
    destruct (t_parent _ _ _ _ Ht _ _ He Hz) as (_ & p' & Hp' & _ & Htot). rewrite Hhe in Hp', Htot.
    rewrite Hp in Hp'. injection Hp' as <-. lia.
Qed.

Lemma chain_work_tree c genesis M best hash e :
  tree c genesis M best -> M !! hash = Some e -> chain_work c genesis hash (e_total e).
Proof.
  intros Ht. remember (Z.to_nat (e_number e)) as n eqn:Hn. revert hash e Hn.
  induction n as [n IH] using lt_wf_ind. intros hash e Hn He.
  pose proof (t_known _ _ _ _ Ht _ _ He) as Hk. destruct (decide (e_number e = 0)) as [Hz | Hz].
  - destruct (t_zero _ _ _ _ Ht _ _ He Hz) as [Hg ->]. rewrite <- (k_hash _ _ _ Hk), Hg. constructor.
  - destruct (t_parent _ _ _ _ Ht _ _ He Hz) as (Hpos & p & Hp & Hpn & ->).
    rewrite <- (k_hash _ _ _ Hk). constructor.
    + rewrite (k_hash _ _ _ Hk). apply (k_header _ _ _ Hk).
    + intros Heq. destruct (t_genesis _ _ _ _ Ht) as (g & Hg & Hg0).
      rewrite <- Heq, (k_hash _ _ _ Hk), He in Hg. congruence.
    + apply (IH (Z.to_nat (e_number p))) with (e := p); [| done | done].
      assert (0 <= e_number p); [| lia].
      destruct (decide (e_number p = 0)); [lia |]. destruct (t_parent _ _ _ _ Ht _ _ Hp); [done | lia].
Qed.

(** The recorded work, and the best block. *)
Lemma recorded_work genesis sub0 c :
  imports genesis sub0 c ->
  forall header w, backend_block_header c (block_hash header) = Some header -> block_hash header <> block_hash genesis ->
    load_chain_work c (block_hash header) = Ok w <-> chain_work c genesis (block_hash header) w.
Proof.
  intros (M & best & Ht)%imports_tree header w Hh Hne. destruct (tree_header _ _ _ _ _ Ht Hh) as (e & He & Hhe).
  assert (Hz : e_number e <> 0).
  { intros Hz. destruct (t_zero _ _ _ _ Ht _ _ He Hz) as [Hg _]. congruence. }
  rewrite (k_work _ _ _ (t_known _ _ _ _ Ht _ _ He) Hz). split.
  - intros [= <-]. by apply (chain_work_tree _ _ _ _ _ _ Ht).
  - intros (e' & He' & <-)%(tree_chain_work _ _ _ _ _ _ Ht). congruence.
Qed.

Lemma best_work genesis sub0 c :
  imports genesis sub0 c ->
  exists best w, bitcoin_block_hash_for c (best_hash c) = Some best /\ chain_work c genesis best w /\
    forall hash w', chain_work c genesis hash w' -> w' <= w.
Proof.
  intros (M & best & Ht)%imports_tree.
  destruct (t_best _ _ _ _ Ht) as [Hb Hbs]. exists (block_hash (e_header best)), (e_total best).
  split_and!.
  - rewrite <- Hbs. apply (k_back _ _ _ (t_known _ _ _ _ Ht _ _ Hb)).
  - by apply (chain_work_tree _ _ _ _ _ _ Ht).
  - intros hash w' (e & He & <-)%(tree_chain_work _ _ _ _ _ _ Ht). by apply (t_max _ _ _ _ Ht hash).
Qed.

(** after any sequence of imports the work recorded for a block is the work
    of the chain it heads, and the best block heads a chain with at least as
    much work as every other known block: the node follows the chain with the
    most work, whatever the order in which forks arrive. *)
Lemma fork_choice genesis sub0 c :
  imports genesis sub0 c ->
  (forall header w, backend_block_header c (block_hash header) = Some header ->
     block_hash header <> block_hash genesis ->
     load_chain_work c (block_hash header) = Ok w <-> chain_work c genesis (block_hash header) w) /\
  exists best w, bitcoin_block_hash_for c (best_hash c) = Some best /\ chain_work c genesis best w /\
    forall hash w', chain_work c genesis hash w' -> w' <= w.
Proof. intros Hi. split; [by apply (recorded_work _ _ _ Hi) | by apply (best_work _ _ _ Hi)]. Qed.
End tree.

(** ** Instances *)

Import (hints) SampleChain SamplePow.

(** The genesis block of the sample chain, its hash under which Substrate knows
    it, and a client that knows nothing else. *)
Definition sample_genesis : Header := SampleChain.header 1 100.
Definition sample_sub : bytes := replicate 32 7.

Definition sample_client : Client := {|
  get_aux k := inr (if bool_decide (k = block_hash sample_genesis) then Some sample_sub else None);
  client_number h := inr (Some 0);
  client_hash _ := inr (Some sample_sub);
  client_header h := inr (if bool_decide (h = sample_sub)
    then Some (mk_substrate_header (substrate_header_digest sample_genesis) sample_sub) else None);
  best_hash := sample_sub;
  best_number := 0;
|}.

Lemma fork_choice_witness :
  exists c best w, imports sample_genesis sample_sub c /\
    bitcoin_block_hash_for c (best_hash c) = Some best /\ chain_work c sample_genesis best w /\
    best = block_hash (SampleChain.header 2 130).
Proof.
  assert (Hg : imports sample_genesis sample_sub sample_client).
  { apply imports_genesis. split; try reflexivity.
    - intros k Hk. cbn. by rewrite bool_decide_eq_false_2.
    - intros h Hh. cbn. by rewrite bool_decide_eq_false_2. }
  assert (Hi : imports sample_genesis sample_sub
    (import_into sample_client (0 + 1)
       (mk_substrate_header (substrate_header_digest (SampleChain.header 2 130)) (replicate 32 8))
       (write_aux_storage (block_hash (SampleChain.header 2 130)) (replicate 32 8) 4) true)).
  { apply imports_block; try reflexivity. exact Hg. }
  destruct (fork_choice _ _ _ Hi) as (_ & best & w & Hb & Hw & _).
  exists (import_into sample_client (0 + 1)
       (mk_substrate_header (substrate_header_digest (SampleChain.header 2 130)) (replicate 32 8))
       (write_aux_storage (block_hash (SampleChain.header 2 130)) (replicate 32 8) 4) true), best, w.
  split_and!; [exact Hi | exact Hb | exact Hw |].
  vm_compute in Hb. injection Hb as <-. reflexivity.
Defined.
