(* ===== verification/BlockVerify.v ===== *)
(** * Block verification ([crates/sc-consensus-nakamoto/src/verification.rs],
      [verification/script_verify.rs], [verification/tx_verify.rs])

    The consensus checks of a block: its shape, and the validity of its
    transactions against the UTXO set of its parent. *)

From Stdlib Require Import ZArith Lia.
From stdpp Require Import prelude gmap.
From S2P Require Import Prelude Opcode ScriptNum ScriptTypes Stack CheckSig MultiSig Eval Interpreter Bitcoin Runtime SigChecker PalletTypes Pallet TxSanity Client HeaderVerify.

(** ** Types *)

Inductive ScriptEngine := CoreEngine | NoEngine | SubcoinEngine.
Inductive BlockVerification := VerifyNothing | VerifyFull | VerifyHeaderOnly.

Record TransactionContext := mk_tx_context {
  tc_block_number : Z;
  tc_tx_index : nat;
  tc_txid : bytes;
}.

(** [bitcoinconsensus::Error]: a failed script is [ERR_SCRIPT]. *)
Inductive CoreError := ERR_SCRIPT | OtherCoreError (code : Z).

Inductive BlockError :=
| BadMerkleRoot (h : bytes)
| EmptyTransactionList (h : bytes)
| BlockTooLarge (h : bytes)
| FirstTransactionIsNotCoinbase (h : bytes)
| MultipleCoinbase (h : bytes)
| BadCoinbaseBlockHeight (h : bytes) (got expected : Z)
| PrematureSpendOfCoinbase (h : bytes)
| DuplicateTransaction (h : bytes) (index : nat)
| TransactionNotFinal (h : bytes)
| TooManySigOps (h : bytes) (block_number : Z)
| BadWitnessCommitment (h : bytes)
| MissingUtxoInState (h : bytes) (context : TransactionContext) (missing_utxo : OutPoint)
| AlreadySpentInCurrentBlock (h : bytes) (block_number : Z) (txid : bytes) (utxo : OutPoint)
| InsufficientFunds (h : bytes) (value_in value_out : Z)
| InvalidBlockReward (h : bytes)
| InvalidScript (h : bytes) (context : TransactionContext) (input_index : nat) (error : Error)
| Bip34 (h : bytes) (code : Z)
| BitcoinCodec (code : Z)
| BitcoinConsensus (e : CoreError)
| BlockClientError (e : ClientError)
| BlockTxError (e : TxError)
| BlockHeaderError (e : HeaderVerifyError).

(** rust-bitcoin and bitcoinconsensus on blocks. *)
Class BlockApi := {
  check_witness_commitment : Block -> bool;
  (** [Block::weight]. *)
  block_weight : Block -> Z;
  (** [Block::bip34_block_height]. *)
  bip34_block_height : Block -> Z + Z;
  (** [merkle_tree::calculate_root]. *)
  calculate_root : list bytes -> option bytes;
  (** [VarInt::size]. *)
  varint_size : Z -> Z;
  (** [consensus_encode] of a transaction into a buffer. *)
  encode_tx : Transaction -> Z + bytes;
  (** [bitcoinconsensus::verify_with_flags] on script, amount, spending
      transaction, input index and flags; [None] is success. *)
  verify_with_flags : bytes -> Z -> bytes -> nat -> Z -> option CoreError;
}.

(** [COINBASE_MATURITY], [MAX_BLOCK_SIGOPS_COST] and [Header::SIZE]. *)
Definition COINBASE_MATURITY : Z := 100.
Definition MAX_BLOCK_SIGOPS_COST : Z := 80000.
Definition HEADER_SIZE : Z := 80.

(** ** Transactions ([tx_verify.rs]) *)

Definition is_final_tx (tx : Transaction) (height block_time : Z) : bool :=
  if tx_lock_time tx =? 0 then true
  else
    let lock_time := if tx_lock_time tx <? LOCK_TIME_THRESHOLD then height else block_time in
    if tx_lock_time tx <? lock_time then true
    else forallb (fun txin => sequence txin =? u32_max) (tx_input tx).

Definition get_legacy_sig_op_count `{!TxApi} (tx : Transaction) : Z :=
  zsum (map (fun txin => count_sigops_legacy (script_sig txin)) (tx_input tx))
  + zsum (map (fun txout => count_sigops_legacy (script_pubkey txout)) (tx_output tx)).

(** ** Scripts ([script_verify.rs]) *)

Definition get_block_script_flags (height : Z) (block_hash : bytes) (chain_params : ChainParams) : Z :=
  match find (fun e => bool_decide (e.1 = block_hash)) (script_flag_exceptions chain_params) with
  | Some (_, flag) => flag
  | None =>
      let flags := Z.lor CORE_VERIFY_P2SH CORE_VERIFY_WITNESS in
      let flags := if bip66_height (params chain_params) <=? height
                   then Z.lor flags CORE_VERIFY_DERSIG else flags in
      let flags := if bip65_height (params chain_params) <=? height
                   then Z.lor flags CORE_VERIFY_CHECKLOCKTIMEVERIFY else flags in
      let flags := if csv_height chain_params <=? height
                   then Z.lor flags CORE_VERIFY_CHECKSEQUENCEVERIFY else flags in
      if segwit_height chain_params <=? height then Z.lor flags CORE_VERIFY_NULLDUMMY else flags
  end.

Definition verify_input_script `{!BlockApi} (spent_output : TxOut) (spending_transaction : bytes)
    (input_index : nat) (flags : Z) : res BlockError unit :=
  match verify_with_flags (script_pubkey spent_output) (value spent_output) spending_transaction
          input_index flags with
  | None | Some ERR_SCRIPT => Ok tt
  | Some script_error => Err (BitcoinConsensus script_error)
  end.

(** [VerifyFlags::from_bits]: bits that are no flag are refused. *)
Definition from_bits (flags : Z) : option Z :=
  if Z.land flags (2 ^ 21 - 1) =? flags then Some flags else None.

(** ** Blocks *)

(** [iter().sum::<u64>()]. *)
Fixpoint sum_u64 {E} (l : list Z) (acc : Z) : res E Z :=
  match l with
  | [] => Ok acc
  | z :: l => acc ← expect (checked_u64 (acc + z)); sum_u64 l acc
  end.

Section verifier.
Context `{!ScriptApi, !HashApi, !KeyApi, !SighashApi}.
Context `{!TxApi, !ChainApi, !PowApi, !BlockApi}.

Definition block_base_size (block : Block) : Z :=
  HEADER_SIZE + varint_size (Z.of_nat (length (txdata block)))
  + zsum (map base_size (txdata block)).

(** The loop of [check_block_sanity] over the transactions, from position
    [index]: the ids by position and the signature operations. *)
Fixpoint check_transactions (block_hash : bytes) (index : nat) (txs : list Transaction)
    (seen_transactions : gset bytes) (txids : gmap nat bytes) (sig_ops : Z) :
    res BlockError (gmap nat bytes * Z) :=
  match txs with
  | [] => Ok (txids, sig_ops)
  | tx :: txs =>
      reject_if ((0 <? index)%nat && is_coinbase tx) (MultipleCoinbase block_hash);;
      let txid := compute_txid tx in
      reject_if (bool_decide (txid ∈ seen_transactions)) (DuplicateTransaction block_hash index);;
      map_err BlockTxError (check_transaction_sanity tx);;
      check_transactions block_hash (S index) txs ({[ txid ]} ∪ seen_transactions)
        (<[index := txid]> txids) (sig_ops + get_legacy_sig_op_count tx)
  end.

Definition check_block_sanity (block_number : Z) (block : Block) : res BlockError (gmap nat bytes) :=
  let block_hash := block_hash (block_header block) in
  reject_if (bool_decide (txdata block = [])) (EmptyTransactionList block_hash);;
  reject_if ((MAX_BLOCK_WEIGHT <? Z.of_nat (length (txdata block)) * WITNESS_SCALE_FACTOR)
             || (MAX_BLOCK_WEIGHT <? block_base_size block * WITNESS_SCALE_FACTOR))
    (BlockTooLarge block_hash);;
  coinbase ← index (txdata block) 0;
  reject_if (negb (is_coinbase coinbase)) (FirstTransactionIsNotCoinbase block_hash);;
  '(txids, sig_ops) ← check_transactions block_hash 0 (txdata block) ∅ ∅ 0;
  reject_if (MAX_BLOCK_SIGOPS_COST <? sig_ops * WITNESS_SCALE_FACTOR) (TooManySigOps block_hash block_number);;
  let hashes := omap (fun index => txids !! index) (seq 0 (length (txdata block))) in
  reject_if (negb (match calculate_root hashes with
                   | Some root => bool_decide (merkle_root (block_header block) = root)
                   | None => false
                   end)) (BadMerkleRoot block_hash);;
  Ok txids.

(** The first of the transactions from position [index] on with the given id,
    and whether it is the coinbase. *)
Fixpoint find_tx (txids : gmap nat bytes) (index : nat) (txs : list Transaction) (txid : bytes) :
    res BlockError (option (Transaction * bool)) :=
  match txs with
  | [] => Ok None
  | tx :: txs =>
      id ← expect (txids !! index);
      if bool_decide (id = txid) then Ok (Some (tx, (index =? 0)%nat))
      else find_tx txids (S index) txs txid
  end.

Definition find_utxo_in_current_block (block : Block) (out_point : OutPoint) (tx_index : nat)
    (txids : gmap nat bytes) : res BlockError (option (TxOut * bool)) :=
  found ← find_tx txids 0 (firstn tx_index (txdata block)) (op_txid out_point);
  match found with
  | Some (tx, is_coinbase) =>
      Ok (match tx_output tx !! Z.to_nat (op_vout out_point) with
          | Some txout => Some (txout, is_coinbase)
          | None => None
          end)
  | None => Ok None
  end.

(** [BlockVerifier]; [state_at] is the runtime state the client holds for a
    block, read through the storage key of a coin. *)
Record BlockVerifier := mk_verifier {
  bv_client : Client;
  bv_chain_params : ChainParams;
  bv_block_verification : BlockVerification;
  bv_script_engine : ScriptEngine;
  state_at : bytes -> option PalletState;
}.

Definition find_utxo_in_state (v : BlockVerifier) (block_hash : bytes) (out_point : OutPoint) : option Coin :=
  s ← state_at v block_hash;
  coins s !! Runtime.out_point_from out_point.

Section transactions.
Context (v : BlockVerifier) (block_number : Z) (block : Block) (txids : gmap nat bytes)
  (parent_hash : bytes) (flags : Z).
Let hash := block_hash (block_header block).

Definition get_txid (tx_index : nat) : res BlockError bytes := expect (txids !! tx_index).

Definition tx_context (tx_index : nat) : res BlockError TransactionContext :=
  txid ← get_txid tx_index;
  Ok (mk_tx_context block_number tx_index txid).

(** The closure [access_coin]: the output, whether it is a coinbase's, and its
    height. *)
Definition access_coin (tx_index : nat) (out_point : OutPoint) : res BlockError (TxOut * bool * Z) :=
  match find_utxo_in_state v parent_hash out_point with
  | Some c => Ok (mk_txout (coin_amount c) (coin_script_pubkey c), coin_is_coinbase c, coin_height c)
  | None =>
      found ← find_utxo_in_current_block block out_point tx_index txids;
      match found with
      | Some (txout, is_coinbase) => Ok (txout, is_coinbase, block_number)
      | None =>
          context ← tx_context tx_index;
          Err (MissingUtxoInState hash context out_point)
      end
  end.

(** The script of one input under the chosen engine. *)
Definition verify_script_of_input (tx_index : nat) (tx : Transaction) (spending_transaction : bytes)
    (input_index : nat) (input : TxIn) (spent_output : TxOut) : res BlockError unit :=
  match bv_script_engine v with
  | CoreEngine => verify_input_script spent_output spending_transaction input_index flags
  | NoEngine => Ok tt
  | SubcoinEngine =>
      verify_flags ← expect (from_bits flags);
      match verify_script
              (H2 := transaction_checker (new_checker tx input_index (value spent_output)))
              (script_sig input) (script_pubkey spent_output) (txin_witness input) verify_flags with
      | Ok _ => Ok tt
      | Err script_err =>
          context ← tx_context tx_index;
          Err (InvalidScript hash context input_index script_err)
      | Panic => Panic
      end
  end.

(** The loop over the inputs: the coins spent in the block and the value in. *)
Fixpoint check_inputs (tx_index : nat) (tx : Transaction) (spending_transaction : bytes)
    (input_index : nat) (inputs : list TxIn) (spent_coins_in_block : gset OutPoint) (value_in : Z) :
    res BlockError (gset OutPoint * Z) :=
  match inputs with
  | [] => Ok (spent_coins_in_block, value_in)
  | input :: inputs =>
      let coin := previous_output input in
      (if bool_decide (coin ∈ spent_coins_in_block) then
         txid ← get_txid tx_index;
         Err (AlreadySpentInCurrentBlock hash block_number txid coin)
       else Ok tt);;
      '(spent_output, is_coinbase, coin_height) ← access_coin tx_index coin;
      (if is_coinbase : bool then
         age ← expect (checked_u32 (block_number - coin_height));
         reject_if (age <? COINBASE_MATURITY) (PrematureSpendOfCoinbase hash)
       else Ok tt);;
      verify_script_of_input tx_index tx spending_transaction input_index input spent_output;;
      value_in ← expect (checked_u64 (value_in + value spent_output));
      check_inputs tx_index tx spending_transaction (S input_index) inputs
        ({[ coin ]} ∪ spent_coins_in_block) value_in
  end.

(** One transaction after the coinbase: the coins spent so far and the fee. *)
Definition verify_transaction (lock_time_cutoff : Z) (tx_index : nat) (tx : Transaction)
    (spent_coins_in_block : gset OutPoint) : res BlockError (gset OutPoint * Z) :=
  reject_if (negb (is_final_tx tx block_number lock_time_cutoff)) (TransactionNotFinal hash);;
  spending_transaction ← map_err BitcoinCodec (of_sum (encode_tx tx));
  '(spent_coins_in_block, value_in) ←
    check_inputs tx_index tx spending_transaction 0 (tx_input tx) spent_coins_in_block 0;
  let sig_ops_cost := total_sigop_cost tx (fun out_point =>
    match access_coin tx_index out_point with
    | Ok (txout, _, _) => Some txout
    | _ => None
    end) in
  reject_if (MAX_BLOCK_SIGOPS_COST <? sig_ops_cost) (TooManySigOps hash block_number);;
  value_out ← sum_u64 (map value (tx_output tx)) 0;
  tx_fee ← ok_or (InsufficientFunds hash value_in value_out) (checked_u64 (value_in - value_out));
  Ok (spent_coins_in_block, tx_fee).

(** The coinbase must start with the block height once BIP 34 is active. *)
Definition check_coinbase_height : res BlockError unit :=
  if bip34_height (params (bv_chain_params v)) <=? block_number then
    height ← map_err (Bip34 hash) (of_sum (bip34_block_height block));
    let block_height_in_coinbase := wrap_u32 height in
    reject_if (negb (block_height_in_coinbase =? block_number))
      (BadCoinbaseBlockHeight hash block_height_in_coinbase block_number)
  else Ok tt.

(** The loop over the transactions: the fees of the block. *)
Fixpoint verify_all (lock_time_cutoff : Z) (tx_index : nat) (txs : list Transaction)
    (spent_coins_in_block : gset OutPoint) (block_fee : Z) : res BlockError Z :=
  match txs with
  | [] => Ok block_fee
  | tx :: txs =>
      if (tx_index =? 0)%nat then
        check_coinbase_height;;
        verify_all lock_time_cutoff (S tx_index) txs spent_coins_in_block block_fee
      else
        '(spent_coins_in_block, tx_fee) ← verify_transaction lock_time_cutoff tx_index tx spent_coins_in_block;
        block_fee ← expect (checked_u64 (block_fee + tx_fee));
        verify_all lock_time_cutoff (S tx_index) txs spent_coins_in_block block_fee
  end.
End transactions.

Definition verify_transactions (v : BlockVerifier) (block_number : Z) (block : Block)
    (txids : gmap nat bytes) (lock_time_cutoff : Z) : res BlockError unit :=
  let hash := block_hash (block_header block) in
  parent_number ← expect (checked_u32 (block_number - 1));
  parent ← map_err BlockClientError (of_sum (client_hash (bv_client v) parent_number));
  parent_hash ← ok_or (BlockClientError BackendError) parent;
  let flags := get_block_script_flags block_number hash (bv_chain_params v) in
  block_fee ← verify_all v block_number block txids parent_hash flags lock_time_cutoff 0 (txdata block) ∅ 0;
  coinbase ← index (txdata block) 0;
  coinbase_value ← sum_u64 (map value (tx_output coinbase)) 0;
  let subsidy := bitcoin_block_subsidy block_number in
  reward ← expect (checked_u64 (block_fee + subsidy));
  reject_if (reward <? coinbase_value) (InvalidBlockReward hash).

Definition contextual_check_block (v : BlockVerifier) (current_time block_number : Z) (block : Block)
    (txids : gmap nat bytes) : res BlockError unit :=
  let hash := block_hash (block_header block) in
  match bv_block_verification v with
  | VerifyFull =>
      lock_time_cutoff ← map_err BlockHeaderError
        (header_verify (bv_client v) (bv_chain_params v) current_time (block_header block));
      reject_if ((segwit_height (bv_chain_params v) <=? block_number) && negb (check_witness_commitment block))
        (BadWitnessCommitment hash);;
      reject_if (MAX_BLOCK_WEIGHT <? block_weight block) (BlockTooLarge hash);;
      verify_transactions v block_number block txids lock_time_cutoff
  | VerifyHeaderOnly =>
      map_err BlockHeaderError
        (header_verify (bv_client v) (bv_chain_params v) current_time (block_header block));;
      Ok tt
  | VerifyNothing => Ok tt
  end.

Definition verify_block (v : BlockVerifier) (current_time block_number : Z) (block : Block) :
    res BlockError unit :=
  txids ← check_block_sanity block_number block;
  contextual_check_block v current_time block_number block txids.
End verifier.
