(* ===== verification/Ledger.v ===== *)
(** * Verified blocks on the ledger

    Block verification ([BlockVerify]) and block execution ([Pallet]) are
    separate programs that run on the same block: the node verifies it against
    the state of its parent, the runtime then executes its transactions one by
    one.  This file relates the two: a block that passes verification executes
    without panic, and creates no more value than the subsidy. *)

From Stdlib Require Import ZArith Lia.
From stdpp Require Import prelude gmap.
From S2P Require Import Prelude Opcode ScriptNum ScriptTypes Stack CheckSig MultiSig Sample Eval Interpreter Bitcoin Runtime SigChecker PalletTypes Pallet TxSanity Client HeaderVerify BlockVerify.

(** The extrinsics of a block, applied in order. *)
Fixpoint execute_block `{!ScriptApi, !TxApi} (height : Z) (txs : list Transaction) (s : PalletState) :
    res DispatchError PalletState :=
  match txs with
  | [] => Ok s
  | tx :: txs =>
      s ← transact NoneOrigin height (Types.transaction_from tx) s;
      execute_block height txs s
  end.

(** ** The ids of a block *)

Section sanity.
Context `{!ScriptApi, !HashApi, !KeyApi, !SighashApi}.
Context `{!TxApi, !ChainApi, !PowApi, !BlockApi}.

(** What [check_block_sanity] establishes of the transactions. *)
Record block_sane (block : Block) (txids : gmap nat bytes) : Prop := {
  bs_coinbase : exists tx txs, txdata block = tx :: txs /\ is_coinbase tx = true /\
                  Forall (fun tx => is_coinbase tx = false) txs;
  bs_txids i tx : txdata block !! i = Some tx -> txids !! i = Some (compute_txid tx);
  bs_distinct : NoDup (map compute_txid (txdata block));
  bs_sane : Forall (fun tx => check_transaction_sanity tx = Ok tt) (txdata block);
}.

Lemma check_transactions_spec hash k txs seen txids ops txids' ops' :
  check_transactions hash k txs seen txids ops = Ok (txids', ops') ->
  (forall i, (i < k)%nat -> txids' !! i = txids !! i) /\
  (forall i tx, txs !! i = Some tx -> txids' !! (k + i)%nat = Some (compute_txid tx)) /\
  NoDup (map compute_txid txs) /\
  (forall id, id ∈ map compute_txid txs -> id ∉ seen) /\
  Forall (fun tx => check_transaction_sanity tx = Ok tt) txs /\
  ((0 < k)%nat -> Forall (fun tx => is_coinbase tx = false) txs) /\
  (k = 0%nat -> Forall (fun tx => is_coinbase tx = false) (tail txs)).
Proof.
  revert k seen txids ops. induction txs as [| tx txs IH]; intros k seen txids ops; cbn [check_transactions].
  { intros [= <- <-]. split_and!; try done; [apply NoDup_nil_2 | by intros id ?%elem_of_nil]. }
  intros Hok. inv_ok. bools.
  match goal with K : check_transaction_sanity tx = Ok ?u |- _ => destruct u; rename K into Hsane end.
  match goal with K : check_transactions _ _ _ _ _ _ = _ |- _ =>
    destruct (IH _ _ _ _ K) as (Hlow & Hids & Hnd & Hseen & Hs & Hcb & _) end.
  match goal with K : _ ∉ seen |- _ => rename K into Hni end.
  assert (Hcb' : Forall (fun tx => is_coinbase tx = false) txs) by (apply Hcb; lia).
  split_and!.
  - intros i Hi. rewrite Hlow by lia. by rewrite lookup_insert_ne by lia.
  - intros [| i] tx' Htx.
    + injection Htx as <-. rewrite Nat.add_0_r, Hlow by lia. apply lookup_insert_eq.
    + rewrite Nat.add_succ_r. by apply (Hids i).
  - cbn [map]. apply NoDup_cons. split; [| done]. intros Hin. apply Hseen in Hin. set_solver.
  - cbn [map]. intros id [-> | Hin]%elem_of_cons; [done |]. apply Hseen in Hin. set_solver.
  - by constructor.
  - intros Hk. constructor; [| done].
    match goal with K : (0 <? k)%nat && _ = false |- _ => rename K into Hf end.
    rewrite (proj2 (Nat.ltb_lt 0 k) Hk) in Hf. done.
  - done.
Qed.

Lemma check_block_sanity_spec n block txids :
  check_block_sanity n block = Ok txids -> block_sane block txids.
Proof.
  unfold check_block_sanity. intros Hok. inv_ok.
  match goal with K : check_transactions _ _ _ _ _ _ = Ok ?p |- _ => destruct p as [ids ops] end.
  inv_ok. bools.
  match goal with K : check_transactions _ _ _ _ _ _ = _ |- _ =>
    destruct (check_transactions_spec _ _ _ _ _ _ _ _ K) as (_ & Hids & Hnd & _ & Hs & _ & Hcb) end.
  split; [| by intros i tx Htx%Hids | done | done].
  destruct (txdata block) as [| tx txs]; [done |]. cbn in *. exists tx, txs. split_and!; [done | | auto].
  match goal with K : Some tx = Some _ |- _ => injection K as -> end. done.
Qed.
End sanity.

(** ** Coins created within a block *)

Section block_coins.
Context `{!ScriptApi, !TxApi}.
Variable (n : Z).

(** The coin the transactions [pre] of block [n] create under an out point. *)
Fixpoint block_coin (pre : list Transaction) (o : OutPoint) : option Coin :=
  match pre with
  | [] => None
  | tx :: pre =>
      match created_coin n tx o with
      | Some c => Some c
      | None => block_coin pre o
      end
  end.

Lemma created_coin_txid tx o c : created_coin n tx o = Some c -> op_txid o = compute_txid tx.
Proof. unfold created_coin. case_bool_decide; [done |]. by destruct (0 <=? op_vout o). Qed.

Lemma block_coin_txid pre o c :
  block_coin pre o = Some c -> op_txid o ∈ map compute_txid pre.
Proof.
  induction pre as [| tx pre IH]; cbn; [done |].
  destruct (created_coin n tx o) eqn:Hc.
  - intros _. rewrite (created_coin_txid _ _ _ Hc). left.
  - intros Hb. right. auto.
Qed.

Lemma block_coin_absent pre o : op_txid o ∉ map compute_txid pre -> block_coin pre o = None.
Proof.
  intros Hni. destruct (block_coin pre o) eqn:Hb; [| done]. by apply block_coin_txid in Hb.
Qed.

Lemma block_coin_snoc pre tx o :
  block_coin (pre ++ [tx]) o =
    match block_coin pre o with
    | Some c => Some c
    | None => created_coin n tx o
    end.
Proof.
  induction pre as [| tx' pre IH]; cbn; [by destruct (created_coin n tx o) |].
  destruct (created_coin n tx' o); [done | apply IH].
Qed.

(** With distinct ids the coin is the one of the transaction with that id. *)
Lemma block_coin_elem pre tx o c :
  NoDup (map compute_txid pre) -> tx ∈ pre -> created_coin n tx o = Some c -> block_coin pre o = Some c.
Proof.
  intros Hnd Hin Hc. induction pre as [| tx' pre IH]; [by apply elem_of_nil in Hin |].
  cbn [map] in Hnd. apply NoDup_cons in Hnd as [Hni Hnd]. cbn [block_coin].
  apply elem_of_cons in Hin as [<- | Hin]; [by rewrite Hc |].
  destruct (created_coin n tx' o) eqn:Hc'; [| auto].
  exfalso. apply Hni. rewrite <- (created_coin_txid _ _ _ Hc'), (created_coin_txid _ _ _ Hc).
  apply list_elem_of_fmap. by exists tx.
Qed.
End block_coins.

(** ** Simulation of the verifier by the runtime *)

Section simulation.
Context `{!ScriptApi, !HashApi, !KeyApi, !SighashApi}.
Context `{!TxApi, !TxLaws, !ChainApi, !PowApi, !BlockApi}.
Context (v : BlockVerifier) (n : Z) (block : Block) (txids : gmap nat bytes).
Context (parent_hash : bytes) (flags : Z) (s : PalletState).

(** The state of the parent, and the block on it. *)
Context (Hstate : state_at v parent_hash = Some s) (Hwf : pallet_wf s).
Context (Hblock : block_sane block txids).

(** The values in the block have the ranges of their types. *)
Definition tx_typed (tx : Transaction) : Prop :=
  Forall (fun o => is_u64 (value o)) (tx_output tx) /\
  Forall (fun i => is_u32 (op_vout (previous_output i))) (tx_input tx) /\
  Z.of_nat (length (tx_output tx)) <= u32_max.

(** No transaction of the block has the id of a coin in the set (BIP 30). *)
Definition block_fresh : Prop := Forall (fresh_tx s) (txdata block).

(** No input of the block spends an [OP_RETURN] output of the block. *)
Definition returns_unspent : Prop :=
  forall tx i tx' out, tx ∈ txdata block -> i ∈ tx_input tx -> tx' ∈ txdata block ->
    op_txid (previous_output i) = compute_txid tx' ->
    tx_output tx' !! Z.to_nat (op_vout (previous_output i)) = Some out ->
    is_op_return (script_pubkey out) = false.

(** The number of outputs of the block. *)
Definition outputs_count (txs : list Transaction) : Z :=
  zsum (map (fun tx => Z.of_nat (length (tx_output tx))) txs).

Context (Htyped : Forall tx_typed (txdata block)).
Context (Hfresh : block_fresh) (Hreturns : returns_unspent).
Context (Hcount : coins_count s + outputs_count (txdata block) <= u64_max).

(** The runtime state [st] after the transactions [pre], when the verifier has
    seen the coins [spent] spent. *)
Record reached (pre : list Transaction) (spent : gset OutPoint) (st : PalletState) : Prop := {
  r_wf : pallet_wf st;
  r_utxos o : utxo st o = if bool_decide (o ∈ spent) then None
                          else match block_coin n pre o with
                               | Some c => Some c
                               | None => utxo s o
                               end;
  r_spent o : o ∈ spent -> is_Some (utxo s o) \/ is_Some (block_coin n pre o);
  r_count : coins_count st <= coins_count s + outputs_count pre;
}.

Lemma block_coin_fresh pre o c :
  pre ⊆ txdata block -> block_coin n pre o = Some c -> utxo s o = None.
Proof.
  intros Hsub Hb%block_coin_txid. apply list_elem_of_fmap in Hb as (tx & Hid & Hin).
  destruct o as [t vout]. cbn in Hid. subst t.
  exact (proj1 (Forall_forall _ _) Hfresh tx (Hsub _ Hin) vout).
Qed.

Lemma find_tx_spec k txs id tx b :
  (forall i t, txs !! i = Some t -> txids !! (k + i)%nat = Some (compute_txid t)) ->
  find_tx txids k txs id = Ok (Some (tx, b)) -> tx ∈ txs /\ compute_txid tx = id.
Proof.
  revert k. induction txs as [| t txs IH]; intros k Hids; cbn [find_tx]; [done |].
  rewrite <- (Nat.add_0_r k), (Hids 0%nat t eq_refl), Nat.add_0_r. cbn [expect]. rbind.
  case_bool_decide as Hid.
  - intros [= <- _]. split; [left | done].
  - intros Hf. destruct (IH (S k)) as [Hin He]; [| done |].
    + intros i t' Ht'. rewrite Nat.add_succ_l, <- Nat.add_succ_r. by apply Hids.
    + split; [by right | done].
Qed.

Lemma find_utxo_spec k o out b :
  find_utxo_in_current_block block o k txids = Ok (Some (out, b)) ->
  exists tx, tx ∈ firstn k (txdata block) /\ compute_txid tx = op_txid o /\
    tx_output tx !! Z.to_nat (op_vout o) = Some out.
Proof.
  unfold find_utxo_in_current_block. intros Hok. apply bind_Ok in Hok as ([[tx' b'] |] & Hf & Ho); [| done].
  destruct (tx_output tx' !! _) eqn:Hout; [| done]. injection Ho as -> ->.
  apply find_tx_spec in Hf as [Hin Hid]; [by exists tx' |].
  intros i t [Ht _]%lookup_take_Some. exact (bs_txids _ _ Hblock i t Ht).
Qed.

(** A coin the verifier accesses is in the runtime's set, with the same value. *)
Lemma access_coin_utxo k tx i spent st out cb h :
  txdata block !! k = Some tx -> i ∈ tx_input tx -> is_u32 (op_vout (previous_output i)) ->
  reached (firstn k (txdata block)) spent st -> previous_output i ∉ spent ->
  access_coin v n block txids parent_hash k (previous_output i) = Ok (out, cb, h) ->
  exists c, utxo st (previous_output i) = Some c /\ coin_amount c = value out /\
    (is_Some (utxo s (previous_output i)) \/
     is_Some (block_coin n (firstn k (txdata block)) (previous_output i))).
Proof.
  intros Htx Hi Hvout Hr Hns Ha. set (o := previous_output i) in *. set (pre := firstn k (txdata block)) in *.
  assert (Hsub : pre ⊆ txdata block) by apply subseteq_take.
  rewrite (r_utxos _ _ _ Hr o), bool_decide_eq_false_2 by done.
  unfold access_coin, find_utxo_in_state in Ha. rewrite Hstate in Ha. cbn [mbind option_bind] in Ha.
  destruct (utxo s o) as [c |] eqn:Hu.
  - injection Ha as <- _ _. exists c. split_and!; [| done | eauto].
    destruct (block_coin n pre o) eqn:Hb; [| done].
    apply block_coin_fresh in Hb; [| done]. congruence.
  - apply bind_Ok in Ha as ([[out' b'] |] & Hf & Ha);
      [injection Ha as -> _ _ | by apply bind_Ok in Ha as (? & _ & [=])].
    apply find_utxo_spec in Hf as (tx' & Hin & Hid & Hout).
    assert (Hret : is_op_return (script_pubkey out) = false).
    { eapply (Hreturns tx i tx' out); [| exact Hi | apply Hsub, Hin | done | exact Hout].
      by apply list_elem_of_lookup_2 in Htx. }
    assert (Hc : created_coin n tx' o = Some (mk_coin (is_coinbase tx') (value out) n (script_pubkey out))).
    { unfold created_coin. rewrite bool_decide_eq_true_2 by done. destruct Hvout.
      rewrite (proj2 (Z.leb_le 0 _)) by done. cbn [andb]. by rewrite Hout, Hret. }
    assert (Hnd : NoDup (map compute_txid pre)).
    { pose proof (bs_distinct _ _ Hblock) as Hnd. rewrite <- (take_drop k (txdata block)) in Hnd.
      rewrite map_app in Hnd. by apply NoDup_app in Hnd as [? _]. }
    rewrite (block_coin_elem n pre tx' o _ Hnd Hin Hc). eexists. split_and!; [done | done | eauto].
Qed.

Lemma coins_value_cons m i ins :
  coins_value m (map previous_output (i :: ins)) =
    default 0 (coin_amount <$> m !! Runtime.out_point_from (previous_output i))
    + coins_value m (map previous_output ins).
Proof. done. Qed.

(** What the verifier learns of the inputs of a transaction. *)
Lemma check_inputs_spec k tx buf j ins spent0 spent st acc spent' value_in :
  txdata block !! k = Some tx -> ins ⊆ tx_input tx ->
  Forall (fun i => is_u32 (op_vout (previous_output i))) ins ->
  reached (firstn k (txdata block)) spent0 st -> spent0 ⊆ spent ->
  check_inputs v n block txids parent_hash flags k tx buf j ins spent acc = Ok (spent', value_in) ->
  let os := map previous_output ins in
  NoDup os /\ (forall o, o ∈ os -> (o ∉ spent) /\ is_Some (utxo st o) /\
    (is_Some (utxo s o) \/ is_Some (block_coin n (firstn k (txdata block)) o))) /\
  value_in = acc + coins_value (coins st) os /\ spent' = list_to_set os ∪ spent.
Proof.
  intros Htx Hins Hu Hr. revert j spent acc. induction ins as [| i ins IH]; intros j spent acc Hsub.
  { intros [= <- <-]. cbn [map]. split_and!; [apply NoDup_nil_2 | by intros o ?%elem_of_nil | |].
    - unfold coins_value. cbn. lia.
    - cbn. set_solver. }
  cbn [check_inputs]. intros Hok. apply Forall_cons in Hu as [Hui Hu].
  case_bool_decide as Hni; [by apply bind_Ok in Hok as (? & K & _); apply bind_Ok in K as (? & _ & [=]) |].
  apply bind_Ok in Hok as (_ & _ & Hok). apply bind_Ok in Hok as ([[out cb] h] & Hacc & Hok).
  apply bind_Ok in Hok as (_ & _ & Hok). apply bind_Ok in Hok as (_ & _ & Hok).
  apply bind_Ok in Hok as (acc' & Hsum & Hok).
  assert (Hacc' : acc' = acc + value out)
    by (apply expect_Ok in Hsum; unfold checked_u64 in Hsum; destruct (in_u64 _); congruence).
  assert (Hi : i ∈ tx_input tx) by (apply Hins; left).
  destruct (access_coin_utxo k tx i spent0 st out cb h) as (c & Hc & Hval & Horig); [done.. | set_solver | done |].
  destruct (IH ltac:(set_solver) Hu (S j) ({[previous_output i]} ∪ spent) acc') as (Hnd & Hall & Hv & Hs);
    [set_solver | done |].
  cbn [map]. split_and!.
  - apply NoDup_cons. split; [| done]. intros Hin. apply Hall in Hin as [? _]. set_solver.
  - intros o [-> | Hin]%elem_of_cons; [by eauto |]. apply Hall in Hin as (? & ? & ?). set_solver.
  - rewrite Hv, Hacc'. rewrite (coins_value_cons _ i ins), Hc. cbn. lia.
  - rewrite Hs. cbn. set_solver.
Qed.

Lemma sum_u64_spec {E} l acc z : sum_u64 (E := E) l acc = Ok z -> z = acc + zsum l.
Proof.
  revert acc. induction l as [| x l IH]; intros acc; cbn [sum_u64]; [intros [= <-]; cbn; lia |].
  intros Hok. apply bind_Ok in Hok as (a & Ha & Hok). apply IH in Hok.
  apply expect_Ok in Ha. unfold checked_u64 in Ha. destruct (in_u64 _); [| done].
  injection Ha as <-. unfold zsum in *. cbn. lia.
Qed.

Lemma outputs_count_snoc pre tx :
  outputs_count (pre ++ [tx]) = outputs_count pre + Z.of_nat (length (tx_output tx)).
Proof. unfold outputs_count. rewrite map_app, zsum_app. cbn. lia. Qed.

Lemma outputs_count_prefix k tx :
  txdata block !! k = Some tx ->
  outputs_count (firstn k (txdata block)) + Z.of_nat (length (tx_output tx))
    <= outputs_count (txdata block).
Proof.
  intros Htx. rewrite <- (take_drop (S k) (txdata block)) at 2.
  rewrite (take_S_r _ _ _ Htx), <- outputs_count_snoc. unfold outputs_count.
  rewrite (map_app _ (_ ++ [tx])), zsum_app.
  assert (0 <= zsum (map (fun t => Z.of_nat (length (tx_output t))) (drop (S k) (txdata block))));
    [| lia]. apply zsum_nonneg, Forall_map, Forall_forall. intros. cbn. lia.
Qed.

Lemma prefix_distinct k tx :
  txdata block !! k = Some tx -> compute_txid tx ∉ map compute_txid (firstn k (txdata block)).
Proof.
  intros Htx Hin. pose proof (bs_distinct _ _ Hblock) as Hnd.
  rewrite <- (take_drop_middle _ _ _ Htx), map_app in Hnd.
  apply NoDup_app in Hnd as (_ & Hd & _). apply (Hd _ Hin). cbn. left.
Qed.

(** The next transaction finds the runtime ready for it. *)
Lemma reached_admissible k tx spent st :
  txdata block !! k = Some tx -> (is_coinbase tx = true -> n ∉ BIP30_EXCEPTION_HEIGHTS) ->
  reached (firstn k (txdata block)) spent st -> admissible n tx st.
Proof.
  intros Htx Hbip Hr. pose proof (list_elem_of_lookup_2 _ _ _ Htx) as Hin.
  destruct (proj1 (Forall_forall _ _) Htyped tx Hin) as (_ & _ & Hlen).
  split; [apply Hr | | done | | done].
  - intros vout. rewrite (r_utxos _ _ _ Hr). case_bool_decide; [done |].
    rewrite block_coin_absent by (cbn; by apply prefix_distinct).
    exact (proj1 (Forall_forall _ _) Hfresh tx Hin vout).
  - pose proof (r_count _ _ _ Hr). pose proof (outputs_count_prefix k tx Htx). lia.
Qed.

(** Executing it keeps the runtime in step with the verifier. *)
Lemma reached_executed k tx spent st st' :
  txdata block !! k = Some tx -> reached (firstn k (txdata block)) spent st ->
  (forall o, o ∈ spends tx -> is_Some (utxo st o) /\
     (is_Some (utxo s o) \/ is_Some (block_coin n (firstn k (txdata block)) o))) ->
  executed n tx st st' -> reached (firstn (S k) (txdata block)) (list_to_set (spends tx) ∪ spent) st'.
Proof.
  intros Htx Hr Hsp He. pose proof (list_elem_of_lookup_2 _ _ _ Htx) as Hin.
  rewrite (take_S_r _ _ _ Htx). set (pre := firstn k (txdata block)) in *.
  assert (Hnew : forall o c, created_coin n tx o = Some c -> block_coin n pre o = None /\ utxo s o = None).
  { intros o c Hc%created_coin_txid. split.
    - apply block_coin_absent. rewrite Hc. by apply prefix_distinct.
    - destruct o as [t vo]. cbn in Hc. subst t. exact (proj1 (Forall_forall _ _) Hfresh tx Hin vo). }
  assert (Horig : forall o, o ∈ list_to_set (spends tx) ∪ spent ->
    is_Some (utxo s o) \/ is_Some (block_coin n pre o)).
  { intros o [Ho%elem_of_list_to_set | Ho]%elem_of_union; [by apply Hsp | by apply Hr]. }
  split; [apply He | | |].
  - intros o. rewrite (executed_utxos _ _ _ _ He o), (r_utxos _ _ _ Hr o), block_coin_snoc.
    destruct (created_coin n tx o) as [c |] eqn:Hc.
    + destruct (Hnew o c Hc) as [Hb Hu]. rewrite bool_decide_eq_false_2, Hb; [done |].
      intros Ho%Horig. rewrite Hb, Hu in Ho. by destruct Ho as [[] | []].
    + destruct (decide (o ∈ spends tx)) as [Ho | Ho].
      * rewrite !bool_decide_eq_true_2; [done | set_solver | done].
      * rewrite (bool_decide_eq_false_2 (o ∈ spends tx)) by done.
        assert (Hiff : o ∈ list_to_set (spends tx) ∪ spent <-> o ∈ spent) by set_solver.
        rewrite (bool_decide_ext _ _ Hiff). destruct (bool_decide _), (block_coin n pre o); done.
  - intros o Ho. destruct (Horig o Ho) as [? | [c Hc]]; [by left | right].
    rewrite block_coin_snoc, Hc. eauto.
  - rewrite outputs_count_snoc. pose proof (executed_count _ _ _ _ He). pose proof (r_count _ _ _ Hr). lia.
Qed.

Lemma created_value_le tx :
  tx ∈ txdata block ->
  zsum (map (fun oc => coin_amount oc.2) (new_coins (compute_txid tx) (is_coinbase tx) n 0 (tx_output tx)))
    <= zsum (map value (tx_output tx)).
Proof.
  intros Hin. destruct (proj1 (Forall_forall _ _) Htyped tx Hin) as (Hv & _).
  apply new_coins_value. eapply Forall_impl; [exact Hv |]. intros o []. lia.
Qed.

(** A transaction after the coinbase: the runtime executes it, and the supply
    goes down by the fee at least. *)
Lemma verify_transaction_step cutoff k tx spent st spent' fee :
  txdata block !! k = Some tx -> is_coinbase tx = false ->
  reached (firstn k (txdata block)) spent st ->
  verify_transaction v n block txids parent_hash flags cutoff k tx spent = Ok (spent', fee) ->
  exists st', process_bitcoin_transaction (E := DispatchError) n tx st = Ok st' /\
    reached (firstn (S k) (txdata block)) spent' st' /\
    supply (coins st') <= supply (coins st) - fee.
Proof.
  intros Htx Hcb Hr Hok. unfold verify_transaction in Hok.
  apply bind_Ok in Hok as (_ & _ & Hok). apply bind_Ok in Hok as (buf & _ & Hok).
  apply bind_Ok in Hok as ([sp vin] & Hin & Hok).
  apply bind_Ok in Hok as (_ & _ & Hok). apply bind_Ok in Hok as (vout & Hsum & Hok).
  apply bind_Ok in Hok as (fee' & Hfee & Hok). injection Hok as -> ->.
  apply sum_u64_spec in Hsum. apply ok_or_Ok in Hfee. unfold checked_u64 in Hfee.
  destruct (in_u64 (vin - vout)); [injection Hfee as <- | done].
  pose proof (list_elem_of_lookup_2 _ _ _ Htx) as Hel.
  destruct (proj1 (Forall_forall _ _) Htyped tx Hel) as (_ & Hvouts & _).
  destruct (check_inputs_spec k tx buf 0 (tx_input tx) spent spent st 0 spent' vin) as (Hnd & Hall & Hval & Hsp);
    [done .. |].
  assert (Hspends : spends tx = map previous_output (tx_input tx)) by (unfold spends; by rewrite Hcb).
  destruct (process_executed (E := DispatchError) n tx st) as [[_ (st' & Hp & He)] | [Hno _]].
  - by apply (reached_admissible k tx spent st Htx); [congruence |].
  - exists st'. split; [done |]. split.
    + rewrite Hsp, <- Hspends. apply (reached_executed k tx spent st st' Htx Hr); [| done].
      intros o. rewrite Hspends. intros (_ & ? & ?)%Hall. done.
    + rewrite (executed_supply _ _ _ _ He), Hspends. pose proof (created_value_le tx Hel). lia.
  - exfalso. apply Hno. split; rewrite Hspends; [done |]. by intros o (_ & ? & _)%Hall.
Qed.

(** The loop over the transactions after the coinbase. *)
Lemma verify_all_steps cutoff k txs spent st fee0 fee :
  (0 < k)%nat -> txs = skipn k (txdata block) ->
  Forall (fun tx => is_coinbase tx = false) txs ->
  reached (firstn k (txdata block)) spent st ->
  verify_all v n block txids parent_hash flags cutoff k txs spent fee0 = Ok fee ->
  exists st', execute_block n txs st = Ok st' /\ pallet_wf st' /\
    supply (coins st') <= supply (coins st) - (fee - fee0).
Proof.
  revert k spent st fee0. induction txs as [| tx txs IH]; intros k spent st fee0 Hk Htxs Hcb Hr.
  { intros [= <-]. exists st. split_and!; [done | apply Hr | lia]. }
  cbn [verify_all]. rewrite (proj2 (Nat.eqb_neq k 0)) by lia.
  intros Hok. apply bind_Ok in Hok as ([spent' fee'] & Hv & Hok).
  apply bind_Ok in Hok as (fee1 & Hsum & Hok). apply expect_Ok in Hsum. unfold checked_u64 in Hsum.
  destruct (in_u64 _); [injection Hsum as <- | done].
  assert (Htx : txdata block !! k = Some tx) by (rewrite <- (Nat.add_0_r k), <- lookup_drop, <- Htxs; done).
  apply Forall_cons in Hcb as [Hcb Hcbs].
  destruct (verify_transaction_step cutoff k tx spent st spent' fee') as (st1 & Hp & Hr1 & Hs1); [done .. |].
  assert (Hdrop : txs = skipn (S k) (txdata block)).
  { rewrite (drop_S _ _ _ Htx) in Htxs. congruence. }
  destruct (IH (S k) spent' st1 (fee0 + fee') ltac:(lia) Hdrop Hcbs Hr1 Hok) as (st' & He & Hw & Hs).
  exists st'. split_and!; [| done | lia]. cbn [execute_block]. by rewrite transact_process, Hp.
Qed.

(** The coinbase starts the block: the supply grows by its value at most. *)
Lemma coinbase_step tx :
  txdata block !! 0%nat = Some tx -> is_coinbase tx = true -> n ∉ BIP30_EXCEPTION_HEIGHTS ->
  exists st, process_bitcoin_transaction (E := DispatchError) n tx s = Ok st /\
    reached (firstn 1 (txdata block)) ∅ st /\
    supply (coins st) <= supply (coins s) + zsum (map value (tx_output tx)).
Proof.
  intros Htx Hcb Hbip.
  assert (Hr0 : reached (firstn 0 (txdata block)) ∅ s).
  { split; [done | | | rewrite take_0; unfold outputs_count; cbn; lia].
    - intros o. by rewrite bool_decide_eq_false_2 by set_solver.
    - intros o Ho. set_solver. }
  assert (Hsp : spends tx = []) by (unfold spends; by rewrite Hcb).
  pose proof (list_elem_of_lookup_2 _ _ _ Htx) as Hel.
  destruct (process_executed (E := DispatchError) n tx s) as [[_ (st & Hp & He)] | [Hno _]].
  - by apply (reached_admissible 0 tx ∅ s Htx).
  - exists st. split; [done |]. split.
    + replace (∅ : gset OutPoint) with (list_to_set (spends tx) ∪ ∅ : gset OutPoint)
        by (rewrite Hsp; cbn; set_solver).
      apply (reached_executed 0 tx ∅ s st Htx Hr0); [| done].
      intros o. rewrite Hsp. by intros ?%elem_of_nil.
    + rewrite (executed_supply _ _ _ _ He), Hsp. pose proof (created_value_le tx Hel).
      change (coins_value (coins s) []) with 0. lia.
  - exfalso. apply Hno. unfold spendable. rewrite Hsp. split; [apply NoDup_nil_2 | by intros o ?%elem_of_nil].
Qed.
End simulation.

(** ** No inflation *)

Section no_inflation.
Context `{!ScriptApi, !HashApi, !KeyApi, !SighashApi}.
Context `{!TxApi, !TxLaws, !ChainApi, !PowApi, !BlockApi}.

(** A block on a parent state, as the node meets it: the client knows the state
    of the parent, values have the ranges of their types, transaction ids are
    new (BIP 30), and [OP_RETURN] outputs of the block stay unspent. *)
Record block_on (v : BlockVerifier) (n : Z) (block : Block) (s : PalletState) : Prop := {
  on_parent : exists parent_hash, client_hash (bv_client v) (n - 1) = inr (Some parent_hash) /\
                state_at v parent_hash = Some s;
  on_wf : pallet_wf s;
  on_typed : Forall tx_typed (txdata block);
  on_fresh : block_fresh block s;
  on_returns : returns_unspent block;
  on_count : coins_count s + outputs_count (txdata block) <= u64_max;
  on_bip30 : n ∉ BIP30_EXCEPTION_HEIGHTS;
}.

Lemma verified_block_executes v n block s txids cutoff :
  block_on v n block s ->
  check_block_sanity n block = Ok txids ->
  verify_transactions v n block txids cutoff = Ok tt ->
  exists s', execute_block n (txdata block) s = Ok s' /\ pallet_wf s' /\
    supply (coins s') <= supply (coins s) + bitcoin_block_subsidy n.
Proof.
  intros [(ph & Hph & Hst) Hwf Htyped Hfresh Hret Hcount Hbip] Hsane Hok.
  apply check_block_sanity_spec in Hsane. destruct (bs_coinbase _ _ Hsane) as (cb & txs & Htxs & Hcb & Hcbs).
  unfold verify_transactions in Hok. apply bind_Ok in Hok as (pn & Hpn & Hok).
  apply expect_Ok in Hpn. unfold checked_u32 in Hpn. destruct (_ && _); [injection Hpn as <- | done].
  rewrite Hph in Hok. cbn [of_sum map_err] in Hok. rbind in Hok. cbn [ok_or] in Hok. rbind in Hok.
  apply bind_Ok in Hok as (fee & Hall & Hok). rewrite Htxs in Hok.
  change (index (cb :: txs) 0) with (Ok (E := BlockError) cb) in Hok.
  rbind in Hok. apply bind_Ok in Hok as (cbv & Hcbv & Hok). apply sum_u64_spec in Hcbv.
  apply bind_Ok in Hok as (reward & Hrew & Hok). apply expect_Ok in Hrew. unfold checked_u64 in Hrew.
  destruct (in_u64 _); [injection Hrew as <- | done]. apply reject_if_Ok in Hok. apply Z.ltb_ge in Hok.
  assert (Htx0 : txdata block !! 0%nat = Some cb) by (by rewrite Htxs).
  destruct (coinbase_step v n block txids ph s Hst Hwf Hsane Htyped Hfresh Hret Hcount cb Htx0 Hcb Hbip)
    as (s1 & Hp1 & Hr1 & Hs1).
  rewrite Htxs in Hall. cbn [verify_all Nat.eqb] in Hall. apply bind_Ok in Hall as (_ & _ & Hall).
  destruct (verify_all_steps v n block txids ph
    (get_block_script_flags n (block_hash (block_header block)) (bv_chain_params v)) s
    Hst Hwf Hsane Htyped Hfresh Hret Hcount cutoff 1 txs ∅ s1 0 fee) as (s' & He & Hw & Hs');
    [lia | by rewrite Htxs | done | done | done |].
  exists s'. split_and!; [| done | lia]. rewrite Htxs. cbn [execute_block].
  by rewrite transact_process, Hp1.
Qed.


(** ** The chain *)

(** The states reached from the genesis state, which has no coins, by blocks
    that were verified and executed; [height] is the number of the last one. *)
Inductive chain_state : Z -> PalletState -> Prop :=
| chain_genesis : chain_state 0 (mk_pallet ∅ 0)
| chain_block v height block s txids cutoff s' :
    chain_state height s ->
    block_on v (height + 1) block s ->
    check_block_sanity (height + 1) block = Ok txids ->
    verify_transactions v (height + 1) block txids cutoff = Ok tt ->
    execute_block (height + 1) (txdata block) s = Ok s' ->
    chain_state (height + 1) s'.

Lemma chain_state_supply height s :
  chain_state height s ->
  0 <= height /\ pallet_wf s /\ supply (coins s) <= total_subsidy (S (Z.to_nat height)) - bitcoin_block_subsidy 0.
Proof.
  induction 1 as [| v height block s txids cutoff s' Hc (Hh & Hwf & Hs) Hon Hsane Hver Hex].
  - split_and!; [done | done |]. cbn [coins]. rewrite supply_empty. by vm_compute.
  - destruct (verified_block_executes v (height + 1) block s txids cutoff Hon Hsane Hver)
      as (s2 & Hex2 & Hwf2 & Hs2).
    rewrite Hex in Hex2. injection Hex2 as <-. split_and!; [lia | done |].
    replace (Z.to_nat (height + 1)) with (S (Z.to_nat height)) by lia.
    change (total_subsidy (S (S (Z.to_nat height)))) with
      (total_subsidy (S (Z.to_nat height)) + bitcoin_block_subsidy (Z.of_nat (S (Z.to_nat height)))).
    replace (Z.of_nat (S (Z.to_nat height))) with (height + 1) by lia. lia.
Qed.

End no_inflation.

(** ** Instances *)

Import (hints) Sample SampleTx SampleChain SamplePow.
#[local] Existing Instance sample_sighash.

(** The merkle root is the list of ids; the nonce of the header stands for the
    height in the coinbase. *)
Module SampleBlock.
Definition block_api : BlockApi := {|
  check_witness_commitment _ := true;
  block_weight _ := 4000;
  bip34_block_height b := inr (nonce (block_header b));
  calculate_root l := Some (concat l);
  varint_size _ := 1;
  encode_tx _ := inr [];
  verify_with_flags _ _ _ _ _ := None;
|}.
#[export] Existing Instance block_api.

Definition coinbase : Transaction :=
  mk_tx 1 0 [mk_txin null_outpoint [1; 2] u32_max []] [mk_txout 5000000003 [0x51]].

Definition make_block (n : Z) (txs : list Transaction) : Block :=
  mk_block (mk_header 4 [] (concat (map compute_txid txs)) 150 0 n) txs.

Definition verifier (s : PalletState) : BlockVerifier :=
  mk_verifier SampleChain.client SamplePow.regtest VerifyFull NoEngine (fun _ => Some s).
End SampleBlock.
Import (hints) SampleBlock.


(** The first block after genesis: its coinbase only. *)
Definition first_coinbase : Transaction :=
  mk_tx 1 0 [mk_txin null_outpoint [1; 2] u32_max []] [mk_txout 5000000000 [0x51]].


(** An engine that reports every script as failed. *)
Definition failing_scripts : BlockApi := {|
  check_witness_commitment _ := true;
  block_weight _ := 4000;
  bip34_block_height b := inr (nonce (block_header b));
  calculate_root l := Some (concat l);
  varint_size _ := 1;
  encode_tx _ := inr [];
  verify_with_flags _ _ _ _ _ := Some ERR_SCRIPT;
|}.

Definition core_verifier : BlockVerifier :=
  mk_verifier SampleChain.client SamplePow.regtest VerifyFull CoreEngine (fun _ => Some sample_set).

Definition spend_return : Transaction :=
  mk_tx 2 0 [mk_txin (mk_outpoint (compute_txid sample_spend) 1) [] 10 []] [mk_txout 0 [0x51]].

(** the rule on [OP_RETURN] outputs is needed: the verifier finds them among
    the outputs of the current block, and the Core engine lets a failed script
    pass.  A block whose scripts all fail and that spends such an output is
    accepted, and the runtime panics on it. *)
Lemma return_output_spent :
  let txs := [SampleBlock.coinbase; sample_spend; spend_return] in
  let block := SampleBlock.make_block 4 txs in
  (txids ← check_block_sanity (H6 := failing_scripts) 4 block;
   verify_transactions (H6 := failing_scripts) core_verifier 4 block txids 150) = Ok tt /\
  execute_block 4 txs sample_set = Panic.
Proof. split; vm_compute; reflexivity. Qed.
