(* ===== verification/ImportBlock.v ===== *)
(** * Importing a Bitcoin block ([crates/sc-consensus-nakamoto/src/block_import.rs])

    [import_block]: the checks before an import, verification, execution, and
    the parameters handed to the Substrate client. *)

From Stdlib Require Import ZArith Lia.
From stdpp Require Import prelude gmap.
From S2P Require Import Prelude Opcode ScriptNum ScriptTypes Stack CheckSig MultiSig Sample Eval Interpreter Bitcoin Runtime SigChecker PalletTypes Pallet TxSanity Client HeaderVerify Import BlockVerify Ledger.

(** [BlockStatus] of a block in the Substrate client. *)
Inductive BlockStatus := Queued | InChainWithState | InChainPruned | KnownBadStatus | UnknownStatus.

(** [ImportResult] of the Substrate client. *)
Inductive ImportResult :=
| ResultImported
| ResultAlreadyInChain
| ResultKnownBad
| ResultUnknownParent
| ResultMissingState.

Inductive ImportStatus :=
| Imported (block_number : Z) (block_hash : bytes)
| AlreadyInChain (block_number : Z)
| UnknownParent
| MissingState
| KnownBad.

Definition is_unknown_parent (s : ImportStatus) : bool :=
  match s with
  | UnknownParent => true
  | _ => false
  end.

(** Everything that [sp_consensus::Error::ClientImport] wraps. *)
Inductive ImportError :=
| ImportClient (e : ClientError)
| ImportVerify (e : BlockError)
| ImportExecution
| ImportInner (code : Z).

(** [StateAction]: the changes of the execution, or none. *)
Inductive StateAction := ApplyChanges (s : PalletState) | SkipState.

(** What is handed to the Substrate client. *)
Record BlockImportParams := mk_import_params {
  ip_number : Z;
  ip_header : SubstrateHeader;
  ip_body : list Types.Transaction;
  ip_state_action : StateAction;
  ip_fork_choice : bool;
  ip_auxiliary : list (bytes * bytes);
}.

Section importer.
Context `{!ScriptApi, !HashApi, !KeyApi, !SighashApi}.
Context `{!TxApi, !ChainApi, !PowApi, !BlockApi}.

(** [BitcoinBlockImporter]; the Substrate client's block status, import and the
    hash of a Substrate header are its own. *)
Record BitcoinBlockImporter := mk_importer {
  im_verifier : BlockVerifier;
  im_execute_block : bool;
  im_block_status : bytes -> ClientError + BlockStatus;
  im_inner : BlockImportParams -> Z + ImportResult;
  im_header_hash : Z -> bytes -> list Types.Transaction -> list DigestItem -> StateAction -> bytes;
}.
Implicit Types (im : BitcoinBlockImporter).

Definition fetch_substrate_block_info (c : Client) (bitcoin_block_hash : bytes) :
    res ClientError (option (bytes * Z)) :=
  match substrate_block_hash_for c bitcoin_block_hash with
  | None => Ok None
  | Some substrate_block_hash =>
      number ← of_sum (client_number c substrate_block_hash);
      block_number ← ok_or UnknownBlock number;
      Ok (Some (substrate_block_hash, block_number))
  end.

(** [execute_block_at]: the runtime executes the extrinsics on the state of the
    parent; a panic of the runtime is an error of the call. *)
Definition execute_block_at im (block_number : Z) (parent_hash : bytes) (txs : list Transaction) :
    res ImportError PalletState :=
  s ← ok_or ImportExecution (state_at (im_verifier im) parent_hash);
  match execute_block block_number txs s with
  | Ok s => Ok s
  | _ => Err ImportExecution
  end.

Definition prepare_substrate_block_import im (block : Block) (parent_hash : bytes)
    (parent_block_number : Z) : res ImportError BlockImportParams :=
  let block_number := Z.min u32_max (parent_block_number + 1) in
  let extrinsics := map Types.transaction_from (txdata block) in
  let digest := substrate_header_digest (block_header block) in
  state_action ←
    (if im_execute_block im then
       s ← execute_block_at im block_number parent_hash (txdata block);
       Ok (ApplyChanges s)
     else Ok SkipState);
  let substrate_block_hash := im_header_hash im block_number parent_hash extrinsics digest state_action in
  let bitcoin_block_hash := block_hash (block_header block) in
  '(total_work, fork_choice) ← map_err ImportClient
    (calculate_chain_work_and_fork_choice (bv_client (im_verifier im)) (block_header block) block_number);
  Ok (mk_import_params block_number (mk_substrate_header digest substrate_block_hash) extrinsics
        state_action fork_choice
        (write_aux_storage bitcoin_block_hash substrate_block_hash total_work)).

(** The outcome of an import, with the parameters given to the client, if any. *)
Definition import_block im (current_time : Z) (block : Block) :
    res ImportError (ImportStatus * option BlockImportParams) :=
  let c := bv_client (im_verifier im) in
  let hash := block_hash (block_header block) in
  match backend_block_number c hash with
  | Some block_number => Ok (AlreadyInChain block_number, None)
  | None =>
      parent ← map_err ImportClient (fetch_substrate_block_info c (prev_blockhash (block_header block)));
      match parent with
      | None => Ok (UnknownParent, None)
      | Some (parent_hash, parent_number) =>
          early ←
            (if im_execute_block im then
               status ← map_err ImportClient (of_sum (im_block_status im parent_hash));
               Ok (match status with
                   | InChainWithState | Queued => None
                   | UnknownStatus => Some UnknownParent
                   | InChainPruned => Some MissingState
                   | KnownBadStatus => Some KnownBad
                   end)
             else Ok None);
          match early with
          | Some status => Ok (status, None)
          | None =>
              block_number ← expect (checked_u32 (parent_number + 1));
              map_err ImportVerify (verify_block (im_verifier im) current_time block_number block);;
              params ← prepare_substrate_block_import im block parent_hash parent_number;
              result ← map_err ImportInner (of_sum (im_inner im params));
              Ok (match result with
                  | ResultImported => Imported block_number hash
                  | ResultAlreadyInChain => AlreadyInChain block_number
                  | ResultKnownBad => KnownBad
                  | ResultUnknownParent => UnknownParent
                  | ResultMissingState => MissingState
                  end, Some params)
          end
      end
  end.
End importer.

(** ** What an import establishes *)

Section importer_facts.
Context `{!ScriptApi, !HashApi, !KeyApi, !SighashApi}.
Context `{!TxApi, !ChainApi, !ChainLaws, !PowApi, !BlockApi}.
Implicit Types (im : BitcoinBlockImporter).

(** The parameters of an import describe the block. *)
Record describes im (block : Block) (parent_hash : bytes) (number : Z) (ps : BlockImportParams) : Prop := {
  d_number : ip_number ps = number;
  d_body : ip_body ps = map Types.transaction_from (txdata block);
  d_hash : extract_bitcoin_block_hash (ip_header ps) = Ok (block_hash (block_header block));
  d_header : extract_bitcoin_block_header (ip_header ps) = Ok (block_header block);
  d_state : im_execute_block im = true ->
    exists s s', state_at (im_verifier im) parent_hash = Some s /\
      execute_block number (txdata block) s = Ok s' /\ ip_state_action ps = ApplyChanges s';
  d_work : exists total,
    calculate_chain_work_and_fork_choice (bv_client (im_verifier im)) (block_header block) number
      = Ok (total, ip_fork_choice ps) /\
    ip_auxiliary ps = write_aux_storage (block_hash (block_header block)) (substrate_hash (ip_header ps)) total;
}.

Lemma prepare_describes im block parent_hash parent_number ps :
  is_u32 (parent_number + 1) ->
  prepare_substrate_block_import im block parent_hash parent_number = Ok ps ->
  describes im block parent_hash (parent_number + 1) ps.
Proof.
  intros [_ Hmax] Hok. unfold prepare_substrate_block_import in Hok. rewrite Z.min_r in Hok by done.
  apply bind_Ok in Hok as (action & Ha & Hok). apply bind_Ok in Hok as ([total fc] & Hw & Hok).
  apply map_err_Ok in Hw. injection Hok as <-.
  split; cbn [ip_number ip_header ip_body ip_state_action ip_fork_choice ip_auxiliary substrate_hash];
    [done | done | apply extract_digest | apply extract_digest | | eauto].
  intros He. rewrite He in Ha. apply bind_Ok in Ha as (s' & Hs & Ha). injection Ha as <-.
  unfold execute_block_at in Hs. apply bind_Ok in Hs as (s & Hst & Hs). apply ok_or_Ok in Hst.
  exists s, s'. destruct (execute_block (parent_number + 1) (txdata block) s) eqn:Hx; try done.
  by injection Hs as ->.
Qed.

Lemma verify_block_csv v now n block :
  verify_block v now n block = Ok tt -> bv_block_verification v <> VerifyNothing ->
  exists t, header_verify (bv_client v) (bv_chain_params v) now (block_header block) = Ok t.
Proof.
  unfold verify_block, contextual_check_block. intros Hok Hv. apply bind_Ok in Hok as (txids & _ & Hok).
  destruct (bv_block_verification v); [done | |]; apply bind_Ok in Hok as (t & Ht & _);
    apply map_err_Ok in Ht; eauto.
Qed.

(** C7: an import hands a block to the client only when the block was not known,
    its parent was, and the block passed verification at the height after the
    parent's.  What it hands over describes the block: the digest gives back
    its hash and header, the body its transactions, the state changes are those
    of executing it on the parent's state, and the auxiliary entries hold its
    work.  A known block and a block without a known parent are reported as
    such and change nothing.  With header verification no block is ever handed
    over from the height on at which relative lock times activate. *)
Theorem import_block_spec im now block :
  let c := bv_client (im_verifier im) in
  let hash := block_hash (block_header block) in
  (forall h, ok_flatten (client_number c h) = None -> ok_flatten (client_header c h) = None) ->
  (forall n, backend_block_number c hash = Some n ->
     import_block im now block = Ok (AlreadyInChain n, None)) /\
  (backend_block_number c hash = None ->
   substrate_block_hash_for c (prev_blockhash (block_header block)) = None ->
     import_block im now block = Ok (UnknownParent, None)) /\
  (forall status ps, import_block im now block = Ok (status, Some ps) ->
     backend_block_number c hash = None /\
     exists parent_hash parent_number,
       substrate_block_hash_for c (prev_blockhash (block_header block)) = Some parent_hash /\
       backend_block_number c (prev_blockhash (block_header block)) = Some parent_number /\
       verify_block (im_verifier im) now (parent_number + 1) block = Ok tt /\
       describes im block parent_hash (parent_number + 1) ps /\
       (bv_block_verification (im_verifier im) <> VerifyNothing ->
        parent_number + 1 < csv_height (bv_chain_params (im_verifier im)))).
Proof.
  intros c hash Hcons. split_and!.
  - intros n Hn. unfold import_block. fold c hash. by rewrite Hn.
  - intros Hn Hp. unfold import_block, fetch_substrate_block_info. fold c hash. by rewrite Hn, Hp.
  - intros status ps Hok. unfold import_block in Hok. fold c hash in Hok.
    destruct (backend_block_number c hash) as [? |] eqn:Hn; [done |]. split; [done |].
    apply bind_Ok in Hok as (parent & Hp & Hok). apply map_err_Ok in Hp.
    destruct parent as [[ph pn] |]; [| done]. unfold fetch_substrate_block_info in Hp.
    destruct (substrate_block_hash_for c _) as [sh |] eqn:Hsub; [| done].
    apply bind_Ok in Hp as (num & Hnum & Hp). apply of_sum_Ok in Hnum.
    apply bind_Ok in Hp as (pn' & Hpn & Hp). apply ok_or_Ok in Hpn as ->. injection Hp as -> ->.
    apply bind_Ok in Hok as (early & _ & Hok). destruct early; [done |].
    apply bind_Ok in Hok as (bn & Hbn & Hok). apply expect_Ok in Hbn. unfold checked_u32 in Hbn.
    destruct ((0 <=? _) && _) eqn:Hr; [injection Hbn as <- | done]. bools.
    apply bind_Ok in Hok as ([] & Hv & Hok). apply map_err_Ok in Hv.
    apply bind_Ok in Hok as (ps' & Hps & Hok). apply bind_Ok in Hok as (r & _ & Hok). injection Hok as _ ->.
    assert (Hback : backend_block_number c (prev_blockhash (block_header block)) = Some pn).
    { unfold backend_block_number. rewrite Hsub. cbn. by rewrite Hnum. }
    exists ph, pn. split_and!; [done | done | done | by apply prepare_describes |].
    intros Hlevel. destruct (verify_block_csv _ _ _ _ Hv Hlevel) as [t Ht].
    apply header_verify_Ok in Ht as (h & Hh & Hcsv). fold c in Hh, Hcsv.
    rewrite Hback in Hh. injection Hh as <-.
    destruct (Z.lt_ge_cases (pn + 1) (csv_height (bv_chain_params (im_verifier im)))) as [| Hge]; [done |].
    exfalso. apply (Hcsv Hge). fold hash. unfold backend_block_header.
    unfold backend_block_number in Hn. destruct (substrate_block_hash_for c hash) as [s' |]; [| done].
    cbn in Hn |- *. by rewrite (Hcons s' Hn).
Qed.
End importer_facts.

(** ** Instances *)

Import (hints) Sample SampleTx SampleChain SamplePow SampleBlock.
#[local] Existing Instance sample_sighash.

(** The first block on a chain whose soft forks come later. *)
Definition sample_importer : BitcoinBlockImporter :=
  mk_importer
    (mk_verifier sample_client
       (mk_chain_params (mk_params 100 100 100 true 1209600 2016 (2 ^ 255)) 100 100 []) VerifyFull NoEngine
       (fun _ => Some (mk_pallet ∅ 0)))
    true (fun _ => inr InChainWithState) (fun _ => inr ResultImported) (fun _ _ _ _ _ => replicate 32 9).

Definition sample_block : Block :=
  mk_block (mk_header 4 (block_hash sample_genesis) (compute_txid first_coinbase) 150 0x207fffff 2)
    [first_coinbase].

Lemma import_block_spec_witness :
  exists status ps, import_block sample_importer 1000 sample_block = Ok (status, Some ps) /\
    extract_bitcoin_block_header (ip_header ps) = Ok (block_header sample_block) /\ ip_number ps = 1.
Proof.
  assert (Hi : exists status ps, import_block sample_importer 1000 sample_block = Ok (status, Some ps))
    by (do 2 eexists; vm_compute; reflexivity).
  destruct Hi as (status & ps & Hi). exists status, ps. split; [exact Hi |].
  destruct (import_block_spec sample_importer 1000 sample_block) as (_ & _ & Hd); [discriminate |].
  destruct (Hd status ps Hi) as (_ & ph & pn & _ & Hpn & _ & [Dn _ _ Dh _ _] & _).
  split; [exact Dh |]. rewrite Dn. vm_compute in Hpn. injection Hpn as <-. reflexivity.
Defined.
