(* ===== verification/Solver.v ===== *)
(** * Output classification ([crates/subcoin-script/src/solver.rs])

    [solve] recognises the standard output scripts.  The templates of
    rust-bitcoin ([is_p2sh], [witness_version], ...) are parameters; the
    recognition of bare multisig outputs is the code of this crate. *)

From Stdlib Require Import ZArith Lia.
From stdpp Require Import prelude.
From S2P Require Import Prelude Opcode ScriptNum ScriptTypes Stack CheckSig Sample.

(** Transaction output types. *)
Inductive TxoutType :=
| NonStandard
| Anchor
| PubKey (key : bytes)
| PubKeyHash (h : bytes)
| ScriptHash (h : bytes)
| Multisig (required_sigs keys_count : Z) (keys : list bytes)
| NullData
| WitnessV0ScriptHash (h : bytes)
| WitnessV0KeyHash (h : bytes)
| WitnessV1Taproot (h : bytes)
| WitnessUnknown (parts : list bytes).

Definition decode_pushnum (opcode : Z) : option Z :=
  if (as_u8 OP_1 <=? opcode) && (opcode <=? as_u8 OP_16) then Some (opcode - 0x50) else None.

(** The [while let] loop: the keys, and the instructions left; [None] when the
    declared number of keys is wrong. *)
Fixpoint collect_keys (l : list (ExtError + Instruction)) (keys : list bytes)
    : option (list bytes * list (ExtError + Instruction)) :=
  match l with
  | inr (PushBytes key) :: l => collect_keys l (keys ++ [key])
  | inr (Op op) :: l =>
      match decode_pushnum op with
      | Some pushnum =>
          if negb (pushnum =? Z.of_nat (length keys)) then None else Some (keys, l)
      | None => Some (keys, l)
      end
  | inl _ :: l => Some (keys, l)
  | [] => Some (keys, [])
  end.

Section solver.
Context `{!ScriptApi}.

(** The tail of a multisig script: the opcode, then the end. *)
Definition multisig_tail (l : list (ExtError + Instruction)) : bool :=
  match l with
  | [] => false
  | inr (Op op) :: l =>
      (op =? as_u8 OP_CHECKMULTISIG) && match l with [] => true | _ => false end
  | _ :: l => match l with [] => true | _ => false end
  end.

Definition match_multisig {E} (script_pubkey : bytes) : res E (option (Z * Z * list bytes)) :=
  match instructions script_pubkey with
  | inr (Op op) :: l =>
      match decode_pushnum op with
      | None => Ok None
      | Some required_sigs =>
          match collect_keys l [] with
          | None => Ok None
          | Some (keys, l) =>
              num_pubkeys ← expect (if Z.of_nat (length keys) <=? u8_max
                                    then Some (Z.of_nat (length keys)) else None);
              if num_pubkeys <? required_sigs then Ok None
              else if multisig_tail l then Ok (Some (required_sigs, num_pubkeys, keys))
              else Ok None
          end
      end
  | _ => Ok None
  end.

Definition is_pay_to_anchor (script : bytes) : bool :=
  bool_decide (script = [as_u8 OP_1; 0x02; 0x4e; 0x73]).

(** The arms on a witness version. *)
Definition solve_witness {E} (version : Z) (script_pubkey : bytes) : res E TxoutType :=
  program ← slice_from script_pubkey 2;
  if (version =? 0) && (length program =? 20)%nat then Ok (WitnessV0KeyHash program)
  else if (version =? 0) && (length program =? 32)%nat then Ok (WitnessV0ScriptHash program)
  else if (version =? 1) && (length program =? 32)%nat then Ok (WitnessV1Taproot program)
  else if is_pay_to_anchor script_pubkey then Ok Anchor
  else if negb (version =? 0) then Ok (WitnessUnknown [[version]; program])
  else Ok NonStandard.

Definition solve {E} (script_pubkey : bytes) : res E TxoutType :=
  if is_p2sh script_pubkey then
    hash ← slice script_pubkey 2 22;
    Ok (ScriptHash hash)
  else
    match witness_version script_pubkey with
    | Some version => solve_witness version script_pubkey
    | None =>
        if is_op_return script_pubkey then Ok NullData
        else
          match p2pk_public_key script_pubkey with
          | Some pubkey => Ok (PubKey pubkey)
          | None =>
              if is_p2pkh script_pubkey then
                hash ← slice script_pubkey 3 23;
                Ok (PubKeyHash hash)
              else
                m ← match_multisig script_pubkey;
                match m with
                | Some (required_sigs, keys_count, keys) =>
                    Ok (Multisig required_sigs keys_count keys)
                | None => Ok NonStandard
                end
          end
    end.
End solver.

(** ** Bare multisig *)

Lemma collect_keys_pushes keys acc l :
  collect_keys (map (fun k => inr (PushBytes k)) keys ++ l) acc = collect_keys l (acc ++ keys).
Proof.
  revert acc. induction keys as [| k keys IH]; intros acc; cbn [map app collect_keys].
  - by rewrite app_nil_r.
  - by rewrite IH, <- (assoc_L (++)).
Qed.

Lemma decode_pushnum_small n : 1 <= n <= 16 -> decode_pushnum (0x50 + n) = Some n.
Proof.
  intros Hn. unfold decode_pushnum. change (as_u8 OP_1) with 0x51. change (as_u8 OP_16) with 0x60.
  rewrite (proj2 (andb_true_iff _ _)) by (split; apply Z.leb_le; lia). f_equal. lia.
Qed.

Section multisig_outputs.
Context `{!ScriptApi}.

(** a bare multisig output [m <key1> ... <keyn> n OP_CHECKMULTISIG] with
    1 <= m <= n <= 16 is recognised, with its numbers and its keys in order,
    whatever the keys are; a script whose declared number of keys is not the
    number of keys, or which asks for more signatures than keys, is not. *)
Lemma match_multisig_bare (script : bytes) (m n : Z) (keys : list bytes) :
  instructions script =
    inr (Op (0x50 + m)) :: map (fun k => inr (PushBytes k)) keys ++
    [inr (Op (0x50 + n)); inr (Op (as_u8 OP_CHECKMULTISIG))] ->
  1 <= m <= 16 -> 1 <= n <= 16 -> (length keys <= 16)%nat ->
  match_multisig (E := Error) script =
    Ok (if (n =? Z.of_nat (length keys)) && (m <=? n) then Some (m, n, keys) else None).
Proof.
  intros Hi Hm Hn Hk. unfold match_multisig. rewrite Hi, decode_pushnum_small by done.
  rewrite collect_keys_pushes. cbn [app collect_keys]. rewrite decode_pushnum_small by done.
  destruct (Z.eqb_spec n (Z.of_nat (length keys))) as [-> | Hne]; cbn [negb andb]; [| done].
  rewrite (proj2 (Z.leb_le _ _)) by (unfold u8_max; lia). cbn [expect]. rbind.
  destruct (Z.ltb_spec (Z.of_nat (length keys)) m), (Z.leb_spec m (Z.of_nat (length keys)));
    try lia; done.
Qed.

(** A script that starts with a number from 1 to 16 followed by 256 or more
    pushes panics in [match_multisig]: the number of keys is converted to [u8]
    before any limit on it is checked. *)
Lemma match_multisig_panic {E} (script : bytes) (m : Z) (keys : list bytes) :
  instructions script = inr (Op (0x50 + m)) :: map (fun k => inr (PushBytes k)) keys ->
  1 <= m <= 16 -> (256 <= length keys)%nat ->
  match_multisig (E := E) script = Panic.
Proof.
  intros Hi Hm Hk. unfold match_multisig. rewrite Hi, decode_pushnum_small by done.
  rewrite <- (app_nil_r (map _ keys)), collect_keys_pushes. cbn [app collect_keys].
  by rewrite (proj2 (Z.leb_gt _ _)) by (unfold u8_max; lia).
Qed.
End multisig_outputs.

Import (hints) Sample.

Lemma match_multisig_bare_witness :
  match_multisig (E := Error) [0x51; 1; 7; 1; 8; 0x52; 0xae] = Ok (Some (1, 2, [[7]; [8]])).
Proof.
  assert (Hi : instructions [0x51; 1; 7; 1; 8; 0x52; 0xae] =
    inr (Op (0x50 + 1)) :: map (fun k => inr (PushBytes k)) [[7]; [8]] ++
    [inr (Op (0x50 + 2)); inr (Op (as_u8 OP_CHECKMULTISIG))]) by reflexivity.
  refine (match_multisig_bare [0x51; 1; 7; 1; 8; 0x52; 0xae] 1 2 [[7]; [8]] Hi _ _ _);
    cbn; lia.
Defined.

(** The opcode that should give the number of keys is not checked: here it is
    [OP_ADD]. *)
Example match_multisig_lenient :
  match_multisig (E := Error) [0x51; 1; 7; 1; 8; 0x93; 0xae] = Ok (Some (1, 2, [[7]; [8]])).
Proof. reflexivity. Qed.
