(* ===== verification/Compressor.v ===== *)
(** * Compression of amounts and scripts
    ([crates/subcoin-utxo-snapshot/src/compressor.rs], [script.rs])

    The compact encodings of Bitcoin Core's coin database, and the proofs that
    decoding inverts encoding. *)

From Stdlib Require Import ZArith Lia.
From stdpp Require Import prelude.
From S2P Require Import Prelude Opcode ScriptNum ScriptTypes.

Definition MAX_MONEY : Z := 21000000 * 100000000.

(** The script opcodes of the templates. *)
Definition C_OP_DUP : Z := 0x76.
Definition C_OP_HASH160 : Z := 0xa9.
Definition C_OP_EQUALVERIFY : Z := 0x88.
Definition C_OP_CHECKSIG : Z := 0xac.
Definition C_OP_EQUAL : Z := 0x87.

(** An arithmetic result in [u64], or an overflow panic. *)
Definition u64_result {E} (z : Z) : res E Z := expect (checked_u64 z).

(** ** Amounts *)

(** [while n % 10 == 0 && e < 9]: at most nine rounds. *)
Fixpoint strip_zeros (fuel : nat) (n e : Z) : Z * Z :=
  match fuel with
  | O => (n, e)
  | S fuel =>
      if (n mod 10 =? 0) && (e <? 9) then strip_zeros fuel (n / 10) (e + 1) else (n, e)
  end.

Definition compress_amount {E} (n : Z) : res E Z :=
  rassert (n <=? MAX_MONEY);;
  if n =? 0 then Ok 0
  else
    let '(n, e) := strip_zeros 9 n 0 in
    if e <? 9 then
      let d := n mod 10 in
      rassert ((1 <=? d) && (d <=? 9));;
      let n := n / 10 in
      u64_result (1 + (n * 9 + d - 1) * 10 + e)
    else u64_result (1 + (n - 1) * 10 + 9).

(** [for _ in 0..e { n *= 10 }]. *)
Fixpoint times_ten {E} (e : nat) (n : Z) : res E Z :=
  match e with
  | O => Ok n
  | S e =>
      n ← u64_result (n * 10);
      times_ten e n
  end.

Definition decompress_amount {E} (x : Z) : res E Z :=
  if x =? 0 then Ok 0
  else
    let x := x - 1 in
    let e := x mod 10 in
    let x := x / 10 in
    n ←
      (if e <? 9 then
         let d := x mod 9 + 1 in
         let x := x / 9 in
         u64_result (x * 10 + d)
       else u64_result (x + 1));
    times_ten (Z.to_nat e) n.

(** ** Scripts *)

(** [script[i] == b] after the length test. *)
Definition byte_at (script : bytes) (i : nat) (b : Z) : bool :=
  match script !! i with Some x => x =? b | None => false end.

(** [script[i..j]]. *)
Definition sub_bytes (script : bytes) (i j : nat) : bytes := firstn (j - i) (skipn i script).

Definition to_key_id (script : bytes) : option bytes :=
  if (length script =? 25)%nat && byte_at script 0 C_OP_DUP && byte_at script 1 C_OP_HASH160 &&
     byte_at script 2 20 && byte_at script 23 C_OP_EQUALVERIFY && byte_at script 24 C_OP_CHECKSIG
  then Some (sub_bytes script 3 23) else None.

Definition to_script_id (script : bytes) : option bytes :=
  if (length script =? 23)%nat && byte_at script 0 C_OP_HASH160 && byte_at script 1 20 &&
     byte_at script 22 C_OP_EQUAL
  then Some (sub_bytes script 2 22) else None.

Inductive PublicKey :=
| Compressed (k : bytes)
| Uncompressed (k : bytes).

(** The external parts: the base-128 [VarInt] of the txoutset crate, a reader's
    byte stream, and the conversion of a compressed public key to its
    uncompressed form ([PublicKey::from_slice] then [serialize_uncompressed]). *)
Class CompressApi := {
  varint_encode : Z -> bytes;
  varint_decode : bytes -> option (Z * bytes);
  uncompress_key : bytes -> option bytes;
}.

Section compressor.
Context `{!ScriptApi, !CompressApi}.

Definition to_pub_key (script : bytes) : option PublicKey :=
  if (length script =? 35)%nat && byte_at script 0 33 && byte_at script 34 C_OP_CHECKSIG &&
     (byte_at script 1 0x02 || byte_at script 1 0x03)
  then Some (Compressed (sub_bytes script 1 34))
  else if (length script =? 67)%nat && byte_at script 0 65 && byte_at script 66 C_OP_CHECKSIG &&
          byte_at script 1 0x04
  then
    match p2pk_public_key script with
    | Some _ => Some (Uncompressed (sub_bytes script 1 66))
    | None => None
    end
  else None.

Definition compress_script (script : bytes) : option bytes :=
  match to_key_id script with
  | Some hash => Some (0x00 :: hash)
  | None =>
      match to_script_id script with
      | Some hash => Some (0x01 :: hash)
      | None =>
          match to_pub_key script with
          | Some (Compressed compressed) => Some compressed
          | Some (Uncompressed uncompressed) =>
              Some (Z.lor 0x04 (Z.land (nth 64 uncompressed 0) 0x01) :: sub_bytes uncompressed 1 33)
          | None => None
          end
      end
  end.

(** [read_exact]: [n] bytes and the rest, or an end-of-file error. *)
Definition read_exact (n : nat) (stream : bytes) : option (bytes * bytes) :=
  if (n <=? length stream)%nat then Some (firstn n stream, skipn n stream) else None.

(** [decompress_script]: [None] is an I/O error, [Some None] an unknown form. *)
Definition decompress_script (stream : bytes) : option (option bytes * bytes) :=
  '(n_size_buf, stream) ← read_exact 1 stream;
  let n_size := nth 0 n_size_buf 0 in
  if n_size =? 0x00 then
    '(data, stream) ← read_exact 20 stream;
    Some (Some ([C_OP_DUP; C_OP_HASH160; 20] ++ data ++ [C_OP_EQUALVERIFY; C_OP_CHECKSIG]), stream)
  else if n_size =? 0x01 then
    '(data, stream) ← read_exact 20 stream;
    Some (Some ([C_OP_HASH160; 20] ++ data ++ [C_OP_EQUAL]), stream)
  else if (n_size =? 0x02) || (n_size =? 0x03) then
    '(data, stream) ← read_exact 32 stream;
    Some (Some (33 :: n_size :: data ++ [C_OP_CHECKSIG]), stream)
  else if (n_size =? 0x04) || (n_size =? 0x05) then
    '(data, stream) ← read_exact 32 stream;
    match uncompress_key ((n_size - 2) :: data) with
    | None => Some (None, stream)
    | Some uncompressed => Some (Some (65 :: uncompressed ++ [0xac]), stream)
    end
  else Some (None, stream).

Definition SPECIAL_SCRIPTS : Z := 6.
Definition MAX_SCRIPT_SIZE : Z := 10000.

(** [ScriptCompression::serialize] and its [consensus_encode] twin: the bytes
    written. *)
Definition serialize_script (script : bytes) : bytes :=
  match compress_script script with
  | Some compressed_script => compressed_script
  | None => varint_encode (Z.of_nat (length script) + SPECIAL_SCRIPTS) ++ script
  end.

(** [ScriptCompression::consensus_decode]: the script and the rest of the
    input. *)
Definition consensus_decode (reader : bytes) : option (bytes * bytes) :=
  '(size, reader) ← varint_decode reader;
  if size =? 0x00 then
    '(hash, reader) ← read_exact 20 reader;
    Some ([C_OP_DUP; C_OP_HASH160; 20] ++ hash ++ [C_OP_EQUALVERIFY; C_OP_CHECKSIG], reader)
  else if size =? 0x01 then
    '(hash, reader) ← read_exact 20 reader;
    Some ([C_OP_HASH160; 20] ++ hash ++ [C_OP_EQUAL], reader)
  else if (size =? 0x02) || (size =? 0x03) then
    '(data, reader) ← read_exact 32 reader;
    Some (33 :: size :: data ++ [C_OP_CHECKSIG], reader)
  else if (size =? 0x04) || (size =? 0x05) then
    '(data, reader) ← read_exact 32 reader;
    uncompressed ← uncompress_key ((size - 2) :: data);
    Some (65 :: uncompressed ++ [C_OP_CHECKSIG], reader)
  else
    let size := size - SPECIAL_SCRIPTS in
    '(data, reader) ← read_exact (Z.to_nat size) reader;
    if MAX_SCRIPT_SIZE <? size then Some ([0x6a], reader) else Some (data, reader).
End compressor.

(** ** Amounts: decoding inverts encoding *)

Lemma strip_zeros_spec fuel n e m k :
  0 < n -> 0 <= e -> e + Z.of_nat fuel = 9 -> strip_zeros fuel n e = (m, k) ->
  n = m * 10 ^ (k - e) /\ e <= k <= 9 /\ 0 < m /\ (k < 9 -> m mod 10 <> 0).
Proof.
  revert n e. induction fuel as [| fuel IH]; intros n e Hn He Hf H; cbn [strip_zeros] in H.
  - injection H as <- <-. rewrite Z.sub_diag. lia.
  - destruct ((n mod 10 =? 0) && (e <? 9)) eqn:Hc.
    + bools. assert (n = 10 * (n / 10)) by (pose proof (Z.div_mod n 10); lia).
      apply IH in H as (H' & Hk & Hm & Hmod); [| lia..].
      split_and!; [| lia | lia | done | done].
      replace (k - e) with (Z.succ (k - (e + 1))) by lia. rewrite Z.pow_succ_r by lia. lia.
    + injection H as <- <-. rewrite Z.sub_diag. apply andb_false_iff in Hc as [Hc | Hc]; bools; lia.
Qed.

Lemma u64_result_ok {E} z : 0 <= z <= u64_max -> u64_result (E := E) z = Ok z.
Proof. intros Hz. unfold u64_result, checked_u64. by rewrite (proj2 (in_u64_spec z) Hz). Qed.

Lemma times_ten_ok {E} e n :
  0 <= n -> n * 10 ^ Z.of_nat e <= u64_max -> times_ten (E := E) e n = Ok (n * 10 ^ Z.of_nat e).
Proof.
  revert n. induction e as [| e IH]; intros n Hn Hb; cbn [times_ten].
  - f_equal. change (10 ^ Z.of_nat 0) with 1. lia.
  - rewrite Nat2Z.inj_succ, Z.pow_succ_r in * by lia.
    assert (0 < 10 ^ Z.of_nat e) by (apply Z.pow_pos_nonneg; lia).
    rewrite u64_result_ok by nia. rbind. rewrite IH by nia. f_equal. lia.
Qed.

Lemma pow10_cases k : 0 <= k <= 9 -> 10 ^ k <= 10 ^ 9.
Proof. intros. apply Z.pow_le_mono_r; lia. Qed.

Lemma amount_roundtrip_full {E} (n : Z) :
  0 <= n <= MAX_MONEY ->
  exists x, compress_amount (E := E) n = Ok x /\ 0 <= x <= u64_max /\
    decompress_amount (E := Error) x = Ok n /\ (x = 0 <-> n = 0).
Proof.
  unfold MAX_MONEY. intros Hn. unfold compress_amount. rewrite (proj2 (Z.leb_le _ _)) by (unfold MAX_MONEY; lia).
  cbn [rassert]. rbind. destruct (Z.eqb_spec n 0) as [-> | Hn0].
  { exists 0. unfold u64_max. split_and!; try done. }
  destruct (strip_zeros 9 n 0) as [m k] eqn:Hs.
  apply strip_zeros_spec in Hs as (Hnm & Hk & Hm & Hmod); [| lia..].
  rewrite Z.sub_0_r in Hnm. assert (0 < 10 ^ k) by (apply Z.pow_pos_nonneg; lia).
  assert (Hmn : m <= n) by nia. unfold decompress_amount. destruct (Z.ltb_spec k 9).
  - specialize (Hmod ltac:(lia)). pose proof (Z.mod_pos_bound m 10).
    rewrite (proj2 (andb_true_iff _ _)) by (split; apply Z.leb_le; lia). cbn [rassert]. rbind.
    assert (Hm10 : m = 10 * (m / 10) + m mod 10) by (apply Z.div_mod; lia).
    set (q := m / 10) in *. set (d := m mod 10) in *.
    assert (0 <= q) by lia.
    rewrite u64_result_ok by (unfold u64_max; lia).
    eexists. split; [done |]. split; [unfold u64_max; lia |].
    destruct (Z.eqb_spec (1 + (q * 9 + d - 1) * 10 + k) 0); [lia |]. cbv zeta.
    replace (1 + (q * 9 + d - 1) * 10 + k - 1) with (k + (q * 9 + d - 1) * 10) by lia.
    rewrite (Z.mod_add k), (Z.div_add k), (Z.mod_small k), (Z.div_small k) by lia.
    rewrite Z.add_0_l, (proj2 (Z.ltb_lt _ _)) by lia.
    replace (q * 9 + d - 1) with (d - 1 + q * 9) by lia.
    rewrite (Z.mod_add (d - 1)), (Z.div_add (d - 1)), (Z.mod_small (d - 1)), (Z.div_small (d - 1)) by lia.
    rewrite u64_result_ok by (unfold u64_max; lia). rbind.
    rewrite times_ten_ok; rewrite ?Z2Nat.id by lia;
      replace ((0 + q) * 10 + (d - 1 + 1)) with m by lia; [| lia | unfold u64_max; lia].
    split; [by rewrite <- Hnm | lia].
  - assert (k = 9) as -> by lia.
    rewrite u64_result_ok by (unfold u64_max; lia).
    eexists. split; [done |]. split; [unfold u64_max; lia |].
    destruct (Z.eqb_spec (1 + (m - 1) * 10 + 9) 0); [lia |]. cbv zeta.
    replace (1 + (m - 1) * 10 + 9 - 1) with (9 + (m - 1) * 10) by lia.
    rewrite Z.mod_add, Z.div_add by lia. change (9 mod 10) with 9. change (9 / 10) with 0.
    change (9 <? 9) with false. cbv iota.
    rewrite u64_result_ok by (unfold u64_max; lia). rbind.
    rewrite times_ten_ok; change (Z.of_nat (Z.to_nat 9)) with 9;
      replace (0 + (m - 1) + 1) with m by lia; [| lia | unfold u64_max; lia].
    split; [by rewrite <- Hnm | lia].
Qed.

Lemma amount_roundtrip_ok {E} (n : Z) :
  0 <= n <= MAX_MONEY ->
  exists x, compress_amount (E := E) n = Ok x /\ is_u64 x /\ decompress_amount (E := Error) x = Ok n.
Proof.
  intros Hn. destruct (amount_roundtrip_full (E := E) n Hn) as (x & ? & ? & ? & _). by exists x.
Qed.

(** compressing an amount of at most 21 million coins and decompressing it
    gives the amount back; neither direction overflows 64 bits, and the
    compressed amount is zero only for zero. *)
Lemma amount_roundtrip (n : Z) :
  0 <= n <= MAX_MONEY ->
  exists x, compress_amount (E := Error) n = Ok x /\ 0 <= x <= u64_max /\
    decompress_amount (E := Error) x = Ok n /\ (x = 0 <-> n = 0).
Proof. apply amount_roundtrip_full. Qed.

Lemma amount_roundtrip_witness :
  exists x, compress_amount (E := Error) 5000000000 = Ok x /\ 0 <= x <= u64_max /\
    decompress_amount (E := Error) x = Ok 5000000000 /\ (x = 0 <-> 5000000000 = 0).
Proof. apply (amount_roundtrip 5000000000). unfold MAX_MONEY. lia. Defined.

(** ** Scripts: decoding inverts encoding *)

Lemma byte_at_true s i b : byte_at s i b = true <-> s !! i = Some b.
Proof.
  unfold byte_at. destruct (s !! i) as [x |]; [| naive_solver].
  rewrite Z.eqb_eq. naive_solver.
Qed.

Lemma split_last (s : bytes) n x :
  length s = S n -> s !! n = Some x -> s = firstn n s ++ [x].
Proof.
  intros Hl Hx. rewrite <- (take_drop n s) at 1. f_equal. rewrite (drop_S _ _ _ Hx).
  by rewrite drop_ge by lia.
Qed.

Lemma split_last2 (s : bytes) n x y :
  length s = S (S n) -> s !! n = Some x -> s !! (S n) = Some y -> s = firstn n s ++ [x; y].
Proof.
  intros Hl Hx Hy. rewrite <- (take_drop n s) at 1. f_equal.
  by rewrite (drop_S _ _ _ Hx), (drop_S _ _ _ Hy), drop_ge by lia.
Qed.

Lemma to_key_id_Some script hash :
  to_key_id script = Some hash ->
  length hash = 20%nat /\
  script = [C_OP_DUP; C_OP_HASH160; 20] ++ hash ++ [C_OP_EQUALVERIFY; C_OP_CHECKSIG].
Proof.
  unfold to_key_id. destruct (_ && _) eqn:Hc; [| done]. intros [= <-].
  bools. rewrite !byte_at_true in *.
  destruct script as [| a [| b [| c s]]]; try done. cbn in *. simplify_eq.
  unfold sub_bytes. cbn [skipn Nat.sub]; rewrite ?drop_0.
  split; [rewrite length_firstn; lia |].
  by rewrite <- (split_last2 s 20 C_OP_EQUALVERIFY C_OP_CHECKSIG) by done.
Qed.

Lemma to_script_id_Some script hash :
  to_script_id script = Some hash ->
  length hash = 20%nat /\ script = [C_OP_HASH160; 20] ++ hash ++ [C_OP_EQUAL].
Proof.
  unfold to_script_id. destruct (_ && _) eqn:Hc; [| done]. intros [= <-].
  bools. rewrite !byte_at_true in *.
  destruct script as [| a [| b s]]; try done. cbn in *. simplify_eq.
  unfold sub_bytes. cbn [skipn Nat.sub]; rewrite ?drop_0.
  split; [rewrite length_firstn; lia |].
  by rewrite <- (split_last s 20 C_OP_EQUAL) by done.
Qed.

Section script_codec.
Context `{!ScriptApi, !CompressApi}.

Lemma to_pub_key_Some script k :
  to_pub_key script = Some k ->
  match k with
  | Compressed c =>
      exists p d, c = p :: d /\ (p = 2 \/ p = 3) /\ length d = 32%nat /\
        script = 33 :: c ++ [C_OP_CHECKSIG]
  | Uncompressed u =>
      length u = 65%nat /\ script = 65 :: u ++ [C_OP_CHECKSIG] /\ is_Some (p2pk_public_key script)
  end.
Proof.
  unfold to_pub_key. destruct (_ && (_ || _)) eqn:Hc.
  - intros [= <-]. apply andb_true_iff in Hc as [Hc Hp]. apply orb_true_iff in Hp. bools.
    rewrite !byte_at_true in *.
    destruct script as [| a [| p s]]; try done. cbn in *. simplify_eq.
    unfold sub_bytes. cbn [skipn Nat.sub firstn]; rewrite ?drop_0. exists p, (firstn 32 s).
    split_and!; [done | naive_solver | rewrite length_firstn; lia |].
    cbn [app]. by rewrite <- (split_last s 32 C_OP_CHECKSIG) by done.
  - clear Hc. destruct (_ && _) eqn:Hc; [| done].
    destruct (p2pk_public_key script) eqn:Hk; [| done]. intros [= <-]. bools.
    rewrite !byte_at_true in *.
    split_and!; [| | done]; destruct script as [| a s]; try done; cbn in *; simplify_eq;
      unfold sub_bytes; cbn [skipn Nat.sub]; rewrite ?drop_0.
    + rewrite length_firstn. lia.
    + by rewrite <- (split_last s 65 C_OP_CHECKSIG) by done.
Qed.

(** What the external codecs promise: variable-length integers round trip, one
    byte below 128 stands for itself, and a valid public key is determined by
    its x coordinate and the parity of its y coordinate. *)
Class CompressLaws : Prop := {
  varint_roundtrip n rest : is_u64 n -> varint_decode (varint_encode n ++ rest) = Some (n, rest);
  varint_byte b rest : 0 <= b < 128 -> varint_decode (b :: rest) = Some (b, rest);
  uncompress_valid u :
    length u = 65%nat -> is_Some (p2pk_public_key (65 :: u ++ [C_OP_CHECKSIG])) ->
    uncompress_key (2 + Z.land (nth 64 u 0) 1 :: sub_bytes u 1 33) = Some u;
}.
Context `{!CompressLaws}.

Lemma read_exact_app n (d rest : bytes) : length d = n -> read_exact n (d ++ rest) = Some (d, rest).
Proof.
  intros Hd. unfold read_exact. rewrite (proj2 (Nat.leb_le _ _)) by (rewrite length_app; lia).
  by rewrite take_app_length', drop_app_length' by done.
Qed.

Lemma parity_cases z : Z.land z 1 = 0 \/ Z.land z 1 = 1.
Proof. change 1 with (2 ^ 1 - 1). rewrite land_ones_mod by lia. pose proof (Z.mod_pos_bound z (2 ^ 1)). lia. Qed.

Lemma script_roundtrip_full (script rest : bytes) :
  Z.of_nat (length script) + SPECIAL_SCRIPTS <= u64_max ->
  consensus_decode (serialize_script script ++ rest) =
    match compress_script script with
    | Some _ => Some (script, rest)
    | None => if MAX_SCRIPT_SIZE <? Z.of_nat (length script) then Some ([0x6a], rest)
              else Some (script, rest)
    end.
Proof.
  intros Hlen. unfold serialize_script, compress_script, consensus_decode.
  destruct (to_key_id script) as [h |] eqn:K1.
  { apply to_key_id_Some in K1 as [Hl ->]. cbn [app]. rewrite varint_byte by lia. cbn.
    by rewrite read_exact_app by done. }
  destruct (to_script_id script) as [h |] eqn:K2.
  { apply to_script_id_Some in K2 as [Hl ->]. cbn [app]. rewrite varint_byte by lia. cbn.
    by rewrite read_exact_app by done. }
  destruct (to_pub_key script) as [[c | u] |] eqn:K3.
  - apply to_pub_key_Some in K3 as (p & d & -> & Hp & Hl & ->). cbn [app].
    rewrite varint_byte by lia.
    by destruct Hp as [-> | ->]; cbn; rewrite read_exact_app by done.
  - apply to_pub_key_Some in K3 as (Hl & -> & Hk). cbn [app].
    assert (Hu : length (sub_bytes u 1 33) = 32%nat).
    { unfold sub_bytes. rewrite length_firstn, length_skipn. lia. }
    pose proof (uncompress_valid u Hl Hk) as Hx.
    destruct (parity_cases (nth 64 u 0)) as [Hz | Hz]; rewrite Hz in *;
      [change (Z.lor 4 0) with 4; change (2 + 0) with 2 in Hx
      |change (Z.lor 4 1) with 5; change (2 + 1) with 3 in Hx];
      rewrite varint_byte by lia; cbn -[sub_bytes];
      rewrite read_exact_app by done; cbn -[sub_bytes];
      [change (4 - 2) with 2 | change (5 - 2) with 3]; by rewrite Hx.
  - rewrite <- (assoc_L (++)), varint_roundtrip by (unfold is_u64, SPECIAL_SCRIPTS in *; lia).
    cbn [mbind option_bind].
    repeat match goal with |- context [?x =? ?y] =>
      rewrite (proj2 (Z.eqb_neq x y)) by (unfold SPECIAL_SCRIPTS; lia) end.
    cbn [orb]. cbv zeta. rewrite Z.add_simpl_r, Nat2Z.id, read_exact_app by done.
    cbn. by destruct (_ <? _).
Qed.

Lemma serialized_script_decodes script rest :
  Z.of_nat (length script) <= MAX_SCRIPT_SIZE ->
  consensus_decode (serialize_script script ++ rest) = Some (script, rest).
Proof.
  intros Hs. unfold MAX_SCRIPT_SIZE in Hs.
  rewrite script_roundtrip_full by (unfold SPECIAL_SCRIPTS, u64_max; lia).
  by rewrite (proj2 (Z.ltb_ge _ _)) by (unfold MAX_SCRIPT_SIZE; lia); destruct (compress_script script).
Qed.

(** every script round trips through the snapshot format: decoding what
    [ScriptCompression] writes gives the script back and consumes exactly the
    bytes written, for pay-to-public-key-hash, pay-to-script-hash and
    pay-to-public-key outputs in their special forms and for every other script
    up to the size limit; a longer script is replaced by a lone OP_RETURN. *)
Lemma script_roundtrip (script rest : bytes) :
  Z.of_nat (length script) + SPECIAL_SCRIPTS <= u64_max ->
  consensus_decode (serialize_script script ++ rest) =
    match compress_script script with
    | Some _ => Some (script, rest)
    | None => if MAX_SCRIPT_SIZE <? Z.of_nat (length script) then Some ([0x6a], rest)
              else Some (script, rest)
    end.
Proof. apply script_roundtrip_full. Qed.
End script_codec.

(** ** Instances *)

(** A codec for values below 128 and one of eight bytes for the others; no
    compressed key is valid. *)
Definition sample_compress : CompressApi := {|
  varint_encode n := if n <? 128 then [n] else 0x80 :: le_bytes 8 n;
  varint_decode bs :=
    match bs with
    | b :: rest =>
        if b <? 128 then Some (b, rest)
        else match read_exact 8 rest with
             | Some (d, rest) => Some (le_value d, rest)
             | None => None
             end
    | [] => None
    end;
  uncompress_key _ := None;
|}.

(** Scripts without public keys. *)
Definition no_keys : ScriptApi := {|
  instruction_indices _ := [];
  instruction_indices_minimal _ := [];
  instructions _ := [];
  is_push_only _ := false;
  is_p2sh _ := false;
  is_p2pkh _ := false;
  is_op_return _ := false;
  witness_version _ := None;
  witness_program_new _ p := inr p;
  p2pk_public_key _ := None;
  push_slice d := d;
  witness_size _ := 0;
|}.

#[local] Existing Instances sample_compress no_keys.

#[local] Instance sample_compress_laws : CompressLaws.
Proof.
  split.
  - intros n rest Hn. unfold is_u64, u64_max in Hn. cbn [varint_encode varint_decode sample_compress].
    destruct (Z.ltb_spec n 128).
    + cbn [app]. by rewrite (proj2 (Z.ltb_lt _ _)) by lia.
    + cbn [app]. change (0x80 <? 128) with false. cbv iota.
      rewrite read_exact_app by (apply le_bytes_length). rewrite le_value_bytes; [done |].
      change (2 ^ (8 * Z.of_nat 8)) with 18446744073709551616. lia.
  - intros b rest Hb. cbn. by rewrite (proj2 (Z.ltb_lt _ _)) by lia.
  - intros u _ [? [=]].
Qed.

Lemma script_roundtrip_witness :
  consensus_decode (serialize_script [0x51; 0x87] ++ [9]) = Some ([0x51; 0x87], [9]).
Proof.
  refine (script_roundtrip [0x51; 0x87] [9] _). vm_compute. congruence.
Defined.
