(* ===== verification/Snapshot.v ===== *)
(** * UTXO snapshots ([crates/subcoin-utxo-snapshot/src/lib.rs], [serialize.rs])

    The writer of Bitcoin Core compatible snapshots: metadata, then the coins
    grouped by transaction.  A writer is the list of bytes it appends.  The
    reader at the end is the format's reference definition: the theorems show
    that it recovers what the writer was given. *)

From Stdlib Require Import ZArith Lia Sorting.Sorted.
From stdpp Require Import prelude sorting.
From S2P Require Import Prelude Opcode ScriptNum ScriptTypes Compressor Bitcoin Runtime.

Record OutputEntry := mk_entry {
  oe_vout : Z;
  oe_coin : Coin;
}.

Record Utxo := mk_utxo {
  utxo_txid : bytes;
  utxo_vout : Z;
  utxo_coin : Coin;
}.

(** ** Grouping by transaction *)

(** The order of transaction ids: lexicographic on the bytes. *)
Fixpoint txid_compare (a b : bytes) : comparison :=
  match a, b with
  | [], [] => Eq
  | [], _ :: _ => Lt
  | _ :: _, [] => Gt
  | x :: a, y :: b =>
      match Z.compare x y with
      | Eq => txid_compare a b
      | c => c
      end
  end.

(** A [BTreeMap] as its sorted entries; [map.entry(k).or_default().push(v)]. *)
Fixpoint entry_push {V} (m : list (bytes * list V)) (k : bytes) (v : V) : list (bytes * list V) :=
  match m with
  | [] => [(k, [v])]
  | (k', vs) :: m' =>
      match txid_compare k k' with
      | Lt => (k, [v]) :: m
      | Eq => (k', vs ++ [v]) :: m'
      | Gt => (k', vs) :: entry_push m' k v
      end
  end.

Definition group_utxos_by_txid (utxos : list Utxo) : list (bytes * list OutputEntry) :=
  fold_left (fun m u => entry_push m (utxo_txid u) (mk_entry (utxo_vout u) (utxo_coin u))) utxos [].

(** ** Writers *)

(** [write_compact_size]. *)
Definition write_compact_size (size : Z) : bytes :=
  if size <? 253 then [wrap_u8 size]
  else if size <=? 0xFFFF then 253 :: le_bytes 2 size
  else if size <=? 0xFFFFFFFF then 254 :: le_bytes 4 size
  else 255 :: le_bytes 8 size.

(** [(height << 1) | is_coinbase as u32]. *)
Definition coin_code (c : Coin) : Z :=
  Z.lor (wrap_u32 (Z.shiftl (coin_height c) 1)) (if coin_is_coinbase c then 1 else 0).

(** [coins.sort_by_key(|entry| entry.vout)]: a stable sort. *)
Fixpoint insert_entry (e : OutputEntry) (l : list OutputEntry) : list OutputEntry :=
  match l with
  | [] => [e]
  | x :: l' => if oe_vout e <=? oe_vout x then e :: l else x :: insert_entry e l'
  end.

Definition sort_entries (l : list OutputEntry) : list OutputEntry := foldr insert_entry [] l.

Section writers.
Context `{!ScriptApi, !CompressApi}.

Definition serialize_coin {E} (c : Coin) : res E bytes :=
  amount ← compress_amount (coin_amount c);
  Ok (varint_encode (coin_code c) ++ varint_encode amount ++ serialize_script (coin_script_pubkey c)).

Fixpoint write_entries {E} (coins : list OutputEntry) : res E bytes :=
  match coins with
  | [] => Ok []
  | e :: coins =>
      coin ← serialize_coin (oe_coin e);
      rest ← write_entries coins;
      Ok (write_compact_size (oe_vout e) ++ coin ++ rest)
  end.

Definition write_coins {E} (txid : bytes) (coins : list OutputEntry) : res E bytes :=
  let coins := sort_entries coins in
  entries ← write_entries coins;
  Ok (txid ++ write_compact_size (Z.of_nat (length coins)) ++ entries).
End writers.

(** ** Metadata *)

Definition SNAPSHOT_MAGIC_BYTES : bytes := [0x75; 0x74; 0x78; 0x6f; 0xff].
Definition SNAPSHOT_VERSION : Z := 2.

Record SnapshotMetadata := mk_metadata {
  md_version : Z;
  md_supported_versions : list Z;
  md_network_magic : bytes;
  md_base_blockhash : bytes;
  md_coins_count : Z;
}.

Definition new_metadata (network_magic base_blockhash : bytes) (coins_count : Z)
    : SnapshotMetadata := {|
  md_version := SNAPSHOT_VERSION;
  md_supported_versions := [SNAPSHOT_VERSION];
  md_network_magic := network_magic;
  md_base_blockhash := base_blockhash;
  md_coins_count := coins_count;
|}.

Definition serialize_metadata (m : SnapshotMetadata) : bytes :=
  SNAPSHOT_MAGIC_BYTES ++ le_bytes 2 (md_version m) ++ md_network_magic m ++
  md_base_blockhash m ++ le_bytes 8 (md_coins_count m).

(** [SnapshotMetadata::deserialize]: [None] is an error of the reader or of the
    contents. *)
Definition deserialize_metadata (reader expected_network_magic : bytes)
    : option (SnapshotMetadata * bytes) :=
  '(magic_bytes, reader) ← read_exact 5 reader;
  if negb (bool_decide (magic_bytes = SNAPSHOT_MAGIC_BYTES)) then None
  else
    '(version_bytes, reader) ← read_exact 2 reader;
    let version := le_value version_bytes in
    if negb (version =? SNAPSHOT_VERSION) then None
    else
      '(network_magic, reader) ← read_exact 4 reader;
      if negb (bool_decide (network_magic = expected_network_magic)) then None
      else
        '(base_blockhash, reader) ← read_exact 32 reader;
        '(coins_count_bytes, reader) ← read_exact 8 reader;
        Some (mk_metadata version [SNAPSHOT_VERSION] network_magic base_blockhash
                (le_value coins_count_bytes), reader).

(** ** The whole snapshot *)

Section snapshot.
Context `{!ScriptApi, !CompressApi}.

Fixpoint write_groups {E} (groups : list (bytes * list OutputEntry)) : res E bytes :=
  match groups with
  | [] => Ok []
  | (txid, coins) :: groups =>
      b ← write_coins txid coins;
      rest ← write_groups groups;
      Ok (b ++ rest)
  end.

(** [generate_snapshot_in_mem_inner]. *)
Definition generate_snapshot {E} (network_magic block_hash : bytes) (utxos_count : Z)
    (utxos : list Utxo) : res E bytes :=
  groups ← write_groups (group_utxos_by_txid utxos);
  Ok (serialize_metadata (new_metadata network_magic block_hash utxos_count) ++ groups).
End snapshot.

(** ** The format's reader *)

Definition read_compact_size (bs : bytes) : option (Z * bytes) :=
  match bs with
  | [] => None
  | b :: bs =>
      if b <? 253 then Some (b, bs)
      else
        '(d, bs) ← read_exact (if b =? 253 then 2%nat else if b =? 254 then 4%nat else 8%nat) bs;
        Some (le_value d, bs)
  end.

Section reader.
Context `{!ScriptApi, !CompressApi}.

Definition read_coin (bs : bytes) : option (Coin * bytes) :=
  '(code, bs) ← varint_decode bs;
  '(amount, bs) ← varint_decode bs;
  amount ← (match decompress_amount (E := Error) amount with Ok a => Some a | _ => None end);
  '(script, bs) ← consensus_decode bs;
  Some (mk_coin (Z.odd code) amount (code / 2) script, bs).

Fixpoint read_entries (n : nat) (bs : bytes) : option (list OutputEntry * bytes) :=
  match n with
  | O => Some ([], bs)
  | S n =>
      '(vout, bs) ← read_compact_size bs;
      '(coin, bs) ← read_coin bs;
      '(l, bs) ← read_entries n bs;
      Some (mk_entry vout coin :: l, bs)
  end.

(** One transaction: its id of 32 bytes and its coins. *)
Definition read_group (bs : bytes) : option (bytes * list OutputEntry * bytes) :=
  '(txid, bs) ← read_exact 32 bs;
  '(n, bs) ← read_compact_size bs;
  '(l, bs) ← read_entries (Z.to_nat n) bs;
  Some (txid, l, bs).
End reader.

(** ** Grouping keeps every coin *)

Lemma txid_compare_eq a b : txid_compare a b = Eq <-> a = b.
Proof.
  revert b. induction a as [| x a IH]; intros [| y b]; cbn; try done.
  destruct (Z.compare_spec x y); [subst; rewrite IH; naive_solver | |]; split; naive_solver lia.
Qed.

Lemma txid_compare_antisym a b : txid_compare b a = CompOpp (txid_compare a b).
Proof.
  revert b. induction a as [| x a IH]; intros [| y b]; cbn; try done.
  rewrite (Z.compare_antisym x y). destruct (Z.compare x y); cbn; auto.
Qed.

Lemma txid_compare_trans a b c :
  txid_compare a b = Lt -> txid_compare b c = Lt -> txid_compare a c = Lt.
Proof.
  revert b c. induction a as [| x a IH]; intros [| y b] [| z c]; cbn; try done.
  destruct (Z.compare_spec x y), (Z.compare_spec y z), (Z.compare_spec x z); subst;
    try done; try lia; eauto.
Qed.

Definition txid_lt (a b : bytes) : Prop := txid_compare a b = Lt.

#[export] Instance txid_lt_trans : Transitive txid_lt.
Proof. intros a b c. apply txid_compare_trans. Qed.

(** The entries stored under a transaction id. *)
Fixpoint group_of {V} (m : list (bytes * list V)) (k : bytes) : list V :=
  match m with
  | [] => []
  | (k', vs) :: m => if bool_decide (k = k') then vs else group_of m k
  end.

Abbreviation keys_sorted m := (StronglySorted txid_lt (map fst m)).

Lemma entry_push_keys {V} (m : list (bytes * list V)) k v :
  forall x, In x (map fst (entry_push m k v)) <-> x = k \/ In x (map fst m).
Proof.
  induction m as [| [k' vs] m IH]; intros x; cbn [entry_push map fst In]; [naive_solver |].
  destruct (txid_compare k k') eqn:Hc; cbn [map fst In].
  - apply txid_compare_eq in Hc as ->. naive_solver.
  - naive_solver.
  - rewrite IH. naive_solver.
Qed.

Lemma entry_push_sorted {V} (m : list (bytes * list V)) k v :
  keys_sorted m -> keys_sorted (entry_push m k v).
Proof.
  induction m as [| [k' vs] m IH]; intros Hs; cbn [entry_push map fst].
  - by repeat constructor.
  - cbn [map fst] in Hs. apply StronglySorted_inv in Hs as [Hs Hf].
    destruct (txid_compare k k') eqn:Hc; cbn [map fst].
    + by constructor.
    + constructor; [by constructor |]. constructor; [done |].
      eapply Forall_impl; [exact Hf |]. intros x Hx. by transitivity k'.
    + constructor; [by apply IH |]. rewrite List.Forall_forall in *. intros x Hx.
      apply entry_push_keys in Hx as [-> | Hx]; [| by apply Hf].
      unfold txid_lt. by rewrite txid_compare_antisym, Hc.
Qed.

Lemma group_of_absent {V} (m : list (bytes * list V)) k :
  Forall (txid_lt k) (map fst m) -> group_of m k = [].
Proof.
  induction m as [| [k' vs] m IH]; cbn [group_of map fst]; [done |]. intros [Hk Hm]%Forall_cons.
  rewrite bool_decide_eq_false_2; [by apply IH |]. intros ->. unfold txid_lt in Hk.
  by rewrite (proj2 (txid_compare_eq k' k') eq_refl) in Hk.
Qed.

Lemma group_of_push {V} (m : list (bytes * list V)) k v x :
  keys_sorted m ->
  group_of (entry_push m k v) x = if bool_decide (x = k) then group_of m x ++ [v] else group_of m x.
Proof.
  induction m as [| [k' vs] m IH]; intros Hs; cbn [entry_push group_of]; [done |].
  cbn [map fst] in Hs. apply StronglySorted_inv in Hs as [Hs Hf].
  destruct (txid_compare k k') eqn:Hc; cbn [group_of].
  - apply txid_compare_eq in Hc as ->. by case_bool_decide.
  - case_bool_decide; [subst | done].
    rewrite bool_decide_eq_false_2 by (intros ->; by rewrite (proj2 (txid_compare_eq _ _) eq_refl) in Hc).
    rewrite group_of_absent; [done |]. eapply Forall_impl; [exact Hf |]. intros y Hy.
    by transitivity k'.
  - rewrite (IH Hs). destruct (decide (x = k)) as [-> | Hne].
    + rewrite (bool_decide_eq_false_2 (k = k')); [done |]. intros ->.
      by rewrite (proj2 (txid_compare_eq _ _) eq_refl) in Hc.
    + by rewrite (bool_decide_eq_false_2 (x = k)) by done.
Qed.

Definition entry_of (u : Utxo) : OutputEntry := mk_entry (utxo_vout u) (utxo_coin u).

(** The coins of one transaction, in the order they were given. *)
Definition coins_of (utxos : list Utxo) (txid : bytes) : list OutputEntry :=
  map entry_of (List.filter (fun u => bool_decide (utxo_txid u = txid)) utxos).

Lemma fold_groups utxos m txid :
  keys_sorted m ->
  let m' := fold_left (fun m u => entry_push m (utxo_txid u) (entry_of u)) utxos m in
  keys_sorted m' /\ group_of m' txid = group_of m txid ++ coins_of utxos txid.
Proof.
  revert m. induction utxos as [| u utxos IH]; intros m Hs; cbn [fold_left].
  - by rewrite app_nil_r.
  - destruct (IH (entry_push m (utxo_txid u) (entry_of u))) as [H1 H2]; [by apply entry_push_sorted |].
    split; [done |]. rewrite H2, group_of_push by done. unfold coins_of. cbn [List.filter].
    destruct (decide (txid = utxo_txid u)) as [-> | Hne].
    + rewrite !bool_decide_eq_true_2 by done. by rewrite <- (assoc_L (++)).
    + rewrite (bool_decide_eq_false_2 (txid = utxo_txid u)) by done.
      by rewrite (bool_decide_eq_false_2 (utxo_txid u = txid)) by done.
Qed.

(** grouping keeps every coin in its place: the transactions come out in
    strictly increasing order of their ids, and the group of a transaction is
    exactly its coins, in the order they were given. *)
Lemma group_utxos_spec (utxos : list Utxo) (txid : bytes) :
  StronglySorted txid_lt (map fst (group_utxos_by_txid utxos)) /\
  group_of (group_utxos_by_txid utxos) txid = coins_of utxos txid.
Proof. exact (fold_groups utxos [] txid (SSorted_nil _)). Qed.

(** ** The writer and the reader *)

(** A coin a snapshot can hold. *)
Record coin_ok (c : Coin) : Prop := {
  ok_amount : 0 <= coin_amount c <= MAX_MONEY;
  ok_height : 0 <= coin_height c < 2 ^ 31;
  ok_script : Z.of_nat (length (coin_script_pubkey c)) <= MAX_SCRIPT_SIZE;
}.

Definition entry_ok (e : OutputEntry) : Prop := is_u32 (oe_vout e) /\ coin_ok (oe_coin e).

Lemma read_compact_size_write n rest :
  is_u64 n -> read_compact_size (write_compact_size n ++ rest) = Some (n, rest).
Proof.
  unfold is_u64, u64_max, write_compact_size. intros Hn.
  destruct (Z.ltb_spec n 253).
  - unfold wrap_u8. rewrite Z.mod_small by lia. cbn [app read_compact_size].
    by rewrite (proj2 (Z.ltb_lt _ _)) by lia.
  - destruct (Z.leb_spec n 0xFFFF); [| destruct (Z.leb_spec n 0xFFFFFFFF)];
      unfold read_compact_size; cbn [app];
      rewrite (proj2 (Z.ltb_ge _ _)) by lia; cbn [Z.eqb Pos.eqb];
      rewrite read_exact_app by (apply le_bytes_length); cbn [mbind option_bind];
      rewrite le_value_bytes; try done; cbn; lia.
Qed.

Lemma coin_code_value c :
  0 <= coin_height c < 2 ^ 31 ->
  coin_code c = 2 * coin_height c + (if coin_is_coinbase c then 1 else 0).
Proof.
  intros Hh. unfold coin_code, wrap_u32. rewrite Z.shiftl_mul_pow2 by lia.
  rewrite Z.mod_small by lia. rewrite Z.lor_comm.
  rewrite lor_low_high; destruct (coin_is_coinbase c); lia.
Qed.

Section roundtrip.
Context `{!ScriptApi, !CompressApi, !CompressLaws}.

Lemma read_coin_write c rest :
  coin_ok c ->
  exists b, serialize_coin (E := Error) c = Ok b /\ read_coin (b ++ rest) = Some (c, rest).
Proof.
  intros [Ha Hh Hs]. unfold serialize_coin, read_coin.
  destruct (amount_roundtrip_ok (E := Error) (coin_amount c) Ha) as (x & -> & Hx & Hd).
  rbind. eexists. split; [done |].
  rewrite coin_code_value by done.
  rewrite <- !(assoc_L (++)), varint_roundtrip.
  2:{ unfold is_u64, u64_max. destruct (coin_is_coinbase c); lia. }
  cbn [mbind option_bind]. rewrite varint_roundtrip by done. cbn [mbind option_bind].
  rewrite Hd. cbn [mbind option_bind]. unfold MAX_SCRIPT_SIZE in Hs.
  rewrite serialized_script_decodes by (unfold MAX_SCRIPT_SIZE; lia). cbn [mbind option_bind].
  destruct c as [cb a h s]. cbn [coin_is_coinbase coin_height coin_amount coin_script_pubkey] in *.
  destruct cb.
  - by rewrite Z.add_comm, Z.odd_add_mul_2, (Z.mul_comm 2), Z.div_add by lia.
  - by rewrite Z.add_0_r, Z.odd_mul, (Z.mul_comm 2), Z.div_mul by lia.
Qed.

Lemma read_entries_write l rest :
  Forall entry_ok l ->
  exists b, write_entries (E := Error) l = Ok b /\
    read_entries (length l) (b ++ rest) = Some (l, rest).
Proof.
  induction l as [| e l IH]; intros Hl; cbn [write_entries length read_entries].
  - by exists [].
  - apply Forall_cons in Hl as [[Hv Hc] Hl]. destruct (IH Hl) as (b2 & -> & K2).
    destruct (read_coin_write (oe_coin e) (b2 ++ rest) Hc) as (b1 & -> & K1). rbind.
    eexists. split; [done |]. rewrite <- !(assoc_L (++)).
    rewrite read_compact_size_write by (unfold is_u32, is_u64, u32_max, u64_max in *; lia).
    cbn [mbind option_bind]. rewrite K1. cbn [mbind option_bind]. rewrite K2.
    cbn [mbind option_bind]. by destruct e.
Qed.

Lemma insert_entry_perm e l : insert_entry e l ≡ₚ e :: l.
Proof.
  induction l as [| x l IH]; cbn [insert_entry]; [done |].
  destruct (_ <=? _); [done |]. rewrite IH. apply Permutation_swap.
Qed.

Lemma sort_entries_perm l : sort_entries l ≡ₚ l.
Proof.
  induction l as [| e l IH]; cbn [sort_entries foldr]; [done |].
  rewrite insert_entry_perm. by apply Permutation_skip.
Qed.

Definition vout_le (a b : OutputEntry) : Prop := oe_vout a <= oe_vout b.

#[local] Instance vout_le_trans : Transitive vout_le.
Proof. intros a b c. unfold vout_le. lia. Qed.

Lemma insert_entry_sorted e l : StronglySorted vout_le l -> StronglySorted vout_le (insert_entry e l).
Proof.
  induction 1 as [| x l Hs IH Hf]; cbn [insert_entry]; [by repeat constructor |].
  destruct (Z.leb_spec (oe_vout e) (oe_vout x)).
  - constructor; [by constructor |]. constructor; [unfold vout_le; lia |].
    eapply Forall_impl; [exact Hf |]. intros y Hy. unfold vout_le in *. lia.
  - constructor; [done |]. rewrite insert_entry_perm. constructor; [unfold vout_le; lia | done].
Qed.

Lemma sort_entries_sorted l : StronglySorted vout_le (sort_entries l).
Proof.
  induction l as [| e l IH]; cbn [sort_entries foldr]; [constructor | by apply insert_entry_sorted].
Qed.

(** C29: the coins of a transaction round trip through the snapshot format: for
    valid coins, what [write_coins] appends is read back as the transaction id
    and the same coins in the order of their output index, and exactly the
    bytes written are consumed. *)
Theorem write_coins_roundtrip (txid : bytes) (coins : list OutputEntry) (rest : bytes) :
  length txid = 32%nat -> Forall entry_ok coins -> Z.of_nat (length coins) <= u32_max ->
  exists b l, write_coins (E := Error) txid coins = Ok b /\
    read_group (b ++ rest) = Some (txid, l, rest) /\
    l ≡ₚ coins /\ StronglySorted vout_le l.
Proof.
  intros Ht Hc Hn. unfold write_coins, read_group.
  assert (Hok : Forall entry_ok (sort_entries coins)) by (by rewrite sort_entries_perm).
  destruct (read_entries_write (sort_entries coins) rest Hok) as (b & -> & Hb). rbind.
  eexists _, (sort_entries coins). split; [done |].
  rewrite <- !(assoc_L (++)), read_exact_app by done. cbn [mbind option_bind].
  rewrite read_compact_size_write.
  2:{ rewrite sort_entries_perm. unfold is_u64, u64_max, u32_max in *. lia. }
  cbn [mbind option_bind]. rewrite Nat2Z.id, Hb.
  split_and!; [done | apply sort_entries_perm | apply sort_entries_sorted].
Qed.
End roundtrip.

(** the metadata of a snapshot is read back as written, and a snapshot of
    another network or version, or without the magic bytes, is refused. *)
Lemma metadata_roundtrip (magic hash expected rest : bytes) (count version : Z) :
  length magic = 4%nat -> length hash = 32%nat -> is_u64 count -> is_u16 version ->
  deserialize_metadata
    (serialize_metadata (mk_metadata version [SNAPSHOT_VERSION] magic hash count) ++ rest) expected =
    if (version =? SNAPSHOT_VERSION) && bool_decide (magic = expected)
    then Some (mk_metadata version [SNAPSHOT_VERSION] magic hash count, rest) else None.
Proof.
  intros Hm Hh Hc Hv. unfold is_u64, u64_max, is_u16, u16_max in *.
  unfold deserialize_metadata, serialize_metadata.
  cbn [md_version md_network_magic md_base_blockhash md_coins_count].
  rewrite <- !(assoc_L (++)).
  rewrite (read_exact_app 5) by done. cbn [mbind option_bind].
  rewrite bool_decide_eq_true_2 by done. cbn [negb].
  rewrite (read_exact_app 2) by (apply le_bytes_length). cbn [mbind option_bind].
  rewrite le_value_bytes by (cbn; lia). cbv zeta.
  destruct (Z.eqb_spec version SNAPSHOT_VERSION); cbn [negb andb]; [| done].
  rewrite (read_exact_app 4) by done. cbn [mbind option_bind].
  case_bool_decide; cbn [negb]; [| done].
  rewrite (read_exact_app 32) by done. cbn [mbind option_bind].
  rewrite (read_exact_app 8) by (apply le_bytes_length). cbn [mbind option_bind].
  by rewrite le_value_bytes by (cbn; lia).
Qed.

Lemma metadata_roundtrip_witness :
  deserialize_metadata
    (serialize_metadata (new_metadata [0xf9; 0xbe; 0xb4; 0xd9] (replicate 32 7) 42) ++ [1])
    [0xf9; 0xbe; 0xb4; 0xd9]
  = Some (new_metadata [0xf9; 0xbe; 0xb4; 0xd9] (replicate 32 7) 42, [1]).
Proof.
  refine (metadata_roundtrip [0xf9; 0xbe; 0xb4; 0xd9] (replicate 32 7) [0xf9; 0xbe; 0xb4; 0xd9] [1] 42 2
            eq_refl eq_refl _ _); vm_compute; split; congruence.
Defined.

#[local] Existing Instances sample_compress no_keys sample_compress_laws.

Lemma write_coins_roundtrip_witness :
  exists b l,
    write_coins (E := Error) (replicate 32 1) [mk_entry 3 (mk_coin true 50 7 [0x51]);
                                                mk_entry 1 (mk_coin false 20 8 [])] = Ok b /\
    read_group (b ++ [9]) = Some (replicate 32 1, l, [9]) /\
    l ≡ₚ [mk_entry 3 (mk_coin true 50 7 [0x51]); mk_entry 1 (mk_coin false 20 8 [])] /\
    StronglySorted vout_le l.
Proof.
  apply (write_coins_roundtrip (replicate 32 1) [mk_entry 3 (mk_coin true 50 7 [0x51]);
                                                 mk_entry 1 (mk_coin false 20 8 [])] [9]).
  - reflexivity.
  - repeat constructor; vm_compute; congruence.
  - vm_compute. congruence.
Defined.
