(* ===== verification/MuHash.v ===== *)
(** * MuHash ([crates/subcoin-crypto/src/lib.rs], [muhash.rs])

    The incremental hash of a set of byte strings: a fraction of products modulo
    a 3072-bit number.  Its digest is shown to depend on the set only, neither on
    the order of the operations nor on what was inserted and removed again. *)

From Stdlib Require Import ZArith Lia Zpow_facts String.
From stdpp Require Import prelude.
From S2P Require Import Prelude ScriptTypes Sample.

(** The [chacha20] crate: [len] bytes of the key stream from a position on, for a
    key and a nonce. *)
Class KeyStream := { keystream : bytes -> bytes -> Z -> nat -> bytes }.
Class KeyStreamLaws `{KeyStream} : Prop := {
  keystream_length key nonce pos len : length (keystream key nonce pos len) = len;
  keystream_bytes key nonce pos len : bytes_ok (keystream key nonce pos len);
}.

(** ** Big numbers of the [num_bigint] crate, as integers *)

(** [BigUint::modpow]. *)
Definition modpow (base exponent modulus : Z) : Z := Zpow_mod base exponent modulus.

(** [BigUint::to_bytes_le]: without leading zeros, one byte for zero. *)
Definition to_bytes_le (z : Z) : bytes :=
  if z =? 0 then [0] else le_bytes (Z.to_nat (Z.log2 z / 8 + 1)) z.

(** [Vec::resize]. *)
Definition vec_resize (l : bytes) (n : nat) (x : Z) : bytes := take n l ++ replicate (n - length l) x.

(** [write!(output, "{b:02x}")]. *)
Definition hex_digit (n : Z) : Ascii.ascii :=
  Ascii.ascii_of_nat (Z.to_nat (if n <? 10 then 48 + n else 87 + n)).
Definition hex_byte (b : Z) : string := String (hex_digit (b / 16)) (String (hex_digit (b mod 16)) EmptyString).

(** ** The accumulator *)

Record MuHash3072 := mk_muhash {
  numerator : Z;
  denominator : Z;
  modulus : Z;
}.

Definition new : MuHash3072 := {|
  numerator := 1;
  denominator := 1;
  modulus := Z.shiftl 1 3072 - 1103717;
|}.

Section muhash.
Context `{!HashApi, !KeyStream}.

Definition chacha20_block (key nonce : bytes) (counter : Z) : bytes :=
  keystream key nonce (counter * 64) 64.

Definition data_to_num3072 (data : bytes) : Z :=
  le_value (flat_map (chacha20_block data (replicate 12 0)) (seqZ 0 6)).

Definition insert (data : bytes) (m : MuHash3072) : MuHash3072 :=
  let data_hash := sha256 data in
  let num3072 := data_to_num3072 data_hash in
  mk_muhash (numerator m * num3072 mod modulus m) (denominator m) (modulus m).

Definition remove (data : bytes) (m : MuHash3072) : MuHash3072 :=
  let data_hash := sha256 data in
  let num3072 := data_to_num3072 data_hash in
  mk_muhash (numerator m) (denominator m * num3072 mod modulus m) (modulus m).

Definition digest (m : MuHash3072) : bytes :=
  let denominator_inv := modpow (denominator m) (modulus m - 2) (modulus m) in
  let val := numerator m * denominator_inv mod modulus m in
  let bytes384 := to_bytes_le val in
  let bytes384 := vec_resize bytes384 384 0 in
  sha256 bytes384.

Definition txoutset_muhash (m : MuHash3072) : string :=
  fold_left (fun output b => output ++ hex_byte b)%string (reverse (digest m)) EmptyString.

(** ** Histories of an accumulator *)

Inductive op :=
| Insert (data : bytes)
| Remove (data : bytes).

Definition mh_step (m : MuHash3072) (o : op) : MuHash3072 :=
  match o with
  | Insert d => insert d m
  | Remove d => remove d m
  end.

Definition mh_run (ops : list op) : MuHash3072 := fold_left mh_step ops new.

Definition inserted (ops : list op) : list bytes :=
  omap (fun o => match o with Insert d => Some d | Remove _ => None end) ops.
Definition removed (ops : list op) : list bytes :=
  omap (fun o => match o with Insert _ => None | Remove d => Some d end) ops.

(** The factor of an element. *)
Definition element (d : bytes) : Z := data_to_num3072 (sha256 d).

Definition product (l : list bytes) : Z := foldr (fun d z => element d * z) 1 l.

(** An element that Fermat's little theorem applies to: the modulus being prime,
    every one that is not a multiple of it. *)
Definition invertible (d : bytes) : Prop :=
  element d ^ (modulus new - 1) mod modulus new = 1.
End muhash.

(** ** Residues *)

Section residues.
Context (p : Z) (Hp : 2 < p).

Lemma mul_mod_l a b c : a mod p = b mod p -> (a * c) mod p = (b * c) mod p.
Proof. intros Hab. by rewrite (Z.mul_mod a c), Hab, <- Z.mul_mod by lia. Qed.

(** Two fractions with equal cross products have equal values, inverses being
    powers by Fermat's little theorem. *)
Lemma fraction_eq n1 d1 n2 d2 :
  n1 * d2 = n2 * d1 -> d1 ^ (p - 1) mod p = 1 -> d2 ^ (p - 1) mod p = 1 ->
  (n1 * d1 ^ (p - 2)) mod p = (n2 * d2 ^ (p - 2)) mod p.
Proof.
  intros Hx Hd1 Hd2.
  assert (forall d, d ^ (p - 1) = d * d ^ (p - 2)) as Hpow.
  { intros d. rewrite <- Z.pow_succ_r by lia. f_equal. lia. }
  rewrite Hpow in Hd1, Hd2.
  assert (forall a d e, (d * d ^ (p - 2)) mod p = 1 -> (a * (d * d ^ (p - 2)) * e) mod p = (a * e) mod p) as Hone.
  { intros a d e Hd. apply mul_mod_l. transitivity ((1 * a) mod p); [| by rewrite Z.mul_1_l].
    rewrite (Z.mul_comm a). apply mul_mod_l. rewrite Hd. symmetry. apply Z.mod_small. lia. }
  rewrite <- (Hone n1 d2 (d1 ^ (p - 2)) Hd2), <- (Hone n2 d1 (d2 ^ (p - 2)) Hd1).
  f_equal. transitivity (n1 * d2 * (d1 ^ (p - 2) * d2 ^ (p - 2))); [lia |]. rewrite Hx. lia.
Qed.

Lemma modpow_spec b e : modpow b e p = b ^ e mod p.
Proof. unfold modpow. apply Zpow_mod_correct. lia. Qed.
End residues.

Lemma modulus_big : 2 < modulus new.
Proof. vm_compute. done. Qed.

Lemma modulus_size : modulus new < 2 ^ (8 * Z.of_nat 384).
Proof. vm_compute. done. Qed.

Section facts.
Context `{!HashApi, !KeyStream}.

Lemma product_perm l k : l ≡ₚ k -> product l = product k.
Proof. unfold product. induction 1; cbn; lia. Qed.

Lemma product_app l k : product (l ++ k) = product l * product k.
Proof. unfold product. induction l as [| d l IH]; cbn; [lia |]. rewrite IH. lia. Qed.

(** Where an accumulator stands: a fraction of the products, in lowest residues. *)
Definition fraction (n d : Z) (m : MuHash3072) : Prop :=
  modulus m = modulus new /\
  numerator m = n mod modulus new /\ denominator m = d mod modulus new.

Lemma fraction_step n d m o :
  fraction n d m -> fraction (n * product (inserted [o])) (d * product (removed [o])) (mh_step m o).
Proof.
  intros (Hm & Hn & Hd). pose proof modulus_big.
  destruct o as [x | x]; unfold fraction, mh_step, insert, remove, product, element, inserted, removed;
    cbn [omap list_omap foldr numerator denominator modulus]; rewrite Hm, Hn, Hd;
    rewrite ?Z.mul_1_r, Z.mul_mod_idemp_l by lia; done.
Qed.

Lemma fraction_steps ops n d m :
  fraction n d m ->
  fraction (n * product (inserted ops)) (d * product (removed ops)) (fold_left mh_step ops m).
Proof.
  revert n d m. induction ops as [| o ops IH]; intros n d m Hm; cbn [fold_left].
  - unfold inserted, removed, product. cbn. by rewrite !Z.mul_1_r.
  - specialize (IH _ _ _ (fraction_step _ _ _ o Hm)).
    replace (inserted (o :: ops)) with (inserted [o] ++ inserted ops) by (by destruct o).
    replace (removed (o :: ops)) with (removed [o] ++ removed ops) by (by destruct o).
    by rewrite !product_app, !Z.mul_assoc.
Qed.

Lemma run_fraction ops : fraction (product (inserted ops)) (product (removed ops)) (mh_run ops).
Proof.
  rewrite <- (Z.mul_1_l (product (inserted ops))), <- (Z.mul_1_l (product (removed ops))).
  apply fraction_steps. split_and!; [done | vm_compute; done ..].
Qed.

(** ** The digest *)

(** The residue a digest is the hash of. *)
Definition residue (m : MuHash3072) : Z :=
  numerator m * modpow (denominator m) (modulus m - 2) (modulus m) mod modulus m.

Lemma run_residue ops :
  residue (mh_run ops) =
  product (inserted ops) * product (removed ops) ^ (modulus new - 2) mod modulus new.
Proof.
  destruct (run_fraction ops) as (Hm & Hn & Hd). pose proof modulus_big.
  unfold residue. rewrite Hm, Hn, Hd, modpow_spec by lia.
  rewrite Z.mul_mod_idemp_l by lia.
  rewrite Z.mul_mod, <- (Zpower_mod (product (removed ops))), <- Z.mul_mod by lia.
  rewrite Z.mul_mod_idemp_r by lia. done.
Qed.

Lemma le_bytes_zero n : le_bytes n 0 = replicate n 0.
Proof. induction n as [| n IH]; cbn [le_bytes replicate]; [done |]. by rewrite Z.div_0_l, IH by lia. Qed.

Lemma le_bytes_app a b z :
  le_bytes (a + b) z = le_bytes a z ++ le_bytes b (z / 2 ^ (8 * Z.of_nat a)).
Proof.
  revert z. induction a as [| a IH]; intros z; cbn [le_bytes Nat.add].
  - cbn. by rewrite Z.div_1_r.
  - cbn [app]. rewrite IH, Z.div_div by lia. do 3 f_equal.
    replace 256 with (2 ^ 8) by lia. rewrite <- Z.pow_add_r by lia. f_equal. f_equal. lia.
Qed.

(** Without leading zeros and filled up again, a number keeps its bytes. *)
Lemma resize_bytes z n :
  0 <= z < 2 ^ (8 * Z.of_nat n) -> (0 < n)%nat -> vec_resize (to_bytes_le z) n 0 = le_bytes n z.
Proof.
  intros Hz Hn. unfold vec_resize, to_bytes_le. destruct (Z.eqb_spec z 0) as [-> | Hz0].
  { destruct n; [lia |]. cbn [take length]. rewrite le_bytes_zero. cbn [replicate app].
    by rewrite take_nil, Nat.sub_succ, Nat.sub_0_r. }
  assert (2 ^ Z.log2 z <= z < 2 ^ Z.succ (Z.log2 z)) as Hlog by (apply Z.log2_spec; lia).
  assert (0 <= Z.log2 z) by apply Z.log2_nonneg.
  assert (Z.log2 z < 8 * Z.of_nat n) as Hlt by (apply Z.log2_lt_pow2; lia).
  set (k := Z.to_nat (Z.log2 z / 8 + 1)).
  assert (k <= n)%nat as Hk by (unfold k; zdm).
  assert (z < 2 ^ (8 * Z.of_nat k)) as Hzk.
  { apply Z.lt_le_trans with (2 ^ Z.succ (Z.log2 z)); [lia |]. apply Z.pow_le_mono_r; [lia |].
    unfold k. zdm. }
  rewrite le_bytes_length, take_ge by (rewrite le_bytes_length; lia).
  replace n with (k + (n - k))%nat at 2 by lia.
  by rewrite le_bytes_app, Z.div_small, le_bytes_zero by lia.
Qed.

Lemma digest_residue m :
  modulus m = modulus new -> digest m = sha256 (le_bytes 384 (residue m)).
Proof.
  intros Hm. unfold digest. f_equal. rewrite resize_bytes; [done | | lia].
  pose proof modulus_big. pose proof modulus_size. rewrite Hm.
  match goal with |- 0 <= ?a mod ?b < _ => pose proof (Z.mod_pos_bound a b) end. lia.
Qed.

Lemma run_digest ops :
  digest (mh_run ops) = sha256 (le_bytes 384
    (product (inserted ops) * product (removed ops) ^ (modulus new - 2) mod modulus new)).
Proof. rewrite digest_residue by apply run_fraction. by rewrite run_residue. Qed.

Lemma product_invertible l :
  Forall invertible l -> product l ^ (modulus new - 1) mod modulus new = 1.
Proof.
  pose proof modulus_big. induction 1 as [| d l Hd Hl IH]; unfold product; cbn [foldr].
  - rewrite Z.pow_1_l by lia. apply Z.mod_small. lia.
  - fold (product l). rewrite Z.pow_mul_l, Z.mul_mod by lia.
    unfold invertible in Hd. rewrite Hd, IH. apply Z.mod_small. lia.
Qed.

Lemma invertible_one d : element d = 1 -> invertible d.
Proof.
  intros Hd. unfold invertible. rewrite Hd.
  pose proof modulus_big. rewrite Z.pow_1_l by lia. apply Z.mod_small. lia.
Qed.


(** *** The shape of the results *)

Definition hex_char (c : Ascii.ascii) : bool :=
  let n := Z.of_nat (Ascii.nat_of_ascii c) in
  ((48 <=? n) && (n <=? 57)) || ((97 <=? n) && (n <=? 102)).

Fixpoint all_chars (f : Ascii.ascii -> bool) (s : string) : bool :=
  match s with
  | EmptyString => true
  | String c s => f c && all_chars f s
  end.

Lemma hex_digit_ok n : 0 <= n < 16 -> hex_char (hex_digit n) = true.
Proof.
  intros Hn. assert (forallb (fun n => hex_char (hex_digit n)) (seqZ 0 16) = true) as Hall.
  { vm_compute. reflexivity. }
  rewrite forallb_forall in Hall. apply Hall, list_elem_of_In, elem_of_seqZ. lia.
Qed.

Lemma fold_hex l s :
  bytes_ok l -> all_chars hex_char s = true ->
  String.length (fold_left (fun output b => output ++ hex_byte b)%string l s) =
    (String.length s + 2 * length l)%nat /\
  all_chars hex_char (fold_left (fun output b => output ++ hex_byte b)%string l s) = true.
Proof.
  intros Hl. revert s. induction Hl as [| b l Hb Hl IH]; intros s Hs; cbn [fold_left length].
  - split; [lia | done].
  - assert (all_chars hex_char (s ++ hex_byte b)%string = true) as Hs'.
    { induction s as [| c s IHs]; cbn [all_chars String.append] in *.
      - unfold hex_byte. cbn [all_chars]. unfold is_u8, u8_max in Hb.
        rewrite !hex_digit_ok by zdm. done.
      - apply andb_true_iff in Hs as [-> Hs]. by apply IHs. }
    destruct (IH _ Hs') as [-> ->]. split; [| done].
    assert (forall a b, String.length (a ++ b)%string = (String.length a + String.length b)%nat) as ->.
    { induction a as [| c a IHa]; intros; cbn; [done |]. by rewrite IHa. }
    cbn [hex_byte String.length]. lia.
Qed.
End facts.

Section typing.
Context `{!HashApi, !HashLaws} `{!KeyStream, !KeyStreamLaws}.

Lemma element_bound d : 0 <= data_to_num3072 d < 2 ^ 3072.
Proof.
  unfold data_to_num3072. set (l := flat_map _ _).
  assert (length l = 384%nat /\ bytes_ok l) as [Hl Hb].
  { unfold l. change (seqZ 0 6) with [0; 1; 2; 3; 4; 5]. cbn [flat_map]. unfold chacha20_block.
    split; [by rewrite !length_app, !keystream_length |].
    repeat (apply Forall_app; split; [apply keystream_bytes |]). constructor. }
  pose proof (le_value_bound l Hb) as Hv. by rewrite Hl in Hv.
Qed.

(** C40: the type of the accumulator: along any history numerator and denominator
    stay in the range of the modulus, so that 384 bytes hold them, a 3072-bit
    element is the value of 384 bytes, a digest is 32 bytes, and the textual form
    is 64 lower-case hexadecimal digits. *)
Theorem muhash_type (ops : list op) (d : bytes) :
  modulus (mh_run ops) = 2 ^ 3072 - 1103717 /\
  0 <= numerator (mh_run ops) < modulus (mh_run ops) /\
  0 <= denominator (mh_run ops) < modulus (mh_run ops) /\
  0 <= data_to_num3072 (sha256 d) < 2 ^ 3072 /\
  length (digest (mh_run ops)) = 32%nat /\ bytes_ok (digest (mh_run ops)) /\
  String.length (txoutset_muhash (mh_run ops)) = 64%nat /\
  all_chars hex_char (txoutset_muhash (mh_run ops)) = true.
Proof.
  destruct (run_fraction ops) as (Hm & Hn & Hd). pose proof modulus_big.
  assert (length (digest (mh_run ops)) = 32%nat /\ bytes_ok (digest (mh_run ops))) as [Hl Hb].
  { unfold digest. split; [apply hash_lengths | apply hash_bytes]. }
  assert (bytes_ok (reverse (digest (mh_run ops)))) as Hbr by (by apply Forall_reverse).
  destruct (fold_hex _ EmptyString Hbr eq_refl) as [Hh1 Hh2]. rewrite length_reverse, Hl in Hh1.
  rewrite Hn, Hd, Hm. split_and!; try (apply Z.mod_pos_bound; lia); try done.
  - apply element_bound.
  - apply element_bound.
Qed.
End typing.

(** ** Sample instances *)

Module SampleMuHash.
(** A key stream whose number depends on the key: one for a key that starts with
    zero, and the first byte of the key otherwise. *)
Definition key_stream : KeyStream := {|
  keystream key nonce pos len :=
    take len ((if pos =? 0 then
       match key with k :: _ => if k =? 0 then 1 else wrap_u8 k | [] => 1 end else 0) :: replicate (len - 1) 0)
|}.
#[export] Existing Instance key_stream.

#[export] Instance key_stream_laws : KeyStreamLaws.
Proof.
  split; intros key nonce pos len; cbn [keystream key_stream].
  - rewrite length_take. cbn [length]. rewrite length_replicate. lia.
  - apply Forall_take, Forall_cons. split; [| apply Forall_replicate; unfold is_u8, u8_max; lia].
    unfold is_u8, u8_max, wrap_u8. destruct (pos =? 0); [destruct key as [| k]; [lia |] | lia].
    destruct (k =? 0); [lia |]. pose proof (Z.mod_pos_bound k (2 ^ 8)). lia.
Qed.

Import Sample.

Lemma sample_invertible : invertible [255].
Proof. apply invertible_one. vm_compute. reflexivity. Qed.

Definition detour : list op := [Insert [4]; Insert [255]; Remove [255]; Insert [9]].
Definition direct : list op := [Insert [9]; Insert [4]].
End SampleMuHash.
Import SampleMuHash Sample.


Lemma muhash_type_witness :
  0 <= numerator (mh_run detour) < modulus (mh_run detour) /\
  String.length (txoutset_muhash (mh_run detour)) = 64%nat.
Proof.
  pose proof (muhash_type detour [4]) as Hty.
  exact (conj (proj1 (proj2 Hty)) (proj1 (proj2 (proj2 (proj2 (proj2 (proj2 (proj2 Hty)))))))).
Defined.
