(* ===== verification/SnapshotStore.v ===== *)
(** * Collecting the coins of a snapshot ([crates/subcoin-snapcake/src/snapshot_manager.rs])

    The coins that arrive from the network are kept in memory, in a CSV file or in
    RocksDB until the snapshot is written.  The theorems show that the three
    stores write the same snapshot, the one of [Snapshot.generate_snapshot], and
    what the stored count of coins is. *)

From Stdlib Require Import ZArith Lia Ascii String Sorting.Sorted.
From stdpp Require Import prelude gmap sorting.
From S2P Require Import Prelude Opcode ScriptNum ScriptTypes Sample Bitcoin Runtime Compressor Snapshot MuHash.

(** ** The libraries *)

(** [rocksdb::DB]: reads, atomic batches of writes, and the iterator from the
    start; [kv_content] is what the database holds. *)
Class KvStore := {
  Db : Type;
  kv_content : Db -> gmap bytes bytes;
  kv_get : Db -> bytes -> ExtError + option bytes;
  kv_write : Db -> list (bytes * bytes) -> ExtError + Db;
  kv_iter : Db -> list (bytes * bytes);
}.

(** The effect of the puts of a batch, in their order. *)
Definition put_all (m : gmap bytes bytes) (batch : list (bytes * bytes)) : gmap bytes bytes :=
  fold_left (fun m '(k, v) => <[k := v]> m) batch m.

Definition key_lt (a b : bytes * bytes) : Prop := txid_lt a.1 b.1.

(** A batch is written whole; the iterator yields the entries in the order of the
    bytes of their keys. *)
Class KvLaws `{KvStore} : Prop := {
  kv_get_content db k : kv_get db k = inr (kv_content db !! k);
  kv_write_content db batch db' :
    kv_write db batch = inr db' -> kv_content db' = put_all (kv_content db) batch;
  kv_iter_content db : kv_iter db ≡ₚ map_to_list (kv_content db);
  kv_iter_sorted db : StronglySorted key_lt (kv_iter db);
}.

(** [bincode] on coins, and [hex]. *)
Class CoinCodec := {
  bincode_serialize : Coin -> bytes;
  bincode_deserialize : bytes -> option Coin;
  hex_encode : bytes -> string;
  hex_decode : string -> option bytes;
}.
Class CoinCodecLaws `{CoinCodec} : Prop := {
  bincode_roundtrip c : bincode_deserialize (bincode_serialize c) = Some c;
  hex_roundtrip b : hex_decode (hex_encode b) = Some b;
}.

(** CSV representation of a UTXO entry. *)
Record UtxoCsvEntry := mk_csv_entry {
  csv_txid : bytes;
  csv_vout : Z;
  csv_is_coinbase : bool;
  csv_amount : Z;
  csv_height : Z;
  csv_script_pubkey : string;
}.

(** The [csv] crate on a file: appending one record, the number of records, and
    the records that can be deserialised. *)
Class CsvApi := {
  CsvFile : Type;
  csv_append : CsvFile -> UtxoCsvEntry -> ExtError + CsvFile;
  csv_count : CsvFile -> nat;
  csv_deserialize : CsvFile -> list (ExtError + UtxoCsvEntry);
}.
Class CsvLaws `{CsvApi} : Prop := {
  csv_append_records f e f' :
    csv_append f e = inr f' -> csv_deserialize f' = csv_deserialize f ++ [inr e];
  csv_count_records f : csv_count f = length (csv_deserialize f);
}.

(** ** The store *)

Definition COUNT_KEY : bytes := [0x5f; 0x5f; 0x63; 0x6f; 0x69; 0x6e; 0x5f; 0x63; 0x6f; 0x75; 0x6e; 0x74].

Section store.
Context `{!ScriptApi, !CompressApi, !KvStore, !CoinCodec, !CsvApi}.

Inductive SnapshotStore :=
| InMem (list_ : list Utxo)
| Csv (path : CsvFile)
| Rocksdb (db : Db).

Definition csv_from_utxo (u : Utxo) : UtxoCsvEntry :=
  mk_csv_entry (utxo_txid u) (utxo_vout u) (coin_is_coinbase (utxo_coin u)) (coin_amount (utxo_coin u))
    (coin_height (utxo_coin u)) (hex_encode (coin_script_pubkey (utxo_coin u))).

Definition utxo_from_csv {E} (e : UtxoCsvEntry) : res E Utxo :=
  script ← expect (hex_decode (csv_script_pubkey e));
  Ok (mk_utxo (csv_txid e) (csv_vout e)
        (mk_coin (csv_is_coinbase e) (csv_amount e) (csv_height e) script)).

Definition append_to_csv (f : CsvFile) (u : Utxo) : res ExtError CsvFile :=
  of_sum (csv_append f (csv_from_utxo u)).

Fixpoint append_all (f : CsvFile) (utxos : list Utxo) : res ExtError CsvFile :=
  match utxos with
  | [] => Ok f
  | u :: utxos => f ← append_to_csv f u; append_all f utxos
  end.

Definition read_rocksdb_count {E} (db : Db) : res E Z :=
  match kv_get db COUNT_KEY with
  | inr (Some v) => if (length v =? 8)%nat then Ok (le_value v) else Panic
  | _ => Ok 0
  end.

(** The key of an output: the id and the index, most significant byte first. *)
Definition utxo_key (u : Utxo) : bytes := utxo_txid u ++ reverse (le_bytes 4 (utxo_vout u)).

Definition insert_batch_to_rocksdb (db : Db) (utxos : list Utxo) : res ExtError (Db * Z) :=
  match utxos with
  | [] => Ok (db, 0)
  | _ =>
      coin_count ← read_rocksdb_count db;
      let batch := map (fun u => (utxo_key u, bincode_serialize (utxo_coin u))) utxos in
      let batch_size := Z.of_nat (length utxos) in
      coin_count ← expect (checked_u64 (coin_count + batch_size));
      db ← of_sum (kv_write db (batch ++ [(COUNT_KEY, le_bytes 8 coin_count)]));
      Ok (db, batch_size)
  end.

Definition push_batch (s : SnapshotStore) (utxos : list Utxo) : res ExtError (SnapshotStore * Z) :=
  match s with
  | InMem l => Ok (InMem (l ++ utxos), Z.of_nat (length utxos))
  | Csv f => f ← append_all f utxos; Ok (Csv f, Z.of_nat (length utxos))
  | Rocksdb db => '(db, n) ← insert_batch_to_rocksdb db utxos; Ok (Rocksdb db, n)
  end.

Definition count {E} (s : SnapshotStore) : res E Z :=
  match s with
  | InMem l => Ok (Z.of_nat (length l))
  | Csv f => Ok (Z.of_nat (csv_count f))
  | Rocksdb db => read_rocksdb_count db
  end.

(** ** Writing the snapshot

    A file is the bytes written to it. *)

Fixpoint utxos_from_csv {E} (records : list (ExtError + UtxoCsvEntry)) : res E (list Utxo) :=
  match records with
  | [] => Ok []
  | inl _ :: records => utxos_from_csv records
  | inr e :: records =>
      u ← utxo_from_csv e;
      rest ← utxos_from_csv records;
      Ok (u :: rest)
  end.

Definition generate_from_csv {E} (magic : bytes) (f : CsvFile) (block_hash : bytes) (utxos_count : Z)
    : res E bytes :=
  utxos ← utxos_from_csv (csv_deserialize f);
  generate_snapshot magic block_hash utxos_count utxos.

(** One entry of the iterator, as the three decoded parts. *)
Definition decode_entry {E} (key value : bytes) : res E Utxo :=
  txid ← slice key 0 32;
  vout ← slice key 32 36;
  coin ← expect (bincode_deserialize value);
  Ok (mk_utxo txid (be_value vout) coin).

(** The loop over the iterator: the transaction in progress, its coins, and what
    has been written. *)
Fixpoint rocksdb_loop {E} (entries : list (bytes * bytes)) (last_txid : option bytes)
    (coins : list OutputEntry) (out : bytes) : res E bytes :=
  match entries with
  | [] =>
      match last_txid with
      | Some txid =>
          if bool_decide (coins = []) then Ok out
          else b ← write_coins txid coins; Ok (out ++ b)
      | None => Ok out
      end
  | (key, value) :: entries =>
      if bool_decide (key = COUNT_KEY) then rocksdb_loop entries last_txid coins out
      else
        u ← decode_entry key value;
        let txid := utxo_txid u in
        let entry := mk_entry (utxo_vout u) (utxo_coin u) in
        match last_txid with
        | Some x =>
            if bool_decide (x = txid) then rocksdb_loop entries (Some x) (coins ++ [entry]) out
            else
              b ← write_coins x coins;
              rocksdb_loop entries (Some txid) [entry] (out ++ b)
        | None => rocksdb_loop entries (Some txid) (coins ++ [entry]) out
        end
  end.

Definition generate_from_rocksdb {E} (magic : bytes) (db : Db) (block_hash : bytes) (utxos_count : Z)
    : res E bytes :=
  rocksdb_loop (kv_iter db) None []
    (serialize_metadata (new_metadata magic block_hash utxos_count)).

(** [SnapshotStore::generate_snapshot]; the list in memory is taken. *)
Definition store_snapshot {E} (magic : bytes) (s : SnapshotStore) (block_hash : bytes) (utxos_count : Z)
    : res E (bytes * SnapshotStore) :=
  match s with
  | InMem l => b ← generate_snapshot magic block_hash utxos_count l; Ok (b, InMem [])
  | Csv f => b ← generate_from_csv magic f block_hash utxos_count; Ok (b, s)
  | Rocksdb db => b ← generate_from_rocksdb magic db block_hash utxos_count; Ok (b, s)
  end.
End store.

(** ** The manager *)

(** The magic bytes of the Bitcoin network ([Network::Bitcoin.magic()]). *)
Definition BITCOIN_MAGIC : bytes := [0xf9; 0xbe; 0xb4; 0xd9].

(** The checksums of known snapshots, by the hash of their block. *)
Definition MAINNET_SNAPSHOT_SHA256SUMS : list (bytes * string) :=
  [ (reverse [0x00; 0x00; 0x00; 0x00; 0x00; 0x00; 0x00; 0x00; 0x00; 0x03; 0x20; 0x28; 0x3a; 0x03; 0x27;
              0x48; 0xce; 0xf8; 0x22; 0x78; 0x73; 0xff; 0x48; 0x72; 0x68; 0x9b; 0xf2; 0x3f; 0x1c; 0xda;
              0x83; 0xa5],
     "dc4bb43d58d6a25e91eae93eb052d72e3318bd98ec62a5d0c11817cefbba177b"%string) ].

Definition expected_sha256sum (block_hash : bytes) : option string :=
  snd <$> find (fun e => bool_decide (e.1 = block_hash)) MAINNET_SNAPSHOT_SHA256SUMS.

Section manager.
Context `{!ScriptApi, !CompressApi, !KvStore, !CoinCodec, !CsvApi, !HashApi}.

Record SnapshotManager := mk_manager {
  sm_store : SnapshotStore;
  (** What the snapshot file holds. *)
  snapshot_file : bytes;
  target_bitcoin_block_hash : bytes;
}.

(** [format!("{hash_result:x}")] of the digest of the file. *)
Definition calculate_sha256sum (file : bytes) : string :=
  fold_left (fun s b => s ++ hex_byte b)%string (sha256 file) EmptyString.

(** [SnapshotManager::new]: the database is opened as it is on disk, the CSV file
    is emptied. *)
Definition new_manager (target_hash : bytes) (db_on_disk : Db) (empty_csv : CsvFile) (use_rocksdb : bool)
    : SnapshotManager :=
  mk_manager (if use_rocksdb then Rocksdb db_on_disk else Csv empty_csv) [] target_hash.

Definition store_utxos_batch {E} (m : SnapshotManager) (utxos : list Utxo)
    : res E (SnapshotManager * Z) :=
  match push_batch (sm_store m) utxos with
  | Ok (s, n) => Ok (mk_manager s (snapshot_file m) (target_bitcoin_block_hash m), n)
  | _ => Panic
  end.

Definition create_snapshot {E} (m : SnapshotManager) (expected_utxos_count : Z)
    : res E SnapshotManager :=
  utxos_count ← count (sm_store m);
  _ ← rassert (utxos_count =? expected_utxos_count);
  '(b, s) ← store_snapshot BITCOIN_MAGIC (sm_store m) (target_bitcoin_block_hash m) utxos_count;
  let file := snapshot_file m ++ b in
  _ ← match expected_sha256sum (target_bitcoin_block_hash m) with
      | Some expected => rassert (bool_decide (calculate_sha256sum file = expected))
      | None => Ok tt
      end;
  Ok (mk_manager s file (target_bitcoin_block_hash m)).
End manager.

(** ** Sorting *)

Lemma insert_entry_comm a b l :
  oe_vout a <> oe_vout b -> insert_entry a (insert_entry b l) = insert_entry b (insert_entry a l).
Proof.
  intros Hab. induction l as [| x l IH]; cbn [insert_entry].
  - destruct (Z.leb_spec (oe_vout a) (oe_vout b)), (Z.leb_spec (oe_vout b) (oe_vout a)); try done; lia.
  - destruct (Z.leb_spec (oe_vout a) (oe_vout x)), (Z.leb_spec (oe_vout b) (oe_vout x));
      cbn [insert_entry];
      repeat match goal with |- context [?u <=? ?v] => destruct (Z.leb_spec u v) end;
      try lia; try done; by rewrite IH.
Qed.

(** Entries of distinct outputs are sorted into one list only. *)
Lemma sort_entries_unique l k :
  NoDup (map oe_vout l) -> l ≡ₚ k -> sort_entries l = sort_entries k.
Proof.
  intros Hnd Hp. unfold sort_entries.
  apply (foldr_permutation eq insert_entry []); [| done].
  intros i a j b c Hij Ha Hb. apply insert_entry_comm. intros Hv. apply Hij.
  eapply (NoDup_lookup (map oe_vout l) i j (oe_vout a)); [done | |].
  - change (map oe_vout l) with (oe_vout <$> l). by rewrite list_lookup_fmap, Ha.
  - change (map oe_vout l) with (oe_vout <$> l). by rewrite list_lookup_fmap, Hb, Hv.
Qed.

Lemma txid_lt_irrefl a : ~ txid_lt a a.
Proof. unfold txid_lt. by rewrite (proj2 (txid_compare_eq a a) eq_refl). Qed.

Lemma sorted_keys_nodup l : StronglySorted txid_lt l -> NoDup l.
Proof.
  induction 1 as [| k l Hs IH Hf]; constructor; [| done]. intros Hin.
  eapply Forall_forall in Hf; [| exact Hin]. by eapply txid_lt_irrefl.
Qed.

(** ** Groups *)

Abbreviation push_utxo := (fun m u => entry_push m (utxo_txid u) (entry_of u)).

Lemma groups_by_key {V} (m : list (bytes * list V)) :
  keys_sorted m -> m = map (fun k => (k, group_of m k)) (map fst m).
Proof.
  intros Hs. rewrite map_map. induction m as [| [k vs] m IH]; [done |].
  cbn [map fst] in Hs. apply StronglySorted_inv in Hs as [Hs Hf]. cbn [map fst group_of].
  rewrite bool_decide_eq_true_2 by done. f_equal. rewrite (IH Hs) at 1.
  apply map_ext_in. intros [k' vs'] Hin. cbn [fst]. f_equal.
  rewrite bool_decide_eq_false_2; [done |]. intros ->.
  eapply List.Forall_forall in Hf; [by eapply txid_lt_irrefl |]. by apply (in_map fst) in Hin.
Qed.

Lemma group_keys utxos m x :
  In x (map fst (fold_left push_utxo utxos m)) <-> In x (map utxo_txid utxos) \/ In x (map fst m).
Proof.
  revert m. induction utxos as [| u utxos IH]; intros m; cbn [fold_left map In]; [naive_solver |].
  rewrite IH, entry_push_keys. naive_solver.
Qed.

(** The transactions of a set of outputs do not depend on the order in which the
    outputs are given. *)
Lemma group_keys_perm us us' :
  us ≡ₚ us' -> map fst (group_utxos_by_txid us) = map fst (group_utxos_by_txid us').
Proof.
  intros Hp. apply (StronglySorted_unique_strong txid_lt).
  - intros x y _ _ Hxy Hyx. exfalso. eapply txid_lt_irrefl. by transitivity y.
  - apply (group_utxos_spec us []).
  - apply (group_utxos_spec us' []).
  - apply NoDup_Permutation.
    + apply sorted_keys_nodup, (group_utxos_spec us []).
    + apply sorted_keys_nodup, (group_utxos_spec us' []).
    + intros x. rewrite !list_elem_of_In. unfold group_utxos_by_txid.
      rewrite !group_keys. by rewrite Hp.
Qed.

Section snapshot_order.
Context `{!ScriptApi, !CompressApi}.

(** The outputs of a snapshot: ids of 32 bytes, indices of 32 bits, each output
    once. *)
Definition utxo_ok (u : Utxo) : Prop := length (utxo_txid u) = 32%nat /\ is_u32 (utxo_vout u).
Definition outpoint_of (u : Utxo) : bytes * Z := (utxo_txid u, utxo_vout u).

Lemma coins_of_nodup us txid :
  NoDup (map outpoint_of us) -> NoDup (map oe_vout (coins_of us txid)).
Proof.
  intros Hnd. unfold coins_of. rewrite map_map. cbn [oe_vout entry_of].
  induction us as [| u us IH]; [constructor |]. cbn [map] in Hnd. apply NoDup_cons in Hnd as [Hu Hnd].
  cbn [List.filter]. case_bool_decide as Ht; [| by apply IH]. cbn [map]. constructor; [| by apply IH].
  intros (v & Hv & Hin)%list_elem_of_In%in_map_iff. apply filter_In in Hin as [Hin Htv].
  apply bool_decide_eq_true in Htv. apply Hu, list_elem_of_In, in_map_iff. exists v. split; [| done].
  unfold outpoint_of. cbn in Hv. by rewrite Htv, Ht, Hv.
Qed.

Lemma coins_of_perm us us' txid : us ≡ₚ us' -> coins_of us txid ≡ₚ coins_of us' txid.
Proof.
  intros Hp. unfold coins_of. apply Permutation_map.
  induction Hp as [| u l k Hp IH | u v l | l k j Hlk IH1 Hkj IH2]; cbn [List.filter].
  - done.
  - destruct (bool_decide _); by rewrite ?IH.
  - destruct (bool_decide _), (bool_decide _); try done. apply Permutation_swap.
  - by rewrite IH1.
Qed.

Lemma write_groups_ext {E} (f g : bytes -> list OutputEntry) keys :
  (forall k, sort_entries (f k) = sort_entries (g k)) ->
  write_groups (E := E) (map (fun k => (k, f k)) keys) = write_groups (map (fun k => (k, g k)) keys).
Proof.
  intros Hfg. induction keys as [| k keys IH]; cbn [map write_groups]; [done |].
  rewrite IH. unfold write_coins. by rewrite Hfg.
Qed.

(** The snapshot is a function of the set of outputs. *)
Lemma write_groups_perm {E} us us' :
  us ≡ₚ us' -> NoDup (map outpoint_of us) ->
  write_groups (E := E) (group_utxos_by_txid us) = write_groups (group_utxos_by_txid us').
Proof.
  intros Hp Hnd.
  rewrite (groups_by_key (group_utxos_by_txid us)) by apply (group_utxos_spec us []).
  rewrite (groups_by_key (group_utxos_by_txid us')) by apply (group_utxos_spec us' []).
  rewrite (group_keys_perm us us' Hp). apply write_groups_ext. intros k.
  rewrite (proj2 (group_utxos_spec us k)), (proj2 (group_utxos_spec us' k)).
  apply sort_entries_unique; [by apply coins_of_nodup | by apply coins_of_perm].
Qed.

Lemma fold_push_above us x c m :
  Forall (fun u => txid_lt x (utxo_txid u)) us ->
  fold_left push_utxo us ((x, c) :: m) = (x, c) :: fold_left push_utxo us m.
Proof.
  intros Hus. revert m. induction Hus as [| u us Hu Hus IH]; intros m; cbn [fold_left]; [done |].
  unfold txid_lt in Hu. cbn [entry_push]. rewrite (txid_compare_antisym x), Hu.
  cbn [CompOpp]. apply IH.
Qed.
End snapshot_order.

(** ** The database *)

Section database.
Context `{!ScriptApi, !CompressApi, !KvStore, !CoinCodec, !CoinCodecLaws}.

Definition db_entry (u : Utxo) : bytes * bytes := (utxo_key u, bincode_serialize (utxo_coin u)).

Lemma utxo_key_length u : utxo_ok u -> length (utxo_key u) = 36%nat.
Proof. intros [Hl _]. unfold utxo_key. by rewrite length_app, Hl, length_reverse, le_bytes_length. Qed.

Lemma utxo_key_not_count u : utxo_ok u -> utxo_key u <> COUNT_KEY.
Proof. intros Hu%utxo_key_length Hk. by rewrite Hk in Hu. Qed.

Lemma decode_entry_key {E} u :
  utxo_ok u -> decode_entry (E := E) (utxo_key u) (bincode_serialize (utxo_coin u)) = Ok u.
Proof.
  intros Hu. pose proof (utxo_key_length u Hu) as Hlen. destruct Hu as [Hl Hv]. unfold decode_entry.
  rewrite !slice_le by lia. rbind. rewrite bincode_roundtrip. rcbn. rbind.
  unfold utxo_key. rewrite drop_0, take_app_length', drop_app_length' by lia.
  rewrite take_ge by (rewrite length_reverse, le_bytes_length; lia).
  unfold be_value. rewrite reverse_involutive, le_value_bytes.
  - by destruct u.
  - unfold is_u32, u32_max in Hv. cbn. lia.
Qed.

(** The order of the keys is the order of the ids, then of the indices. *)
Lemma utxo_key_le u v :
  utxo_ok u -> utxo_ok v -> txid_lt (utxo_key u) (utxo_key v) ->
  utxo_txid u = utxo_txid v \/ txid_lt (utxo_txid u) (utxo_txid v).
Proof.
  intros [Hu _] [Hv _]. unfold txid_lt, utxo_key. rewrite <- Hv in Hu. clear Hv.
  generalize (reverse (le_bytes 4 (utxo_vout u))), (reverse (le_bytes 4 (utxo_vout v))).
  intros x y. revert Hu. generalize (utxo_txid v). induction (utxo_txid u) as [| a s IH];
    intros [| b t] Hlen; cbn in Hlen; try lia; [by left |].
  cbn [app txid_compare]. destruct (Z.compare_spec a b) as [-> | |]; [| by right | done].
  intros Hc. destruct (IH t) as [-> | Hlt]; [lia | done | by left | by right].
Qed.

Lemma entries_above u us :
  utxo_ok u -> Forall utxo_ok us -> Forall (key_lt (db_entry u)) (map db_entry us) ->
  Forall (fun v => utxo_txid u = utxo_txid v \/ txid_lt (utxo_txid u) (utxo_txid v)) us.
Proof.
  intros Hu Hus Hf. rewrite List.Forall_forall in Hf. apply Forall_forall. intros v Hv.
  apply utxo_key_le; [done | by eapply Forall_forall |].
  apply (Hf (db_entry v)), in_map, list_elem_of_In, Hv.
Qed.

(** The loop over sorted entries writes the groups of [group_utxos_by_txid]. *)
Lemma rocksdb_loop_groups {E} us x coins out :
  Forall utxo_ok us -> StronglySorted key_lt (map db_entry us) -> coins <> [] ->
  Forall (fun u => x = utxo_txid u \/ txid_lt x (utxo_txid u)) us ->
  rocksdb_loop (E := E) (map db_entry us) (Some x) coins out =
  (b ← write_groups (fold_left push_utxo us [(x, coins)]); Ok (out ++ b)).
Proof.
  intros Hok. revert x coins out. induction Hok as [| u us Hu Hus IH];
    intros x coins out Hs Hc Hx; cbn [map rocksdb_loop db_entry fold_left].
  { rewrite bool_decide_eq_false_2 by done. cbn [write_groups].
    destruct (write_coins x coins); rbind; [| done ..]. by rewrite app_nil_r. }
  rewrite bool_decide_eq_false_2 by (by apply utxo_key_not_count).
  rewrite decode_entry_key by done. rbind. cbv zeta.
  cbn [map] in Hs. apply StronglySorted_inv in Hs as [Hs Hf].
  apply Forall_cons in Hx as [Hxu Hx].
  assert (Forall (fun v => utxo_txid u = utxo_txid v \/ txid_lt (utxo_txid u) (utxo_txid v)) us) as Hnext.
  { by apply entries_above. }
  fold (entry_of u). cbn [entry_push]. case_bool_decide as Hxt.
  - subst x. rewrite (proj2 (txid_compare_eq _ _) eq_refl). apply IH; try done. by destruct coins.
  - destruct Hxu as [| Hxu]; [done |].
    rewrite (txid_compare_antisym x), Hxu. cbn [CompOpp].
    rewrite fold_push_above.
    + cbn [write_groups]. destruct (write_coins x coins) as [b | e |]; rbind; [| done ..].
      rewrite IH by (done || by eauto).
      destruct (write_groups _); rbind; [| done ..]. by rewrite (assoc_L (++)).
    + eapply Forall_impl; [exact Hnext |]. cbn beta. intros v [<- | Hv]; [done | by etransitivity].
Qed.

Lemma rocksdb_loop_sorted {E} us out :
  Forall utxo_ok us -> StronglySorted key_lt (map db_entry us) ->
  rocksdb_loop (E := E) (map db_entry us) None [] out =
  (b ← write_groups (group_utxos_by_txid us); Ok (out ++ b)).
Proof.
  intros Hok Hs. destruct us as [| u us]; cbn [map rocksdb_loop db_entry].
  { cbn. by rewrite app_nil_r. }
  apply Forall_cons in Hok as [Hu Hok].
  rewrite bool_decide_eq_false_2 by (by apply utxo_key_not_count).
  rewrite decode_entry_key by done. rbind. cbv zeta. cbn [app].
  cbn [map] in Hs. apply StronglySorted_inv in Hs as [Hs Hf].
  by rewrite rocksdb_loop_groups by (done || by apply entries_above).
Qed.
End database.

(** ** What a store holds *)

Lemma put_all_app m a b : put_all m (a ++ b) = put_all (put_all m a) b.
Proof. unfold put_all. by rewrite fold_left_app. Qed.

Lemma delete_put_all k m l :
  Forall (fun e => e.1 <> k) l -> delete k (put_all m l) = put_all (delete k m) l.
Proof.
  intros Hl. revert m. induction Hl as [| [k' v] l Hk Hl IH]; intros m; [done |].
  unfold put_all in *. cbn [fold_left]. rewrite IH. by rewrite delete_insert_ne.
Qed.

Lemma put_all_list l : NoDup (map fst l) -> map_to_list (put_all ∅ l) ≡ₚ l.
Proof.
  intros Hnd.
  assert (forall m, Forall (fun k => m !! k = None) (map fst l) ->
    map_to_list (put_all m l) ≡ₚ l ++ map_to_list m) as Hgen.
  { induction l as [| [k v] l IH]; intros m Hm; [done |]. cbn [map fst] in *.
    apply NoDup_cons in Hnd as [Hk Hnd]. apply Forall_cons in Hm as [Hmk Hm].
    change (put_all m ((k, v) :: l)) with (put_all (<[k := v]> m) l). rewrite IH; [| done |].
    - rewrite map_to_list_insert by done. cbn [app]. by rewrite Permutation_middle.
    - rewrite Forall_forall in *. intros x Hx. rewrite lookup_insert_ne; [by apply Hm |]. by intros ->. }
  rewrite (Hgen ∅), map_to_list_empty, app_nil_r; [done |].
  apply Forall_forall. intros. apply lookup_empty.
Qed.

Lemma entries_without (k : bytes) (m : gmap bytes bytes) :
  filter (fun e : bytes * bytes => e.1 <> k) (map_to_list m) ≡ₚ map_to_list (delete k m).
Proof.
  apply NoDup_Permutation.
  - apply NoDup_filter, NoDup_map_to_list.
  - apply NoDup_map_to_list.
  - intros [k' v]. rewrite list_elem_of_filter, !elem_of_map_to_list, lookup_delete_Some. naive_solver.
Qed.

Lemma sorted_filter {A} (R : A -> A -> Prop) (P : A -> Prop) `{forall x, Decision (P x)} l :
  StronglySorted R l -> StronglySorted R (filter P l).
Proof.
  induction 1 as [| x l Hl IH Hx]; [constructor |]. rewrite filter_cons. case_decide; [| done].
  constructor; [done |]. rewrite Forall_forall in *. intros y [_ Hy]%list_elem_of_filter. by apply Hx.
Qed.

Section holds.
Context `{!ScriptApi, !CompressApi, !KvStore, !KvLaws, !CoinCodec, !CoinCodecLaws, !CsvApi, !CsvLaws}.

(** The bytes under the count key stand for [n]; without them the count is zero. *)
Definition count_is (o : option bytes) (n : Z) : Prop :=
  match o with
  | Some v => v = le_bytes 8 n /\ is_u64 n
  | None => n = 0
  end.

(** The outputs pushed into a store, in order and with repetitions. *)
Definition holds (s : SnapshotStore) (us : list Utxo) : Prop :=
  match s with
  | InMem l => l = us
  | Csv f => csv_deserialize f = map (fun u => inr (csv_from_utxo u)) us
  | Rocksdb db =>
      delete COUNT_KEY (kv_content db) = put_all ∅ (map db_entry us) /\
      count_is (kv_content db !! COUNT_KEY) (Z.of_nat (length us))
  end.

Lemma read_count {E} db n :
  count_is (kv_content db !! COUNT_KEY) n -> read_rocksdb_count (E := E) db = Ok n.
Proof.
  unfold read_rocksdb_count. rewrite kv_get_content. destruct (kv_content db !! COUNT_KEY) as [v |]; cbn [count_is].
  - intros [-> Hn]. rewrite le_bytes_length. cbn [Nat.eqb].
    unfold is_u64, u64_max in Hn. rewrite le_value_bytes; [done |]. cbn. lia.
  - by intros ->.
Qed.

Lemma holds_count {E} s us : holds s us -> count (E := E) s = Ok (Z.of_nat (length us)).
Proof.
  destruct s as [l | f | db]; cbn [holds count].
  - by intros ->.
  - intros Hf. by rewrite csv_count_records, Hf, length_map.
  - intros [_ Hn]. by apply read_count.
Qed.

Lemma append_all_holds f us b f' :
  holds (Csv f) us -> append_all f b = Ok f' -> holds (Csv f') (us ++ b).
Proof.
  revert f us. induction b as [| u b IH]; intros f us Hf; cbn [append_all].
  - intros [= <-]. by rewrite app_nil_r.
  - intros (f1 & Ha & Hr)%bind_Ok. apply of_sum_Ok, csv_append_records in Ha.
    replace (us ++ u :: b) with ((us ++ [u]) ++ b) by (by rewrite <- (assoc_L (++))).
    eapply IH; [| exact Hr]. cbn [holds] in *. by rewrite Ha, Hf, map_app.
Qed.

Lemma insert_batch_holds db us b db' n :
  Forall utxo_ok b -> holds (Rocksdb db) us -> insert_batch_to_rocksdb db b = Ok (db', n) ->
  holds (Rocksdb db') (us ++ b) /\ n = Z.of_nat (length b).
Proof.
  intros Hb [Hc Hn]. unfold insert_batch_to_rocksdb. destruct b as [| u b].
  { intros [= <- <-]. rewrite app_nil_r. by split. }
  rewrite (read_count db _ Hn). rbind. set (us' := u :: b) in *.
  intros (c & Hcu & (d & Hw & [= <- <-])%bind_Ok)%bind_Ok. split; [| done].
  apply expect_Ok in Hcu. unfold checked_u64, in_u64 in Hcu.
  destruct (_ && _) eqn:Hrange; [| done]. injection Hcu as <-. bools.
  apply of_sum_Ok, kv_write_content in Hw. cbn [holds].
  rewrite Hw, put_all_app. cbn [put_all fold_left].
  rewrite length_app, Nat2Z.inj_add, lookup_insert_eq. split.
  - rewrite delete_insert_eq, delete_put_all, Hc, map_app, put_all_app; [done |].
    apply Forall_map. eapply Forall_impl; [exact Hb |]. intros v Hv. by apply utxo_key_not_count.
  - split; [done |]. unfold is_u64. lia.
Qed.

Lemma push_batch_holds s us b s' n :
  Forall utxo_ok b -> holds s us -> push_batch s b = Ok (s', n) ->
  holds s' (us ++ b) /\ n = Z.of_nat (length b).
Proof.
  intros Hb Hs. destruct s as [l | f | db]; cbn [push_batch].
  - intros [= <- <-]. cbn [holds] in *. by rewrite Hs.
  - intros (f' & Hf & [= <- <-])%bind_Ok. split; [| done]. by eapply append_all_holds.
  - intros ([d m] & Hd & [= <- <-])%bind_Ok. by eapply insert_batch_holds.
Qed.

(** *** The file a store writes *)

Lemma utxos_from_csv_map {E} us :
  utxos_from_csv (E := E) (map (fun u => inr (csv_from_utxo u)) us) = Ok us.
Proof.
  induction us as [| u us IH]; cbn [map utxos_from_csv]; [done |].
  unfold utxo_from_csv. cbn [csv_from_utxo csv_script_pubkey]. rewrite hex_roundtrip. rcbn. rbind.
  rewrite IH. rbind. by destruct u as [? ? []].
Qed.

Lemma rocksdb_loop_skip {E} entries last coins out :
  rocksdb_loop (E := E) entries last coins out =
  rocksdb_loop (filter (fun e => e.1 <> COUNT_KEY) entries) last coins out.
Proof.
  revert last coins out. induction entries as [| [k v] entries IH]; intros last coins out; [done |].
  rewrite filter_cons. cbn [rocksdb_loop fst]. case_bool_decide as Hk.
  - rewrite decide_False by (by intros Hne). apply IH.
  - rewrite decide_True by done. cbn [rocksdb_loop]. rewrite bool_decide_eq_false_2 by done.
    destruct (decode_entry k v); rbind; [| done ..]. cbv zeta. destruct last; [| by apply IH].
    case_bool_decide; [by apply IH |]. destruct (write_coins _ _); rbind; [by apply IH | done ..].
Qed.

Lemma utxo_key_inj u v : utxo_ok u -> utxo_ok v -> utxo_key u = utxo_key v -> outpoint_of u = outpoint_of v.
Proof.
  intros [Hu Hu'] [Hv Hv'] Hk. unfold utxo_key in Hk. apply app_inj_1 in Hk as [Ht Hvo]; [| lia].
  apply (inj reverse) in Hvo. unfold outpoint_of. f_equal; [done |].
  unfold is_u32, u32_max in *.
  rewrite <- (le_value_bytes 4 (utxo_vout u)), <- (le_value_bytes 4 (utxo_vout v)) by (cbn; lia).
  by rewrite Hvo.
Qed.

Lemma nodup_keys us : Forall utxo_ok us -> NoDup (map outpoint_of us) -> NoDup (map utxo_key us).
Proof.
  intros Hok Hnd. induction Hok as [| u us Hu Hok IH]; cbn [map] in *; [constructor |].
  apply NoDup_cons in Hnd as [Hn Hnd]. constructor; [| by apply IH].
  intros (v & Hk & Hv)%list_elem_of_In%in_map_iff. apply Hn, list_elem_of_In, in_map_iff.
  exists v. split; [| done]. symmetry. apply utxo_key_inj; [done | | done].
  eapply Forall_forall; [exact Hok |]. by apply list_elem_of_In.
Qed.

(** The iterator, without the count, runs through the outputs in the order of
    their keys. *)
Lemma iter_entries db us :
  holds (Rocksdb db) us -> Forall utxo_ok us -> NoDup (map outpoint_of us) ->
  exists us', us ≡ₚ us' /\ filter (fun e => e.1 <> COUNT_KEY) (kv_iter db) = map db_entry us' /\
    StronglySorted key_lt (map db_entry us').
Proof.
  intros [Hc _] Hok Hnd. set (it := filter _ (kv_iter db)).
  assert (it ≡ₚ map db_entry us) as Hit.
  { rewrite <- (put_all_list (map db_entry us)), <- Hc.
    - unfold it. rewrite kv_iter_content. apply entries_without.
    - rewrite map_map. by apply nodup_keys. }
  destruct (Permutation_map_inv _ _ Hit) as (us' & Hus' & Hp). exists us'. split_and!; [done | done |].
  rewrite <- Hus'. apply sorted_filter, kv_iter_sorted.
Qed.

Lemma holds_snapshot {E} magic s hash n us :
  holds s us -> Forall utxo_ok us -> NoDup (map outpoint_of us) ->
  fst <$> store_snapshot (E := E) magic s hash n = generate_snapshot magic hash n us.
Proof.
  intros Hs Hok Hnd. destruct s as [l | f | db]; cbn [store_snapshot].
  - cbn [holds] in Hs. subst l. by destruct (generate_snapshot _ _ _ _).
  - cbn [holds] in Hs. unfold generate_from_csv. rewrite Hs, utxos_from_csv_map. rbind.
    by destruct (generate_snapshot _ _ _ _).
  - destruct (iter_entries db us Hs Hok Hnd) as (us' & Hp & Hit & Hsorted).
    unfold generate_from_rocksdb, generate_snapshot. rewrite rocksdb_loop_skip, Hit.
    rewrite rocksdb_loop_sorted by (done || by rewrite <- Hp).
    rewrite (write_groups_perm us us' Hp Hnd). by destruct (write_groups _).
Qed.

(** *** Histories *)

(** Responses stored one after the other. *)
Fixpoint push_all (s : SnapshotStore) (batches : list (list Utxo)) : res ExtError SnapshotStore :=
  match batches with
  | [] => Ok s
  | b :: batches => '(s, _) ← push_batch s b; push_all s batches
  end.

Definition empty_store (s : SnapshotStore) : Prop :=
  match s with
  | InMem l => l = []
  | Csv f => csv_deserialize f = []
  | Rocksdb db => kv_content db = ∅
  end.

Lemma empty_holds s : empty_store s -> holds s [].
Proof. destruct s; cbn [empty_store holds]; [done | done |]. intros ->. split; [| done]. apply delete_empty. Qed.

Lemma push_all_holds s us batches s' :
  Forall utxo_ok (concat batches) -> holds s us -> push_all s batches = Ok s' ->
  holds s' (us ++ concat batches).
Proof.
  revert s us. induction batches as [| b batches IH]; intros s us Hok Hs; cbn [push_all concat].
  - intros [= <-]. by rewrite app_nil_r.
  - cbn [concat] in Hok. apply Forall_app in Hok as [Hb Hok].
    intros ([s1 n] & Hp & Hr)%bind_Ok. destruct (push_batch_holds _ _ _ _ _ Hb Hs Hp) as [Hs1 _].
    rewrite (assoc_L (++)). by eapply IH.
Qed.

(** memory, CSV file and RocksDB are three implementations of one store:
    starting empty and given the same batches of distinct outputs, each counts
    them, and each writes byte for byte the reference snapshot of those outputs,
    whatever the batches and the order of the outputs in them. *)
Lemma stores_agree (magic hash : bytes) (n : Z) (batches : list (list Utxo)) (s s' : SnapshotStore) :
  empty_store s -> push_all s batches = Ok s' ->
  Forall utxo_ok (concat batches) -> NoDup (map outpoint_of (concat batches)) ->
  count (E := ExtError) s' = Ok (Z.of_nat (length (concat batches))) /\
  fst <$> store_snapshot (E := ExtError) magic s' hash n =
    generate_snapshot magic hash n (concat batches) /\
  forall us, us ≡ₚ concat batches ->
    generate_snapshot (E := ExtError) magic hash n us = generate_snapshot magic hash n (concat batches).
Proof.
  intros Hs Hpush Hok Hnd.
  pose proof (push_all_holds s [] batches s' Hok (empty_holds s Hs) Hpush) as Hh. cbn [app] in Hh.
  split_and!; [by apply holds_count | by apply holds_snapshot |].
  intros us Hp. unfold generate_snapshot. by rewrite (write_groups_perm (concat batches) us).
Qed.
End holds.

Section resumed.
Context `{!ScriptApi, !CompressApi, !KvStore, !KvLaws, !CoinCodec, !CoinCodecLaws, !CsvApi, !CsvLaws}.
Context `{!HashApi}.

(** a download that is started again in the directory of an interrupted one
    cannot be finished: the database keeps its count of coins, which every stored
    batch adds to even when it stores the same outputs again, so that the check
    before the snapshot is written panics. *)
Lemma resumed_snapshot_panics (hash : bytes) (db : Db) (csv : CsvFile) (before : list Utxo)
    (batches : list (list Utxo)) (s : SnapshotStore) :
  holds (Rocksdb db) before -> before <> [] -> Forall utxo_ok (concat batches) ->
  push_all (sm_store (new_manager hash db csv true)) batches = Ok s ->
  create_snapshot (E := ExtError) (mk_manager s [] hash) (Z.of_nat (length (concat batches))) = Panic.
Proof.
  intros Hdb Hne Hok Hpush. cbn [new_manager sm_store] in Hpush.
  pose proof (push_all_holds _ before batches s Hok Hdb Hpush) as Hs.
  unfold create_snapshot. cbn [sm_store]. rewrite (holds_count _ _ Hs). rbind.
  rewrite length_app. destruct (Z.eqb_spec (Z.of_nat (length before + length (concat batches)))
    (Z.of_nat (length (concat batches)))); [| done].
  destruct before; [done |]. cbn [length] in *. lia.
Qed.
End resumed.

(** ** Sample instances *)

Module SampleStore.
Fixpoint insert_key (e : bytes * bytes) (l : list (bytes * bytes)) : list (bytes * bytes) :=
  match l with
  | [] => [e]
  | x :: l' => match txid_compare e.1 x.1 with Gt => x :: insert_key e l' | _ => e :: l end
  end.

Lemma insert_key_perm e l : insert_key e l ≡ₚ e :: l.
Proof.
  induction l as [| x l IH]; cbn [insert_key]; [done |].
  destruct (txid_compare _ _); [done | done |]. rewrite IH. apply Permutation_swap.
Qed.

Lemma insert_key_sorted e l :
  e.1 ∉ map fst l -> StronglySorted key_lt l -> StronglySorted key_lt (insert_key e l).
Proof.
  induction l as [| x l IH]; intros He Hs; cbn [insert_key]; [by repeat constructor |].
  apply StronglySorted_inv in Hs as [Hs Hf]. cbn [map] in He. apply not_elem_of_cons in He as [Hex He].
  destruct (txid_compare e.1 x.1) eqn:Hc.
  - by apply txid_compare_eq in Hc.
  - constructor; [by constructor |]. constructor; [done |].
    eapply Forall_impl; [exact Hf |]. intros y Hy. unfold key_lt in *. by transitivity x.1.
  - constructor; [by apply IH |]. rewrite insert_key_perm. constructor; [| done].
    unfold key_lt, txid_lt. by rewrite txid_compare_antisym, Hc.
Qed.

Definition sort_keys (l : list (bytes * bytes)) : list (bytes * bytes) := foldr insert_key [] l.

Lemma sort_keys_perm l : sort_keys l ≡ₚ l.
Proof. unfold sort_keys. induction l as [| e l IH]; cbn [foldr]; [done |]. by rewrite insert_key_perm, IH. Qed.

Lemma sort_keys_sorted l : NoDup (map fst l) -> StronglySorted key_lt (sort_keys l).
Proof.
  induction l as [| e l IH]; cbn [map]; intros Hnd; [constructor |].
  apply NoDup_cons in Hnd as [He Hnd]. apply insert_key_sorted; [| by apply IH].
  intros Hin. apply He. change (map fst (sort_keys l)) with (fst <$> sort_keys l) in Hin.
  change (map fst l) with (fst <$> l). by rewrite sort_keys_perm in Hin.
Qed.

Definition kv_store : KvStore := {|
  Db := gmap bytes bytes;
  kv_content m := m;
  kv_get m k := inr (m !! k);
  kv_write m batch := inr (put_all m batch);
  kv_iter m := sort_keys (map_to_list m);
|}.
#[export] Existing Instance kv_store.

#[export] Instance kv_laws : KvLaws.
Proof.
  split; cbn.
  - done.
  - by intros db batch db' [= <-].
  - intros db. apply sort_keys_perm.
  - intros db. apply sort_keys_sorted. apply NoDup_fst_map_to_list.
Qed.

(** Text as the binary digits of an encoding. *)
Fixpoint pos_text (p : positive) : string :=
  match p with
  | xH => EmptyString
  | xO p => String "0"%char (pos_text p)
  | xI p => String "1"%char (pos_text p)
  end.
Fixpoint text_pos (s : string) : positive :=
  match s with
  | EmptyString => xH
  | String c s => if bool_decide (c = "0"%char) then xO (text_pos s) else xI (text_pos s)
  end.

Lemma text_pos_text p : text_pos (pos_text p) = p.
Proof. induction p as [p IH | p IH |]; cbn [pos_text text_pos]; [by rewrite IH .. | done]. Qed.

(** A coin as its fields. *)
Definition coin_codec : CoinCodec := {|
  bincode_serialize c := (if coin_is_coinbase c then 1 else 0) :: coin_amount c :: coin_height c ::
                         coin_script_pubkey c;
  bincode_deserialize b :=
    match b with
    | f :: a :: h :: s => Some (mk_coin (f =? 1) a h s)
    | _ => None
    end;
  hex_encode b := pos_text (encode b);
  hex_decode s := decode (text_pos s);
|}.
#[export] Existing Instance coin_codec.

#[export] Instance coin_codec_laws : CoinCodecLaws.
Proof.
  split.
  - by intros [[] ? ? ?].
  - intros b. cbn [hex_decode hex_encode coin_codec]. by rewrite text_pos_text, decode_encode.
Qed.

Definition csv_api : CsvApi := {|
  CsvFile := list UtxoCsvEntry;
  csv_append f e := inr (f ++ [e]);
  csv_count f := length f;
  csv_deserialize f := map inr f;
|}.
#[export] Existing Instance csv_api.

#[export] Instance csv_laws : CsvLaws.
Proof.
  split; cbn.
  - intros f e f' [= <-]. by rewrite map_app.
  - intros f. by rewrite length_map.
Qed.

Definition empty_db : Db := (∅ : gmap bytes bytes).
Definition empty_csv : CsvFile := ([] : list UtxoCsvEntry).

(** Three outputs of two transactions, in two responses. *)
Definition utxo_a : Utxo := mk_utxo (replicate 32 7) 300 (mk_coin true 5000000000 1 [0x51]).
Definition utxo_b : Utxo := mk_utxo (replicate 32 3) 0 (mk_coin false 20 8 []).
Definition utxo_c : Utxo := mk_utxo (replicate 32 7) 2 (mk_coin true 77 1 [0x52; 0x53]).
Definition responses : list (list Utxo) := [[utxo_a; utxo_b]; []; [utxo_c]].
End SampleStore.

Import SampleStore Sample.
#[local] Existing Instances sample_compress.


(** The three outputs in the database, and in the CSV file. *)
Definition in_db : SnapshotStore := from_ok (InMem []) (push_all (Rocksdb empty_db) responses).
Definition in_csv : SnapshotStore := from_ok (InMem []) (push_all (Csv empty_csv) responses).
Definition snapshot_bytes : bytes :=
  from_ok [] (generate_snapshot (E := ExtError) BITCOIN_MAGIC (replicate 32 9) 3 (concat responses)).

Lemma responses_ok : Forall utxo_ok (concat responses).
Proof. repeat constructor; vm_compute; congruence. Qed.
Lemma responses_nodup : NoDup (map outpoint_of (concat responses)).
Proof. apply (bool_decide_unpack _). vm_compute. exact I. Qed.

Lemma stores_agree_witness :
  fst <$> store_snapshot (E := ExtError) BITCOIN_MAGIC in_db (replicate 32 9) 3 = Ok snapshot_bytes /\
  fst <$> store_snapshot (E := ExtError) BITCOIN_MAGIC in_csv (replicate 32 9) 3 = Ok snapshot_bytes.
Proof.
  assert (generate_snapshot (E := ExtError) BITCOIN_MAGIC (replicate 32 9) 3 (concat responses) =
    Ok snapshot_bytes) as <- by (apply from_ok_eq; vm_compute; reflexivity).
  split.
  - refine (proj1 (proj2 (stores_agree BITCOIN_MAGIC (replicate 32 9) 3 responses (Rocksdb empty_db) in_db
      eq_refl _ responses_ok responses_nodup))).
    apply from_ok_eq. vm_compute. reflexivity.
  - refine (proj1 (proj2 (stores_agree BITCOIN_MAGIC (replicate 32 9) 3 responses (Csv empty_csv) in_csv
      eq_refl _ responses_ok responses_nodup))).
    apply from_ok_eq. vm_compute. reflexivity.
Defined.

(** The database of an earlier run with one of the outputs. *)
Definition db_before : Db := <[COUNT_KEY := le_bytes 8 1]> (put_all ∅ [db_entry utxo_a]).
Definition resumed : SnapshotStore :=
  from_ok (InMem []) (push_all (sm_store (new_manager (replicate 32 9) db_before empty_csv true)) responses).

Lemma resumed_snapshot_panics_witness :
  create_snapshot (E := ExtError) (mk_manager resumed [] (replicate 32 9)) 3 = Panic.
Proof.
  refine (resumed_snapshot_panics (replicate 32 9) db_before empty_csv [utxo_a] responses resumed
            _ _ responses_ok _).
  - split; [vm_compute; reflexivity |]. vm_compute. split; [reflexivity | split; congruence].
  - discriminate.
  - apply from_ok_eq. vm_compute. reflexivity.
Defined.
