(* ===== verification/TxOutSet.v ===== *)
(** * The UTXO set as a whole

    The serialisation of an output for the set hash ([tx_out_ser] of
    [crates/subcoin-utxo-snapshot/src/lib.rs]), the [gettxoutsetinfo] and [dumptxoutset]
    commands ([crates/subcoin-node/src/commands/blockchain.rs],
    [blockchain/get_txout_set_info.rs], [blockchain/dump_txout_set.rs]) and the collection of the state that
    snapcake downloads ([crates/subcoin-snapcake/src/state_sync_wrapper.rs]).  The
    theorems show that both see the same set, whatever the order in which it
    arrives. *)

From Stdlib Require Import ZArith Lia String.
From stdpp Require Import prelude gmap.
From S2P Require Import Prelude Opcode ScriptNum ScriptTypes Sample Bitcoin Runtime Compressor Snapshot MuHash SnapshotStore.

(** ** The libraries *)

(** rust-bitcoin's [consensus_encode] of the parts of an output, and the SCALE
    codec on the keys and values of the runtime's coins. *)
Class OutputCodec := {
  encode_outpoint : Bitcoin.OutPoint -> bytes;
  encode_u32 : Z -> bytes;
  encode_txout : TxOut -> bytes;
  scale_encode_key : Runtime.Txid * Z -> bytes;
  scale_decode_key : bytes -> option (Runtime.Txid * Z);
  scale_encode_coin : Coin -> bytes;
  scale_decode_coin : bytes -> option Coin;
}.
Class OutputCodecLaws `{OutputCodec} : Prop := {
  scale_key_roundtrip k : scale_decode_key (scale_encode_key k) = Some k;
  scale_coin_roundtrip c : scale_decode_coin (scale_encode_coin c) = Some c;
  scale_key_nonempty k : scale_encode_key k <> [];
}.

(** The Substrate client as the command uses it: the best block, the hashes of a
    block, the pairs of the state under the prefix of the coins, and the runtime's
    count of them. *)
Class StateClient := {
  info_best_number : Z;
  client_block_hash : Z -> option bytes;
  client_hash : Z -> ExtError + option bytes;
  storage_pairs : bytes -> ExtError + list (bytes * bytes);
  api_coins_count : bytes -> ExtError + Z;
}.

Inductive CliError :=
| BitcoinBlockHashMissing (number : Z)
| SubstrateBlockHashMissing (number : Z)
| HashNotFound (number : Z)
| ClientError (e : ExtError)
| RuntimeApiError (e : ExtError).

Definition FINAL_STORAGE_PREFIX_LEN : nat := 32.

Record TxOutSetInfo := mk_info {
  info_height : Z;
  info_bestblock : bytes;
  info_txouts : Z;
  info_bogosize : Z;
  info_muhash : string;
  info_total_amount : Z;
}.

Section txoutset.
Context `{!HashApi, !KeyStream, !OutputCodec}.

(** Writing into a vector does not fail. *)
Definition tx_out_ser (outpoint : Bitcoin.OutPoint) (coin : Coin) : bytes :=
  let height_and_coinbase := coin_code coin in
  let txout := mk_txout (coin_amount coin) (coin_script_pubkey coin) in
  encode_outpoint outpoint ++ encode_u32 height_and_coinbase ++ encode_txout txout.

(** ** [gettxoutsetinfo] *)

(** The closure that decodes a pair of the state. *)
Definition decode_pair {E} (kv : bytes * bytes) : res E Utxo :=
  k ← slice_from kv.1 FINAL_STORAGE_PREFIX_LEN;
  '(txid, vout) ← expect (scale_decode_key k);
  coin ← expect (scale_decode_coin kv.2);
  Ok (mk_utxo (Runtime.txid_into txid) vout coin).

Definition fetch_utxo_set_at `{!StateClient} (height : option Z)
    : res CliError (Z * bytes * list (bytes * bytes)) :=
  let block_number := default info_best_number height in
  bitcoin_block_hash ← ok_or (BitcoinBlockHashMissing block_number) (client_block_hash block_number);
  h ← map_err ClientError (of_sum (client_hash block_number));
  substrate_block_hash ← ok_or (SubstrateBlockHashMissing block_number) h;
  pairs ← map_err ClientError (of_sum (storage_pairs substrate_block_hash));
  Ok (block_number, bitcoin_block_hash, pairs).

(** The variables of the loop. *)
Record Totals := mk_totals {
  t_txouts : Z;
  t_bogosize : Z;
  t_total_amount : Z;
  t_script_pubkey_size : Z;
  t_muhash : MuHash3072;
}.

Definition count_utxo {E} (kv : bytes * bytes) (t : Totals) : res E Totals :=
  u ← decode_pair kv;
  let coin := utxo_coin u in
  let data := tx_out_ser (mk_outpoint (utxo_txid u) (utxo_vout u)) coin in
  let size := Z.of_nat (length (coin_script_pubkey coin)) in
  total_amount ← expect (checked_u64 (t_total_amount t + coin_amount coin));
  bogosize ← expect (checked_u64 (t_bogosize t + (50 + size)));
  script_pubkey_size ← expect (checked_u64 (t_script_pubkey_size t + size));
  Ok (mk_totals (wrap_u64 (t_txouts t + 1)) bogosize total_amount script_pubkey_size
        (insert data (t_muhash t))).

Fixpoint count_utxos {E} (pairs : list (bytes * bytes)) (t : Totals) : res E Totals :=
  match pairs with
  | [] => Ok t
  | kv :: pairs => t ← count_utxo kv t; count_utxos pairs t
  end.

Definition gettxoutsetinfo `{!StateClient} (height : option Z) : res CliError TxOutSetInfo :=
  '(block_number, bitcoin_block_hash, utxo_iter) ← fetch_utxo_set_at height;
  h ← map_err ClientError (of_sum (client_hash block_number));
  substrate_block_hash ← ok_or (HashNotFound block_number) h;
  _ ← map_err RuntimeApiError (of_sum (api_coins_count substrate_block_hash));
  t ← count_utxos utxo_iter (mk_totals 0 0 0 0 new);
  Ok (mk_info block_number bitcoin_block_hash (t_txouts t) (t_bogosize t)
        (txoutset_muhash (t_muhash t)) (t_total_amount t)).
End txoutset.

(** ** [dumptxoutset] *)

Section dump.
Context `{!OutputCodec, !StateClient}.

(** The decoded pairs, as the iterator is run. *)
Fixpoint decode_pairs {E : Type} (pairs : list (bytes * bytes)) : res E (list Utxo) :=
  match pairs with
  | [] => Ok []
  | kv :: pairs =>
      u ← decode_pair kv;
      us ← decode_pairs pairs;
      Ok (u :: us)
  end.

(** [--binary]: the set is read twice, the first time to count it. *)
Definition dump_binary `{!ScriptApi, !CompressApi} (height : option Z) : res CliError bytes :=
  '(_, bitcoin_block_hash, utxo_iter) ← fetch_utxo_set_at height;
  '(_, _, again) ← fetch_utxo_set_at height;
  counted ← decode_pairs again;
  utxos ← decode_pairs utxo_iter;
  generate_snapshot BITCOIN_MAGIC bitcoin_block_hash (wrap_u64 (Z.of_nat (length counted))) utxos.

(** [--csv] and standard output: a row for an output, transaction by transaction. *)
Definition dump_rows (height : option Z) : res CliError (list (Bitcoin.OutPoint * Coin)) :=
  '(_, _, utxo_iter) ← fetch_utxo_set_at height;
  utxos ← decode_pairs utxo_iter;
  Ok (flat_map (fun '(txid, coins) => map (fun e => (mk_outpoint txid (oe_vout e), oe_coin e)) coins)
        (group_utxos_by_txid utxos)).
End dump.

(** ** State downloaded by snapcake *)

Section state_sync.
Context `{!HashApi, !KeyStream, !OutputCodec}.
Context `{!ScriptApi, !CompressApi, !KvStore, !CoinCodec, !CsvApi}.

(** One part of a response: whether it completes the state, and its entries. *)
Record KeyValueStateEntry := mk_state_entry {
  se_complete : bool;
  se_entries : list (bytes * bytes);
}.

Record StateSyncWrapper := mk_wrapper {
  sw_muhash : MuHash3072;
  snapshot_manager : SnapshotManager;
  received_coins : Z;
  total_coins : Z;
}.

Fixpoint collect_utxos {E} (kvs : list (bytes * bytes)) (muhash : MuHash3072) (utxos_batch : list Utxo)
    : res E (MuHash3072 * list Utxo) :=
  match kvs with
  | [] => Ok (muhash, utxos_batch)
  | (key, value) :: kvs =>
      if (32 <? length key)%nat then
        match scale_decode_key (skipn 32 key) with
        | Some (txid, vout) =>
            let txid := Runtime.txid_into txid in
            coin ← expect (scale_decode_coin value);
            let data := tx_out_ser (mk_outpoint txid vout) coin in
            collect_utxos kvs (insert data muhash) (utxos_batch ++ [mk_utxo txid vout coin])
        | None => collect_utxos kvs muhash utxos_batch
        end
      else collect_utxos kvs muhash utxos_batch
  end.

(** [process_state_response]; the progress that is printed is left out. *)
Definition process_state_response {E} (w : StateSyncWrapper) (response : list KeyValueStateEntry)
    : res E StateSyncWrapper :=
  let complete := existsb se_complete response in
  '(muhash, utxos_batch) ← collect_utxos (flat_map se_entries response) (sw_muhash w) [];
  '(manager, received) ←
    (if bool_decide (utxos_batch = []) then Ok (snapshot_manager w, received_coins w)
     else
       '(m, batch_size) ← store_utxos_batch (snapshot_manager w) utxos_batch;
       received ← expect (checked_u64 (received_coins w + batch_size));
       Ok (m, received));
  manager ←
    (if complete then
       match create_snapshot (E := ExtError) manager (total_coins w) with
       | Ok m => Ok m
       | _ => Panic
       end
     else Ok manager);
  Ok (mk_wrapper muhash manager received (total_coins w)).

Fixpoint process_responses {E} (w : StateSyncWrapper) (responses : list (list KeyValueStateEntry))
    : res E StateSyncWrapper :=
  match responses with
  | [] => Ok w
  | r :: responses => w ← process_state_response w r; process_responses w responses
  end.
End state_sync.

(** ** The set as a value *)

Section set_info.
Context `{!HashApi, !KeyStream, !OutputCodec}.

(** An output as it enters the hash of the set. *)
Definition ser (u : Utxo) : bytes := tx_out_ser (mk_outpoint (utxo_txid u) (utxo_vout u)) (utxo_coin u).
Definition amount (u : Utxo) : Z := coin_amount (utxo_coin u).
Definition script_len (u : Utxo) : Z := Z.of_nat (length (coin_script_pubkey (utxo_coin u))).

(** The hash of a set of outputs. *)
Definition set_muhash (us : list Utxo) : MuHash3072 := mh_run (map (fun u => Insert (ser u)) us).

(** What is printed for a set of outputs. *)
Definition info_of (number : Z) (hash : bytes) (us : list Utxo) : TxOutSetInfo :=
  mk_info number hash (Z.of_nat (length us)) (zsum (map (fun u => 50 + script_len u) us))
    (txoutset_muhash (set_muhash us)) (zsum (map amount us)).

Lemma zsum_perm l k : l ≡ₚ k -> zsum l = zsum k.
Proof. unfold zsum. induction 1; cbn; lia. Qed.

Lemma inserted_map us : inserted (map (fun u => Insert (ser u)) us) = map ser us.
Proof. unfold inserted. induction us as [| u us IH]; cbn; [done |]. f_equal. exact IH. Qed.

Lemma removed_map us : removed (map (fun u => Insert (ser u)) us) = [].
Proof. unfold removed. induction us as [| u us IH]; cbn; [done |]. exact IH. Qed.

Lemma set_muhash_snoc us u : set_muhash (us ++ [u]) = insert (ser u) (set_muhash us).
Proof. unfold set_muhash, mh_run. by rewrite map_app, fold_left_app. Qed.

Lemma set_muhash_perm us us' :
  us ≡ₚ us' -> txoutset_muhash (set_muhash us) = txoutset_muhash (set_muhash us').
Proof.
  intros Hp. unfold txoutset_muhash, set_muhash. do 2 f_equal. rewrite !run_digest.
  rewrite !inserted_map, !removed_map. by rewrite (product_perm (map ser us) (map ser us')) by (by rewrite Hp).
Qed.

Lemma info_of_perm number hash us us' : us ≡ₚ us' -> info_of number hash us = info_of number hash us'.
Proof.
  intros Hp. unfold info_of. rewrite (set_muhash_perm us us' Hp), (Permutation_length Hp).
  rewrite (zsum_perm (map amount us) (map amount us')) by (by rewrite Hp).
  by rewrite (zsum_perm (map _ us) (map (fun u => 50 + script_len u) us')) by (by rewrite Hp).
Qed.
End set_info.

(** ** Pairs of the state *)

Section pairs.
Context `{!HashApi, !KeyStream, !OutputCodec, !OutputCodecLaws}.

(** The pair that the runtime stores for an output. *)
Definition pair_of (kv : bytes * bytes) (u : Utxo) : Prop :=
  exists prefix, length prefix = 32%nat /\
    kv = (prefix ++ scale_encode_key (Runtime.txid_from (utxo_txid u), utxo_vout u),
          scale_encode_coin (utxo_coin u)).

Lemma txid_into_from t : Runtime.txid_into (Runtime.txid_from t) = t.
Proof. unfold Runtime.txid_into, Runtime.txid_from. apply reverse_involutive. Qed.

Lemma decode_pair_of {E} kv u : pair_of kv u -> decode_pair (E := E) kv = Ok u.
Proof.
  intros (prefix & Hl & ->). unfold decode_pair, FINAL_STORAGE_PREFIX_LEN. cbn [fst snd].
  rewrite slice_from_le by (rewrite length_app; lia). rbind.
  rewrite drop_app_length' by done. rewrite scale_key_roundtrip. rcbn. rbind.
  rewrite scale_coin_roundtrip. rcbn. rbind. rewrite txid_into_from. by destruct u.
Qed.

Lemma script_sizes_nonneg us : 0 <= zsum (map script_len us) <= zsum (map (fun u => 50 + script_len u) us).
Proof. unfold script_len, zsum. induction us as [| u us IH]; cbn; lia. Qed.

Lemma checked_u64_ok {E} z : 0 <= z <= u64_max -> expect (E := E) (checked_u64 z) = Ok z.
Proof. intros Hz. unfold checked_u64, in_u64. by rewrite (proj2 (Z.leb_le 0 z)), (proj2 (Z.leb_le z u64_max)) by lia. Qed.

Definition totals_of (us : list Utxo) : Totals :=
  mk_totals (Z.of_nat (length us)) (zsum (map (fun u => 50 + script_len u) us))
    (zsum (map amount us)) (zsum (map script_len us)) (set_muhash us).

(** The sums of a set stay within their types. *)
Definition sums_ok (us : list Utxo) : Prop :=
  Forall (fun u => 0 <= amount u) us /\ zsum (map amount us) <= u64_max /\
  zsum (map (fun u => 50 + script_len u) us) <= u64_max.

Lemma bogosize_bound us :
  50 * Z.of_nat (length us) + zsum (map script_len us) = zsum (map (fun u => 50 + script_len u) us) /\
  0 <= zsum (map script_len us).
Proof. unfold script_len, zsum. induction us as [| u us IH]; cbn [map foldr length]; lia. Qed.

Lemma sums_ok_app us us' : sums_ok (us ++ us') -> sums_ok us.
Proof.
  intros (Ha & Hs & Hb). apply Forall_app in Ha as [Ha Ha']. rewrite !map_app, !zsum_app in *.
  pose proof (bogosize_bound us'). pose proof (zsum_nonneg (map amount us') (proj2 (Forall_map _ _ _) Ha')).
  split_and!; [done | lia | lia].
Qed.

Lemma totals_of_snoc {E} kv u us :
  pair_of kv u -> sums_ok (us ++ [u]) ->
  count_utxo (E := E) kv (totals_of us) = Ok (totals_of (us ++ [u])).
Proof.
  intros Hkv Hok. unfold count_utxo. rewrite (decode_pair_of kv u Hkv). rbind.
  pose proof (bogosize_bound us). pose proof (bogosize_bound [u]). pose proof (sums_ok_app _ _ Hok) as (Ha & _ & _).
  pose proof (zsum_nonneg (map amount us) (proj2 (Forall_map _ _ _) Ha)).
  destruct Hok as ([_ Hu]%Forall_app & Hs & Hb). rewrite Forall_singleton in Hu.
  unfold totals_of. rewrite set_muhash_snoc.
  cbn [t_total_amount t_bogosize t_script_pubkey_size t_txouts t_muhash].
  fold (amount u). fold (script_len u). fold (ser u).
  rewrite !map_app, !zsum_app in *. unfold zsum in *. cbn [map foldr length] in *.
  rewrite !checked_u64_ok by lia. rbind. rewrite length_app. unfold wrap_u64.
  rewrite Z.mod_small by (unfold u64_max in *; lia). cbn [length].
  f_equal. f_equal; lia.
Qed.

Lemma count_utxos_ok {E} pairs us before :
  Forall2 pair_of pairs us -> sums_ok (before ++ us) ->
  count_utxos (E := E) pairs (totals_of before) = Ok (totals_of (before ++ us)).
Proof.
  intros Hp. revert before. induction Hp as [| kv u pairs us Hkv Hp IH];
    intros before Hok; cbn [count_utxos].
  { by rewrite app_nil_r. }
  replace (before ++ u :: us) with ((before ++ [u]) ++ us) in * by (by rewrite <- (assoc_L (++))).
  rewrite (totals_of_snoc kv u) by (done || by eapply sums_ok_app). rbind. by apply IH.
Qed.

(** [gettxoutsetinfo] prints the UTXO set of the block: for a state that holds
    the outputs [us], with sums within 64 bits, it returns the number of outputs,
    their total value, their size and the MuHash of the set; all of them are
    functions of the set, so that the order in which the state is iterated does
    not matter. *)
Lemma gettxoutsetinfo_spec `{!StateClient} (height : option Z) (us us' : list Utxo)
    (block_hash substrate_hash : bytes) (pairs : list (bytes * bytes)) (n : Z) :
  let number := default info_best_number height in
  client_block_hash number = Some block_hash ->
  client_hash number = inr (Some substrate_hash) ->
  storage_pairs substrate_hash = inr pairs -> api_coins_count substrate_hash = inr n ->
  Forall2 pair_of pairs us -> sums_ok us -> us' ≡ₚ us ->
  gettxoutsetinfo height = Ok (info_of number block_hash us').
Proof.
  intros number Hbh Hh Hsp Hc Hp Hok Hperm. rewrite (info_of_perm _ _ us' us Hperm).
  unfold gettxoutsetinfo, fetch_utxo_set_at. fold number.
  rewrite Hbh. rcbn. rbind. rewrite !Hh. cbn [of_sum map_err]. rbind. cbn [ok_or]. rbind. rewrite Hsp.
  cbn [of_sum map_err]. rbind. rewrite Hh. cbn [of_sum map_err]. rbind. cbn [ok_or]. rbind.
  rewrite Hc. cbn [of_sum map_err]. rbind.
  rewrite (count_utxos_ok pairs us [] Hp Hok). by rbind.
Qed.
Lemma decode_pairs_of {E : Type} pairs us : Forall2 pair_of pairs us -> decode_pairs (E := E) pairs = Ok us.
Proof. induction 1 as [| kv u pairs us Hu _ IH]; cbn; [done |]. rewrite (decode_pair_of kv u Hu). rbind. by rewrite IH. Qed.

(** The rows of groups. *)
Definition rows_of (groups : list (bytes * list OutputEntry)) : list (Bitcoin.OutPoint * Coin) :=
  flat_map (fun '(txid, coins) => map (fun e => (mk_outpoint txid (oe_vout e), oe_coin e)) coins) groups.

Lemma rows_push groups txid e :
  rows_of (entry_push groups txid e) ≡ₚ rows_of groups ++ [(mk_outpoint txid (oe_vout e), oe_coin e)].
Proof.
  induction groups as [| [t l] groups IH]; cbn [entry_push]; [done |].
  destruct (txid_compare txid t) eqn:Hc.
  - apply txid_compare_eq in Hc as ->. cbn. rewrite map_app, <- (assoc_L (++)). cbn. rewrite <- (assoc_L (++)). apply Permutation_app_head.
    apply (Permutation_app_comm [_]).
  - cbn. apply (Permutation_app_comm [_]).
  - cbn. rewrite <- (assoc_L (++)). by apply Permutation_app_head.
Qed.

(** the binary dump is the snapshot of the set under the hash of the block, with the
    number of its outputs, and the rows of the text are the outputs of the set, each
    once; both whatever the order in which the state is read. *)
Lemma dump_spec `{!StateClient, !ScriptApi, !CompressApi} height number hash pairs us :
  fetch_utxo_set_at height = Ok (number, hash, pairs) -> Forall2 pair_of pairs us -> Z.of_nat (length us) <= u64_max ->
  dump_binary height = generate_snapshot BITCOIN_MAGIC hash (Z.of_nat (length us)) us /\
  exists rows, dump_rows height = Ok rows /\ rows ≡ₚ map (fun u => (mk_outpoint (utxo_txid u) (utxo_vout u), utxo_coin u)) us.
Proof.
  intros Hf Hp Hlen. unfold dump_binary, dump_rows. rewrite Hf. cbn [mbind res_bind]. rewrite (decode_pairs_of pairs us Hp). cbn [mbind res_bind].
  split; [unfold wrap_u64; by rewrite Z.mod_small by (unfold u64_max in Hlen; lia) |].
  eexists. split; [done |]. fold (rows_of (group_utxos_by_txid us)). unfold group_utxos_by_txid.
  assert (Hgen : forall m, rows_of (fold_left (fun m u => entry_push m (utxo_txid u) (mk_entry (utxo_vout u) (utxo_coin u))) us m) ≡ₚ
    rows_of m ++ map (fun u => (mk_outpoint (utxo_txid u) (utxo_vout u), utxo_coin u)) us).
  { clear. induction us as [| u us IH]; intros m; cbn; [by rewrite app_nil_r |]. rewrite IH, rows_push, <- (assoc_L (++)). done. }
  apply (Hgen []).
Qed.
End pairs.

(** ** A download from first to last response *)

Section download.
Context `{!HashApi, !KeyStream, !OutputCodec, !OutputCodecLaws}.
Context `{!ScriptApi, !CompressApi, !KvStore, !KvLaws, !CoinCodec, !CoinCodecLaws, !CsvApi, !CsvLaws}.

(** An entry of the state: an output, or a value that is not a coin. *)
Definition entry_for (kv : bytes * bytes) (o : option Utxo) : Prop :=
  match o with
  | Some u => pair_of kv u
  | None => (length kv.1 <= 32)%nat \/ scale_decode_key (drop 32 kv.1) = None
  end.

Lemma collect_utxos_ok {E} kvs os us batch :
  Forall2 entry_for kvs os ->
  collect_utxos (E := E) kvs (set_muhash us) batch =
  Ok (set_muhash (us ++ omap id os), batch ++ omap id os).
Proof.
  intros Hk. revert us batch. induction Hk as [| [key value] [u |] kvs os He Hk IH];
    intros us batch; cbn [collect_utxos omap list_omap id].
  - by rewrite !app_nil_r.
  - destruct He as (prefix & Hl & [= -> ->]).
    rewrite (proj2 (Nat.ltb_lt _ _)).
    + rewrite drop_app_length', scale_key_roundtrip by done. rewrite scale_coin_roundtrip. rcbn. rbind.
      rewrite txid_into_from. fold (ser u). rewrite <- set_muhash_snoc.
      destruct u as [t v c]. rewrite IH, <- !(assoc_L (++)). done.
    + rewrite length_app. pose proof (scale_key_nonempty (Runtime.txid_from (utxo_txid u), utxo_vout u)).
      destruct (scale_encode_key _); [done |]. cbn [length]. lia.
  - destruct (Nat.ltb_spec 32 (length key)); [| apply IH].
    destruct He as [He | He]; cbn [fst] in He; [lia |]. rewrite He. apply IH.
Qed.

(** Where a download stands after the outputs [us]. *)
Record wrapper_at (w : StateSyncWrapper) (us : list Utxo) : Prop := {
  wa_muhash : sw_muhash w = set_muhash us;
  wa_received : received_coins w = Z.of_nat (length us);
  wa_file : snapshot_file (snapshot_manager w) = [];
  wa_store : exists db, sm_store (snapshot_manager w) = Rocksdb db /\ holds (Rocksdb db) us;
}.

(** Writes reach the disk. *)
Context (Hwrite : forall (db : Db) (batch : list (bytes * bytes)), exists db', kv_write db batch = inr db').

Lemma insert_batch_total db us b :
  holds (Rocksdb db) us -> Z.of_nat (length (us ++ b)) <= u64_max ->
  exists db', insert_batch_to_rocksdb db b = Ok (db', Z.of_nat (length b)).
Proof.
  intros [_ Hn] Hlen. unfold insert_batch_to_rocksdb. destruct b as [| u b]; [by eexists |].
  rewrite (read_count db _ Hn). rbind. rewrite length_app, Nat2Z.inj_add in Hlen.
  rewrite checked_u64_ok by lia. rbind.
  match goal with |- context [kv_write db ?batch] => destruct (Hwrite db batch) as [db' ->] end.
  by eexists.
Qed.

Lemma process_part {E} w us r os :
  wrapper_at w us -> Forall2 entry_for (flat_map se_entries r) os -> Forall utxo_ok (omap id os) ->
  Z.of_nat (length (us ++ omap id os)) <= u64_max ->
  exists w', wrapper_at w' (us ++ omap id os) /\ total_coins w' = total_coins w /\
    target_bitcoin_block_hash (snapshot_manager w') = target_bitcoin_block_hash (snapshot_manager w) /\
    process_state_response (E := E) w r =
    (if existsb se_complete r
     then match create_snapshot (E := ExtError) (snapshot_manager w') (total_coins w) with
          | Ok m => Ok (mk_wrapper (sw_muhash w') m (received_coins w') (total_coins w))
          | _ => Panic
          end
     else Ok w').
Proof.
  intros [Hm Hr Hf (db & Hdb & Hh)] Hos Hok Hlen. unfold process_state_response.
  rewrite Hm, (collect_utxos_ok _ os us [] Hos). rbind. cbn [app].
  destruct (insert_batch_total db us (omap id os) Hh Hlen) as [db' Hi].
  destruct (insert_batch_holds db us _ db' _ Hok Hh Hi) as [Hh' _].
  pose (m' := mk_manager (Rocksdb db') [] (target_bitcoin_block_hash (snapshot_manager w))).
  exists (mk_wrapper (set_muhash (us ++ omap id os)) m' (Z.of_nat (length (us ++ omap id os))) (total_coins w)).
  split; [by split; [| | | exists db'] |]. split; [done |]. split; [done |]. cbn [snapshot_manager sw_muhash received_coins].
  case_bool_decide as Hnil.
  - rewrite Hnil in *. rewrite app_nil_r in *. injection Hi as <-. rbind.
    assert (snapshot_manager w = m') as -> by (destruct (snapshot_manager w); cbn in *; by subst).
    rewrite Hr. destruct (existsb se_complete r); [| done].
    by destruct (create_snapshot m' (total_coins w)).
  - unfold store_utxos_batch. rewrite Hdb. cbn [push_batch]. rewrite Hi. rbind. rewrite Hf. fold m'.
    rewrite Hr. rewrite checked_u64_ok by (rewrite length_app in Hlen; lia). rbind.
    rewrite length_app, Nat2Z.inj_add.
    destruct (existsb se_complete r); [| done]. by destruct (create_snapshot m' (total_coins w)).
Qed.

(** The outputs of a response, among its other entries. *)
Definition response_has (r : list KeyValueStateEntry) (us : list Utxo) : Prop :=
  exists os, Forall2 entry_for (flat_map se_entries r) os /\ omap id os = us.

Lemma process_parts {E} w us rs uss :
  wrapper_at w us -> Forall2 response_has rs uss -> Forall (fun r => existsb se_complete r = false) rs ->
  Forall utxo_ok (concat uss) -> Z.of_nat (length (us ++ concat uss)) <= u64_max ->
  exists w', process_responses (E := E) w rs = Ok w' /\ wrapper_at w' (us ++ concat uss) /\
    total_coins w' = total_coins w /\
    target_bitcoin_block_hash (snapshot_manager w') = target_bitcoin_block_hash (snapshot_manager w).
Proof.
  intros Hw Hrs. revert w us Hw. induction Hrs as [| r us1 rs uss (os & Hos & <-) Hrs IH];
    intros w us Hw Hc Hok Hlen; cbn [process_responses concat] in *.
  { exists w. by rewrite app_nil_r. }
  apply Forall_cons in Hc as [Hcr Hc]. apply Forall_app in Hok as [Hok1 Hok].
  rewrite (assoc_L (++)) in *.
  destruct (process_part (E := E) w us r os Hw Hos Hok1) as (w1 & Hw1 & Ht & Hh & ->).
  { rewrite length_app in Hlen. lia. }
  rewrite Hcr. rbind.
  destruct (IH w1 _ Hw1 Hc Hok Hlen) as (w' & -> & Hw' & Ht' & Hh').
  exists w'. by rewrite Ht', Hh'.
Qed.

Lemma process_responses_app {E} w rs rs' :
  process_responses (E := E) w (rs ++ rs') = (w ← process_responses w rs; process_responses w rs').
Proof.
  revert w. induction rs as [| r rs IH]; intros w; cbn [app process_responses]; [done |].
  destruct (process_state_response w r); rbind; [apply IH | done ..].
Qed.

(** C31: a complete download yields the snapshot of the set: started on an empty
    database, given the outputs [concat uss] in any number of responses, mixed
    with other entries of the state, the last one being marked complete and the
    announced total being right, snapcake writes the reference snapshot of these
    outputs and arrives at the MuHash that [gettxoutsetinfo] prints for the same
    set. *)
Theorem state_sync_spec (w : StateSyncWrapper) (rs : list (list KeyValueStateEntry))
    (r : list KeyValueStateEntry) (uss : list (list Utxo)) (hash b : bytes) (number : Z) (us : list Utxo) :
  wrapper_at w [] -> target_bitcoin_block_hash (snapshot_manager w) = hash ->
  Forall2 response_has (rs ++ [r]) uss ->
  Forall (fun r => existsb se_complete r = false) rs -> existsb se_complete r = true ->
  total_coins w = Z.of_nat (length (concat uss)) -> total_coins w <= u64_max ->
  Forall utxo_ok (concat uss) -> NoDup (map outpoint_of (concat uss)) ->
  expected_sha256sum hash = None ->
  generate_snapshot (E := ExtError) BITCOIN_MAGIC hash (total_coins w) (concat uss) = Ok b ->
  us ≡ₚ concat uss ->
  exists w', process_responses (E := ExtError) w (rs ++ [r]) = Ok w' /\
    snapshot_file (snapshot_manager w') = b /\ received_coins w' = total_coins w /\
    txoutset_muhash (sw_muhash w') = info_muhash (info_of number hash us).
Proof.
  intros Hw Hhash Hrs Hc Hcr Ht Hmax Hok Hnd Hsum Hgen Hperm.
  apply Forall2_app_inv_l in Hrs as (uss1 & uss2 & Hrs & Hr & ->).
  apply Forall2_cons_inv_l in Hr as (us2 & l & (os & Hos & <-) & Hl & ->).
  apply Forall2_nil_inv_l in Hl as ->. rewrite concat_app in *. cbn [concat] in *. rewrite app_nil_r in *.
  apply Forall_app in Hok as [Hok1 Hok2].
  destruct (process_parts (E := ExtError) w [] rs uss1 Hw Hrs Hc Hok1) as (w1 & Hp & Hw1 & Ht1 & Hh1).
  { cbn [app]. rewrite length_app in Ht. lia. }
  rewrite process_responses_app, Hp. rbind. cbn [process_responses app] in *.
  destruct (process_part (E := ExtError) w1 _ r os Hw1 Hos Hok2) as (w2 & Hw2 & Ht2 & Hh2 & ->); [lia |].
  rewrite Hcr, Ht1. destruct Hw2 as [Hm2 Hr2 Hf2 (db & Hdb & Hheld)].
  pose proof (holds_snapshot (E := ExtError) BITCOIN_MAGIC _ hash (total_coins w) _ Hheld
    (proj2 (Forall_app _ _ _) (conj Hok1 Hok2)) Hnd) as Hs. rewrite Hgen in Hs.
  destruct (store_snapshot _ _ _ _) as [[b' s'] | |] eqn:Hst; try discriminate Hs.
  cbn in Hs. injection Hs as ->.
  unfold create_snapshot. rewrite Hdb, (holds_count _ _ Hheld). rbind. rewrite <- Ht, Z.eqb_refl.
  cbn [rassert]. rbind. rewrite Hh2, Hh1, Hhash, Hst. rbind. rewrite Hsum. rbind.
  eexists. split; [done |]. cbn [snapshot_manager snapshot_file received_coins sw_muhash].
  rewrite Hf2, Hr2, Hm2, Ht. split_and!; [done | done |]. cbn [info_muhash info_of].
  by rewrite (set_muhash_perm us _ Hperm).
Qed.
End download.

(** ** Sample instances *)

Module SampleOutputs.
Definition output_codec : OutputCodec := {|
  encode_outpoint o := op_txid o ++ le_bytes 4 (op_vout o);
  encode_u32 := le_bytes 4;
  encode_txout o := le_bytes 8 (value o) ++ write_compact_size (Z.of_nat (length (script_pubkey o))) ++
                    script_pubkey o;
  scale_encode_key k := k.2 :: Runtime.h256 k.1;
  scale_decode_key b := match b with v :: t => Some (Runtime.mk_txid t, v) | [] => None end;
  scale_encode_coin := bincode_serialize (CoinCodec := SampleStore.coin_codec);
  scale_decode_coin := bincode_deserialize (CoinCodec := SampleStore.coin_codec);
|}.
#[export] Existing Instance output_codec.

#[export] Instance output_codec_laws : OutputCodecLaws.
Proof.
  split; cbn.
  - by intros [[] ?].
  - by intros [[] ? ? ?].
  - done.
Qed.
End SampleOutputs.
Import SampleOutputs SampleStore SampleMuHash Sample.
#[local] Existing Instances sample_compress.

Definition prefix : bytes := replicate 32 0xc0.
Definition stored (u : Utxo) : bytes * bytes :=
  (prefix ++ scale_encode_key (Runtime.txid_from (utxo_txid u), utxo_vout u),
   scale_encode_coin (utxo_coin u)).

Definition sample_client : StateClient := {|
  info_best_number := 8;
  client_block_hash n := if n =? 8 then Some [8] else None;
  client_hash n := inr (if n =? 8 then Some [88] else None);
  storage_pairs _ := inr [stored utxo_a; stored utxo_b];
  api_coins_count _ := inr 2;
|}.
#[local] Existing Instance sample_client.

Lemma stored_pair u : pair_of (stored u) u.
Proof. by exists prefix. Qed.

Lemma gettxoutsetinfo_spec_witness :
  gettxoutsetinfo None = Ok (info_of 8 [8] [utxo_b; utxo_a]) /\
  info_total_amount (info_of 8 [8] [utxo_b; utxo_a]) = 5000000020.
Proof.
  split; [| vm_compute; reflexivity].
  change (info_of 8) with (info_of (default info_best_number None)).
  apply (gettxoutsetinfo_spec None [utxo_a; utxo_b] [utxo_b; utxo_a] [8] [88]
           [stored utxo_a; stored utxo_b] 2); [reflexivity .. | | |].
  - constructor; [apply stored_pair |]. constructor; [apply stored_pair |]. constructor.
  - split; [repeat constructor; vm_compute; congruence | split; vm_compute; congruence].
  - apply Permutation_swap.
Defined.

(** A download in two responses; the runtime's other state is passed over. *)
Definition start : StateSyncWrapper :=
  mk_wrapper new (new_manager (replicate 32 9) empty_db empty_csv true) 0 2.
Definition part1 : list KeyValueStateEntry := [mk_state_entry false [([1; 2], [3]); stored utxo_a]].
Definition part2 : list KeyValueStateEntry := [mk_state_entry true [stored utxo_b]].
Definition downloaded : list Utxo := [utxo_a; utxo_b].
Definition file : bytes :=
  from_ok [] (generate_snapshot (E := ExtError) BITCOIN_MAGIC (replicate 32 9) 2 downloaded).

Lemma sample_write (db : Db) (batch : list (bytes * bytes)) : exists db', kv_write db batch = inr db'.
Proof. by eexists. Qed.

Lemma state_sync_spec_witness :
  exists w', process_responses (E := ExtError) start [part1; part2] = Ok w' /\
    snapshot_file (snapshot_manager w') = file /\ received_coins w' = 2 /\
    txoutset_muhash (sw_muhash w') = info_muhash (info_of 8 (replicate 32 9) [utxo_b; utxo_a]).
Proof.
  refine (state_sync_spec sample_write start [part1] part2 [[utxo_a]; [utxo_b]]
    (replicate 32 9) file 8 [utxo_b; utxo_a] _ eq_refl _ _ eq_refl eq_refl _ _ _ _ _ _).
  - split; [reflexivity .. |]. exists empty_db. split; [reflexivity |]. split; [vm_compute; reflexivity | reflexivity].
  - constructor; [| constructor; [| constructor]].
    + exists [None; Some utxo_a]. split; [| reflexivity].
      constructor; [left; vm_compute; lia |]. constructor; [apply stored_pair | constructor].
    + exists [Some utxo_b]. split; [| reflexivity]. constructor; [apply stored_pair | constructor].
  - constructor; [reflexivity | constructor].
  - vm_compute. congruence.
  - repeat constructor; vm_compute; congruence.
  - apply (bool_decide_unpack _). vm_compute. exact I.
  - vm_compute. reflexivity.
  - apply from_ok_eq. vm_compute. reflexivity.
  - apply Permutation_swap.
Defined.
