(* ===== verification/Collections.v ===== *)
(** * Collections, loops and doubles

    What several components share: the order in which hash collections are iterated,
    loops that may fail, and the operations on [f64]. *)

From Stdlib Require Import ZArith Floats.SpecFloat.
From stdpp Require Import prelude gmap.
From S2P Require Import Prelude.

(** The order in which a [HashSet], or the keys of a [HashMap], are iterated is
    not specified. *)
Class HashOrder := { hash_iter : forall {A} `{Countable A}, gset A -> list A }.
Class HashOrderLaws `{HashOrder} : Prop := {
  hash_iter_elements {A} `{Countable A} (X : gset A) : hash_iter X ≡ₚ elements X;
}.

Section hash_order.
Context `{!HashOrder, !HashOrderLaws} `{Countable A}.

Lemma hash_iter_elem (X : gset A) x : x ∈ hash_iter X <-> x ∈ X.
Proof. by rewrite hash_iter_elements, elem_of_elements. Qed.

Lemma hash_iter_nodup (X : gset A) : NoDup (hash_iter X).
Proof. rewrite hash_iter_elements. apply NoDup_elements. Qed.

Lemma hash_iter_length (X : gset A) : length (hash_iter X) = size X.
Proof. by rewrite hash_iter_elements. Qed.
End hash_order.

(** A loop that threads a value through a list, as a [for] loop does. *)
Fixpoint rfold {E A B} (f : A -> B -> res E B) (l : list A) (b : B) : res E B :=
  match l with
  | [] => Ok b
  | x :: l => b ← f x b; rfold f l b
  end.

Lemma rfold_inv {E A B} (P : B -> Prop) (f : A -> B -> res E B) l b b' :
  (forall x b b', P b -> f x b = Ok b' -> P b') -> P b -> rfold f l b = Ok b' -> P b'.
Proof.
  intros Hf. revert b. induction l as [| x l IH]; intros b Hb; cbn [rfold]; [naive_solver |].
  intros (b1 & Hb1 & Hr)%bind_Ok. eauto.
Qed.

Lemma rfold_error {E A B} (f : A -> B -> res E B) (Q : E -> Prop) l b e :
  (forall x b e, f x b = Err e -> Q e) -> rfold f l b = Err e -> Q e.
Proof.
  intros Hf. revert b. induction l as [| x l IH]; intros b; cbn [rfold]; [done |].
  destruct (f x b) eqn:Hx; cbn; [eauto | intros [= <-]; eauto | done].
Qed.

Lemma rfold_each {E A} (f : A -> unit -> res E unit) l x :
  rfold f l tt = Ok tt -> x ∈ l -> f x tt = Ok tt.
Proof.
  induction l as [| y l IH]; cbn [rfold]; [intros _ ?%elem_of_nil; done |].
  intros ([] & Hy & Hl)%bind_Ok [-> | Hx]%elem_of_cons; auto.
Qed.

(** A concrete order. *)
Module SampleOrder.
Definition hash_order : HashOrder := {| hash_iter A _ _ X := elements X |}.
#[export] Existing Instance hash_order.
#[export] Instance hash_order_laws : HashOrderLaws.
Proof. done. Qed.
End SampleOrder.

(** ** Double precision

    The operations on [f64] that the program uses, on the binary floating point
    numbers of the Standard Library: 53 bits of precision, exponents below 1024. *)

(** Conversion from an integer, the operations, and [>]. *)
Definition f64_of (z : Z) : spec_float := binary_normalize 53 1024 z 0 false.
Definition f64_add (x y : spec_float) : spec_float := SFadd 53 1024 x y.
Definition f64_mul (x y : spec_float) : spec_float := SFmul 53 1024 x y.
Definition f64_div (x y : spec_float) : spec_float := SFdiv 53 1024 x y.
Definition f64_gt (x y : spec_float) : bool := SFltb y x.

(** [f64::max] and [f64::min]: a value that is not a number is ignored. *)
Definition f64_max (x y : spec_float) : spec_float :=
  match x, y with
  | S754_nan, _ => y
  | _, S754_nan => x
  | _, _ => if SFltb x y then y else x
  end.
Definition f64_min (x y : spec_float) : spec_float :=
  match x, y with
  | S754_nan, _ => y
  | _, S754_nan => x
  | _, _ => if SFltb y x then y else x
  end.

(** [2f64.powi(n)], exact as long as the result is a normal number: a negative power
    is the inverse of the positive one, which may have become infinite. *)
Definition f64_pow2 (n : Z) : spec_float :=
  if (0 <=? n)%Z then f64_of (2 ^ n) else f64_div (f64_of 1) (f64_of (2 ^ (- n))).
