(* ===== verification/MempoolTypes.v ===== *)
(** * The data types of the memory pool

    [crates/subcoin-mempool/src/types.rs], [options.rs] and [error.rs], with the
    [PoolCoin] of [crates/subcoin-primitives/src/lib.rs].  Messages of errors are
    kept as the values they print. *)

From Stdlib Require Import ZArith Lia.
From stdpp Require Import prelude gmap.
From S2P Require Import Prelude Bitcoin Runtime TxSanity ScriptTypes.

(** ** Arithmetic on [i64] and [i32], [usize] and [u64]

    Operators panic when they leave the range of their type. *)
Definition i32_min : Z := -2147483648.
Definition i32_max : Z := 2147483647.

Definition add_i64 {E} (a b : Z) : res E Z := expect (checked_i64 (a + b)).
Definition sub_i64 {E} (a b : Z) : res E Z := expect (checked_i64 (a - b)).
Definition mul_i64 {E} (a b : Z) : res E Z := expect (checked_i64 (a * b)).
Definition neg_i64 {E} (a : Z) : res E Z := expect (checked_i64 (- a)).
(** Division truncates towards zero; by zero it panics. *)
Definition div_i64 {E} (a b : Z) : res E Z :=
  if b =? 0 then Panic else expect (checked_i64 (Z.quot a b)).
Definition add_u64 {E} (a b : Z) : res E Z := expect (checked_u64 (a + b)).
Definition sub_u64 {E} (a b : Z) : res E Z := expect (checked_u64 (a - b)).
Definition mul_u64 {E} (a b : Z) : res E Z := expect (checked_u64 (a * b)).

Lemma checked_u32_Some z : is_u32 z -> checked_u32 z = Some z.
Proof. unfold is_u32, checked_u32. intros [H0 H1]. by rewrite (proj2 (Z.leb_le _ _) H0), (proj2 (Z.leb_le _ _) H1). Qed.

Lemma checked_u64_Some z : is_u64 z -> checked_u64 z = Some z.
Proof. unfold is_u64, checked_u64, in_u64. intros [H0 H1]. by rewrite (proj2 (Z.leb_le _ _) H0), (proj2 (Z.leb_le _ _) H1). Qed.

Lemma checked_i64_Some z : is_i64 z -> checked_i64 z = Some z.
Proof. unfold is_i64, checked_i64, in_i64. intros [H0 H1]. by rewrite (proj2 (Z.leb_le _ _) H0), (proj2 (Z.leb_le _ _) H1). Qed.

Lemma checked_u64_inv z y : checked_u64 z = Some y -> y = z /\ is_u64 z.
Proof. unfold is_u64, checked_u64, in_u64. case_match; [| done]. intros [= <-]. bools. done. Qed.

Lemma checked_i64_inv z y : checked_i64 z = Some y -> y = z /\ is_i64 z.
Proof. unfold is_i64, checked_i64, in_i64. case_match; [| done]. intros [= <-]. bools. done. Qed.

(** The arithmetic of a successful computation. *)
Ltac inv_arith :=
  repeat match goal with
  | H : checked_u64 _ = Some _ |- _ => apply checked_u64_inv in H as [-> ?]
  | H : checked_i64 _ = Some _ |- _ => apply checked_i64_inv in H as [-> ?]
  | H : add_i64 _ _ = Ok _ |- _ => unfold add_i64 in H; inv_ok
  | H : sub_i64 _ _ = Ok _ |- _ => unfold sub_i64 in H; inv_ok
  | H : add_u64 _ _ = Ok _ |- _ => unfold add_u64 in H; inv_ok
  | H : sub_u64 _ _ = Ok _ |- _ => unfold sub_u64 in H; inv_ok
  end.

Lemma checked_i64_Ok {E} z : is_i64 z -> expect (E := E) (checked_i64 z) = Ok z.
Proof. intros Hz. by rewrite checked_i64_Some. Qed.

(** ** Transactions in the pool *)

(** What rust-bitcoin computes on a transaction for the pool, next to [TxApi]:
    the id with witnesses and the weight in weight units. *)
Class PoolTxApi := {
  compute_wtxid : Transaction -> bytes;
  weight : Transaction -> Z;
}.

(** The weight of a transaction is positive, and no transaction in memory has
    a weight that comes near the range of [u64]. *)
Class PoolTxLaws `{PoolTxApi} : Prop := {
  weight_bounds tx : 0 < weight tx < 2 ^ 62;
}.

(** [Weight::to_vbytes_ceil]: a virtual byte is four weight units. *)
Definition to_vbytes_ceil (wu : Z) : Z := (wu + 3) / 4.

(** Handles of entries ([slotmap::DefaultKey]), by their integer
    representation. *)
Abbreviation EntryId := Z (only parsing).

(** ** Fee rates *)

(** Satoshis per 1000 virtual bytes. *)
Record FeeRate := mk_feerate { as_sat_per_kvb : Z }.

#[export] Instance FeeRate_eq_dec : EqDecision FeeRate.
Proof. solve_decision. Defined.

Definition from_sat_per_vb {E} (sat_vb : Z) : res E FeeRate :=
  mk_feerate <$> expect (checked_u64 (sat_vb * 1000)).

Definition from_sat_per_kvb (sat_kvb : Z) : FeeRate := mk_feerate sat_kvb.

(** The two messages of [FeeRate::from_amount_and_vsize]. *)
Inductive FeeRateError :=
| VsizeNotPositive
| FeeRateOverflow.

Definition from_amount_and_vsize (fee vsize : Z) : res FeeRateError FeeRate :=
  reject_if (vsize <=? 0) VsizeNotPositive;;
  let vsize_u64 := wrap_u64 vsize in
  numerator ← ok_or FeeRateOverflow (checked_u64 (fee * 1000));
  Ok (mk_feerate (numerator / vsize_u64)).

Definition get_fee {E} (rate : FeeRate) (vsize : Z) : res E Z :=
  product ← expect (checked_u64 (as_sat_per_kvb rate * wrap_u64 vsize));
  Ok (product / 1000).

(** ** Validation data *)

Record LockPoints := mk_lock_points {
  lp_height : Z;
  lp_time : Z;
  lp_max_input_block : option bytes;
}.

(** [LockPoints::default]. *)
Definition lock_points_default : LockPoints := mk_lock_points 0 0 None.

Inductive RemovalReason :=
| RemovalBlock
| RemovalReorg
| RemovalConflict
| RemovalReplaced
| RemovalSizeLimit
| RemovalExpiry.

Record ConflictSet := mk_conflict_set {
  direct_conflicts : gset EntryId;
  all_conflicts : gset EntryId;
  removed_transactions : list Transaction;
  replaced_fees : Z;
  replaced_size : Z;
}.

(** A coin as the pool sees it: [PoolCoin] of [subcoin-primitives]. *)
Definition MEMPOOL_HEIGHT : Z := 0x7fffffff.

Record PoolCoin := mk_pool_coin {
  pc_output : TxOut;
  pc_height : Z;
  pc_is_coinbase : bool;
  pc_median_time_past : Z;
}.

#[export] Instance PoolCoin_eq_dec : EqDecision PoolCoin.
Proof. solve_decision. Defined.

(** [From<Coin>]: coins of the runtime carry no median time. *)
Definition pool_coin_from (c : Coin) : PoolCoin :=
  mk_pool_coin (mk_txout (coin_amount c) (coin_script_pubkey c)) (coin_height c)
    (coin_is_coinbase c) 0.

(** ** Errors *)

(** [policy.rs]: why a transaction is not standard. *)
Inductive StandardTxError :=
| StdVersion
| StdTxSizeTooLarge
| StdTxSizeTooSmall
| StdScriptsigSize
| StdDust
| StdMultiOpReturn
| StdNonStandardWitness
| StdBareMultisig
| StdScriptsigNotPushonly
| StdScriptPubkey.

(** The three messages of a replacement that pays too little. *)
Inductive InsufficientFeeMessage :=
| ReplacementFee (fee replaced : Z)
| OwnBandwidth (additional required : Z)
| ReplacedBandwidth (additional required : Z).

Inductive MempoolError :=
| AlreadyInMempool
| CoinbaseNotAllowed
| MissingInputs (parents : list bytes)
| FeeTooLow (min_kvb actual_kvb : Z)
| InvalidFeeRate (e : FeeRateError)
| TooManySigops (cost : Z)
| TooManyAncestors (count : Z)
| AncestorSizeTooLarge (size : Z)
| TooManyDescendants (count : Z)
| DescendantSizeTooLarge (size : Z)
| NotStandard (e : StandardTxError)
| TxVersionNotStandard
| PoolTxSizeTooSmall
| NonFinal
| NonBIP68Final
| NegativeFee
| FeeOverflow
| MempoolFull
| TxConflict
| ScriptValidationFailed (input_index : nat) (e : Error)
| NoConflictToReplace
| TxNotReplaceable
| TooManyReplacements (count : Z)
| NewUnconfirmedInput
| MissingConflict
| InsufficientFee (m : InsufficientFeeMessage)
| PackageTooLarge (count max : Z)
| PackageSizeTooLarge (vsize : Z)
| PackageCyclicDependencies
| PackageFeeTooLow (feerate min : FeeRate)
| PackageTxValidationFailed (txid : bytes) (e : MempoolError)
| PackageRelayDisabled
| PoolTxError (e : TxError)
| RuntimeApiError (code : Z).

(** ** Options *)

Definition DEFAULT_MAX_MEMPOOL_SIZE_MB : Z := 300.
Definition DEFAULT_MEMPOOL_EXPIRY_HOURS : Z := 336.
Definition MAX_OP_RETURN_RELAY : Z := 83.

Record MemPoolLimits := mk_limits {
  lim_max_ancestors : Z;
  lim_max_ancestor_size_vbytes : Z;
  lim_max_descendants : Z;
  lim_max_descendant_size_vbytes : Z;
}.

Definition limits_default : MemPoolLimits := mk_limits 25 101000 25 101000.

Record MemPoolOptions := mk_options {
  opt_max_size_bytes : Z;
  opt_expiry_seconds : Z;
  opt_min_relay_feerate : Z;
  opt_dust_relay_feerate : Z;
  opt_max_datacarrier_bytes : Z;
  opt_permit_bare_multisig : bool;
  opt_require_standard : bool;
  opt_max_script_cache_size : Z;
  opt_limits : MemPoolLimits;
  opt_enable_rbf : bool;
  opt_max_replacement_txs : Z;
  opt_enable_package_relay : bool;
  opt_max_package_count : Z;
  opt_max_package_vsize : Z;
}.

Definition options_default : MemPoolOptions := {|
  opt_max_size_bytes := DEFAULT_MAX_MEMPOOL_SIZE_MB * 1000000;
  opt_expiry_seconds := DEFAULT_MEMPOOL_EXPIRY_HOURS * 60 * 60;
  opt_min_relay_feerate := 1000;
  opt_dust_relay_feerate := 1000;
  opt_max_datacarrier_bytes := MAX_OP_RETURN_RELAY;
  opt_permit_bare_multisig := true;
  opt_require_standard := true;
  opt_max_script_cache_size := Z.shiftl 32 20;
  opt_limits := limits_default;
  opt_enable_rbf := true;
  opt_max_replacement_txs := 100;
  opt_enable_package_relay := true;
  opt_max_package_count := 25;
  opt_max_package_vsize := 101000;
|}.

Section options.
Implicit Types o : MemPoolOptions.

Definition max_size_bytes {E} o : res E Z := mul_u64 (opt_max_size_bytes o) 1000000.
Definition expiry_duration {E} o : res E Z := mul_u64 (opt_expiry_seconds o) 3600.
Definition max_ancestors o : Z := lim_max_ancestors (opt_limits o).
Definition max_ancestor_size o : Z := wrap_i64 (lim_max_ancestor_size_vbytes (opt_limits o)).
Definition max_descendants o : Z := lim_max_descendants (opt_limits o).
Definition max_descendant_size o : Z := wrap_i64 (lim_max_descendant_size_vbytes (opt_limits o)).
Definition min_relay_fee_rate o : FeeRate := from_sat_per_kvb (opt_min_relay_feerate o).
End options.

(** ** Fee rates and fees

    [get_fee] is the largest fee whose rate over the size does not exceed the
    rate: the two conversions are adjoint.  The bound is what the products of
    the code need to stay within [u64]. *)
Lemma get_fee_spec {E} rate vsize :
  0 <= as_sat_per_kvb rate -> 0 <= vsize <= u64_max -> as_sat_per_kvb rate * vsize <= u64_max ->
  get_fee (E := E) rate vsize = Ok (as_sat_per_kvb rate * vsize / 1000).
Proof.
  intros Hr Hv Hp. unfold get_fee, wrap_u64. rewrite Z.mod_small by (unfold u64_max in *; lia).
  unfold checked_u64, in_u64. replace ((0 <=? _) && _) with true; [done |].
  symmetry. apply andb_true_iff. split; apply Z.leb_le; nia.
Qed.

Lemma from_amount_and_vsize_spec fee vsize :
  0 <= fee -> fee * 1000 <= u64_max -> 0 < vsize <= i64_max ->
  from_amount_and_vsize fee vsize = Ok (mk_feerate (fee * 1000 / vsize)).
Proof.
  intros Hf Hp Hv. unfold from_amount_and_vsize. rewrite (proj2 (Z.leb_gt vsize 0)) by lia. rcbn.
  unfold wrap_u64. rewrite Z.mod_small by (unfold i64_max in *; lia).
  unfold checked_u64, in_u64. replace ((0 <=? _) && _) with true; [done |].
  symmetry. apply andb_true_iff. split; apply Z.leb_le; lia.
Qed.
