(* ===== verification/Arena.v ===== *)
(** * The arena of the memory pool

    [crates/subcoin-mempool/src/arena.rs]: entries under handles, with indices by
    id, witness id, ancestor score, descendant score and time.  An entry caches
    the keys under which the score indices hold it; the operations that change
    an entry take it out under the old key and put it back under the new one.
    [arena_wf] states that the indices are exactly what the entries say, and
    every operation keeps it. *)

From Stdlib Require Import ZArith Lia Sorted.
From stdpp Require Import prelude gmap sorting lexico.
From S2P Require Import Prelude Bitcoin MempoolTypes.

(** ** Ordered sets

    A [BTreeSet] is a set that is iterated in the order of its elements. *)
Section btree.
Context {A : Type} `{Countable A, !Lexico A, !StrictOrder (@lexico A _), !TrichotomyT (@lexico A _)}.

Definition lex_le (x y : A) : Prop := x = y \/ lexico x y.

#[global] Instance lex_le_dec : RelDecision lex_le.
Proof. intros x y. unfold lex_le. apply _. Defined.

#[global] Instance lex_le_total : Total lex_le.
Proof. intros x y. destruct (trichotomyT lexico x y) as [[?|?]|?]; unfold lex_le; naive_solver. Qed.

#[global] Instance lex_le_trans : Transitive lex_le.
Proof. intros x y z [->|Hxy] [->|Hyz]; unfold lex_le; auto. right. by trans y. Qed.

Definition btree_iter (X : gset A) : list A := merge_sort lex_le (elements X).

Lemma btree_iter_elem X x : x ∈ btree_iter X <-> x ∈ X.
Proof. unfold btree_iter. by rewrite merge_sort_Permutation, elem_of_elements. Qed.

Lemma btree_iter_sorted X : StronglySorted lex_le (btree_iter X).
Proof. apply StronglySorted_merge_sort; apply _. Qed.

Lemma btree_iter_nodup X : NoDup (btree_iter X).
Proof. unfold btree_iter. rewrite merge_sort_Permutation. apply NoDup_elements. Qed.

Lemma btree_iter_nil X : btree_iter X = [] <-> X = ∅.
Proof.
  split; [| by intros ->].
  intros Hn. apply set_eq. intros x. rewrite <- btree_iter_elem, Hn. set_solver.
Qed.

(** The first element is the least. *)
Lemma btree_iter_head X x l : btree_iter X = x :: l -> x ∈ X /\ forall y, y ∈ X -> lex_le x y.
Proof.
  intros Hx. pose proof (btree_iter_sorted X) as Hs. rewrite Hx in Hs.
  apply StronglySorted_inv in Hs as [_ Hall]. rewrite Forall_forall in Hall.
  split; [rewrite <- btree_iter_elem, Hx; left |].
  intros y Hy. rewrite <- btree_iter_elem, Hx in Hy. apply elem_of_cons in Hy as [->|Hy]; [by left |].
  by apply Hall.
Qed.
End btree.

(** ** Slot maps

    The [slotmap] crate: a map that chooses its keys.  [next_key] is the key it
    hands out next, given those it has handed out; the crate promises that it is
    a new one, so that the key of a removed value finds nothing. *)
Class SlotKeys := { next_key : gset EntryId -> EntryId }.
Class SlotKeysLaws `{SlotKeys} : Prop := { next_key_fresh X : next_key X ∉ X }.

Record SlotMap (V : Type) := mk_slots { slots : gmap EntryId V; issued : gset EntryId }.
Arguments mk_slots {V} _ _.
Arguments slots {V} _.
Arguments issued {V} _.

(** ** Entries *)

Record AncestorScoreKey := mk_anc_key {
  ak_neg_feerate_frac : Z * Z;
  ak_txid : bytes;
}.

Record DescendantScoreKey := mk_desc_key {
  dk_neg_feerate_frac : Z * Z;
  dk_time : Z;
}.

#[export] Instance AncestorScoreKey_eq_dec : EqDecision AncestorScoreKey.
Proof. solve_decision. Defined.
#[export] Instance DescendantScoreKey_eq_dec : EqDecision DescendantScoreKey.
Proof. solve_decision. Defined.

(** The derived order compares the fields in turn. *)
Definition anc_key_fields (k : AncestorScoreKey) : Z * Z * bytes := (ak_neg_feerate_frac k, ak_txid k).
Definition desc_key_fields (k : DescendantScoreKey) : Z * Z * Z := (dk_neg_feerate_frac k, dk_time k).

#[export] Instance anc_key_fields_inj : Inj (=) (=) anc_key_fields.
Proof. intros [] [] ?. unfold anc_key_fields in *. naive_solver. Qed.
#[export] Instance desc_key_fields_inj : Inj (=) (=) desc_key_fields.
Proof. intros [] [] ?. unfold desc_key_fields in *. naive_solver. Qed.

#[export] Instance AncestorScoreKey_countable : Countable AncestorScoreKey.
Proof. refine (inj_countable' anc_key_fields (fun '(f, t) => mk_anc_key f t) _). by intros []. Defined.
#[export] Instance DescendantScoreKey_countable : Countable DescendantScoreKey.
Proof. refine (inj_countable' desc_key_fields (fun '(f, t) => mk_desc_key f t) _). by intros []. Defined.

#[export] Instance AncestorScoreKey_lexico : Lexico AncestorScoreKey :=
  fun a b => lexico (anc_key_fields a) (anc_key_fields b).
#[export] Instance DescendantScoreKey_lexico : Lexico DescendantScoreKey :=
  fun a b => lexico (desc_key_fields a) (desc_key_fields b).

(** An order pulled back along an injection is an order. *)
Section pullback.
Context {A B : Type} `{!Lexico B, !StrictOrder (@lexico B _), !TrichotomyT (@lexico B _)}.
Context (f : A -> B) `{!Inj (=) (=) f}.

Lemma pullback_strict : StrictOrder (fun x y : A => lexico (f x) (f y)).
Proof.
  split.
  - intros x. apply (irreflexivity lexico (f x)).
  - intros x y z ??. by trans (f y).
Qed.

Definition pullback_trichotomy : TrichotomyT (fun x y : A => lexico (f x) (f y)).
Proof.
  intros x y. destruct (trichotomyT lexico (f x) (f y)) as [[Hl|He]|Hr].
  - left. by left.
  - left. right. by apply (inj f).
  - by right.
Defined.
End pullback.

#[export] Instance AncestorScoreKey_strict : StrictOrder (@lexico AncestorScoreKey _).
Proof. apply (pullback_strict anc_key_fields). Qed.
#[export] Instance AncestorScoreKey_trichotomy : TrichotomyT (@lexico AncestorScoreKey _) :=
  pullback_trichotomy anc_key_fields.
#[export] Instance DescendantScoreKey_strict : StrictOrder (@lexico DescendantScoreKey _).
Proof. apply (pullback_strict desc_key_fields). Qed.
#[export] Instance DescendantScoreKey_trichotomy : TrichotomyT (@lexico DescendantScoreKey _) :=
  pullback_trichotomy desc_key_fields.

Record TxMemPoolEntry := mk_entry {
  e_tx : Transaction;
  e_fee : Z;
  e_modified_fee : Z;
  e_tx_weight : Z;
  e_time : Z;
  e_entry_height : Z;
  e_entry_block_mtp : Z;
  e_entry_block_hash : bytes;
  e_entry_sequence : Z;
  e_spends_coinbase : bool;
  e_sigop_cost : Z;
  e_lock_points : LockPoints;
  e_count_with_ancestors : Z;
  e_size_with_ancestors : Z;
  e_fees_with_ancestors : Z;
  e_sigops_with_ancestors : Z;
  e_count_with_descendants : Z;
  e_size_with_descendants : Z;
  e_fees_with_descendants : Z;
  e_parents : gset EntryId;
  e_children : gset EntryId;
  e_cached_ancestor_key : AncestorScoreKey;
  e_cached_descendant_key : DescendantScoreKey;
  e_idx_randomized : option nat;
}.

Section entry.
Implicit Types e : TxMemPoolEntry.

Definition vsize e : Z := wrap_i64 (to_vbytes_ceil (e_tx_weight e)).

(** A fee in millionths of a satoshi over a size. *)
Definition feerate_of (fee size : Z) : res MempoolError Z :=
  num ← mul_i64 (wrap_i64 fee) 1000000;
  div_i64 num size.

Definition feerate e : res MempoolError Z := feerate_of (e_modified_fee e) (vsize e).
Definition ancestor_feerate e : res MempoolError Z :=
  feerate_of (e_fees_with_ancestors e) (e_size_with_ancestors e).
Definition descendant_feerate e : res MempoolError Z :=
  feerate_of (e_fees_with_descendants e) (e_size_with_descendants e).

Definition RBF_THRESHOLD : Z := 0xfffffffe.

Definition signals_rbf e : bool :=
  existsb (fun txin => sequence txin <? RBF_THRESHOLD) (tx_input (e_tx e)).

(** Assignments to groups of fields. *)
Definition set_cached_keys (ak : AncestorScoreKey) (dk : DescendantScoreKey) e : TxMemPoolEntry :=
  mk_entry (e_tx e) (e_fee e) (e_modified_fee e) (e_tx_weight e) (e_time e) (e_entry_height e)
    (e_entry_block_mtp e) (e_entry_block_hash e) (e_entry_sequence e) (e_spends_coinbase e)
    (e_sigop_cost e) (e_lock_points e) (e_count_with_ancestors e) (e_size_with_ancestors e)
    (e_fees_with_ancestors e) (e_sigops_with_ancestors e) (e_count_with_descendants e)
    (e_size_with_descendants e) (e_fees_with_descendants e) (e_parents e) (e_children e)
    ak dk (e_idx_randomized e).

Definition set_ancestor_state (count size fees sigops : Z) e : TxMemPoolEntry :=
  mk_entry (e_tx e) (e_fee e) (e_modified_fee e) (e_tx_weight e) (e_time e) (e_entry_height e)
    (e_entry_block_mtp e) (e_entry_block_hash e) (e_entry_sequence e) (e_spends_coinbase e)
    (e_sigop_cost e) (e_lock_points e) count size fees sigops (e_count_with_descendants e)
    (e_size_with_descendants e) (e_fees_with_descendants e) (e_parents e) (e_children e)
    (e_cached_ancestor_key e) (e_cached_descendant_key e) (e_idx_randomized e).

Definition set_descendant_state (count size fees : Z) e : TxMemPoolEntry :=
  mk_entry (e_tx e) (e_fee e) (e_modified_fee e) (e_tx_weight e) (e_time e) (e_entry_height e)
    (e_entry_block_mtp e) (e_entry_block_hash e) (e_entry_sequence e) (e_spends_coinbase e)
    (e_sigop_cost e) (e_lock_points e) (e_count_with_ancestors e) (e_size_with_ancestors e)
    (e_fees_with_ancestors e) (e_sigops_with_ancestors e) count size fees (e_parents e)
    (e_children e) (e_cached_ancestor_key e) (e_cached_descendant_key e) (e_idx_randomized e).

Definition set_fees (modified anc desc : Z) e : TxMemPoolEntry :=
  mk_entry (e_tx e) (e_fee e) modified (e_tx_weight e) (e_time e) (e_entry_height e)
    (e_entry_block_mtp e) (e_entry_block_hash e) (e_entry_sequence e) (e_spends_coinbase e)
    (e_sigop_cost e) (e_lock_points e) (e_count_with_ancestors e) (e_size_with_ancestors e)
    anc (e_sigops_with_ancestors e) (e_count_with_descendants e) (e_size_with_descendants e)
    desc (e_parents e) (e_children e) (e_cached_ancestor_key e) (e_cached_descendant_key e)
    (e_idx_randomized e).

Definition set_children (children : gset EntryId) e : TxMemPoolEntry :=
  mk_entry (e_tx e) (e_fee e) (e_modified_fee e) (e_tx_weight e) (e_time e) (e_entry_height e)
    (e_entry_block_mtp e) (e_entry_block_hash e) (e_entry_sequence e) (e_spends_coinbase e)
    (e_sigop_cost e) (e_lock_points e) (e_count_with_ancestors e) (e_size_with_ancestors e)
    (e_fees_with_ancestors e) (e_sigops_with_ancestors e) (e_count_with_descendants e)
    (e_size_with_descendants e) (e_fees_with_descendants e) (e_parents e) children
    (e_cached_ancestor_key e) (e_cached_descendant_key e) (e_idx_randomized e).
End entry.

(** ** The arena *)

Record MemPoolArena := mk_arena {
  entries : SlotMap TxMemPoolEntry;
  by_txid : gmap bytes EntryId;
  by_wtxid : gmap bytes EntryId;
  by_ancestor_score : gset (AncestorScoreKey * EntryId);
  by_descendant_score : gset (DescendantScoreKey * EntryId);
  by_entry_time : gset (Z * EntryId);
}.

Definition arena_new : MemPoolArena := mk_arena (mk_slots ∅ ∅) ∅ ∅ ∅ ∅ ∅.

Section arena.
Context `{!TxApi, !PoolTxApi, !SlotKeys}.
Implicit Types (a : MemPoolArena) (e : TxMemPoolEntry).

Definition compute_ancestor_key e : res MempoolError AncestorScoreKey :=
  entry_feerate ← feerate e;
  anc_feerate ← ancestor_feerate e;
  neg ← neg_i64 (entry_feerate `min` anc_feerate);
  Ok (mk_anc_key (neg, e_size_with_ancestors e) (compute_txid (e_tx e))).

Definition compute_descendant_key e : res MempoolError DescendantScoreKey :=
  entry_feerate ← feerate e;
  desc_feerate ← descendant_feerate e;
  neg ← neg_i64 (entry_feerate `max` desc_feerate);
  Ok (mk_desc_key (neg, e_size_with_descendants e) (e_time e)).

Definition arena_get a (id : EntryId) : option TxMemPoolEntry := slots (entries a) !! id.

Definition get_by_txid a (txid : bytes) : option EntryId := by_txid a !! txid.
Definition get_by_wtxid a (wtxid : bytes) : option EntryId := by_wtxid a !! wtxid.

Definition arena_len a : Z := Z.of_nat (size (slots (entries a))).
Definition arena_is_empty a : bool := bool_decide (slots (entries a) = ∅).

(** A new value for the entry under a handle that is in use. *)
Definition store (id : EntryId) e a : MemPoolArena :=
  mk_arena (mk_slots (<[id := e]> (slots (entries a))) (issued (entries a))) (by_txid a) (by_wtxid a)
    (by_ancestor_score a) (by_descendant_score a) (by_entry_time a).

Definition with_ancestor_score (s : gset (AncestorScoreKey * EntryId)) a : MemPoolArena :=
  mk_arena (entries a) (by_txid a) (by_wtxid a) s (by_descendant_score a) (by_entry_time a).
Definition with_descendant_score (s : gset (DescendantScoreKey * EntryId)) a : MemPoolArena :=
  mk_arena (entries a) (by_txid a) (by_wtxid a) (by_ancestor_score a) s (by_entry_time a).

Definition insert (entry : TxMemPoolEntry) a : res MempoolError (MemPoolArena * EntryId) :=
  anc_key ← compute_ancestor_key entry;
  desc_key ← compute_descendant_key entry;
  let entry := set_cached_keys anc_key desc_key entry in
  let id := next_key (issued (entries a)) in
  Ok (mk_arena
        (mk_slots (<[id := entry]> (slots (entries a))) ({[ id ]} ∪ issued (entries a)))
        (<[compute_txid (e_tx entry) := id]> (by_txid a))
        (<[compute_wtxid (e_tx entry) := id]> (by_wtxid a))
        ({[ (anc_key, id) ]} ∪ by_ancestor_score a)
        ({[ (desc_key, id) ]} ∪ by_descendant_score a)
        ({[ (e_time entry, id) ]} ∪ by_entry_time a), id).

(** [SignedAmount::from_sat(fees as i64) + delta], which must not be
    negative. *)
Definition add_signed (fees delta : Z) : res MempoolError Z :=
  sum ← add_i64 (wrap_i64 fees) delta;
  if sum <? 0 then Panic else Ok sum.

(** [(count as i64 + delta) as u64]. *)
Definition add_count (count delta : Z) : res MempoolError Z :=
  sum ← add_i64 (wrap_i64 count) delta;
  Ok (wrap_u64 sum).

(** Both score indices without the keys cached in the entry, and with fresh
    keys. *)
Definition unindex (id : EntryId) e a : MemPoolArena :=
  let a := with_ancestor_score (by_ancestor_score a ∖ {[ (e_cached_ancestor_key e, id) ]}) a in
  with_descendant_score (by_descendant_score a ∖ {[ (e_cached_descendant_key e, id) ]}) a.

Definition reindex (id : EntryId) e a : res MempoolError MemPoolArena :=
  new_anc_key ← compute_ancestor_key e;
  new_desc_key ← compute_descendant_key e;
  let a := store id (set_cached_keys new_anc_key new_desc_key e) a in
  let a := with_ancestor_score ({[ (new_anc_key, id) ]} ∪ by_ancestor_score a) a in
  Ok (with_descendant_score ({[ (new_desc_key, id) ]} ∪ by_descendant_score a) a).

Definition update_ancestor_state (id : EntryId) (size_delta fee_delta count_delta sigops_delta : Z)
    a : res MempoolError MemPoolArena :=
  entry ← expect (arena_get a id);
  let a := unindex id entry a in
  size ← add_i64 (e_size_with_ancestors entry) size_delta;
  fees ← add_signed (e_fees_with_ancestors entry) fee_delta;
  count ← add_count (e_count_with_ancestors entry) count_delta;
  sigops ← add_i64 (e_sigops_with_ancestors entry) sigops_delta;
  reindex id (set_ancestor_state count size fees sigops entry) a.

Definition update_descendant_state (id : EntryId) (size_delta fee_delta count_delta : Z) a :
    res MempoolError MemPoolArena :=
  entry ← expect (arena_get a id);
  let a := with_descendant_score
             (by_descendant_score a ∖ {[ (e_cached_descendant_key entry, id) ]}) a in
  size ← add_i64 (e_size_with_descendants entry) size_delta;
  fees ← add_signed (e_fees_with_descendants entry) fee_delta;
  count ← add_count (e_count_with_descendants entry) count_delta;
  let entry := set_descendant_state count size fees entry in
  new_desc_key ← compute_descendant_key entry;
  let a := store id (set_cached_keys (e_cached_ancestor_key entry) new_desc_key entry) a in
  Ok (with_descendant_score ({[ (new_desc_key, id) ]} ∪ by_descendant_score a) a).

Definition update_modified_fee (id : EntryId) (new_modified_fee : Z) a : res MempoolError MemPoolArena :=
  entry ← expect (arena_get a id);
  let a := unindex id entry a in
  delta ← sub_i64 (wrap_i64 new_modified_fee) (wrap_i64 (e_modified_fee entry));
  let fee_delta := wrap_u64 delta in
  anc ← add_i64 (wrap_i64 (e_fees_with_ancestors entry)) (wrap_i64 fee_delta);
  desc ← add_i64 (wrap_i64 (e_fees_with_descendants entry)) (wrap_i64 fee_delta);
  reindex id (set_fees new_modified_fee (wrap_u64 anc) (wrap_u64 desc) entry) a.

(** [get_mut(id)] followed by [children.insert(child)], the only use the code
    makes of a mutable entry; [None] leaves the arena as it is. *)
Definition insert_child (id child : EntryId) a : MemPoolArena :=
  match arena_get a id with
  | Some e => store id (set_children ({[ child ]} ∪ e_children e) e) a
  | None => a
  end.

Definition remove (id : EntryId) a : MemPoolArena * option TxMemPoolEntry :=
  match arena_get a id with
  | None => (a, None)
  | Some e =>
      (mk_arena
         (mk_slots (delete id (slots (entries a))) (issued (entries a)))
         (delete (compute_txid (e_tx e)) (by_txid a))
         (delete (compute_wtxid (e_tx e)) (by_wtxid a))
         (by_ancestor_score a ∖ {[ (e_cached_ancestor_key e, id) ]})
         (by_descendant_score a ∖ {[ (e_cached_descendant_key e, id) ]})
         (by_entry_time a ∖ {[ (e_time e, id) ]}), Some e)
  end.

(** The iterators are lazy: each item is looked up when it is reached. *)
Definition iter_item {K} a (p : K * EntryId) : res MempoolError (EntryId * TxMemPoolEntry) :=
  e ← expect (arena_get a (p.2)); Ok (p.2, e).

Definition iter_by_ancestor_score a : list (res MempoolError (EntryId * TxMemPoolEntry)) :=
  map (iter_item a) (btree_iter (by_ancestor_score a)).
Definition iter_by_descendant_score a : list (res MempoolError (EntryId * TxMemPoolEntry)) :=
  map (iter_item a) (btree_iter (by_descendant_score a)).
Definition iter_by_entry_time a : list (res MempoolError (EntryId * TxMemPoolEntry)) :=
  map (iter_item a) (btree_iter (by_entry_time a)).
End arena.

Arguments arena_get : simpl never.

(** ** The indices agree with the entries *)

Section arena_facts.
Context `{!TxApi, !PoolTxApi, !SlotKeys}.
Implicit Types (a : MemPoolArena) (e : TxMemPoolEntry).

(** The cached keys are those of the present state. *)
Definition keys_current e : Prop :=
  compute_ancestor_key e = Ok (e_cached_ancestor_key e) /\
  compute_descendant_key e = Ok (e_cached_descendant_key e).

Record arena_wf a : Prop := {
  wf_issued id : is_Some (arena_get a id) -> id ∈ issued (entries a);
  wf_txid txid id :
    by_txid a !! txid = Some id <-> exists e, arena_get a id = Some e /\ compute_txid (e_tx e) = txid;
  wf_wtxid wtxid id :
    by_wtxid a !! wtxid = Some id <->
    exists e, arena_get a id = Some e /\ compute_wtxid (e_tx e) = wtxid;
  wf_ancestor k id :
    (k, id) ∈ by_ancestor_score a <-> exists e, arena_get a id = Some e /\ e_cached_ancestor_key e = k;
  wf_descendant k id :
    (k, id) ∈ by_descendant_score a <->
    exists e, arena_get a id = Some e /\ e_cached_descendant_key e = k;
  wf_time t id : (t, id) ∈ by_entry_time a <-> exists e, arena_get a id = Some e /\ e_time e = t;
  wf_keys id e : arena_get a id = Some e -> keys_current e;
}.

Lemma arena_new_wf : arena_wf arena_new.
Proof.
  split; unfold arena_get, arena_new; cbn; intros; try setoid_rewrite lookup_empty;
    try rewrite lookup_empty in *; try (by destruct H); try (split; [set_solver | naive_solver]); done.
Qed.

(** An entry put back under its own handle, with the score indices moved from
    the old keys to the new ones. *)
Definition rekeyed (id : EntryId) e e' a : MemPoolArena :=
  mk_arena (mk_slots (<[id := e']> (slots (entries a))) (issued (entries a))) (by_txid a) (by_wtxid a)
    ({[ (e_cached_ancestor_key e', id) ]} ∪ by_ancestor_score a ∖ {[ (e_cached_ancestor_key e, id) ]})
    ({[ (e_cached_descendant_key e', id) ]} ∪
       by_descendant_score a ∖ {[ (e_cached_descendant_key e, id) ]})
    (by_entry_time a).

Lemma rekeyed_get id e e' a j :
  arena_get (rekeyed id e e' a) j = if decide (j = id) then Some e' else arena_get a j.
Proof. unfold arena_get, rekeyed. cbn. case_decide; subst; by simplify_map_eq. Qed.

Lemma rekeyed_wf id e e' a :
  arena_wf a -> arena_get a id = Some e -> e_tx e' = e_tx e -> e_time e' = e_time e ->
  keys_current e' -> arena_wf (rekeyed id e e' a).
Proof.
  intros [Hi Ht Hw Ha Hd Hm Hk] He Htx Htime Hkeys.
  split; intros *; rewrite ?rekeyed_get; cbn.
  - case_decide; subst; [| apply Hi]. intros _. apply Hi. by rewrite He.
  - rewrite Ht. case_decide; subst; [| done]. rewrite He. naive_solver congruence.
  - rewrite Hw. case_decide; subst; [| done]. rewrite He. naive_solver congruence.
  - rewrite elem_of_union, elem_of_difference, !elem_of_singleton, Ha.
    case_decide; subst; [| naive_solver]. rewrite He. naive_solver.
  - rewrite elem_of_union, elem_of_difference, !elem_of_singleton, Hd.
    case_decide; subst; [| naive_solver]. rewrite He. naive_solver.
  - rewrite Hm. case_decide; subst; [| done]. rewrite He. naive_solver congruence.
  - case_decide; subst; [| apply Hk]. naive_solver.
Qed.

Lemma set_cached_keys_current e ak dk :
  compute_ancestor_key e = Ok ak -> compute_descendant_key e = Ok dk ->
  keys_current (set_cached_keys ak dk e).
Proof. done. Qed.

(** The entry [e'] is [e] with other ancestor and descendant state, fees,
    children and cached keys. *)
Record same_tx e e' : Prop := {
  same_e_tx : e_tx e' = e_tx e;
  same_e_time : e_time e' = e_time e;
  same_e_fee : e_fee e' = e_fee e;
  same_e_weight : e_tx_weight e' = e_tx_weight e;
  same_e_sigops : e_sigop_cost e' = e_sigop_cost e;
  same_e_parents : e_parents e' = e_parents e;
}.

#[global] Instance same_tx_refl : Reflexive same_tx.
Proof. by split. Qed.
#[global] Instance same_tx_trans : Transitive same_tx.
Proof. intros x y z [] []. split; congruence. Qed.

Lemma reindex_rekeyed id e e' a a' :
  reindex id e' (unindex id e a) = Ok a' ->
  exists ak dk, a' = rekeyed id e (set_cached_keys ak dk e') a /\
    keys_current (set_cached_keys ak dk e').
Proof.
  unfold reindex. intros Hr. inv_ok. by eexists _, _.
Qed.

(** What an update of the ancestor state does, when it succeeds. *)
Lemma update_ancestor_state_spec id ds df dc dg a a' :
  update_ancestor_state id ds df dc dg a = Ok a' ->
  exists e count fees ak dk,
    let e' := set_cached_keys ak dk (set_ancestor_state count (e_size_with_ancestors e + ds) fees
                (e_sigops_with_ancestors e + dg) e) in
    arena_get a id = Some e /\ a' = rekeyed id e e' a /\ keys_current e' /\
    add_count (e_count_with_ancestors e) dc = Ok count /\
    add_signed (e_fees_with_ancestors e) df = Ok fees.
Proof.
  unfold update_ancestor_state. intros Hu. inv_ok.
  match goal with H : reindex _ _ _ = Ok _ |- _ => apply reindex_rekeyed in H as (ak & dk & -> & ?) end.
  unfold add_i64, checked_i64 in *. repeat case_match; inv_ok; simplify_eq.
  by eexists _, _, _, ak, dk.
Qed.

Lemma update_descendant_state_spec id ds df dc a a' :
  arena_wf a -> update_descendant_state id ds df dc a = Ok a' ->
  exists e count fees dk,
    let e' := set_cached_keys (e_cached_ancestor_key e) dk
                (set_descendant_state count (e_size_with_descendants e + ds) fees e) in
    arena_get a id = Some e /\ a' = rekeyed id e e' a /\ keys_current e' /\
    add_count (e_count_with_descendants e) dc = Ok count /\
    add_signed (e_fees_with_descendants e) df = Ok fees.
Proof.
  intros Hwf. unfold update_descendant_state. intros Hu. inv_ok.
  unfold add_i64, checked_i64 in *. repeat case_match; inv_ok; simplify_eq.
  eexists _, _, _, _. split; [eassumption |]. split; [| split; [| done]].
  - unfold rekeyed. cbn. unfold with_descendant_score, store. cbn. f_equal.
    match goal with |- by_ancestor_score a = {[ (?k, ?i) ]} ∪ _ =>
      assert ((k, i) ∈ by_ancestor_score a) by (apply (wf_ancestor a Hwf); eauto) end.
    rewrite <- union_difference_singleton_L; done.
  - split; [| done].
    match goal with H : arena_get a _ = Some _ |- _ => by destruct (wf_keys a Hwf _ _ H) end.
Qed.

Lemma update_modified_fee_spec id fee a a' :
  update_modified_fee id fee a = Ok a' ->
  exists e anc desc ak dk,
    let e' := set_cached_keys ak dk (set_fees fee (wrap_u64 anc) (wrap_u64 desc) e) in
    arena_get a id = Some e /\ a' = rekeyed id e e' a /\ keys_current e'.
Proof.
  unfold update_modified_fee. intros Hu. inv_ok.
  match goal with H : reindex _ _ _ = Ok _ |- _ => apply reindex_rekeyed in H as (ak & dk & -> & ?) end.
  by eexists _, _, _, ak, dk.
Qed.

Lemma insert_child_rekeyed id child a :
  arena_wf a ->
  insert_child id child a = a \/
  exists e, arena_get a id = Some e /\
    insert_child id child a = rekeyed id e (set_children ({[ child ]} ∪ e_children e) e) a.
Proof.
  intros Hwf. unfold insert_child. destruct (arena_get a id) as [e |] eqn:He; [| by left].
  right. exists e. split; [done |]. unfold store, rekeyed. cbn.
  f_equal; rewrite <- union_difference_singleton_L; try done.
  - apply (wf_ancestor a Hwf); eauto.
  - apply (wf_descendant a Hwf); eauto.
Qed.

(** The operations keep the invariant. *)
Lemma update_ancestor_state_wf id ds df dc dg a a' :
  arena_wf a -> update_ancestor_state id ds df dc dg a = Ok a' -> arena_wf a'.
Proof.
  intros ? (e & ? & ? & ? & ? & He & -> & ? & _)%update_ancestor_state_spec. by apply rekeyed_wf.
Qed.

Lemma update_descendant_state_wf id ds df dc a a' :
  arena_wf a -> update_descendant_state id ds df dc a = Ok a' -> arena_wf a'.
Proof.
  intros Hwf (e & ? & ? & ? & He & -> & ? & _)%update_descendant_state_spec; [| done].
  by apply rekeyed_wf.
Qed.

Lemma update_modified_fee_wf id fee a a' :
  arena_wf a -> update_modified_fee id fee a = Ok a' -> arena_wf a'.
Proof.
  intros ? (e & ? & ? & ? & ? & He & -> & ?)%update_modified_fee_spec. by apply rekeyed_wf.
Qed.

Lemma insert_child_wf id child a : arena_wf a -> arena_wf (insert_child id child a).
Proof.
  intros Hwf. destruct (insert_child_rekeyed id child a Hwf) as [-> | (e & He & ->)]; [done |].
  apply rekeyed_wf; try done. by destruct (wf_keys a Hwf _ _ He).
Qed.

Lemma remove_get id a j :
  arena_get (remove id a).1 j = if decide (j = id) then None else arena_get a j.
Proof.
  unfold remove. destruct (arena_get a id) as [e |] eqn:He; cbn.
  - unfold arena_get. cbn. case_decide; subst; by simplify_map_eq.
  - by case_decide; subst.
Qed.

Lemma remove_wf id a : arena_wf a -> arena_wf (remove id a).1.
Proof.
  intros Hwf. pose proof Hwf as [Hi Ht Hw Ha Hd Hm Hk].
  destruct (arena_get a id) as [e |] eqn:He; [| unfold remove; by rewrite He].
  pose proof (remove_get id a) as Hg.
  split; intros *; rewrite ?Hg; unfold remove; rewrite ?He; cbn.
  - case_decide; [by intros [] |]. apply Hi.
  - rewrite lookup_delete_Some, Ht. case_decide; [naive_solver |].
    split; [naive_solver |]. intros (e' & He' & <-). split; [| eauto].
    intros Heq. assert (by_txid a !! compute_txid (e_tx e) = Some id) by (apply Ht; eauto).
    assert (by_txid a !! compute_txid (e_tx e) = Some id0) by (apply Ht; eauto). congruence.
  - rewrite lookup_delete_Some, Hw. case_decide; [naive_solver |].
    split; [naive_solver |]. intros (e' & He' & <-). split; [| eauto].
    intros Heq. assert (by_wtxid a !! compute_wtxid (e_tx e) = Some id) by (apply Hw; eauto).
    assert (by_wtxid a !! compute_wtxid (e_tx e) = Some id0) by (apply Hw; eauto). congruence.
  - rewrite elem_of_difference, elem_of_singleton, Ha. case_decide; subst; naive_solver.
  - rewrite elem_of_difference, elem_of_singleton, Hd. case_decide; subst; naive_solver.
  - rewrite elem_of_difference, elem_of_singleton, Hm. case_decide; subst; naive_solver.
  - case_decide; [done |]. apply Hk.
Qed.

Lemma insert_get e a a' id :
  insert e a = Ok (a', id) ->
  id = next_key (issued (entries a)) /\ exists ak dk,
    (forall j, arena_get a' j = if decide (j = id) then Some (set_cached_keys ak dk e) else arena_get a j) /\
    keys_current (set_cached_keys ak dk e).
Proof.
  unfold insert. intros Hi. inv_ok. simplify_eq. split; [done |]. eexists _, _.
  split; [| by apply set_cached_keys_current].
  intros j. unfold arena_get. cbn. case_decide; subst; by simplify_map_eq.
Qed.

Lemma insert_ex {V} (m : gmap EntryId V) id v (Q : V -> Prop) j :
  m !! id = None ->
  (exists w, <[id := v]> m !! j = Some w /\ Q w) <-> j = id /\ Q v \/ exists w, m !! j = Some w /\ Q w.
Proof. intros Hn. setoid_rewrite lookup_insert_Some. naive_solver. Qed.

Lemma insert_index (m : gmap bytes EntryId) k id k' j :
  m !! k = None -> m !! k' <> Some id ->
  <[k := id]> m !! k' = Some j <-> j = id /\ k = k' \/ m !! k' = Some j.
Proof. intros Hn Hd. rewrite lookup_insert_Some. naive_solver. Qed.

Lemma insert_wf `{!SlotKeysLaws} e a a' id :
  arena_wf a -> get_by_txid a (compute_txid (e_tx e)) = None ->
  get_by_wtxid a (compute_wtxid (e_tx e)) = None -> insert e a = Ok (a', id) ->
  arena_wf a' /\ arena_get a id = None.
Proof.
  intros Hwf Hnt Hnw Hins. pose proof Hwf as [Hi Ht Hw Ha Hd Hm Hk].
  destruct (insert_get _ _ _ _ Hins) as [Hid _].
  assert (Hfresh : arena_get a id = None).
  { destruct (arena_get a id) eqn:Hg; [| done]. exfalso. apply (next_key_fresh (issued (entries a))).
    rewrite <- Hid. apply Hi. by rewrite Hg. }
  split; [| done]. unfold insert in Hins. inv_ok. simplify_eq. unfold arena_get in Hfresh.
  unfold get_by_txid, get_by_wtxid in *.
  set (id := next_key (issued (entries a))) in *.
  split; intros *; unfold arena_get in *; cbn.
  - rewrite elem_of_union, elem_of_singleton. intros [? Hl].
    apply lookup_insert_Some in Hl as [[<- _] | [? Hl]]; [by left | right; eauto].
  - rewrite insert_ex, <- Ht by done. cbn. apply insert_index; [done |].
    intros Hd0. apply Ht in Hd0. unfold id in *. naive_solver.
  - rewrite insert_ex, <- Hw by done. cbn. apply insert_index; [done |].
    intros Hd0. apply Hw in Hd0. unfold id in *. naive_solver.
  - rewrite insert_ex, <- Ha by done. set_solver.
  - rewrite insert_ex, <- Hd by done. set_solver.
  - rewrite insert_ex, <- Hm by done. set_solver.
  - rewrite lookup_insert_Some. intros [[<- <-] | [_ ?]]; [by apply set_cached_keys_current | by eapply Hk].
Qed.

(** *** Iteration

    Iterating over an index never panics, and visits every entry once in the
    order of the keys. *)
Lemma iter_items {K} a (key : TxMemPoolEntry -> K) (ps : list (K * EntryId)) :
  (forall k id, (k, id) ∈ ps -> exists e, arena_get a id = Some e /\ key e = k) ->
  exists l, map (iter_item a) ps = map Ok l /\ map (fun x => (key x.2, x.1)) l = ps /\
    Forall (fun x => arena_get a x.1 = Some x.2) l.
Proof.
  induction ps as [| [k id] ps IH]; intros Hps.
  - exists []. split; [done |]. split; [done |]. apply Forall_nil_2.
  - destruct IH as (l & Hl & Hk & Hall); [intros; apply Hps; by right |].
    destruct (Hps k id) as (e & He & <-); [by left |]. exists ((id, e) :: l).
    cbn [map fst snd]. unfold iter_item at 1. cbn [snd]. rewrite He, Hl, Hk.
    split; [done |]. split; [done |].
    by apply Forall_cons.
Qed.

Section iteration.
Context {K : Type} `{Countable K, !Lexico K, !StrictOrder (@lexico K _), !TrichotomyT (@lexico K _)}.

Lemma iter_index a (key : TxMemPoolEntry -> K) (X : gset (K * EntryId)) :
  (forall k id, (k, id) ∈ X <-> exists e, arena_get a id = Some e /\ key e = k) ->
  exists l, map (iter_item a) (btree_iter X) = map Ok l /\
    (forall id e, (id, e) ∈ l <-> arena_get a id = Some e) /\ NoDup l /\
    StronglySorted (fun x y => lex_le (key x.2, x.1) (key y.2, y.1)) l.
Proof.
  intros HX. destruct (iter_items a key (btree_iter X)) as (l & Hl & Hk & Hall).
  { intros k id Hin. apply HX. by apply btree_iter_elem. }
  rewrite Forall_forall in Hall. exists l. split; [done |]. split; [| split].
  - intros id e. split; [apply (Hall (id, e)) |]. intros He.
    assert (Hin : (key e, id) ∈ btree_iter X) by (apply btree_iter_elem, HX; eauto).
    rewrite <- Hk in Hin. apply list_elem_of_fmap in Hin as ([id' e'] & Heq & Hin).
    specialize (Hall _ Hin). cbn in Heq, Hall. injection Heq as _ <-.
    rewrite He in Hall. by injection Hall as ->.
  - pose proof (btree_iter_nodup X) as Hnd. rewrite <- Hk in Hnd. by eapply NoDup_fmap_1.
  - pose proof (btree_iter_sorted X) as Hs. rewrite <- Hk in Hs.
    clear -Hs. induction l as [| x l IH]; [constructor |].
    cbn in Hs. apply StronglySorted_inv in Hs as [Hs Hx]. constructor; [by apply IH |].
    rewrite Forall_map in Hx. exact Hx.
Qed.
End iteration.

(** The order in which transactions are mined: the lower of the own and the
    ancestor feerate; and the score by which they are evicted: the higher of the
    own and the descendant feerate. *)
Definition mining_score e : res MempoolError Z :=
  own ← feerate e; anc ← ancestor_feerate e; Ok (own `min` anc).
Definition eviction_score e : res MempoolError Z :=
  own ← feerate e; desc ← descendant_feerate e; Ok (own `max` desc).

Definition descending (score : TxMemPoolEntry -> res MempoolError Z) (x y : EntryId * TxMemPoolEntry) : Prop :=
  exists sx sy, score x.2 = Ok sx /\ score y.2 = Ok sy /\ sy <= sx.

Lemma neg_i64_Ok {E} z r : neg_i64 (E := E) z = Ok r -> r = - z.
Proof. unfold neg_i64, checked_i64. intros. case_match; inv_ok; by simplify_eq. Qed.

Lemma mining_score_key e :
  keys_current e -> mining_score e = Ok (- (ak_neg_feerate_frac (e_cached_ancestor_key e)).1).
Proof.
  intros [Hk _]. unfold compute_ancestor_key, mining_score in *. inv_ok.
  destruct (feerate e); inv_ok. destruct (ancestor_feerate e); inv_ok. rcbn. rewrite <- Hk. cbn.
  f_equal. match goal with H : neg_i64 _ = _ |- _ => apply neg_i64_Ok in H as -> end. simplify_eq. lia.
Qed.

Lemma eviction_score_key e :
  keys_current e -> eviction_score e = Ok (- (dk_neg_feerate_frac (e_cached_descendant_key e)).1).
Proof.
  intros [_ Hk]. unfold compute_descendant_key, eviction_score in *. inv_ok.
  destruct (feerate e); inv_ok. destruct (descendant_feerate e); inv_ok. rcbn. rewrite <- Hk. cbn.
  f_equal. match goal with H : neg_i64 _ = _ |- _ => apply neg_i64_Ok in H as -> end. simplify_eq. lia.
Qed.

(** A list of all entries with their handles. *)
Definition lists a (l : list (EntryId * TxMemPoolEntry)) : Prop :=
  NoDup l /\ forall id e, (id, e) ∈ l <-> arena_get a id = Some e.

Lemma StronglySorted_mono {A} (P : A -> Prop) (R S : A -> A -> Prop) (l : list A) :
  (forall x y, P x -> P y -> R x y -> S x y) -> Forall P l -> StronglySorted R l -> StronglySorted S l.
Proof.
  intros HRS Hall Hs. induction Hs as [| x l Hs IH Hx]; [constructor |].
  apply Forall_cons in Hall as [Hpx Hall]. constructor; [by apply IH |].
  rewrite Forall_forall in *. intros y Hy. by apply HRS; auto.
Qed.

Lemma lists_keys a l : arena_wf a -> lists a l -> Forall (fun x => keys_current x.2) l.
Proof.
  intros Hwf [_ Hl]. apply Forall_forall. intros [id e] Hin. apply Hl in Hin. by eapply wf_keys.
Qed.

Lemma iter_by_ancestor_score_spec a :
  arena_wf a ->
  exists l, iter_by_ancestor_score a = map Ok l /\ lists a l /\ StronglySorted (descending mining_score) l.
Proof.
  intros Hwf. destruct (iter_index a e_cached_ancestor_key (by_ancestor_score a)) as (l & Hl & Hin & Hnd & Hs);
    [apply (wf_ancestor a Hwf) |].
  exists l. split; [done |]. split; [done |].
  eapply StronglySorted_mono; [| by apply (lists_keys a) | exact Hs].
  intros x y Hx%mining_score_key Hy%mining_score_key Hle. eexists _, _. split; [done |]. split; [done |].
  destruct Hle as [Heq | [Hlt | [Heq _]]]; [injection Heq as -> _; lia | | cbn in Heq; rewrite Heq; lia].
  destruct Hlt as [[Hlt | [Heq _]] | [Heq _]]; unfold lexico, Z_lexico in *; cbn in *; rewrite ?Heq; lia.
Qed.

Lemma iter_by_descendant_score_spec a :
  arena_wf a ->
  exists l, iter_by_descendant_score a = map Ok l /\ lists a l /\
    StronglySorted (descending eviction_score) l.
Proof.
  intros Hwf.
  destruct (iter_index a e_cached_descendant_key (by_descendant_score a)) as (l & Hl & Hin & Hnd & Hs);
    [apply (wf_descendant a Hwf) |].
  exists l. split; [done |]. split; [done |].
  eapply StronglySorted_mono; [| by apply (lists_keys a) | exact Hs].
  intros x y Hx%eviction_score_key Hy%eviction_score_key Hle. eexists _, _. split; [done |]. split; [done |].
  destruct Hle as [Heq | [Hlt | [Heq _]]]; [injection Heq as -> _; lia | | cbn in Heq; rewrite Heq; lia].
  destruct Hlt as [[Hlt | [Heq _]] | [Heq _]]; unfold lexico, Z_lexico in *; cbn in *; rewrite ?Heq; lia.
Qed.

Lemma iter_by_entry_time_spec a :
  arena_wf a ->
  exists l, iter_by_entry_time a = map Ok l /\ lists a l /\
    StronglySorted (fun x y => e_time x.2 <= e_time y.2) l.
Proof.
  intros Hwf. destruct (iter_index a e_time (by_entry_time a)) as (l & Hl & Hin & Hnd & Hs);
    [apply (wf_time a Hwf) |].
  exists l. split; [done |]. split; [done |].
  eapply (StronglySorted_mono (fun _ => True)); [| by apply Forall_true | exact Hs].
  intros x y _ _ [Heq | [Hlt | [Heq _]]]; [by injection Heq as -> _ | | cbn in Heq; lia].
  unfold lexico, Z_lexico in Hlt. cbn in Hlt. lia.
Qed.

(** ** What the code does with an arena *)
Inductive arena_step a : MemPoolArena -> Prop :=
| step_insert e a' id :
    get_by_txid a (compute_txid (e_tx e)) = None ->
    get_by_wtxid a (compute_wtxid (e_tx e)) = None ->
    insert e a = Ok (a', id) -> arena_step a a'
| step_update_ancestor id ds df dc dg a' :
    update_ancestor_state id ds df dc dg a = Ok a' -> arena_step a a'
| step_update_descendant id ds df dc a' :
    update_descendant_state id ds df dc a = Ok a' -> arena_step a a'
| step_update_fee id fee a' : update_modified_fee id fee a = Ok a' -> arena_step a a'
| step_insert_child id child : arena_step a (insert_child id child a)
| step_remove id : arena_step a (remove id a).1.

Lemma arena_step_wf `{!SlotKeysLaws} a a' : arena_step a a' -> arena_wf a -> arena_wf a'.
Proof.
  destruct 1; intros Hwf; eauto using update_ancestor_state_wf, update_descendant_state_wf,
    update_modified_fee_wf, insert_child_wf, remove_wf.
  by edestruct insert_wf.
Qed.

(** Whatever insertions of new transactions, updates of ancestor and
    descendant state, fee changes, links and removals the code performs, the
    arena's indices stay exactly what its entries say: ids and witness ids find
    the entry that has them and no other, the score indices hold the current
    keys; and iterating never panics but visits every entry once, by decreasing
    mining score, by decreasing eviction score, and by time. *)
Lemma arena_indices `{!SlotKeysLaws} a :
  rtc arena_step arena_new a ->
  arena_wf a /\
  (exists l, iter_by_ancestor_score a = map Ok l /\ lists a l /\
     StronglySorted (descending mining_score) l) /\
  (exists l, iter_by_descendant_score a = map Ok l /\ lists a l /\
     StronglySorted (descending eviction_score) l) /\
  (exists l, iter_by_entry_time a = map Ok l /\ lists a l /\
     StronglySorted (fun x y => e_time x.2 <= e_time y.2) l).
Proof.
  intros Hr. assert (Hwf : arena_wf a).
  { assert (H0' : arena_wf arena_new) by apply arena_new_wf. revert H0'.
    induction Hr; eauto using arena_step_wf. }
  split_and!; auto using iter_by_ancestor_score_spec, iter_by_descendant_score_spec, iter_by_entry_time_spec.
Qed.
End arena_facts.

(** ** A concrete instance *)
Module SamplePool.
Definition pool_tx_api : PoolTxApi := {|
  compute_wtxid tx := SampleTx.txid tx ++ concat (concat (map txin_witness (tx_input tx)));
  weight tx := 40 + 160 * Z.min (Z.of_nat (length (tx_input tx))) 10000
               + 36 * Z.min (Z.of_nat (length (tx_output tx))) 10000;
|}.
#[export] Existing Instance pool_tx_api.

#[export] Instance pool_tx_laws : PoolTxLaws.
Proof. split. intros tx. cbn. lia. Qed.

Definition slot_keys : SlotKeys := {| next_key X := 1 + foldr Z.max 0 (elements X) |}.
#[export] Existing Instance slot_keys.

#[export] Instance slot_keys_laws : SlotKeysLaws.
Proof.
  split. intros X. cbn. rewrite <- elem_of_elements. generalize (elements X). intros l Hin.
  assert (Hle : forall z, z ∈ l -> z <= foldr Z.max 0 l).
  { clear. induction l as [| y l IH]; intros z Hz; [by apply elem_of_nil in Hz |].
    apply elem_of_cons in Hz as [-> | Hz]; cbn; [lia |]. specialize (IH _ Hz). lia. }
  specialize (Hle _ Hin). lia.
Qed.

(** A transaction that spends one output, and its entry without relatives. *)
Definition spend (prev : bytes) (vout seq value : Z) : Transaction :=
  mk_tx 2 0 [mk_txin (mk_outpoint prev vout) [] seq []] [mk_txout value [0x51]].

Definition lone_entry (tx : Transaction) (fee time : Z) : TxMemPoolEntry :=
  let v := to_vbytes_ceil (weight tx) in
  mk_entry tx fee fee (weight tx) time 100 0 [] 1 false 4 lock_points_default
    1 v fee 4 1 v fee ∅ ∅ (mk_anc_key (0, 1) []) (mk_desc_key (0, 1) time) None.
End SamplePool.

Import (hints) SampleTx SamplePool.

Lemma arena_indices_witness :
  exists a, rtc arena_step arena_new a /\ arena_wf a /\ size (slots (entries a)) = 2%nat.
Proof.
  pose (t1 := SamplePool.spend [7] 0 0 50). pose (t2 := SamplePool.spend [8] 0 0 60).
  pose (r1 := insert (SamplePool.lone_entry t1 1000 5) arena_new).
  pose (a1 := (from_ok (arena_new, 0) r1).1). pose (i1 := (from_ok (arena_new, 0) r1).2).
  pose (r2 := insert (SamplePool.lone_entry t2 2000 6) a1).
  pose (a2 := (from_ok (arena_new, 0) r2).1). pose (i2 := (from_ok (arena_new, 0) r2).2).
  pose (r3 := update_modified_fee i1 9000 a2). pose (a3 := from_ok arena_new r3).
  assert (Hr : rtc arena_step arena_new a3).
  { eapply (rtc_l _ _ a1); [apply (step_insert _ (SamplePool.lone_entry t1 1000 5) _ i1);
      [vm_compute; reflexivity .. |] |].
    - exact (from_ok_eq (arena_new, 0) r1 eq_refl).
    - eapply (rtc_l _ _ a2); [apply (step_insert _ (SamplePool.lone_entry t2 2000 6) _ i2);
        [vm_compute; reflexivity .. |] |].
      + exact (from_ok_eq (arena_new, 0) r2 eq_refl).
      + eapply (rtc_l _ _ a3); [apply (step_update_fee _ i1 9000) | apply rtc_refl].
        exact (from_ok_eq arena_new r3 eq_refl). }
  exists a3. split; [exact Hr |]. split; [apply (arena_indices a3 Hr) | vm_compute; reflexivity].
Defined.
