(* ===== verification/MempoolInner.v ===== *)
(** * The state of the memory pool

    [crates/subcoin-mempool/src/inner.rs]: the arena with the outpoints its
    transactions spend, the pool's totals and the relay lists; descendants and
    ancestors by graph search; removal, eviction and expiry. *)

From Stdlib Require Import ZArith Lia Sorted.
From stdpp Require Import prelude gmap fin_maps.
From S2P Require Import Prelude Collections Bitcoin MempoolTypes Arena.

(** ** State *)

Record MemPoolInner := mk_inner {
  arena : MemPoolArena;
  map_next_tx : gmap OutPoint bytes;
  map_deltas : gmap bytes Z;
  txns_randomized : list (bytes * EntryId);
  unbroadcast : gset bytes;
  total_tx_size : Z;
  total_fee : Z;
  rolling_minimum_feerate : Z;
  last_rolling_fee_update : Z;
}.

Definition inner_new : MemPoolInner := mk_inner arena_new ∅ ∅ [] ∅ 0 0 0 0.

Definition with_arena (a : MemPoolArena) (s : MemPoolInner) : MemPoolInner :=
  mk_inner a (map_next_tx s) (map_deltas s) (txns_randomized s) (unbroadcast s) (total_tx_size s)
    (total_fee s) (rolling_minimum_feerate s) (last_rolling_fee_update s).

Definition with_randomized (l : list (bytes * EntryId)) (s : MemPoolInner) : MemPoolInner :=
  mk_inner (arena s) (map_next_tx s) (map_deltas s) l (unbroadcast s) (total_tx_size s)
    (total_fee s) (rolling_minimum_feerate s) (last_rolling_fee_update s).

(** ** Graph search

    The recursive functions of the source mark a handle as visited, stop if it
    was, and visit its successors.  [None] is fuel that ran out. *)
Section visit.
Context (next : EntryId -> list EntryId).

Fixpoint visit (fuel : nat) (id : EntryId) (seen : gset EntryId) : option (gset EntryId) :=
  if decide (id ∈ seen) then Some seen
  else
    match fuel with
    | O => None
    | S fuel =>
        (fix visit_all (ids : list EntryId) (seen : gset EntryId) : option (gset EntryId) :=
           match ids with
           | [] => Some seen
           | id :: ids => seen ← visit fuel id seen; visit_all ids seen
           end) (next id) ({[ id ]} ∪ seen)
    end.

(** A loop over handles that visits each with one shared set. *)
Fixpoint visit_all (fuel : nat) (ids : list EntryId) (seen : gset EntryId) : option (gset EntryId) :=
  match ids with
  | [] => Some seen
  | id :: ids => seen ← visit fuel id seen; visit_all fuel ids seen
  end.

Lemma visit_S fuel id seen :
  visit (S fuel) id seen =
  if decide (id ∈ seen) then Some seen else visit_all fuel (next id) ({[ id ]} ∪ seen).
Proof.
  cbn [visit]. case_decide; [done |]. generalize ({[ id ]} ∪ seen). generalize (next id).
  intros l. induction l as [| x l IH]; intros s; cbn [visit_all]; [done |].
  destruct (visit fuel x s); cbn; [apply IH | done].
Qed.

Definition edge (x y : EntryId) : Prop := y ∈ next x.

(** What a search that returns has done. *)
Record visited (ids : list EntryId) (seen out : gset EntryId) : Prop := {
  visited_seen : seen ⊆ out;
  visited_start id : id ∈ ids -> id ∈ out;
  visited_reach x : x ∈ out -> x ∈ seen \/ exists id, id ∈ ids /\ rtc edge id x;
  visited_closed x y : x ∈ out -> x ∉ seen -> edge x y -> y ∈ out;
}.

Lemma visit_all_visited_step fuel
  (IH : forall id seen out, visit fuel id seen = Some out -> visited [id] seen out) ids seen out :
  visit_all fuel ids seen = Some out -> visited ids seen out.
Proof.
  revert seen. induction ids as [| id ids IHl]; intros seen; cbn [visit_all].
  - intros [= <-]. split; [set_solver .. |]. naive_solver.
  - intros (mid & [Hs1 Hi1 Hr1 Hc1]%IH & [Hs2 Hi2 Hr2 Hc2]%IHl)%bind_Some. split.
    + set_solver.
    + intros x [-> | Hx]%elem_of_cons; [apply Hs2, Hi1; by left | by apply Hi2].
    + intros x Hx. destruct (Hr2 x Hx) as [Hm | (i & Hin & Hp)]; [| right; exists i; split; [by right | done]].
      destruct (Hr1 x Hm) as [| (i & Hin & Hp)]; [by left |].
      apply list_elem_of_singleton in Hin as ->. right. exists id. split; [by left | done].
    + intros x y Hx Hns He. destruct (decide (x ∈ mid)); [apply Hs2; by eapply Hc1 | by eapply Hc2].
Qed.

Lemma visit_visited fuel id seen out : visit fuel id seen = Some out -> visited [id] seen out.
Proof.
  revert id seen out. induction fuel as [| fuel IH]; intros id seen out.
  - cbn. case_decide; [| done]. intros [= <-]. split; [done | set_solver | by left |]. naive_solver.
  - rewrite visit_S. case_decide as Hin.
    + intros [= <-]. split; [done | set_solver | by left |]. naive_solver.
    + intros [Hs Hi Hr Hc]%(visit_all_visited_step fuel IH). split.
      * set_solver.
      * intros x ->%list_elem_of_singleton. apply Hs. set_solver.
      * intros x Hx. destruct (Hr x Hx) as [Hm | (i & Hni & Hp)].
        -- apply elem_of_union in Hm as [->%elem_of_singleton | ?]; [| by left].
           right. exists id. split; [by left | apply rtc_refl].
        -- right. exists id. split; [by left | by eapply rtc_l].
      * intros x y Hx Hns He. destruct (decide (x = id)) as [-> | Hne]; [by apply Hi |].
        eapply Hc; [done | set_solver | done].
Qed.

Lemma visit_all_visited fuel ids seen out : visit_all fuel ids seen = Some out -> visited ids seen out.
Proof. apply visit_all_visited_step. apply visit_visited. Qed.

(** The search from nothing finds what is reachable and nothing else. *)
Lemma visited_empty ids out x :
  visited ids ∅ out -> x ∈ out <-> exists id, id ∈ ids /\ rtc edge id x.
Proof.
  intros [_ Hi Hr Hc]. split.
  - intros [? | ?]%Hr; [set_solver | done].
  - intros (id & Hin & Hp). apply Hi in Hin. clear Hi Hr. induction Hp as [| x y z Hxy Hp IH]; [done |].
    apply IH. eapply Hc; [exact Hin | set_solver | done].
Qed.
(** Fuel: one more than the handles with successors that are not yet seen. *)
Context (D : gset EntryId) (HD : forall x y, edge x y -> x ∈ D).

Lemma visit_all_total_step fuel
  (IH : forall id seen, (size (D ∖ seen) < fuel)%nat -> is_Some (visit fuel id seen)) ids seen :
  (size (D ∖ seen) < fuel)%nat -> is_Some (visit_all fuel ids seen).
Proof.
  revert seen. induction ids as [| id ids IHl]; intros seen Hf; cbn [visit_all]; [done |].
  destruct (IH id seen Hf) as [mid Hm]. rewrite Hm. cbn. apply IHl.
  apply visit_visited in Hm as [Hs _ _ _]. eapply Nat.le_lt_trans; [| exact Hf].
  apply subseteq_size. set_solver.
Qed.

Lemma visit_total fuel id seen : (size (D ∖ seen) < fuel)%nat -> is_Some (visit fuel id seen).
Proof.
  revert id seen. induction fuel as [| fuel IH]; intros id seen Hf; [lia |].
  rewrite visit_S. case_decide as Hin; [done |]. destruct (next id) as [| y l] eqn:Hn; [done |].
  rewrite <- Hn. apply visit_all_total_step; [exact IH |].
  assert (Hd : id ∈ D) by (apply (HD id y); unfold edge; rewrite Hn; by left).
  assert ((size (D ∖ ({[ id ]} ∪ seen)) < size (D ∖ seen))%nat); [| lia].
  apply subset_size. split; [set_solver |]. intros Hsub. assert (id ∈ D ∖ ({[ id ]} ∪ seen)); [| set_solver].
  apply Hsub. set_solver.
Qed.

Lemma visit_all_total fuel ids seen :
  (size (D ∖ seen) < fuel)%nat -> is_Some (visit_all fuel ids seen).
Proof. apply visit_all_total_step. intros id seen'. apply visit_total. Qed.
End visit.

Arguments visit : simpl never.

(** ** Operations *)

Section inner.
Context `{!TxApi, !PoolTxApi, !SlotKeys, !HashOrder}.
Implicit Types (s : MemPoolInner) (a : MemPoolArena).

Definition get_entry s (txid : bytes) : option TxMemPoolEntry :=
  entry_id ← get_by_txid (arena s) txid; arena_get (arena s) entry_id.

Definition contains_txid s (txid : bytes) : bool := bool_decide (is_Some (get_by_txid (arena s) txid)).
Definition contains_wtxid s (wtxid : bytes) : bool :=
  bool_decide (is_Some (get_by_wtxid (arena s) wtxid)).
Definition get_conflict_tx s (outpoint : OutPoint) : option bytes := map_next_tx s !! outpoint.

Definition children_of a (id : EntryId) : list EntryId :=
  match arena_get a id with Some e => hash_iter (e_children e) | None => [] end.
Definition parents_of a (id : EntryId) : list EntryId :=
  match arena_get a id with Some e => hash_iter (e_parents e) | None => [] end.

(** One more than the number of entries. *)
Definition search_fuel a : nat := S (size (slots (entries a))).

Definition calculate_descendants_recursive a (entry_id : EntryId) (descendants : gset EntryId) :
    res MempoolError (gset EntryId) :=
  expect (visit (children_of a) (search_fuel a) entry_id descendants).
Definition calculate_ancestors_recursive a (entry_id : EntryId) (ancestors : gset EntryId) :
    res MempoolError (gset EntryId) :=
  expect (visit (parents_of a) (search_fuel a) entry_id ancestors).

(** The methods repeat the functions. *)
Definition calculate_descendants s (entry_id : EntryId) (descendants : gset EntryId) :
    res MempoolError (gset EntryId) :=
  expect (visit (children_of (arena s)) (search_fuel (arena s)) entry_id descendants).
Definition calculate_ancestors s (entry_id : EntryId) (ancestors : gset EntryId) :
    res MempoolError (gset EntryId) :=
  expect (visit (parents_of (arena s)) (search_fuel (arena s)) entry_id ancestors).

(** *** Ancestors that disappear *)

Record AncestorStats := mk_stats {
  st_count : Z;
  st_size : Z;
  st_fees : Z;
  st_sigops : Z;
}.
Definition stats_default : AncestorStats := mk_stats 0 0 0 0.

Definition add_stats (to_remove reachable : gset EntryId) a (ancestor_id : EntryId) (stats : AncestorStats) :
    res MempoolError AncestorStats :=
  if bool_decide (ancestor_id ∈ to_remove) && negb (bool_decide (ancestor_id ∈ reachable)) then
    match arena_get a ancestor_id with
    | Some entry =>
        count ← add_i64 (st_count stats) 1;
        size ← add_i64 (st_size stats) (vsize entry);
        fees ← add_i64 (st_fees stats) (wrap_i64 (e_modified_fee entry));
        sigops ← add_i64 (st_sigops stats) (e_sigop_cost entry);
        Ok (mk_stats count size fees sigops)
    | None => Ok stats
    end
  else Ok stats.

Definition calculate_truly_removed_ancestors a (child_id : EntryId) (to_remove : gset EntryId) :
    res MempoolError AncestorStats :=
  all_ancestors ← calculate_ancestors_recursive a child_id ∅;
  let all_ancestors := all_ancestors ∖ {[ child_id ]} in
  reachable_through_survivors ←
    match arena_get a child_id with
    | Some child_entry =>
        rfold (fun parent_id reachable =>
          if bool_decide (parent_id ∈ to_remove) then Ok reachable
          else calculate_ancestors_recursive a parent_id reachable)
          (hash_iter (e_parents child_entry)) ∅
    | None => Ok ∅
    end;
  rfold (add_stats to_remove reachable_through_survivors a) (hash_iter all_ancestors) stats_default.

Record SurvivingChildMetadata := mk_child_metadata {
  md_child_id : EntryId;
  md_removed_ancestor_stats : AncestorStats;
}.

(** The children of removed entries that are not removed themselves. *)
Definition potential_survivors a (to_remove : gset EntryId) : gset EntryId :=
  foldr (fun entry_id acc =>
    match arena_get a entry_id with
    | Some entry => (e_children entry ∖ to_remove) ∪ acc
    | None => acc
    end) ∅ (hash_iter to_remove).

Fixpoint collect_metadata a (to_remove : gset EntryId) (children : list EntryId) :
    res MempoolError (list SurvivingChildMetadata) :=
  match children with
  | [] => Ok []
  | child_id :: children =>
      removed_stats ← calculate_truly_removed_ancestors a child_id to_remove;
      rest ← collect_metadata a to_remove children;
      Ok (mk_child_metadata child_id removed_stats :: rest)
  end.

Definition collect_surviving_children_metadata a (to_remove : gset EntryId) :
    res MempoolError (list SurvivingChildMetadata) :=
  collect_metadata a to_remove (hash_iter (potential_survivors a to_remove)).

(** Minus the statistics, on the ancestor state of one entry. *)
Definition subtract_stats (stats : AncestorStats) (id : EntryId) a : res MempoolError MemPoolArena :=
  size ← neg_i64 (st_size stats);
  fees ← neg_i64 (st_fees stats);
  count ← neg_i64 (st_count stats);
  sigops ← neg_i64 (st_sigops stats);
  update_ancestor_state id size fees count sigops a.

Definition update_child_for_removed_ancestors (metadata : SurvivingChildMetadata) a :
    res MempoolError MemPoolArena :=
  let stats := md_removed_ancestor_stats metadata in
  a ← subtract_stats stats (md_child_id metadata) a;
  descendants ←
    match arena_get a (md_child_id metadata) with
    | Some entry => rfold (calculate_descendants_recursive a) (hash_iter (e_children entry)) ∅
    | None => Ok ∅
    end;
  rfold (subtract_stats stats) (hash_iter descendants) a.

(** *** Removal *)

Definition rebuild_randomized_list s : res MempoolError MemPoolInner :=
  list ← (fix build (items : list (res MempoolError (EntryId * TxMemPoolEntry))) :=
            match items with
            | [] => Ok []
            | item :: items =>
                '(entry_id, entry) ← item;
                rest ← build items;
                Ok ((compute_wtxid (e_tx entry), entry_id) :: rest)
            end) (iter_by_ancestor_score (arena s));
  Ok (with_randomized list s).

(** One entry of phase 2: the arena, the totals, the spent outpoints and the
    transactions to broadcast. *)
Definition remove_entry (entry_id : EntryId) s : res MempoolError MemPoolInner :=
  match remove entry_id (arena s) with
  | (a, Some entry) =>
      total_size ← sub_u64 (total_tx_size s) (e_tx_weight entry);
      let fee := (total_fee s - e_fee entry) `max` 0 in
      let next := foldl (fun m input => delete (previous_output input) m) (map_next_tx s)
                    (tx_input (e_tx entry)) in
      Ok (mk_inner a next (map_deltas s) (txns_randomized s)
            (unbroadcast s ∖ {[ compute_txid (e_tx entry) ]}) total_size fee
            (rolling_minimum_feerate s) (last_rolling_fee_update s))
  | (a, None) => Ok (with_arena a s)
  end.

Definition remove_staged (to_remove : gset EntryId) (update_descendants : bool) (reason : RemovalReason)
    s : res MempoolError MemPoolInner :=
  surviving_children_metadata ←
    (if update_descendants then collect_surviving_children_metadata (arena s) to_remove else Ok []);
  s ← rfold remove_entry (hash_iter to_remove) s;
  s ← (if update_descendants then
         a ← rfold update_child_for_removed_ancestors surviving_children_metadata (arena s);
         Ok (with_arena a s)
       else Ok s);
  rebuild_randomized_list s.

(** *** Eviction and expiry *)

Fixpoint trim_loop (fuel : nat) (max_size : Z) s : res MempoolError MemPoolInner :=
  if total_tx_size s <=? max_size then Ok s
  else
    match fuel with
    | O => Panic
    | S fuel =>
        match iter_by_descendant_score (arena s) with
        | [] => Ok s
        | item :: _ =>
            '(entry_id, _) ← item;
            to_remove ← calculate_descendants s entry_id ∅;
            s ← remove_staged to_remove false RemovalSizeLimit s;
            trim_loop fuel max_size s
        end
    end.

(** Each round removes an entry. *)
Definition trim_to_size (max_size : Z) s : res MempoolError MemPoolInner :=
  trim_loop (S (size (slots (entries (arena s))))) max_size s.

Fixpoint older_than (cutoff_time : Z) (items : list (res MempoolError (EntryId * TxMemPoolEntry)))
    (to_remove : gset EntryId) : res MempoolError (gset EntryId) :=
  match items with
  | [] => Ok to_remove
  | item :: items =>
      '(entry_id, entry) ← item;
      if e_time entry <? cutoff_time then older_than cutoff_time items ({[ entry_id ]} ∪ to_remove)
      else Ok to_remove
  end.

Definition expire (current_time max_age_seconds : Z) s : res MempoolError MemPoolInner :=
  cutoff_time ← sub_i64 current_time max_age_seconds;
  to_remove ← older_than cutoff_time (iter_by_entry_time (arena s)) ∅;
  if bool_decide (to_remove = ∅) then Ok s
  else remove_staged to_remove false RemovalExpiry s.

Definition inner_size s : Z := arena_len (arena s).
Definition total_size s : Z := total_tx_size s.
Definition total_fees s : Z := total_fee s.
End inner.

(** ** Sums over the pool *)

Definition pool_sum (f : TxMemPoolEntry -> Z) (m : gmap EntryId TxMemPoolEntry) : Z :=
  map_fold (fun _ e acc => f e + acc) 0 m.

Section pool_sum.
Context (f : TxMemPoolEntry -> Z).
Implicit Types m : gmap EntryId TxMemPoolEntry.

Lemma pool_sum_insert m id e : m !! id = None -> pool_sum f (<[id := e]> m) = f e + pool_sum f m.
Proof. intros Hn. unfold pool_sum. rewrite map_fold_insert_L; [done | intros; lia | done]. Qed.

Lemma pool_sum_delete m id e : m !! id = Some e -> pool_sum f m = f e + pool_sum f (delete id m).
Proof.
  intros He. rewrite <- (pool_sum_insert (delete id m) id e) by apply lookup_delete_eq.
  by rewrite insert_delete_id.
Qed.

Lemma pool_sum_update m id e e' :
  m !! id = Some e -> f e' = f e -> pool_sum f (<[id := e']> m) = pool_sum f m.
Proof.
  intros He Hf. rewrite (pool_sum_delete m id e He), <- insert_delete_eq.
  rewrite pool_sum_insert by apply lookup_delete_eq. lia.
Qed.

Lemma pool_sum_fmap m : pool_sum f m = map_fold (fun _ z acc => z + acc) 0 (f <$> m).
Proof. unfold pool_sum. by rewrite map_fold_fmap. Qed.

(** Pools with the same handles and the same terms. *)
Lemma pool_sum_ext m m' :
  (forall j, f <$> m !! j = f <$> m' !! j) -> pool_sum f m = pool_sum f m'.
Proof.
  intros Hj. rewrite !pool_sum_fmap. f_equal. apply map_eq. intros j. by rewrite !lookup_fmap.
Qed.

Lemma pool_sum_nonneg m : (forall id e, m !! id = Some e -> 0 <= f e) -> 0 <= pool_sum f m.
Proof.
  induction m as [| id e m Hn IH] using map_ind; intros Hall; [done |].
  rewrite pool_sum_insert by done.
  assert (0 <= f e) by (apply (Hall id); by simplify_map_eq).
  assert (0 <= pool_sum f m); [| lia]. apply IH. intros j e' Hj. apply (Hall j).
  rewrite lookup_insert_ne; [done |]. congruence.
Qed.
End pool_sum.

(** ** Correctness of the state *)

Section inner_facts.
Context `{!TxApi, !PoolTxApi, !SlotKeys, !HashOrder, !HashOrderLaws}.
Implicit Types (s : MemPoolInner) (a : MemPoolArena) (e : TxMemPoolEntry).

Abbreviation pool s := (slots (entries (arena s))).

Definition spent_by e : list OutPoint := map previous_output (tx_input (e_tx e)).

Record inner_wf s : Prop := {
  iw_arena : arena_wf (arena s);
  iw_size : total_tx_size s = pool_sum e_tx_weight (pool s);
  iw_size_u64 : total_tx_size s <= u64_max;
  iw_fee : total_fee s = pool_sum e_fee (pool s);
  iw_entry id e : arena_get (arena s) id = Some e -> 0 < e_tx_weight e /\ 0 <= e_fee e;
  iw_next o txid :
    map_next_tx s !! o = Some txid <->
    exists id e, arena_get (arena s) id = Some e /\ o ∈ spent_by e /\ compute_txid (e_tx e) = txid;
  iw_unbroadcast txid : txid ∈ unbroadcast s -> is_Some (by_txid (arena s) !! txid);
}.

Lemma inner_new_wf : inner_wf inner_new.
Proof.
  split; try done; try apply arena_new_wf.
  - intros o txid. cbn. rewrite lookup_empty. unfold arena_get. cbn. setoid_rewrite lookup_empty. naive_solver.
Qed.

(** An output is spent by one transaction of the pool at most. *)
Lemma inner_wf_no_double_spend s i j e e' o :
  inner_wf s -> arena_get (arena s) i = Some e -> arena_get (arena s) j = Some e' ->
  o ∈ spent_by e -> o ∈ spent_by e' -> i = j.
Proof.
  intros Hs Hi Hj Ho Ho'.
  assert (H1' : map_next_tx s !! o = Some (compute_txid (e_tx e))) by (apply (iw_next s Hs); eauto).
  assert (H2' : map_next_tx s !! o = Some (compute_txid (e_tx e'))) by (apply (iw_next s Hs); eauto).
  assert (Ht : compute_txid (e_tx e) = compute_txid (e_tx e')) by congruence.
  assert (Ha := iw_arena s Hs). assert (by_txid (arena s) !! compute_txid (e_tx e) = Some i) by (apply (wf_txid _ Ha); eauto).
  assert (by_txid (arena s) !! compute_txid (e_tx e) = Some j) by (rewrite Ht; apply (wf_txid _ Ha); eauto).
  congruence.
Qed.

(** *** Relatives *)

Lemma children_edge a x y :
  edge (children_of a) x y <-> exists e, arena_get a x = Some e /\ y ∈ e_children e.
Proof.
  unfold edge, children_of. destruct (arena_get a x); [rewrite hash_iter_elem | rewrite elem_of_nil]; naive_solver.
Qed.

Lemma parents_edge a x y :
  edge (parents_of a) x y <-> exists e, arena_get a x = Some e /\ y ∈ e_parents e.
Proof.
  unfold edge, parents_of. destruct (arena_get a x); [rewrite hash_iter_elem | rewrite elem_of_nil]; naive_solver.
Qed.

Lemma search_total a (next : EntryId -> list EntryId) id seen :
  (forall x y, edge next x y -> is_Some (arena_get a x)) ->
  exists out, visit next (search_fuel a) id seen = Some out /\ visited next [id] seen out.
Proof.
  intros Hn. destruct (visit_total next (dom (slots (entries a))) (fun x y Hxy => proj2 (elem_of_dom _ x) (Hn x y Hxy))
    (search_fuel a) id seen) as [out Hout].
  { unfold search_fuel. rewrite <- (size_dom (D := gset EntryId)).
    apply Nat.lt_succ_r, subseteq_size. set_solver. }
  exists out. split; [done | by eapply visit_visited].
Qed.

Lemma calculate_descendants_total s id seen :
  exists out, calculate_descendants s id seen = Ok out /\ visited (children_of (arena s)) [id] seen out.
Proof.
  destruct (search_total (arena s) (children_of (arena s)) id seen) as (out & Ho & Hv).
  { intros x y (e & He & _)%children_edge. eauto. }
  exists out. unfold calculate_descendants. by rewrite Ho.
Qed.

Lemma calculate_ancestors_total s id seen :
  exists out, calculate_ancestors s id seen = Ok out /\ visited (parents_of (arena s)) [id] seen out.
Proof.
  destruct (search_total (arena s) (parents_of (arena s)) id seen) as (out & Ho & Hv).
  { intros x y (e & He & _)%parents_edge. eauto. }
  exists out. unfold calculate_ancestors. by rewrite Ho.
Qed.

(** *** Removal *)

Lemma foldl_delete_lookup (l : list TxIn) (m : gmap OutPoint bytes) o :
  foldl (fun m input => delete (previous_output input) m) m l !! o =
  if decide (o ∈ map previous_output l) then None else m !! o.
Proof.
  revert m. induction l as [| i l IH]; intros m; cbn [foldl map].
  - case_decide as Hin; [by apply elem_of_nil in Hin | done].
  - rewrite IH. destruct (decide (o = previous_output i)) as [-> | Hne].
    + rewrite lookup_delete_eq. repeat case_decide; try done; set_solver.
    + rewrite lookup_delete_ne by congruence. repeat case_decide; try done; set_solver.
Qed.

Lemma remove_entry_spec s id :
  inner_wf s ->
  exists s', remove_entry id s = Ok s' /\ inner_wf s' /\ arena s' = (remove id (arena s)).1.
Proof.
  intros Hs. unfold remove_entry. destruct (remove id (arena s)) as [a o] eqn:Hr.
  pose proof (remove_wf id (arena s) (iw_arena s Hs)) as Hawf.
  pose proof (remove_get id (arena s)) as Hget. rewrite Hr in Hawf, Hget. cbn in Hawf, Hget.
  unfold remove in Hr. destruct (arena_get (arena s) id) as [e |] eqn:He; injection Hr as Ha <-.
  2: { exists s. split; [by destruct s; unfold with_arena; cbn in *; subst |]. cbn. auto. }
  destruct (iw_entry s Hs id e He) as [Hw Hf].
  assert (Hsz : total_tx_size s = e_tx_weight e + pool_sum e_tx_weight (delete id (pool s)))
    by (rewrite (iw_size s Hs); by apply pool_sum_delete).
  assert (Hfe : total_fee s = e_fee e + pool_sum e_fee (delete id (pool s)))
    by (rewrite (iw_fee s Hs); by apply pool_sum_delete).
  assert (Hentry : forall j e', delete id (pool s) !! j = Some e' -> 0 < e_tx_weight e' /\ 0 <= e_fee e').
  { intros j e' [_ Hj]%lookup_delete_Some. by apply (iw_entry s Hs j). }
  assert (0 <= pool_sum e_tx_weight (delete id (pool s)))
    by (apply pool_sum_nonneg; intros j e' Hj%Hentry; lia).
  assert (0 <= pool_sum e_fee (delete id (pool s)))
    by (apply pool_sum_nonneg; intros j e' Hj%Hentry; lia).
  assert (Hu := iw_size_u64 s Hs).
  unfold sub_u64. rewrite checked_u64_Ok by (unfold is_u64; lia). rcbn.
  eexists. split; [done |]. split; [| done].
  subst a. split; cbn; try done; try lia.
  - intros o txid. rewrite foldl_delete_lookup. setoid_rewrite Hget. case_decide as Hin.
    + split; [done |]. intros (j & e' & Hj & Ho & <-). case_decide as Hji; [done |].
      exfalso. apply Hji. by eapply (inner_wf_no_double_spend s j id e' e o).
    + rewrite (iw_next s Hs). split.
      * intros (j & e' & Hj & Ho & <-). exists j, e'. case_decide as Hji; [| done].
        subst j. exfalso. apply Hin. rewrite He in Hj. by injection Hj as ->.
      * intros (j & e' & Hj & Ho & <-). case_decide; [done | eauto].
  - intros txid [Hin Hne]%elem_of_difference. rewrite elem_of_singleton in Hne.
    rewrite lookup_delete_ne by congruence. by apply (iw_unbroadcast s Hs).
Qed.

Lemma remove_entries_spec s ids :
  inner_wf s ->
  exists s', rfold remove_entry ids s = Ok s' /\ inner_wf s' /\
    forall j, arena_get (arena s') j = if decide (j ∈ ids) then None else arena_get (arena s) j.
Proof.
  revert s. induction ids as [| id ids IH]; intros s Hs; cbn [rfold].
  - exists s. split; [done |]. split; [done |]. intros j. case_decide as Hin; [by apply elem_of_nil in Hin | done].
  - destruct (remove_entry_spec s id Hs) as (s1 & -> & Hs1 & Ha). cbn.
    destruct (IH s1 Hs1) as (s' & -> & Hs' & Hget). exists s'. split; [done |]. split; [done |].
    intros j. rewrite Hget, Ha, remove_get. repeat case_decide; try done; set_solver.
Qed.

Lemma rebuild_randomized_list_spec s :
  inner_wf s ->
  exists l, rebuild_randomized_list s = Ok (with_randomized (map (fun x => (compute_wtxid (e_tx x.2), x.1)) l) s) /\
    lists (arena s) l /\ StronglySorted (descending mining_score) l.
Proof.
  intros Hs. destruct (iter_by_ancestor_score_spec (arena s) (iw_arena s Hs)) as (l & Hl & Hls & Hsort).
  exists l. split; [| done]. unfold rebuild_randomized_list. rewrite Hl. clear.
  enough (Hb : forall l : list (EntryId * TxMemPoolEntry),
    (fix build (items : list (res MempoolError (EntryId * TxMemPoolEntry))) :=
       match items with
       | [] => Ok []
       | item :: items =>
           '(entry_id, entry) ← item;
           rest ← build items;
           Ok ((compute_wtxid (e_tx entry), entry_id) :: rest)
       end) (map Ok l) = Ok (map (fun x => (compute_wtxid (e_tx x.2), x.1)) l)) by by rewrite Hb.
  clear l. intros l. induction l as [| [i e] l IH]; [done |]. cbn. by rewrite IH.
Qed.

Lemma with_randomized_wf l s : inner_wf s -> inner_wf (with_randomized l s).
Proof. intros []. by split. Qed.

(** Removal without an update of survivors. *)
Lemma remove_staged_spec s to_remove reason :
  inner_wf s ->
  exists s' l, remove_staged to_remove false reason s = Ok s' /\ inner_wf s' /\
    (forall j, arena_get (arena s') j = if decide (j ∈ to_remove) then None else arena_get (arena s) j) /\
    txns_randomized s' = map (fun x => (compute_wtxid (e_tx x.2), x.1)) l /\
    lists (arena s') l /\ StronglySorted (descending mining_score) l.
Proof.
  intros Hs. unfold remove_staged. rcbn.
  destruct (remove_entries_spec s (hash_iter to_remove) Hs) as (s1 & -> & Hs1 & Hget). rcbn.
  destruct (rebuild_randomized_list_spec s1 Hs1) as (l & Hr & Hl & Hsort).
  exists (with_randomized (map (fun x => (compute_wtxid (e_tx x.2), x.1)) l) s1), l. split; [exact Hr |].
  split; [by apply with_randomized_wf |]. split; [| done].
  intros j. cbn. rewrite Hget. by rewrite (decide_ext _ _ _ _ (hash_iter_elem to_remove j)).
Qed.

(** *** Eviction *)

(** The pool of [s'] is that of [s] without some entries, and without their
    descendants. *)
Definition evicted s s' : Prop :=
  exists gone : gset EntryId,
    (forall j, arena_get (arena s') j = if decide (j ∈ gone) then None else arena_get (arena s) j) /\
    (forall x y, x ∈ gone -> edge (children_of (arena s)) x y -> y ∈ gone).

Lemma evicted_refl s : evicted s s.
Proof. exists ∅. split; [intros j; by case_decide | set_solver]. Qed.

Lemma evicted_trans s1 s2 s3 : evicted s1 s2 -> evicted s2 s3 -> evicted s1 s3.
Proof.
  intros (g1 & Hg1 & Hc1) (g2 & Hg2 & Hc2). exists (g1 ∪ g2). split.
  - intros j. rewrite Hg2, Hg1. repeat case_decide; try done; set_solver.
  - intros x y Hx Hxy. apply elem_of_union. destruct (decide (x ∈ g1)); [left; by eapply Hc1 |].
    right. apply (Hc2 x y); [set_solver |]. apply children_edge. rewrite Hg1, decide_False by done.
    by apply children_edge.
Qed.

Lemma evicted_size s s' : evicted s s' -> dom (pool s') ⊆ dom (pool s).
Proof.
  intros (g & Hg & _) j. rewrite !elem_of_dom. specialize (Hg j). unfold arena_get in Hg.
  rewrite Hg. case_decide; [by intros [] | done].
Qed.

(** One round: the entry with the highest eviction score goes with its
    descendants. *)
Lemma trim_round s id e l :
  inner_wf s -> iter_by_descendant_score (arena s) = map Ok ((id, e) :: l) ->
  lists (arena s) ((id, e) :: l) ->
  exists to_remove s', calculate_descendants s id ∅ = Ok to_remove /\
    remove_staged to_remove false RemovalSizeLimit s = Ok s' /\ inner_wf s' /\ evicted s s' /\
    arena_get (arena s') id = None /\ (size (pool s') < size (pool s))%nat.
Proof.
  intros Hs Hl [Hnd Hin]. destruct (calculate_descendants_total s id ∅) as (gone & Hd & Hv).
  destruct (remove_staged_spec s gone RemovalSizeLimit Hs) as (s' & _ & Hr & Hs' & Hget & _).
  assert (Hid : id ∈ gone) by (apply (visited_start _ _ _ _ Hv); by left).
  assert (He : arena_get (arena s) id = Some e) by (apply Hin; by left).
  assert (Hev : evicted s s').
  { exists gone. split; [exact Hget |]. intros x y Hx Hxy. by eapply (visited_closed _ _ _ _ Hv). }
  assert (Hgone : arena_get (arena s') id = None) by (by rewrite Hget, decide_True).
  exists gone, s'. split_and!; try done.
  rewrite <- !(size_dom (D := gset EntryId)). apply subset_size. split; [by apply evicted_size |].
  intros Hsub. assert (Hin' : id ∈ dom (pool s')) by (apply Hsub, elem_of_dom; by exists e).
  apply elem_of_dom in Hin'. unfold arena_get in Hgone. rewrite Hgone in Hin'. by destruct Hin'.
Qed.

Lemma trim_loop_spec fuel max_size s :
  inner_wf s -> 0 <= max_size -> (size (pool s) < fuel)%nat ->
  exists s', trim_loop fuel max_size s = Ok s' /\ inner_wf s' /\ evicted s s' /\
    total_tx_size s' <= max_size /\
    (max_size < total_tx_size s -> exists id e, arena_get (arena s) id = Some e /\
       arena_get (arena s') id = None /\
       forall j e', arena_get (arena s) j = Some e' -> descending eviction_score (id, e) (j, e')).
Proof.
  revert s. induction fuel as [| fuel IH]; intros s Hs Hmax Hfuel; [lia |]. cbn [trim_loop].
  destruct (Z.leb_spec (total_tx_size s) max_size) as [Hle | Hgt].
  { exists s. split_and!; auto using evicted_refl. lia. }
  destruct (iter_by_descendant_score_spec (arena s) (iw_arena s Hs)) as (l & Hl & Hls & Hsort).
  destruct l as [| [id e] l].
  { exfalso. assert (Hemp : pool s = ∅).
    { apply map_empty. intros j. destruct (pool s !! j) as [e |] eqn:Hj; [| done].
      exfalso. apply (proj2 Hls) in Hj. by apply elem_of_nil in Hj. }
    rewrite (iw_size s Hs), Hemp in Hgt. unfold pool_sum in Hgt. rewrite map_fold_empty in Hgt. lia. }
  destruct (trim_round s id e l Hs Hl Hls) as (gone & s1 & Hd & Hr & Hs1 & Hev & Hnone & Hsz).
  rewrite Hl. cbn [map]. rcbn. rewrite Hd. rcbn. rewrite Hr. rcbn.
  destruct (IH s1 Hs1 Hmax) as (s' & Ht & Hs' & Hev' & Htot & _); [lia |].
  exists s'. split; [done |]. split; [done |]. split; [by eapply evicted_trans |]. split; [done |].
  intros _. exists id, e. split; [apply Hls; by left |]. split.
  - destruct Hev' as (g & Hg & _). rewrite Hg. by case_decide.
  - intros j e' Hj. apply Hls, elem_of_cons in Hj as [Heq | Hj].
    + injection Heq as -> ->. assert (Hk : keys_current e) by (eapply wf_keys; [apply Hs | apply Hls; by left]).
      apply eviction_score_key in Hk. eexists _, _. split; [done |]. split; [done |]. lia.
    + apply StronglySorted_inv in Hsort as [_ Hall]. rewrite Forall_forall in Hall. by apply Hall.
Qed.

(** C17: Trimming the pool terminates without panic, keeps the state consistent
    and brings the size down to the bound; what it removes is closed under
    children.  But the first entry it evicts, whenever it evicts, is one that
    pays the highest feerate of the pool, as the index by descendant score is
    ordered by decreasing feerate. *)
Theorem trim_to_size_spec s max_size :
  inner_wf s -> 0 <= max_size ->
  exists s', trim_to_size max_size s = Ok s' /\ inner_wf s' /\ evicted s s' /\
    total_size s' <= max_size /\
    (max_size < total_size s -> exists id e, arena_get (arena s) id = Some e /\
       arena_get (arena s') id = None /\
       forall j e', arena_get (arena s) j = Some e' -> descending eviction_score (id, e) (j, e')).
Proof. intros Hs Hmax. apply trim_loop_spec; [done | done | lia]. Qed.

(** *** Expiry *)

Lemma older_than_spec cutoff l acc :
  StronglySorted (fun x y : EntryId * TxMemPoolEntry => e_time x.2 <= e_time y.2) l ->
  exists out, older_than cutoff (map Ok l) acc = Ok out /\
    forall j, j ∈ out <-> j ∈ acc \/ exists e, (j, e) ∈ l /\ e_time e < cutoff.
Proof.
  intros Hs. revert acc. induction Hs as [| [i e] l Hs IH Hall]; intros acc; cbn [map older_than]; rcbn.
  - exists acc. split; [done |]. intros j. split; [by left |]. intros [? | (? & ?%elem_of_nil & _)]; done.
  - destruct (Z.ltb_spec (e_time e) cutoff) as [Hlt | Hge].
    + destruct (IH ({[ i ]} ∪ acc)) as (out & -> & Hout). exists out. split; [done |]. intros j.
      rewrite Hout, elem_of_union, elem_of_singleton. setoid_rewrite elem_of_cons. split.
      * intros [[-> | ?] | (e' & ? & ?)]; eauto 10.
      * intros [? | (e' & [[= -> ->] | ?] & ?)]; eauto 10.
    + exists acc. split; [done |]. intros j. split; [by left |]. intros [? | (e' & Hin & Ht)]; [done |].
      exfalso. rewrite Forall_forall in Hall. apply elem_of_cons in Hin as [[= -> ->] | Hin]; [lia |].
      specialize (Hall _ Hin). cbn in Hall. lia.
Qed.

(** Expiry removes exactly the entries that are older than the given age,
    without panic, and keeps the state consistent; children that are younger
    stay, with a parent handle that finds nothing. *)
Lemma expire_spec s current_time max_age_seconds :
  inner_wf s -> is_i64 (current_time - max_age_seconds) ->
  exists s', expire current_time max_age_seconds s = Ok s' /\ inner_wf s' /\
    forall j, arena_get (arena s') j =
      match arena_get (arena s) j with
      | Some e => if e_time e <? current_time - max_age_seconds then None else Some e
      | None => None
      end.
Proof.
  intros Hs Hi. unfold expire, sub_i64. rewrite checked_i64_Ok by done. rcbn.
  destruct (iter_by_entry_time_spec (arena s) (iw_arena s Hs)) as (l & Hl & [_ Hls] & Hsort). rewrite Hl.
  destruct (older_than_spec (current_time - max_age_seconds) l ∅ Hsort) as (out & -> & Hout). rcbn.
  assert (Ho : forall j, j ∈ out <-> exists e, arena_get (arena s) j = Some e /\ e_time e < current_time - max_age_seconds).
  { intros j. rewrite Hout. setoid_rewrite Hls. set_solver. }
  assert (Hget : forall j, (if decide (j ∈ out) then None else arena_get (arena s) j) =
      match arena_get (arena s) j with
      | Some e => if e_time e <? current_time - max_age_seconds then None else Some e
      | None => None
      end).
  { intros j. case_decide as Hin.
    - apply Ho in Hin as (e & -> & Hlt). by rewrite (proj2 (Z.ltb_lt _ _) Hlt).
    - destruct (arena_get (arena s) j) as [e |] eqn:He; [| done].
      destruct (Z.ltb_spec (e_time e) (current_time - max_age_seconds)); [| done].
      exfalso. apply Hin, Ho. eauto. }
  case_bool_decide as Hemp.
  - exists s. split; [done |]. split; [done |]. intros j. rewrite <- Hget. rewrite Hemp. by case_decide.
  - destruct (remove_staged_spec s out RemovalExpiry Hs) as (s' & _ & -> & Hs' & Hg & _).
    exists s'. split; [done |]. split; [done |]. intros j. by rewrite Hg, Hget.
Qed.
End inner_facts.
