(* ===== verification/CoinsView.v ===== *)
(** * The coins the memory pool sees

    [crates/subcoin-mempool/src/coins_view.rs]: outputs of pending transactions
    over a cache of the runtime's UTXO set.  The cache never changes an answer:
    [get_coin] returns what the pending transactions and the runtime state at
    the best block say. *)

From Stdlib Require Import ZArith Lia.
From stdpp Require Import prelude gmap.
From S2P Require Import Prelude Bitcoin Runtime ScriptTypes Pallet MempoolTypes.

(** ** The cache and the runtime *)

(** [schnellru::LruMap]: a map of bounded size. *)
Class LruApi := {
  lru : Type;
  lru_new : Z -> lru;
  lru_peek : lru -> OutPoint -> option (option PoolCoin);
  lru_insert : OutPoint -> option PoolCoin -> lru -> lru;
  lru_clear : lru -> lru;
  lru_len : lru -> Z;
}.

(** An insertion may evict other keys, and invents nothing. *)
Class LruLaws `{LruApi} : Prop := {
  lru_peek_new n o : lru_peek (lru_new n) o = None;
  lru_peek_clear c o : lru_peek (lru_clear c) o = None;
  lru_peek_insert c o v o' w :
    lru_peek (lru_insert o v c) o' = Some w -> (o' = o /\ w = v) \/ (o' <> o /\ lru_peek c o' = Some w);
}.

(** The runtime state at a block; a runtime call at an unknown block is an
    error of the client. *)
Class RuntimeStates := { runtime_state : bytes -> Z + PalletState }.

(** [SubcoinApi::get_utxos], which the runtime forwards to the pallet. *)
Definition api_get_utxos `{!RuntimeStates} (at_block : bytes) (outpoints : list Runtime.OutPoint) :
    Z + list (option Coin) :=
  match runtime_state at_block with
  | inl e => inl e
  | inr st => inr (get_utxos st outpoints)
  end.

Record CoinsViewCache `{!LruApi} := mk_coins_view {
  base_cache : lru;
  mempool_overlay : gmap OutPoint PoolCoin;
  mempool_spends : gset OutPoint;
  best_block : bytes;
}.
Arguments mk_coins_view {_} _ _ _ _.

Section coins_view.
Context `{!TxApi, !LruApi, !RuntimeStates}.
Implicit Types (c : CoinsViewCache) (outpoint : OutPoint).

Definition coins_view_new (best_hash : bytes) (cache_size : Z) : CoinsViewCache :=
  mk_coins_view (lru_new cache_size) ∅ ∅ best_hash.

Definition with_base_cache (l : lru) c : CoinsViewCache :=
  mk_coins_view l (mempool_overlay c) (mempool_spends c) (best_block c).

Definition fetch_from_runtime c outpoint : res MempoolError (option PoolCoin) :=
  coins ← map_err RuntimeApiError
            (of_sum (api_get_utxos (best_block c) [Runtime.out_point_from outpoint]));
  coin ← ok_or (RuntimeApiError 0) (head coins);
  Ok (option_map pool_coin_from coin).

Definition batch_fetch_from_runtime c (outpoints : list OutPoint) :
    res MempoolError (list (option PoolCoin)) :=
  coins ← map_err RuntimeApiError
            (of_sum (api_get_utxos (best_block c) (map Runtime.out_point_from outpoints)));
  Ok (map (option_map pool_coin_from) coins).

Definition get_coin outpoint c : res MempoolError (CoinsViewCache * option PoolCoin) :=
  if bool_decide (outpoint ∈ mempool_spends c) then Ok (c, None)
  else
    match mempool_overlay c !! outpoint with
    | Some coin => Ok (c, Some coin)
    | None =>
        match lru_peek (base_cache c) outpoint with
        | Some cached => Ok (c, cached)
        | None =>
            coin ← fetch_from_runtime c outpoint;
            Ok (with_base_cache (lru_insert outpoint coin (base_cache c)) c, coin)
        end
    end.

Definition is_missing c outpoint : bool :=
  negb (bool_decide (outpoint ∈ mempool_spends c)) &&
  negb (bool_decide (is_Some (mempool_overlay c !! outpoint))) &&
  negb (bool_decide (is_Some (lru_peek (base_cache c) outpoint))).

Definition ensure_coins (outpoints : list OutPoint) c : res MempoolError CoinsViewCache :=
  let missing := filter (fun op => is_missing c op = true) outpoints in
  match missing with
  | [] => Ok c
  | _ =>
      coins ← batch_fetch_from_runtime c missing;
      Ok (with_base_cache
            (foldl (fun l '(outpoint, coin) => lru_insert outpoint coin l) (base_cache c)
               (zip missing coins)) c)
  end.

(** The coins of a pending transaction, from output [idx] on. *)
Fixpoint overlay_outputs (txid : bytes) (idx : nat) (outputs : list TxOut) (m : gmap OutPoint PoolCoin) :
    gmap OutPoint PoolCoin :=
  match outputs with
  | [] => m
  | output :: outputs =>
      overlay_outputs txid (S idx) outputs
        (<[mk_outpoint txid (wrap_u32 (Z.of_nat idx)) := mk_pool_coin output MEMPOOL_HEIGHT false 0]> m)
  end.

Definition add_mempool_coins (tx : Transaction) c : CoinsViewCache :=
  mk_coins_view (base_cache c) (overlay_outputs (compute_txid tx) 0 (tx_output tx) (mempool_overlay c))
    (mempool_spends c) (best_block c).

Definition spend_coin outpoint c : CoinsViewCache :=
  mk_coins_view (base_cache c) (mempool_overlay c) ({[ outpoint ]} ∪ mempool_spends c) (best_block c).

Definition remove_mempool_tx (tx : Transaction) c : CoinsViewCache :=
  mk_coins_view (base_cache c)
    (foldl (fun m idx => delete (mk_outpoint (compute_txid tx) (wrap_u32 (Z.of_nat idx))) m)
       (mempool_overlay c) (seq 0 (length (tx_output tx))))
    (foldl (fun spends input => spends ∖ {[ previous_output input ]}) (mempool_spends c) (tx_input tx))
    (best_block c).

Definition on_block_connected (block_hash : bytes) c : CoinsViewCache :=
  mk_coins_view (lru_clear (base_cache c)) (mempool_overlay c) (mempool_spends c) block_hash.

Definition have_coin outpoint c : bool :=
  if bool_decide (outpoint ∈ mempool_spends c) then false
  else bool_decide (is_Some (mempool_overlay c !! outpoint)) ||
       bool_decide (is_Some (lru_peek (base_cache c) outpoint)).
End coins_view.

(** ** The view without a cache *)

Section view.
Context `{!TxApi, !LruApi, !LruLaws, !RuntimeStates}.
Implicit Types (c : CoinsViewCache) (o : OutPoint).

(** The coin the runtime has at the best block. *)
Definition chain_coin (st : PalletState) o : option PoolCoin :=
  option_map pool_coin_from (coins st !! Runtime.out_point_from o).

(** What a lookup is to return. *)
Definition view (st : PalletState) c o : option PoolCoin :=
  if decide (o ∈ mempool_spends c) then None
  else match mempool_overlay c !! o with
       | Some coin => Some coin
       | None => chain_coin st o
       end.

(** The cache holds what the runtime says at the best block. *)
Definition coherent c : Prop :=
  forall o v, lru_peek (base_cache c) o = Some v ->
  exists st, runtime_state (best_block c) = inr st /\ v = chain_coin st o.

(** The parts the pool itself decides. *)
Definition same_overlay c c' : Prop :=
  mempool_overlay c' = mempool_overlay c /\ mempool_spends c' = mempool_spends c /\
  best_block c' = best_block c.

Lemma view_same st c c' o : same_overlay c c' -> view st c' o = view st c o.
Proof. intros (Ho & Hs & _). unfold view. by rewrite Ho, Hs. Qed.

Lemma coherent_insert c st o :
  coherent c -> runtime_state (best_block c) = inr st ->
  coherent (with_base_cache (lru_insert o (chain_coin st o) (base_cache c)) c).
Proof.
  intros Hc Hst o' v Hp. cbn in Hp. apply lru_peek_insert in Hp as [[-> ->] | [_ Hp]]; [| by apply Hc].
  by exists st.
Qed.

Lemma coherent_inserts c st os :
  coherent c -> runtime_state (best_block c) = inr st ->
  coherent (with_base_cache
    (foldl (fun l '(o, v) => lru_insert o v l) (base_cache c) (zip os (map (chain_coin st) os))) c).
Proof.
  intros Hc Hst. revert c Hc Hst. induction os as [| o os IH]; intros c Hc Hst; cbn.
  - intros o v. apply Hc.
  - specialize (IH (with_base_cache (lru_insert o (chain_coin st o) (base_cache c)) c)).
    apply IH; [by apply coherent_insert | done].
Qed.

(** Where the runtime answers, a lookup returns the view; it fails only where
    the runtime does. *)
Lemma get_coin_spec c o st :
  coherent c -> runtime_state (best_block c) = inr st ->
  exists c', get_coin o c = Ok (c', view st c o) /\ coherent c' /\ same_overlay c c'.
Proof.
  intros Hc Hst. unfold get_coin, view. rewrite <- (decide_bool_decide (o ∈ mempool_spends c)).
  case_decide as Hsp; [by exists c |].
  destruct (mempool_overlay c !! o) as [coin |]; [by exists c |].
  destruct (lru_peek (base_cache c) o) as [v |] eqn:Hp.
  - destruct (Hc o v Hp) as (st' & Hst' & ->). rewrite Hst in Hst'. injection Hst' as <-. by exists c.
  - unfold fetch_from_runtime, api_get_utxos. rewrite Hst. cbn.
    eexists. split; [done |]. split; [by apply coherent_insert | done].
Qed.

Lemma ensure_coins_spec c os st :
  coherent c -> runtime_state (best_block c) = inr st ->
  exists c', ensure_coins os c = Ok c' /\ coherent c' /\ same_overlay c c'.
Proof.
  intros Hc Hst. unfold ensure_coins. destruct (filter _ os) as [| m ms]; [by exists c |].
  generalize (m :: ms). intros l. unfold batch_fetch_from_runtime, api_get_utxos. rewrite Hst. cbn.
  eexists. split; [done |]. split; [| done].
  unfold get_utxos. rewrite !map_map. by apply (coherent_inserts c st l).
Qed.

(** *** Coins of pending transactions *)

(** The coin of a pending transaction under an outpoint. *)
Definition pending_output (tx : Transaction) o : option PoolCoin :=
  if decide (op_txid o = compute_txid tx /\ 0 <= op_vout o) then
    option_map (fun out => mk_pool_coin out MEMPOOL_HEIGHT false 0) (tx_output tx !! Z.to_nat (op_vout o))
  else None.

Lemma wrap_small k : Z.of_nat k < 2 ^ 32 -> wrap_u32 (Z.of_nat k) = Z.of_nat k.
Proof. intros. unfold wrap_u32. apply Z.mod_small. lia. Qed.

Lemma overlay_outputs_lookup txid k outs m o :
  Z.of_nat (k + length outs) <= 2 ^ 32 ->
  overlay_outputs txid k outs m !! o =
  match (if decide (op_txid o = txid /\ Z.of_nat k <= op_vout o)
         then outs !! (Z.to_nat (op_vout o) - k)%nat else None) with
  | Some out => Some (mk_pool_coin out MEMPOOL_HEIGHT false 0)
  | None => m !! o
  end.
Proof.
  revert k m. induction outs as [| out outs IH]; intros k m Hk; cbn [overlay_outputs length] in *.
  { case_decide; by rewrite ?lookup_nil. }
  rewrite IH by lia. rewrite wrap_small by lia.
  destruct o as [t v]. cbn [op_txid op_vout] in *.
  destruct (decide (t = txid)) as [-> | Hne].
  2: { rewrite !decide_False by naive_solver. rewrite lookup_insert_ne; [done |]. congruence. }
  destruct (decide (v = Z.of_nat k)) as [-> | Hv].
  - rewrite decide_False by (intros []; lia). rewrite decide_True by (split; [done | lia]).
    rewrite lookup_insert_eq. replace (Z.to_nat (Z.of_nat k) - k)%nat with 0%nat by lia. done.
  - rewrite lookup_insert_ne by congruence. destruct (decide (Z.of_nat k <= v)) as [Hle | Hgt].
    + rewrite !decide_True by (split; [done | lia]).
      replace (Z.to_nat v - k)%nat with (S (Z.to_nat v - S k)) by lia. done.
    + rewrite !decide_False by (intros []; lia). done.
Qed.

Lemma add_mempool_coins_lookup tx c o :
  Z.of_nat (length (tx_output tx)) <= 2 ^ 32 ->
  mempool_overlay (add_mempool_coins tx c) !! o =
  match pending_output tx o with Some coin => Some coin | None => mempool_overlay c !! o end.
Proof.
  intros Hl. cbn. rewrite overlay_outputs_lookup by done. unfold pending_output. rewrite Nat.sub_0_r.
  change (Z.of_nat 0) with 0. case_decide; [| done]. by destruct (tx_output tx !! _).
Qed.

Lemma foldl_delete_outputs txid n k (m : gmap OutPoint PoolCoin) o :
  Z.of_nat (k + n) <= 2 ^ 32 ->
  foldl (fun m idx => delete (mk_outpoint txid (wrap_u32 (Z.of_nat idx))) m) m (seq k n) !! o =
  if decide (op_txid o = txid /\ Z.of_nat k <= op_vout o < Z.of_nat (k + n)) then None else m !! o.
Proof.
  revert k m. induction n as [| n IH]; intros k m Hk; cbn [seq foldl].
  { by rewrite decide_False by (intros []; lia). }
  rewrite IH by lia. rewrite wrap_small by lia. destruct o as [t v]. cbn [op_txid op_vout] in *.
  destruct (decide (mk_outpoint t v = mk_outpoint txid (Z.of_nat k))) as [[= -> ->] | Hne].
  - rewrite lookup_delete_eq. trans (@None PoolCoin); [by destruct (decide _) |].
    by rewrite decide_True by (split; [done | lia]).
  - rewrite lookup_delete_ne by congruence. apply decide_ext.
    assert (Hv : t = txid -> v <> Z.of_nat k) by congruence.
    split; intros [Ht ?]; specialize (Hv Ht); (split; [done |]); lia.
Qed.

Lemma pending_output_Some tx o :
  is_Some (pending_output tx o) <->
  op_txid o = compute_txid tx /\ 0 <= op_vout o < Z.of_nat (length (tx_output tx)).
Proof.
  unfold pending_output. case_decide as Hd.
  - destruct (tx_output tx !! Z.to_nat (op_vout o)) eqn:Hl; cbn.
    + apply lookup_lt_Some in Hl. split; [intros _ | done]. split; [by destruct Hd | lia].
    + apply lookup_ge_None in Hl. split; [by intros [] |]. intros [_ ?]. lia.
  - split; [by intros [] |]. naive_solver.
Qed.

Lemma remove_mempool_tx_lookup tx c o :
  Z.of_nat (length (tx_output tx)) <= 2 ^ 32 ->
  mempool_overlay (remove_mempool_tx tx c) !! o =
  match pending_output tx o with Some _ => None | None => mempool_overlay c !! o end.
Proof.
  intros Hl. cbn. rewrite foldl_delete_outputs by done. pose proof (pending_output_Some tx o) as Hp.
  destruct (pending_output tx o).
  - rewrite decide_True; [done |]. apply Hp. done.
  - rewrite decide_False; [done |]. intros Hd. apply Hp in Hd. by destruct Hd.
Qed.

Lemma remove_mempool_tx_spends tx c :
  mempool_spends (remove_mempool_tx tx c) =
  mempool_spends c ∖ list_to_set (map previous_output (tx_input tx)).
Proof.
  cbn. generalize (mempool_spends c). induction (tx_input tx) as [| i l IH]; intros X; cbn.
  - set_solver.
  - rewrite IH. set_solver.
Qed.

(** Removing what was added restores the view. *)
Lemma remove_add_mempool_coins tx c :
  Z.of_nat (length (tx_output tx)) <= 2 ^ 32 ->
  (forall o, is_Some (pending_output tx o) -> mempool_overlay c !! o = None) ->
  (forall i, i ∈ tx_input tx -> previous_output i ∉ mempool_spends c) ->
  remove_mempool_tx tx (add_mempool_coins tx c) = c.
Proof.
  intros Hl Hf Hs. pose proof (remove_mempool_tx_spends tx (add_mempool_coins tx c)) as Hsp.
  assert (Ho : mempool_overlay (remove_mempool_tx tx (add_mempool_coins tx c)) = mempool_overlay c).
  { apply map_eq. intros o. rewrite remove_mempool_tx_lookup, add_mempool_coins_lookup by done.
    specialize (Hf o). destruct (pending_output tx o); [| done]. by rewrite Hf. }
  destruct c as [b m sp bb]. unfold remove_mempool_tx in *. cbn in *. f_equal; [exact Ho |].
  rewrite Hsp. apply set_eq. intros x. rewrite elem_of_difference, elem_of_list_to_set, list_elem_of_fmap.
  split; [naive_solver |]. intros Hx. split; [done |]. intros (i & -> & Hi). by apply (Hs i).
Qed.

(** ** Every use of the view *)
Inductive view_step c : CoinsViewCache -> Prop :=
| step_get o c' coin : get_coin o c = Ok (c', coin) -> view_step c c'
| step_ensure os c' : ensure_coins os c = Ok c' -> view_step c c'
| step_add tx : Z.of_nat (length (tx_output tx)) <= 2 ^ 32 -> view_step c (add_mempool_coins tx c)
| step_spend o : view_step c (spend_coin o c)
| step_remove_tx tx : Z.of_nat (length (tx_output tx)) <= 2 ^ 32 -> view_step c (remove_mempool_tx tx c)
| step_connected h : view_step c (on_block_connected h c).

Lemma runtime_unavailable {A} c os e (f : list (option Coin) -> res MempoolError A) :
  runtime_state (best_block c) = inl e ->
  (coins ← map_err RuntimeApiError (of_sum (api_get_utxos (best_block c) os)); f coins) =
  Err (RuntimeApiError e).
Proof. intros He. unfold api_get_utxos. by rewrite He. Qed.

Lemma get_coin_coherent c o c' coin : coherent c -> get_coin o c = Ok (c', coin) -> coherent c'.
Proof.
  intros Hc. destruct (runtime_state (best_block c)) as [e | st] eqn:Hst.
  - unfold get_coin. case_bool_decide; [naive_solver |].
    destruct (mempool_overlay c !! o); [naive_solver |].
    destruct (lru_peek (base_cache c) o); [naive_solver |].
    unfold fetch_from_runtime. by rewrite (runtime_unavailable c _ e _ Hst).
  - destruct (get_coin_spec c o st Hc Hst) as (c1 & -> & ? & _). naive_solver.
Qed.

Lemma ensure_coins_coherent c os c' : coherent c -> ensure_coins os c = Ok c' -> coherent c'.
Proof.
  intros Hc. destruct (runtime_state (best_block c)) as [e | st] eqn:Hst.
  - unfold ensure_coins. destruct (filter _ os); [naive_solver |].
    unfold batch_fetch_from_runtime. by rewrite (runtime_unavailable c _ e _ Hst).
  - destruct (ensure_coins_spec c os st Hc Hst) as (c1 & -> & ? & _). naive_solver.
Qed.

Lemma view_step_coherent c c' : view_step c c' -> coherent c -> coherent c'.
Proof.
  destruct 1; intros Hc; eauto using get_coin_coherent, ensure_coins_coherent.
  intros o v Hp. cbn in Hp. by rewrite lru_peek_clear in Hp.
Qed.

(** C16: Whatever lookups, prefetches, added, spent and removed transactions
    and new blocks came before, a lookup where the runtime answers returns
    exactly the abstract view: nothing for an output that a pending transaction
    spends, else the pending output, else the coin of the runtime at the best
    block; and adding or removing a transaction changes the view by its outputs
    (and releases its spends).  The cache is not observable. *)
Theorem coins_view_refines best_hash cache_size c st o :
  rtc view_step (coins_view_new best_hash cache_size) c ->
  runtime_state (best_block c) = inr st ->
  (exists c', get_coin o c = Ok (c', view st c o) /\ same_overlay c c') /\
  (forall tx, Z.of_nat (length (tx_output tx)) <= 2 ^ 32 ->
     view st (add_mempool_coins tx c) o =
       (if decide (o ∈ mempool_spends c) then None
        else match pending_output tx o with Some coin => Some coin | None => view st c o end) /\
     view st (remove_mempool_tx tx c) o =
       (if decide (o ∈ mempool_spends c /\ o ∉ map previous_output (tx_input tx)) then None
        else match pending_output tx o with
             | Some _ => chain_coin st o
             | None => match mempool_overlay c !! o with Some coin => Some coin | None => chain_coin st o end
             end)).
Proof.
  intros Hr Hst. assert (Hc : coherent c).
  { assert (H0' : coherent (coins_view_new best_hash cache_size)).
    { intros o' v Hp. cbn in Hp. by rewrite lru_peek_new in Hp. }
    revert H0'. clear Hst. induction Hr; eauto using view_step_coherent. }
  split.
  - destruct (get_coin_spec c o st Hc Hst) as (c' & Hg & _ & Hso). eauto.
  - intros tx Hl. unfold view. rewrite add_mempool_coins_lookup, remove_mempool_tx_lookup by done.
    rewrite remove_mempool_tx_spends. split.
    + cbn [add_mempool_coins mempool_spends]. case_decide; [done |]. by destruct (pending_output tx o).
    + rewrite (decide_ext _ (o ∈ mempool_spends c /\ o ∉ map previous_output (tx_input tx))) by set_solver.
      case_decide; [done |]. by destruct (pending_output tx o).
Qed.
End view.

(** ** A concrete instance: a cache that keeps everything, and a runtime with
    one coin at every block. *)
Module SampleView.
Definition lru_api : LruApi := {|
  lru := gmap OutPoint (option PoolCoin);
  lru_new _ := ∅;
  lru_peek c o := c !! o;
  lru_insert o v c := <[o := v]> c;
  lru_clear _ := ∅;
  lru_len c := Z.of_nat (size c);
|}.
#[export] Existing Instance lru_api.

#[export] Instance lru_laws : LruLaws.
Proof.
  split; cbn; intros; try apply lookup_empty.
  match goal with H : _ = Some _ |- _ => apply lookup_insert_Some in H end. naive_solver.
Qed.

Definition state : PalletState :=
  mk_pallet (<[Runtime.out_point_from (mk_outpoint [7] 0) := mk_coin false 5000 1 [0x51]]> ∅) 1.

Definition states : RuntimeStates := {| runtime_state _ := inr state |}.
#[export] Existing Instance states.
End SampleView.

Import (hints) SampleTx SampleView.

Lemma coins_view_refines_witness :
  let c := coins_view_new [1] 10 in
  exists c', get_coin (mk_outpoint [7] 0) c = Ok (c', Some (mk_pool_coin (mk_txout 5000 [0x51]) 1 false 0)) /\
    same_overlay c c'.
Proof.
  assert (Hst : runtime_state (best_block (coins_view_new [1] 10)) = inr SampleView.state) by reflexivity.
  exact (proj1 (coins_view_refines [1] 10 (coins_view_new [1] 10) SampleView.state (mk_outpoint [7] 0)
    (rtc_refl _ _) Hst)).
Defined.
