(* ===== verification/Policy.v ===== *)
(** * Relay policy ([crates/subcoin-mempool/src/policy.rs])

    Which transactions are standard.  [is_standard_tx_spec] characterises what
    is accepted; a script on which the classification panics makes the check
    panic as well. *)

From Stdlib Require Import ZArith Lia.
From stdpp Require Import prelude.
From S2P Require Import Prelude Opcode ScriptTypes Bitcoin Sample Solver MempoolTypes Arena.

Definition TX_MAX_STANDARD_VERSION : Z := 3.
Definition MAX_STANDARD_TX_WEIGHT : Z := 400000.
Definition MAX_STANDARD_SCRIPTSIG_SIZE : Z := 1650.
Definition MIN_STANDARD_TX_NONWITNESS_SIZE : Z := 65.

Section policy.
Context `{!ScriptApi, !TxApi, !PoolTxApi}.

Definition is_standard (which_type : TxoutType) (script_pubkey : bytes) (max_datacarrier_bytes : Z) : bool :=
  match which_type with
  | NonStandard => false
  | Multisig m n _ =>
      if (n <? 1) || (3 <? n) then false
      else if (m <? 1) || (n <? m) then false
      else true
  | NullData =>
      negb ((0 <? max_datacarrier_bytes) && (max_datacarrier_bytes <? Z.of_nat (length script_pubkey)))
  | _ => true
  end.

(** Virtual bytes it takes to spend an output of a type. *)
Definition spend_vbytes (t : TxoutType) : Z :=
  match t with
  | PubKey _ | PubKeyHash _ => 148
  | WitnessV0KeyHash _ => 68
  | WitnessV0ScriptHash _ => 104
  | ScriptHash _ => 91
  | WitnessV1Taproot _ => 58
  | _ => 148
  end.

Definition get_dust_threshold {E} (txout : TxOut) (dust_relay_feerate : FeeRate) : res E Z :=
  t ← solve (script_pubkey txout);
  get_fee dust_relay_feerate (spend_vbytes t).

Definition is_dust {E} (output : TxOut) (dust_relay_feerate : FeeRate) : res E bool :=
  dust_threshold ← get_dust_threshold output dust_relay_feerate;
  Ok (value output <? dust_threshold).

Fixpoint check_standard_inputs (inputs : list TxIn) : res StandardTxError unit :=
  match inputs with
  | [] => Ok tt
  | input :: inputs =>
      reject_if (MAX_STANDARD_SCRIPTSIG_SIZE <? Z.of_nat (length (script_sig input))) StdScriptsigSize;;
      reject_if (negb (is_push_only (script_sig input))) StdScriptsigNotPushonly;;
      check_standard_inputs inputs
  end.

(** The count of data outputs, and the two types with a rule of their own. *)
Definition check_output_type (which_type : TxoutType) (permit_bare_multisig : bool) (data_out : Z) :
    res StandardTxError Z :=
  match which_type with
  | NullData =>
      let data_out := data_out + 1 in
      reject_if (1 <? data_out) StdMultiOpReturn;;
      Ok data_out
  | Multisig _ _ _ =>
      reject_if (negb permit_bare_multisig) StdBareMultisig;;
      Ok data_out
  | _ => Ok data_out
  end.

Fixpoint check_standard_outputs (max_datacarrier_bytes : Z) (permit_bare_multisig : bool)
    (dust_relay_feerate : FeeRate) (outputs : list TxOut) (data_out : Z) : res StandardTxError unit :=
  match outputs with
  | [] => Ok tt
  | output :: outputs =>
      which_type ← solve (script_pubkey output);
      reject_if (negb (is_standard which_type (script_pubkey output) max_datacarrier_bytes))
        StdScriptPubkey;;
      data_out ← check_output_type which_type permit_bare_multisig data_out;
      dust ← is_dust output dust_relay_feerate;
      reject_if dust StdDust;;
      check_standard_outputs max_datacarrier_bytes permit_bare_multisig dust_relay_feerate outputs data_out
  end.

Definition is_standard_tx (tx : Transaction) (max_datacarrier_bytes : Z) (permit_bare_multisig : bool)
    (dust_relay_feerate : FeeRate) : res StandardTxError unit :=
  reject_if ((tx_version tx <? 1) || (TX_MAX_STANDARD_VERSION <? tx_version tx)) StdVersion;;
  reject_if (MAX_STANDARD_TX_WEIGHT <? weight tx) StdTxSizeTooLarge;;
  reject_if (base_size tx <? MIN_STANDARD_TX_NONWITNESS_SIZE) StdTxSizeTooSmall;;
  check_standard_inputs (tx_input tx);;
  check_standard_outputs max_datacarrier_bytes permit_bare_multisig dust_relay_feerate (tx_output tx) 0.

(** ** What is standard *)

(** An output under the policy: its type is known and allowed, and its value
    covers what it costs to spend it. *)
Record standard_output (max_data : Z) (bare : bool) (rate : FeeRate) (out : TxOut) (t : TxoutType) : Prop := {
  so_type : solve (E := StandardTxError) (script_pubkey out) = Ok t;
  so_standard : is_standard t (script_pubkey out) max_data = true;
  so_multisig m n keys : t = Multisig m n keys -> bare = true;
  so_dust : as_sat_per_kvb rate * spend_vbytes t / 1000 <= value out;
}.

Definition is_null_data (t : TxoutType) : bool := match t with NullData => true | _ => false end.

Record standard_tx (max_data : Z) (bare : bool) (rate : FeeRate) (tx : Transaction) : Prop := {
  st_version : 1 <= tx_version tx <= 3;
  st_weight : weight tx <= MAX_STANDARD_TX_WEIGHT;
  st_base : MIN_STANDARD_TX_NONWITNESS_SIZE <= base_size tx;
  st_inputs : Forall (fun i => Z.of_nat (length (script_sig i)) <= MAX_STANDARD_SCRIPTSIG_SIZE /\
                               is_push_only (script_sig i) = true) (tx_input tx);
  st_outputs : exists ts, Forall2 (standard_output max_data bare rate) (tx_output tx) ts /\
                          (length (filter (fun t => is_null_data t = true) ts) <= 1)%nat;
}.

Lemma check_standard_inputs_spec ins :
  no_panic (check_standard_inputs ins) /\
  (check_standard_inputs ins = Ok tt <->
   Forall (fun i => Z.of_nat (length (script_sig i)) <= MAX_STANDARD_SCRIPTSIG_SIZE /\
                    is_push_only (script_sig i) = true) ins).
Proof.
  induction ins as [| i ins [IHn IH]]; cbn [check_standard_inputs].
  { split; [done |]. split; [intros _; apply Forall_nil_2 | done]. }
  rewrite Forall_cons, <- IH.
  destruct (Z.ltb_spec MAX_STANDARD_SCRIPTSIG_SIZE (Z.of_nat (length (script_sig i)))); rcbn.
  { split; [done |]. split; [done |]. intros [[? _] _]. lia. }
  destruct (is_push_only (script_sig i)); cbn; [| split; [done |]; split; [done | naive_solver]].
  split; [done |]. naive_solver.
Qed.

Lemma spend_vbytes_bounds t : 58 <= spend_vbytes t <= 148.
Proof. destruct t; cbn; lia. Qed.

Lemma dust_fee {E} rate t :
  0 <= as_sat_per_kvb rate < 2 ^ 56 ->
  get_fee (E := E) rate (spend_vbytes t) = Ok (as_sat_per_kvb rate * spend_vbytes t / 1000).
Proof.
  intros Hr. pose proof (spend_vbytes_bounds t). apply get_fee_spec; [lia | |]; unfold u64_max; nia.
Qed.

(** One output. *)
Lemma check_output_spec max_data bare rate out d (f : Z -> res StandardTxError unit) :
  0 <= as_sat_per_kvb rate < 2 ^ 56 -> 0 <= d <= 1 ->
  (which_type ← solve (script_pubkey out);
   reject_if (negb (is_standard which_type (script_pubkey out) max_data)) StdScriptPubkey;;
   data_out ← check_output_type which_type bare d;
   dust ← is_dust out rate;
   reject_if dust StdDust;; f data_out) = Ok tt <->
  exists t, standard_output max_data bare rate out t /\
    d + Z.b2z (is_null_data t) <= 1 /\ f (d + Z.b2z (is_null_data t)) = Ok tt.
Proof.
  intros Hr Hd. unfold is_dust, get_dust_threshold. split.
  - intros H'. inv_ok.
    match goal with H : solve _ = Ok ?y, H0 : solve _ = Ok ?z |- _ => assert (z = y) as -> by congruence end.
    rewrite dust_fee in * by done. inv_ok. apply negb_false_iff in H3. apply Z.ltb_ge in H6.
    exists x. unfold check_output_type in *.
    destruct x; cbn in *; inv_ok; rewrite ?Z.add_0_r; (split; [split; naive_solver | split; [lia | done]]) ||
      idtac.
    all: try (match goal with H : (1 <? _) = false |- _ => apply Z.ltb_ge in H end).
    all: split; [split; try done; intros; destruct bare; naive_solver | split; [lia | done]].
  - intros (t & [Ht Hs Hm Hdust] & Hle & Hf). rewrite Ht. rcbn. rewrite Hs. cbn [negb]. rcbn.
    rewrite dust_fee by done. rcbn. rewrite (proj2 (Z.ltb_ge _ _) Hdust).
    unfold check_output_type. destruct t; cbn in *; rewrite ?Z.add_0_r in Hf; try exact Hf.
    + rewrite (Hm _ _ _ eq_refl). exact Hf.
    + rewrite (proj2 (Z.ltb_ge 1 (d + 1))) by lia. exact Hf.
Qed.

Lemma null_data_cons t ts :
  Z.of_nat (length (filter (fun t => is_null_data t = true) (t :: ts))) =
  Z.b2z (is_null_data t) + Z.of_nat (length (filter (fun t => is_null_data t = true) ts)).
Proof. rewrite filter_cons. destruct (is_null_data t); case_decide; try done; cbn [length Z.b2z]; lia. Qed.

Lemma check_standard_outputs_spec max_data bare rate outs d :
  0 <= as_sat_per_kvb rate < 2 ^ 56 -> 0 <= d <= 1 ->
  check_standard_outputs max_data bare rate outs d = Ok tt <->
  exists ts, Forall2 (standard_output max_data bare rate) outs ts /\
    d + Z.of_nat (length (filter (fun t => is_null_data t = true) ts)) <= 1.
Proof.
  intros Hr. revert d. induction outs as [| out outs IH]; intros d Hd; cbn [check_standard_outputs].
  { split; [intros _; exists []; split; [constructor | cbn; lia] | done]. }
  rewrite (check_output_spec max_data bare rate out d
    (check_standard_outputs max_data bare rate outs)) by done.
  split.
  - intros (t & Ht & Hle & Hok). apply IH in Hok as (ts & Hts & Hn); [| destruct (is_null_data t); cbn in *; lia].
    exists (t :: ts). split; [by constructor |]. rewrite null_data_cons. lia.
  - intros (ts' & Hall & Hn). apply Forall2_cons_inv_l in Hall as (t & ts & Ht & Hts & ->).
    rewrite null_data_cons in Hn. exists t. split; [done |]. split; [lia |].
    apply IH; [destruct (is_null_data t); cbn in *; lia |]. exists ts. split; [done | lia].
Qed.

(** A transaction is standard exactly when its version is 1 to 3, its
    weight and stripped size are within the limits, its input scripts are short
    and push only, every output has an allowed type, a permitted size, and at
    least the value that its spending would cost at the dust rate, bare multisig
    only where permitted, and at most one output carries data. *)
Lemma is_standard_tx_spec max_data bare rate tx :
  0 <= as_sat_per_kvb rate < 2 ^ 56 ->
  is_standard_tx tx max_data bare rate = Ok tt <-> standard_tx max_data bare rate tx.
Proof.
  intros Hr. unfold is_standard_tx, TX_MAX_STANDARD_VERSION. split.
  - intros H'. inv_ok.
    repeat match goal with
    | H : (_ || _) = false |- _ => apply orb_false_iff in H as [? ?]
    | H : (_ <? _) = false |- _ => apply Z.ltb_ge in H
    | H : check_standard_inputs _ = Ok ?u |- _ => destruct u; apply check_standard_inputs_spec in H
    | H : check_standard_outputs _ _ _ _ _ = Ok _ |- _ =>
        apply check_standard_outputs_spec in H as (ts & ? & ?); [| lia | lia]
    end.
    split; try done; try lia. exists ts. split; [done | lia].
  - intros [Hv Hw Hb Hi (ts & Ho & Hn)].
    rewrite (proj2 (Z.ltb_ge (tx_version tx) 1)), (proj2 (Z.ltb_ge 3 (tx_version tx))) by lia.
    rewrite (proj2 (Z.ltb_ge _ _) Hw), (proj2 (Z.ltb_ge _ _) Hb). cbn [orb]. rcbn.
    rewrite (proj2 (proj2 (check_standard_inputs_spec _)) Hi). rcbn.
    apply check_standard_outputs_spec; [lia | lia |]. exists ts. split; [done | lia].
Qed.
End policy.

Import (hints) Sample SampleTx SamplePool.

(** A payment to two script hashes. *)
Definition sample_standard : Transaction :=
  let p2sh := 0xa9 :: 20 :: replicate 20 7 ++ [0x87] in
  mk_tx 2 0 [mk_txin (mk_outpoint [7] 0) [] 0 []] [mk_txout 3000 p2sh; mk_txout 91 p2sh].

Lemma is_standard_tx_spec_witness : standard_tx 83 true (mk_feerate 1000) sample_standard.
Proof.
  assert (Hr : 0 <= as_sat_per_kvb (mk_feerate 1000) < 2 ^ 56) by (cbn; lia).
  apply (is_standard_tx_spec 83 true (mk_feerate 1000) sample_standard Hr).
  vm_compute. reflexivity.
Defined.
