(* ===== verification/Validation.v ===== *)
(** * Acceptance of a transaction into the memory pool

    [crates/subcoin-mempool/src/validation.rs], the part that deals with one
    transaction: preliminary checks, replacement policy, package limits, script
    checks, relative lock times and the addition to the pool.  What a function
    does to the state before it fails is kept: computations are functions of the
    state that return an outcome and the state they leave. *)

From Stdlib Require Import ZArith Lia.
From stdpp Require Import prelude gmap sorting lexico.
From S2P Require Import Prelude Collections Bitcoin Runtime ScriptTypes TxSanity Interpreter SigChecker Pallet.
From S2P Require Import MempoolTypes Arena MempoolInner CoinsView Policy.

(** ** Computations with state *)

Definition SM (S A : Type) : Type := S -> res MempoolError A * S.

#[export] Instance sm_ret {S} : MRet (SM S) := fun A a s => (Ok a, s).
#[export] Instance sm_bind {S} : MBind (SM S) := fun A B f m s =>
  match m s with
  | (Ok a, s) => f a s
  | (Err e, s) => (Err e, s)
  | (Panic, s) => (Panic, s)
  end.

(** A computation that does not touch the state. *)
Definition lift {S A} (r : res MempoolError A) : SM S A := fun s => (r, s).
Definition modify {S} (f : S -> S) : SM S unit := fun s => (Ok tt, f s).
Definition gets {S A} (f : S -> A) : SM S A := fun s => (Ok (f s), s).

(** A [for] loop. *)
Fixpoint sm_fold {S A B} (f : A -> B -> SM S B) (l : list A) (b : B) : SM S B :=
  match l with
  | [] => mret b
  | x :: l => b ← f x b; sm_fold f l b
  end.

Lemma sm_bind_Ok {S A B} (m : SM S A) (f : A -> SM S B) s b s' :
  (x ← m; f x) s = (Ok b, s') <-> exists a s1, m s = (Ok a, s1) /\ f a s1 = (Ok b, s').
Proof. unfold mbind, sm_bind. destruct (m s) as [[]]; naive_solver. Qed.

Lemma sm_ret_Ok {S A} (a : A) (s : S) b s' : (mret a : SM S A) s = (Ok b, s') <-> b = a /\ s' = s.
Proof. unfold mret, sm_ret. naive_solver. Qed.

Lemma lift_Ok {S A} (r : res MempoolError A) (s : S) a s' : lift r s = (Ok a, s') <-> r = Ok a /\ s' = s.
Proof. unfold lift. naive_solver. Qed.

Lemma modify_Ok {S} (f : S -> S) s u s' : modify f s = (Ok u, s') <-> s' = f s.
Proof. unfold modify. destruct u. naive_solver. Qed.

Lemma gets_Ok {S A} (f : S -> A) (s : S) a s' : gets f s = (Ok a, s') <-> a = f s /\ s' = s.
Proof. unfold gets. naive_solver. Qed.

(** Split the successful steps of a computation. *)
Ltac inv_sm :=
  repeat match goal with
  | H : (_ ≫= _) _ = (Ok _, _) |- _ => apply sm_bind_Ok in H; destruct H as (? & ? & ? & H)
  | H : lift _ _ = (Ok _, _) |- _ => apply lift_Ok in H; destruct H as [H ?]
  | H : modify _ _ = (Ok _, _) |- _ => apply modify_Ok in H
  | H : gets _ _ = (Ok _, _) |- _ => apply gets_Ok in H; destruct H as [? ?]
  | H : mret _ _ = (Ok _, _) |- _ => apply sm_ret_Ok in H; destruct H as [? ?]
  end; subst; inv_ok.

(** ** The workspace *)

Record ValidationWorkspace := mk_ws {
  ws_tx : Transaction;
  ws_base_fee : Z;
  ws_modified_fee : Z;
  ws_tx_weight : Z;
  ws_vsize : Z;
  ws_sigop_cost : Z;
  ws_lock_points : LockPoints;
  ws_spends_coinbase : bool;
  ws_ancestors : gset EntryId;
  ws_conflicts : gset bytes;
  ws_conflict_set : option ConflictSet;
}.

Definition MAX_STANDARD_TX_SIGOPS_COST : Z := 80000.
Definition COINBASE_MATURITY : Z := 100.

(** BIP 68. *)
Definition SEQUENCE_LOCKTIME_DISABLE_FLAG : Z := Z.shiftl 1 31.
Definition SEQUENCE_LOCKTIME_TYPE_FLAG : Z := Z.shiftl 1 22.
Definition SEQUENCE_LOCKTIME_MASK : Z := 0x0000ffff.
Definition SEQUENCE_LOCKTIME_GRANULARITY : Z := 512.

(** Checks of the lock time, as in the block verifier. *)
Definition is_final_tx (tx : Transaction) (height block_time : Z) : bool :=
  if tx_lock_time tx =? 0 then true
  else
    let lock_time_limit := if tx_lock_time tx <? LOCK_TIME_THRESHOLD then height else block_time in
    if tx_lock_time tx <? lock_time_limit then true
    else forallb (fun txin => sequence txin =? u32_max) (tx_input tx).

(** [Vec::dedup]: equal neighbours become one. *)
Fixpoint dedup (l : list bytes) : list bytes :=
  match l with
  | x :: ((y :: _) as tl) => if bool_decide (x = y) then dedup tl else x :: dedup tl
  | _ => l
  end.

Definition mandatory_script_verify_flags : Z :=
  foldr Z.lor 0 [VerifyFlags.P2SH; VerifyFlags.DERSIG; VerifyFlags.NULLDUMMY;
    VerifyFlags.CHECKLOCKTIMEVERIFY; VerifyFlags.CHECKSEQUENCEVERIFY; VerifyFlags.WITNESS;
    VerifyFlags.TAPROOT].

Definition standard_script_verify_flags : Z :=
  foldr Z.lor mandatory_script_verify_flags [VerifyFlags.STRICTENC; VerifyFlags.LOW_S;
    VerifyFlags.SIGPUSHONLY; VerifyFlags.MINIMALDATA; VerifyFlags.MINIMALIF; VerifyFlags.NULLFAIL;
    VerifyFlags.WITNESS_PUBKEYTYPE; VerifyFlags.CLEANSTACK; VerifyFlags.DISCOURAGE_UPGRADABLE_NOPS;
    VerifyFlags.DISCOURAGE_UPGRADABLE_WITNESS_PROGRAM;
    VerifyFlags.DISCOURAGE_UPGRADABLE_TAPROOT_VERSION;
    VerifyFlags.DISCOURAGE_UPGRADABLE_PUBKEYTYPE; VerifyFlags.DISCOURAGE_OP_SUCCESS;
    VerifyFlags.CONST_SCRIPTCODE].

Section validation.
Context `{!ScriptApi, !HashApi, !KeyApi, !SighashApi}.
Context `{!TxApi, !PoolTxApi, !SlotKeys, !HashOrder, !LruApi, !RuntimeStates}.
Implicit Types (ws : ValidationWorkspace) (inner : MemPoolInner) (options : MemPoolOptions).

Definition ws_new (tx : Transaction) : ValidationWorkspace :=
  let tx_weight := weight tx in
  mk_ws tx 0 0 tx_weight (wrap_i64 (to_vbytes_ceil tx_weight)) 0 lock_points_default false ∅ ∅ None.

Definition set_conflicts (conflicts : gset bytes) ws : ValidationWorkspace :=
  mk_ws (ws_tx ws) (ws_base_fee ws) (ws_modified_fee ws) (ws_tx_weight ws) (ws_vsize ws)
    (ws_sigop_cost ws) (ws_lock_points ws) (ws_spends_coinbase ws) (ws_ancestors ws) conflicts
    (ws_conflict_set ws).
Definition set_conflict_set (cs : ConflictSet) ws : ValidationWorkspace :=
  mk_ws (ws_tx ws) (ws_base_fee ws) (ws_modified_fee ws) (ws_tx_weight ws) (ws_vsize ws)
    (ws_sigop_cost ws) (ws_lock_points ws) (ws_spends_coinbase ws) (ws_ancestors ws) (ws_conflicts ws)
    (Some cs).
Definition set_computed (base_fee sigop_cost : Z) (lock_points : LockPoints) (spends_coinbase : bool) ws :
    ValidationWorkspace :=
  mk_ws (ws_tx ws) base_fee base_fee (ws_tx_weight ws) (ws_vsize ws)
    sigop_cost lock_points spends_coinbase (ws_ancestors ws) (ws_conflicts ws) (ws_conflict_set ws).

(** The coins cache is the second part of the state. *)
Definition lookup_coin {W} (o : OutPoint) : SM (W * CoinsViewCache) (option PoolCoin) := fun '(w, c) =>
  match get_coin o c with
  | Ok (c, coin) => (Ok coin, (w, c))
  | Err e => (Err e, (w, c))
  | Panic => (Panic, (w, c))
  end.

Definition require_coin {W} (o : OutPoint) : SM (W * CoinsViewCache) PoolCoin :=
  coin ← lookup_coin o;
  lift (ok_or (MissingInputs [op_txid o]) coin).

Definition prefetch {W} (os : list OutPoint) : SM (W * CoinsViewCache) unit := fun '(w, c) =>
  match ensure_coins os c with
  | Ok c => (Ok tt, (w, c))
  | Err e => (Err e, (w, c))
  | Panic => (Panic, (w, c))
  end.

(** *** Replacement *)

Definition find_direct_conflicts inner (tx : Transaction) : gset EntryId :=
  foldl (fun acc input =>
    match get_conflict_tx inner (previous_output input) with
    | Some conflicting_txid =>
        match get_by_txid (arena inner) conflicting_txid with
        | Some entry_id => {[ entry_id ]} ∪ acc
        | None => acc
        end
    | None => acc
    end) ∅ (tx_input tx).

Definition require_replaceable inner (conflict_id : EntryId) (u : unit) : res MempoolError unit :=
  conflict_entry ← ok_or MissingConflict (arena_get (arena inner) conflict_id);
  reject_if (negb (signals_rbf conflict_entry)) TxNotReplaceable.

Definition add_replaced inner (conflict_id : EntryId) (acc : Z * Z * list Transaction) :
    res MempoolError (Z * Z * list Transaction) :=
  let '(fees, size, txs) := acc in
  entry ← ok_or MissingConflict (arena_get (arena inner) conflict_id);
  fees ← ok_or FeeOverflow (checked_u64 (fees + e_modified_fee entry));
  size ← add_i64 size (vsize entry);
  Ok (fees, size, txs ++ [e_tx entry]).

Definition new_unconfirmed inner (all : gset EntryId) (input : TxIn) : bool :=
  match get_by_txid (arena inner) (op_txid (previous_output input)) with
  | Some parent_id => negb (bool_decide (parent_id ∈ all))
  | None => false
  end.

Definition check_rbf_policy ws inner options : res MempoolError ConflictSet :=
  let tx := ws_tx ws in
  let direct := find_direct_conflicts inner tx in
  reject_if (bool_decide (direct = ∅)) NoConflictToReplace;;
  all ← rfold (calculate_descendants inner) (hash_iter direct) ∅;
  reject_if (opt_max_replacement_txs options <? Z.of_nat (size all))
    (TooManyReplacements (Z.of_nat (size all)));;
  rfold (require_replaceable inner) (hash_iter direct) tt;;
  '(fees, rsize, txs) ← rfold (add_replaced inner) (hash_iter all) (0, 0, []);
  reject_if (existsb (new_unconfirmed inner all) (tx_input tx)) NewUnconfirmedInput;;
  reject_if (ws_modified_fee ws <=? fees) (InsufficientFee (ReplacementFee (ws_modified_fee ws) fees));;
  let min_relay_rate := min_relay_fee_rate options in
  own_bandwidth_fee ← get_fee min_relay_rate (ws_vsize ws);
  additional_fee_sat ← sub_i64 (wrap_i64 (ws_modified_fee ws)) (wrap_i64 fees);
  reject_if (additional_fee_sat <? wrap_i64 own_bandwidth_fee)
    (InsufficientFee (OwnBandwidth (wrap_u64 additional_fee_sat) own_bandwidth_fee));;
  replaced_bandwidth_fee ← get_fee min_relay_rate rsize;
  reject_if (additional_fee_sat <? wrap_i64 replaced_bandwidth_fee)
    (InsufficientFee (ReplacedBandwidth (wrap_u64 additional_fee_sat) replaced_bandwidth_fee));;
  Ok (mk_conflict_set direct all txs fees rsize).

(** *** Relative lock times *)

(** One input: the lock height and time so far. *)
Definition lock_point_input {W} (input : TxIn) (locks : Z * Z) : SM (W * CoinsViewCache) (Z * Z) :=
  coin ← require_coin (previous_output input);
  let seq := sequence input in
  let disabled := negb (Z.land seq SEQUENCE_LOCKTIME_DISABLE_FLAG =? 0) in
  lift (reject_if (pc_is_coinbase coin && negb disabled) NonBIP68Final);;
  if disabled then mret locks
  else
    let masked_sequence := Z.land seq SEQUENCE_LOCKTIME_MASK in
    if Z.land seq SEQUENCE_LOCKTIME_TYPE_FLAG =? 0 then
      h ← lift (ok_or NonBIP68Final (checked_u32 (pc_height coin + masked_sequence)));
      coin_lock_height ← lift (ok_or NonBIP68Final (checked_u32 (h + 1)));
      mret (locks.1 `max` wrap_i32 coin_lock_height, locks.2)
    else
      offset ← lift (ok_or NonBIP68Final (checked_i64 (masked_sequence * SEQUENCE_LOCKTIME_GRANULARITY)));
      coin_lock_time ← lift (ok_or NonBIP68Final (checked_i64 (pc_median_time_past coin + offset)));
      mret (locks.1, locks.2 `max` coin_lock_time).

Definition calculate_lock_points_at_tip {W} (tx : Transaction) (current_height current_mtp : Z) :
    SM (W * CoinsViewCache) LockPoints :=
  '(lock_height, lock_time) ← sm_fold lock_point_input (tx_input tx) (-1, 0);
  lift (reject_if ((0 <? lock_height) && (wrap_i32 current_height <? lock_height)) NonBIP68Final);;
  lift (reject_if ((0 <? lock_time) && (current_mtp <? lock_time)) NonBIP68Final);;
  mret (mk_lock_points lock_height lock_time None).

(** *** Preliminary checks *)

(** One input of step 9: the value in, whether a coinbase is spent, the spent
    outputs. *)
Definition input_value {W} (current_height : Z) (outpoint : OutPoint)
    (acc : Z * bool * gmap OutPoint TxOut) : SM (W * CoinsViewCache) (Z * bool * gmap OutPoint TxOut) :=
  let '(total, spends_coinbase, prev_outputs) := acc in
  coin ← require_coin outpoint;
  total ← lift (ok_or FeeOverflow (checked_u64 (total + value (pc_output coin))));
  let prev_outputs := <[outpoint := pc_output coin]> prev_outputs in
  if pc_is_coinbase coin then
    let coin_age := (current_height - pc_height coin) `max` 0 in
    lift (reject_if (coin_age <? COINBASE_MATURITY) NonFinal);;
    mret (total, true, prev_outputs)
  else mret (total, spends_coinbase, prev_outputs).

(** [Iterator::sum] of amounts. *)
Fixpoint sum_amounts (l : list Z) (acc : Z) : res MempoolError Z :=
  match l with
  | [] => Ok acc
  | z :: l => acc ← expect (checked_u64 (acc + z)); sum_amounts l acc
  end.

Definition pre_checks inner options (current_height current_mtp now : Z) :
    SM (ValidationWorkspace * CoinsViewCache) unit :=
  tx ← gets (fun s => ws_tx s.1);
  lift (map_err PoolTxError (check_transaction_sanity tx));;
  lift (reject_if (is_coinbase tx) CoinbaseNotAllowed);;
  lift (if opt_require_standard options then
          map_err NotStandard (is_standard_tx tx (opt_max_datacarrier_bytes options)
            (opt_permit_bare_multisig options) (from_sat_per_kvb (opt_dust_relay_feerate options)))
        else Ok tt);;
  lift (reject_if (contains_wtxid inner (compute_wtxid tx)) AlreadyInMempool);;
  lift (reject_if (contains_txid inner (compute_txid tx)) AlreadyInMempool);;
  let conflicts := omap (fun input => get_conflict_tx inner (previous_output input)) (tx_input tx) in
  modify (fun s => (set_conflicts (list_to_set conflicts ∪ ws_conflicts s.1) s.1, s.2));;
  (if bool_decide (conflicts = []) then mret tt
   else
     lift (reject_if (negb (opt_enable_rbf options)) TxConflict);;
     ws ← gets fst;
     conflict_set ← lift (check_rbf_policy ws inner options);
     modify (fun s => (set_conflict_set conflict_set s.1, s.2)));;
  let outpoints := map previous_output (tx_input tx) in
  prefetch outpoints;;
  missing ← gets (fun s => map op_txid (filter (fun o => have_coin o s.2 = false) outpoints));
  lift (reject_if (negb (bool_decide (missing = []))) (MissingInputs (dedup (merge_sort lex_le missing))));;
  '(total_in, spends_coinbase, prev_outputs) ←
    sm_fold (input_value current_height) outpoints (0, false, ∅);
  output_value ← lift (sum_amounts (map value (tx_output tx)) 0);
  lift (reject_if (total_in <? output_value) NegativeFee);;
  base_fee ← lift (ok_or FeeOverflow (checked_u64 (total_in - output_value)));
  let min_rate := min_relay_fee_rate options in
  vsize ← gets (fun s => ws_vsize s.1);
  min_fee ← lift (get_fee min_rate vsize);
  lift (if base_fee <? min_fee then
          actual ← map_err InvalidFeeRate (from_amount_and_vsize base_fee vsize);
          Err (FeeTooLow (as_sat_per_kvb min_rate) (as_sat_per_kvb actual))
        else Ok tt);;
  lift (reject_if (negb (is_final_tx tx current_height (wrap_u32 now))) NonFinal);;
  let sigop_cost := total_sigop_cost tx (fun o => prev_outputs !! o) in
  sigop_cost ← lift (expect (checked_i64 sigop_cost));
  lift (reject_if (MAX_STANDARD_TX_SIGOPS_COST <? sigop_cost) (TooManySigops sigop_cost));;
  lock_points ← calculate_lock_points_at_tip tx current_height current_mtp;
  modify (fun s => (set_computed base_fee sigop_cost lock_points spends_coinbase s.1, s.2)).

(** *** Package limits *)

(** The ancestors of the inputs of a transaction. *)
Definition input_ancestors inner (tx : Transaction) : res MempoolError (gset EntryId) :=
  rfold (fun input ancestors =>
    match get_by_txid (arena inner) (op_txid (previous_output input)) with
    | Some parent_id => calculate_ancestors inner parent_id ancestors
    | None => Ok ancestors
    end) (tx_input tx) ∅.

Definition check_descendants ws inner options (ancestor_id : EntryId) (u : unit) : res MempoolError unit :=
  entry ← expect (arena_get (arena inner) ancestor_id);
  new_desc_count ← add_u64 (e_count_with_descendants entry) 1;
  new_desc_size ← add_i64 (e_size_with_descendants entry) (ws_vsize ws);
  reject_if (max_descendants options <? new_desc_count) (TooManyDescendants new_desc_count);;
  reject_if (max_descendant_size options <? new_desc_size) (DescendantSizeTooLarge new_desc_size).

Definition check_package_limits ws inner options : res MempoolError unit :=
  ancestors ← input_ancestors inner (ws_tx ws);
  let ancestor_count := Z.of_nat (size ancestors) + 1 in
  reject_if (max_ancestors options <? ancestor_count) (TooManyAncestors ancestor_count);;
  ancestor_size ← rfold (fun id acc =>
    match arena_get (arena inner) id with
    | Some entry => add_i64 acc (vsize entry)
    | None => Ok acc
    end) (hash_iter ancestors) (ws_vsize ws);
  reject_if (max_ancestor_size options <? ancestor_size) (AncestorSizeTooLarge ancestor_size);;
  rfold (check_descendants ws inner options) (hash_iter ancestors) tt.

(** *** Scripts *)

Fixpoint check_inputs {W} (tx : Transaction) (flags : Z) (input_index : nat) (inputs : list TxIn) :
    SM (W * CoinsViewCache) unit :=
  match inputs with
  | [] => mret tt
  | txin :: inputs =>
      coin ← require_coin (previous_output txin);
      lift (map_err (ScriptValidationFailed input_index)
        (verify_script
           (H2 := transaction_checker (new_checker tx input_index (value (pc_output coin))))
           (script_sig txin) (script_pubkey (pc_output coin)) (txin_witness txin) flags));;
      check_inputs tx flags (S input_index) inputs
  end.

(** *** Addition to the pool *)

(** The parents of a transaction and all their ancestors. *)
Definition find_parents inner (tx : Transaction) : gset EntryId :=
  foldl (fun acc input =>
    match get_by_txid (arena inner) (op_txid (previous_output input)) with
    | Some parent_id => {[ parent_id ]} ∪ acc
    | None => acc
    end) ∅ (tx_input tx).

Definition add_ancestor inner (ancestor_id : EntryId) (acc : Z * Z * Z * Z) :
    res MempoolError (Z * Z * Z * Z) :=
  let '(count, asize, fees, sigops) := acc in
  entry ← expect (arena_get (arena inner) ancestor_id);
  count ← add_u64 count 1;
  asize ← add_i64 asize (vsize entry);
  fees ← ok_or FeeOverflow (checked_u64 (fees + e_modified_fee entry));
  sigops ← add_i64 sigops (e_sigop_cost entry);
  Ok (count, asize, fees, sigops).

Definition new_entry ws (state : Z * Z * Z * Z) (parents : gset EntryId) (current_height current_time
    entry_block_mtp : Z) (entry_block_hash : bytes) (seq : Z) : TxMemPoolEntry :=
  let '(count, asize, fees, sigops) := state in
  mk_entry (ws_tx ws) (ws_base_fee ws) (ws_modified_fee ws) (ws_tx_weight ws) current_time
    current_height entry_block_mtp entry_block_hash seq (ws_spends_coinbase ws) (ws_sigop_cost ws)
    (ws_lock_points ws) count asize fees sigops 1 (ws_vsize ws) (ws_modified_fee ws) parents ∅
    (mk_anc_key (0, 1) (compute_txid (ws_tx ws))) (mk_desc_key (0, 1) current_time) None.

Definition with_inner {A} (f : MemPoolInner -> res MempoolError (A * MemPoolInner)) :
    SM (MemPoolInner * CoinsViewCache) A := fun '(inner, c) =>
  match f inner with
  | Ok (a, inner) => (Ok a, (inner, c))
  | Err e => (Err e, (inner, c))
  | Panic => (Panic, (inner, c))
  end.

(** The new entry and the state of its ancestors: [None] for an update that
    panicked. *)
Definition link_entry (ancestors : gset EntryId) ws (entry : TxMemPoolEntry) (a : MemPoolArena) :
    res MempoolError (MemPoolArena * EntryId) :=
  '(a, entry_id) ← insert entry a;
  let a := foldl (fun a parent_id => insert_child parent_id entry_id a) a (hash_iter ancestors) in
  let fee_delta := wrap_i64 (ws_modified_fee ws) in
  a ← rfold (fun id a => update_ancestor_state id (ws_vsize ws) fee_delta 1 (ws_sigop_cost ws) a)
        (hash_iter ancestors) a;
  a ← rfold (fun id a => update_descendant_state id (ws_vsize ws) fee_delta 1 a)
        (hash_iter ancestors) a;
  Ok (a, entry_id).

Definition remove_conflicting ws : SM (MemPoolInner * CoinsViewCache) unit :=
  match ws_conflict_set ws with
  | None => mret tt
  | Some conflict_set =>
      with_inner (fun inner =>
        inner ← remove_staged (all_conflicts conflict_set) true RemovalReplaced inner; Ok (tt, inner));;
      modify (fun s => (s.1, foldl (fun c tx => remove_mempool_tx tx c) s.2
        (removed_transactions conflict_set)))
  end.

Definition add_next_tx (tx : Transaction) (txid : bytes) (m : gmap OutPoint bytes) : gmap OutPoint bytes :=
  foldl (fun m input => <[previous_output input := txid]> m) m (tx_input tx).

Definition finalize_tx ws (current_height current_time entry_block_mtp : Z) (entry_block_hash : bytes)
    (seq : Z) : SM (MemPoolInner * CoinsViewCache) EntryId :=
  remove_conflicting ws;;
  inner ← gets fst;
  let parents := find_parents inner (ws_tx ws) in
  ancestors ← lift (input_ancestors inner (ws_tx ws));
  state ← lift (rfold (add_ancestor inner) (hash_iter ancestors)
                 (1, ws_vsize ws, ws_modified_fee ws, ws_sigop_cost ws));
  let entry := new_entry ws state parents current_height current_time entry_block_mtp
                 entry_block_hash seq in
  entry_id ← with_inner (fun inner =>
    '(a, entry_id) ← link_entry ancestors ws entry (arena inner);
    Ok (entry_id, with_arena a inner));
  let txid := compute_txid (ws_tx ws) in
  modify (fun s => (mk_inner (arena s.1) (add_next_tx (ws_tx ws) txid (map_next_tx s.1))
    (map_deltas s.1) (txns_randomized s.1) (unbroadcast s.1) (total_tx_size s.1) (total_fee s.1)
    (rolling_minimum_feerate s.1) (last_rolling_fee_update s.1),
    add_mempool_coins (ws_tx ws) s.2));;
  inner ← gets fst;
  total_size ← lift (add_u64 (total_tx_size inner) (ws_tx_weight ws));
  modify (fun s => (mk_inner (arena s.1) (map_next_tx s.1) (map_deltas s.1) (txns_randomized s.1)
    (unbroadcast s.1) total_size (total_fee s.1) (rolling_minimum_feerate s.1)
    (last_rolling_fee_update s.1), s.2));;
  fee ← lift (ok_or FeeOverflow (checked_u64 (total_fee inner + ws_base_fee ws)));
  modify (fun s => (mk_inner (arena s.1) (map_next_tx s.1) (map_deltas s.1) (txns_randomized s.1)
    ({[ txid ]} ∪ unbroadcast s.1) (total_tx_size s.1) fee (rolling_minimum_feerate s.1)
    (last_rolling_fee_update s.1), s.2));;
  mret entry_id.
End validation.
