(* ===== verification/ValidationFacts.v ===== *)
(** * Properties of the acceptance of a transaction *)

From Stdlib Require Import ZArith Lia.
From stdpp Require Import prelude gmap sorting lexico.
From S2P Require Import Prelude Collections Opcode Bitcoin Runtime ScriptTypes Sample Solver TxSanity Interpreter SigChecker Pallet.
From S2P Require Import MempoolTypes Arena MempoolInner CoinsView Policy Validation.

Section facts.
Context `{!ScriptApi, !HashApi, !KeyApi, !SighashApi}.
Context `{!TxApi, !PoolTxApi, !SlotKeys, !HashOrder, !LruApi, !RuntimeStates}.
Implicit Types (ws : ValidationWorkspace) (inner : MemPoolInner) (options : MemPoolOptions).
Implicit Types (c : CoinsViewCache).

(** ** Loops *)

Lemma sm_fold_inv {S A B} (P : B -> S -> Prop) (f : A -> B -> SM S B) l b s b' s' :
  (forall x b s b' s', P b s -> f x b s = (Ok b', s') -> P b' s') ->
  P b s -> sm_fold f l b s = (Ok b', s') -> P b' s'.
Proof.
  intros Hf. revert b s. induction l as [| x l IH]; intros b s Hb; cbn [sm_fold].
  - intros Hr. inv_sm. done.
  - intros Hr. inv_sm. eauto.
Qed.

(** ** Replacement never succeeds

    The replacement policy compares the modified fee of the workspace, which is
    computed only after it. *)
Lemma replaced_fees_nonneg inner ids acc fees rsize txs :
  rfold (add_replaced inner) ids acc = Ok (fees, rsize, txs) -> 0 <= acc.1.1 -> 0 <= fees.
Proof.
  intros Hr Hacc. refine (rfold_inv (fun acc => 0 <= acc.1.1) _ _ _ _ _ Hacc Hr).
  intros id [[f z] l] [[f' z'] l'] Hf. unfold add_replaced. intros H'. inv_ok. simplify_eq. cbn in *.
  unfold checked_u64, in_u64 in *. case_match; [| done]. simplify_eq. bools. lia.
Qed.

Lemma check_rbf_policy_unpaid ws inner options cs :
  ws_modified_fee ws <= 0 -> check_rbf_policy ws inner options <> Ok cs.
Proof.
  intros Hfee. unfold check_rbf_policy. intros H'. inv_ok.
  match goal with x : (Z * Z * list Transaction)%type |- _ => destruct x as [[fees rsize] txs] end. inv_ok.
  match goal with H : rfold (add_replaced _) _ _ = Ok _ |- _ => apply replaced_fees_nonneg in H; [| done] end.
  bools. lia.
Qed.

(** ** Coins in the checks *)

Context `{!LruLaws}.

(** The cache is coherent and the runtime answers with the state [st]. *)
Definition sees (st : PalletState) c : Prop := coherent c /\ runtime_state (best_block c) = inr st.

#[local] Instance same_overlay_refl : Reflexive same_overlay.
Proof. by intros c. Qed.
#[local] Instance same_overlay_trans : Transitive same_overlay.
Proof. intros x y z (? & ? & ?) (? & ? & ?). unfold same_overlay. split_and!; congruence. Qed.

Lemma sees_step st c c' : sees st c -> coherent c' -> same_overlay c c' -> sees st c'.
Proof. intros [_ Hst] Hc (_ & _ & Hb). split; [done | by rewrite Hb]. Qed.

Lemma lookup_coin_spec {W} (w : W) c o st :
  sees st c -> exists c', lookup_coin o (w, c) = (Ok (view st c o), (w, c')) /\ sees st c' /\ same_overlay c c'.
Proof.
  intros Hs. pose proof Hs as [Hc Hst]. destruct (get_coin_spec c o st Hc Hst) as (c' & Hg & Hc' & Hso).
  exists c'. unfold lookup_coin. rewrite Hg. eauto using sees_step.
Qed.

Lemma require_coin_spec {W} (w : W) c o st :
  sees st c ->
  exists c', require_coin o (w, c) =
    (match view st c o with Some coin => Ok coin | None => Err (MissingInputs [op_txid o]) end, (w, c')) /\
    sees st c' /\ same_overlay c c'.
Proof.
  intros Hs. destruct (lookup_coin_spec w c o st Hs) as (c' & Hl & Hs' & Hso). exists c'.
  unfold require_coin, mbind, sm_bind. rewrite Hl. split; [| done]. by destruct (view st c o).
Qed.

Lemma require_coin_Ok {W} (w : W) c o st coin s' :
  sees st c -> require_coin o (w, c) = (Ok coin, s') ->
  exists c', s' = (w, c') /\ sees st c' /\ same_overlay c c' /\ view st c o = Some coin.
Proof.
  intros Hs Hr. destruct (require_coin_spec w c o st Hs) as (c' & Heq & Hs' & Hso).
  rewrite Heq in Hr. destruct (view st c o); [| done]. exists c'. naive_solver.
Qed.

Lemma prefetch_spec {W} (w : W) c os st :
  sees st c -> exists c', prefetch os (w, c) = (Ok tt, (w, c')) /\ sees st c' /\ same_overlay c c'.
Proof.
  intros Hs. pose proof Hs as [Hc Hst]. destruct (ensure_coins_spec c os st Hc Hst) as (c' & He & Hc' & Hso).
  exists c'. unfold prefetch. rewrite He. eauto using sees_step.
Qed.

(** *** Frames

    The checks leave the workspace alone and touch only the cache of coins. *)
Definition frame {W} (w : W) c (s' : W * CoinsViewCache) : Prop :=
  s'.1 = w /\ same_overlay c s'.2 /\ (coherent c -> coherent s'.2).

Lemma frame_refl {W} (w : W) c : frame w c (w, c).
Proof. split; [done |]. split; [reflexivity | done]. Qed.

Lemma frame_trans {W} (w : W) c s1 s2 : frame w c s1 -> frame w s1.2 s2 -> frame w c s2.
Proof. intros (? & Hs1 & ?) (? & Hs2 & ?). split; [done |]. split; [by trans s1.2 | auto]. Qed.

Lemma get_coin_same o c c' coin : get_coin o c = Ok (c', coin) -> same_overlay c c'.
Proof.
  unfold get_coin. intros H'. repeat case_match; inv_ok; simplify_eq; try reflexivity. done.
Qed.

Lemma require_coin_frame {W} (w : W) c o coin s' : require_coin o (w, c) = (Ok coin, s') -> frame w c s'.
Proof.
  unfold require_coin. intros H'. inv_sm. unfold lookup_coin in *. cbn in *.
  match goal with H : match get_coin o c with _ => _ end = _ |- _ =>
    destruct (get_coin o c) as [[c1 ?] | |] eqn:Hg; simplify_eq end.
  split; [done |]. split; [by eapply get_coin_same | intros; by eapply get_coin_coherent].
Qed.

Lemma prefetch_frame {W} (w : W) c os s' : prefetch os (w, c) = (Ok tt, s') -> frame w c s'.
Proof.
  unfold prefetch. destruct (ensure_coins os c) as [c1 | |] eqn:He; intros; simplify_eq.
  split; [done |]. split; [| intros; by eapply ensure_coins_coherent].
  unfold ensure_coins in He. case_match; inv_ok; [reflexivity |]. done.
Qed.

Lemma sm_fold_frame {W A B} (w : W) c (f : A -> B -> SM (W * CoinsViewCache) B) l b b' s' :
  (forall x b c b' s', f x b (w, c) = (Ok b', s') -> frame w c s') ->
  sm_fold f l b (w, c) = (Ok b', s') -> frame w c s'.
Proof.
  intros Hf. revert b c. induction l as [| x l IH]; intros b c; cbn [sm_fold]; intros H'; inv_sm; [apply frame_refl |].
  match goal with H : f _ _ _ = (Ok _, ?s1) |- _ => apply Hf in H; destruct s1 as [w1 c1]; pose proof H as [Hw _] end.
  cbn in Hw. subst w1. eapply frame_trans; [done |]. by eapply IH.
Qed.

Lemma lock_point_input_frame {W} (w : W) c i l l' s' :
  lock_point_input i l (w, c) = (Ok l', s') -> frame w c s'.
Proof.
  unfold lock_point_input. intros H'. inv_sm.
  match goal with H : require_coin _ _ = (Ok _, _) |- _ => apply require_coin_frame in H as Hr end.
  repeat match goal with H : (if ?b then _ else _) _ = (Ok _, _) |- _ => destruct b end; inv_sm; simplify_eq; done.
Qed.

Lemma input_value_frame {W} (w : W) c h o acc acc' s' :
  input_value h o acc (w, c) = (Ok acc', s') -> frame w c s'.
Proof.
  unfold input_value. destruct acc as [[t b] m]. intros H'. inv_sm.
  match goal with H : require_coin _ _ = (Ok _, _) |- _ => apply require_coin_frame in H as Hr end.
  repeat match goal with H : (if ?b then _ else _) _ = (Ok _, _) |- _ => destruct b end; inv_sm; simplify_eq; done.
Qed.

Lemma lock_points_frame {W} (w : W) c tx h mtp lp s' :
  calculate_lock_points_at_tip tx h mtp (w, c) = (Ok lp, s') -> frame w c s'.
Proof.
  unfold calculate_lock_points_at_tip. intros H'. inv_sm.
  match goal with x : (Z * Z)%type |- _ => destruct x end. inv_sm.
  eapply sm_fold_frame; [| done]. intros *. apply lock_point_input_frame.
Qed.

Lemma sees_frame {W} (w : W) st c s' : sees st c -> frame w c s' -> sees st s'.2.
Proof. intros Hs (_ & Hso & Hc). pose proof Hs as [Hc0 _]. eapply sees_step; eauto. Qed.

(** ** Relative lock times *)

Definition disabled (i : TxIn) : bool := negb (Z.land (sequence i) SEQUENCE_LOCKTIME_DISABLE_FLAG =? 0).
Definition height_type (i : TxIn) : bool := Z.land (sequence i) SEQUENCE_LOCKTIME_TYPE_FLAG =? 0.
Definition lock_value (i : TxIn) : Z := Z.land (sequence i) SEQUENCE_LOCKTIME_MASK.

(** The locks of inputs with their coins, where no arithmetic overflows. *)
Fixpoint locks_of (ics : list (TxIn * PoolCoin)) (locks : Z * Z) : option (Z * Z) :=
  match ics with
  | [] => Some locks
  | (i, coin) :: ics =>
      if disabled i then locks_of ics locks
      else if pc_is_coinbase coin then None
      else locks_of ics
             (if height_type i then (locks.1 `max` wrap_i32 (pc_height coin + lock_value i + 1), locks.2)
              else (locks.1, locks.2 `max` (pc_median_time_past coin + lock_value i * 512)))
  end.

(** A coin of the pool's view: confirmed at a height that is far from the end of
    the range of heights, or pending; without a median time. *)
Definition pool_coin_ok (coin : PoolCoin) : Prop :=
  (0 <= pc_height coin <= 2 ^ 31 - 2 ^ 17 \/ pc_height coin = MEMPOOL_HEIGHT) /\
  pc_median_time_past coin = 0.

Lemma lock_value_bounds i : 0 <= lock_value i <= 65535.
Proof.
  unfold lock_value, SEQUENCE_LOCKTIME_MASK. change 0xffff with (Z.ones 16).
  rewrite Z.land_ones by lia. change (2 ^ 16) with 65536. change (Z.ones 16) with 65535.
  pose proof (Z.mod_pos_bound (sequence i) 65536 ltac:(lia)). lia.
Qed.

Lemma lock_points_fold {W} (w : W) c st ics locks :
  sees st c -> Forall (fun ic => view st c (previous_output ic.1) = Some ic.2 /\ pool_coin_ok ic.2) ics ->
  exists c', sm_fold lock_point_input (map fst ics) locks (w, c) =
    (ok_or NonBIP68Final (locks_of ics locks), (w, c')) /\ sees st c' /\ same_overlay c c'.
Proof.
  revert c locks. induction ics as [| [i coin] ics IH]; intros c locks Hs Hall.
  { exists c. split; [done |]. split; [done | reflexivity]. }
  apply Forall_cons in Hall as [[Hv [Hh Hm]] Hall]. cbn in Hv, Hh, Hm.
  cbn [map fst sm_fold locks_of]. unfold mbind at 1, sm_bind at 1. unfold lock_point_input at 1.
  destruct (require_coin_spec w c (previous_output i) st Hs) as (c1 & Hr & Hs1 & Hso).
  rewrite Hv in Hr. unfold mbind, sm_bind. rewrite Hr. fold (disabled i) (height_type i) (lock_value i).
  pose proof (lock_value_bounds i) as Hlv.
  assert (Hnext : forall l, exists c', sm_fold lock_point_input (map fst ics) l (w, c1) =
    (ok_or NonBIP68Final (locks_of ics l), (w, c')) /\ sees st c' /\ same_overlay c c').
  { intros l. destruct (IH c1 l Hs1) as (c' & Hf & Hs' & Hso').
    - eapply Forall_impl; [exact Hall |]. intros [j cn] [Hj ?]. split; [| done].
      by rewrite (view_same st c c1).
    - exists c'. split; [done |]. split; [done | by trans c1]. }
  destruct (disabled i); cbn [negb andb].
  { rewrite andb_false_r. cbn. apply Hnext. }
  rewrite andb_true_r. destruct (pc_is_coinbase coin); cbn; [eauto |].
  destruct (height_type i).
  - rewrite checked_u32_Some by (unfold is_u32, MEMPOOL_HEIGHT, u32_max in *; lia). cbn.
    rewrite checked_u32_Some by (unfold is_u32, MEMPOOL_HEIGHT, u32_max in *; lia). cbn. apply Hnext.
  - change SEQUENCE_LOCKTIME_GRANULARITY with 512. rewrite Hm.
    rewrite checked_i64_Some by (unfold is_i64, i64_min, i64_max; lia). cbn.
    rewrite checked_i64_Some by (unfold is_i64, i64_min, i64_max; lia). cbn. apply Hnext.
Qed.

(** The locks are met when each input's lock is. *)
Definition lock_met (height mtp : Z) (ic : TxIn * PoolCoin) : Prop :=
  disabled ic.1 = true \/
  (pc_is_coinbase ic.2 = false /\
   if height_type ic.1 then pc_height ic.2 = MEMPOOL_HEIGHT \/ pc_height ic.2 + lock_value ic.1 + 1 <= height
   else lock_value ic.1 * 512 <= mtp).

Lemma locks_of_met ics lh lt height mtp :
  Forall (fun ic => pool_coin_ok ic.2) ics -> 0 <= height -> 0 <= mtp -> -1 <= lh -> 0 <= lt ->
  (exists lh' lt', locks_of ics (lh, lt) = Some (lh', lt') /\ lh' <= height /\ lt' <= mtp) <->
  lh <= height /\ lt <= mtp /\ Forall (lock_met height mtp) ics.
Proof.
  intros Hall Hh Hm. revert lh lt. induction Hall as [| [i coin] ics [Hc Hmt] Hall IH]; intros lh lt Hlh Hlt;
    cbn [locks_of].
  { split; [intros (? & ? & [= <- <-] & ? & ?); split_and!; try done; apply Forall_nil_2 |].
    intros (? & ? & _). eauto. }
  rewrite Forall_cons. unfold lock_met at 1. cbn [fst snd] in *. pose proof (lock_value_bounds i) as Hlv.
  destruct (disabled i); [rewrite IH by done; naive_solver |].
  destruct (pc_is_coinbase coin); [split; [naive_solver | intros (_ & _ & [? | [? _]] & _); done] |].
  rewrite Hmt. destruct (height_type i); rewrite IH by lia.
  2: { split; [intros (? & ? & ?); split_and!; try done; try lia; try (right; split; [done | lia]) |].
       intros (? & ? & [? | [_ ?]] & ?); [done |]. split_and!; try done; lia. }
  destruct Hc as [Hc | ->].
  - unfold wrap_i32. rewrite Z.mod_small by lia.
    split; [intros (? & ? & ?); split_and!; try done; try lia; try (right; split; [done | right; lia]) |].
    intros (? & ? & [? | [_ [Hp | ?]]] & ?); [done | unfold MEMPOOL_HEIGHT in Hp; lia |]. split_and!; try done; lia.
  - unfold wrap_i32, MEMPOOL_HEIGHT.
    replace ((0x7fffffff + lock_value i + 1 + 2 ^ 31) mod 2 ^ 32) with (lock_value i)
      by (replace (0x7fffffff + lock_value i + 1 + 2 ^ 31) with (lock_value i + 1 * 2 ^ 32) by lia;
          rewrite Z.mod_add by lia; symmetry; apply Z.mod_small; lia).
    split; [intros (? & ? & ?); split_and!; try done; try lia; try (right; split; [done | by left]) |].
    intros (? & ? & _ & ?). split_and!; try done; lia.
Qed.

Lemma Forall2_zip {A B} (P : A -> B -> Prop) (l : list A) (k : list B) :
  Forall2 P l k -> Forall (fun p => P p.1 p.2) (zip l k) /\ map fst (zip l k) = l.
Proof.
  induction 1 as [| x y l k Hxy _ [IH Hm]]; cbn; [split; [apply Forall_nil_2 | done] |].
  split; [by apply Forall_cons | by rewrite Hm].
Qed.

(** The relative lock times of a transaction whose coins the pool sees are
    met exactly when every input has its lock disabled, or spends no coinbase
    and satisfies its lock: a lock by height counts from the height of a
    confirmed coin, but any such lock on an unconfirmed coin is met; a lock by
    time is compared with the median time itself and not with the time that
    passed since the coin, as no coin carries a median time.  Otherwise the
    check fails with [NonBIP68Final]; it does not panic. *)
Lemma relative_locks_spec {W} (w : W) c st tx coins h mtp :
  sees st c ->
  Forall2 (fun i coin => view st c (previous_output i) = Some coin /\ pool_coin_ok coin) (tx_input tx) coins ->
  0 <= h < 2 ^ 31 -> 0 <= mtp ->
  exists r c', calculate_lock_points_at_tip tx h mtp (w, c) = (r, (w, c')) /\
    (Forall (lock_met h mtp) (zip (tx_input tx) coins) /\ (exists lp, r = Ok lp) \/
     ~ Forall (lock_met h mtp) (zip (tx_input tx) coins) /\ r = Err NonBIP68Final).
Proof.
  intros Hs Hcoins Hh Hm. apply Forall2_zip in Hcoins as [Hall Hfst].
  destruct (lock_points_fold w c st (zip (tx_input tx) coins) (-1, 0) Hs Hall) as (c' & Hf & _ & _).
  assert (Hok : Forall (fun ic => pool_coin_ok ic.2) (zip (tx_input tx) coins))
    by (eapply Forall_impl; [exact Hall | by intros ? []]).
  pose proof (locks_of_met _ (-1) 0 h mtp Hok (proj1 Hh) Hm ltac:(lia) ltac:(lia)) as Hmet.
  unfold calculate_lock_points_at_tip, mbind, sm_bind. rewrite Hfst in Hf. rewrite Hf.
  assert (Hw : wrap_i32 h = h) by (unfold wrap_i32; rewrite Z.mod_small by lia; lia). rewrite Hw.
  destruct (locks_of _ (-1, 0)) as [[lh lt] |]; cbn.
  2: { eexists _, c'. split; [done |]. right. split; [| done]. intros Hl.
       destruct (proj2 Hmet) as (? & ? & ? & _); [split_and!; try done; lia | done]. }
  destruct (Z.ltb_spec 0 lh), (Z.ltb_spec h lh), (Z.ltb_spec 0 lt), (Z.ltb_spec mtp lt); cbn;
    eexists _, c'; (split; [done |]);
    first [left; split; [apply Hmet; exists lh, lt; split_and!; try done; lia | by eexists]
          | right; split; [| done]; intros Hl;
            destruct (proj2 Hmet) as (? & ? & [= <- <-] & ? & ?); [split_and!; try done; lia | lia]].
Qed.

(** ** What the preliminary checks accept *)

(** Summing the values of the inputs. *)
Lemma input_values_Ok {W} (w : W) c st h os acc acc' s' :
  sees st c -> sm_fold (input_value h) os acc (w, c) = (Ok acc', s') ->
  exists coins c', s' = (w, c') /\ sees st c' /\ same_overlay c c' /\
    Forall2 (fun o coin => view st c o = Some coin) os coins /\
    acc'.1.1 = acc.1.1 + zsum (map (fun coin => value (pc_output coin)) coins) /\
    Forall (fun coin => pc_is_coinbase coin = true -> COINBASE_MATURITY <= h - pc_height coin) coins.
Proof.
  intros Hs. revert c acc Hs. induction os as [| o os IH]; intros c [[t b] m] Hs; cbn [sm_fold].
  { intros H'. inv_sm. exists [], c. cbn. split_and!; try done; try reflexivity; lia. }
  intros H'. inv_sm.
  match goal with H : input_value _ _ _ _ = (Ok ?acc, ?s) |- _ =>
    rename H into Hi; rename acc into acc1; rename s into s1 end.
  unfold input_value in Hi. inv_sm.
  match goal with H : require_coin _ _ = (Ok ?k, _) |- _ => rename H into Hr; rename k into coin end.
  apply (require_coin_Ok w c o st) in Hr as (c1 & -> & Hs1 & Hso & Hv); [| done].
  assert (Hstep : s1 = (w, c1) /\ acc1.1.1 = t + value (pc_output coin) /\
    (pc_is_coinbase coin = true -> COINBASE_MATURITY <= h - pc_height coin)).
  { inv_arith. destruct (pc_is_coinbase coin); inv_sm; simplify_eq; bools; split_and!; try done.
    unfold COINBASE_MATURITY in *. lia. }
  destruct Hstep as (-> & Hacc & Hmat).
  destruct (IH c1 _ Hs1 H') as (coins & c' & -> & Hs' & Hso' & Hall & Hsum & Hcb).
  exists (coin :: coins), c'. split_and!; try done.
  - by trans c1.
  - constructor; [done |]. eapply Forall2_impl; [exact Hall |]. intros o' cn Hv'. cbn in Hv'. by rewrite (view_same st c c1) in Hv'.
  - rewrite Hsum, Hacc. unfold zsum. cbn [map foldr fst]. lia.
  - by apply Forall_cons.
Qed.

Lemma sum_amounts_Ok l acc z : sum_amounts l acc = Ok z -> z = acc + zsum l.
Proof.
  revert acc. induction l as [| x l IH]; intros acc; cbn [sum_amounts]; intros H'; inv_ok; [cbn; lia |].
  inv_arith. apply IH in H'. unfold zsum in *. cbn [foldr]. lia.
Qed.

Lemma contains_false {A} (o : option A) : bool_decide (is_Some o) = false -> o = None.
Proof. intros Hn%bool_decide_eq_false. destruct o; [| done]. exfalso. apply Hn. eauto. Qed.

Lemma conflicts_nil inner ins :
  omap (fun input => get_conflict_tx inner (previous_output input)) ins = [] <->
  Forall (fun i => map_next_tx inner !! previous_output i = None) ins.
Proof.
  induction ins as [| i ins IH]; cbn; [split; [intros; apply Forall_nil_2 | done] |].
  rewrite Forall_cons, <- IH. unfold get_conflict_tx. destruct (map_next_tx inner !! previous_output i); naive_solver.
Qed.

(** A transaction that passed the preliminary checks, in the workspace [ws']. *)
Record accepted inner options (h now : Z) (st : PalletState) c (tx : Transaction) ws' : Prop := {
  acc_sane : sane tx;
  acc_coinbase : is_coinbase tx = false;
  acc_standard : opt_require_standard options = true ->
    standard_tx (opt_max_datacarrier_bytes options) (opt_permit_bare_multisig options)
      (from_sat_per_kvb (opt_dust_relay_feerate options)) tx;
  acc_txid : get_by_txid (arena inner) (compute_txid tx) = None;
  acc_wtxid : get_by_wtxid (arena inner) (compute_wtxid tx) = None;
  acc_unspent : Forall (fun i => map_next_tx inner !! previous_output i = None) (tx_input tx);
  acc_inputs : exists coins,
    Forall2 (fun i coin => view st c (previous_output i) = Some coin) (tx_input tx) coins /\
    ws_base_fee ws' =
      zsum (map (fun coin => value (pc_output coin)) coins) - zsum (map value (tx_output tx)) /\
    Forall (fun coin => pc_is_coinbase coin = true -> COINBASE_MATURITY <= h - pc_height coin) coins;
  acc_fee : exists min_fee, get_fee (E := MempoolError) (min_relay_fee_rate options) (ws_vsize ws') = Ok min_fee /\
    0 <= ws_base_fee ws' /\ min_fee <= ws_base_fee ws';
  acc_final : is_final_tx tx h (wrap_u32 now) = true;
  acc_sigops : ws_sigop_cost ws' <= MAX_STANDARD_TX_SIGOPS_COST;
  acc_ws : ws_tx ws' = tx /\ ws_modified_fee ws' = ws_base_fee ws' /\ ws_tx_weight ws' = weight tx /\
    ws_vsize ws' = wrap_i64 (to_vbytes_ceil (weight tx)) /\ ws_conflict_set ws' = None;
}.

(** The stages of a successful run. *)
Lemma pre_checks_inv inner options h mtp now c tx ws' c' :
  pre_checks inner options h mtp now (ws_new tx, c) = (Ok tt, (ws', c')) ->
  exists ws0 c1 c2 total sc prevs lp out fee min_fee sigops,
    (check_transaction_sanity tx = Ok tt /\ is_coinbase tx = false /\
     (opt_require_standard options = true ->
      is_standard_tx tx (opt_max_datacarrier_bytes options) (opt_permit_bare_multisig options)
        (from_sat_per_kvb (opt_dust_relay_feerate options)) = Ok tt) /\
     get_by_wtxid (arena inner) (compute_wtxid tx) = None /\ get_by_txid (arena inner) (compute_txid tx) = None /\
     Forall (fun i => map_next_tx inner !! previous_output i = None) (tx_input tx)) /\
    (ws_tx ws0 = tx /\ ws_tx_weight ws0 = weight tx /\ ws_vsize ws0 = wrap_i64 (to_vbytes_ceil (weight tx)) /\
     ws_conflict_set ws0 = None) /\
    prefetch (map previous_output (tx_input tx)) (ws0, c) = (Ok tt, (ws0, c1)) /\
    sm_fold (input_value h) (map previous_output (tx_input tx)) (0, false, ∅) (ws0, c1) =
      (Ok (total, sc, prevs), (ws0, c2)) /\
    calculate_lock_points_at_tip tx h mtp (ws0, c2) = (Ok lp, (ws0, c')) /\
    (sum_amounts (map value (tx_output tx)) 0 = Ok out /\ fee = total - out /\ 0 <= fee /\
     get_fee (E := MempoolError) (min_relay_fee_rate options) (ws_vsize ws0) = Ok min_fee /\ min_fee <= fee) /\
    is_final_tx tx h (wrap_u32 now) = true /\ sigops <= MAX_STANDARD_TX_SIGOPS_COST /\
    ws' = set_computed fee sigops lp sc ws0.
Proof.
  intros H'. unfold pre_checks in H'. apply sm_bind_Ok in H' as (tx0 & s0 & Hg & H').
  inv_sm. change (ws_tx (ws_new tx, c).1) with tx in *. bools.
  assert (Hnc : omap (fun input => get_conflict_tx inner (previous_output input)) (tx_input tx) = []).
  { case_bool_decide as Hnil; [done |]. exfalso. inv_sm.
    match goal with H : check_rbf_policy _ _ _ = Ok _ |- _ => by apply check_rbf_policy_unpaid in H end. }
  match goal with H : (if bool_decide _ then _ else _) _ = (Ok _, _) |- _ =>
    rewrite bool_decide_true in H by done; inv_sm end.
  cbn [fst snd] in *. set (ws0 := set_conflicts _ _) in *.
  match goal with H : prefetch _ _ = (_, ?s) |- _ => rename H into Hp; destruct s as [w1 c1];
    destruct (prefetch_frame _ _ _ _ Hp) as [Hw1 _]; cbn in Hw1; subst w1 end.
  match goal with H : sm_fold (input_value _) _ _ _ = (Ok ?a, ?s) |- _ => rename H into Hin; rename a into acc;
    destruct s as [w2 c2]; destruct (sm_fold_frame _ _ _ _ _ _ _ (fun x b c b' s' => input_value_frame ws0 c h x b b' s') Hin)
    as [Hw2 _]; cbn in Hw2; subst w2 end.
  destruct acc as [[total sc] prevs]. inv_sm. cbn [fst snd] in *.
  match goal with H : calculate_lock_points_at_tip _ _ _ _ = (Ok ?l, ?s) |- _ => rename H into Hlp; rename l into lp;
    destruct s as [w3 c3]; destruct (lock_points_frame _ _ _ _ _ _ _ Hlp) as [Hw3 _]; cbn in Hw3; subst w3 end.
  cbn [fst snd] in *. simplify_eq. inv_arith. bools.
  match goal with H : (if _ <? _ then _ else Ok _) = Ok _ |- _ => rename H into Hmin end.
  match goal with H : get_fee _ _ = Ok ?m |- _ => rename H into Hgf; rename m into min_fee end.
  eexists ws0, c1, c2, total, sc, prevs, lp, _, _, min_fee, _.
  split; [split_and!; try done; try (by apply contains_false); [| by apply conflicts_nil] |].
  { intros Hreq. rewrite Hreq in *. by inv_ok. }
  split; [done |]. split; [done |]. split; [done |]. split; [done |].
  split; [split; [done |]; split; [done |]; split; [unfold is_u64 in *; lia |]; split; [done |] |].
  { match type of Hmin with context [?a <? ?b] => destruct (Z.ltb_spec a b); [inv_ok | done] end. }
  split; [done |]. split; [| done]. lia.
Qed.

(** A transaction that passes the preliminary checks is sane, no coinbase,
    standard where the options ask for it, new to the pool by both ids, and
    spends no output that a pool transaction spends, although replacement is
    enabled: the policy that decides on replacement is asked before the fee of
    the transaction is known.  Its inputs are coins of the pool's view, mature
    if from a coinbase, its fee is the difference of values and reaches the
    relay minimum, and its lock time has passed. *)
Lemma pre_checks_accepts inner options h mtp now st c tx ws' c' :
  sees st c -> Forall (fun o => is_u64 (value o)) (tx_output tx) ->
  0 <= opt_dust_relay_feerate options < 2 ^ 56 ->
  pre_checks inner options h mtp now (ws_new tx, c) = (Ok tt, (ws', c')) ->
  accepted inner options h now st c tx ws' /\ sees st c' /\ same_overlay c c'.
Proof.
  intros Hs Hu Hdust H'.
  apply pre_checks_inv in H' as (ws0 & c1 & c2 & total & sc & prevs & lp & out & fee & min_fee & sigops &
    (Hsane & Hcb & Hstd & Hwt & Ht & Hun) & (Htx & Hwe & Hvs & Hcs) & Hp & Hin & Hlp &
    (Hout & Hfee & Hpos & Hgf & Hmin) & Hfin & Hsig & ->).
  pose proof (prefetch_frame _ _ _ _ Hp) as Hf1. pose proof (sees_frame _ _ _ _ Hs Hf1) as Hs1.
  destruct (input_values_Ok ws0 c1 st h _ _ _ _ Hs1 Hin) as (coins & c2' & [= <-] & Hs2 & Hso2 & Hview & Hsum & Hmat).
  pose proof (lock_points_frame _ _ _ _ _ _ _ Hlp) as Hf3. cbn [fst snd] in *.
  split; [| split; [by apply (sees_frame _ _ _ _ Hs2 Hf3) |
    trans c2; [trans c1; [apply Hf1 | done] | apply Hf3]]].
  apply sum_amounts_Ok in Hout.
  split; try done; cbn [set_computed ws_base_fee ws_modified_fee ws_sigop_cost ws_vsize] in *.
  - by apply check_transaction_sanity_spec.
  - intros Hreq. by apply is_standard_tx_spec; auto.
  - exists coins. split; [| split; [lia | done]]. apply Forall2_fmap_l in Hview.
    eapply Forall2_impl; [exact Hview |]. intros i cn Hv. cbn in Hv.
    by rewrite (view_same st c c1) in Hv by apply Hf1.
  - exists min_fee. done.
Qed.
End facts.
