(* ===== verification/Finalize.v ===== *)
(** * Adding a transaction to the memory pool

    [finalize_tx] of [crates/subcoin-mempool/src/validation.rs] keeps the state
    of the pool consistent, links the new entry to all its ancestors and updates
    their descendant state; and their ancestor state as well. *)

From Stdlib Require Import ZArith Lia.
From stdpp Require Import prelude gmap sorting lexico.
From S2P Require Import Prelude Collections Bitcoin Runtime ScriptTypes Pallet.
From S2P Require Import MempoolTypes Arena MempoolInner CoinsView Policy Validation.

Section finalize.
Context `{!TxApi, !PoolTxApi, !SlotKeys, !SlotKeysLaws, !HashOrder, !HashOrderLaws}.
Context `{!LruApi, !RuntimeStates}.
Implicit Types (ws : ValidationWorkspace) (inner : MemPoolInner) (a : MemPoolArena) (e : TxMemPoolEntry).
Implicit Types (c : CoinsViewCache).

(** ** Loops over handles

    A step that changes one entry by [R], and a loop over distinct handles. *)
Definition changes (R : TxMemPoolEntry -> TxMemPoolEntry -> Prop) (id : EntryId) a a' : Prop :=
  exists e e', arena_get a id = Some e /\ R e e' /\
    (forall j, arena_get a' j = if decide (j = id) then Some e' else arena_get a j).

Lemma rfold_changes (R : TxMemPoolEntry -> TxMemPoolEntry -> Prop)
  (f : EntryId -> MemPoolArena -> res MempoolError MemPoolArena) ids a a' :
  (forall id a a', arena_wf a -> f id a = Ok a' -> arena_wf a' /\ changes R id a a') ->
  NoDup ids -> arena_wf a -> rfold f ids a = Ok a' ->
  arena_wf a' /\
  (forall j, j ∈ ids -> exists e e', arena_get a j = Some e /\ arena_get a' j = Some e' /\ R e e') /\
  (forall j, j ∉ ids -> arena_get a' j = arena_get a j).
Proof.
  intros Hf Hnd. revert a. induction Hnd as [| id ids Hnin Hnd IH]; intros a Hwf; cbn [rfold].
  { intros [= <-]. split; [done |]. split; [| done]. by intros j ?%elem_of_nil. }
  intros (a1 & Hf1 & Hr)%bind_Ok. apply Hf in Hf1 as [Hwf1 (e & e' & He & HR & Hget)]; [| done].
  destruct (IH a1 Hwf1 Hr) as (Hwf' & Hin & Hout). split; [done |]. split.
  - intros j [-> | Hj]%elem_of_cons.
    + exists e, e'. rewrite Hout by done. rewrite Hget, decide_True by done. done.
    + destruct (Hin j Hj) as (e1 & e2 & He1 & He2 & HR'). exists e1, e2. split_and!; try done.
      rewrite Hget in He1. case_decide; [by subst |]. done.
  - intros j [Hne Hj]%not_elem_of_cons. rewrite Hout, Hget by done. by rewrite decide_False.
Qed.

(** The three updates of an ancestor. *)
Definition child_added (id : EntryId) e e' : Prop := e' = set_children ({[ id ]} ∪ e_children e) e.

Definition ancestor_state_added (ds df dc dg : Z) e e' : Prop :=
  exists count fees ak dk, add_count (e_count_with_ancestors e) dc = Ok count /\
    add_signed (e_fees_with_ancestors e) df = Ok fees /\
    e' = set_cached_keys ak dk (set_ancestor_state count (e_size_with_ancestors e + ds) fees
           (e_sigops_with_ancestors e + dg) e).

Definition descendant_state_added (ds df dc : Z) e e' : Prop :=
  exists count fees dk, add_count (e_count_with_descendants e) dc = Ok count /\
    add_signed (e_fees_with_descendants e) df = Ok fees /\
    e' = set_cached_keys (e_cached_ancestor_key e) dk
           (set_descendant_state count (e_size_with_descendants e + ds) fees e).

Lemma update_ancestor_changes id ds df dc dg a a' :
  arena_wf a -> update_ancestor_state id ds df dc dg a = Ok a' ->
  arena_wf a' /\ changes (ancestor_state_added ds df dc dg) id a a'.
Proof.
  intros Hwf Hu. split; [by eapply update_ancestor_state_wf |].
  apply update_ancestor_state_spec in Hu as (e & count & fees & ak & dk & He & -> & _ & Hc & Hf).
  eexists e, _. split; [done |]. split; [by exists count, fees, ak, dk |]. intros j. by rewrite rekeyed_get.
Qed.

Lemma update_descendant_changes id ds df dc a a' :
  arena_wf a -> update_descendant_state id ds df dc a = Ok a' ->
  arena_wf a' /\ changes (descendant_state_added ds df dc) id a a'.
Proof.
  intros Hwf Hu. split; [by eapply update_descendant_state_wf |].
  apply update_descendant_state_spec in Hu as (e & count & fees & dk & He & -> & _ & Hc & Hf); [| done].
  eexists e, _. split; [done |]. split; [by exists count, fees, dk |]. intros j. by rewrite rekeyed_get.
Qed.

(** Links to entries that are there. *)
Lemma insert_children_changes child ids a :
  arena_wf a -> NoDup ids -> (forall j, j ∈ ids -> is_Some (arena_get a j)) ->
  let a' := foldl (fun a id => insert_child id child a) a ids in
  arena_wf a' /\
  (forall j, j ∈ ids -> exists e e', arena_get a j = Some e /\ arena_get a' j = Some e' /\ child_added child e e') /\
  (forall j, j ∉ ids -> arena_get a' j = arena_get a j).
Proof.
  intros Hwf Hnd. revert a Hwf. induction Hnd as [| id ids Hnin Hnd IH]; intros a Hwf Hall; cbn [foldl].
  { split; [done |]. split; [| done]. by intros j ?%elem_of_nil. }
  destruct (Hall id) as [e He]; [by left |].
  assert (Hget : forall j, arena_get (insert_child id child a) j =
    if decide (j = id) then Some (set_children ({[ child ]} ∪ e_children e) e) else arena_get a j).
  { intros j. unfold insert_child. rewrite He. unfold arena_get, store. cbn.
    case_decide; subst; by simplify_map_eq. }
  destruct (IH (insert_child id child a)) as (Hwf' & Hin & Hout).
  { by apply insert_child_wf. }
  { intros j Hj. rewrite Hget. case_decide; [done |]. apply Hall. by right. }
  split; [done |]. split.
  - intros j [-> | Hj]%elem_of_cons.
    + eexists e, _. rewrite Hout by done. rewrite Hget, decide_True by done. done.
    + destruct (Hin j Hj) as (e1 & e2 & He1 & He2 & HR'). exists e1, e2. split_and!; try done.
      rewrite Hget in He1. case_decide; [by subst |]. done.
  - intros j [Hne Hj]%not_elem_of_cons. rewrite Hout, Hget by done. by rewrite decide_False.
Qed.

(** What happens to an ancestor when a transaction is added. *)
Definition ancestor_updated ws (id : EntryId) e e' : Prop :=
  exists e1 e2, child_added id e e1 /\
    ancestor_state_added (ws_vsize ws) (wrap_i64 (ws_modified_fee ws)) 1 (ws_sigop_cost ws) e1 e2 /\
    descendant_state_added (ws_vsize ws) (wrap_i64 (ws_modified_fee ws)) 1 e2 e'.

Lemma link_entry_spec ancestors ws entry a a' id :
  arena_wf a -> get_by_txid a (compute_txid (e_tx entry)) = None ->
  get_by_wtxid a (compute_wtxid (e_tx entry)) = None ->
  (forall j, j ∈ ancestors -> is_Some (arena_get a j)) ->
  link_entry ancestors ws entry a = Ok (a', id) ->
  arena_wf a' /\ arena_get a id = None /\
  (exists ak dk, arena_get a' id = Some (set_cached_keys ak dk entry)) /\
  (forall j, j ∈ ancestors -> exists e e', arena_get a j = Some e /\ arena_get a' j = Some e' /\
     ancestor_updated ws id e e') /\
  (forall j, j <> id -> j ∉ ancestors -> arena_get a' j = arena_get a j).
Proof.
  intros Hwf Ht Hw Hanc Hl. unfold link_entry in Hl.
  apply bind_Ok in Hl as ([a1 id1] & Hins & Hl). inv_ok. simplify_eq.
  match goal with H : rfold (fun id a => update_ancestor_state _ _ _ _ _ _) _ _ = Ok ?a2 |- _ =>
    rename H into Hup; rename a2 into a3 end.
  match goal with H : rfold (fun id a => update_descendant_state _ _ _ _ _) _ _ = Ok _ |- _ =>
    rename H into Hdown end.
  destruct (insert_wf _ _ _ _ Hwf Ht Hw Hins) as [Hwf1 Hnone].
  apply insert_get in Hins as (_ & ak & dk & Hget1 & _).
  assert (Hid : id ∉ ancestors). { intros Hin. apply Hanc in Hin as [? Hin]. congruence. }
  assert (Hget1' : forall j, j ∈ ancestors -> arena_get a1 j = arena_get a j).
  { intros j Hj. rewrite Hget1, decide_False; [done | by intros ->]. }
  destruct (insert_children_changes id (hash_iter ancestors) a1 Hwf1 (hash_iter_nodup ancestors)) as (Hwf2 & Hc & Hc').
  { intros j Hj%hash_iter_elem. rewrite Hget1' by done. by apply Hanc. }
  eapply (rfold_changes _ _ _ _ _ (fun j b b' => update_ancestor_changes j _ _ _ _ b b')) in Hup
    as (Hwf3 & Hu & Hu'); [| apply hash_iter_nodup | done].
  eapply (rfold_changes _ _ _ _ _ (fun j b b' => update_descendant_changes j _ _ _ b b')) in Hdown
    as (Hwf4 & Hd & Hd'); [| apply hash_iter_nodup | done].
  setoid_rewrite hash_iter_elem in Hc. setoid_rewrite hash_iter_elem in Hc'.
  setoid_rewrite hash_iter_elem in Hu. setoid_rewrite hash_iter_elem in Hu'.
  setoid_rewrite hash_iter_elem in Hd. setoid_rewrite hash_iter_elem in Hd'.
  split; [done |]. split; [done |]. split; [| split].
  - exists ak, dk. rewrite Hd', Hu', Hc' by done. by rewrite Hget1, decide_True.
  - intros j Hj. destruct (Hc j Hj) as (e & e1 & He & He1 & R1), (Hu j Hj) as (e1' & e2 & He1' & He2 & R2),
      (Hd j Hj) as (e2' & e3 & He2' & He3 & R3).
    rewrite Hget1' in He by done. simplify_eq. exists e, e3. split_and!; try done. by exists e1, e2.
  - intros j Hne Hj. rewrite Hd', Hu', Hc' by done. by rewrite Hget1, decide_False.
Qed.

Lemma add_count_small n : 0 <= n < 2 ^ 62 -> add_count n 1 = Ok (n + 1).
Proof.
  intros Hn. unfold add_count, add_i64, wrap_i64. rewrite Z.mod_small by lia.
  replace (n + 2 ^ 63 - 2 ^ 63) with n by lia.
  rewrite checked_i64_Ok by (unfold is_i64, i64_min, i64_max; lia). rcbn. unfold wrap_u64.
  by rewrite Z.mod_small by lia.
Qed.

Lemma ancestor_updated_fields ws id e e' :
  ancestor_updated ws id e e' ->
  same_tx e e' /\ e_children e' = {[ id ]} ∪ e_children e /\
  e_size_with_descendants e' = e_size_with_descendants e + ws_vsize ws /\
  e_size_with_ancestors e' = e_size_with_ancestors e + ws_vsize ws /\
  (0 <= e_count_with_descendants e < 2 ^ 62 -> e_count_with_descendants e' = e_count_with_descendants e + 1) /\
  (0 <= e_count_with_ancestors e < 2 ^ 62 -> e_count_with_ancestors e' = e_count_with_ancestors e + 1).
Proof.
  intros (e1 & e2 & -> & (n & f & ak & dk & Hn & _ & ->) & (m & g & dk' & Hm & _ & ->)). cbn in *.
  split; [by split |]. split_and!; try done; intros Hb; rewrite add_count_small in * by done; congruence.
Qed.

(** ** The whole operation *)

Lemma add_next_tx_lookup tx txid m o :
  add_next_tx tx txid m !! o =
  if decide (o ∈ map previous_output (tx_input tx)) then Some txid else m !! o.
Proof.
  unfold add_next_tx. revert m. induction (tx_input tx) as [| i l IH]; intros m; cbn [foldl map].
  - case_decide as Hin; [by apply elem_of_nil in Hin | done].
  - rewrite IH. destruct (decide (o = previous_output i)) as [-> | Hne].
    + rewrite lookup_insert_eq. repeat case_decide; try done; set_solver.
    + rewrite lookup_insert_ne by congruence. repeat case_decide; try done; set_solver.
Qed.

(** The ancestor state of the new entry: a sum over handles. *)
Definition sum_at (f : TxMemPoolEntry -> Z) inner (ids : list EntryId) : Z :=
  zsum (map (fun j => match arena_get (arena inner) j with Some e => f e | None => 0 end) ids).

Lemma sum_at_cons f inner id ids e :
  arena_get (arena inner) id = Some e -> sum_at f inner (id :: ids) = f e + sum_at f inner ids.
Proof. intros He. unfold sum_at, zsum. cbn [map foldr]. by rewrite He. Qed.

Lemma add_ancestors_Ok inner ids n z f g n' z' f' g' :
  rfold (add_ancestor inner) ids (n, z, f, g) = Ok (n', z', f', g') ->
  (forall j, j ∈ ids -> is_Some (arena_get (arena inner) j)) /\ n' = n + Z.of_nat (length ids).
Proof.
  revert n z f g. induction ids as [| id ids IH]; intros n z f g; cbn [rfold].
  { intros [= <- <- <- <-]. split; [by intros j ?%elem_of_nil |]. cbn. lia. }
  intros ([[[n1 z1] f1] g1] & Ha & Hr)%bind_Ok. unfold add_ancestor in Ha. inv_ok. inv_arith. simplify_eq.
  apply IH in Hr as (Hin & ->).
  match goal with H : arena_get _ id = Some _ |- _ => rename H into He end.
  split; [intros j [-> | Hj]%elem_of_cons; [eauto | by apply Hin] |]. cbn [length]. lia.
Qed.

Lemma sum_at_nonneg f inner ids :
  (forall j e, arena_get (arena inner) j = Some e -> 0 <= f e) -> 0 <= sum_at f inner ids.
Proof.
  intros Hf. apply zsum_nonneg, Forall_map, Forall_forall. intros j _.
  destruct (arena_get (arena inner) j) eqn:He; [by eapply Hf | done].
Qed.

Lemma add_ancestors_total inner ids n z f g :
  (forall j, j ∈ ids -> is_Some (arena_get (arena inner) j)) ->
  (forall j e, arena_get (arena inner) j = Some e -> 0 <= vsize e /\ 0 <= e_modified_fee e /\ 0 <= e_sigop_cost e) ->
  0 <= n -> n + Z.of_nat (length ids) <= 2 ^ 62 -> 0 <= z -> z + sum_at vsize inner ids <= 2 ^ 62 ->
  0 <= f -> f + sum_at e_modified_fee inner ids <= 2 ^ 62 -> 0 <= g -> g + sum_at e_sigop_cost inner ids <= 2 ^ 62 ->
  rfold (add_ancestor inner) ids (n, z, f, g) =
  Ok (n + Z.of_nat (length ids), z + sum_at vsize inner ids, f + sum_at e_modified_fee inner ids,
      g + sum_at e_sigop_cost inner ids).
Proof.
  intros Hin Hpos. revert n z f g. induction ids as [| id ids IH]; intros n z f g Hn Hn' Hz Hz' Hf Hf' Hg Hg'.
  { cbn [rfold length]. f_equal. rewrite !pair_equal_spec. unfold sum_at, zsum. cbn [map foldr]. lia. }
  destruct (Hin id) as [e He]; [by left |]. destruct (Hpos id e He) as (? & ? & ?).
  rewrite !(sum_at_cons _ _ _ _ e He) in *. cbn [length] in *.
  assert (0 <= sum_at vsize inner ids) by (apply sum_at_nonneg; intros j e' ?%Hpos; lia).
  assert (0 <= sum_at e_modified_fee inner ids) by (apply sum_at_nonneg; intros j e' ?%Hpos; lia).
  assert (0 <= sum_at e_sigop_cost inner ids) by (apply sum_at_nonneg; intros j e' ?%Hpos; lia).
  assert (Hstep : add_ancestor inner id (n, z, f, g) =
    Ok (n + 1, z + vsize e, f + e_modified_fee e, g + e_sigop_cost e)).
  { unfold add_ancestor. rewrite He. rcbn. unfold add_u64, add_i64.
    rewrite checked_u64_Ok by (unfold is_u64, u64_max; lia). rcbn.
    rewrite checked_i64_Ok by (unfold is_i64, i64_min, i64_max; lia). rcbn.
    rewrite checked_u64_Some by (unfold is_u64, u64_max; lia). rcbn.
    by rewrite checked_i64_Ok by (unfold is_i64, i64_min, i64_max; lia). }
  cbn [rfold]. rewrite Hstep. rcbn.
  rewrite IH by (lia || (intros; apply Hin; by right)).
  f_equal. rewrite !pair_equal_spec. lia.
Qed.

(** A sum over some handles is at most the sum over the pool. *)
Lemma sum_at_le (f : TxMemPoolEntry -> Z) inner ids :
  NoDup ids -> (forall j e, arena_get (arena inner) j = Some e -> 0 <= f e) ->
  sum_at f inner ids <= pool_sum f (slots (entries (arena inner))).
Proof.
  unfold sum_at, arena_get. generalize (slots (entries (arena inner))). intros m Hnd. revert m.
  induction Hnd as [| id ids Hnin Hnd IH]; intros m Hf; [by apply pool_sum_nonneg |].
  unfold zsum. cbn [map foldr]. fold (zsum (map (fun j => match m !! j with Some e => f e | None => 0 end) ids)).
  destruct (m !! id) as [e |] eqn:He; [| by apply IH].
  rewrite (pool_sum_delete f m id e He).
  assert (Heq : map (fun j => match m !! j with Some e => f e | None => 0 end) ids =
    map (fun j => match delete id m !! j with Some e => f e | None => 0 end) ids).
  { apply map_ext_in. intros j Hj%list_elem_of_In. rewrite lookup_delete_ne; [done |]. by intros ->. }
  rewrite Heq. specialize (IH (delete id m)). assert (forall a b c : Z, b <= c -> a + b <= a + c) as Hm by lia.
  apply Hm, IH. intros j e' [_ Hj]%lookup_delete_Some. by eapply Hf.
Qed.

(** A pool in which no handle of a parent is stale. *)
Definition parents_present inner : Prop :=
  forall j e, arena_get (arena inner) j = Some e -> forall p, p ∈ e_parents e -> is_Some (arena_get (arena inner) p).

(** The pool after [tx] was added under the handle [id]. *)
Record added ws inner inner' (id : EntryId) (ancestors : gset EntryId) : Prop := {
  added_new : arena_get (arena inner) id = None;
  added_entry : exists e, arena_get (arena inner') id = Some e /\ e_tx e = ws_tx ws /\
    e_fee e = ws_base_fee ws /\ e_tx_weight e = ws_tx_weight ws /\
    e_parents e = find_parents inner (ws_tx ws) /\ e_children e = ∅ /\
    e_count_with_ancestors e = 1 + Z.of_nat (size ancestors) /\ e_count_with_descendants e = 1 /\
    e_size_with_descendants e = ws_vsize ws;
  added_ancestors j : j ∈ ancestors -> exists e e', arena_get (arena inner) j = Some e /\
    arena_get (arena inner') j = Some e' /\ ancestor_updated ws id e e';
  added_others j : j <> id -> j ∉ ancestors -> arena_get (arena inner') j = arena_get (arena inner) j;
}.

Lemma added_pointwise ws inner inner' id ancestors j :
  added ws inner inner' id ancestors -> j <> id ->
  (arena_get (arena inner) j = None /\ arena_get (arena inner') j = None) \/
  exists e e', arena_get (arena inner) j = Some e /\ arena_get (arena inner') j = Some e' /\ same_tx e e'.
Proof.
  intros Ha Hj. destruct (decide (j ∈ ancestors)) as [Hin | Hnin].
  - destruct (added_ancestors _ _ _ _ _ Ha j Hin) as (e & e' & He & He' & [Hsame _]%ancestor_updated_fields).
    right. by exists e, e'.
  - rewrite (added_others _ _ _ _ _ Ha j Hj Hnin). destruct (arena_get (arena inner) j) as [e |]; [| by left].
    right. exists e, e. done.
Qed.

Lemma added_sum ws inner inner' id ancestors (f : TxMemPoolEntry -> Z) e :
  added ws inner inner' id ancestors -> (forall e e', same_tx e e' -> f e' = f e) ->
  arena_get (arena inner') id = Some e ->
  pool_sum f (slots (entries (arena inner'))) = f e + pool_sum f (slots (entries (arena inner))).
Proof.
  intros Ha Hf He. rewrite (pool_sum_delete f _ id e He). f_equal. apply pool_sum_ext. intros j.
  destruct (decide (j = id)) as [-> | Hne].
  - rewrite lookup_delete_eq. pose proof (added_new _ _ _ _ _ Ha) as Hn. unfold arena_get in Hn. by rewrite Hn.
  - rewrite lookup_delete_ne by done.
    destruct (added_pointwise _ _ _ _ _ j Ha Hne) as [[H1' H2'] | (e1 & e2 & H1' & H2' & Hs)];
      unfold arena_get in *; rewrite H1', H2'; [done |]. cbn. by rewrite (Hf _ _ Hs).
Qed.

(** *** Ancestors of the inputs *)

Definition parent_ids inner (tx : Transaction) : list EntryId :=
  omap (fun i => get_by_txid (arena inner) (op_txid (previous_output i))) (tx_input tx).

Lemma find_parents_elem inner tx p : p ∈ find_parents inner tx <-> p ∈ parent_ids inner tx.
Proof.
  unfold find_parents, parent_ids.
  enough (Hg : forall X : gset EntryId, p ∈ foldl (fun acc input =>
    match get_by_txid (arena inner) (op_txid (previous_output input)) with
    | Some parent_id => {[ parent_id ]} ∪ acc | None => acc end) X (tx_input tx) <->
    p ∈ X \/ p ∈ omap (fun i => get_by_txid (arena inner) (op_txid (previous_output i))) (tx_input tx)) by (rewrite Hg; set_solver).
  induction (tx_input tx) as [| i l IH]; intros X; cbn; [set_solver |]. rewrite IH.
  destruct (get_by_txid _ _); set_solver.
Qed.

Lemma input_ancestors_spec inner tx :
  exists out, input_ancestors inner tx = Ok out /\
    forall x, x ∈ out <-> exists p, p ∈ find_parents inner tx /\ rtc (edge (parents_of (arena inner))) p x.
Proof.
  assert (Hg : forall ins seen, rfold (fun input ancestors =>
    match get_by_txid (arena inner) (op_txid (previous_output input)) with
    | Some parent_id => calculate_ancestors inner parent_id ancestors | None => Ok ancestors end) ins seen =
    expect (visit_all (parents_of (arena inner)) (search_fuel (arena inner))
      (omap (fun i => get_by_txid (arena inner) (op_txid (previous_output i))) ins) seen)).
  { induction ins as [| i ins IH]; intros seen; [done |]. cbn [rfold omap list_omap].
    destruct (get_by_txid (arena inner) (op_txid (previous_output i))) as [p |]; [| apply IH].
    cbn [visit_all]. assert (Hc : calculate_ancestors inner p seen = expect (visit (parents_of (arena inner))
      (search_fuel (arena inner)) p seen)) by done. rewrite Hc.
    destruct (visit _ _ p seen) as [seen' |]; [apply IH | done]. }
  assert (HD : forall x y, edge (parents_of (arena inner)) x y -> x ∈ dom (slots (entries (arena inner)))).
  { intros x y (e & He & _)%parents_edge. apply elem_of_dom. by exists e. }
  destruct (visit_all_total (parents_of (arena inner)) _ HD (search_fuel (arena inner)) (parent_ids inner tx) ∅)
    as [out Hout].
  { unfold search_fuel. rewrite <- (size_dom (D := gset EntryId)).
    apply Nat.lt_succ_r, subseteq_size. set_solver. }
  exists out. unfold input_ancestors. rewrite Hg. fold (parent_ids inner tx). rewrite Hout. split; [done |].
  intros x. setoid_rewrite find_parents_elem. apply visited_empty. by eapply visit_all_visited.
Qed.

(** The steps of the operation when there are no conflicts. *)
Lemma finalize_tx_steps ws inner c h t mtp bh seq id inner' c' :
  ws_conflict_set ws = None ->
  finalize_tx ws h t mtp bh seq (inner, c) = (Ok id, (inner', c')) ->
  exists ancestors state a',
    input_ancestors inner (ws_tx ws) = Ok ancestors /\
    rfold (add_ancestor inner) (hash_iter ancestors)
      (1, ws_vsize ws, ws_modified_fee ws, ws_sigop_cost ws) = Ok state /\
    link_entry ancestors ws (new_entry ws state (find_parents inner (ws_tx ws)) h t mtp bh seq)
      (arena inner) = Ok (a', id) /\
    is_u64 (total_tx_size inner + ws_tx_weight ws) /\ is_u64 (total_fee inner + ws_base_fee ws) /\
    c' = add_mempool_coins (ws_tx ws) c /\
    inner' = mk_inner a' (add_next_tx (ws_tx ws) (compute_txid (ws_tx ws)) (map_next_tx inner))
      (map_deltas inner) (txns_randomized inner) ({[ compute_txid (ws_tx ws) ]} ∪ unbroadcast inner)
      (total_tx_size inner + ws_tx_weight ws) (total_fee inner + ws_base_fee ws)
      (rolling_minimum_feerate inner) (last_rolling_fee_update inner).
Proof.
  intros Hcs H'. unfold finalize_tx, remove_conflicting in H'. rewrite Hcs in H'. inv_sm. cbn [fst snd] in *.
  match goal with H : with_inner _ _ = (Ok _, ?s) |- _ => rename H into Hl; destruct s as [s1 c1] end.
  cbn [with_inner fst snd] in *.
  match type of Hl with context [link_entry ?x ?w ?e ?y] => destruct (link_entry x w e y) as [[a' i] | |] eqn:Hlink end;
    cbn in Hl; simplify_eq. inv_arith. cbn in *. simplify_eq.
  eexists _, _, a'. split_and!; try done.
Qed.

(** An addition keeps the pool consistent. *)
Lemma added_wf ws inner inner' id ancestors :
  inner_wf inner -> added ws inner inner' id ancestors -> arena_wf (arena inner') ->
  0 < ws_tx_weight ws -> 0 <= ws_base_fee ws ->
  Forall (fun i => map_next_tx inner !! previous_output i = None) (tx_input (ws_tx ws)) ->
  map_next_tx inner' = add_next_tx (ws_tx ws) (compute_txid (ws_tx ws)) (map_next_tx inner) ->
  unbroadcast inner' = {[ compute_txid (ws_tx ws) ]} ∪ unbroadcast inner ->
  total_tx_size inner' = total_tx_size inner + ws_tx_weight ws -> total_tx_size inner' <= u64_max ->
  total_fee inner' = total_fee inner + ws_base_fee ws ->
  inner_wf inner'.
Proof.
  intros Hwf Ha Hawf Hw Hf Hun Hnext Hub Hsize Hu64 Hfee. pose proof Ha as [_ (e & He & Htx & Hef & Hew & _) _ _].
  assert (Hpt : forall j e', arena_get (arena inner') j = Some e' -> j = id /\ e' = e \/
    exists e0, j <> id /\ arena_get (arena inner) j = Some e0 /\ same_tx e0 e').
  { intros j e' Hj. destruct (decide (j = id)) as [-> | Hne]; [left; split; [done | congruence] |].
    destruct (added_pointwise _ _ _ _ _ j Ha Hne) as [[_ ?] | (e1 & e2 & ? & ? & ?)]; [congruence |].
    right. exists e1. split_and!; try done. congruence. }
  split; try done.
  - rewrite Hsize, (added_sum _ _ _ _ _ e_tx_weight e Ha same_e_weight He), (iw_size inner Hwf). lia.
  - rewrite Hfee, (added_sum _ _ _ _ _ e_fee e Ha same_e_fee He), (iw_fee inner Hwf). lia.
  - intros j e' [[-> ->] | (e0 & _ & He0 & Hs)]%Hpt; [lia |].
    rewrite (same_e_weight _ _ Hs), (same_e_fee _ _ Hs). by eapply iw_entry.
  - intros o txid. rewrite Hnext, add_next_tx_lookup. case_decide as Hin.
    + split.
      * intros [= <-]. exists id, e. unfold spent_by. by rewrite Htx.
      * intros (j & e' & Hj & Ho & <-). apply Hpt in Hj as [[-> ->] | (e0 & _ & He0 & Hs)]; [by rewrite Htx |].
        exfalso. unfold spent_by in Ho. rewrite (same_e_tx _ _ Hs) in Ho.
        assert (Hsp : map_next_tx inner !! o = Some (compute_txid (e_tx e0))) by (apply (iw_next inner Hwf); eauto).
        apply list_elem_of_fmap in Hin as (i & -> & Hi). rewrite Forall_forall in Hun. by rewrite Hun in Hsp.
    + rewrite (iw_next inner Hwf). split.
      * intros (j & e0 & Hj & Ho & <-). destruct (decide (j = id)) as [-> | Hne].
        { rewrite (added_new _ _ _ _ _ Ha) in Hj. done. }
        destruct (added_pointwise _ _ _ _ _ j Ha Hne) as [[? _] | (e1 & e2 & ? & He2 & Hs)]; [congruence |].
        exists j, e2. unfold spent_by in *. simplify_eq. by rewrite (same_e_tx _ _ Hs).
      * intros (j & e' & Hj & Ho & <-). apply Hpt in Hj as [[-> ->] | (e0 & _ & He0 & Hs)].
        { unfold spent_by in Ho. by rewrite Htx in Ho. }
        exists j, e0. unfold spent_by in *. by rewrite <- (same_e_tx _ _ Hs).
  - intros txid. rewrite Hub. intros [->%elem_of_singleton | Hin]%elem_of_union.
    + exists id. apply (wf_txid _ Hawf). exists e. by rewrite Htx.
    + apply (iw_unbroadcast inner Hwf) in Hin as [j Hj]. exists j.
      apply (wf_txid _ (iw_arena inner Hwf)) in Hj as (e0 & He0 & <-). apply (wf_txid _ Hawf).
      destruct (decide (j = id)) as [-> | Hne]; [by rewrite (added_new _ _ _ _ _ Ha) in He0 |].
      destruct (added_pointwise _ _ _ _ _ j Ha Hne) as [[? _] | (e1 & e2 & ? & He2 & Hs)]; [congruence |].
      exists e2. simplify_eq. by rewrite (same_e_tx _ _ Hs).
Qed.

(** *** The operation returns

    Amounts up to [2 ^ 42] satoshis per entry, more than 40000 bitcoins, keep the
    feerates, which are computed in millionths, within [i64]. *)
Record bounded (k : Z) e : Prop := {
  bd_fee : 0 <= e_modified_fee e <= k * 2 ^ 42;
  bd_weight : 0 < e_tx_weight e <= 2 ^ 60;
  bd_anc_fees : 0 <= e_fees_with_ancestors e <= k * 2 ^ 42;
  bd_anc_size : 0 < e_size_with_ancestors e <= k * 2 ^ 60;
  bd_anc_count : 0 <= e_count_with_ancestors e <= k * 2 ^ 60;
  bd_anc_sigops : 0 <= e_sigops_with_ancestors e <= k * 2 ^ 60;
  bd_desc_fees : 0 <= e_fees_with_descendants e <= k * 2 ^ 42;
  bd_desc_size : 0 < e_size_with_descendants e <= k * 2 ^ 60;
  bd_desc_count : 0 <= e_count_with_descendants e <= k * 2 ^ 60;
  bd_sigops : 0 <= e_sigop_cost e <= MAX_STANDARD_TX_SIGOPS_COST;
}.

Lemma feerate_of_total fee size :
  0 <= fee <= 2 ^ 43 -> 0 < size <= 2 ^ 62 ->
  exists r, feerate_of fee size = Ok r /\ 0 <= r <= i64_max.
Proof.
  intros Hf Hs. unfold feerate_of, mul_i64, div_i64.
  assert (Hw : wrap_i64 fee = fee) by (unfold wrap_i64; rewrite Z.mod_small by lia; lia). rewrite Hw.
  rewrite checked_i64_Ok by (unfold is_i64, i64_min, i64_max; lia). rcbn.
  rewrite (proj2 (Z.eqb_neq size 0)) by lia.
  assert (0 <= Z.quot (fee * 1000000) size <= fee * 1000000).
  { split; [apply Z.quot_pos; lia |]. apply Z.quot_le_upper_bound; nia. }
  rewrite checked_i64_Ok by (unfold is_i64, i64_min, i64_max; lia). eexists. split; [done |]. unfold i64_max. lia.
Qed.

Lemma vsize_bounds e : 0 < e_tx_weight e <= 2 ^ 60 -> 0 < vsize e <= e_tx_weight e.
Proof.
  intros Hw. unfold vsize, to_vbytes_ceil.
  assert (Hd : 1 <= (e_tx_weight e + 3) / 4 <= e_tx_weight e).
  { split; [apply Z.div_le_lower_bound; lia |]. apply Z.div_le_upper_bound; lia. }
  unfold wrap_i64. rewrite Z.mod_small by lia. lia.
Qed.

Lemma keys_total e :
  bounded 2 e ->
  exists ak dk, compute_ancestor_key e = Ok ak /\ compute_descendant_key e = Ok dk.
Proof.
  intros []. pose proof (vsize_bounds e bd_weight0).
  destruct (feerate_of_total (e_modified_fee e) (vsize e)) as (r1 & Hr1 & ?); [lia | lia |].
  destruct (feerate_of_total (e_fees_with_ancestors e) (e_size_with_ancestors e)) as (r2 & Hr2 & ?); [lia | lia |].
  destruct (feerate_of_total (e_fees_with_descendants e) (e_size_with_descendants e)) as (r3 & Hr3 & ?); [lia | lia |].
  unfold compute_ancestor_key, compute_descendant_key, feerate, ancestor_feerate, descendant_feerate, neg_i64.
  rewrite Hr1, Hr2, Hr3. rcbn. unfold i64_max in *.
  repeat (rewrite checked_i64_Ok by (unfold is_i64, i64_min, i64_max; lia); rcbn). by eexists _, _.
Qed.

(** What a new transaction adds to its relatives. *)
Record small_ws ws : Prop := {
  sw_weight : 0 < ws_tx_weight ws <= 2 ^ 32;
  sw_vsize : 0 < ws_vsize ws <= ws_tx_weight ws;
  sw_fee : 0 <= ws_modified_fee ws <= 2 ^ 42;
  sw_sigops : 0 <= ws_sigop_cost ws <= MAX_STANDARD_TX_SIGOPS_COST;
}.

Lemma add_signed_total fees delta :
  0 <= fees <= 2 ^ 43 -> 0 <= delta <= 2 ^ 43 -> add_signed fees (wrap_i64 delta) = Ok (fees + delta).
Proof.
  intros Hf Hd. unfold add_signed, add_i64, wrap_i64. rewrite !Z.mod_small by lia.
  replace (fees + 2 ^ 63 - 2 ^ 63 + (delta + 2 ^ 63 - 2 ^ 63)) with (fees + delta) by lia.
  rewrite checked_i64_Ok by (unfold is_i64, i64_min, i64_max; lia). rcbn.
  by rewrite (proj2 (Z.ltb_ge (fees + delta) 0)) by lia.
Qed.

Lemma update_ancestor_total ws id a e :
  small_ws ws -> arena_get a id = Some e -> bounded 1 e ->
  exists a', update_ancestor_state id (ws_vsize ws) (wrap_i64 (ws_modified_fee ws)) 1 (ws_sigop_cost ws) a = Ok a'.
Proof.
  intros [] He Hb. pose proof Hb as []. unfold update_ancestor_state, reindex, add_i64, MAX_STANDARD_TX_SIGOPS_COST in *.
  rewrite He. rcbn.
  rewrite (checked_i64_Ok (e_size_with_ancestors e + ws_vsize ws)) by (unfold is_i64, i64_min, i64_max; lia). rcbn.
  rewrite add_signed_total, add_count_small by lia. rcbn.
  rewrite (checked_i64_Ok (e_sigops_with_ancestors e + ws_sigop_cost ws)) by (unfold is_i64, i64_min, i64_max; lia).
  rcbn. destruct (keys_total (set_ancestor_state (e_count_with_ancestors e + 1) (e_size_with_ancestors e + ws_vsize ws)
    (e_fees_with_ancestors e + ws_modified_fee ws) (e_sigops_with_ancestors e + ws_sigop_cost ws) e))
    as (ak & dk & -> & ->); [| by eexists].
  split; cbn; unfold MAX_STANDARD_TX_SIGOPS_COST; lia.
Qed.

(** An ancestor after the first of its two updates. *)
Definition half_updated ws e : Prop :=
  exists e0, bounded 1 e0 /\
    ancestor_state_added (ws_vsize ws) (wrap_i64 (ws_modified_fee ws)) 1 (ws_sigop_cost ws) e0 e.

Lemma update_descendant_total ws id a e :
  small_ws ws -> arena_get a id = Some e -> half_updated ws e ->
  exists a', update_descendant_state id (ws_vsize ws) (wrap_i64 (ws_modified_fee ws)) 1 a = Ok a'.
Proof.
  intros [] He (e0 & Hb & count & fees & ak0 & dk0 & Hc & Hf & ->). pose proof Hb as [].
  rewrite add_count_small in Hc by lia. rewrite add_signed_total in Hf by lia. injection Hc as <-. injection Hf as <-.
  unfold update_descendant_state, add_i64, MAX_STANDARD_TX_SIGOPS_COST in *. rewrite He. rcbn. cbn [set_cached_keys set_ancestor_state
    e_size_with_descendants e_count_with_descendants e_fees_with_descendants].
  rewrite checked_i64_Ok by (unfold is_i64, i64_min, i64_max; lia). rcbn.
  rewrite add_signed_total, add_count_small by lia. rcbn.
  match goal with |- context [compute_descendant_key ?x] => destruct (keys_total x) as (ak & dk & _ & ->) end;
    [| by eexists].
  split; cbn; unfold MAX_STANDARD_TX_SIGOPS_COST; lia.
Qed.

Lemma rfold_total (P : TxMemPoolEntry -> Prop) (R : TxMemPoolEntry -> TxMemPoolEntry -> Prop)
  (f : EntryId -> MemPoolArena -> res MempoolError MemPoolArena) ids a :
  (forall id a a', arena_wf a -> f id a = Ok a' -> arena_wf a' /\ changes R id a a') ->
  (forall id a e, arena_get a id = Some e -> P e -> exists a', f id a = Ok a') ->
  NoDup ids -> arena_wf a -> (forall id, id ∈ ids -> exists e, arena_get a id = Some e /\ P e) ->
  exists a', rfold f ids a = Ok a'.
Proof.
  intros Hf Ht Hnd. revert a. induction Hnd as [| id ids Hnin Hnd IH]; intros a Hwf Hall; cbn [rfold]; [by eexists |].
  destruct (Hall id) as (e & He & HP); [by left |]. destruct (Ht id a e He HP) as [a1 Ha1].
  destruct (Hf id a a1 Hwf Ha1) as [Hwf1 (e1 & e2 & He1 & _ & Hget)].
  destruct (IH a1 Hwf1) as [a' Ha']; [| exists a'; by rewrite Ha1].
  intros j Hj. rewrite Hget, decide_False by (by intros ->). apply Hall. by right.
Qed.

Lemma link_entry_total ancestors ws entry a :
  arena_wf a -> get_by_txid a (compute_txid (e_tx entry)) = None ->
  get_by_wtxid a (compute_wtxid (e_tx entry)) = None -> small_ws ws -> bounded 2 entry ->
  (forall j, j ∈ ancestors -> exists e, arena_get a j = Some e /\ bounded 1 e) ->
  exists a' id, link_entry ancestors ws entry a = Ok (a', id).
Proof.
  intros Hwf Ht Hw Hsw Hb Hanc. unfold link_entry.
  assert (Hins : exists a1 id, insert entry a = Ok (a1, id)).
  { unfold insert. destruct (keys_total entry Hb) as (ak & dk & -> & ->). by eexists _, _. }
  destruct Hins as (a1 & id & Hins). rewrite Hins. rcbn.
  destruct (insert_wf _ _ _ _ Hwf Ht Hw Hins) as [Hwf1 Hnone].
  apply insert_get in Hins as (_ & ak & dk & Hget1 & _).
  assert (Hget1' : forall j, j ∈ ancestors -> arena_get a1 j = arena_get a j).
  { intros j Hj. rewrite Hget1, decide_False; [done |]. intros ->. destruct (Hanc _ Hj) as (? & ? & _). congruence. }
  destruct (insert_children_changes id (hash_iter ancestors) a1 Hwf1 (hash_iter_nodup ancestors)) as (Hwf2 & Hc & _).
  { intros j Hj%hash_iter_elem. rewrite Hget1' by done. destruct (Hanc _ Hj) as (? & ? & _). eauto. }
  destruct (rfold_total (bounded 1) _ _ (hash_iter ancestors) _
    (fun j b b' => update_ancestor_changes j (ws_vsize ws) (wrap_i64 (ws_modified_fee ws)) 1 (ws_sigop_cost ws) b b')
    (fun j b e => update_ancestor_total ws j b e Hsw) (hash_iter_nodup _) Hwf2) as [a3 Ha3].
  { intros j Hj. destruct (Hc j Hj) as (e & e1 & He & He1 & ->). exists (set_children ({[ id ]} ∪ e_children e) e).
    split; [done |]. rewrite hash_iter_elem in Hj. rewrite Hget1' in He by done.
    destruct (Hanc _ Hj) as (e' & ? & []). simplify_eq. by split. }
  rewrite Ha3. rcbn.
  eapply (rfold_changes _ _ _ _ _ (fun j b b' => update_ancestor_changes j _ _ _ _ b b')) in Ha3
    as (Hwf3 & Hu & _); [| apply hash_iter_nodup | done].
  destruct (rfold_total (half_updated ws) _ _ (hash_iter ancestors) a3
    (fun j b b' => update_descendant_changes j (ws_vsize ws) (wrap_i64 (ws_modified_fee ws)) 1 b b')
    (fun j b e => update_descendant_total ws j b e Hsw) (hash_iter_nodup _) Hwf3) as [a4 Ha4].
  { intros j Hj. destruct (Hu j Hj) as (e1 & e2 & He1 & He2 & HR). exists e2. split; [done |]. exists e1. split; [| done].
    destruct (Hc j Hj) as (e & e1' & He & He1' & ->). rewrite He1' in He1. injection He1 as <-.
    rewrite hash_iter_elem in Hj. rewrite Hget1' in He by done.
    destruct (Hanc _ Hj) as (e' & ? & []). simplify_eq. by split. }
  rewrite Ha4. rcbn. by eexists _, _.
Qed.
(** A pool that is far from the limits of the machine integers: a weight of
    less than [2 ^ 40] units in all, fees of less than [2 ^ 42] satoshis. *)
Record pool_bounded inner : Prop := {
  pb_weight : total_tx_size inner <= 2 ^ 40;
  pb_fees : pool_sum e_modified_fee (slots (entries (arena inner))) <= 2 ^ 42;
  pb_total_fee : total_fee inner <= 2 ^ 62;
  pb_entries j e : arena_get (arena inner) j = Some e -> bounded 1 e;
}.

Lemma ancestors_present inner tx out :
  inner_wf inner -> parents_present inner -> input_ancestors inner tx = Ok out ->
  forall j, j ∈ out -> is_Some (arena_get (arena inner) j).
Proof.
  intros Hwf Hp Ho j Hj. destruct (input_ancestors_spec inner tx) as (out' & Ho' & Hr).
  rewrite Ho in Ho'. injection Ho' as <-. apply Hr in Hj as (p & Hin & Hreach).
  apply find_parents_elem, list_elem_of_omap in Hin as (i & _ & Hi).
  assert (Hpp : is_Some (arena_get (arena inner) p)).
  { apply (wf_txid _ (iw_arena inner Hwf)) in Hi as (e & He & _). by exists e. }
  clear Hr Hi. induction Hreach as [| x y z Hxy Hreach IH]; [done |]. apply IH.
  apply parents_edge in Hxy as (e & He & Hy). by eapply Hp.
Qed.

Lemma pool_weight inner j e : inner_wf inner -> arena_get (arena inner) j = Some e -> 1 <= e_tx_weight e.
Proof. intros Hwf He. destruct (iw_entry inner Hwf j e He). lia. Qed.

Lemma ancestor_sums inner ids :
  inner_wf inner -> pool_bounded inner -> NoDup ids ->
  (forall j, j ∈ ids -> is_Some (arena_get (arena inner) j)) ->
  Z.of_nat (length ids) <= 2 ^ 40 /\ 0 <= sum_at vsize inner ids <= 2 ^ 40 /\
  0 <= sum_at e_modified_fee inner ids <= 2 ^ 42 /\ 0 <= sum_at e_sigop_cost inner ids <= 2 ^ 57.
Proof.
  intros Hwf [Hw Hf _ Hb] Hnd Hin.
  assert (Hv : forall j e, arena_get (arena inner) j = Some e -> 0 < vsize e <= e_tx_weight e)
    by (intros j e He; apply vsize_bounds; by destruct (Hb j e He)).
  assert (Hle : forall f g : TxMemPoolEntry -> Z, (forall j e, arena_get (arena inner) j = Some e -> f e <= g e) ->
    sum_at f inner ids <= sum_at g inner ids).
  { intros f g Hfg. clear Hnd. unfold sum_at, zsum. induction ids as [| id ids IH]; cbn [map foldr]; [done |].
    specialize (IH (fun j Hj => Hin j (proj2 (elem_of_cons ids j id) (or_intror Hj)))).
    destruct (Hin id) as [e He]; [by left |]. rewrite He. specialize (Hfg id e He). lia. }
  assert (Hone : sum_at (fun _ => 1) inner ids = Z.of_nat (length ids)).
  { clear Hnd Hle. induction ids as [| id ids IH]; [done |]. destruct (Hin id) as [e He]; [by left |].
    rewrite (sum_at_cons _ _ _ _ e He), IH by (intros; apply Hin; by right). cbn [length]. lia. }
  assert (Hsw : sum_at e_tx_weight inner ids <= 2 ^ 40).
  { etrans; [apply sum_at_le; [done |] | by rewrite <- (iw_size inner Hwf)].
    intros j e He. pose proof (pool_weight inner j e Hwf He). lia. }
  assert (Hlen : Z.of_nat (length ids) <= 2 ^ 40).
  { rewrite <- Hone. etrans; [apply (Hle _ e_tx_weight) | done]. intros j e. by apply pool_weight. }
  split; [done |]. split_and!.
  - apply sum_at_nonneg. intros j e He%Hv. lia.
  - etrans; [apply (Hle _ e_tx_weight); intros j e He%Hv; lia | done].
  - apply sum_at_nonneg. intros j e He. by destruct (Hb j e He) as [[] _ _ _ _ _ _ _ _ _].
  - etrans; [apply sum_at_le; [done |] | done]. intros j e He. by destruct (Hb j e He) as [[] _ _ _ _ _ _ _ _ _].
  - apply sum_at_nonneg. intros j e He. by destruct (Hb j e He) as [_ _ _ _ _ _ _ _ _ []].
  - etrans; [apply (Hle _ (fun _ => 80000)) |].
    { intros j e He. by destruct (Hb j e He) as [_ _ _ _ _ _ _ _ _ []]. }
    assert (Hc : sum_at (fun _ => 80000) inner ids = 80000 * Z.of_nat (length ids)); [| lia].
    clear -Hin. induction ids as [| id ids IH]; [done |]. destruct (Hin id) as [e He]; [by left |].
    rewrite (sum_at_cons _ _ _ _ e He), IH by (intros; apply Hin; by right). cbn [length]. lia.
Qed.

(** In such a pool, without stale parents, the addition succeeds. *)
Lemma finalize_tx_total ws inner c h t mtp bh seq :
  inner_wf inner -> parents_present inner -> pool_bounded inner -> small_ws ws ->
  ws_conflict_set ws = None -> 0 <= ws_base_fee ws <= 2 ^ 62 ->
  get_by_txid (arena inner) (compute_txid (ws_tx ws)) = None ->
  get_by_wtxid (arena inner) (compute_wtxid (ws_tx ws)) = None ->
  exists id inner' c', finalize_tx ws h t mtp bh seq (inner, c) = (Ok id, (inner', c')).
Proof.
  intros Hwf Hpp Hpb Hsw Hcs Hfee Ht Hwt. pose proof Hsw as [Hw Hv Hf Hs].
  destruct (input_ancestors_spec inner (ws_tx ws)) as (anc & Hanc & _).
  pose proof (ancestors_present _ _ _ Hwf Hpp Hanc) as Hpres.
  destruct (ancestor_sums inner (hash_iter anc) Hwf Hpb (hash_iter_nodup anc)) as (Hlen & Hsz & Hfs & Hsg).
  { intros j Hj%hash_iter_elem. by apply Hpres. }
  unfold finalize_tx, remove_conflicting, mbind, sm_bind. rewrite Hcs. cbn [mret sm_ret gets lift fst snd].
  unfold MAX_STANDARD_TX_SIGOPS_COST in *. rewrite Hanc. cbn [lift]. rewrite add_ancestors_total; try lia.
  2: { intros j Hj%hash_iter_elem. by apply Hpres. }
  2: { intros j e He. destruct (pb_entries inner Hpb j e He) as [[] Hew _ _ _ _ _ _ _ []].
       pose proof (vsize_bounds e Hew). lia. }
  cbn [lift with_inner].
  match goal with |- context [link_entry anc ws ?e (arena inner)] =>
    destruct (link_entry_total anc ws e (arena inner)) as (a' & id & Hl) end; try done.
  { apply (iw_arena inner Hwf). }
  { split; cbn; unfold MAX_STANDARD_TX_SIGOPS_COST; lia. }
  { intros j Hj. destruct (Hpres j Hj) as [e He]. exists e. split; [done |]. by eapply pb_entries. }
  rewrite Hl. destruct Hpb as [Hpw _ Hpf _].
  assert (0 <= total_tx_size inner).
  { rewrite (iw_size inner Hwf). apply pool_sum_nonneg. intros j e He. destruct (iw_entry inner Hwf j e He). lia. }
  assert (0 <= total_fee inner).
  { rewrite (iw_fee inner Hwf). apply pool_sum_nonneg. intros j e He. by destruct (iw_entry inner Hwf j e He). }
  cbn. unfold add_u64. rewrite checked_u64_Ok by (unfold is_u64, u64_max; lia). cbn.
  rewrite checked_u64_Some by (unfold is_u64, u64_max; lia). cbn. by eexists _, _, _.
Qed.

(** Adding an accepted transaction without conflicts keeps the pool
    consistent: indices, totals, the map of spent outputs, which has each output
    spent once, and the transactions to broadcast.  The new entry counts itself
    and its ancestors, which are everything reachable through parents; each
    ancestor gets the new entry as a child, one descendant more and its size;
    and, although its own ancestors are what they were, one ancestor more and
    that size in its ancestor state as well.  No other entry changes, and the
    outputs of the transaction become visible to later ones.  The operation does
    return when no parent is stale and the amounts are far from the limits of
    the integers. *)
Lemma finalize_tx_spec ws inner c h t mtp bh seq :
  inner_wf inner -> ws_conflict_set ws = None -> 0 < ws_tx_weight ws -> 0 <= ws_base_fee ws ->
  get_by_txid (arena inner) (compute_txid (ws_tx ws)) = None ->
  get_by_wtxid (arena inner) (compute_wtxid (ws_tx ws)) = None ->
  Forall (fun i => map_next_tx inner !! previous_output i = None) (tx_input (ws_tx ws)) ->
  (parents_present inner -> pool_bounded inner -> small_ws ws -> ws_base_fee ws <= 2 ^ 62 ->
   exists id inner' c', finalize_tx ws h t mtp bh seq (inner, c) = (Ok id, (inner', c'))) /\
  forall id inner' c',
  finalize_tx ws h t mtp bh seq (inner, c) = (Ok id, (inner', c')) ->
  inner_wf inner' /\ c' = add_mempool_coins (ws_tx ws) c /\
  exists ancestors, added ws inner inner' id ancestors /\
    (forall x, x ∈ ancestors <-> exists p, p ∈ find_parents inner (ws_tx ws) /\
       rtc (edge (parents_of (arena inner))) p x) /\
    forall j, j ∈ ancestors -> exists e e', arena_get (arena inner) j = Some e /\
      arena_get (arena inner') j = Some e' /\ same_tx e e' /\ e_children e' = {[ id ]} ∪ e_children e /\
      e_size_with_descendants e' = e_size_with_descendants e + ws_vsize ws /\
      e_size_with_ancestors e' = e_size_with_ancestors e + ws_vsize ws /\
      (0 <= e_count_with_descendants e < 2 ^ 62 ->
         e_count_with_descendants e' = e_count_with_descendants e + 1) /\
      (0 <= e_count_with_ancestors e < 2 ^ 62 ->
         e_count_with_ancestors e' = e_count_with_ancestors e + 1).
Proof.
  intros Hwf Hcs Hw Hf Ht Hwt Hun. split; [intros; by apply finalize_tx_total |]. intros id inner' c' H'.
  apply finalize_tx_steps in H' as (ancestors & [[[n z] f] g] & a' & Hanc & Hst & Hl & Hts & Htf & -> & Hin'); [| done].
  destruct (input_ancestors_spec inner (ws_tx ws)) as (anc & Hanc' & Hreach).
  rewrite Hanc in Hanc'. injection Hanc' as <-.
  apply add_ancestors_Ok in Hst as (Hpres & Hn).
  apply link_entry_spec in Hl as (Hwf' & Hnew & (ak & dk & He) & Hup & Hoth); try done;
    [| apply (iw_arena inner Hwf) | intros j Hj; by apply Hpres, hash_iter_elem].
  assert (Ha : added ws inner inner' id ancestors).
  { subst inner'. split; cbn; try done. eexists. split; [exact He |]. cbn. split_and!; try done.
    rewrite Hn, hash_iter_elements. done. }
  split; [| split; [done |]].
  - subst inner'. unfold is_u64 in *. eapply added_wf; try done; cbn; lia.
  - exists ancestors. split; [done |]. split; [done |]. intros j Hj.
    destruct (added_ancestors _ _ _ _ _ Ha j Hj) as (e & e' & He1 & He2 & Hu%ancestor_updated_fields).
    exists e, e'. split; [done |]. split; [done |]. exact Hu.
Qed.
End finalize.
