(* ===== verification/Mempool.v ===== *)
(** * The memory pool

    [crates/subcoin-mempool/src/lib.rs] and the types and the trait of
    [crates/subcoin-primitives/src/tx_pool.rs].  Locks are held for the whole of
    an operation, so that operations are functions of the state; readings of the
    clock are arguments. *)

From Stdlib Require Import ZArith Lia Sorted.
From stdpp Require Import prelude gmap sorting lexico.
From S2P Require Import Prelude Collections Opcode Bitcoin Runtime ScriptTypes Sample TxSanity Interpreter SigChecker Pallet Client.
From S2P Require Import MempoolTypes Arena MempoolInner CoinsView Policy Validation ValidationFacts Finalize.

(** ** The interface to the network *)

Inductive SoftRejection :=
| SoftAlreadyInMempool
| SoftMissingInputs (parents : list bytes)
| SoftFeeTooLow (min_kvb actual_kvb : Z)
| SoftMempoolFull
| SoftTooManyAncestors (count : Z)
| SoftTooManyDescendants (count : Z)
| SoftTxConflict
| SoftNoConflictToReplace
| SoftTxNotReplaceable
| SoftTooManyReplacements (count : Z)
| SoftNewUnconfirmedInput
| SoftInsufficientFee (m : InsufficientFeeMessage)
| SoftPackageTooLarge (count max : Z)
| SoftPackageSizeTooLarge (size : Z)
| SoftPackageCyclicDependencies
| SoftPackageFeeTooLow (feerate min : FeeRate)
| SoftPackageTxValidationFailed (txid : bytes) (e : MempoolError)
| SoftPackageRelayDisabled.

Inductive HardRejection :=
| HardCoinbase
| HardNotStandard (e : StandardTxError)
| HardTxVersionNotStandard
| HardTxSizeTooSmall
| HardNonFinal
| HardNonBIP68Final
| HardTooManySigops (cost : Z)
| HardNegativeFee
| HardFeeOverflow
| HardInvalidFeeRate (e : FeeRateError)
| HardAncestorSizeTooLarge (size : Z)
| HardDescendantSizeTooLarge (size : Z)
| HardScriptValidationFailed (input_index : nat) (e : Error)
| HardTxError (e : TxError)
| HardRuntimeApi (code : option Z).

Inductive RejectionReason :=
| Soft (r : SoftRejection)
| Hard (r : HardRejection).

Definition should_penalize_peer (r : RejectionReason) : bool :=
  match r with Hard _ => true | Soft _ => false end.

Inductive TxValidationResult :=
| Accepted (txid : bytes) (fee_rate : Z)
| Rejected (txid : bytes) (reason : RejectionReason).

Record TxPoolInfo := mk_pool_info {
  info_size : Z;
  info_bytes : Z;
  info_usage : Z;
  info_min_fee_rate : Z;
}.

(** How an error is reported. *)
Definition rejection_reason (e : MempoolError) : RejectionReason :=
  match e with
  | AlreadyInMempool => Soft SoftAlreadyInMempool
  | MissingInputs parents => Soft (SoftMissingInputs parents)
  | FeeTooLow min_kvb actual_kvb => Soft (SoftFeeTooLow min_kvb actual_kvb)
  | MempoolFull => Soft SoftMempoolFull
  | TooManyAncestors count => Soft (SoftTooManyAncestors count)
  | TooManyDescendants count => Soft (SoftTooManyDescendants count)
  | TxConflict => Soft SoftTxConflict
  | NoConflictToReplace => Soft SoftNoConflictToReplace
  | TxNotReplaceable => Soft SoftTxNotReplaceable
  | TooManyReplacements count => Soft (SoftTooManyReplacements count)
  | NewUnconfirmedInput => Soft SoftNewUnconfirmedInput
  | InsufficientFee m => Soft (SoftInsufficientFee m)
  | PackageTooLarge count max => Soft (SoftPackageTooLarge count max)
  | PackageSizeTooLarge size => Soft (SoftPackageSizeTooLarge size)
  | PackageCyclicDependencies => Soft SoftPackageCyclicDependencies
  | PackageFeeTooLow feerate min => Soft (SoftPackageFeeTooLow feerate min)
  | PackageTxValidationFailed txid e => Soft (SoftPackageTxValidationFailed txid e)
  | PackageRelayDisabled => Soft SoftPackageRelayDisabled
  | CoinbaseNotAllowed => Hard HardCoinbase
  | NotStandard e => Hard (HardNotStandard e)
  | TxVersionNotStandard => Hard HardTxVersionNotStandard
  | PoolTxSizeTooSmall => Hard HardTxSizeTooSmall
  | NonFinal => Hard HardNonFinal
  | NonBIP68Final => Hard HardNonBIP68Final
  | TooManySigops cost => Hard (HardTooManySigops cost)
  | NegativeFee => Hard HardNegativeFee
  | FeeOverflow => Hard HardFeeOverflow
  | InvalidFeeRate e => Hard (HardInvalidFeeRate e)
  | AncestorSizeTooLarge size => Hard (HardAncestorSizeTooLarge size)
  | DescendantSizeTooLarge size => Hard (HardDescendantSizeTooLarge size)
  | ScriptValidationFailed i e => Hard (HardScriptValidationFailed i e)
  | PoolTxError e => Hard (HardTxError e)
  | RuntimeApiError code => Hard (HardRuntimeApi (Some code))
  | MissingConflict => Hard (HardRuntimeApi None)
  end.

(** ** The pool *)

Record MemPool `{!LruApi} := mk_mempool {
  mp_options : MemPoolOptions;
  mp_inner : MemPoolInner;
  mp_coins_cache : CoinsViewCache;
  mp_transactions_updated : Z;
  mp_sequence_number : Z;
}.
Arguments mk_mempool {_} _ _ _ _ _.

Section mempool.
Context `{!ScriptApi, !HashApi, !KeyApi, !SighashApi}.
Context `{!TxApi, !PoolTxApi, !SlotKeys, !HashOrder, !LruApi, !RuntimeStates, !ChainApi}.
Context (client : Client).
Implicit Types (p : MemPool).

Definition with_options (options : MemPoolOptions) : MemPool :=
  mk_mempool options inner_new (coins_view_new (best_hash client) 10000) 0 1.

Definition set_inner (inner : MemPoolInner) p : MemPool :=
  mk_mempool (mp_options p) inner (mp_coins_cache p) (mp_transactions_updated p) (mp_sequence_number p).
Definition set_coins (c : CoinsViewCache) p : MemPool :=
  mk_mempool (mp_options p) (mp_inner p) c (mp_transactions_updated p) (mp_sequence_number p).

(** [fetch_add] on the atomic counters wraps. *)
Definition count_updated (n : Z) p : MemPool :=
  mk_mempool (mp_options p) (mp_inner p) (mp_coins_cache p)
    (wrap_u32 (mp_transactions_updated p + wrap_u32 n)) (mp_sequence_number p).
Definition set_sequence (n : Z) p : MemPool :=
  mk_mempool (mp_options p) (mp_inner p) (mp_coins_cache p) (mp_transactions_updated p) (wrap_u64 n).

(** The median time past of a block, or a fallback when it is not known. *)
Definition mtp_or (block : bytes) (fallback : Z) : Z :=
  match bitcoin_block_hash_for client block with
  | Some bitcoin_block_hash =>
      match get_block_metadata client bitcoin_block_hash with
      | Some metadata => bm_median_time_past metadata
      | None => fallback
      end
  | None => fallback
  end.

Definition entry_block_hash (best : bytes) : bytes :=
  default (replicate 32 0) (bitcoin_block_hash_for client best).

(** The checks before the addition; [now] is the clock inside [pre_checks]. *)
Definition validate_single (inner : MemPoolInner) (options : MemPoolOptions) (height mtp now : Z) :
    SM (ValidationWorkspace * CoinsViewCache) ValidationWorkspace :=
  pre_checks inner options height mtp now;;
  ws ← gets fst;
  lift (check_package_limits ws inner options);;
  check_inputs (ws_tx ws) standard_script_verify_flags 0 (tx_input (ws_tx ws));;
  check_inputs (ws_tx ws) mandatory_script_verify_flags 0 (tx_input (ws_tx ws));;
  gets fst.

Definition accept_single_transaction (tx : Transaction) (current_time now : Z) : SM MemPool unit := fun p =>
  let best := best_block (mp_coins_cache p) in
  let current_height := best_number client in
  let current_mtp := mtp_or best current_time in
  match validate_single (mp_inner p) (mp_options p) current_height current_mtp now
          (ws_new tx, mp_coins_cache p) with
  | (Ok ws, (_, c)) =>
      let seq := mp_sequence_number p in
      let p := set_sequence (seq + 1) p in
      match finalize_tx ws current_height current_time current_mtp (entry_block_hash best) seq
              (mp_inner p, c) with
      | (Ok _, (inner, c)) => (Ok tt, count_updated 1 (set_coins c (set_inner inner p)))
      | (Err e, (inner, c)) => (Err e, set_coins c (set_inner inner p))
      | (Panic, (inner, c)) => (Panic, set_coins c (set_inner inner p))
      end
  | (Err e, (_, c)) => (Err e, set_coins c p)
  | (Panic, (_, c)) => (Panic, set_coins c p)
  end.

(** *** Removal *)

Definition pool_trim_to_size (max_size : Z) p : res MempoolError MemPool :=
  inner ← trim_to_size max_size (mp_inner p);
  Ok (set_inner inner p).

Definition pool_expire (current_time max_age_seconds : Z) p : res MempoolError MemPool :=
  inner ← expire current_time max_age_seconds (mp_inner p);
  Ok (set_inner inner p).

Definition collect_conflicts (tx : Transaction) (inner : MemPoolInner) : gset EntryId :=
  foldl (fun acc input =>
    match get_conflict_tx inner (previous_output input) with
    | Some conflicting_txid =>
        match get_by_txid (arena inner) conflicting_txid with
        | Some entry_id => {[ entry_id ]} ∪ acc
        | None => acc
        end
    | None => acc
    end) ∅ (tx_input tx).

(** The phases that every removal from outside shares: descendants, the
    transactions, the pool, the coins. *)
Definition remove_expanded (to_remove : gset EntryId) (reason : RemovalReason) p :
    res MempoolError (MemPool * gset EntryId) :=
  let inner := mp_inner p in
  expanded ← rfold (calculate_descendants inner) (hash_iter to_remove) ∅;
  let removed_txs :=
    omap (fun entry_id => e_tx <$> arena_get (arena inner) entry_id) (hash_iter expanded) in
  inner ← remove_staged expanded false reason inner;
  Ok (set_coins (foldl (fun c tx => remove_mempool_tx tx c) (mp_coins_cache p) removed_txs)
        (set_inner inner p), expanded).

Definition connect (block : bytes) p : MemPool := set_coins (on_block_connected block (mp_coins_cache p)) p.

Definition remove_for_block (confirmed_txs : list Transaction) (new_best_block : bytes) p :
    res MempoolError MemPool :=
  let to_remove := foldl (fun acc tx =>
    let acc := match get_by_txid (arena (mp_inner p)) (compute_txid tx) with
               | Some entry_id => {[ entry_id ]} ∪ acc
               | None => acc
               end in
    collect_conflicts tx (mp_inner p) ∪ acc) ∅ confirmed_txs in
  '(p, expanded) ← remove_expanded to_remove RemovalBlock p;
  Ok (count_updated (Z.of_nat (size expanded)) (connect new_best_block p)).

Definition remove_conflicts (txs : list Transaction) p : res MempoolError MemPool :=
  let to_remove := foldl (fun acc tx => collect_conflicts tx (mp_inner p) ∪ acc) ∅ txs in
  '(p, expanded) ← remove_expanded to_remove RemovalConflict p;
  Ok (count_updated (Z.of_nat (size expanded)) p).

(** Is an entry no longer valid at a new tip? *)
Definition invalid_at (new_tip_height new_tip_mtp : Z) (entry : TxMemPoolEntry) : bool :=
  let lp := e_lock_points entry in
  ((0 <? lp_height lp) && (wrap_i32 new_tip_height <? lp_height lp)) ||
  ((0 <? lp_time lp) && (new_tip_mtp <? lp_time lp)) ||
  match lp_max_input_block lp with
  | Some max_input_block => negb (is_block_on_active_chain client max_input_block)
  | None => false
  end ||
  (e_spends_coinbase entry && (new_tip_height <? (e_entry_height entry + 100) `min` u32_max)).

Definition collect_invalid (new_tip_height new_tip_mtp : Z)
    (item : res MempoolError (EntryId * TxMemPoolEntry)) (acc : gset EntryId) :
    res MempoolError (gset EntryId) :=
  '(entry_id, entry) ← item;
  Ok (if invalid_at new_tip_height new_tip_mtp entry then {[ entry_id ]} ∪ acc else acc).

Definition remove_for_reorg (new_tip_height : Z) (new_best_block : bytes) (fallback_time : Z) p :
    res MempoolError MemPool :=
  let new_tip_mtp := mtp_or new_best_block fallback_time in
  to_remove ← rfold (collect_invalid new_tip_height new_tip_mtp)
                (iter_by_entry_time (arena (mp_inner p))) ∅;
  if bool_decide (to_remove = ∅) then Ok (connect new_best_block p)
  else
    '(p, expanded) ← remove_expanded to_remove RemovalReorg p;
    Ok (count_updated (Z.of_nat (size expanded)) (connect new_best_block p)).

(** *** Queries *)

Definition get_transaction (txid : bytes) p : res MempoolError (option Transaction) :=
  match get_by_txid (arena (mp_inner p)) txid with
  | Some entry_id => e ← expect (arena_get (arena (mp_inner p)) entry_id); Ok (Some (e_tx e))
  | None => Ok None
  end.

(** Satoshis per 1000 virtual bytes of an entry. *)
Definition relay_fee_rate (entry : TxMemPoolEntry) : res MempoolError Z :=
  let vs := (e_tx_weight entry + 3) / 4 in
  num ← mul_u64 (e_fee entry) 1000;
  if vs =? 0 then Panic else Ok (num / vs).

Fixpoint fee_rates (txids : list bytes) p : res MempoolError (list (bytes * Z)) :=
  match txids with
  | [] => Ok []
  | txid :: txids =>
      match get_entry (mp_inner p) txid with
      | Some entry =>
          r ← relay_fee_rate entry;
          rest ← fee_rates txids p;
          Ok ((txid, r) :: rest)
      | None => fee_rates txids p
      end
  end.

Definition pending_broadcast_txs p : res MempoolError (list (bytes * Z)) :=
  fee_rates (hash_iter (unbroadcast (mp_inner p))) p.

Definition mark_broadcast_txs (txids : list bytes) p : MemPool :=
  let s := mp_inner p in
  set_inner (mk_inner (arena s) (map_next_tx s) (map_deltas s) (txns_randomized s)
    (foldl (fun X txid => X ∖ {[ txid ]}) (unbroadcast s) txids) (total_tx_size s) (total_fee s)
    (rolling_minimum_feerate s) (last_rolling_fee_update s)) p.

Fixpoint priority_rates (items : list (res MempoolError (EntryId * TxMemPoolEntry))) :
    res MempoolError (list (bytes * Z)) :=
  match items with
  | [] => Ok []
  | item :: items =>
      '(_, entry) ← item;
      r ← relay_fee_rate entry;
      rest ← priority_rates items;
      Ok ((compute_txid (e_tx entry), r) :: rest)
  end.

Definition iter_txids_by_priority p : res MempoolError (list (bytes * Z)) :=
  priority_rates (iter_by_ancestor_score (arena (mp_inner p))).

Definition to_validation_result (txid : bytes) (result : res MempoolError unit) p :
    res MempoolError TxValidationResult :=
  match result with
  | Ok _ =>
      fee_rate ← match get_entry (mp_inner p) txid with
                 | Some entry => relay_fee_rate entry
                 | None => Ok 0
                 end;
      Ok (Accepted txid fee_rate)
  | Err e => Ok (Rejected txid (rejection_reason e))
  | Panic => Panic
  end.

(** The trait method. *)
Definition validate_transaction (tx : Transaction) (current_time now : Z) p :
    res MempoolError TxValidationResult * MemPool :=
  let '(result, p) := accept_single_transaction tx current_time now p in
  (to_validation_result (compute_txid tx) result p, p).

Definition pool_info p : TxPoolInfo :=
  mk_pool_info (inner_size (mp_inner p)) (total_size (mp_inner p)) (total_size (mp_inner p))
    (as_sat_per_kvb (min_relay_fee_rate (mp_options p))).
End mempool.
