(* ===== verification/MempoolFacts.v ===== *)
(** * Properties of the memory pool

    What every operation of [crates/subcoin-mempool/src/lib.rs] keeps, what an
    accepted transaction satisfies, what a block removes, and two runs that end
    in a panic. *)

From Stdlib Require Import ZArith Lia Sorted.
From stdpp Require Import prelude gmap sorting lexico.
From S2P Require Import Prelude Collections Opcode Bitcoin Runtime ScriptTypes Sample Solver TxSanity Interpreter SigChecker Pallet Client.
From S2P Require Import MempoolTypes Arena MempoolInner CoinsView Policy Validation ValidationFacts Finalize Mempool.

(** ** What a computation keeps, whatever its outcome *)

Section stable.
Context {S : Type} (R : relation S) `{!PreOrder R}.

Definition stable {A} (m : SM S A) : Prop := forall s, R s (m s).2.

Lemma stable_bind {A B} (m : SM S A) (f : A -> SM S B) :
  stable m -> (forall a, stable (f a)) -> stable (x ← m; f x).
Proof.
  intros Hm Hf s. unfold mbind, sm_bind. specialize (Hm s).
  destruct (m s) as [[a | e |] s1]; cbn in *; [| done | done]. trans s1; [done | apply Hf].
Qed.
Lemma stable_lift {A} (r : res MempoolError A) : stable (lift r).
Proof. intros s. cbn. reflexivity. Qed.
Lemma stable_ret {A} (a : A) : stable (mret a).
Proof. intros s. cbn. reflexivity. Qed.
Lemma stable_gets {A} (f : S -> A) : stable (gets f).
Proof. intros s. cbn. reflexivity. Qed.
Lemma stable_modify f : (forall s, R s (f s)) -> stable (modify f).
Proof. intros Hf s. apply Hf. Qed.
Lemma stable_fold {A B} (f : A -> B -> SM S B) l b :
  (forall x b, stable (f x b)) -> stable (sm_fold f l b).
Proof.
  intros Hf. revert b. induction l as [| x l IH]; intros b; cbn [sm_fold]; [apply stable_ret |].
  apply stable_bind; auto.
Qed.
End stable.

Create HintDb stable.
#[export] Hint Resolve stable_lift stable_ret stable_gets : stable.

(** Case analysis down to the single steps. *)
Ltac stable :=
  repeat first
    [ progress intros
    | solve [eauto 2 with stable typeclass_instances]
    | progress cbv zeta
    | match goal with |- stable _ (let '(_, _) := ?x in _) => destruct x end
    | match goal with |- stable _ (if ?b then _ else _) => destruct b end
    | match goal with |- stable _ (modify _) => apply stable_modify; done end
    | apply (stable_bind _) | apply (stable_fold _) ].

(** Only the cache of coins is touched: the overlay stays, and coherence. *)
Definition cache_only `{!LruApi, !RuntimeStates} {W} : relation (W * CoinsViewCache) := fun s s' =>
  same_overlay s.2 s'.2 /\ (coherent s.2 -> coherent s'.2).

#[export] Instance cache_only_preorder `{!LruApi, !RuntimeStates} {W} : PreOrder (cache_only (W := W)).
Proof.
  split; [by intros [w c] |]. intros [w1 c1] [w2 c2] [w3 c3] [(Ho & Hs & Hb) Hc] [(Ho' & Hs' & Hb') Hc'].
  split; [unfold same_overlay in *; cbn in *; split_and!; congruence | auto].
Qed.

(** The workspace stays the one of its transaction. *)
Definition same_ws_tx {C} : relation (ValidationWorkspace * C) := fun s s' => ws_tx s'.1 = ws_tx s.1.

#[export] Instance same_ws_tx_preorder {C} : PreOrder (same_ws_tx (C := C)).
Proof. split; [done |]. intros x y z Hxy Hyz. unfold same_ws_tx in *. congruence. Qed.

Section cache.
Context `{!LruApi, !LruLaws, !RuntimeStates}.

Lemma cache_lookup {W} o : stable (cache_only (W := W)) (lookup_coin o).
Proof.
  intros [w c]. unfold lookup_coin. destruct (get_coin o c) as [[c' coin] | e |] eqn:Hg; cbn; [| done | done].
  split; [by eapply get_coin_same | intros; by eapply get_coin_coherent].
Qed.
Lemma cache_prefetch {W} os : stable (cache_only (W := W)) (prefetch os).
Proof.
  intros [w c]. unfold prefetch. destruct (ensure_coins os c) as [c' | e |] eqn:He; cbn; [| done | done].
  split; [| intros; by eapply ensure_coins_coherent].
  unfold ensure_coins in He. case_match; inv_ok; done.
Qed.
Lemma ws_lookup o : stable same_ws_tx (lookup_coin o).
Proof. intros [w c]. unfold lookup_coin. by destruct (get_coin o c) as [[] | |]. Qed.
Lemma ws_prefetch os : stable same_ws_tx (prefetch os).
Proof. intros [w c]. unfold prefetch. by destruct (ensure_coins os c). Qed.
End cache.
#[export] Hint Resolve cache_lookup cache_prefetch ws_lookup ws_prefetch : stable.

(** ** Computations without errors *)

Definition no_err {A} (r : res MempoolError A) : Prop := forall e, r <> Err e.

Lemma no_err_bind {A B} (r : res MempoolError A) (f : A -> res MempoolError B) :
  no_err r -> (forall a, no_err (f a)) -> no_err (x ← r; f x).
Proof. unfold no_err. destruct r; cbn; naive_solver. Qed.
Lemma no_err_Ok {A} (a : A) : no_err (Ok a).
Proof. done. Qed.
Lemma no_err_Panic {A} : no_err (A := A) Panic.
Proof. done. Qed.
Lemma no_err_expect {A} (o : option A) : no_err (expect o).
Proof. by destruct o. Qed.
Lemma no_err_rfold {A B} (f : A -> B -> res MempoolError B) l b :
  (forall x b, no_err (f x b)) -> no_err (rfold f l b).
Proof.
  intros Hf. revert b. induction l as [| x l IH]; intros b; cbn [rfold]; [apply no_err_Ok |].
  apply no_err_bind; auto.
Qed.

Create HintDb no_err.
Ltac no_err :=
  repeat first
    [ progress intros
    | solve [auto 2 with no_err]
    | progress cbv zeta
    | match goal with |- no_err (let '(_, _) := ?x in _) => destruct x end
    | match goal with |- no_err (if ?b then _ else _) => destruct b end
    | match goal with |- no_err (match ?b with _ => _ end) => destruct b end
    | apply no_err_bind | apply no_err_rfold | apply no_err_expect | apply no_err_Ok | apply no_err_Panic ].

Section facts.
Context `{!ScriptApi, !HashApi, !KeyApi, !SighashApi}.
Context `{!TxApi, !PoolTxApi, !PoolTxLaws, !SlotKeys, !SlotKeysLaws, !HashOrder, !HashOrderLaws}.
Context `{!LruApi, !LruLaws, !RuntimeStates, !ChainApi}.
Implicit Types (p : MemPool) (inner : MemPoolInner) (c : CoinsViewCache) (client : Client).

Lemma cache_require {W} o : stable (cache_only (W := W)) (require_coin o).
Proof. unfold require_coin. stable. Qed.
Lemma ws_require o : stable same_ws_tx (require_coin o).
Proof. unfold require_coin. stable. Qed.
#[local] Hint Resolve cache_require ws_require : stable.

Lemma cache_pre_checks inner options h mtp now : stable cache_only (pre_checks inner options h mtp now).
Proof. unfold pre_checks, calculate_lock_points_at_tip, lock_point_input, input_value. stable. Qed.
Lemma ws_pre_checks inner options h mtp now : stable same_ws_tx (pre_checks inner options h mtp now).
Proof. unfold pre_checks, calculate_lock_points_at_tip, lock_point_input, input_value. stable. Qed.

Lemma cache_check_inputs {W} tx flags ins : forall i, stable (cache_only (W := W)) (check_inputs tx flags i ins).
Proof. induction ins as [| txin ins IH]; intros i; cbn [check_inputs]; stable. Qed.
Lemma ws_check_inputs tx flags ins : forall i, stable same_ws_tx (check_inputs tx flags i ins).
Proof. induction ins as [| txin ins IH]; intros i; cbn [check_inputs]; stable. Qed.
#[local] Hint Resolve cache_pre_checks cache_check_inputs : stable.

Lemma cache_validate inner options h mtp now : stable cache_only (validate_single inner options h mtp now).
Proof. unfold validate_single. stable. Qed.

(** ** Additions fail with one error only *)

Lemma no_err_feerate fee size : no_err (feerate_of fee size).
Proof. unfold feerate_of, mul_i64, div_i64. no_err. Qed.
#[local] Hint Resolve no_err_feerate : no_err.

Lemma no_err_ancestor_key e : no_err (compute_ancestor_key e).
Proof. unfold compute_ancestor_key, feerate, ancestor_feerate, neg_i64. no_err. Qed.
Lemma no_err_descendant_key e : no_err (compute_descendant_key e).
Proof. unfold compute_descendant_key, feerate, descendant_feerate, neg_i64. no_err. Qed.
#[local] Hint Resolve no_err_ancestor_key no_err_descendant_key : no_err.

Lemma no_err_link ancestors ws entry a : no_err (link_entry ancestors ws entry a).
Proof.
  unfold link_entry, insert, update_ancestor_state, update_descendant_state, reindex, add_signed, add_count, add_i64.
  no_err.
Qed.

Lemma no_err_update id ds df dc dg a : no_err (update_ancestor_state id ds df dc dg a).
Proof. unfold update_ancestor_state, reindex, add_signed, add_count, add_i64. no_err. Qed.
#[local] Hint Resolve no_err_update : no_err.

Lemma no_err_rebuild s : no_err (rebuild_randomized_list s).
Proof.
  unfold rebuild_randomized_list. apply no_err_bind; [| by intros].
  unfold iter_by_ancestor_score. induction (btree_iter _) as [| x l IH]; cbn [map]; [done |].
  apply no_err_bind; [unfold iter_item; no_err |]. intros [id e]. apply no_err_bind; [exact IH | no_err].
Qed.
#[local] Hint Resolve no_err_rebuild : no_err.

Lemma no_err_remove_staged X update reason s : no_err (remove_staged X update reason s).
Proof.
  assert (Hm : forall l, no_err (collect_metadata (arena s) X l)).
  { induction l as [| id l IH]; cbn [collect_metadata]; [done |].
    unfold calculate_truly_removed_ancestors, calculate_ancestors_recursive, add_stats, add_i64. no_err. }
  unfold remove_staged, collect_surviving_children_metadata, remove_entry, sub_u64,
    update_child_for_removed_ancestors, subtract_stats, neg_i64, calculate_descendants_recursive. no_err.
Qed.

Lemma add_ancestor_error inner id acc e : add_ancestor inner id acc = Err e -> e = FeeOverflow.
Proof.
  unfold add_ancestor. destruct acc as [[[n z] f] g]. unfold add_u64, add_i64.
  destruct (arena_get _ id); cbn; [| done]. destruct (checked_u64 (n + 1)); cbn; [| done].
  destruct (checked_i64 (z + _)); cbn; [| done]. destruct (checked_u64 (f + _)); cbn; [| naive_solver].
  by destruct (checked_i64 (g + _)).
Qed.

Lemma finalize_tx_error ws inner c h t mtp bh seq e s' :
  finalize_tx ws h t mtp bh seq (inner, c) = (Err e, s') -> e = FeeOverflow.
Proof.
  unfold finalize_tx, mbind, sm_bind.
  assert (Hr : forall e s', remove_conflicting ws (inner, c) <> (Err e, s')).
  { intros e' s1. unfold remove_conflicting. destruct (ws_conflict_set ws) as [cs |]; [| done].
    unfold mbind, sm_bind. cbn [with_inner]. pose proof (no_err_remove_staged (all_conflicts cs) true RemovalReplaced inner) as Hn.
    destruct (remove_staged _ _ _ _) as [inner1 | e1 |]; cbn; [done | by destruct (Hn e1) | done]. }
  destruct (remove_conflicting ws (inner, c)) as [[[] | e' |] [inner1 c1]]; [| by destruct (Hr e' (inner1, c1)) | done].
  cbn [gets lift fst snd]. destruct (input_ancestors_spec inner1 (ws_tx ws)) as (anc & -> & _). cbn [lift].
  destruct (rfold (add_ancestor inner1) _ _) as [state | e' |] eqn:Hst; cbn [lift].
  - cbn [with_inner]. pose proof (no_err_link anc ws
      (new_entry ws state (find_parents inner1 (ws_tx ws)) h t mtp bh seq) (arena inner1)) as Hne.
    destruct (link_entry _ _ _ _) as [[a' id] | e' |]; cbn; [| by destruct (Hne e') | done].
    unfold add_u64. destruct (checked_u64 _); cbn; [| done]. destruct (checked_u64 _); cbn; naive_solver.
  - intros [= <- _]. eapply (rfold_error _ (fun e => e = FeeOverflow)) in Hst; [done |].
    intros *. apply add_ancestor_error.
  - done.
Qed.

(** ** Acceptance *)

(** The script of every input runs through under the flags. *)
Definition scripts_verified (st : PalletState) c (tx : Transaction) (flags : Z) : Prop :=
  forall i txin coin, tx_input tx !! i = Some txin -> view st c (previous_output txin) = Some coin ->
  verify_script (H2 := transaction_checker (new_checker tx i (value (pc_output coin))))
    (script_sig txin) (script_pubkey (pc_output coin)) (txin_witness txin) flags = Ok tt.

Lemma check_inputs_Ok {W} (w : W) c st tx flags ins k s' :
  sees st c -> check_inputs tx flags k ins (w, c) = (Ok tt, s') ->
  exists c', s' = (w, c') /\ sees st c' /\ same_overlay c c' /\
    forall i txin coin, ins !! i = Some txin -> view st c (previous_output txin) = Some coin ->
    verify_script (H2 := transaction_checker (new_checker tx (k + i) (value (pc_output coin))))
      (script_sig txin) (script_pubkey (pc_output coin)) (txin_witness txin) flags = Ok tt.
Proof.
  revert k c. induction ins as [| txin ins IH]; intros k c Hs; cbn [check_inputs]; intros H'.
  { inv_sm. exists c. split_and!; try done. }
  inv_sm. match goal with H : require_coin _ _ = (Ok ?k, _) |- _ => rename H into Hr; rename k into coin end.
  apply (require_coin_Ok w c _ st) in Hr as (c1 & -> & Hs1 & Hso & Hv); [| done].
  destruct (IH (S k) c1 Hs1 H') as (c' & -> & Hs' & Hso' & Hall).
  exists c'. split; [done |]. split; [done |]. split.
  { destruct Hso as (? & ? & ?), Hso' as (? & ? & ?). unfold same_overlay. split_and!; congruence. }
  intros [| i] txin' coin' Hi Hv'; cbn in Hi.
  - injection Hi as <-. rewrite Hv in Hv'. injection Hv' as <-. rewrite Nat.add_0_r.
    match goal with u : unit |- _ => destruct u end. done.
  - rewrite <- Nat.add_succ_comm. apply Hall; [done |]. by rewrite (view_same st c c1).
Qed.

Lemma check_inputs_frame {W} tx flags k ins (w : W) c s :
  check_inputs tx flags k ins (w, c) = (Ok tt, s) -> s.1 = w.
Proof.
  revert k c. induction ins as [| txin ins IH]; intros k c; cbn [check_inputs]; intros H'; inv_sm; [done |].
  match goal with H : require_coin _ _ = (Ok _, ?s1) |- _ => apply require_coin_frame in H as [Hw _]; destruct s1 end.
  cbn in Hw. subst. by eapply IH.
Qed.

(** Success of the checks before the addition. *)
Lemma validate_single_inv inner options h mtp now c tx ws s' :
  validate_single inner options h mtp now (ws_new tx, c) = (Ok ws, s') ->
  exists c1 s2, pre_checks inner options h mtp now (ws_new tx, c) = (Ok tt, (ws, c1)) /\
    check_package_limits ws inner options = Ok tt /\
    check_inputs (ws_tx ws) standard_script_verify_flags 0 (tx_input (ws_tx ws)) (ws, c1) = (Ok tt, s2) /\
    check_inputs (ws_tx ws) mandatory_script_verify_flags 0 (tx_input (ws_tx ws)) s2 = (Ok tt, s') /\
    s'.1 = ws.
Proof.
  unfold validate_single. intros H'. inv_sm.
  repeat match goal with u : unit |- _ => destruct u end.
  match goal with H : pre_checks _ _ _ _ _ _ = (_, ?s) |- _ => destruct s as [ws1 c1]; rename H into Hp end.
  cbn [fst] in *.
  match goal with Ha : check_inputs _ standard_script_verify_flags _ _ _ = (_, ?s), Hb : check_inputs _ mandatory_script_verify_flags _ _ _ = _ |- _ =>
    pose proof (check_inputs_frame _ _ _ _ _ _ _ Ha) as Hw2; destruct s as [w2 c2]; cbn in Hw2; subst w2;
    pose proof (check_inputs_frame _ _ _ _ _ _ _ Hb) as Hw3 end.
  rewrite Hw3 in *. exists c1, (ws1, c2). done.
Qed.

(** A new transaction with the ancestors [anc] is within the limits. *)
Record within_limits ws inner options (anc : gset EntryId) : Prop := {
  wl_ancestors : Z.of_nat (size anc) + 1 <= max_ancestors options;
  wl_descendants j : j ∈ anc -> exists e, arena_get (arena inner) j = Some e /\
    e_count_with_descendants e + 1 <= max_descendants options /\
    e_size_with_descendants e + ws_vsize ws <= max_descendant_size options;
}.

Lemma check_package_limits_Ok ws inner options anc :
  check_package_limits ws inner options = Ok tt -> input_ancestors inner (ws_tx ws) = Ok anc ->
  within_limits ws inner options anc.
Proof.
  unfold check_package_limits. intros H' Hanc. rewrite Hanc in H'. inv_ok. bools. split; [lia |].
  intros j Hj%hash_iter_elem. apply (rfold_each _ _ j) in H'; [| done]. unfold check_descendants in H'. inv_ok.
  inv_arith. bools. match goal with H : arena_get _ _ = Some ?e |- _ => exists e; split; [done |] end. lia.
Qed.

Definition pool_wf p : Prop := inner_wf (mp_inner p) /\ coherent (mp_coins_cache p).

Lemma accept_Ok client tx t now p p' :
  accept_single_transaction client tx t now p = (Ok tt, p') ->
  exists ws c1 id inner' c2,
    let best := best_block (mp_coins_cache p) in
    validate_single (mp_inner p) (mp_options p) (best_number client) (mtp_or client best t) now
      (ws_new tx, mp_coins_cache p) = (Ok ws, (ws, c1)) /\
    finalize_tx ws (best_number client) t (mtp_or client best t) (entry_block_hash client best)
      (mp_sequence_number p) (mp_inner p, c1) = (Ok id, (inner', c2)) /\
    p' = count_updated 1 (set_coins c2 (set_inner inner' (set_sequence (mp_sequence_number p + 1) p))).
Proof.
  unfold accept_single_transaction. intros H'.
  destruct (validate_single _ _ _ _ _ _) as [[ws | |] [ws1 c1]] eqn:Hv; [| done | done].
  destruct (finalize_tx _ _ _ _ _ _ _) as [[id | |] [inner' c2]] eqn:Hf; [| done | done].
  injection H' as <-. exists ws, c1, id, inner', c2. cbn in Hf.
  split; [| done]. apply validate_single_inv in Hv as Hi. destruct Hi as (? & ? & _ & _ & _ & _ & Hw).
  cbn in Hw. by subst ws1.
Qed.

Lemma coherent_add tx c : coherent c -> coherent (add_mempool_coins tx c).
Proof. done. Qed.

(** What a successful addition needs of the workspace. *)
Lemma pre_checks_ready inner options h mtp now c tx ws c' :
  pre_checks inner options h mtp now (ws_new tx, c) = (Ok tt, (ws, c')) ->
  ws_tx ws = tx /\ ws_conflict_set ws = None /\ 0 < ws_tx_weight ws /\ 0 <= ws_base_fee ws /\
  get_by_txid (arena inner) (compute_txid (ws_tx ws)) = None /\
  get_by_wtxid (arena inner) (compute_wtxid (ws_tx ws)) = None /\
  Forall (fun i => map_next_tx inner !! previous_output i = None) (tx_input (ws_tx ws)).
Proof.
  intros H'.
  apply pre_checks_inv in H' as (ws0 & c1 & c2 & total & sc & prevs & lp & out & fee & min_fee & sigops &
    (_ & _ & _ & Hwt & Ht & Hun) & (Htx & Hwe & _ & Hcs) & _ & _ & _ & (_ & _ & Hpos & _) & _ & _ & ->).
  cbn. rewrite Htx, Hwe. split_and!; try done. apply weight_bounds.
Qed.

Lemma accept_wf client tx t now p p' :
  pool_wf p -> accept_single_transaction client tx t now p = (Ok tt, p') -> pool_wf p'.
Proof.
  intros [Hi Hc] (ws & c1 & id & inner' & c2 & Hv & Hf & ->)%accept_Ok.
  pose proof (cache_validate (mp_inner p) (mp_options p) (best_number client)
    (mtp_or client (best_block (mp_coins_cache p)) t) now (ws_new tx, mp_coins_cache p)) as [_ Hco].
  rewrite Hv in Hco. apply validate_single_inv in Hv as (c0 & s2 & Hp & _).
  apply pre_checks_ready in Hp as (Htx & Hcs & Hw & Hfee & Ht & Hwt & Hun).
  apply finalize_tx_spec in Hf as (Hwf & -> & _); try done.
  split; [done |]. apply coherent_add. by apply Hco.
Qed.

(** A rejection that is not an overflow of fees leaves the pool as it was. *)
Lemma reject_wf client tx t now p p' e :
  pool_wf p -> accept_single_transaction client tx t now p = (Err e, p') -> e <> FeeOverflow ->
  pool_wf p' /\ mp_inner p' = mp_inner p /\ mp_sequence_number p' = mp_sequence_number p.
Proof.
  intros [Hi Hc] H' Hne. unfold accept_single_transaction in H'.
  pose proof (cache_validate (mp_inner p) (mp_options p) (best_number client)
    (mtp_or client (best_block (mp_coins_cache p)) t) now (ws_new tx, mp_coins_cache p)) as [_ Hco].
  destruct (validate_single _ _ _ _ _ _) as [[ws | e' |] [ws1 c1]] eqn:Hv; cbn in Hco; [| | done].
  - exfalso. apply Hne. destruct (finalize_tx _ _ _ _ _ _ _) as [[id | e' |] [inner' c2]] eqn:Hf; [done | | done].
    injection H' as -> _. by eapply finalize_tx_error.
  - injection H' as _ <-. split; [| done]. split; [done |]. by apply Hco.
Qed.


(** ** Removal *)

Lemma rfold_visit_all (next : EntryId -> list EntryId) fuel ids seen :
  rfold (E := MempoolError) (fun id seen => expect (visit next fuel id seen)) ids seen =
  expect (visit_all next fuel ids seen).
Proof.
  revert seen. induction ids as [| id ids IH]; intros seen; cbn [rfold visit_all]; [done |].
  destruct (visit next fuel id seen); cbn; [apply IH | done].
Qed.

Lemma all_descendants inner ids :
  exists out, rfold (calculate_descendants inner) ids ∅ = Ok out /\
    forall x, x ∈ out <-> exists id, id ∈ ids /\ rtc (edge (children_of (arena inner))) id x.
Proof.
  assert (HD : forall x y, edge (children_of (arena inner)) x y -> x ∈ dom (slots (entries (arena inner)))).
  { intros x y (e & He & _)%children_edge. apply elem_of_dom. by exists e. }
  destruct (visit_all_total (children_of (arena inner)) _ HD (search_fuel (arena inner)) ids ∅) as [out Hout].
  { unfold search_fuel. rewrite <- (size_dom (D := gset EntryId)).
    apply Nat.lt_succ_r, subseteq_size. set_solver. }
  exists out. split; [| intros x; apply visited_empty; by eapply visit_all_visited].
  unfold calculate_descendants. by rewrite rfold_visit_all, Hout.
Qed.

(** The overlay after removals: nothing new, and no output of a removed
    transaction. *)
Lemma remove_txs_overlay txs c o :
  mempool_overlay (foldl (fun c tx => remove_mempool_tx tx c) c txs) !! o = mempool_overlay c !! o \/
  mempool_overlay (foldl (fun c tx => remove_mempool_tx tx c) c txs) !! o = None.
Proof.
  revert c. induction txs as [| tx txs IH]; intros c; cbn [foldl]; [by left |].
  destruct (IH (remove_mempool_tx tx c)) as [-> | ->]; [| by right].
  unfold remove_mempool_tx. cbn. generalize (seq 0 (length (tx_output tx))). intros l.
  generalize (mempool_overlay c). induction l as [| k l IHl]; intros m; cbn [foldl]; [by left |].
  destruct (IHl (delete (mk_outpoint (compute_txid tx) (wrap_u32 (Z.of_nat k))) m)) as [-> | ->]; [| by right].
  destruct (decide (o = mk_outpoint (compute_txid tx) (wrap_u32 (Z.of_nat k)))) as [-> | Hne];
    [right; by rewrite lookup_delete_eq | left; by rewrite lookup_delete_ne].
Qed.

Lemma remove_txs_outputs txs c tx o :
  tx ∈ txs -> Z.of_nat (length (tx_output tx)) <= 2 ^ 32 -> is_Some (pending_output tx o) ->
  mempool_overlay (foldl (fun c tx => remove_mempool_tx tx c) c txs) !! o = None.
Proof.
  intros Hin Hl [coin Hp]. apply list_elem_of_split in Hin as (l1 & l2 & ->). rewrite foldl_app. cbn [foldl].
  set (c1 := foldl _ c l1). destruct (remove_txs_overlay l2 (remove_mempool_tx tx c1) o) as [-> | ->]; [| done].
  by rewrite remove_mempool_tx_lookup, Hp by done.
Qed.

Lemma remove_txs_cache txs c :
  let c' := foldl (fun c tx => remove_mempool_tx tx c) c txs in
  base_cache c' = base_cache c /\ best_block c' = best_block c.
Proof. revert c. induction txs as [| tx txs IH]; intros c; cbn [foldl]; [done |]. apply (IH (remove_mempool_tx tx c)). Qed.

(** The removal of a set with its descendants. *)
Record expanded_removal (X gone : gset EntryId) p p' : Prop := {
  er_wf : pool_wf p';
  er_gone x : x ∈ gone <-> exists id, id ∈ X /\ rtc (edge (children_of (arena (mp_inner p)))) id x;
  er_get j : arena_get (arena (mp_inner p')) j =
    if decide (j ∈ gone) then None else arena_get (arena (mp_inner p)) j;
  er_overlay j e o : j ∈ gone -> arena_get (arena (mp_inner p)) j = Some e ->
    Z.of_nat (length (tx_output (e_tx e))) <= 2 ^ 32 -> is_Some (pending_output (e_tx e) o) ->
    mempool_overlay (mp_coins_cache p') !! o = None;
  er_best : best_block (mp_coins_cache p') = best_block (mp_coins_cache p);
  er_options : mp_options p' = mp_options p;
}.

Lemma remove_expanded_spec X reason p :
  pool_wf p ->
  exists p' gone, remove_expanded X reason p = Ok (p', gone) /\ expanded_removal X gone p p'.
Proof.
  intros [Hi Hc]. unfold remove_expanded.
  destruct (all_descendants (mp_inner p) (hash_iter X)) as (gone & -> & Hgone). rcbn.
  destruct (remove_staged_spec (mp_inner p) gone reason Hi) as (inner' & _ & -> & Hi' & Hget & _). rcbn.
  set (txs := omap _ _). destruct (remove_txs_cache txs (mp_coins_cache p)) as [Hb Hbb].
  eexists _, gone. split; [done |]. split; cbn; try done.
  - split; [done |]. intros o v. cbn. rewrite Hb, Hbb. apply Hc.
  - intros x. rewrite Hgone. by setoid_rewrite hash_iter_elem.
  - intros j e o Hj He Hl Hp. apply (remove_txs_outputs txs _ (e_tx e)); [| done | done].
    apply list_elem_of_omap. exists j. split; [by apply hash_iter_elem | by rewrite He].
Qed.

Lemma wf_connect block p : pool_wf p -> pool_wf (connect block p).
Proof. intros [Hi Hc]. split; [done |]. intros o v Hp. cbn in Hp. by rewrite lru_peek_clear in Hp. Qed.

Lemma wf_count n p : pool_wf p -> pool_wf (count_updated n p).
Proof. done. Qed.

Lemma collect_conflicts_elem tx inner id :
  inner_wf inner ->
  id ∈ collect_conflicts tx inner <->
  exists e o, arena_get (arena inner) id = Some e /\ o ∈ spent_by e /\ o ∈ map previous_output (tx_input tx).
Proof.
  intros Hi. unfold collect_conflicts.
  enough (Hfold : forall l (acc : gset EntryId), id ∈ foldl (fun acc input =>
      match get_conflict_tx inner (previous_output input) with
      | Some conflicting_txid =>
          match get_by_txid (arena inner) conflicting_txid with
          | Some entry_id => {[ entry_id ]} ∪ acc
          | None => acc
          end
      | None => acc
      end) acc l <->
    id ∈ acc \/ exists e o, arena_get (arena inner) id = Some e /\ o ∈ spent_by e /\ o ∈ map previous_output l).
  { rewrite Hfold. set_solver. }
  induction l as [| i l IH]; intros acc; cbn [foldl map].
  { split; [by left |]. intros [? | (? & ? & _ & _ & ?%elem_of_nil)]; done. }
  rewrite IH. setoid_rewrite elem_of_cons. unfold get_conflict_tx.
  destruct (map_next_tx inner !! previous_output i) as [txid |] eqn:Hn.
  - apply (iw_next inner Hi) in Hn as (j & e & Hj & Ho & Ht).
    assert (Hb : get_by_txid (arena inner) txid = Some j) by (apply (wf_txid _ (iw_arena inner Hi)); eauto).
    rewrite Hb, elem_of_union, elem_of_singleton. split.
    + intros [[-> | ?] | (e' & o & ? & ? & ?)]; [right; exists e, (previous_output i); auto | by left | right; eauto 10].
    + intros [? | (e' & o & He' & Ho' & [-> | ?])]; [eauto | | right; eauto 10].
      left. left. by eapply (inner_wf_no_double_spend inner).
  - split; [intros [? | (e' & o & ? & ? & ?)]; [by left | right; eauto 10] |].
    intros [? | (e' & o & He' & Ho' & [-> | ?])]; [by left | | right; eauto 10].
    exfalso. assert (map_next_tx inner !! previous_output i = Some (compute_txid (e_tx e')))
      by (apply (iw_next inner Hi); eauto). congruence.
Qed.

(** An entry that a block with the transactions [txs] confirms or contradicts. *)
Definition settled (txs : list Transaction) e : Prop :=
  exists tx, tx ∈ txs /\ (compute_txid (e_tx e) = compute_txid tx \/
    exists o, o ∈ spent_by e /\ o ∈ map previous_output (tx_input tx)).

Lemma block_removals_elem txs inner id :
  inner_wf inner ->
  id ∈ foldl (fun acc tx =>
    let acc := match get_by_txid (arena inner) (compute_txid tx) with
               | Some entry_id => {[ entry_id ]} ∪ acc
               | None => acc
               end in
    collect_conflicts tx inner ∪ acc) ∅ txs <->
  exists e, arena_get (arena inner) id = Some e /\ settled txs e.
Proof.
  intros Hi. induction txs as [| tx txs IH] using rev_ind; cbn [foldl].
  { split; [set_solver |]. intros (e & _ & tx & ?%elem_of_nil & _). done. }
  rewrite foldl_app. cbn [foldl]. set (acc := foldl _ _ _) in *. cbv zeta.
  rewrite elem_of_union, collect_conflicts_elem by done.
  assert (Htx : id ∈ match get_by_txid (arena inner) (compute_txid tx) with
      | Some entry_id => {[ entry_id ]} ∪ acc | None => acc end <->
    (exists e, arena_get (arena inner) id = Some e /\ compute_txid (e_tx e) = compute_txid tx) \/ id ∈ acc).
  { pose proof (wf_txid _ (iw_arena inner Hi) (compute_txid tx) id) as Hg. fold (get_by_txid (arena inner) (compute_txid tx)) in Hg.
    rewrite <- Hg. destruct (get_by_txid _ _); set_solver. }
  rewrite Htx, IH. unfold settled. setoid_rewrite elem_of_app. setoid_rewrite list_elem_of_singleton. split.
  - intros [(e & o & ? & ? & ?) | [(e & ? & ?) | (e & ? & tx' & ? & ?)]]; exists e; (split; [done |]); [exists tx .. | exists tx'];
      eauto 10.
  - intros (e & ? & tx' & [? | ->] & [? | (o & ? & ?)]); eauto 15.
Qed.

(** C15: A block is processed without panic.  Exactly the entries it confirms or
    that spend an output it spends are removed, with all their descendants; so
    afterwards no transaction of the block is in the pool and no entry competes
    with the block.  The outputs of what was removed are no longer offered as
    unconfirmed coins, later lookups are answered at the new block, and the pool
    is consistent. *)
Theorem remove_for_block_spec txs block p :
  pool_wf p ->
  let inner := mp_inner p in
  exists p' (gone : gset EntryId), remove_for_block txs block p = Ok p' /\ pool_wf p' /\
    best_block (mp_coins_cache p') = block /\
    (forall j, arena_get (arena (mp_inner p')) j = if decide (j ∈ gone) then None else arena_get (arena inner) j) /\
    (forall x, x ∈ gone <-> exists id e, arena_get (arena inner) id = Some e /\ settled txs e /\
       rtc (edge (children_of (arena inner))) id x) /\
    (forall tx, tx ∈ txs -> contains_txid (mp_inner p') (compute_txid tx) = false /\
       forall i, i ∈ tx_input tx -> get_conflict_tx (mp_inner p') (previous_output i) = None) /\
    (forall j e o, j ∈ gone -> arena_get (arena inner) j = Some e ->
       Z.of_nat (length (tx_output (e_tx e))) <= 2 ^ 32 -> is_Some (pending_output (e_tx e) o) ->
       mempool_overlay (mp_coins_cache p') !! o = None) /\
    mp_transactions_updated p' = wrap_u32 (mp_transactions_updated p + wrap_u32 (Z.of_nat (size gone))).
Proof.
  intros Hwf inner. pose proof Hwf as [Hi _]. unfold remove_for_block. set (X := foldl _ _ _).
  destruct (remove_expanded_spec X RemovalBlock p Hwf) as (p1 & gone & Hr & []). rewrite Hr. rcbn.
  eexists _, gone. split; [done |]. split; [by apply wf_count, wf_connect |]. split; [done |]. split; [done |].
  assert (Hgone : forall x, x ∈ gone <-> exists id e, arena_get (arena inner) id = Some e /\ settled txs e /\
    rtc (edge (children_of (arena inner))) id x).
  { intros x. rewrite er_gone0. unfold X. setoid_rewrite block_removals_elem; [| done]. split.
    - intros (id & (e & ? & ?) & ?). by exists id, e.
    - intros (id & e & ? & ? & ?). exists id. eauto. }
  split; [done |]. split; [| split; [done |]].
  - assert (Hnone : forall j e, arena_get (arena (mp_inner p1)) j = Some e -> ~ settled txs e).
    { intros j e He Hset. rewrite er_get0 in He. case_decide as Hin; [done |]. apply Hin, Hgone.
      exists j, e. split; [done |]. split; [done | apply rtc_refl]. }
    destruct er_wf0 as [Hi1 _]. intros tx Htx. cbn. split.
    + unfold contains_txid. apply bool_decide_eq_false_2. intros [j Hj].
      apply (wf_txid _ (iw_arena _ Hi1)) in Hj as (e & He & Ht). apply (Hnone j e He). exists tx. eauto.
    + intros i Hin. unfold get_conflict_tx. destruct (map_next_tx _ !! _) as [txid |] eqn:Hn; [| done]. exfalso.
      apply (iw_next _ Hi1) in Hn as (j & e & He & Ho & _). apply (Hnone j e He). exists tx. split; [done |].
      right. exists (previous_output i). split; [done |]. apply list_elem_of_fmap. eauto.
  - cbn. unfold remove_expanded in Hr. inv_ok. simplify_eq. done.
Qed.

(** ** The invariant *)

Lemma remove_expanded_wf X reason p p' gone :
  pool_wf p -> remove_expanded X reason p = Ok (p', gone) -> pool_wf p'.
Proof.
  intros Hwf Hr. destruct (remove_expanded_spec X reason p Hwf) as (p1 & g & Hr' & []).
  rewrite Hr' in Hr. by injection Hr as <- <-.
Qed.

Lemma mark_broadcast_wf txids p : pool_wf p -> pool_wf (mark_broadcast_txs txids p).
Proof.
  intros [Hi Hc]. split; [| done]. destruct Hi. split; cbn; try done. intros txid Hin. apply iw_unbroadcast.
  revert Hin. generalize (unbroadcast (mp_inner p)).
  induction txids as [| x l IH]; intros X; cbn [foldl]; [done |]. intros Hin%IH. set_solver.
Qed.

Inductive pool_step p : MemPool -> Prop :=
| step_accept client tx t now p' :
    accept_single_transaction client tx t now p = (Ok tt, p') -> pool_step p p'
| step_reject client tx t now e p' :
    accept_single_transaction client tx t now p = (Err e, p') -> e <> FeeOverflow -> pool_step p p'
| step_block txs block p' : remove_for_block txs block p = Ok p' -> pool_step p p'
| step_conflicts txs p' : remove_conflicts txs p = Ok p' -> pool_step p p'
| step_reorg client h block t p' : remove_for_reorg client h block t p = Ok p' -> pool_step p p'
| step_trim max_size p' : 0 <= max_size -> pool_trim_to_size max_size p = Ok p' -> pool_step p p'
| step_expire t age p' : is_i64 (t - age) -> pool_expire t age p = Ok p' -> pool_step p p'
| step_broadcast txids : pool_step p (mark_broadcast_txs txids p).

Lemma pool_step_wf p p' : pool_step p p' -> pool_wf p -> pool_wf p'.
Proof.
  destruct 1 as [client tx t now p' Ha | client tx t now e p' Ha Hne | txs block p' Hr | txs p' Hr
    | client h block t p' Hr | max_size p' Hm Hr | t age p' Ht Hr | txids]; intros Hwf.
  - by eapply accept_wf.
  - by eapply reject_wf.
  - unfold remove_for_block in Hr. inv_ok. match goal with x : (MemPool * _)%type |- _ => destruct x end. inv_ok.
    apply wf_count, wf_connect. by eapply remove_expanded_wf.
  - unfold remove_conflicts in Hr. inv_ok. match goal with x : (MemPool * _)%type |- _ => destruct x end. inv_ok.
    apply wf_count. by eapply remove_expanded_wf.
  - unfold remove_for_reorg in Hr. inv_ok. case_bool_decide; inv_ok; [by apply wf_connect |].
    match goal with x : (MemPool * _)%type |- _ => destruct x end. inv_ok.
    apply wf_count, wf_connect. by eapply remove_expanded_wf.
  - unfold pool_trim_to_size in Hr. inv_ok. destruct Hwf as [Hi Hc]. split; [| done].
    match goal with H : trim_to_size _ _ = Ok _ |- _ => rename H into Htr end. unfold trim_to_size in Htr.
    destruct (trim_loop_spec _ max_size (mp_inner p) Hi Hm (Nat.lt_succ_diag_r _)) as (s' & Hs & Hw & _).
    rewrite Hs in Htr. by injection Htr as <-.
  - unfold pool_expire in Hr. inv_ok. destruct Hwf as [Hi Hc]. split; [| done].
    match goal with H : expire _ _ _ = Ok _ |- _ => rename H into Htr end.
    destruct (expire_spec (mp_inner p) t age Hi Ht) as (s' & Hs & Hw & _).
    rewrite Hs in Htr. by injection Htr as <-.
  - by apply mark_broadcast_wf.
Qed.


(** ** Panics *)

(** A transaction whose first output makes the classification of scripts
    panic, for example one that pushes 256 items after a number, makes the pool
    panic when it is offered, whatever the pool holds and whether or not its
    inputs exist or are signed. *)
Lemma unclassifiable_output_panics client tx out outs t now p :
  check_transaction_sanity tx = Ok tt -> is_coinbase tx = false ->
  opt_require_standard (mp_options p) = true ->
  1 <= tx_version tx <= 3 -> weight tx <= MAX_STANDARD_TX_WEIGHT ->
  MIN_STANDARD_TX_NONWITNESS_SIZE <= base_size tx -> check_standard_inputs (tx_input tx) = Ok tt ->
  tx_output tx = out :: outs -> solve (E := StandardTxError) (script_pubkey out) = Panic ->
  (accept_single_transaction client tx t now p).1 = Panic.
Proof.
  intros Hs Hcb Hreq Hv Hw Hb Hin Hout Hsolve. unfold accept_single_transaction.
  assert (Hstd : is_standard_tx tx (opt_max_datacarrier_bytes (mp_options p))
    (opt_permit_bare_multisig (mp_options p)) (from_sat_per_kvb (opt_dust_relay_feerate (mp_options p))) = Panic).
  { unfold is_standard_tx, TX_MAX_STANDARD_VERSION. rewrite !(proj2 (Z.ltb_ge _ _)) by lia. cbn.
    rewrite Hin, Hout. cbn. by rewrite Hsolve. }
  enough (Hp : exists s, validate_single (mp_inner p) (mp_options p) (best_number client)
    (mtp_or client (best_block (mp_coins_cache p)) t) now (ws_new tx, mp_coins_cache p) = (Panic, s)).
  { destruct Hp as [[ws c] ->]. done. }
  eexists. unfold validate_single, pre_checks, mbind, sm_bind. cbn [gets lift fst ws_tx ws_new].
  rewrite Hs, Hcb, Hreq, Hstd. reflexivity.
Qed.

(** After an expiry that took a parent and left its younger child, nothing
    that spends an output of the child is accepted any more: the ancestors of
    the new transaction include a handle that finds no entry, on which the check
    of the package limits panics unless it rejects the transaction before. *)
Lemma stale_parent_blocks client tx t now p p' j e parent i :
  pool_wf p -> arena_get (arena (mp_inner p)) j = Some e -> parent ∈ e_parents e ->
  arena_get (arena (mp_inner p)) parent = None ->
  i ∈ tx_input tx -> op_txid (previous_output i) = compute_txid (e_tx e) ->
  accept_single_transaction client tx t now p <> (Ok tt, p').
Proof.
  intros [Hi _] He Hpar Hnone Hin Hid (ws & c1 & id & inner' & c2 & Hv & _ & _)%accept_Ok.
  apply validate_single_inv in Hv as (c0 & s2 & Hp & Hlim & _).
  apply pre_checks_ready in Hp as (Htx & _).
  destruct (input_ancestors_spec (mp_inner p) (ws_tx ws)) as (anc & Hanc & Hreach).
  assert (Hpa : parent ∈ anc).
  { apply Hreach. exists j. split.
    - apply find_parents_elem, list_elem_of_omap. exists i. rewrite Htx. split; [done |]. rewrite Hid.
      apply (wf_txid _ (iw_arena _ Hi)). eauto.
    - eapply rtc_l; [apply parents_edge; eauto | apply rtc_refl]. }
  destruct (wl_descendants _ _ _ _ (check_package_limits_Ok _ _ _ _ Hlim Hanc) parent Hpa) as (e' & He' & _).
  congruence.
Qed.
End facts.

(** ** Concrete runs *)

Module SampleMempool.
(** Options under which any script is relayed. *)
Definition options : MemPoolOptions := {|
  opt_max_size_bytes := 300000000;
  opt_expiry_seconds := 1209600;
  opt_min_relay_feerate := 1000;
  opt_dust_relay_feerate := 1000;
  opt_max_datacarrier_bytes := 83;
  opt_permit_bare_multisig := true;
  opt_require_standard := false;
  opt_max_script_cache_size := 1;
  opt_limits := limits_default;
  opt_enable_rbf := true;
  opt_max_replacement_txs := 100;
  opt_enable_package_relay := true;
  opt_max_package_count := 25;
  opt_max_package_vsize := 101000;
|}.

(** A chain of three spends of the one coin of the runtime. *)
Definition parent : Transaction := SamplePool.spend [7] 0 u32_max 4000.
Definition child : Transaction := SamplePool.spend (SampleTx.txid parent) 0 u32_max 3000.
Definition grandchild : Transaction := SamplePool.spend (SampleTx.txid child) 0 u32_max 2000.
End SampleMempool.

#[local] Existing Instance sample_sighash.
Import (hints) Sample SampleTx SampleChain SamplePool SampleView SampleOrder.
Import SampleMempool.

Definition start : MemPool := with_options SampleChain.client options.
Definition offer (tx : Transaction) (time : Z) (p : MemPool) : res MempoolError unit * MemPool :=
  accept_single_transaction SampleChain.client tx time time p.

Lemma offer_step tx time p : (offer tx time p).1 = Ok tt -> pool_step p (offer tx time p).2.
Proof.
  intros Hok. apply (step_accept _ SampleChain.client tx time time). unfold offer in *.
  rewrite <- Hok. by destruct (accept_single_transaction _ _ _ _ _).
Qed.

(** The parent alone, with its child, and the child after its parent expired. *)
Definition with_parent : MemPool := (offer parent 1000 start).2.
Definition with_child : MemPool := (offer child 2000 with_parent).2.
Definition parent_expired : MemPool := from_ok start (pool_expire 3000 1500 with_child).

Lemma with_child_reachable : rtc pool_step start with_child.
Proof.
  apply (rtc_l _ _ with_parent); [apply (offer_step parent 1000 start); vm_compute; reflexivity |].
  apply rtc_once. apply (offer_step child 2000 with_parent). vm_compute. reflexivity.
Qed.

Lemma parent_expired_reachable : rtc pool_step start parent_expired.
Proof.
  eapply rtc_r; [apply with_child_reachable |]. apply (step_expire _ 3000 1500); [unfold is_i64, i64_min, i64_max; lia |].
  apply (from_ok_eq start (pool_expire 3000 1500 with_child)). vm_compute. reflexivity.
Qed.

(** Expiry does not touch the cache of coins: the child is accepted although its
    input is neither in the pool nor in the chain. *)
Example expired_output_accepted :
  exists p, pool_expire 3000 1500 with_parent = Ok p /\ arena_is_empty (arena (mp_inner p)) = true /\
    chain_coin SampleView.state (mk_outpoint (SampleTx.txid parent) 0) = None /\
    (offer child 3000 p).1 = Ok tt.
Proof.
  exists (from_ok start (pool_expire 3000 1500 with_parent)).
  split; [apply (from_ok_eq start (pool_expire 3000 1500 with_parent)); vm_compute; reflexivity |].
  split_and!; vm_compute; reflexivity.
Qed.

Lemma reachable_wf p : rtc pool_step start p -> pool_wf p.
Proof.
  intros Hr. eapply (rtc_ind_l (fun q => pool_wf q -> pool_wf p));
    [done | intros x y Hxy _ IH Hx; apply IH; by eapply pool_step_wf | exact Hr |].
  split; [apply inner_new_wf | intros o v Ho; cbn in Ho; by rewrite lookup_empty in Ho].
Qed.



Lemma remove_for_block_spec_witness :
  exists p', remove_for_block [parent] [9] with_child = Ok p' /\
    contains_txid (mp_inner p') (SampleTx.txid parent) = false /\ best_block (mp_coins_cache p') = [9].
Proof.
  destruct (remove_for_block_spec [parent] [9] with_child (reachable_wf _ with_child_reachable))
    as (p' & gone & Hr & _ & Hb & _ & _ & Hc & _).
  exists p'. split; [exact Hr |]. split; [| exact Hb]. apply (Hc parent). left.
Defined.

(** The grandchild makes the pool panic. *)
Lemma stale_parent_blocks_witness :
  rtc pool_step start parent_expired /\ (offer grandchild 3000 parent_expired).1 = Panic /\
  forall p', offer grandchild 3000 parent_expired <> (Ok tt, p').
Proof.
  split; [exact parent_expired_reachable |]. split; [vm_compute; reflexivity |]. intros p'.
  assert (He : is_Some (arena_get (arena (mp_inner parent_expired)) 2)) by (vm_compute; eexists; reflexivity).
  destruct He as [e He].
  assert (Hpar : (fun e => bool_decide (1 ∈ e_parents e) && bool_decide (SampleTx.txid (e_tx e) = SampleTx.txid child))
    <$> arena_get (arena (mp_inner parent_expired)) 2 = Some true) by (vm_compute; reflexivity).
  rewrite He in Hpar. injection Hpar as [Hpar Ht]%andb_true_iff.
  apply bool_decide_eq_true in Hpar, Ht.
  assert (Hnone : arena_get (arena (mp_inner parent_expired)) 1 = None) by (vm_compute; reflexivity).
  assert (Hin : mk_txin (mk_outpoint (SampleTx.txid child) 0) [] u32_max [] ∈ tx_input grandchild) by left.
  exact (stale_parent_blocks SampleChain.client grandchild 3000 3000 parent_expired p' 2 e 1 _
    (reachable_wf _ parent_expired_reachable) He Hpar Hnone Hin (eq_sym Ht)).
Defined.

Lemma trim_to_size_spec_witness :
  exists s', trim_to_size 300 (mp_inner with_child) = Ok s' /\ total_size s' <= 300 /\
    300 < total_size (mp_inner with_child).
Proof.
  destruct (trim_to_size_spec (mp_inner with_child) 300 (proj1 (reachable_wf _ with_child_reachable)) ltac:(lia))
    as (s' & Ht & _ & _ & Hs & _).
  exists s'. split; [exact Ht |]. split; [exact Hs | vm_compute; reflexivity].
Defined.

(** A lock of two blocks on a coin of height 1 is met at height 4 and not
    before. *)
Lemma relative_locks_spec_witness :
  let tx := SamplePool.spend [7] 0 2 4000 in
  let coin := mk_pool_coin (mk_txout 5000 [0x51]) 1 false 0 in
  Forall (lock_met 4 0) (zip (tx_input tx) [coin]) /\ ~ Forall (lock_met 3 0) (zip (tx_input tx) [coin]) /\
  exists r c', calculate_lock_points_at_tip tx 3 0 (tt, coins_view_new [1] 10) = (r, (tt, c')) /\
    r = Err NonBIP68Final.
Proof.
  intros tx coin.
  assert (Hs : sees SampleView.state (coins_view_new [1] 10)).
  { split; [| reflexivity]. intros o v Ho. cbn in Ho. by rewrite lookup_empty in Ho. }
  assert (Hc : Forall2 (fun i coin => view SampleView.state (coins_view_new [1] 10) (previous_output i) = Some coin /\
    pool_coin_ok coin) (tx_input tx) [coin]).
  { apply Forall2_cons. split; [| apply Forall2_nil; done].
    split; [vm_compute; reflexivity |]. split; [left; cbn; lia | reflexivity]. }
  assert (Hyes : Forall (lock_met 4 0) (zip (tx_input tx) [coin])).
  { apply Forall_singleton. right. split; [reflexivity |]. cbn. right. vm_compute. discriminate. }
  assert (Hno : ~ Forall (lock_met 3 0) (zip (tx_input tx) [coin])).
  { intros [Hd | [_ Hl]]%Forall_singleton; [discriminate Hd |].
    vm_compute in Hl. destruct Hl as [Hl | Hl]; [discriminate Hl | by apply Hl]. }
  split; [exact Hyes |]. split; [exact Hno |].
  destruct (relative_locks_spec tt (coins_view_new [1] 10) SampleView.state tx [coin] 3 0 Hs Hc ltac:(lia) ltac:(lia))
    as (r & c' & Hr & [[Hm _] | [_ He]]); [exfalso; exact (Hno Hm) |].
  exists r, c'. split; [exact Hr | exact He].
Defined.

(** One output that pushes 256 empty strings after [OP_1]. *)
Lemma unclassifiable_output_panics_witness :
  let tx := mk_tx 2 0 [mk_txin (mk_outpoint [3] 0) [] 0 []] [mk_txout 1 (0x51 :: replicate 256 0);
                                                               mk_txout 1 [0x51]] in
  (accept_single_transaction SampleChain.client tx 5 5 (with_options SampleChain.client options_default)).1 = Panic.
Proof.
  intros tx.
  assert (Hs : check_transaction_sanity tx = Ok tt) by (vm_compute; reflexivity).
  assert (Hi : check_standard_inputs (tx_input tx) = Ok tt) by (vm_compute; reflexivity).
  assert (Hp : solve (E := StandardTxError) (0x51 :: replicate 256 0) = Panic) by (vm_compute; reflexivity).
  refine (unclassifiable_output_panics SampleChain.client tx (mk_txout 1 (0x51 :: replicate 256 0))
    [mk_txout 1 [0x51]] 5 5 (with_options SampleChain.client options_default) Hs eq_refl eq_refl _ _ _ Hi eq_refl Hp).
  - cbn. lia.
  - vm_compute. discriminate.
  - vm_compute. discriminate.
Defined.
