(* ===== verification/Package.v ===== *)
(** * Packages of transactions

    The rest of [crates/subcoin-mempool/src/validation.rs]: packages are sorted
    with parents first, their feerate is computed, every transaction is checked
    before any is added.  [accept_package] of [lib.rs] is the entry point. *)

From Stdlib Require Import ZArith Lia.
From stdpp Require Import prelude gmap.
From S2P Require Import Prelude Collections Opcode Bitcoin Runtime ScriptTypes Sample TxSanity Interpreter SigChecker Pallet Client.
From S2P Require Import MempoolTypes Arena MempoolInner CoinsView Policy Validation ValidationFacts Finalize Mempool MempoolFacts.

(** ** Parents first *)

Section topological.
Context `{!TxApi, !HashOrder}.
Implicit Types (txs sorted : list Transaction) (children : gmap bytes (list bytes)) (in_degree : gmap bytes nat).

(** One input of a transaction of the package: an edge, when its parent is in
    the package.  Degrees count inputs in memory and do not overflow. *)
Definition add_edge (tx_map : gmap bytes Transaction) (txid : bytes) (input : TxIn)
    (acc : gmap bytes (list bytes) * gmap bytes nat) : res MempoolError (gmap bytes (list bytes) * gmap bytes nat) :=
  let '(children, in_degree) := acc in
  let parent_txid := op_txid (previous_output input) in
  if bool_decide (is_Some (tx_map !! parent_txid)) then
    degree ← expect (in_degree !! txid);
    Ok (<[parent_txid := default [] (children !! parent_txid) ++ [txid]]> children,
        <[txid := S degree]> in_degree)
  else Ok (children, in_degree).

(** A child of a transaction that was sorted; [*degree -= 1] on zero panics. *)
Definition release (child_txid : bytes) (acc : gmap bytes nat * list bytes) :
    res MempoolError (gmap bytes nat * list bytes) :=
  let '(in_degree, queue) := acc in
  degree ← expect (in_degree !! child_txid);
  match degree with
  | O => Panic
  | S degree =>
      Ok (<[child_txid := degree]> in_degree,
          if (degree =? 0)%nat then queue ++ [child_txid] else queue)
  end.

Fixpoint kahn (fuel : nat) (tx_map : gmap bytes Transaction) children in_degree (queue : list bytes)
    sorted : res MempoolError (list Transaction) :=
  match queue with
  | [] => Ok sorted
  | txid :: queue =>
      match fuel with
      | O => Panic
      | S fuel =>
          tx ← expect (tx_map !! txid);
          '(in_degree, queue) ← rfold release (default [] (children !! txid)) (in_degree, queue);
          kahn fuel tx_map children in_degree queue (sorted ++ [tx])
      end
  end.

Definition topological_sort_package txs : res MempoolError (list Transaction) :=
  let tx_map := foldl (fun m tx => <[compute_txid tx := tx]> m) ∅ txs in
  let in_degree := foldl (fun m tx => <[compute_txid tx := 0%nat]> m) ∅ txs in
  '(children, in_degree) ←
    rfold (fun tx acc => rfold (add_edge tx_map (compute_txid tx)) (tx_input tx) acc) txs (∅, in_degree);
  let queue := filter (fun txid => in_degree !! txid = Some 0%nat) (hash_iter (dom in_degree)) in
  sorted ← kahn (S (size in_degree)) tx_map children in_degree queue [];
  reject_if (negb (length sorted =? length txs)%nat) PackageCyclicDependencies;;
  Ok sorted.
End topological.

(** ** Packages *)

Record PackageValidationResult := mk_package_result {
  pr_accepted : list bytes;
  pr_package_feerate : FeeRate;
}.

Section package.
Context `{!ScriptApi, !HashApi, !KeyApi, !SighashApi}.
Context `{!TxApi, !PoolTxApi, !SlotKeys, !HashOrder, !LruApi, !RuntimeStates, !ChainApi}.
Implicit Types (inner : MemPoolInner) (options : MemPoolOptions) (txs : list Transaction).

Fixpoint package_outputs_of (txid : bytes) (vout : nat) (outs : list TxOut) (m : gmap OutPoint TxOut) :
    gmap OutPoint TxOut :=
  match outs with
  | [] => m
  | output :: outs =>
      package_outputs_of txid (S vout) outs (<[mk_outpoint txid (wrap_u32 (Z.of_nat vout)) := output]> m)
  end.

Definition package_outputs txs : gmap OutPoint TxOut :=
  foldl (fun m tx => package_outputs_of (compute_txid tx) 0 (tx_output tx) m) ∅ txs.

(** The output that an input spends: of the package, of the pool, of the
    chain. *)
Definition spent_output {W} (outputs : gmap OutPoint TxOut) inner (outpoint : OutPoint) :
    SM (W * CoinsViewCache) TxOut :=
  let missing := MissingInputs [op_txid outpoint] in
  match outputs !! outpoint with
  | Some pkg_output => mret pkg_output
  | None =>
      match get_by_txid (arena inner) (op_txid outpoint) with
      | Some parent_id =>
          parent ← lift (ok_or missing (arena_get (arena inner) parent_id));
          lift (ok_or missing (tx_output (e_tx parent) !! Z.to_nat (op_vout outpoint)))
      | None => coin ← require_coin outpoint; mret (pc_output coin)
      end
  end.

Definition add_tx_fee {W} (outputs : gmap OutPoint TxOut) inner (tx : Transaction) (acc : Z * Z) :
    SM (W * CoinsViewCache) (Z * Z) :=
  let '(total_fee, total_vsize) := acc in
  total_vsize ← lift (ok_or FeeOverflow (checked_i64 (total_vsize + wrap_i64 (to_vbytes_ceil (weight tx)))));
  input_value ← sm_fold (fun input input_value =>
    output ← spent_output outputs inner (previous_output input);
    lift (ok_or FeeOverflow (checked_u64 (input_value + value output)))) (tx_input tx) 0;
  output_value ← lift (sum_amounts (map value (tx_output tx)) 0);
  tx_fee ← lift (ok_or NegativeFee (checked_u64 (input_value - output_value)));
  total_fee ← lift (ok_or FeeOverflow (checked_u64 (total_fee + tx_fee)));
  mret (total_fee, total_vsize).

Definition calculate_package_feerate {W} txs inner : SM (W * CoinsViewCache) (Z * Z * FeeRate) :=
  '(total_fee, total_vsize) ← sm_fold (add_tx_fee (package_outputs txs) inner) txs (0, 0);
  lift (reject_if (total_vsize =? 0) (PackageSizeTooLarge 0));;
  fee ← lift (ok_or FeeOverflow (checked_u64 (total_fee * 1000)));
  mret (total_fee, total_vsize, from_sat_per_kvb (fee / wrap_u64 total_vsize)).

(** The checks of one transaction; a fee that is too low is forgiven when the
    package pays, and with it the checks that follow the one of the fee. *)
Definition pre_checks_cpfp inner options (current_height current_mtp now : Z) (package_feerate : FeeRate) :
    SM (ValidationWorkspace * CoinsViewCache) unit := fun s =>
  match pre_checks inner options current_height current_mtp now s with
  | (Err (FeeTooLow min_kvb actual_kvb), s) =>
      if as_sat_per_kvb (min_relay_fee_rate options) <=? as_sat_per_kvb package_feerate then (Ok tt, s)
      else (Err (FeeTooLow min_kvb actual_kvb), s)
  | r => r
  end.

Definition pre_validate_package_tx inner options (current_height current_mtp now : Z)
    (package_feerate : FeeRate) : SM (ValidationWorkspace * CoinsViewCache) ValidationWorkspace :=
  pre_checks_cpfp inner options current_height current_mtp now package_feerate;;
  ws ← gets fst;
  lift (check_package_limits ws inner options);;
  check_inputs (ws_tx ws) standard_script_verify_flags 0 (tx_input (ws_tx ws));;
  check_inputs (ws_tx ws) mandatory_script_verify_flags 0 (tx_input (ws_tx ws));;
  gets fst.

(** Phase 1: the outputs of what passed are visible to what follows; a failure
    takes them back.  [clock] gives the time that [pre_checks] reads for each
    transaction. *)
Fixpoint validate_all inner options (current_height current_mtp : Z) (clock : list Z)
    (package_feerate : FeeRate) txs (validated : list ValidationWorkspace) (c : CoinsViewCache) :
    res MempoolError (list ValidationWorkspace) * CoinsViewCache :=
  match txs with
  | [] => (Ok validated, c)
  | tx :: txs =>
      match pre_validate_package_tx inner options current_height current_mtp (default 0 (head clock))
              package_feerate (ws_new tx, c) with
      | (Ok ws, (_, c)) =>
          validate_all inner options current_height current_mtp (tail clock) package_feerate txs
            (validated ++ [ws]) (add_mempool_coins (ws_tx ws) c)
      | (Err e, (_, c)) =>
          (Err (PackageTxValidationFailed (compute_txid tx) e),
           foldl (fun c ws => remove_mempool_tx (ws_tx ws) c) c validated)
      | (Panic, (_, c)) => (Panic, c)
      end
  end.

(** Phase 2. *)
Definition finalize_all (current_height current_time current_mtp : Z) (entry_block_hash : bytes)
    (workspaces : list ValidationWorkspace) (sequence : Z) :
    SM (MemPoolInner * CoinsViewCache) (list bytes * Z) :=
  sm_fold (fun ws '(accepted, sequence) =>
    finalize_tx ws current_height current_time current_mtp entry_block_hash sequence;;
    sequence ← lift (add_u64 sequence 1);
    mret (accepted ++ [compute_txid (ws_tx ws)], sequence)) workspaces ([], sequence).

Definition validate_package (client : Client) (package : list Transaction) options
    (current_height : Z) (best : bytes) (current_time : Z) (clock : list Z) (sequence_start : Z) :
    SM (MemPoolInner * CoinsViewCache) PackageValidationResult :=
  let count := Z.of_nat (length package) in
  lift (reject_if (opt_max_package_count options <? count)
    (PackageTooLarge count (opt_max_package_count options)));;
  total_vsize ← lift (rfold (fun tx acc => add_u64 acc (to_vbytes_ceil (weight tx))) package 0);
  lift (reject_if (opt_max_package_vsize options <? total_vsize) (PackageSizeTooLarge total_vsize));;
  sorted_txs ← lift (topological_sort_package package);
  inner ← gets fst;
  '(_, _, package_feerate) ← calculate_package_feerate sorted_txs inner;
  lift (reject_if (as_sat_per_kvb package_feerate <? as_sat_per_kvb (min_relay_fee_rate options))
    (PackageFeeTooLow package_feerate (min_relay_fee_rate options)));;
  let current_mtp := current_time in
  workspaces ← (fun '(inner, c) =>
    let '(r, c) := validate_all inner options current_height current_mtp clock package_feerate sorted_txs [] c in
    (r, (inner, c)));
  '(accepted, _) ← finalize_all current_height current_time current_mtp (entry_block_hash client best)
                    workspaces sequence_start;
  mret (mk_package_result accepted package_feerate).

Definition accept_package (client : Client) (transactions : list Transaction) (current_time : Z)
    (clock : list Z) : SM MemPool PackageValidationResult := fun p =>
  if negb (opt_enable_package_relay (mp_options p)) then (Err PackageRelayDisabled, p)
  else
    let best := best_block (mp_coins_cache p) in
    let current_mtp := mtp_or client best current_time in
    let sequence_start := mp_sequence_number p in
    let '(r, (inner, c)) :=
      validate_package client transactions (mp_options p) (best_number client) best current_mtp clock
        sequence_start (mp_inner p, mp_coins_cache p) in
    let p := set_coins c (set_inner inner p) in
    match r with
    | Ok result =>
        let n := Z.of_nat (length (pr_accepted result)) in
        (Ok result, count_updated n (set_sequence (sequence_start + n) p))
    | Err e => (Err e, p)
    | Panic => (Panic, p)
    end.
End package.

(** ** Correctness of the sort *)

Section kahn.
Context `{!TxApi, !HashOrder, !HashOrderLaws}.
Context (tx_map : gmap bytes Transaction) (E : list (bytes * bytes)).
Hypothesis edges_in : forall p v, (p, v) ∈ E -> v ∈ dom tx_map.
Hypothesis map_ids : forall v tx, tx_map !! v = Some tx -> compute_txid tx = v.

Definition occ (v : bytes) (l : list bytes) : nat := length (filter (fun x => x = v) l).

Lemma occ_cons v x l : occ v (x :: l) = ((if decide (x = v) then 1 else 0) + occ v l)%nat.
Proof. unfold occ. rewrite filter_cons. by case_decide. Qed.

Lemma occ_zero v l : occ v l = 0%nat <-> v ∉ l.
Proof.
  unfold occ. rewrite length_zero_iff_nil. split.
  - intros Hf Hin. assert (Hv : v ∈ filter (fun x => x = v) l) by (by apply list_elem_of_filter).
    rewrite Hf in Hv. by apply elem_of_nil in Hv.
  - intros Hn. destruct (filter _ l) as [| x k] eqn:Hf; [done |]. exfalso.
    assert (Hx : x ∈ filter (fun x => x = v) l) by (rewrite Hf; by left).
    apply list_elem_of_filter in Hx as [-> Hx]. done.
Qed.

Lemma release_S (c : bytes) (d : nat) (deg : gmap bytes nat) (q : list bytes) :
  deg !! c = Some (S d) ->
  release c (deg, q) = Ok (<[c := d]> deg, if (d =? 0)%nat then q ++ [c] else q).
Proof. intros Hc. unfold release. by rewrite Hc. Qed.

(** Releasing the children of one transaction, with the degree [base] they have
    afterwards. *)
Lemma release_all (base : bytes -> nat) (l : list bytes) (deg : gmap bytes nat) (q : list bytes) :
  (forall v, v ∈ dom tx_map -> deg !! v = Some (base v + occ v l)%nat) -> (forall v, v ∈ l -> v ∈ dom tx_map) ->
  exists deg' q', rfold release l (deg, q) = Ok (deg', q ++ q') /\
    (forall v, v ∈ dom tx_map -> deg' !! v = Some (base v)) /\ NoDup q' /\
    forall v, v ∈ q' <-> v ∈ l /\ base v = 0%nat.
Proof.
  revert deg q. induction l as [| c l IH]; intros deg q Hdeg Hl; cbn [rfold].
  { exists deg, []. rewrite app_nil_r. split; [done |]. split.
    - intros v Hv. rewrite Hdeg by done. f_equal. change (occ v []) with 0%nat. lia.
    - split; [apply NoDup_nil_2 |]. set_solver. }
  assert (Hc : c ∈ dom tx_map) by (apply Hl; by left).
  rewrite (release_S c (occ c l + base c)%nat); [rcbn |].
  2: { rewrite (Hdeg c Hc), occ_cons, decide_True by done. f_equal. lia. }
  destruct (IH (<[c := (occ c l + base c)%nat]> deg) (if (occ c l + base c =? 0)%nat then q ++ [c] else q))
    as (deg' & q' & Hr & Hd & Hnd & Hq).
  { intros v Hv. destruct (decide (v = c)) as [-> | Hne]; [rewrite lookup_insert_eq; f_equal; lia |].
    rewrite lookup_insert_ne, Hdeg, occ_cons, decide_False by congruence. done. }
  { intros v Hv. apply Hl. by right. }
  rewrite Hr. destruct (Nat.eqb_spec (occ c l + base c) 0) as [Hz | Hnz].
  - exists deg', (c :: q'). rewrite <- (assoc_L (++)). split; [done |]. split; [done |].
    assert (Hnin : c ∉ l) by (apply occ_zero; lia). split.
    + constructor; [| done]. rewrite Hq. naive_solver.
    + intros v. rewrite !elem_of_cons, Hq. split; [| naive_solver]. intros [-> | ?]; [split; [by left | lia] | naive_solver].
  - exists deg', q'. split; [done |]. split; [done |]. split; [done |]. intros v. rewrite Hq, elem_of_cons.
    split; [naive_solver |]. intros [[-> | ?] Hb]; [| done]. split; [| done].
    destruct (decide (c ∈ l)) as [| Hnin]; [done |]. apply occ_zero in Hnin. lia.
Qed.

(** Edges into [v] from transactions that are not yet sorted. *)
Definition open_edges (sorted : list bytes) (v : bytes) : nat :=
  length (filter (fun e : bytes * bytes => e.2 = v /\ e.1 ∉ sorted) E).
Definition children_list (p : bytes) : list bytes := map snd (filter (fun e : bytes * bytes => e.1 = p) E).

Lemma open_edges_snoc sorted x v :
  x ∉ sorted -> open_edges sorted v = (open_edges (sorted ++ [x]) v + occ v (children_list x))%nat.
Proof.
  intros Hx. unfold open_edges, children_list, occ. clear edges_in. induction E as [| [p c] l IH]; [done |].
  rewrite !filter_cons. cbn [fst snd].
  destruct (decide (c = v)) as [-> | Hcv].
  - destruct (decide (p = x)) as [-> | Hpx].
    + rewrite (decide_True (P := v = v /\ x ∉ sorted)), (decide_False (P := v = v /\ x ∉ sorted ++ [x])) by set_solver.
      cbn [map snd]. rewrite filter_cons_True by done. cbn [length]. lia.
    + destruct (decide (p ∈ sorted)).
      * rewrite (decide_False (P := v = v /\ p ∉ sorted)), (decide_False (P := v = v /\ p ∉ sorted ++ [x])) by set_solver. done.
      * rewrite (decide_True (P := v = v /\ p ∉ sorted)), (decide_True (P := v = v /\ p ∉ sorted ++ [x])) by set_solver.
        cbn [length]. lia.
  - rewrite (decide_False (P := c = v /\ _)), (decide_False (P := c = v /\ p ∉ sorted ++ [x])) by naive_solver.
    case_decide; [| done]. cbn [map snd]. by rewrite filter_cons_False.
Qed.

Lemma open_edges_zero sorted v p : open_edges sorted v = 0%nat -> (p, v) ∈ E -> p ∈ sorted.
Proof.
  unfold open_edges. rewrite length_zero_iff_nil. intros Hf Hin. destruct (decide (p ∈ sorted)); [done |].
  assert (Hv : (p, v) ∈ filter (fun e : bytes * bytes => e.2 = v /\ e.1 ∉ sorted) E) by (by apply list_elem_of_filter).
  rewrite Hf in Hv. by apply elem_of_nil in Hv.
Qed.

(** The state of the loop. *)
Record kahn_inv (sorted queue : list bytes) (deg : gmap bytes nat) : Prop := {
  ki_degree v : v ∈ dom tx_map -> deg !! v = Some (open_edges sorted v);
  ki_nodup : NoDup (sorted ++ queue);
  ki_zero v : v ∈ sorted ++ queue <-> v ∈ dom tx_map /\ open_edges sorted v = 0%nat;
  ki_order l1 v l2 p : sorted = l1 ++ v :: l2 -> (p, v) ∈ E -> p ∈ l1;
}.

Lemma kahn_step sorted x queue deg :
  kahn_inv sorted (x :: queue) deg ->
  exists deg' queue', rfold release (children_list x) (deg, queue) = Ok (deg', queue') /\
    kahn_inv (sorted ++ [x]) queue' deg'.
Proof.
  intros [Hdeg Hnd Hz Ho].
  assert (Hx : x ∉ sorted) by (intros Hin; apply NoDup_app in Hnd as (_ & Hd & _); apply (Hd x Hin); by left).
  assert (Hcl : forall v, v ∈ children_list x -> (x, v) ∈ E).
  { intros v ([p c] & -> & [Hp Hin]%list_elem_of_filter)%list_elem_of_fmap. cbn in Hp. by subst p. }
  destruct (release_all (open_edges (sorted ++ [x])) (children_list x) deg queue) as (deg' & q' & Hr & Hd & Hnq & Hq).
  { intros v Hv. rewrite Hdeg by done. f_equal. by apply open_edges_snoc. }
  { intros v Hv. apply (edges_in x), Hcl, Hv. }
  exists deg', (queue ++ q'). split; [done |].
  assert (Hxq : forall v, v ∈ q' -> v ∉ sorted ++ x :: queue).
  { intros v [Hv Hb]%Hq [_ Hzero]%Hz. apply Hcl in Hv. apply Hx. by eapply open_edges_zero. }
  rewrite cons_middle, (assoc_L (++)) in Hnd, Hz, Hxq. split; try done.
  - rewrite (assoc_L (++)). apply NoDup_app. split; [done |]. split; [| done]. intros v Hv Hv'. by apply (Hxq v).
  - intros v. rewrite (assoc_L (++)), elem_of_app, Hz, Hq. rewrite (open_edges_snoc sorted x v Hx). split.
    + intros [[? ?] | [Hv ?]]; [split; [done | lia] |]. split; [| done]. by eapply edges_in, Hcl.
    + intros [Hv Hb]. destruct (decide (v ∈ children_list x)) as [| Hn]; [by right |].
      left. split; [done |]. apply occ_zero in Hn. lia.
  - intros l1 v l2 p Heq Hin. destruct l2 as [| y l2] using rev_ind.
    + apply app_inj_tail in Heq as [<- <-]. apply (open_edges_zero _ x); [| done].
      assert (Hxs : x ∈ (sorted ++ [x]) ++ queue) by set_solver. by apply Hz in Hxs as [_ ?].
    + clear IHl2. rewrite app_comm_cons, (assoc_L (++)) in Heq. apply app_inj_tail in Heq as [-> _].
      by eapply Ho.
Qed.

Lemma kahn_spec fuel children deg queue sorted :
  (forall p, default [] (children !! p) = children_list p) ->
  kahn_inv (map compute_txid sorted) queue deg -> Forall (fun tx => tx_map !! compute_txid tx = Some tx) sorted ->
  (size tx_map < fuel + length sorted)%nat ->
  exists sorted' deg', kahn fuel tx_map children deg queue sorted = Ok sorted' /\
    kahn_inv (map compute_txid sorted') [] deg' /\ Forall (fun tx => tx_map !! compute_txid tx = Some tx) sorted'.
Proof.
  intros Hch. revert deg queue sorted. induction fuel as [| fuel IH]; intros deg queue sorted Hinv Hall Hfuel.
  - destruct queue as [| x queue]; [exists sorted, deg; by cbn |]. exfalso.
    assert (Hle : (length (map compute_txid sorted ++ x :: queue) <= size (dom tx_map))%nat).
    { destruct Hinv as [_ Hnd Hz _]. rewrite <- (size_list_to_set (C := gset bytes) _ Hnd). apply subseteq_size.
      intros v. rewrite elem_of_list_to_set, Hz. naive_solver. }
    rewrite size_dom, length_app, length_map in Hle. cbn in Hle, Hfuel. lia.
  - destruct queue as [| x queue]; [exists sorted, deg; by cbn |]. cbn [kahn].
    assert (Hx : x ∈ dom tx_map) by (apply (ki_zero _ _ _ Hinv); set_solver).
    apply elem_of_dom in Hx as [tx Htx]. rewrite Htx. rcbn. rewrite Hch.
    destruct (kahn_step _ _ _ _ Hinv) as (deg' & queue' & -> & Hinv'). rcbn. apply IH.
    + rewrite map_app. cbn [map]. by rewrite (map_ids x tx Htx).
    + apply Forall_app. split; [done |]. apply Forall_singleton. by rewrite (map_ids x tx Htx).
    + rewrite length_app. cbn [length]. lia.
Qed.
End kahn.

Section sort_facts.
Context `{!TxApi, !HashOrder, !HashOrderLaws}.
Implicit Types (txs : list Transaction).

Definition ids txs : list bytes := map compute_txid txs.

Definition map_of txs : gmap bytes Transaction := foldl (fun m tx => <[compute_txid tx := tx]> m) ∅ txs.

Lemma map_of_Some txs v tx : map_of txs !! v = Some tx -> tx ∈ txs /\ compute_txid tx = v.
Proof.
  unfold map_of. induction txs as [| x txs IH] using rev_ind; [by intros |]. rewrite foldl_app. cbn [foldl].
  rewrite elem_of_app. intros [[<- <-] | [Hne Hl]]%lookup_insert_Some; [set_solver | naive_solver].
Qed.

Lemma map_of_dom txs v : v ∈ dom (map_of txs) <-> v ∈ ids txs.
Proof.
  unfold map_of, ids. induction txs as [| x txs IH] using rev_ind; [cbn; set_solver |]. rewrite foldl_app, map_app. cbn [foldl map].
  rewrite dom_insert, elem_of_union, elem_of_singleton, IH, elem_of_app, list_elem_of_singleton. naive_solver.
Qed.

Lemma degrees_lookup txs v :
  foldl (fun m tx => <[compute_txid tx := 0%nat]> m) (∅ : gmap bytes nat) txs !! v =
  if decide (v ∈ ids txs) then Some 0%nat else None.
Proof.
  unfold ids. induction txs as [| x txs IH] using rev_ind; [done |]. rewrite foldl_app, map_app. cbn [foldl map].
  destruct (decide (v = compute_txid x)) as [-> | Hne].
  - rewrite lookup_insert_eq, decide_True; [done | set_solver].
  - rewrite lookup_insert_ne, IH by congruence. repeat case_decide; try done; set_solver.
Qed.

(** The edges from the parents in the package to a transaction. *)
Definition tx_edge (m : gmap bytes Transaction) (txid : bytes) (i : TxIn) : option (bytes * bytes) :=
  let parent := op_txid (previous_output i) in
  if bool_decide (is_Some (m !! parent)) then Some (parent, txid) else None.
Definition edges (m : gmap bytes Transaction) txs : list (bytes * bytes) :=
  concat (map (fun tx => omap (tx_edge m (compute_txid tx)) (tx_input tx)) txs).

Lemma edges_elem m txs p v :
  (p, v) ∈ edges m txs <-> exists tx i, tx ∈ txs /\ v = compute_txid tx /\ i ∈ tx_input tx /\
    p = op_txid (previous_output i) /\ p ∈ dom m.
Proof.
  unfold edges. rewrite list_elem_of_In, in_concat. split.
  - intros (l & (tx & <- & Htx)%in_map_iff & Hin). apply list_elem_of_In, list_elem_of_omap in Hin as (i & Hi & He).
    apply list_elem_of_In in Htx. unfold tx_edge in He. case_bool_decide; [| done]. injection He as <- <-.
    exists tx, i. rewrite elem_of_dom. done.
  - intros (tx & i & Htx & -> & Hi & -> & Hp). eexists. split; [apply in_map_iff; exists tx; split; [done | by apply list_elem_of_In] |].
    apply list_elem_of_In, list_elem_of_omap. exists i. split; [done |]. unfold tx_edge.
    rewrite bool_decide_true; [done |]. by apply elem_of_dom.
Qed.

(** The maps of the code stand for the edges [L]. *)
Definition represents (m : gmap bytes Transaction) (L : list (bytes * bytes))
    (acc : gmap bytes (list bytes) * gmap bytes nat) : Prop :=
  (forall p, default [] (acc.1 !! p) = children_list L p) /\
  (forall v, acc.2 !! v = if decide (v ∈ dom m) then Some (open_edges L [] v) else None).

Lemma open_edges_app L p c v :
  open_edges (L ++ [(p, c)]) [] v = (open_edges L [] v + if decide (c = v) then 1 else 0)%nat.
Proof.
  unfold open_edges. rewrite filter_app, length_app. f_equal. case_decide as Hc.
  - rewrite filter_cons_True; [done |]. split; [done | apply not_elem_of_nil].
  - rewrite filter_cons_False; [done |]. naive_solver.
Qed.

Lemma add_edge_represents m L txid i acc :
  txid ∈ dom m -> represents m L acc ->
  exists acc', add_edge m txid i acc = Ok acc' /\ represents m (L ++ option_list (tx_edge m txid i)) acc'.
Proof.
  intros Ht [Hc Hd]. destruct acc as [ch deg]. unfold add_edge, tx_edge. cbn [fst snd] in *.
  case_bool_decide as Hp; [| by exists (ch, deg); rewrite app_nil_r]. rewrite (Hd txid), decide_True by done. rcbn.
  eexists. split; [done |].
  change (option_list (Some (op_txid (previous_output i), txid))) with [(op_txid (previous_output i), txid)].
  split; cbn [fst snd].
  - intros p. unfold children_list. rewrite filter_app, map_app. change (map snd (filter _ L)) with (children_list L p).
    destruct (decide (p = op_txid (previous_output i))) as [-> | Hne].
    + rewrite lookup_insert_eq, filter_cons_True by done. cbn. by rewrite Hc.
    + rewrite lookup_insert_ne, Hc, filter_cons_False by (cbn; congruence). cbn. by rewrite app_nil_r.
  - intros v. rewrite open_edges_app. destruct (decide (v = txid)) as [-> | Hne].
    + rewrite lookup_insert_eq, !decide_True by done. f_equal. lia.
    + rewrite lookup_insert_ne, Hd, (decide_False (P := txid = v)) by congruence. by rewrite Nat.add_0_r.
Qed.

Lemma add_edges_represents m L txid ins acc :
  txid ∈ dom m -> represents m L acc ->
  exists acc', rfold (add_edge m txid) ins acc = Ok acc' /\ represents m (L ++ omap (tx_edge m txid) ins) acc'.
Proof.
  intros Ht. revert L acc. induction ins as [| i ins IH]; intros L acc Hr; cbn [rfold].
  { exists acc. by rewrite app_nil_r. }
  destruct (add_edge_represents m L txid i acc Ht Hr) as (acc1 & -> & Hr1). rcbn.
  destruct (IH _ _ Hr1) as (acc' & Hf & Hr'). exists acc'. split; [done |].
  rewrite <- (assoc_L (++)) in Hr'. cbn [omap list_omap]. by destruct (tx_edge m txid i).
Qed.

Lemma build_represents m L txs acc :
  (forall v, v ∈ ids txs -> v ∈ dom m) -> represents m L acc ->
  exists acc', rfold (fun tx acc => rfold (add_edge m (compute_txid tx)) (tx_input tx) acc) txs acc = Ok acc' /\
    represents m (L ++ edges m txs) acc'.
Proof.
  revert L acc. induction txs as [| tx txs IH]; intros L acc Hin Hr; cbn [rfold].
  { exists acc. by rewrite app_nil_r. }
  destruct (add_edges_represents m L (compute_txid tx) (tx_input tx) acc) as (acc1 & -> & Hr1); [apply Hin; by left | done |].
  rcbn. destruct (IH _ _ (fun v Hv => Hin v (proj2 (elem_of_cons _ _ _) (or_intror Hv))) Hr1) as (acc' & Hf & Hr').
  exists acc'. split; [done |]. by rewrite <- (assoc_L (++)) in Hr'.
Qed.

(** Distinct transactions, each after its parents of the package. *)
Definition parents_first txs : Prop :=
  NoDup (ids txs) /\
  forall l1 tx l2 i, txs = l1 ++ tx :: l2 -> i ∈ tx_input tx ->
    op_txid (previous_output i) ∈ ids txs -> op_txid (previous_output i) ∈ ids l1.

Lemma edges_in_package txs p v : (p, v) ∈ edges (map_of txs) txs -> v ∈ dom (map_of txs).
Proof. intros (tx & i & Htx & -> & _)%edges_elem. apply map_of_dom, list_elem_of_fmap. eauto. Qed.

(** The loop of the sort, up to the comparison of lengths. *)
Lemma kahn_run txs :
  exists sorted deg,
    kahn_inv (map_of txs) (edges (map_of txs) txs) (ids sorted) [] deg /\
    Forall (fun tx => map_of txs !! compute_txid tx = Some tx) sorted /\
    topological_sort_package txs =
      (reject_if (negb (length sorted =? length txs)%nat) PackageCyclicDependencies;; Ok sorted).
Proof.
  destruct (build_represents (map_of txs) [] txs
    (∅, foldl (fun m tx => <[compute_txid tx := 0%nat]> m) ∅ txs)) as ([ch deg] & Hb & [Hch Hdeg]).
  { intros v. by rewrite map_of_dom. }
  { split; cbn [fst snd]; [intros p; by rewrite lookup_empty |]. intros v. rewrite degrees_lookup.
    by rewrite (decide_ext _ _ _ _ (map_of_dom txs v)). }
  cbn [app fst snd] in Hch, Hdeg.
  assert (Hdom : dom deg = dom (map_of txs)).
  { apply set_eq. intros v. rewrite elem_of_dom, Hdeg. case_decide; [naive_solver |]. split; [by intros [] | done]. }
  unfold topological_sort_package. fold (map_of txs). rewrite Hb. rcbn.
  destruct (kahn_spec (map_of txs) (edges (map_of txs) txs) (edges_in_package txs)
    (fun v tx Hv => proj2 (map_of_Some txs v tx Hv)) (S (size deg)) ch deg
    (filter (fun txid => deg !! txid = Some 0%nat) (hash_iter (dom deg))) []) as (sorted & deg' & Hk & Hinv & Hall).
  - done.
  - split; cbn [map app].
    + intros v Hv. by rewrite Hdeg, decide_True.
    + apply NoDup_filter. rewrite hash_iter_elements. apply NoDup_elements.
    + intros v. rewrite list_elem_of_filter, hash_iter_elements, elem_of_elements, Hdom, Hdeg. case_decide; naive_solver.
    + intros [] ? ? ? ?; done.
  - by apply Forall_nil.
  - rewrite <- !size_dom, Hdom. cbn. lia.
  - exists sorted, deg'. split; [done |]. split; [done |]. by rewrite Hk.
Qed.

Lemma sorted_all txs sorted deg l :
  kahn_inv (map_of txs) (edges (map_of txs) txs) (ids sorted) [] deg -> l ≡ₚ txs -> parents_first l ->
  forall v, v ∈ ids txs -> v ∈ ids sorted.
Proof.
  intros Hinv Hp [Hnd Hpf].
  assert (Hids : forall v, v ∈ ids l <-> v ∈ ids txs) by (intros v; unfold ids; by rewrite Hp).
  enough (Hpre : forall l1 l2, l = l1 ++ l2 -> forall v, v ∈ ids l1 -> v ∈ ids sorted).
  { intros v Hv. apply (Hpre l [] (eq_sym (app_nil_r l))). by apply Hids. }
  induction l1 as [| tx l1 IH] using rev_ind; intros l2 Heq v Hv; [by apply elem_of_nil in Hv |].
  rewrite <- (assoc_L (++)) in Heq. unfold ids in Hv. rewrite map_app in Hv.
  apply elem_of_app in Hv as [Hv | ->%list_elem_of_singleton]; [by eapply IH |].
  assert (Htx : tx ∈ l) by (rewrite Heq; set_solver).
  rewrite <- (app_nil_r (ids sorted)). apply (ki_zero _ _ _ _ _ Hinv). split.
  { apply map_of_dom, Hids, list_elem_of_fmap. eauto. }
  unfold open_edges. apply length_zero_iff_nil, elem_of_nil_inv.
  intros [p c] [[Hc Hnin] Hin]%list_elem_of_filter. cbn in Hc, Hnin. subst c. apply Hnin.
  apply edges_elem in Hin as (tx' & i & Htx' & Hid & Hi & -> & Hpd). apply map_of_dom, Hids in Hpd.
  assert (tx' = tx) as ->.
  { rewrite <- Hp in Htx'. clear -Hnd Htx Htx' Hid. apply list_elem_of_lookup in Htx as [a Ha], Htx' as [b Hb].
    assert (a = b) as <-; [| congruence].
    eapply (NoDup_lookup (ids l) a b (compute_txid tx)); [done | unfold ids; rewrite list_lookup_fmap, Ha; done
      | unfold ids; rewrite list_lookup_fmap, Hb; cbn; congruence]. }
  apply (IH _ Heq). eapply Hpf; eauto.
Qed.

(** Sorting a package terminates without panic whatever the order in which
    the hash maps are read.  It succeeds exactly when the package can be sorted:
    the result has the same transactions, all distinct, and each comes after
    those of its parents that are in the package; otherwise the package is
    rejected as cyclic. *)
Lemma topological_sort_spec txs :
  match topological_sort_package txs with
  | Ok sorted => sorted ≡ₚ txs /\ parents_first sorted
  | Err e => e = PackageCyclicDependencies /\ forall l, l ≡ₚ txs -> ~ parents_first l
  | Panic => False
  end.
Proof.
  destruct (kahn_run txs) as (sorted & deg & Hinv & Hall & ->).
  assert (Hsub : forall tx, tx ∈ sorted -> tx ∈ txs).
  { intros tx Htx. rewrite Forall_forall in Hall. by apply Hall, map_of_Some in Htx as [? _]. }
  pose proof (ki_nodup _ _ _ _ _ Hinv) as Hnd. rewrite app_nil_r in Hnd.
  destruct (Nat.eqb_spec (length sorted) (length txs)) as [Hlen | Hlen]; cbn.
  - assert (Hperm : sorted ≡ₚ txs).
    { apply submseteq_length_Permutation; [| lia]. apply NoDup_submseteq; [by eapply NoDup_fmap_1 | done]. }
    split; [done |]. split; [done |]. intros l1 tx l2 i -> Hi Hp.
    eapply (ki_order _ _ _ _ _ Hinv (ids l1) (compute_txid tx) (ids l2)); [unfold ids; by rewrite map_app |].
    apply edges_elem. exists tx, i. rewrite map_of_dom.
    split; [apply Hsub; set_solver |]. split_and!; try done. unfold ids. by rewrite <- Hperm.
  - split; [done |]. intros l Hp Hpf. apply Hlen. pose proof (sorted_all txs sorted deg l Hinv Hp Hpf) as Hin.
    destruct Hpf as [Hndl _]. assert (Hndt : NoDup (ids txs)) by (unfold ids; by rewrite <- Hp).
    rewrite <- (length_map compute_txid sorted), <- (length_map compute_txid txs). apply Permutation_length.
    apply NoDup_Permutation; [done .. |]. intros v. split; [| apply Hin].
    intros (tx & -> & Htx)%list_elem_of_fmap. apply list_elem_of_fmap. eauto.
Qed.
End sort_facts.

(** ** Rejected packages *)

Lemma sm_bind_Err {S A B} (m : SM S A) (f : A -> SM S B) s e s' :
  (x ← m; f x) s = (Err e, s') ->
  m s = (Err e, s') \/ exists a s1, m s = (Ok a, s1) /\ f a s1 = (Err e, s').
Proof. unfold mbind, sm_bind. destruct (m s) as [[] ?]; naive_solver. Qed.

(** The first part of the state stays, and of the second only the cache moves. *)
Definition untouched `{!LruApi, !RuntimeStates} {W} : relation (W * CoinsViewCache) := fun s s' =>
  s'.1 = s.1 /\ cache_only s s'.

#[export] Instance untouched_preorder `{!LruApi, !RuntimeStates} {W} : PreOrder (untouched (W := W)).
Proof.
  split; [intros s; split; [done | reflexivity] |].
  intros x y z [Hxy Hc] [Hyz Hc']. split; [congruence | by trans y].
Qed.

Section rollback.
Context `{!ScriptApi, !HashApi, !KeyApi, !SighashApi}.
Context `{!TxApi, !PoolTxApi, !SlotKeys, !SlotKeysLaws, !HashOrder, !HashOrderLaws}.
Context `{!LruApi, !LruLaws, !RuntimeStates, !ChainApi}.
Implicit Types (txs : list Transaction) (c : CoinsViewCache) (p : MemPool).

Lemma untouched_require {W} o : stable (untouched (W := W)) (require_coin o).
Proof.
  intros s. split; [| apply cache_require]. destruct s as [w c]. unfold require_coin, lookup_coin, mbind, sm_bind.
  destruct (get_coin o c) as [[c' [coin |]] | |]; done.
Qed.
#[local] Hint Resolve untouched_require : stable.

Lemma untouched_feerate {W} txs inner : stable (untouched (W := W)) (calculate_package_feerate txs inner).
Proof.
  unfold calculate_package_feerate, add_tx_fee, spent_output.
  repeat (stable; match goal with |- stable _ (match ?b with _ => _ end) => destruct b end).
Qed.

Lemma cache_pre_validate inner options h mtp now rate :
  stable cache_only (pre_validate_package_tx inner options h mtp now rate) /\
  stable same_ws_tx (pre_validate_package_tx inner options h mtp now rate).
Proof.
  assert (Hr : forall s, (pre_checks_cpfp inner options h mtp now rate s).2 = (pre_checks inner options h mtp now s).2).
  { intros s. unfold pre_checks_cpfp. destruct (pre_checks _ _ _ _ _ s) as [[| [] |] s1]; try done. by destruct (_ <=? _). }
  pose proof (cache_check_inputs (W := ValidationWorkspace)). pose proof ws_check_inputs.
  unfold pre_validate_package_tx.
  split; (apply (stable_bind _); [intros s; rewrite Hr; first [apply cache_pre_checks | apply ws_pre_checks] | stable]).
Qed.

Definition add_all txs c : CoinsViewCache := foldl (fun c tx => add_mempool_coins tx c) c txs.
Definition remove_all txs c : CoinsViewCache := foldl (fun c tx => remove_mempool_tx tx c) c txs.

(** The outputs of [txs] can be told apart from what the overlay has. *)
Definition fresh_outputs txs c : Prop :=
  mempool_spends c = ∅ /\
  forall tx, tx ∈ txs -> Z.of_nat (length (tx_output tx)) <= 2 ^ 32 /\
    forall o, is_Some (pending_output tx o) -> mempool_overlay c !! o = None.

Lemma add_all_other txs c o :
  (forall tx, tx ∈ txs -> Z.of_nat (length (tx_output tx)) <= 2 ^ 32 /\ pending_output tx o = None) ->
  mempool_overlay (add_all txs c) !! o = mempool_overlay c !! o.
Proof.
  revert c. induction txs as [| tx txs IH]; intros c Hall; [done |]. cbn [add_all foldl]. fold (add_all txs (add_mempool_coins tx c)).
  rewrite IH by (intros; apply Hall; by right). destruct (Hall tx) as [Hl Hn]; [by left |].
  by rewrite add_mempool_coins_lookup, Hn.
Qed.

Lemma remove_all_other txs c o :
  (forall tx, tx ∈ txs -> Z.of_nat (length (tx_output tx)) <= 2 ^ 32 /\ pending_output tx o = None) ->
  mempool_overlay (remove_all txs c) !! o = mempool_overlay c !! o.
Proof.
  revert c. induction txs as [| tx txs IH]; intros c Hall; [done |]. cbn [remove_all foldl].
  fold (remove_all txs (remove_mempool_tx tx c)).
  rewrite IH by (intros; apply Hall; by right). destruct (Hall tx) as [Hl Hn]; [by left |].
  by rewrite remove_mempool_tx_lookup, Hn.
Qed.

Lemma remove_all_rest txs c :
  base_cache (remove_all txs c) = base_cache c /\ best_block (remove_all txs c) = best_block c /\
  (mempool_spends c = ∅ -> mempool_spends (remove_all txs c) = ∅).
Proof.
  revert c. induction txs as [| tx txs IH]; intros c; [done |]. cbn [remove_all foldl].
  destruct (IH (remove_mempool_tx tx c)) as (Hb & Hbb & Hs). split; [done |]. split; [done |].
  intros He. apply Hs. rewrite remove_mempool_tx_spends, He. set_solver.
Qed.

Lemma add_all_rest txs c :
  base_cache (add_all txs c) = base_cache c /\ best_block (add_all txs c) = best_block c /\
  mempool_spends (add_all txs c) = mempool_spends c.
Proof. revert c. induction txs as [| tx txs IH]; intros c; [done |]. apply (IH (add_mempool_coins tx c)). Qed.

(** Removing what was added restores the overlay. *)
Lemma remove_add_all txs c c1 :
  fresh_outputs txs c -> same_overlay (add_all txs c) c1 -> same_overlay c (remove_all txs c1).
Proof.
  intros [Hsp Hfr] (Ho & Hs & Hb). destruct (remove_all_rest txs c1) as (_ & Hrb & Hrs).
  destruct (add_all_rest txs c) as (_ & Hab & Has). split; [| split].
  - apply map_eq. intros o. destruct (decide (Exists (fun tx => is_Some (pending_output tx o)) txs)) as [He | He].
    + apply Exists_exists in He as (tx & Htx & Hp). destruct (Hfr tx Htx) as [Hl Hf]. rewrite (Hf o Hp).
      by apply (remove_txs_outputs txs c1 tx).
    + assert (Hno : forall tx, tx ∈ txs -> Z.of_nat (length (tx_output tx)) <= 2 ^ 32 /\ pending_output tx o = None).
      { intros tx Htx. split; [by apply Hfr |]. destruct (pending_output tx o) eqn:Hp; [| done].
        exfalso. apply He, Exists_exists. exists tx. rewrite Hp. eauto. }
      by rewrite remove_all_other, Ho, add_all_other.
  - rewrite Hsp. apply Hrs. congruence.
  - congruence.
Qed.

Lemma remove_workspaces l c :
  foldl (fun c ws => remove_mempool_tx (ws_tx ws) c) c l = remove_all (map ws_tx l) c.
Proof. revert c. induction l as [| ws l IH]; intros c; [done | apply IH]. Qed.

Lemma fresh_prefix l1 l2 c : fresh_outputs (l1 ++ l2) c -> fresh_outputs l1 c.
Proof. intros [Hs Hf]. split; [done |]. intros tx Htx. apply Hf. set_solver. Qed.

Lemma validate_all_error inner options h mtp rate c0 txs : forall clock validated c e c',
  fresh_outputs (map ws_tx validated ++ txs) c0 ->
  same_overlay (add_all (map ws_tx validated) c0) c -> coherent c ->
  validate_all inner options h mtp clock rate txs validated c = (Err e, c') ->
  same_overlay c0 c' /\ coherent c'.
Proof.
  induction txs as [| tx txs IH]; intros clock validated c e c' Hfr Hso Hc; cbn [validate_all]; [done |].
  destruct (cache_pre_validate inner options h mtp (default 0 (head clock)) rate) as [Hst Hws].
  specialize (Hst (ws_new tx, c)). specialize (Hws (ws_new tx, c)).
  destruct (pre_validate_package_tx _ _ _ _ _ _ _) as [[ws | e1 |] [w1 c1]] eqn:Hp; [| | done].
  all: destruct Hst as [(Ho & Hs & Hb) Hco]; cbn in Ho, Hs, Hb, Hco, Hws.
  - assert (Hwt : ws_tx ws = tx).
    { unfold pre_validate_package_tx in Hp. inv_sm. by cbn in Hws. }
    apply IH.
    + rewrite map_app. cbn [map]. rewrite Hwt, <- (assoc_L (++)). exact Hfr.
    + rewrite map_app. unfold add_all. rewrite foldl_app. cbn [map foldl]. fold (add_all (map ws_tx validated) c0).
      destruct Hso as (Ho' & Hs' & Hb'). unfold same_overlay, add_mempool_coins. cbn. split_and!; congruence.
    + apply coherent_add. auto.
  - intros [= _ <-]. rewrite remove_workspaces.
    split.
    + apply remove_add_all; [by eapply fresh_prefix |]. destruct Hso as (Ho' & Hs' & Hb'). unfold same_overlay. split_and!; congruence.
    + intros o v. destruct (remove_all_rest (map ws_tx validated) c1) as (-> & -> & _). by apply Hco.
Qed.

Lemma finalize_all_error h t mtp bh l : forall acc s e s',
  sm_fold (fun ws '(accepted, sequence) =>
    finalize_tx ws h t mtp bh sequence;;
    sequence ← lift (add_u64 sequence 1);
    mret (accepted ++ [compute_txid (ws_tx ws)], sequence)) l acc s = (Err e, s') -> e = FeeOverflow.
Proof.
  induction l as [| ws l IH]; intros [acc seq] s e s'; cbn [sm_fold]; [done |].
  intros [Herr | (a & s1 & _ & Hr)]%sm_bind_Err; [| by eapply IH].
  apply sm_bind_Err in Herr as [Herr | (a & s1 & _ & Hr)]; [destruct s; by eapply finalize_tx_error |].
  unfold mbind, sm_bind, lift, add_u64 in Hr. by destruct (checked_u64 _).
Qed.

Lemma topological_sort_elem txs sorted tx :
  topological_sort_package txs = Ok sorted -> tx ∈ sorted -> tx ∈ txs.
Proof.
  destruct (kahn_run txs) as (l & deg & _ & Hall & ->). destruct (negb _); [done |]. intros [= ->] Htx.
  rewrite Forall_forall in Hall. by apply Hall, map_of_Some in Htx as [? _].
Qed.

Lemma validate_package_error client txs options h best t clock seq inner c e s' :
  coherent c -> fresh_outputs txs c -> e <> FeeOverflow ->
  validate_package client txs options h best t clock seq (inner, c) = (Err e, s') ->
  untouched (inner, c) s'.
Proof.
  intros Hc Hfr Hne. unfold validate_package. cbv zeta.
  assert (Hrefl : untouched (inner, c) (inner, c)) by reflexivity.
  intros [Herr | ([] & s1 & [_ ->]%lift_Ok & Hr)]%sm_bind_Err; [by injection Herr as _ <- |].
  apply sm_bind_Err in Hr as [Herr | (size & s1 & [_ ->]%lift_Ok & Hr)]; [by injection Herr as _ <- |].
  apply sm_bind_Err in Hr as [Herr | ([] & s1 & [_ ->]%lift_Ok & Hr)]; [by injection Herr as _ <- |].
  apply sm_bind_Err in Hr as [Herr | (sorted & s1 & [Hsort ->]%lift_Ok & Hr)]; [by injection Herr as _ <- |].
  apply sm_bind_Err in Hr as [Herr | (inner0 & s1 & [-> ->]%gets_Ok & Hr)]; [done |]. cbn [fst] in Hr.
  pose proof (untouched_feerate sorted inner (inner, c)) as Hu.
  apply sm_bind_Err in Hr as [Herr | ([[fee vs] rate] & [inner1 c1] & Hfee & Hr)]; [by rewrite Herr in Hu |].
  rewrite Hfee in Hu. destruct Hu as [Hi [(Ho & Hs & Hb) Hco]]. cbn in Hi, Ho, Hs, Hb, Hco. subst inner1.
  apply sm_bind_Err in Hr as [Herr | ([] & s1 & [_ ->]%lift_Ok & Hr)]; [by injection Herr as _ <- |].
  apply sm_bind_Err in Hr as [Herr | (wss & s1 & Hval & Hr)].
  - destruct (validate_all _ _ _ _ _ _ _ _ _) as [r c2] eqn:Hv. injection Herr as -> <-.
    apply (validate_all_error _ _ _ _ _ c1 sorted) in Hv as [(Ho' & Hs' & Hb') Hc']; auto.
    + split; [done |]. split; [unfold same_overlay; cbn; split_and!; congruence | done].
    + destruct Hfr as [Hsp Hf]. split; [congruence |]. intros tx Htx. rewrite Ho. apply Hf.
      by eapply topological_sort_elem.
    + done.
  - exfalso. apply sm_bind_Err in Hr as [Herr | ([? ?] & ? & _ & Hr)]; [| done].
    apply Hne. by eapply finalize_all_error.
Qed.

End rollback.

(** ** Concrete packages *)

#[local] Existing Instance sample_sighash.
Import (hints) Sample SampleTx SampleChain SamplePool SampleView SampleOrder.
Import SampleMempool.

(** A competitor of [parent]; a transaction with a lock time far in the future
    that pays almost nothing, and a child that pays for it; a child of [parent]
    with an output that fails and a child of that. *)
Definition rival : Transaction := SamplePool.spend [7] 0 u32_max 3500.
Definition early : Transaction :=
  mk_tx 2 400000000 [mk_txin (mk_outpoint [7] 0) [] 0x80000000 []] [mk_txout 4990 [0x51]].
Definition sponsor : Transaction := SamplePool.spend (SampleTx.txid early) 0 u32_max 3000.
Definition burn : Transaction :=
  mk_tx 2 0 [mk_txin (mk_outpoint (SampleTx.txid parent) 0) [] 0 []] [mk_txout 1000 [0x6a]].
Definition unburn : Transaction := SamplePool.spend (SampleTx.txid burn) 0 u32_max 10.

Definition offer_package (txs : list Transaction) (p : MemPool) :=
  accept_package SampleChain.client txs 1000 (replicate (length txs) 1000) p.

(** Conflicts are looked up in the pool, which is not changed while the
    transactions of a package are checked: a package with two transactions that
    spend the same output is accepted as a whole, and the pool then holds a
    double spend. *)
Lemma package_double_spend :
  exists (txs : list Transaction) (p' : MemPool) (i j : EntryId) (e e' : TxMemPoolEntry) (o : OutPoint),
    (exists result, offer_package txs start = (Ok result, p') /\ pr_accepted result ≡ₚ ids txs) /\
    i <> j /\ arena_get (arena (mp_inner p')) i = Some e /\ arena_get (arena (mp_inner p')) j = Some e' /\
    o ∈ spent_by e /\ o ∈ spent_by e'.
Proof.
  pose (r := offer_package [parent; rival] start).
  assert (Hr : exists result, r.1 = Ok result /\ pr_accepted result ≡ₚ ids [parent; rival]).
  { eexists. split; [vm_compute; reflexivity |]. reflexivity. }
  assert (He : forall i, bool_decide (i ∈ [1; 2]) = true ->
    exists e, arena_get (arena (mp_inner r.2)) i = Some e /\ mk_outpoint [7] 0 ∈ spent_by e).
  { intros i Hi%bool_decide_eq_true. assert (Hs : forallb (fun i => match arena_get (arena (mp_inner r.2)) i with
      | Some e => bool_decide (mk_outpoint [7] 0 ∈ spent_by e) | None => false end) [1; 2] = true) by (vm_compute; reflexivity).
    rewrite forallb_forall in Hs. specialize (Hs i (proj1 (list_elem_of_In _ _) Hi)).
    destruct (arena_get _ i) as [e |]; [| done]. apply bool_decide_eq_true in Hs. eauto. }
  destruct (He 1 eq_refl) as (e & He1 & Ho1), (He 2 eq_refl) as (e' & He2 & Ho2).
  exists [parent; rival], r.2, 1, 2, e, e', (mk_outpoint [7] 0). destruct Hr as (result & Hr & Hp).
  split; [exists result; split; [unfold r in *; rewrite <- Hr; by destruct (offer_package _ _) | done] |].
  by split_and!.
Qed.

(** In a package that pays enough, a transaction with too low a fee of its
    own is not rejected; but the checks that come after the one of the fee are
    skipped for it as well.  A transaction whose lock time has not come, and that
    is rejected when it pays on its own, enters the pool with a child that pays
    for it, under a fee of zero and without signature operations. *)
Lemma package_skips_finality :
  is_final_tx early (best_number SampleChain.client) 1000 = false /\
  (exists own, (accept_single_transaction SampleChain.client
     (mk_tx 2 400000000 (tx_input early) [mk_txout own [0x51]]) 1000 1000 start).1 = Err NonFinal) /\
  exists p' result e, offer_package [sponsor; early] start = (Ok result, p') /\
    get_entry (mp_inner p') (compute_txid early) = Some e /\ e_tx e = early /\ e_fee e = 0 /\ e_sigop_cost e = 0.
Proof.
  split; [reflexivity |]. split; [exists 4000; vm_compute; reflexivity |].
  assert (Hr : is_ok (offer_package [sponsor; early] start).1 = true) by (vm_compute; reflexivity).
  assert (He : match get_entry (mp_inner (offer_package [sponsor; early] start).2) (compute_txid early) with
    | Some e => bool_decide (e_tx e = early) && (e_fee e =? 0) && (e_sigop_cost e =? 0) | None => false end = true)
    by (vm_compute; reflexivity).
  destruct (offer_package [sponsor; early] start) as [r p']. cbn [fst snd] in Hr, He.
  destruct r as [result | |]; [| discriminate Hr ..].
  destruct (get_entry (mp_inner p') (compute_txid early)) as [e |] eqn:Hg; [| discriminate He]. bools.
  exists p', result, e. split_and!; first [reflexivity | assumption].
Qed.

(** The child is listed first; a cycle cannot be made with ids that are
    hashes, but a transaction twice can. *)
Lemma topological_sort_spec_witness :
  topological_sort_package [sponsor; early] = Ok [early; sponsor] /\
  topological_sort_package [early; early] = Err PackageCyclicDependencies /\
  parents_first [early; sponsor] /\ ~ parents_first [early; early].
Proof.
  assert (H1 : topological_sort_package [sponsor; early] = Ok [early; sponsor]) by (vm_compute; reflexivity).
  assert (H2 : topological_sort_package [early; early] = Err PackageCyclicDependencies) by (vm_compute; reflexivity).
  split; [exact H1 |]. split; [exact H2 |].
  pose proof (topological_sort_spec [sponsor; early]) as Hs. rewrite H1 in Hs.
  pose proof (topological_sort_spec [early; early]) as Hs2. rewrite H2 in Hs2.
  split; [exact (proj2 Hs) | exact (proj2 Hs2 [early; early] (reflexivity _))].
Defined.

