(* ===== verification/BlockPreparation.v ===== *)
(** * Block preparation ([crates/sc-consensus-nakamoto/src/block_preparation.rs])

    The coins a block needs, fetched in one batch, and the levels of transactions
    that can be executed in parallel.  The theorems show that a transaction's level
    is the length of its longest chain of dependencies within the block, that the
    panic of the level computation is out of reach, and what is found for every
    input. *)

From Stdlib Require Import ZArith Lia.
From stdpp Require Import prelude gmap.
From S2P Require Import Prelude Bitcoin Runtime Client Collections.

(** ** Access to coins *)

Class UtxoProvider (P : Type) := {
  up_get : P -> OutPoint -> option Coin;
  up_batch_get : P -> list OutPoint -> gmap OutPoint Coin;
}.

(** The default [batch_get]: one [get] for each. *)
Definition batch_get_default {P} (get : P -> OutPoint -> option Coin) (p : P) (outpoints : list OutPoint)
    : gmap OutPoint Coin :=
  fold_left (fun m op => match get p op with Some coin => <[op := coin]> m | None => m end) outpoints ∅.

(** A batch holds what single reads return: missing outputs are omitted. *)
Class UtxoProviderLaws (P : Type) `{UtxoProvider P} : Prop := {
  up_batch_get_lookup (p : P) (ops : list OutPoint) (o : OutPoint) :
    up_batch_get p ops !! o = if bool_decide (o ∈ ops) then up_get p o else None;
}.

(** [HashMap<OutPoint, Coin>]. *)
#[export] Instance HashMap_provider : UtxoProvider (gmap OutPoint Coin) := {|
  up_get m o := m !! o;
  up_batch_get m ops := batch_get_default (fun (m : gmap OutPoint Coin) o => m !! o) m ops;
|}.

(** ** Levels *)

Record TxExecutionLevels := mk_levels { levels : list (list nat) }.

(** [v[i] = f(v[i])]: an index out of bounds panics. *)
Definition modify_at {E A} (i : nat) (f : A -> A) (l : list A) : res E (list A) :=
  match l !! i with
  | Some x => Ok (<[i := f x]> l)
  | None => Panic
  end.

Fixpoint modify_all {E A} (ixs : list nat) (f : A -> A) (l : list A) : res E (list A) :=
  match ixs with
  | [] => Ok l
  | i :: ixs => l ← modify_at i f l; modify_all ixs f l
  end.

Section levels.
Context `{!TxApi, !HashOrder} {E : Type}.

(** The outputs of a transaction enter the map of creators. *)
Definition record_outputs (txid : bytes) (n tx_idx : nat) (creators : gmap OutPoint nat) : gmap OutPoint nat :=
  fold_left (fun m vout => <[mk_outpoint txid (wrap_u32 (Z.of_nat vout)) := tx_idx]> m) (seq 0 n) creators.

(** The transactions of this block that the inputs refer to. *)
Definition creators_of (creators : gmap OutPoint nat) (inputs : list TxIn) : gset nat :=
  list_to_set (omap (fun i => creators !! previous_output i) inputs).

(** The loop of [build]: the sets of dependencies in the order of the
    transactions. *)
Fixpoint build_dependencies (txs : list Transaction) (tx_idx : nat) (output_creators : gmap OutPoint nat)
    : list (gset nat) :=
  match txs with
  | [] => []
  | tx :: txs =>
      let txid := compute_txid tx in
      let output_creators := record_outputs txid (length (tx_output tx)) tx_idx output_creators in
      (if (0 <? tx_idx)%nat then creators_of output_creators (tx_input tx) else ∅)
        :: build_dependencies txs (S tx_idx) output_creators
  end.

(** The transactions that depend on each transaction. *)
Fixpoint build_dependents (deps : list (gset nat)) (tx_idx : nat) (dependents : list (list nat))
    : res E (list (list nat)) :=
  match deps with
  | [] => Ok dependents
  | d :: deps =>
      dependents ← modify_all (hash_iter d) (fun l => l ++ [tx_idx]) dependents;
      build_dependents deps (S tx_idx) dependents
  end.

(** Taking the transactions of a level out. *)
Fixpoint process_level (level : list nat) (dependents : list (list nat)) (remaining : gset nat)
    (in_degree : list nat) : res E (gset nat * list nat) :=
  match level with
  | [] => Ok (remaining, in_degree)
  | tx_idx :: level =>
      ds ← index dependents tx_idx;
      in_degree ← modify_all ds (fun d => d - 1)%nat in_degree;
      process_level level dependents (remaining ∖ {[tx_idx]}) in_degree
  end.

(** [remaining.iter().filter(|idx| in_degree[idx] == 0)]. *)
Fixpoint ready (l : list nat) (in_degree : list nat) : res E (list nat) :=
  match l with
  | [] => Ok []
  | idx :: l =>
      d ← index in_degree idx;
      rest ← ready l in_degree;
      Ok (if (d =? 0)%nat then idx :: rest else rest)
  end.

Fixpoint levels_loop (fuel : nat) (dependents : list (list nat)) (remaining : gset nat)
    (in_degree : list nat) (acc : list (list nat)) : res E (list (list nat)) :=
  match fuel with
  | O => Panic
  | S fuel =>
      if bool_decide (remaining = ∅) then Ok acc
      else
        level ← ready (hash_iter remaining) in_degree;
        if bool_decide (level = []) then Panic
        else
          '(remaining, in_degree) ← process_level level dependents remaining in_degree;
          levels_loop fuel dependents remaining in_degree (acc ++ [level])
  end.

Definition topological_levels (dependencies : list (gset nat)) : res E TxExecutionLevels :=
  let n := length dependencies in
  if (n =? 0)%nat then Ok (mk_levels [])
  else
    let in_degree := map size dependencies in
    dependents ← build_dependents dependencies 0 (replicate n []);
    lv ← levels_loop (S n) dependents (set_seq 0 n) in_degree [];
    Ok (mk_levels lv).

Definition build (block : Block) : res E TxExecutionLevels :=
  if (length (txdata block) =? 0)%nat then Ok (mk_levels [])
  else topological_levels (build_dependencies (txdata block) 0 ∅).
End levels.

Definition depth (l : TxExecutionLevels) : nat := length (levels l).
Definition is_fully_parallel (l : TxExecutionLevels) : bool := (length (levels l) <=? 1)%nat.
Definition get_level (l : TxExecutionLevels) (level : nat) : option (list nat) := levels l !! level.
Definition levels_tx_count (l : TxExecutionLevels) : nat := foldr (fun lv n => length lv + n)%nat 0%nat (levels l).

(** ** Prepared blocks *)

Record InBlockOutput := mk_in_block_output {
  ib_txout : TxOut;
  ib_is_coinbase : bool;
  ib_tx_index : nat;
}.

Record PreparedBlock := mk_prepared {
  pb_block : Block;
  pb_height : Z;
  input_utxos : gmap OutPoint Coin;
  in_block_outputs : gmap OutPoint InBlockOutput;
  execution_levels : TxExecutionLevels;
}.

Record VerifiedBlock := mk_verified {
  vb_block : Block;
  vb_height : Z;
  spent_utxos : gmap OutPoint Coin;
  script_verification_duration : Z;
}.

Section prepare.
Context `{!TxApi, !HashOrder} `{!UtxoProvider P} {E : Type}.

(** The outputs of one transaction. *)
Fixpoint collect_outputs (txid : bytes) (is_coinbase : bool) (tx_idx vout : nat) (outs : list TxOut)
    (m : gmap OutPoint InBlockOutput) : gmap OutPoint InBlockOutput :=
  match outs with
  | [] => m
  | txout :: outs =>
      let outpoint := mk_outpoint txid (wrap_u32 (Z.of_nat vout)) in
      collect_outputs txid is_coinbase tx_idx (S vout) outs
        (<[outpoint := mk_in_block_output txout is_coinbase tx_idx]> m)
  end.

Fixpoint collect_in_block (txs : list Transaction) (tx_idx : nat) (m : gmap OutPoint InBlockOutput)
    : gmap OutPoint InBlockOutput :=
  match txs with
  | [] => m
  | tx :: txs =>
      let txid := compute_txid tx in
      collect_in_block txs (S tx_idx)
        (collect_outputs txid (tx_idx =? 0)%nat tx_idx 0 (tx_output tx) m)
  end.

(** The outputs spent by the transactions after the coinbase. *)
Definition spent_outpoints (block : Block) : list OutPoint :=
  flat_map (fun tx => map previous_output (tx_input tx)) (drop 1 (txdata block)).

Definition prepare (block : Block) (height : Z) (utxo_provider : P) : res E PreparedBlock :=
  let in_block := collect_in_block (txdata block) 0 ∅ in
  let external_outpoints := filter (fun o => in_block !! o = None) (spent_outpoints block) in
  let utxos := up_batch_get utxo_provider external_outpoints in
  lv ← build block;
  Ok (mk_prepared block height utxos in_block lv).
End prepare.

Definition get_utxo (p : PreparedBlock) (outpoint : OutPoint) : option (TxOut * bool * Z) :=
  match in_block_outputs p !! outpoint with
  | Some in_block => Some (ib_txout in_block, ib_is_coinbase in_block, pb_height p)
  | None =>
      match input_utxos p !! outpoint with
      | Some coin =>
          Some (mk_txout (coin_amount coin) (coin_script_pubkey coin), coin_is_coinbase coin, coin_height coin)
      | None => None
      end
  end.

Definition missing_utxos (p : PreparedBlock) : list OutPoint :=
  filter (fun o => in_block_outputs p !! o = None /\ input_utxos p !! o = None)
    (spent_outpoints (pb_block p)).

Definition prepared_tx_count (p : PreparedBlock) : nat := length (txdata (pb_block p)).

Definition into_verified (p : PreparedBlock) (duration : Z) : VerifiedBlock :=
  mk_verified (pb_block p) (pb_height p) (input_utxos p) duration.

Definition get_spent_utxo (v : VerifiedBlock) (outpoint : OutPoint) : option Coin := spent_utxos v !! outpoint.
Definition verified_tx_count (v : VerifiedBlock) : nat := length (txdata (vb_block v)).

(** ** The reference: longest chains *)

Section rank.
Context (deps : list (gset nat)).

Definition dependencies_of (i : nat) : gset nat := default ∅ (deps !! i).

(** The length of the longest chain of dependencies below a transaction. *)
Fixpoint chain (fuel i : nat) : nat :=
  match fuel with
  | O => 0
  | S fuel => foldr (fun j m => Nat.max (S (chain fuel j)) m) 0%nat (elements (dependencies_of i))
  end.

Definition rank (i : nat) : nat := chain (S i) i.

(** Dependencies are earlier transactions. *)
Context (Hdeps : forall i j, j ∈ dependencies_of i -> (j < i)%nat).

Lemma chain_enough fuel i : (i < fuel)%nat -> chain fuel i = rank i.
Proof.
  revert i. induction fuel as [fuel IH] using lt_wf_ind. intros i Hi.
  destruct fuel as [| fuel]; [lia |]. unfold rank. cbn [chain].
  assert (forall j, j ∈ elements (dependencies_of i) -> chain fuel j = chain i j) as Heq.
  { intros j Hj. apply elem_of_elements, Hdeps in Hj.
    rewrite (IH fuel) by lia. destruct (decide (S i = S fuel)) as [Heq | Hne].
    - injection Heq as ->. by rewrite (IH fuel) by lia.
    - rewrite (IH i) by lia. done. }
  induction (elements (dependencies_of i)) as [| j l IHl]; [done |]. cbn [foldr].
  rewrite IHl by (intros; apply Heq; set_solver). by rewrite Heq by set_solver.
Qed.

Lemma foldr_max_spec (f : nat -> nat) l :
  (forall j, j ∈ l -> (f j < foldr (fun j m => Nat.max (S (f j)) m) 0 l)%nat) /\
  forall k, foldr (fun j m => Nat.max (S (f j)) m) 0%nat l = S k -> exists j, j ∈ l /\ f j = k.
Proof.
  induction l as [| x l [IH1 IH2]]; cbn [foldr]; [split; [set_solver | done] |]. split.
  - intros j [-> | Hj]%elem_of_cons; [lia |]. specialize (IH1 j Hj). lia.
  - intros k Hk.
    destruct (Nat.max_spec (S (f x)) (foldr (fun j m => Nat.max (S (f j)) m) 0%nat l)) as [[_ Hm] | [_ Hm]];
      rewrite Hm in Hk.
    + destruct (IH2 k Hk) as (j & Hj & Hf). exists j. split; [set_solver | done].
    + injection Hk as Hk. exists x. split; [set_solver | done].
Qed.

Lemma rank_spec i :
  (forall j, j ∈ dependencies_of i -> (rank j < rank i)%nat) /\
  forall k, rank i = S k -> exists j, j ∈ dependencies_of i /\ rank j = k.
Proof.
  destruct (foldr_max_spec (chain i) (elements (dependencies_of i))) as [H1 H2]. split.
  - intros j Hj. rewrite <- (chain_enough i j) by (by apply Hdeps).
    apply H1. by apply elem_of_elements.
  - intros k (j & Hj & Hk)%H2. apply elem_of_elements in Hj. exists j.
    split; [done |]. rewrite <- Hk. symmetry. apply chain_enough. by apply Hdeps.
Qed.
End rank.

(** ** The computation of the levels *)

Lemma modify_all_spec {E A} (f : A -> A) ixs (l : list A) :
  NoDup ixs -> Forall (fun i => i < length l)%nat ixs ->
  exists l', modify_all (E := E) ixs f l = Ok l' /\ length l' = length l /\
    forall i, l' !! i = (if bool_decide (i ∈ ixs) then f else id) <$> l !! i.
Proof.
  revert l. induction ixs as [| i ixs IH]; intros l Hnd Hlt; cbn [modify_all].
  { exists l. split_and!; [done | done |]. intros i.
    rewrite bool_decide_eq_false_2 by set_solver. by rewrite option_fmap_id. }
  apply NoDup_cons in Hnd as [Hi Hnd]. apply Forall_cons in Hlt as [Hil Hlt].
  destruct (lookup_lt_is_Some_2 l i Hil) as [x Hx]. unfold modify_at at 1. rewrite Hx. rbind.
  destruct (IH (<[i := f x]> l)) as (l' & -> & Hlen & Hl'); [done | by rewrite length_insert |].
  exists l'. rewrite length_insert in Hlen. split_and!; [done | done |].
  intros j. rewrite Hl'. destruct (decide (j = i)) as [-> | Hne].
  - rewrite list_lookup_insert_eq, Hx by done. rewrite bool_decide_eq_false_2 by done.
    by rewrite bool_decide_eq_true_2 by set_solver.
  - rewrite list_lookup_insert_ne by done. f_equal.
    destruct (decide (j ∈ ixs)); [by rewrite !bool_decide_eq_true_2 by set_solver |].
    by rewrite !bool_decide_eq_false_2 by set_solver.
Qed.

Lemma remove_one_size (X P : gset nat) t :
  t ∈ X -> t ∉ P -> size (X ∖ (P ∪ {[t]})) = (size (X ∖ P) - 1)%nat.
Proof.
  intros HX HP. replace (X ∖ (P ∪ {[t]})) with ((X ∖ P) ∖ {[t]}) by set_solver.
  rewrite size_difference by set_solver. by rewrite size_singleton.
Qed.

Lemma remove_other (X P : gset nat) t : t ∉ X -> X ∖ (P ∪ {[t]}) = X ∖ P.
Proof. set_solver. Qed.

Lemma difference_cons (X P : gset nat) t : X ∖ P ∖ {[t]} = X ∖ (P ∪ {[t]}).
Proof. set_solver. Qed.

Lemma not_subset_choose (X P : gset nat) : ~ X ⊆ P -> exists j, j ∈ X /\ j ∉ P.
Proof.
  intros Hn. destruct (decide (X ∖ P = ∅)) as [He | He].
  - exfalso. apply Hn. by apply empty_difference_subseteq_L.
  - apply set_choose_L in He as [j Hj]. exists j. by apply elem_of_difference in Hj.
Qed.

Lemma size_shrinks (A P Q : gset nat) i : P ⊆ Q -> i ∈ A ∖ P -> i ∈ Q -> (size (A ∖ Q) < size (A ∖ P))%nat.
Proof. intros HPQ Hi HQ. apply subset_size. set_solver. Qed.

Section loop.
Context `{!HashOrder, !HashOrderLaws} {E : Type}.

Lemma build_dependents_spec ds k (dts : list (list nat)) :
  (forall d j, d ∈ ds -> j ∈ d -> (j < length dts)%nat) ->
  exists dts', build_dependents (E := E) ds k dts = Ok dts' /\ length dts' = length dts /\
    forall j l, dts !! j = Some l -> exists l', dts' !! j = Some (l ++ l') /\ NoDup l' /\
      forall i, i ∈ l' <-> (k <= i)%nat /\ exists d, ds !! (i - k)%nat = Some d /\ j ∈ d.
Proof.
  revert k dts. induction ds as [| d ds IH]; intros k dts Hlt; cbn [build_dependents].
  { exists dts. split_and!; [done | done |]. intros j l Hj. exists []. rewrite app_nil_r.
    split_and!; [done | constructor |]. intros i. split; [set_solver |]. by intros (_ & d & ? & _). }
  destruct (modify_all_spec (E := E) (fun l => l ++ [k]) (hash_iter d) dts) as (dts1 & -> & Hl1 & Hd1).
  { apply hash_iter_nodup. }
  { apply Forall_forall. intros j Hj%hash_iter_elem. apply (Hlt d); [set_solver | done]. }
  rbind. destruct (IH (S k) dts1) as (dts' & -> & Hl' & Hd').
  { intros d' j Hd' Hj. rewrite Hl1. apply (Hlt d'); [set_solver | done]. }
  exists dts'. split_and!; [done | lia |]. intros j l Hj. specialize (Hd1 j). rewrite Hj in Hd1.
  destruct (decide (j ∈ d)) as [Hjd | Hjd].
  - rewrite bool_decide_eq_true_2 in Hd1 by (by apply hash_iter_elem). cbn in Hd1.
    destruct (Hd' j _ Hd1) as (l' & Hl & Hnd & Hin). exists (k :: l'). rewrite Hl, <- (assoc_L (++)).
    split_and!; [done | |].
    + constructor; [| done]. rewrite Hin. lia.
    + intros i. rewrite elem_of_cons, Hin. destruct (decide (i = k)) as [-> | Hne].
      * rewrite Nat.sub_diag. naive_solver.
      * destruct (decide (k <= i)%nat); [| naive_solver lia].
        replace (i - k)%nat with (S (i - S k)) by lia. cbn [lookup list_lookup]. naive_solver lia.
  - rewrite bool_decide_eq_false_2 in Hd1 by (by rewrite hash_iter_elem). cbn in Hd1.
    destruct (Hd' j _ Hd1) as (l' & Hl & Hnd & Hin). exists l'. split_and!; [done | done |].
    intros i. rewrite Hin. destruct (decide (i = k)) as [-> | Hne].
    + rewrite Nat.sub_diag. cbn [lookup list_lookup]. naive_solver lia.
    + destruct (decide (k <= i)%nat); [| naive_solver lia].
      replace (i - k)%nat with (S (i - S k)) by lia. cbn [lookup list_lookup]. naive_solver lia.
Qed.

(** *** One level *)

Context (deps : list (gset nat)).
Abbreviation D := (dependencies_of deps).
Abbreviation all := (set_seq 0 (length deps) : gset nat).
Context (Hdeps : forall i j, j ∈ D i -> (j < i)%nat).
Context (dts : list (list nat)).
Context (Hdts : forall j, (j < length deps)%nat ->
  exists l, dts !! j = Some l /\ NoDup l /\ forall i, i ∈ l <-> (i < length deps)%nat /\ j ∈ D i).

(** The counters hold the dependencies that are not yet processed. *)
Definition degrees (P : gset nat) (deg : list nat) : Prop :=
  length deg = length deps /\ forall i, (i < length deps)%nat -> deg !! i = Some (size (D i ∖ P)).

Lemma process_level_spec level P deg :
  degrees P deg -> NoDup level -> Forall (fun i => i < length deps)%nat level ->
  Forall (fun i => i ∉ P) level ->
  exists deg', process_level (E := E) level dts (all ∖ P) deg =
      Ok (all ∖ (P ∪ list_to_set level), deg') /\
    degrees (P ∪ list_to_set level) deg'.
Proof.
  revert P deg. induction level as [| t level IH]; intros P deg Hdeg Hnd Hlt HP; cbn [process_level].
  { exists deg. cbn. by rewrite union_empty_r_L. }
  apply NoDup_cons in Hnd as [Ht Hnd]. apply Forall_cons in Hlt as [Htn Hlt]. apply Forall_cons in HP as [HtP HP].
  destruct (Hdts t Htn) as (l & Hl & Hndl & Hin). unfold index at 1. rewrite Hl. rcbn. rbind.
  destruct Hdeg as [Hlen Hdeg].
  destruct (modify_all_spec (E := E) (fun d => d - 1)%nat l deg) as (deg1 & -> & Hl1 & Hd1); [done | |].
  { apply Forall_forall. intros i Hi%Hin. lia. }
  rbind. destruct (IH (P ∪ {[t]}) deg1) as (deg' & Hp & Hdeg'); [| done | done | |].
  - split; [lia |]. intros i Hi. rewrite Hd1, (Hdeg i Hi). destruct (decide (t ∈ D i)) as [Hti | Hti].
    + rewrite bool_decide_eq_true_2 by (by apply Hin). cbn. by rewrite remove_one_size.
    + rewrite bool_decide_eq_false_2 by (rewrite Hin; intros [_ ?]; done). cbn. by rewrite remove_other.
  - rewrite Forall_forall in *. intros i Hi. rewrite not_elem_of_union, not_elem_of_singleton.
    split; [by apply HP |]. by intros ->.
  - exists deg'. rewrite difference_cons, Hp. rewrite list_to_set_cons.
    by rewrite (assoc_L (∪)).
Qed.

Lemma ready_spec l P deg :
  degrees P deg -> Forall (fun i => i < length deps)%nat l ->
  ready (E := E) l deg = Ok (filter (fun i => D i ⊆ P) l).
Proof.
  intros [Hlen Hdeg] Hl. induction Hl as [| i l Hi Hl IH]; cbn [ready]; [done |].
  unfold index at 1. rewrite (Hdeg i Hi). rcbn. rbind. rewrite IH. rbind. rewrite filter_cons.
  destruct (Nat.eqb_spec (size (D i ∖ P)) 0) as [Hz | Hz].
  - apply size_empty_inv in Hz. rewrite decide_True by set_solver. done.
  - rewrite decide_False; [done |]. intros Hsub. apply Hz, size_empty_iff. set_solver.
Qed.

(** *** All levels *)

(** The transactions below a level. *)
Definition below (k : nat) : gset nat := filter (fun i => rank deps i < k)%nat all.

(** The levels from the [k]-th on, as they should be. *)
Definition levels_from (k : nat) (lv : list (list nat)) : Prop :=
  (forall m l, lv !! m = Some l -> l <> [] /\ NoDup l /\
    forall i, i ∈ l <-> (i < length deps)%nat /\ rank deps i = (k + m)%nat) /\
  forall i, (i < length deps)%nat -> (rank deps i < k + length lv)%nat.

Lemma elem_of_below k i : i ∈ below k <-> (i < length deps)%nat /\ (rank deps i < k)%nat.
Proof. unfold below. rewrite elem_of_filter, elem_of_set_seq. split; intros; split_and!; lia. Qed.

Lemma ready_rank k i : i ∈ all ∖ below k /\ D i ⊆ below k <-> (i < length deps)%nat /\ rank deps i = k.
Proof.
  rewrite elem_of_difference, elem_of_set_seq, elem_of_below.
  destruct (rank_spec deps Hdeps i) as [Hlt Hex]. split.
  - intros [[Hi Hnk] Hsub]. split; [lia |]. destruct (rank deps i) as [| r] eqn:Hr; [lia |].
    destruct (Hex r eq_refl) as (j & Hj & Hjr). specialize (Hsub j Hj). apply elem_of_below in Hsub. lia.
  - intros [Hi Hk]. split; [lia |]. intros j Hj. apply elem_of_below.
    specialize (Hlt j Hj). pose proof (Hdeps i j Hj). lia.
Qed.

(** Something is ready: the first remaining transaction is. *)
Lemma ready_exists P :
  P ⊆ all -> all ∖ P <> ∅ -> exists i, i ∈ all ∖ P /\ D i ⊆ P.
Proof.
  intros HP Hne. apply set_choose_L in Hne as [i Hi]. induction i as [i IH] using lt_wf_ind.
  destruct (decide (D i ⊆ P)) as [| Hn]; [by exists i |].
  apply not_subset_choose in Hn as (j & Hj & HjP). pose proof (Hdeps i j Hj).
  apply (IH j); [done |]. rewrite elem_of_difference, elem_of_set_seq in *. split; [lia | done].
Qed.

Lemma levels_loop_spec fuel k deg acc :
  degrees (below k) deg -> (size (all ∖ below k) < fuel)%nat ->
  exists lv, levels_loop (E := E) fuel dts (all ∖ below k) deg acc = Ok (acc ++ lv) /\ levels_from k lv.
Proof.
  revert k deg acc. induction fuel as [| fuel IH]; intros k deg acc Hdeg Hfuel; [lia |].
  cbn [levels_loop]. case_bool_decide as Hempty.
  { exists []. rewrite app_nil_r. split; [done |]. split; [done |]. intros i Hi.
    assert (i ∈ below k) as Hb%elem_of_below.
    { destruct (decide (i ∈ below k)); [done |]. exfalso.
      assert (i ∈ all ∖ below k) as Hin by (rewrite elem_of_difference, elem_of_set_seq; split; [lia | done]).
      rewrite Hempty in Hin. by apply not_elem_of_empty in Hin. }
    cbn [length]. lia. }
  rewrite (ready_spec _ (below k)); [| done |].
  2:{ apply Forall_forall. intros i [Hi _]%hash_iter_elem%elem_of_difference.
      apply elem_of_set_seq in Hi. lia. }
  rbind. set (level := filter _ _).
  assert (forall i, i ∈ level <-> (i < length deps)%nat /\ rank deps i = k) as Hlevel.
  { intros i. unfold level. rewrite list_elem_of_filter, hash_iter_elem, <- ready_rank. tauto. }
  destruct (ready_exists (below k)) as (i & Hi & Hsub); [| done |].
  { intros i Hi. apply elem_of_below in Hi. apply elem_of_set_seq. lia. }
  assert (i ∈ level) as Hil by (apply Hlevel, ready_rank; done).
  assert (level <> []) as Hne by (intros Hn; rewrite Hn in Hil; by apply elem_of_nil in Hil).
  rewrite bool_decide_eq_false_2 by done.
  assert (NoDup level) as Hnd by (apply NoDup_filter, hash_iter_nodup).
  assert (below k ∪ list_to_set level = below (S k)) as Hnext.
  { apply set_eq. intros j. rewrite elem_of_union, elem_of_list_to_set, Hlevel, !elem_of_below. lia. }
  destruct (process_level_spec level (below k) deg Hdeg Hnd) as (deg' & -> & Hdeg').
  { apply Forall_forall. by intros j [Hj _]%Hlevel. }
  { apply Forall_forall. intros j [_ Hj]%Hlevel. rewrite elem_of_below. lia. }
  rbind. rewrite Hnext in *.
  destruct (IH (S k) deg' (acc ++ [level]) Hdeg') as (lv & -> & Hlv & Hall).
  { assert (size (all ∖ below (S k)) < size (all ∖ below k))%nat; [| lia].
    apply (size_shrinks _ _ _ i); [| done |].
    - intros j. rewrite !elem_of_below. lia.
    - rewrite elem_of_below. apply Hlevel in Hil. lia. }
  exists (level :: lv). rewrite <- (assoc_L (++)). split; [done |]. split.
  - intros [| m] l; cbn [lookup list_lookup].
    + intros [= <-]. rewrite Nat.add_0_r. done.
    + intros Hl. rewrite <- Nat.add_succ_comm. by apply Hlv.
  - intros j Hj. cbn [length]. specialize (Hall j Hj). lia.
Qed.
End loop.

(** ** Dependencies of a block *)

Section dependencies.
Context `{!TxApi}.

(** The transaction creates the output. *)
Definition creates (tx : Transaction) (o : OutPoint) : bool :=
  bool_decide (op_txid o = compute_txid tx) &&
  existsb (fun vout => op_vout o =? wrap_u32 (Z.of_nat vout)) (seq 0 (length (tx_output tx))).

(** One transaction spends an output of another. *)
Definition spends (tx tx' : Transaction) : bool :=
  existsb (fun i => creates tx' (previous_output i)) (tx_input tx).

(** The reference: the earlier transactions whose outputs are spent. *)
Definition spec_dependencies (txs : list Transaction) : list (gset nat) :=
  imap (fun i tx => if (i =? 0)%nat then ∅
                    else filter (fun j => spends tx <$> txs !! j = Some true) (set_seq 0 i)) txs.

Definition no_self_spend (txs : list Transaction) : Prop := forall tx, tx ∈ txs -> spends tx tx = false.

(** The last of the transactions that creates an output. *)
Fixpoint creator (txs : list Transaction) (idx : nat) (o : OutPoint) (acc : option nat) : option nat :=
  match txs with
  | [] => acc
  | tx :: txs => creator txs (S idx) o (if creates tx o then Some idx else acc)
  end.

Lemma record_outputs_lookup txid n idx m o :
  record_outputs txid n idx m !! o =
  if bool_decide (op_txid o = txid) && existsb (fun v => op_vout o =? wrap_u32 (Z.of_nat v)) (seq 0 n)
  then Some idx else m !! o.
Proof.
  unfold record_outputs. generalize 0%nat as s. revert m. induction n as [| n IH]; intros m s; cbn [seq fold_left existsb].
  { by rewrite andb_false_r. }
  rewrite IH. destruct o as [t v]. cbn [op_txid op_vout]. destruct (decide (t = txid)) as [-> | Hne].
  - rewrite bool_decide_eq_true_2 by done. cbn [andb].
    destruct (existsb _ (seq (S s) n)); [by rewrite orb_true_r |]. rewrite orb_false_r.
    destruct (Z.eqb_spec v (wrap_u32 (Z.of_nat s))) as [-> | Hv]; [by rewrite lookup_insert_eq |].
    rewrite lookup_insert_ne; [done |]. congruence.
  - rewrite bool_decide_eq_false_2 by done. cbn [andb]. rewrite lookup_insert_ne; [done |]. congruence.
Qed.

Lemma omap_ext_all {A B} (f g : A -> option B) (l : list A) : (forall x, f x = g x) -> omap f l = omap g l.
Proof. intros Hfg. induction l as [| x l IH]; cbn; [done |]. rewrite Hfg. destruct (g x); by rewrite IH. Qed.

Lemma build_dependencies_lookup txs k m i :
  build_dependencies txs k m !! i =
  (fun tx => if (0 <? k + i)%nat
             then list_to_set (omap (fun inp => creator (take (S i) txs) k (previous_output inp)
                                                  (m !! previous_output inp)) (tx_input tx))
             else (∅ : gset nat)) <$> txs !! i.
Proof.
  revert k m i. induction txs as [| tx txs IH]; intros k m i; cbn [build_dependencies]; [done |].
  destruct i as [| i]; cbn [lookup list_lookup].
  - rewrite Nat.add_0_r. cbn [fmap option_fmap option_map]. f_equal.
    destruct (0 <? k)%nat; [| done]. unfold creators_of. f_equal. apply omap_ext_all. intros inp.
    rewrite record_outputs_lookup. done.
  - rewrite IH. rewrite <- Nat.add_succ_comm.
    destruct (txs !! i) as [tx' |]; [| done]. cbn [fmap option_fmap option_map]. f_equal.
    destruct (0 <? S k + i)%nat; [| done]. f_equal. apply omap_ext_all. intros inp.
    rewrite record_outputs_lookup. done.
Qed.

(** With distinct ids an output has one creator. *)
Lemma creator_spec txs k o acc j :
  NoDup (map compute_txid txs) ->
  creator txs k o acc = Some j <->
  (exists tx, (k <= j)%nat /\ txs !! (j - k)%nat = Some tx /\ creates tx o = true) \/
  (Forall (fun tx => creates tx o = false) txs /\ acc = Some j).
Proof.
  revert k acc. induction txs as [| tx txs IH]; intros k acc Hnd; cbn [creator].
  { split; [by right |]. intros [(tx & _ & Htx & _) | [_ ->]]; done. }
  cbn [map] in Hnd. apply NoDup_cons in Hnd as [Htx Hnd]. rewrite IH by done.
  destruct (creates tx o) eqn:Hc.
  - assert (Forall (fun tx' => creates tx' o = false) txs) as Hnone.
    { apply Forall_forall. intros tx' Hin. apply not_true_is_false. intros Hc'.
      unfold creates in Hc, Hc'. bools. apply Htx. rewrite list_elem_of_In, in_map_iff. exists tx'.
      split; [congruence | by apply list_elem_of_In]. }
    split.
    + intros [(tx' & Hj & Hl & Hc') | [_ [= <-]]].
      * apply list_elem_of_lookup_2 in Hl. eapply Forall_forall in Hnone; [| exact Hl]. congruence.
      * left. exists tx. by rewrite Nat.sub_diag.
    + intros [(tx' & Hj & Hl & Hc') | [[Hf _]%Forall_cons _]]; [| congruence].
      destruct (decide (j = k)) as [-> | Hne]; [by right |].
      left. exists tx'. replace (j - k)%nat with (S (j - S k)) in Hl by lia. split; [lia | done].
  - split.
    + intros [(tx' & Hj & Hl & Hc') | [Hf ->]].
      * left. exists tx'. replace (j - k)%nat with (S (j - S k)) by lia. split; [lia | done].
      * right. by rewrite Forall_cons.
    + intros [(tx' & Hj & Hl & Hc') | [[_ Hf]%Forall_cons ->]]; [| by right].
      left. exists tx'. destruct (decide (j = k)) as [-> | Hne].
      * rewrite Nat.sub_diag in Hl. injection Hl as ->. congruence.
      * replace (j - k)%nat with (S (j - S k)) in Hl by lia. split; [lia | done].
Qed.

Lemma spends_spec tx tx' :
  spends tx tx' = true <-> exists inp, inp ∈ tx_input tx /\ creates tx' (previous_output inp) = true.
Proof.
  unfold spends. rewrite existsb_exists. split; intros (i & Hi & Hc); exists i; split; try done;
    by apply list_elem_of_In.
Qed.

Lemma build_dependencies_spec txs :
  NoDup (map compute_txid txs) -> no_self_spend txs ->
  build_dependencies txs 0 ∅ = spec_dependencies txs.
Proof.
  intros Hnd Hself. apply list_eq. intros i. rewrite build_dependencies_lookup. unfold spec_dependencies.
  rewrite list_lookup_imap. destruct (txs !! i) as [tx |] eqn:Htx; cbn [fmap option_fmap option_map]; [| done].
  f_equal. rewrite Nat.add_0_l. destruct i as [| i]; [done |]. cbn [Nat.ltb Nat.leb Nat.eqb].
  apply set_eq. intros j. rewrite elem_of_list_to_set, list_elem_of_omap, elem_of_filter, elem_of_set_seq.
  assert (NoDup (map compute_txid (take (S (S i)) txs))) as Hnd'.
  { change (NoDup (compute_txid <$> take (S (S i)) txs)). rewrite fmap_take.
    eapply sublist_NoDup; [exact Hnd | apply sublist_take]. }
  split.
  - intros (inp & Hinp & Hc). apply creator_spec in Hc as [(tx' & _ & Hl & Hcr) | [_ Hc]]; [| | done].
    2:{ by rewrite lookup_empty in Hc. }
    rewrite Nat.sub_0_r in Hl. apply lookup_take_Some in Hl as [Hl Hj].
    assert (spends tx tx' = true) as Hs by (apply spends_spec; by exists inp).
    rewrite Hl. cbn. rewrite Hs. split; [done |]. destruct (decide (j = S i)) as [-> | Hne]; [| lia].
    rewrite Htx in Hl. injection Hl as <-. apply list_elem_of_lookup_2 in Htx. by rewrite (Hself tx Htx) in Hs.
  - intros [Hs Hj]. destruct (txs !! j) as [tx' |] eqn:Hl; [| done]. cbn in Hs. injection Hs as Hs.
    apply spends_spec in Hs as (inp & Hinp & Hc). exists inp. split; [done |].
    apply creator_spec; [done |]. left. exists tx'. rewrite Nat.sub_0_r. split; [lia |].
    split; [| done]. apply lookup_take_Some. split; [done | lia].
Qed.

Lemma spec_dependencies_lt txs i j : j ∈ dependencies_of (spec_dependencies txs) i -> (j < i)%nat.
Proof.
  unfold dependencies_of, spec_dependencies. rewrite list_lookup_imap.
  destruct (txs !! i); cbn [fmap option_fmap option_map default]; [| by intros ?%not_elem_of_empty].
  destruct (i =? 0)%nat; [by intros ?%not_elem_of_empty |].
  intros [_ Hj%elem_of_set_seq]%elem_of_filter. lia.
Qed.
End dependencies.

Section level_theorems.
Context `{!TxApi, !HashOrder, !HashOrderLaws} {E : Type}.

Lemma topological_levels_spec deps :
  (forall i j, j ∈ dependencies_of deps i -> (j < i)%nat) ->
  exists lv, topological_levels (E := E) deps = Ok (mk_levels lv) /\ levels_from deps 0 lv.
Proof.
  intros Hdeps. unfold topological_levels. destruct (Nat.eqb_spec (length deps) 0) as [Hz | Hz].
  { exists []. split; [done |]. split; [done |]. intros; lia. }
  assert (forall i d, deps !! i = Some d -> dependencies_of deps i = d) as HD.
  { intros i d Hd. unfold dependencies_of. by rewrite Hd. }
  destruct (build_dependents_spec (E := E) deps 0 (replicate (length deps) [])) as (dts & -> & Hlen & Hdts).
  { intros d j [i Hi]%list_elem_of_lookup_1 Hj. rewrite length_replicate.
    apply lookup_lt_Some in Hi as Hlt. rewrite <- (HD i d Hi) in Hj. apply Hdeps in Hj. lia. }
  rbind. rewrite <- (difference_empty_L (set_seq 0 (length deps))).
  assert (below deps 0 = ∅) as Hb.
  { apply set_eq. intros i. rewrite elem_of_below. split; [lia | by intros ?%not_elem_of_empty]. }
  rewrite <- Hb.
  destruct (levels_loop_spec (E := E) deps Hdeps dts) with (fuel := S (length deps)) (k := 0%nat)
    (deg := map size deps) (acc := @nil (list nat)) as (lv & -> & Hlv).
  - intros j Hj. destruct (Hdts j []) as (l & Hl & Hnd & Hin); [by apply lookup_replicate |].
    exists l. split; [done |]. split; [done |]. intros i. rewrite Hin, Nat.sub_0_r.
    unfold dependencies_of. split.
    + intros (_ & d & Hd & Hjd). rewrite Hd. split; [by eapply lookup_lt_Some | done].
    + intros [Hi Hjd]. destruct (lookup_lt_is_Some_2 deps i Hi) as [d Hd]. rewrite Hd in Hjd.
      split; [lia | by exists d].
  - split; [by rewrite length_map |]. intros i Hi.
    change (map size deps) with (size <$> deps). rewrite list_lookup_fmap.
    destruct (lookup_lt_is_Some_2 deps i Hi) as [d Hd]. rewrite Hd, (HD i d Hd), Hb. cbn.
    by rewrite difference_empty_L.
  - rewrite Hb, difference_empty_L, size_set_seq. lia.
  - by exists lv.
Qed.

Lemma levels_concat deps lv :
  levels_from deps 0 lv -> concat lv ≡ₚ seq 0 (length deps).
Proof.
  intros [Hlv Hall]. apply NoDup_Permutation.
  - assert (forall k lv, (forall m l, lv !! m = Some l -> NoDup l /\
      forall i, i ∈ l <-> (i < length deps)%nat /\ rank deps i = (k + m)%nat) -> NoDup (concat lv) /\
      forall i, i ∈ concat lv -> (k <= rank deps i)%nat) as Hgen.
    { clear. intros k lv. revert k. induction lv as [| l lv IH]; intros k Hlv; cbn [concat].
      { split; [constructor |]. by intros i ?%elem_of_nil. }
      destruct (Hlv 0%nat l eq_refl) as [Hnd Hl]. destruct (IH (S k)) as [Hnd' Hge].
      { intros m l' Hm. specialize (Hlv (S m) l' Hm). by rewrite <- Nat.add_succ_comm in Hlv. }
      split.
      - apply NoDup_app. split_and!; [done | | done]. intros i [_ Hi]%Hl Hi'%Hge. lia.
      - intros i [[_ Hi]%Hl | Hi%Hge]%elem_of_app; lia. }
    apply (Hgen 0%nat). intros m l Hm. by apply Hlv.
  - apply NoDup_seq.
  - intros i. rewrite elem_of_seq. split.
    + intros (l & Hl & Hi)%list_elem_of_In%in_concat. apply list_elem_of_In in Hl as Hl.
      apply list_elem_of_lookup_1 in Hl as [m Hm]. destruct (Hlv m l Hm) as (_ & _ & Hin).
      apply list_elem_of_In, Hin in Hi. lia.
    + intros [_ Hi]. cbn in Hi. specialize (Hall i Hi). rewrite Nat.add_0_l in Hall.
      destruct (lookup_lt_is_Some_2 lv _ Hall) as [l Hl]. destruct (Hlv _ l Hl) as (_ & _ & Hin).
      apply list_elem_of_In, in_concat. exists l. split; [by apply list_elem_of_In, (list_elem_of_lookup_2 _ _ _ Hl) |].
      apply list_elem_of_In, Hin. split; [done | by rewrite Nat.add_0_l].
Qed.

Lemma concat_length lv : length (concat lv) = levels_tx_count (mk_levels lv).
Proof. unfold levels_tx_count. cbn [levels]. induction lv; cbn; [done |]. rewrite length_app. lia. Qed.

(** C8: the execution levels of a block are computed without panic and are the
    right ones: with distinct transaction ids, none of which occurs in an input of
    its own transaction, every transaction is in one level, whose number is the
    length of its longest chain of dependencies on earlier transactions of the
    block; so transactions of one level do not depend on each other, and no level
    is empty. *)
Theorem execution_levels_spec (block : Block) :
  NoDup (map compute_txid (txdata block)) -> no_self_spend (txdata block) ->
  exists lv, build (E := E) block = Ok lv /\
    (forall k i, (exists l, get_level lv k = Some l /\ i ∈ l) <->
       (i < length (txdata block))%nat /\ rank (spec_dependencies (txdata block)) i = k) /\
    concat (levels lv) ≡ₚ seq 0 (length (txdata block)) /\
    levels_tx_count lv = length (txdata block) /\
    (forall k l, get_level lv k = Some l -> l <> []).
Proof.
  intros Hnd Hself. unfold build.
  assert (length (spec_dependencies (txdata block)) = length (txdata block)) as Hlen.
  { unfold spec_dependencies. apply length_imap. }
  destruct (topological_levels_spec (spec_dependencies (txdata block))) as (lv & Hlv & Hspec).
  { apply spec_dependencies_lt. }
  exists (mk_levels lv). split.
  { rewrite build_dependencies_spec by done. rewrite Hlv. destruct (Nat.eqb_spec (length (txdata block)) 0) as [Hz | Hz]; [| done].
    rewrite <- Hlen in Hz. revert Hlv. unfold topological_levels. rewrite Hz. by intros [= <-]. }
  pose proof (levels_concat _ _ Hspec) as Hc. rewrite Hlen in Hc.
  destruct Hspec as [Hl Hall]. rewrite Hlen in *. unfold get_level. cbn [levels]. split_and!.
  - intros k i. split.
    + intros (l & Hk & Hi). by apply (Hl k l Hk).
    + intros [Hi Hr]. specialize (Hall i Hi). rewrite Hr, Nat.add_0_l in Hall.
      destruct (lookup_lt_is_Some_2 lv k Hall) as [l Hk]. exists l. split; [done |]. by apply (Hl k l Hk).
  - done.
  - by rewrite <- concat_length, Hc, length_seq.
  - intros k l Hk. by apply (Hl k l Hk).
Qed.
End level_theorems.

(** ** The outputs a block needs *)

(** The output at an index, counted from [v]. *)
Definition out_at (outs : list TxOut) (v : nat) (vout : Z) : option TxOut :=
  if bool_decide (Z.of_nat v <= vout) then outs !! (Z.to_nat vout - v)%nat else None.

Section outputs.
Context `{!TxApi}.

(** The reference: the output a block creates under an out point. *)
Definition block_output (txs : list Transaction) (o : OutPoint) : option InBlockOutput :=
  match list_find (fun tx => compute_txid tx = op_txid o) txs with
  | Some (idx, tx) =>
      (fun t => mk_in_block_output t (idx =? 0)%nat idx) <$> out_at (tx_output tx) 0 (op_vout o)
  | None => None
  end.

Definition outputs_ok (txs : list Transaction) : Prop :=
  Forall (fun tx => Z.of_nat (length (tx_output tx)) <= 2 ^ 32) txs.

Lemma collect_outputs_lookup txid cb idx v outs m o :
  Z.of_nat (v + length outs) <= 2 ^ 32 ->
  collect_outputs txid cb idx v outs m !! o =
  if bool_decide (op_txid o = txid)
  then match out_at outs v (op_vout o) with
       | Some t => Some (mk_in_block_output t cb idx)
       | None => m !! o
       end
  else m !! o.
Proof.
  destruct o as [t vout]. cbn [op_txid op_vout]. revert v m.
  induction outs as [| x outs IH]; intros v m Hlen; cbn [collect_outputs length] in *.
  { unfold out_at. by repeat case_bool_decide. }
  rewrite IH by lia. unfold wrap_u32. rewrite Z.mod_small by lia.
  case_bool_decide as Ht; [subst t |].
  2:{ rewrite lookup_insert_ne; [done |]. congruence. }
  unfold out_at. destruct (decide (vout = Z.of_nat v)) as [-> | Hne].
  - rewrite bool_decide_eq_false_2 by lia. rewrite lookup_insert_eq.
    rewrite bool_decide_eq_true_2 by lia. rewrite Nat2Z.id, Nat.sub_diag. done.
  - rewrite lookup_insert_ne by congruence.
    destruct (decide (Z.of_nat v <= vout)) as [Hle | Hle].
    + rewrite !bool_decide_eq_true_2 by lia.
      replace (Z.to_nat vout - v)%nat with (S (Z.to_nat vout - S v)) by lia. done.
    + by rewrite !bool_decide_eq_false_2 by lia.
Qed.

Lemma collect_in_block_lookup txs k m o :
  NoDup (map compute_txid txs) -> outputs_ok txs ->
  collect_in_block txs k m !! o =
  match list_find (fun tx => compute_txid tx = op_txid o) txs with
  | Some (i, tx) =>
      match out_at (tx_output tx) 0 (op_vout o) with
      | Some t => Some (mk_in_block_output t (k + i =? 0)%nat (k + i)%nat)
      | None => m !! o
      end
  | None => m !! o
  end.
Proof.
  revert k m. induction txs as [| tx txs IH]; intros k m Hnd Hok; cbn [collect_in_block list_find]; [done |].
  cbn [map] in Hnd. apply NoDup_cons in Hnd as [Htx Hnd]. apply Forall_cons in Hok as [Hlen Hok].
  rewrite IH by done. rewrite collect_outputs_lookup by (cbn; lia).
  destruct (decide (compute_txid tx = op_txid o)) as [Heq | Hne].
  - rewrite (proj2 (list_find_None _ _)).
    + rewrite bool_decide_eq_true_2 by done. by rewrite Nat.add_0_r.
    + apply Forall_forall. intros tx' Hin Heq'. apply Htx. rewrite list_elem_of_In, in_map_iff.
      exists tx'. split; [congruence | by apply list_elem_of_In].
  - rewrite bool_decide_eq_false_2 by congruence.
    destruct (list_find _ txs) as [[i tx'] |]; cbn; [| done]. by rewrite Nat.add_succ_r.
Qed.

Lemma in_block_spec txs o :
  NoDup (map compute_txid txs) -> outputs_ok txs -> collect_in_block txs 0 ∅ !! o = block_output txs o.
Proof.
  intros Hnd Hok. rewrite collect_in_block_lookup by done. unfold block_output.
  destruct (list_find _ txs) as [[i tx] |]; [| by rewrite lookup_empty]. rewrite Nat.add_0_l.
  destruct (out_at _ _ _); [done |]. by rewrite lookup_empty.
Qed.
End outputs.

Lemma batch_get_default_lookup {P} (get : P -> OutPoint -> option Coin) p ops o :
  batch_get_default get p ops !! o = if bool_decide (o ∈ ops) then get p o else None.
Proof.
  unfold batch_get_default.
  assert (forall m : gmap OutPoint Coin, fold_left (fun m op => match get p op with Some coin => <[op := coin]> m | None => m end) ops m !! o
    = if bool_decide (o ∈ ops) then match get p o with Some c => Some c | None => m !! o end else m !! o) as Hgen.
  { induction ops as [| x ops IH]; intros m; cbn [fold_left].
    { by rewrite bool_decide_eq_false_2 by (by intros ?%elem_of_nil). }
    rewrite IH. destruct (decide (x = o)) as [-> | Hne].
    - rewrite (bool_decide_eq_true_2 (o ∈ o :: ops)) by (by left).
      destruct (get p o) as [c |] eqn:Hg; [rewrite lookup_insert_eq |]; by case_bool_decide.
    - assert (match get p x with Some coin => <[x := coin]> m | None => m end !! o = m !! o) as ->.
      { destruct (get p x); [by rewrite lookup_insert_ne | done]. }
      destruct (decide (o ∈ ops)); [by rewrite !bool_decide_eq_true_2 by (done || by right) |].
      rewrite !bool_decide_eq_false_2; [done | | done]. by intros [-> | ?]%elem_of_cons. }
  rewrite Hgen, lookup_empty. case_bool_decide; [by destruct (get p o) | done].
Qed.

#[export] Instance HashMap_provider_laws : UtxoProviderLaws (gmap OutPoint Coin).
Proof. split. intros p ops o. cbn [up_batch_get HashMap_provider]. by rewrite batch_get_default_lookup. Qed.

Lemma filter_ext_in {A} (Q R : A -> Prop) `{forall x, Decision (Q x), forall x, Decision (R x)} (l : list A) :
  (forall x, x ∈ l -> Q x <-> R x) -> filter Q l = filter R l.
Proof.
  induction l as [| x l IH]; intros Hl; [done |]. rewrite !filter_cons.
  rewrite IH by (intros y Hy; apply Hl; by right).
  destruct (Hl x) as [Hqr Hrq]; [by left |]. repeat case_decide; naive_solver.
Qed.

Section prepare_theorems.
Context `{!TxApi, !HashOrder, !HashOrderLaws} {P : Type} `{!UtxoProvider P, !UtxoProviderLaws P} {E : Type}.

(** A coin as verification sees it. *)
Definition coin_utxo (c : Coin) : TxOut * bool * Z :=
  (mk_txout (coin_amount c) (coin_script_pubkey c), coin_is_coinbase c, coin_height c).

(** The reference for an output that the block spends: one of the block's own, at
    the height of the block, or a coin of the state. *)
Definition utxo_output (block : Block) (height : Z) (provider : P) (o : OutPoint)
    : option (TxOut * bool * Z) :=
  match block_output (txdata block) o with
  | Some b => Some (ib_txout b, ib_is_coinbase b, height)
  | None => coin_utxo <$> up_get provider o
  end.

(** C9: a prepared block answers every lookup of its verification as the state
    would, from one batch: for each input after the coinbase it finds the output of
    the block itself, or else the coin of the provider; the inputs reported as
    missing are those for which there is neither, in order and with repetitions;
    and the coins handed on to be applied are exactly the external coins spent. *)
Theorem prepare_spec (block : Block) (height duration : Z) (provider : P) :
  NoDup (map compute_txid (txdata block)) -> no_self_spend (txdata block) ->
  outputs_ok (txdata block) ->
  exists p, prepare (E := E) block height provider = Ok p /\
    (forall o, o ∈ spent_outpoints block -> get_utxo p o = utxo_output block height provider o) /\
    missing_utxos p = filter (fun o => utxo_output block height provider o = None) (spent_outpoints block) /\
    forall o c, get_spent_utxo (into_verified p duration) o = Some c <->
      o ∈ spent_outpoints block /\ block_output (txdata block) o = None /\ up_get provider o = Some c.
Proof.
  intros Hnd Hself Hok. unfold prepare.
  assert (exists lv, build (E := E) block = Ok lv) as [lv ->].
  { unfold build. rewrite build_dependencies_spec by done.
    destruct (topological_levels_spec (E := E) (spec_dependencies (txdata block))) as (lv & -> & _);
      [apply spec_dependencies_lt |]. destruct (_ =? 0)%nat; by eexists. }
  rbind. eexists. split; [done |].
  assert (forall o, o ∈ spent_outpoints block -> forall ops, ops = filter (fun o => collect_in_block (txdata block) 0 ∅ !! o = None)
     (spent_outpoints block) -> up_batch_get provider ops !! o =
     if decide (block_output (txdata block) o = None) then up_get provider o else None) as Hbatch.
  { intros o Ho ops ->. rewrite up_batch_get_lookup. case_decide as Hb.
    - rewrite bool_decide_eq_true_2; [done |]. rewrite list_elem_of_filter, in_block_spec by done. done.
    - rewrite bool_decide_eq_false_2; [done |]. rewrite list_elem_of_filter, in_block_spec by done. naive_solver. }
  split_and!.
  - intros o Ho. unfold get_utxo, utxo_output. cbn [in_block_outputs input_utxos pb_height].
    rewrite in_block_spec by done. destruct (block_output (txdata block) o) eqn:Hb; [done |].
    rewrite (Hbatch o Ho _ eq_refl), decide_True by done. by destruct (up_get provider o).
  - unfold missing_utxos. cbn [in_block_outputs input_utxos pb_block].
    apply filter_ext_in. intros o Ho. unfold utxo_output. rewrite in_block_spec by done.
    rewrite (Hbatch o Ho _ eq_refl).
    destruct (block_output (txdata block) o) eqn:Hb; [naive_solver |]. rewrite decide_True by done.
    destruct (up_get provider o); naive_solver.
  - intros o c. unfold get_spent_utxo, into_verified. cbn [spent_utxos input_utxos].
    rewrite up_batch_get_lookup. case_bool_decide as Hin.
    + rewrite list_elem_of_filter, in_block_spec in Hin by done. naive_solver.
    + split; [done |]. intros (Ho & Hb & Hg). exfalso. apply Hin. rewrite list_elem_of_filter.
      by rewrite in_block_spec by done.
Qed.
End prepare_theorems.

(** ** Sample blocks *)

Module SamplePrepared.
Import SampleTx SampleOrder.
Definition input (o : OutPoint) : TxIn := mk_txin o [] 0 [].
Definition coinbase : Transaction := mk_tx 1 0 [input null_outpoint] [mk_txout 50 [0x51]].
Definition external : OutPoint := mk_outpoint [1; 2; 3] 0.
Definition missing : OutPoint := mk_outpoint [1; 2; 4] 0.
Definition tx1 : Transaction := mk_tx 1 0 [input external] [mk_txout 10 []; mk_txout 11 []].
Definition tx2 : Transaction := mk_tx 1 0 [input (mk_outpoint (compute_txid tx1) 1); input missing] [mk_txout 7 []].
Definition tx3 : Transaction :=
  mk_tx 1 0 [input (mk_outpoint (compute_txid tx2) 0); input (mk_outpoint (compute_txid coinbase) 0)] [].
Definition header : Header := mk_header 1 [] [] 0 0 0.
Definition block : Block := mk_block header [coinbase; tx1; tx2; tx3].
Definition utxos : gmap OutPoint Coin := {[external := mk_coin false 21 5 [0x52]]}.

(** A transaction before the one whose output it spends. *)
Definition reversed : Block := mk_block header [coinbase; tx2; tx1].
Definition prepared_reversed : PreparedBlock :=
  from_ok (mk_prepared reversed 0 ∅ ∅ (mk_levels [])) (prepare (E := unit) reversed 100 utxos).

Lemma block_nodup : NoDup (map compute_txid (txdata block)).
Proof. apply (bool_decide_unpack _). vm_compute. exact I. Qed.
Lemma block_no_self_spend : no_self_spend (txdata block).
Proof.
  intros tx Htx. unfold block in Htx. cbn [txdata] in Htx. rewrite !elem_of_cons in Htx.
  destruct Htx as [-> | [-> | [-> | [-> | Htx]]]]; [vm_compute; reflexivity .. | by apply elem_of_nil in Htx].
Qed.
End SamplePrepared.
Import SamplePrepared SampleTx SampleOrder.

Lemma execution_levels_spec_witness :
  exists lv, build (E := unit) block = Ok lv /\ levels lv = [[1; 0]; [2]; [3]]%nat /\
    levels_tx_count lv = 4%nat /\ rank (spec_dependencies (txdata block)) 3 = 2%nat.
Proof.
  destruct (execution_levels_spec (E := unit) block block_nodup block_no_self_spend)
    as (lv & Hb & _ & _ & Hn & _). exists lv. split; [exact Hb |].
  split; [vm_compute in Hb; by injection Hb as <- |]. split; [exact Hn | vm_compute; reflexivity].
Defined.

Lemma prepare_spec_witness :
  exists p, prepare (E := unit) block 100 utxos = Ok p /\ missing_utxos p = [missing] /\
    get_utxo p (mk_outpoint (compute_txid tx1) 1) = Some (mk_txout 11 [], false, 100).
Proof.
  destruct (prepare_spec (E := unit) block 100 0 utxos block_nodup block_no_self_spend)
    as (p & Hp & Hget & Hmiss & _).
  { repeat constructor; vm_compute; congruence. }
  exists p. split; [exact Hp |]. split.
  - rewrite Hmiss. vm_compute. reflexivity.
  - rewrite Hget; [vm_compute; reflexivity |]. apply (bool_decide_unpack _). vm_compute. exact I.
Defined.

(** a transaction that spends an output created later in its block is put in the
    level of the transactions without dependencies, and its input is found. *)
Lemma later_output_found :
  prepare (E := unit) reversed 100 utxos = Ok prepared_reversed /\
  missing_utxos prepared_reversed = [missing] /\
  list_to_set (concat (levels (execution_levels prepared_reversed))) = ({[0; 1; 2]} : gset nat)%nat /\ depth (execution_levels prepared_reversed) = 1%nat /\
  get_utxo prepared_reversed (mk_outpoint (compute_txid tx1) 1) = Some (mk_txout 11 [], false, 100).
Proof. split; [apply from_ok_eq |]; vm_compute; [reflexivity | split_and!; reflexivity]. Qed.
