(* ===== verification/NetworkTypes.v ===== *)
(** * Types of the network ([crates/subcoin-network/src/lib.rs], [peer_store.rs])

    Peers are socket addresses.  Messages to the store of peers go through a
    channel: an operation returns those it sends. *)

From Stdlib Require Import ZArith.
From stdpp Require Import prelude gmap.
From S2P Require Import Prelude Bitcoin.

(** [std::net::SocketAddr]. *)
Inductive PeerId :=
| PeerV4 (ip port : Z)
| PeerV6 (ip port : Z).

#[export] Instance PeerId_eq_dec : EqDecision PeerId.
Proof. solve_decision. Defined.
#[export] Instance PeerId_countable : Countable PeerId.
Proof.
  refine (inj_countable' (fun p => match p with PeerV4 i n => (true, i, n) | PeerV6 i n => (false, i, n) end)
    (fun '(v4, i, n) => if (v4 : bool) then PeerV4 i n else PeerV6 i n) _). by intros [].
Defined.

Definition is_ipv6 (p : PeerId) : bool := match p with PeerV6 _ _ => true | PeerV4 _ _ => false end.

(** [bitcoin::p2p::message_blockdata::Inventory], as far as the code tells
    kinds apart. *)
Inductive Inventory :=
| InvTransaction (txid : bytes)
| InvBlock (hash : bytes)
| InvWitnessTransaction (txid : bytes)
| InvWitnessBlock (hash : bytes)
| InvOther (kind : Z) (hash : bytes).

(** Latencies in milliseconds, times in seconds. *)
Inductive PeerStoreMessage :=
| StorePeer (peer : PeerId) (latency : Z) (last_seen : Z)
| RemovePeer (peer : PeerId)
| RecordBlockDownload (peer : PeerId)
| RecordFailure (peer : PeerId).

Record MemoryConfig := mk_memory_config {
  max_downloaded_blocks_memory : Z;
  max_blocks_in_memory : Z;
  max_orphan_blocks_memory : Z;
  enable_adaptive_batch_sizing : bool;
}.

Definition memory_config_default : MemoryConfig :=
  mk_memory_config (256 * 1024 * 1024) 1000 (64 * 1024 * 1024) true.

(** Service bits of rust-bitcoin. *)
Definition NETWORK : Z := Z.shiftl 1 0.
Definition WITNESS : Z := Z.shiftl 1 3.
Definition has_service (services flag : Z) : bool := Z.land services flag =? flag.

Inductive ServiceError := NotFullNode | NotSegwitNode.

(** [validate_outbound_services]. *)
Definition validate_outbound_services (services : Z) : res ServiceError unit :=
  reject_if (negb (has_service services NETWORK)) NotFullNode;;
  reject_if (negb (has_service services WITNESS)) NotSegwitNode.
