(* ===== verification/OrphanPool.v ===== *)
(** * Orphan blocks ([crates/subcoin-network/src/sync/orphan_blocks_pool.rs])

    Blocks that arrived before their parent.  The pool keeps them by hash and by
    the hash of their parent; when a parent arrives, all its descendants leave
    the pool, parents first. *)

From Stdlib Require Import ZArith Lia.
From stdpp Require Import prelude gmap.
From S2P Require Import Prelude Collections Bitcoin Client.

Record OrphanBlocksPool := mk_orphans {
  op_blocks : gmap bytes Block;
  op_orphan_blocks : gmap bytes (gset bytes);
  op_unknown_blocks : gset bytes;
}.

Definition orphans_new : OrphanBlocksPool := mk_orphans ∅ ∅ ∅.

Section orphans.
Context `{!ChainApi, !HashOrder}.
Implicit Types (s : OrphanBlocksPool) (b : Block).

Definition hash_of b : bytes := block_hash (block_header b).
Definition parent_of b : bytes := prev_blockhash (block_header b).

Definition orphans_len s : Z := Z.of_nat (size (op_blocks s)).
Definition orphan_block_exists s (hash : bytes) : bool := bool_decide (is_Some (op_blocks s !! hash)).
Definition contains_unknown_block s (hash : bytes) : bool := bool_decide (hash ∈ op_unknown_blocks s).
Definition contains_orphan_block s (parent_hash : bytes) : bool :=
  bool_decide (is_Some (op_orphan_blocks s !! parent_hash)).
Definition orphans_clear s : OrphanBlocksPool := mk_orphans ∅ ∅ ∅.

Definition insert_orphan_block b s : OrphanBlocksPool :=
  mk_orphans (<[hash_of b := b]> (op_blocks s))
    (<[parent_of b := {[ hash_of b ]} ∪ default ∅ (op_orphan_blocks s !! parent_of b)]> (op_orphan_blocks s))
    (op_unknown_blocks s).

(** [assert!(newly_inserted)]. *)
Definition insert_unknown_block {E : Type} b s : res E OrphanBlocksPool :=
  if bool_decide (hash_of b ∈ op_unknown_blocks s) then Panic
  else Ok (insert_orphan_block b
             (mk_orphans (op_blocks s) (op_orphan_blocks s) ({[ hash_of b ]} ∪ op_unknown_blocks s))).

(** One child of a parent that left. *)
Definition take_child (child_hash : bytes) (acc : OrphanBlocksPool * list bytes * list Block) :
    OrphanBlocksPool * list bytes * list Block :=
  let '(s, queue, removed) := acc in
  (mk_orphans (delete child_hash (op_blocks s)) (op_orphan_blocks s) (op_unknown_blocks s ∖ {[ child_hash ]}),
   queue ++ [child_hash],
   removed ++ match op_blocks s !! child_hash with Some block => [block] | None => [] end).

Fixpoint remove_loop {E : Type} (fuel : nat) (queue : list bytes) s (removed : list Block) :
    res E (OrphanBlocksPool * list Block) :=
  match queue with
  | [] => Ok (s, removed)
  | parent_hash :: queue =>
      match fuel with
      | O => Panic
      | S fuel =>
          match op_orphan_blocks s !! parent_hash with
          | Some children =>
              let s := mk_orphans (op_blocks s) (delete parent_hash (op_orphan_blocks s)) (op_unknown_blocks s) in
              let '(s, queue, removed) :=
                foldl (fun acc child_hash => take_child child_hash acc) (s, queue, removed) (hash_iter children) in
              remove_loop fuel queue s removed
          | None => remove_loop fuel queue s removed
          end
      end
  end.

(** Every round takes one hash off the queue, and a child is queued once. *)
Definition total_children (m : gmap bytes (gset bytes)) : nat := map_fold (fun _ X n => (size X + n)%nat) 0%nat m.

Definition remove_blocks_for_parent {E : Type} (hash : bytes) s : res E (OrphanBlocksPool * list Block) :=
  remove_loop (S (total_children (op_orphan_blocks s))) [hash] s [].

(** [retain] on the children of one parent. *)
Definition retain_children (hashes : list bytes) (acc : gmap bytes (gset bytes) * list bytes) (parent : bytes) :
    gmap bytes (gset bytes) * list bytes :=
  let '(m, removed) := acc in
  match m !! parent with
  | Some orphans =>
      let '(orphans, removed) := foldl (fun '(X, removed) hash =>
        if bool_decide (hash ∈ X) then (X ∖ {[ hash ]}, removed ++ [hash]) else (X, removed))
        (orphans, removed) hashes in
      (if bool_decide (orphans = ∅) then delete parent m else <[parent := orphans]> m, removed)
  | None => (m, removed)
  end.

Definition remove_blocks {E : Type} (hashes : gset bytes) s : res E (OrphanBlocksPool * list bytes) :=
  let hs := hash_iter hashes in
  let '(m, removed) :=
    foldl (retain_children hs) (op_orphan_blocks s, []) (hash_iter (dom (op_orphan_blocks s))) in
  let s := mk_orphans (foldl (fun bs h => delete h bs) (op_blocks s) removed) m
             (foldl (fun X h => X ∖ {[ h ]}) (op_unknown_blocks s) removed) in
  rfold (fun hash '(s, removed) =>
    '(s, blocks) ← remove_blocks_for_parent hash s;
    Ok (s, removed ++ map hash_of blocks)) hs (s, removed).

Definition remove_known_blocks {E : Type} s : res E (OrphanBlocksPool * list bytes) :=
  let orphans_to_remove :=
    map_fold (fun _ X acc => (X ∖ op_unknown_blocks s) ∪ acc) ∅ (op_orphan_blocks s) in
  '(s, _) ← remove_blocks orphans_to_remove s;
  Ok (s, hash_iter orphans_to_remove).
End orphans.

(** ** Consistency *)

(** Headers with the same hash have the same parent: no collisions. *)
Class BlockHashLaws `{ChainApi} : Prop := {
  hash_parent h h' : block_hash h = block_hash h' -> prev_blockhash h = prev_blockhash h';
}.

Section facts.
Context `{!ChainApi, !BlockHashLaws, !HashOrder, !HashOrderLaws}.
Implicit Types (s : OrphanBlocksPool) (b : Block).

Definition children s (p : bytes) : gset bytes := default ∅ (op_orphan_blocks s !! p).

Record orphans_wf s : Prop := {
  ow_block h b : op_blocks s !! h = Some b -> hash_of b = h /\ h ∈ children s (parent_of b);
  ow_child p h : h ∈ children s p -> exists b, op_blocks s !! h = Some b /\ parent_of b = p;
  ow_nonempty p : op_orphan_blocks s !! p <> Some ∅;
  ow_unknown h : h ∈ op_unknown_blocks s -> is_Some (op_blocks s !! h);
}.

Lemma orphans_new_wf : orphans_wf orphans_new.
Proof.
  split; cbn; intros *; unfold children; cbn; rewrite ?lookup_empty; try done; set_solver.
Qed.

Lemma children_insert b s p :
  children (insert_orphan_block b s) p = if decide (p = parent_of b) then {[ hash_of b ]} ∪ children s p else children s p.
Proof.
  unfold children, insert_orphan_block. cbn. case_decide as Hp; [subst; by rewrite lookup_insert_eq |].
  by rewrite lookup_insert_ne by congruence.
Qed.

Lemma insert_orphan_wf b s : orphans_wf s -> orphans_wf (insert_orphan_block b s).
Proof.
  intros [Hb Hc Hn Hu]. split.
  - intros h b'. rewrite children_insert. cbn. intros [[<- <-] | [Hne Hl]]%lookup_insert_Some.
    + split; [done |]. rewrite decide_True by done. set_solver.
    + apply Hb in Hl as [<- Hin]. split; [done |]. case_decide; set_solver.
  - intros p h. rewrite children_insert. cbn. destruct (decide (h = hash_of b)) as [-> | Hne].
    + intros Hin. exists b. rewrite lookup_insert_eq. split; [done |]. case_decide as Hp; [done |].
      apply Hc in Hin as (b' & Hb' & <-). apply Hb in Hb' as [Heq _]. by apply hash_parent.
    + intros Hin. rewrite lookup_insert_ne by congruence. apply Hc. case_decide; set_solver.
  - intros p. cbn. destruct (decide (p = parent_of b)) as [-> | Hne]; [rewrite lookup_insert_eq; intros [=]; set_solver |].
    by rewrite lookup_insert_ne by congruence.
  - intros h Hin%Hu. cbn. by apply lookup_insert_is_Some'; right.
Qed.

Lemma insert_unknown_wf {E : Type} b s s' : orphans_wf s -> insert_unknown_block (E := E) b s = Ok s' -> orphans_wf s'.
Proof.
  intros Hwf. unfold insert_unknown_block. case_bool_decide; [done |]. intros [= <-].
  pose proof (insert_orphan_wf b s Hwf) as [Hb Hc Hn Hu]. split; try done.
  intros h [->%elem_of_singleton | Hin]%elem_of_union; cbn; [rewrite lookup_insert_eq; eauto | by apply Hu].
Qed.

(** ** Removal with descendants *)

Lemma total_children_delete (m : gmap bytes (gset bytes)) p X :
  m !! p = Some X -> total_children m = (size X + total_children (delete p m))%nat.
Proof.
  intros Hp. unfold total_children. rewrite <- (insert_delete_id m p X Hp) at 1.
  rewrite map_fold_insert_L; [done | intros; lia | apply lookup_delete_eq].
Qed.

(** Taking distinct children that are all in the pool. *)
Lemma take_children_spec l s queue removed :
  NoDup l -> Forall (fun h => is_Some (op_blocks s !! h)) l ->
  exists bs, foldl (fun acc child_hash => take_child child_hash acc) (s, queue, removed) l =
    (mk_orphans (foldl (fun m h => delete h m) (op_blocks s) l) (op_orphan_blocks s)
       (op_unknown_blocks s ∖ list_to_set l), queue ++ l, removed ++ bs) /\
    Forall2 (fun h b => op_blocks s !! h = Some b) l bs.
Proof.
  intros Hnd. revert s queue removed. induction Hnd as [| h l Hh Hnd IH]; intros s queue removed Hall; cbn [foldl].
  { exists []. rewrite !app_nil_r. split; [| by constructor]. destruct s as [bs os us]. cbn.
    by replace (us ∖ ∅) with us by set_solver. }
  apply Forall_cons in Hall as [[b Hb] Hall]. unfold take_child at 2. rewrite Hb.
  edestruct (IH (mk_orphans (delete h (op_blocks s)) (op_orphan_blocks s) (op_unknown_blocks s ∖ {[ h ]})))
    as (bs & -> & Hbs).
  { apply Forall_forall. intros x Hx. rewrite Forall_forall in Hall. cbn. rewrite lookup_delete_ne by (by intros ->). auto. }
  exists (b :: bs). cbn. rewrite <- !(assoc_L (++)). split; [| constructor; [done |]].
  - do 2 f_equal. f_equal. set_solver.
  - eapply Forall2_impl; [exact Hbs |]. cbn. intros x bx [_ Hx]%lookup_delete_Some. done.
Qed.

(** The state of the loop: [popped] was taken off the queue, every hash of
    [queue] and [popped] but the first is the hash of a removed block. *)
Record removal_inv s0 (root : bytes) (popped queue : list bytes) s (removed : list Block) : Prop := {
  ri_queue : popped ++ queue = root :: map hash_of removed;
  ri_orphans p : op_orphan_blocks s !! p = if decide (p ∈ popped) then None else op_orphan_blocks s0 !! p;
  ri_blocks h : op_blocks s !! h = if decide (h ∈ map hash_of removed) then None else op_blocks s0 !! h;
  ri_unknown : op_unknown_blocks s = op_unknown_blocks s0 ∖ list_to_set (map hash_of removed);
  ri_nodup : NoDup (map hash_of removed);
  ri_removed b : b ∈ removed -> op_blocks s0 !! hash_of b = Some b;
  ri_children h : h ∈ map hash_of removed <-> exists p, p ∈ popped /\ h ∈ children s0 p;
  ri_order l1 b l2 : removed = l1 ++ b :: l2 -> parent_of b ∈ root :: map hash_of l1;
}.

Lemma removal_inv_start s root : removal_inv s root [] [root] s [].
Proof.
  split; cbn [app map]; [done | | | set_solver | apply NoDup_nil_2 | by intros b ?%elem_of_nil | | by intros [] ? ? [=]].
  - intros p. case_decide as Hp; [by apply elem_of_nil in Hp | done].
  - intros h. case_decide as Hh; [by apply elem_of_nil in Hh | done].
  - intros h. split; [by intros ?%elem_of_nil | by intros (p & ?%elem_of_nil & _)].
Qed.

(** A hash without children. *)
Lemma removal_leaf s0 root popped p queue s removed :
  removal_inv s0 root popped (p :: queue) s removed -> op_orphan_blocks s !! p = None ->
  removal_inv s0 root (popped ++ [p]) queue s removed.
Proof.
  intros [Hq Ho Hb Hu Hnd Hr Hc Hor] Hp. split; try done.
  - by rewrite <- (assoc_L (++)).
  - intros x. destruct (decide (x = p)) as [-> | Hne]; [rewrite Hp, decide_True by set_solver; done |]. rewrite Ho.
    repeat case_decide; try done; set_solver.
  - intros h. rewrite Hc. setoid_rewrite elem_of_app. setoid_rewrite list_elem_of_singleton. split; [naive_solver |].
    intros (x & [Hx | ->] & Hin); [eauto |]. destruct (decide (p ∈ popped)) as [| Hn]; [eauto |].
    exfalso. rewrite Ho, decide_False in Hp by done. unfold children in Hin. rewrite Hp in Hin. set_solver.
Qed.

Lemma foldl_delete_blocks (l : list bytes) (m : gmap bytes Block) h :
  foldl (fun m h => delete h m) m l !! h = if decide (h ∈ l) then None else m !! h.
Proof.
  revert m. induction l as [| x l IH]; intros m; cbn [foldl].
  - case_decide as Hin; [by apply elem_of_nil in Hin | done].
  - rewrite IH. destruct (decide (h = x)) as [-> | Hne].
    + rewrite lookup_delete_eq. repeat case_decide; try done; set_solver.
    + rewrite lookup_delete_ne by congruence. repeat case_decide; try done; set_solver.
Qed.

(** A hash with children, which leave. *)
Lemma removal_parent s0 root popped p queue s removed X :
  orphans_wf s0 -> removal_inv s0 root popped (p :: queue) s removed -> op_orphan_blocks s !! p = Some X ->
  exists s' queue' removed',
    foldl (fun acc child_hash => take_child child_hash acc)
      (mk_orphans (op_blocks s) (delete p (op_orphan_blocks s)) (op_unknown_blocks s), queue, removed) (hash_iter X) =
      (s', queue', removed') /\
    op_orphan_blocks s' = delete p (op_orphan_blocks s) /\ length queue' = (length queue + size X)%nat /\
    removal_inv s0 root (popped ++ [p]) queue' s' removed'.
Proof.
  intros Hwf [Hq Ho Hb Hu Hnd Hr Hc Hor] Hp.
  assert (Hpn : p ∉ popped) by (intros Hin; by rewrite Ho, decide_True in Hp).
  assert (Hp0 : op_orphan_blocks s0 !! p = Some X) by (by rewrite Ho, decide_False in Hp).
  assert (HX : children s0 p = X) by (unfold children; by rewrite Hp0).
  assert (Hfresh : forall h, h ∈ X -> h ∉ map hash_of removed).
  { intros h Hh (p' & Hp' & Hh')%Hc. rewrite <- HX in Hh. apply (ow_child s0 Hwf) in Hh as (b & Hb1 & <-), Hh' as (b' & Hb2 & <-).
    rewrite Hb1 in Hb2. injection Hb2 as ->. done. }
  assert (Hin : forall h, h ∈ X -> exists b, op_blocks s0 !! h = Some b /\ hash_of b = h /\ parent_of b = p).
  { intros h Hh. rewrite <- HX in Hh. apply (ow_child s0 Hwf) in Hh as (b & Hb1 & Hpb). exists b.
    split; [done |]. split; [by apply (ow_block s0 Hwf) in Hb1 as [? _] | done]. }
  destruct (take_children_spec (hash_iter X)
    (mk_orphans (op_blocks s) (delete p (op_orphan_blocks s)) (op_unknown_blocks s)) queue removed
    (hash_iter_nodup X)) as (bs & -> & Hbs).
  { apply Forall_forall. intros h Hh%hash_iter_elem. cbn. rewrite Hb, decide_False by auto.
    destruct (Hin h Hh) as (b & -> & _). eauto. }
  cbn [op_blocks op_orphan_blocks op_unknown_blocks] in *.
  assert (Hbs' : Forall2 (fun h b => op_blocks s0 !! h = Some b /\ hash_of b = h /\ parent_of b = p) (hash_iter X) bs).
  { apply Forall2_same_length_lookup in Hbs as [Hlen Hl]. apply Forall2_same_length_lookup. split; [done |].
    intros i h b Hih Hib. specialize (Hl i h b Hih Hib). rewrite Hb in Hl. case_decide; [done |].
    apply list_elem_of_lookup_2, hash_iter_elem in Hih. destruct (Hin h Hih) as (b' & Hb' & ? & ?).
    rewrite Hb' in Hl. by injection Hl as <-. }
  assert (Hids : map hash_of bs = hash_iter X).
  { clear -Hbs'. induction Hbs' as [| h b l k (_ & <- & _) _ IH]; [done |]. cbn. by rewrite IH. }
  assert (Hbp : forall b, b ∈ bs -> op_blocks s0 !! hash_of b = Some b /\ parent_of b = p).
  { intros b (i & Hi)%list_elem_of_lookup. eapply Forall2_lookup_r in Hbs' as (h & _ & Hb0 & <- & Hpb); [| done]. done. }
  eexists _, _, _. split; [done |]. split; [done |]. split; [by rewrite length_app, hash_iter_length |].
  assert (Hroot : p ∈ root :: map hash_of removed) by (rewrite <- Hq; set_solver).
  split; cbn [op_blocks op_orphan_blocks op_unknown_blocks].
  - rewrite map_app, Hids, app_comm_cons, <- Hq, <- !(assoc_L (++)). done.
  - intros x. destruct (decide (x = p)) as [-> | Hne]; [rewrite lookup_delete_eq, decide_True by set_solver; done |].
    rewrite lookup_delete_ne, Ho by congruence. repeat case_decide; try done; set_solver.
  - intros h. rewrite foldl_delete_blocks, map_app, Hids, Hb. repeat case_decide; try done; set_solver.
  - rewrite map_app, Hids, list_to_set_app_L. set_solver.
  - rewrite map_app, Hids. apply NoDup_app. split; [done |]. split; [| apply hash_iter_nodup].
    intros h Hh Hh'%hash_iter_elem. by apply (Hfresh h).
  - intros b [Hb1 | Hb1]%elem_of_app; [by apply Hr | by apply Hbp].
  - intros h. rewrite map_app, elem_of_app, Hids, hash_iter_elem, Hc. setoid_rewrite elem_of_app.
    setoid_rewrite list_elem_of_singleton. rewrite <- HX. naive_solver.
  - intros l1 b l2 Heq. apply app_eq_inv in Heq as [(k & -> & Heq) | (k & Hk & Heq)].
    + destruct k as [| b' k]; cbn in Heq.
      * assert (Hbb : b ∈ bs) by (rewrite <- Heq; by left). apply Hbp in Hbb as [_ ->]. by rewrite app_nil_r in Hroot.
      * injection Heq as -> ->. by eapply Hor.
    + assert (Hbb : b ∈ bs) by (rewrite Heq; set_solver). apply Hbp in Hbb as [_ ->]. subst l1. rewrite map_app. set_solver.
Qed.

Lemma remove_loop_spec {E : Type} s0 root fuel : orphans_wf s0 -> forall popped queue s removed,
  removal_inv s0 root popped queue s removed -> (length queue + total_children (op_orphan_blocks s) <= fuel)%nat ->
  exists s' removed' popped', remove_loop (E := E) fuel queue s removed = Ok (s', removed') /\
    removal_inv s0 root popped' [] s' removed'.
Proof.
  intros Hwf. induction fuel as [| fuel IH]; intros popped queue s removed Hinv Hfuel.
  - destruct queue; cbn in Hfuel; [| lia]. by eexists _, _, _.
  - destruct queue as [| p queue]; [by eexists _, _, _ |]. cbn [remove_loop]. cbn in Hfuel.
    destruct (op_orphan_blocks s !! p) as [X |] eqn:Hp.
    + destruct (removal_parent s0 root popped p queue s removed X Hwf Hinv Hp) as (s' & q' & r' & -> & Ho & Hq & Hinv').
      rewrite (total_children_delete _ p X Hp) in Hfuel. eapply IH; [exact Hinv' |]. rewrite Ho, Hq. lia.
    + eapply IH; [by eapply removal_leaf | lia].
Qed.

Lemma removal_wf s0 root popped s removed :
  orphans_wf s0 -> removal_inv s0 root popped [] s removed -> orphans_wf s.
Proof.
  intros [Hb Hc Hn Hu] [Hq Ho Hbl Hun Hnd Hr Hch Hor].
  assert (Hchild : forall p h, h ∈ children s p -> (p ∉ popped) /\ h ∈ children s0 p).
  { intros p h. unfold children. rewrite Ho. case_decide; set_solver. }
  assert (Hnot : forall p h, p ∉ popped -> h ∈ children s0 p -> h ∉ map hash_of removed).
  { intros p h Hp Hh (p' & Hp' & Hh')%Hch. apply Hc in Hh as (b & Hb1 & <-), Hh' as (b' & Hb2 & <-). congruence. }
  split.
  - intros h b. rewrite Hbl. case_decide as Hin; [done |]. intros [<- Hh]%Hb. split; [done |].
    unfold children in *. rewrite Ho. case_decide as Hp; [| done]. exfalso. apply Hin, Hch. eauto.
  - intros p h [Hp Hh]%Hchild. rewrite Hbl, decide_False by eauto. by apply Hc.
  - intros p. rewrite Ho. by case_decide.
  - intros h. rewrite Hun, Hbl. intros [Hh Hnin]%elem_of_difference. rewrite elem_of_list_to_set in Hnin.
    rewrite decide_False by done. by apply Hu.
Qed.

(** The removed hashes are what is reachable from the root. *)
Lemma removal_reach s0 root popped s removed h :
  removal_inv s0 root popped [] s removed ->
  (forall b, b ∈ removed -> hash_of b ∈ children s0 (parent_of b)) ->
  h ∈ map hash_of removed <-> tc (fun p h => h ∈ children s0 p) root h.
Proof.
  intros Hinv Hpar. pose proof (ri_queue _ _ _ _ _ _ Hinv) as Hq. rewrite app_nil_r in Hq. split.
  - enough (Hall : forall n, Forall (fun b => tc (fun p h => h ∈ children s0 p) root (hash_of b)) (take n removed)).
    { intros (b & -> & Hb)%list_elem_of_fmap. specialize (Hall (length removed)). rewrite take_ge in Hall by done.
      rewrite Forall_forall in Hall. by apply Hall. }
    induction n as [| n IH]; [by apply Forall_nil |]. destruct (removed !! n) as [b |] eqn:Hb.
    2: { rewrite take_ge by (apply lookup_ge_None in Hb; lia). by rewrite take_ge in IH by (by apply lookup_ge_None). }
    rewrite (take_S_r _ _ b Hb). apply Forall_app. split; [done |]. apply Forall_singleton.
    assert (Hc : hash_of b ∈ children s0 (parent_of b)) by (apply Hpar; by eapply list_elem_of_lookup_2).
    destruct (elem_of_cons (map hash_of (take n removed)) (parent_of b) root) as [Hcase _].
    destruct Hcase as [Heq | Hin].
    + apply (ri_order _ _ _ _ _ _ Hinv _ b (drop (S n) removed)). by rewrite take_drop_middle.
    + apply tc_once. by rewrite <- Heq.
    + apply list_elem_of_fmap in Hin as (b' & Hb' & Hin). rewrite Forall_forall in IH.
      eapply tc_r; [apply IH; exact Hin |]. by rewrite <- Hb'.
  - intros Htc. assert (Hclosed : forall p x, p ∈ root :: map hash_of removed -> x ∈ children s0 p -> x ∈ map hash_of removed).
    { intros p x Hp Hx. apply (ri_children _ _ _ _ _ _ Hinv). exists p. by rewrite Hq. }
    assert (Hgen : forall r, r ∈ root :: map hash_of removed -> tc (fun p h => h ∈ children s0 p) r h -> h ∈ map hash_of removed).
    { intros r Hr Ht. induction Ht as [x y Hxy | x y z Hxy Ht IH]; [by eapply Hclosed |].
      apply IH; [done |]. apply elem_of_cons. right. by eapply Hclosed. }
    apply (Hgen root); [left | done].
Qed.

Lemma removal_run {E : Type} hash s :
  orphans_wf s ->
  exists s' removed popped, remove_blocks_for_parent (E := E) hash s = Ok (s', removed) /\ orphans_wf s' /\
    removal_inv s hash popped [] s' removed.
Proof.
  intros Hwf. unfold remove_blocks_for_parent.
  destruct (remove_loop_spec (E := E) s hash (S (total_children (op_orphan_blocks s))) Hwf [] [hash] s []
    (removal_inv_start s hash)) as (s' & removed & popped & Hr & Hinv); [done |].
  exists s', removed, popped. split; [done |]. split; [by eapply removal_wf | done].
Qed.

(** When a block arrives, exactly its descendants leave the pool, each once
    and after its parent, so that they can be imported in this order; the other
    blocks stay, and the pool stays consistent.  The search ends whatever the
    order in which sets of children are read. *)
Lemma remove_blocks_for_parent_spec {E : Type} hash s :
  orphans_wf s ->
  exists s' removed, remove_blocks_for_parent (E := E) hash s = Ok (s', removed) /\ orphans_wf s' /\
    NoDup (map hash_of removed) /\
    (forall h, h ∈ map hash_of removed <-> tc (fun p h => h ∈ children s p) hash h) /\
    (forall b, b ∈ removed -> op_blocks s !! hash_of b = Some b) /\
    (forall h, op_blocks s' !! h = if decide (h ∈ map hash_of removed) then None else op_blocks s !! h) /\
    (forall l1 b l2, removed = l1 ++ b :: l2 -> parent_of b = hash \/ parent_of b ∈ map hash_of l1).
Proof.
  intros Hwf. destruct (removal_run (E := E) hash s Hwf) as (s' & removed & popped & Hr & Hwf' & Hinv).
  exists s', removed. split; [done |]. split; [done |]. pose proof Hinv as [].
  split; [done |]. split; [| split; [done |]; split; [done |]].
  - intros h. eapply removal_reach; [done |]. intros b Hb%ri_removed0. by apply (ow_block s Hwf) in Hb as [_ ?].
  - intros l1 b l2 Heq. apply ri_order0, elem_of_cons in Heq. done.
Qed.
End facts.

(** ** A concrete pool *)

(** The hash of a header is its number before the hash of its parent. *)
Module SampleBlocks.
Import SampleOrder.

Definition chain_api : ChainApi := {|
  block_hash h := nonce h :: prev_blockhash h;
  encode_header _ := [];
  decode_header _ := None;
  encode_hash h := h;
  decode_hash := Some;
|}.
#[export] Existing Instance chain_api.
#[export] Instance block_hash_laws : BlockHashLaws.
Proof. split. by intros h h' [= _ ->]. Qed.

Definition child_of (parent : bytes) (n : Z) : Block := mk_block (mk_header 1 parent [] 0 0 n) [].
Definition root : bytes := [0].
Definition a := child_of root 1.
Definition b := child_of (hash_of a) 2.
Definition c := child_of (hash_of b) 3.
(** A sibling of [b]. *)
Definition b' := child_of (hash_of a) 4.
Definition other := child_of [9] 5.
(** [a], its two children, its grandchild and a stranger, in no order. *)
Definition orphans : OrphanBlocksPool :=
  insert_orphan_block other (insert_orphan_block c (insert_orphan_block b' (insert_orphan_block a
    (insert_orphan_block b orphans_new)))).

Lemma orphans_wf_sample : orphans_wf orphans.
Proof. do 5 apply insert_orphan_wf. apply orphans_new_wf. Qed.
End SampleBlocks.

Module OrphanWitness.
Import SampleOrder SampleBlocks.

Lemma remove_blocks_for_parent_spec_witness :
  exists s' removed, remove_blocks_for_parent (E := Empty_set) root orphans = Ok (s', removed) /\ orphans_wf s' /\
    map hash_of removed ≡ₚ [hash_of a; hash_of b; hash_of b'; hash_of c].
Proof.
  destruct (remove_blocks_for_parent_spec (E := Empty_set) root orphans orphans_wf_sample)
    as (s' & removed & Hr & Hwf & _).
  exists s', removed. split; [exact Hr |]. split; [exact Hwf |].
  assert (Hc : (fun r : res Empty_set (OrphanBlocksPool * list Block) => match r with
      | Ok (_, removed) => map hash_of removed | _ => [] end)
      (remove_blocks_for_parent root orphans) ≡ₚ [hash_of a; hash_of b; hash_of b'; hash_of c]).
  { vm_compute. solve_Permutation. }
  by rewrite Hr in Hc.
Defined.
End OrphanWitness.
