(* ===== verification/BlockDownloader.v ===== *)
(** * The block downloader ([crates/subcoin-network/src/sync/block_downloader.rs])

    Blocks to request, requested, downloaded and in the import queue, with their
    heights and memory.  Clocks are arguments; what is only logged is left out;
    messages to the store of peers are returned. *)

From Stdlib Require Import ZArith Lia Sorted.
From Stdlib Require Import Floats.SpecFloat.
From stdpp Require Import prelude gmap sorting.
From S2P Require Import Prelude Collections Bitcoin Client MempoolTypes NetworkTypes OrphanPool.

Definition BITCOIN_BLOCK_HEADER_SIZE : Z := 80.
Definition AVERAGE_TRANSACTION_SIZE_BYTES : Z := 500.
Definition BLOCK_MEMORY_OVERHEAD : Z := 128.

(** The number of bytes that consensus encoding writes; [None] for an error. *)
Class EncodedSizes := {
  header_size : Header -> option Z;
  tx_size : Transaction -> option Z;
}.

(** [sort_unstable_by_key]: blocks with equal numbers come in any order. *)
Class UnstableSort := { sort_by_number : list (Z * Block) -> list (Z * Block) }.
Class UnstableSortLaws `{UnstableSort} : Prop := {
  sort_permutation l : sort_by_number l ≡ₚ l;
  sort_sorted l : StronglySorted (fun x y => x.1 <= y.1) (sort_by_number l);
}.

(** ** Queued blocks *)

Record QueuedBlocks := mk_queued {
  hash2number : gmap bytes Z;
  number2hash : gmap Z bytes;
  block_memory : gmap bytes Z;
}.

Definition queued_default : QueuedBlocks := mk_queued ∅ ∅ ∅.

Definition queued_block_hash (q : QueuedBlocks) (number : Z) : option bytes := number2hash q !! number.
Definition queued_block_number (q : QueuedBlocks) (hash : bytes) : option Z := hash2number q !! hash.
Definition block_memory_usage (q : QueuedBlocks) (hash : bytes) : option Z := block_memory q !! hash.

Definition queued_insert (number : Z) (hash : bytes) (memory_usage : Z) (q : QueuedBlocks) : QueuedBlocks :=
  mk_queued (<[hash := number]> (hash2number q)) (<[number := hash]> (number2hash q))
    (<[hash := memory_usage]> (block_memory q)).

Definition queued_remove (hash : bytes) (q : QueuedBlocks) : QueuedBlocks :=
  mk_queued (delete hash (hash2number q))
    (match hash2number q !! hash with Some number => delete number (number2hash q) | None => number2hash q end)
    (delete hash (block_memory q)).

Inductive ImportQueueStatus := Ready | Saturated.
Definition is_saturated (s : ImportQueueStatus) : bool := match s with Saturated => true | Ready => false end.
Definition is_ready (s : ImportQueueStatus) : bool := match s with Ready => true | Saturated => false end.

(** ** The downloader *)

Record BlockDownloader := mk_downloader {
  bd_peer_id : PeerId;
  missing_blocks : list bytes;
  requested_blocks : gset bytes;
  downloaded_blocks : list Block;
  blocks_in_queue : gmap bytes Z;
  queued_blocks : QueuedBlocks;
  best_queued_number : Z;
  orphan_blocks_pool : OrphanBlocksPool;
  last_progress_time : Z;
  queue_status : ImportQueueStatus;
  downloaded_blocks_count : Z;
  memory_config : MemoryConfig;
  downloaded_blocks_memory : Z;
  last_batch_size : nat;
}.

Section downloader.
Context `{!ChainApi, !HashOrder, !EncodedSizes, !UnstableSort}.
Implicit Types (d : BlockDownloader).

Definition downloader_new (peer_id : PeerId) (best_queued : Z) (config : MemoryConfig) (now : Z) : BlockDownloader :=
  mk_downloader peer_id [] ∅ [] ∅ queued_default best_queued orphans_new now Ready 0 config 0 0.

Definition block_exists d (hash : bytes) : bool := bool_decide (is_Some (queued_block_number (queued_blocks d) hash)).
Definition block_number d (hash : bytes) : option Z := queued_block_number (queued_blocks d) hash.
Definition is_unknown_block d (hash : bytes) : bool :=
  negb (bool_decide (is_Some (queued_block_number (queued_blocks d) hash))) &&
  negb (bool_decide (hash ∈ requested_blocks d)) &&
  negb (orphan_block_exists (orphan_blocks_pool d) hash).
Definition has_pending_blocks d : bool := negb (bool_decide (downloaded_blocks d = [])).
Definition blocks_in_queue_count d : Z := Z.of_nat (size (blocks_in_queue d)).

Definition exceeds_memory_limits d : bool :=
  (max_downloaded_blocks_memory (memory_config d) <? downloaded_blocks_memory d) ||
  (max_blocks_in_memory (memory_config d) <? Z.of_nat (length (downloaded_blocks d))).

Definition should_pipeline d : bool :=
  if bool_decide (missing_blocks d = []) then false
  else if (last_batch_size d =? 0)%nat then false
  else
    let received_count := (last_batch_size d - size (requested_blocks d))%nat in
    let pipeline_threshold := (last_batch_size d / 2)%nat in
    (pipeline_threshold <=? received_count)%nat && negb (bool_decide (requested_blocks d = ∅)).

(** Assignments to fields. *)
Definition set_requested (missing : list bytes) (requested : gset bytes) (batch : nat) (now : Z) d : BlockDownloader :=
  mk_downloader (bd_peer_id d) missing requested (downloaded_blocks d) (blocks_in_queue d) (queued_blocks d)
    (best_queued_number d) (orphan_blocks_pool d) now (queue_status d) (downloaded_blocks_count d)
    (memory_config d) (downloaded_blocks_memory d) batch.
Definition set_status (status : ImportQueueStatus) d : BlockDownloader :=
  mk_downloader (bd_peer_id d) (missing_blocks d) (requested_blocks d) (downloaded_blocks d) (blocks_in_queue d)
    (queued_blocks d) (best_queued_number d) (orphan_blocks_pool d) (last_progress_time d) status
    (downloaded_blocks_count d) (memory_config d) (downloaded_blocks_memory d) (last_batch_size d).
Definition set_orphans (pool : OrphanBlocksPool) d : BlockDownloader :=
  mk_downloader (bd_peer_id d) (missing_blocks d) (requested_blocks d) (downloaded_blocks d) (blocks_in_queue d)
    (queued_blocks d) (best_queued_number d) pool (last_progress_time d) (queue_status d)
    (downloaded_blocks_count d) (memory_config d) (downloaded_blocks_memory d) (last_batch_size d).
Definition set_queues (downloaded : list Block) (in_queue : gmap bytes Z) (q : QueuedBlocks) (best memory : Z) d :
    BlockDownloader :=
  mk_downloader (bd_peer_id d) (missing_blocks d) (requested_blocks d) downloaded in_queue q best
    (orphan_blocks_pool d) (last_progress_time d) (queue_status d) (downloaded_blocks_count d)
    (memory_config d) memory (last_batch_size d).
Definition set_count (n : Z) d : BlockDownloader :=
  mk_downloader (bd_peer_id d) (missing_blocks d) (requested_blocks d) (downloaded_blocks d) (blocks_in_queue d)
    (queued_blocks d) (best_queued_number d) (orphan_blocks_pool d) (last_progress_time d) (queue_status d) n
    (memory_config d) (downloaded_blocks_memory d) (last_batch_size d).

Definition on_block_response (hash : bytes) (now : Z) d : BlockDownloader * bool :=
  (set_requested (missing_blocks d) (requested_blocks d ∖ {[ hash ]}) (last_batch_size d) now d,
   bool_decide (hash ∈ requested_blocks d)).

Definition touch_progress (now : Z) d : BlockDownloader :=
  set_requested (missing_blocks d) (requested_blocks d) (last_batch_size d) now d.

Definition set_missing_blocks (new : list bytes) d : BlockDownloader :=
  set_requested new (requested_blocks d) (last_batch_size d) (last_progress_time d) d.

Definition stall_timeout (best : Z) : Z :=
  if best <? 300000 then 60 else if best <? 600000 then 120 else if best <? 800000 then 180 else 300.

(** [elapsed] is the time since the last progress. *)
Definition has_stalled (now : Z) d : option PeerId * list PeerStoreMessage :=
  if stall_timeout (best_queued_number d) <? now - last_progress_time d
  then (Some (bd_peer_id d), [RecordFailure (bd_peer_id d)]) else (None, []).

Definition max_queued_blocks (best_number : Z) : Z :=
  if best_number <=? 100000 then 8192 else if best_number <=? 200000 then 4096
  else if best_number <=? 300000 then 2048 else if best_number <=? 600000 then 1024 else 512.

Definition evaluate_queue_status (best_number : Z) d : BlockDownloader * ImportQueueStatus :=
  let queued := (best_queued_number d - best_number) `max` 0 in
  let status := if (max_queued_blocks best_number <? queued) || exceeds_memory_limits d then Saturated else Ready in
  (set_status status d, status).

(** *** Batches *)

Definition base_max_request_size (best : Z) : nat :=
  if best <=? 99999 then 1024 else if best <=? 199999 then 512 else if best <=? 299999 then 128
  else if best <=? 399999 then 64 else if best <=? 499999 then 32 else if best <=? 599999 then 16
  else if best <=? 699999 then 8 else if best <=? 799999 then 4 else 2.

Definition pressure_ratio d : spec_float :=
  f64_max (f64_div (f64_of (downloaded_blocks_memory d)) (f64_of (max_downloaded_blocks_memory (memory_config d))))
          (f64_div (f64_of (Z.of_nat (length (downloaded_blocks d)))) (f64_of (max_blocks_in_memory (memory_config d)))).

Definition max_request_size d : nat :=
  let base := base_max_request_size (best_queued_number d) in
  if enable_adaptive_batch_sizing (memory_config d) then
    if f64_gt (pressure_ratio d) (f64_div (f64_of 8) (f64_of 10)) then (base / 4) `max` 1
    else if f64_gt (pressure_ratio d) (f64_div (f64_of 6) (f64_of 10)) then (base / 2) `max` 1
    else base
  else base.

(** The blocks to request from the peer. *)
Definition schedule_next_download_batch d : BlockDownloader * list Inventory :=
  let batch := take (max_request_size d) (missing_blocks d) in
  (set_requested (drop (max_request_size d) (missing_blocks d)) (list_to_set batch ∪ requested_blocks d)
     (length batch) (last_progress_time d) d,
   map InvBlock batch).

Definition restart (new_peer : PeerId) (now : Z) d : BlockDownloader :=
  mk_downloader new_peer (missing_blocks d) ∅ (downloaded_blocks d) (blocks_in_queue d) (queued_blocks d)
    (best_queued_number d) (orphans_clear (orphan_blocks_pool d)) now Ready 0 (memory_config d)
    (downloaded_blocks_memory d) (last_batch_size d).

(** *** Import *)

Inductive BlockImportError := UnknownParent | OtherImportError (code : Z).

(** The results of imports: any error panics. *)
Definition handle_result {E : Type} (r : option BlockImportError * bytes) d : res E BlockDownloader :=
  let '(import_result, hash) := r in
  let d := set_queues (downloaded_blocks d) (delete hash (blocks_in_queue d)) (queued_remove hash (queued_blocks d))
             (best_queued_number d) (downloaded_blocks_memory d) d in
  match import_result with None => Ok d | Some _ => Panic end.

Definition handle_processed_blocks {E : Type} (results : list (option BlockImportError * bytes)) (now : Z) d :
    res E BlockDownloader :=
  rfold handle_result results (touch_progress now d).

Definition calculate_block_memory_usage {E : Type} (block : Block) : res E Z :=
  let header := default BITCOIN_BLOCK_HEADER_SIZE (header_size (block_header block)) in
  txs ← rfold (fun tx acc => add_u64 acc (default AVERAGE_TRANSACTION_SIZE_BYTES (tx_size tx))) (txdata block) 0;
  size ← add_u64 header txs;
  add_u64 size BLOCK_MEMORY_OVERHEAD.

(** One downloaded block: the queue, the blocks to import, the memory freed. *)
Definition drain_block {E : Type} (max_block_number : option Z) (q : QueuedBlocks) (block : Block)
    (acc : gmap bytes Z * list (Z * Block) * Z) : res E (gmap bytes Z * list (Z * Block) * Z) :=
  let '(in_queue, blocks, freed) := acc in
  number ← expect (queued_block_number q (hash_of block));
  memory ← match block_memory_usage q (hash_of block) with
           | Some memory => Ok memory
           | None => calculate_block_memory_usage block
           end;
  freed ← add_u64 freed memory;
  if match max_block_number with Some target => target <? number | None => false end
  then Ok (in_queue, blocks, freed)
  else Ok (<[hash_of block := number]> in_queue, blocks ++ [(number, block)], freed).

(** The hash that the queue has for a number. *)
Fixpoint with_hashes {E : Type} (q : QueuedBlocks) (blocks : list (Z * Block)) : res E (list bytes * list Block) :=
  match blocks with
  | [] => Ok ([], [])
  | (number, block) :: blocks =>
      hash ← expect (queued_block_hash q number);
      '(hashes, rest) ← with_hashes q blocks;
      Ok (hash :: hashes, block :: rest)
  end.

Definition prepare_blocks_for_import {E : Type} (max_block_number : option Z) d :
    res E (BlockDownloader * (list bytes * list Block)) :=
  let q := queued_blocks d in
  '(in_queue, blocks, freed) ←
    rfold (drain_block max_block_number q) (downloaded_blocks d) (blocks_in_queue d, [], 0);
  let d := set_queues [] in_queue q (best_queued_number d) ((downloaded_blocks_memory d - freed) `max` 0) d in
  result ← with_hashes q (sort_by_number blocks);
  Ok (d, result).

(** *** Arrival *)

Definition insert_block {E : Type} (number : Z) (hash : bytes) (block : Block) d : res E BlockDownloader :=
  memory ← calculate_block_memory_usage block;
  total ← add_u64 (downloaded_blocks_memory d) memory;
  Ok (set_queues (downloaded_blocks d ++ [block]) (blocks_in_queue d) (queued_insert number hash memory (queued_blocks d))
        (if best_queued_number d <? number then number else best_queued_number d) total d).

(** The orphans that a block connects: numbered by their position. *)
Fixpoint insert_children {E : Type} (block_number : Z) (index : nat) (children : list Block) d :
    res E BlockDownloader :=
  match children with
  | [] => Ok d
  | child :: children =>
      n ← expect (checked_u32 (block_number + wrap_u32 (Z.of_nat index)));
      number ← expect (checked_u32 (n + 1));
      d ← insert_block number (hash_of child) child d;
      insert_children block_number (S index) children d
  end.

Definition add_block {E : Type} (block_number : Z) (hash : bytes) (block : Block) (from : PeerId) d :
    res E (BlockDownloader * list PeerStoreMessage) :=
  d ← insert_block block_number hash block d;
  '(pool, children) ← remove_blocks_for_parent hash (orphan_blocks_pool d);
  d ← insert_children block_number 0 children (set_orphans pool d);
  count ← add_u64 (downloaded_blocks_count d) 1;
  Ok (set_count count d, [RecordBlockDownload from]).

Definition add_orphan_block (block : Block) d : BlockDownloader :=
  set_orphans (insert_orphan_block block (orphan_blocks_pool d)) d.

Definition add_unknown_block {E : Type} (block : Block) d : res E BlockDownloader :=
  pool ← insert_unknown_block block (orphan_blocks_pool d);
  Ok (set_orphans pool d).
End downloader.
