(* ===== verification/DownloaderFacts.v ===== *)
(** * Properties of the block downloader

    The queue of a downloader pairs hashes and heights one to one, and the memory
    it accounts for is the memory of the blocks it holds.  Under this invariant
    blocks are handed to the import queue in order of height, each with its own
    hash; orphans that a block connects get the height of their parent plus one
    as long as they do not fork. *)

From Stdlib Require Import ZArith Lia Sorted.
From stdpp Require Import prelude gmap sorting.
From S2P Require Import Prelude Collections Bitcoin Client MempoolTypes NetworkTypes OrphanPool BlockDownloader.

Section facts.
Context `{!ChainApi, !BlockHashLaws, !HashOrder, !HashOrderLaws, !EncodedSizes, !UnstableSort, !UnstableSortLaws}.
Implicit Types (d : BlockDownloader) (q : QueuedBlocks) (b : Block).

Definition memory_of q b : Z := default 0 (block_memory q !! hash_of b).
Definition total_memory q (bs : list Block) : Z := zsum (map (memory_of q) bs).

Definition queue_ok q : Prop := forall h n, hash2number q !! h = Some n <-> number2hash q !! n = Some h.

Record downloader_wf d : Prop := {
  dw_queue : queue_ok (queued_blocks d);
  dw_downloaded b : b ∈ downloaded_blocks d ->
    is_Some (hash2number (queued_blocks d) !! hash_of b) /\
    exists m, block_memory (queued_blocks d) !! hash_of b = Some m /\ 0 <= m;
  dw_nodup : NoDup (map hash_of (downloaded_blocks d));
  dw_memory : downloaded_blocks_memory d = total_memory (queued_blocks d) (downloaded_blocks d);
  dw_bound : downloaded_blocks_memory d <= u64_max;
  dw_disjoint b : b ∈ downloaded_blocks d -> blocks_in_queue d !! hash_of b = None;
}.

Lemma total_memory_nonneg q bs :
  (forall b, b ∈ bs -> exists m, block_memory q !! hash_of b = Some m /\ 0 <= m) -> 0 <= total_memory q bs.
Proof.
  intros Hb. apply zsum_nonneg, Forall_fmap, Forall_forall. intros b (m & Hm & ?)%Hb. cbn. unfold memory_of. by rewrite Hm.
Qed.

Lemma total_memory_app q bs bs' : total_memory q (bs ++ bs') = total_memory q bs + total_memory q bs'.
Proof. unfold total_memory. by rewrite map_app, zsum_app. Qed.

(** ** Hand-over to the import queue *)

(** The height a queue has for a block. *)
Definition height_of q b : Z := default 0 (hash2number q !! hash_of b).
Definition within (max_block_number : option Z) (n : Z) : bool :=
  match max_block_number with Some target => n <=? target | None => true end.
Definition wanted (max_block_number : option Z) q (bs : list Block) : list Block :=
  filter (fun b => within max_block_number (height_of q b)) bs.

Lemma drain_step {E : Type} max q b n m in_queue blocks freed :
  hash2number q !! hash_of b = Some n -> block_memory q !! hash_of b = Some m -> is_u64 (freed + m) ->
  drain_block (E := E) max q b (in_queue, blocks, freed) =
    Ok (if within max n then (<[hash_of b := n]> in_queue, blocks ++ [(n, b)], freed + m)
        else (in_queue, blocks, freed + m)).
Proof.
  intros Hn Hm Hadd. unfold drain_block, queued_block_number, block_memory_usage, add_u64. rewrite Hn, Hm. rcbn. cbn [expect]. rbind.
  rewrite checked_u64_Ok by done. rbind. unfold within. destruct max as [target |]; [| done].
  rewrite Z.ltb_antisym. by destruct (n <=? target).
Qed.

Lemma drain_run {E : Type} max q bs in_queue blocks freed :
  (forall b, b ∈ bs -> is_Some (hash2number q !! hash_of b) /\
    exists m, block_memory q !! hash_of b = Some m /\ 0 <= m) ->
  0 <= freed -> freed + total_memory q bs <= u64_max ->
  rfold (drain_block (E := E) max q) bs (in_queue, blocks, freed) =
    Ok (foldl (fun m b => <[hash_of b := height_of q b]> m) in_queue (wanted max q bs),
        blocks ++ map (fun b => (height_of q b, b)) (wanted max q bs), freed + total_memory q bs).
Proof.
  revert in_queue blocks freed. induction bs as [| b bs IH]; intros in_queue blocks freed Hb Hf Hle; cbn [rfold].
  { cbn. by rewrite app_nil_r, Z.add_0_r. }
  destruct (Hb b) as [[n Hn] (m & Hm & Hm0)]; [left |].
  assert (Hmem : memory_of q b = m) by (unfold memory_of; by rewrite Hm).
  assert (Hh : height_of q b = n) by (unfold height_of; by rewrite Hn).
  assert (Hrest : 0 <= total_memory q bs) by (apply total_memory_nonneg; intros ? ?; apply Hb; by right).
  unfold total_memory in Hle |- *. cbn [map zsum foldr] in Hle |- *. rewrite Hmem in Hle |- *.
  fold (zsum (map (memory_of q) bs)) in *. fold (total_memory q bs) in *.
  rewrite (drain_step max q b n m in_queue blocks freed Hn Hm) by (unfold is_u64; lia). rbind.
  replace (freed + (m + total_memory q bs)) with ((freed + m) + total_memory q bs) by lia.
  unfold wanted. rewrite filter_cons, Hh. destruct (within max n); (rewrite IH; [| intros; apply Hb; by right | lia | lia]).
  - rewrite decide_True by done. cbn. rewrite Hh. by rewrite <- (assoc_L (++)).
  - rewrite decide_False by (intros []). done.
Qed.

(** Under a one to one queue the hash looked up for a height is the hash of the block. *)
Lemma with_hashes_run {E : Type} q blocks :
  queue_ok q -> Forall (fun nb => hash2number q !! hash_of nb.2 = Some nb.1) blocks ->
  with_hashes (E := E) q blocks = Ok (map (fun nb => hash_of nb.2) blocks, map snd blocks).
Proof.
  intros Hq. induction 1 as [| [n b] blocks Hn _ IH]; [done |]. cbn [with_hashes]. cbn in Hn.
  unfold queued_block_hash. apply Hq in Hn as ->. cbn [expect]. rbind. rewrite IH. done.
Qed.

Lemma foldl_insert_None q (bs : list Block) (m : gmap bytes Z) (h : bytes) :
  foldl (fun m b => <[hash_of b := height_of q b]> m) m bs !! h =
    if decide (h ∈ map hash_of bs) then Some (default 0 (hash2number q !! h)) else m !! h.
Proof.
  revert m. induction bs as [| b bs IH]; intros m; cbn [foldl map].
  { rewrite decide_False; [done | by intros ?%elem_of_nil]. }
  rewrite IH. destruct (decide (h = hash_of b)) as [-> | Hne].
  - rewrite lookup_insert_eq. case_decide; [by rewrite decide_True by (by left) |]. by rewrite decide_True by (by left).
  - rewrite lookup_insert_ne by congruence.
    destruct (decide (h ∈ map hash_of bs)); [by rewrite decide_True by (by right) |].
    rewrite decide_False; [done |]. by rewrite elem_of_cons; intros [].
Qed.

(** Distinct blocks have distinct heights, so a sorted list is strictly sorted. *)
Lemma strictly_sorted q (l : list (Z * Block)) :
  queue_ok q -> Forall (fun nb => hash2number q !! hash_of nb.2 = Some nb.1) l -> NoDup (map (fun nb => hash_of nb.2) l) ->
  StronglySorted (fun x y => x.1 <= y.1) l -> StronglySorted (fun b b' => height_of q b < height_of q b') (map snd l).
Proof.
  intros Hq Hall Hnd. induction 1 as [| [n b] l Hs IH Hle]; cbn [map]; [constructor |].
  apply Forall_cons in Hall as [Hn Hall]. apply NoDup_cons in Hnd as [Hnin Hnd]. constructor; [by apply IH |].
  apply Forall_fmap, Forall_forall. intros [n' b'] Hin. cbn in *.
  rewrite Forall_forall in Hall, Hle. pose proof (Hall _ Hin) as Hn'. pose proof (Hle _ Hin) as Hnn. cbn in Hn', Hnn.
  unfold height_of. rewrite Hn, Hn'. cbn. enough (n <> n') by lia. intros <-. apply Hnin.
  apply Hq in Hn, Hn'. rewrite Hn in Hn'. injection Hn' as ->. by apply (list_elem_of_fmap_2 (fun nb => hash_of nb.2) l (n, b')).
Qed.

Lemma prepare_run {E : Type} max d :
  downloader_wf d ->
  exists blocks, blocks ≡ₚ wanted max (queued_blocks d) (downloaded_blocks d) /\
    StronglySorted (fun b b' => height_of (queued_blocks d) b < height_of (queued_blocks d) b') blocks /\
    prepare_blocks_for_import (E := E) max d =
      Ok (set_queues []
            (foldl (fun m b => <[hash_of b := height_of (queued_blocks d) b]> m) (blocks_in_queue d)
               (wanted max (queued_blocks d) (downloaded_blocks d)))
            (queued_blocks d) (best_queued_number d) 0 d, (map hash_of blocks, blocks)).
Proof.
  intros [Hq Hd Hnd Hm Hb Hdis]. set (q := queued_blocks d) in *.
  set (l := map (fun b => (height_of q b, b)) (wanted max q (downloaded_blocks d))).
  assert (Hnum : Forall (fun nb => hash2number q !! hash_of nb.2 = Some nb.1) (sort_by_number l)).
  { rewrite sort_permutation. apply Forall_fmap, Forall_forall. intros b [_ Hin]%list_elem_of_filter. cbn.
    destruct (Hd b Hin) as [[n Hn] _]. unfold height_of. by rewrite Hn. }
  assert (Hl : map snd l = wanted max q (downloaded_blocks d)).
  { unfold l. rewrite map_map. apply map_id. }
  exists (map snd (sort_by_number l)). split; [by rewrite sort_permutation, Hl |]. split.
  - apply strictly_sorted; [done | done | | apply sort_sorted].
    rewrite sort_permutation. unfold l. rewrite map_map. cbn. eapply sublist_NoDup; [exact Hnd |].
    apply (fmap_sublist hash_of), sublist_filter.
  - unfold prepare_blocks_for_import. fold q. rewrite drain_run; [| done | lia | lia]. cbn [app]. rbind. fold l.
    rewrite with_hashes_run by done. rbind. rewrite map_map. do 4 f_equal. lia.
Qed.

Lemma prepare_wf d d' in_queue :
  downloader_wf d -> d' = set_queues [] in_queue (queued_blocks d) (best_queued_number d) 0 d -> downloader_wf d'.
Proof.
  intros [Hq Hd Hnd Hm Hb Hdis] ->. split; cbn; try done.
  - by intros b ?%elem_of_nil.
  - apply NoDup_nil_2.
  - by intros b ?%elem_of_nil.
Qed.

(** The downloaded blocks up to the target height are handed to the import
    queue in strictly ascending order of height, each paired with its own hash,
    and recorded there; nothing stays in the downloader, and the memory it
    accounts for returns to zero. *)
Lemma prepare_blocks_for_import_spec {E : Type} max d :
  downloader_wf d ->
  exists d' blocks, prepare_blocks_for_import (E := E) max d = Ok (d', (map hash_of blocks, blocks)) /\
    blocks ≡ₚ wanted max (queued_blocks d) (downloaded_blocks d) /\
    StronglySorted (fun b b' => height_of (queued_blocks d) b < height_of (queued_blocks d) b') blocks /\
    downloader_wf d' /\ downloaded_blocks d' = [] /\ downloaded_blocks_memory d' = 0 /\
    forall h, blocks_in_queue d' !! h =
      if decide (h ∈ map hash_of blocks) then hash2number (queued_blocks d) !! h else blocks_in_queue d !! h.
Proof.
  intros Hwf. destruct (prepare_run (E := E) max d Hwf) as (blocks & Hperm & Hs & Hrun).
  eexists _, blocks. split; [exact Hrun |]. split; [done |]. split; [done |].
  split; [by eapply prepare_wf |]. split; [done |]. split; [done |].
  intros h. cbn [blocks_in_queue set_queues]. rewrite foldl_insert_None.
  rewrite (decide_ext (h ∈ map hash_of (wanted max (queued_blocks d) (downloaded_blocks d))) (h ∈ map hash_of blocks))
    by (by rewrite Hperm).
  case_decide as Hin; [| done]. rewrite Hperm in Hin. apply list_elem_of_fmap in Hin as (b & -> & [_ Hb]%list_elem_of_filter).
  by destruct (dw_downloaded d Hwf b Hb) as [[n ->] _].
Qed.

(** ** Arrival of blocks *)

(** The memory that is accounted for a block. *)
Definition block_size b : Z :=
  default BITCOIN_BLOCK_HEADER_SIZE (header_size (block_header b)) +
  zsum (map (fun tx => default AVERAGE_TRANSACTION_SIZE_BYTES (tx_size tx)) (txdata b)) + BLOCK_MEMORY_OVERHEAD.

(** A number of bytes written is not negative. *)
Definition sizes_ok b : Prop :=
  0 <= default BITCOIN_BLOCK_HEADER_SIZE (header_size (block_header b)) /\
  Forall (fun tx => 0 <= default AVERAGE_TRANSACTION_SIZE_BYTES (tx_size tx)) (txdata b).

Lemma block_size_pos b : sizes_ok b -> 0 < block_size b.
Proof.
  intros [Hh Ht]. unfold block_size, BLOCK_MEMORY_OVERHEAD.
  assert (0 <= zsum (map (fun tx => default AVERAGE_TRANSACTION_SIZE_BYTES (tx_size tx)) (txdata b))); [| lia].
  by apply zsum_nonneg, Forall_fmap.
Qed.

Lemma sum_sizes_run {E : Type} (txs : list Transaction) acc :
  Forall (fun tx => 0 <= default AVERAGE_TRANSACTION_SIZE_BYTES (tx_size tx)) txs -> 0 <= acc ->
  acc + zsum (map (fun tx => default AVERAGE_TRANSACTION_SIZE_BYTES (tx_size tx)) txs) <= u64_max ->
  rfold (E := E) (fun tx acc => add_u64 acc (default AVERAGE_TRANSACTION_SIZE_BYTES (tx_size tx))) txs acc =
    Ok (acc + zsum (map (fun tx => default AVERAGE_TRANSACTION_SIZE_BYTES (tx_size tx)) txs)).
Proof.
  intros Hall. revert acc. induction Hall as [| tx txs Htx Hall IH]; intros acc Hacc Hle; cbn [rfold map zsum foldr] in *.
  { by rewrite Z.add_0_r. }
  fold (zsum (map (fun tx => default AVERAGE_TRANSACTION_SIZE_BYTES (tx_size tx)) txs)) in *.
  pose proof (zsum_nonneg (map (fun tx => default AVERAGE_TRANSACTION_SIZE_BYTES (tx_size tx)) txs)
    ltac:(by apply Forall_fmap)) as Hn.
  unfold add_u64 at 2. rewrite checked_u64_Ok by (unfold is_u64; lia). rbind.
  rewrite IH by lia. by rewrite Z.add_assoc.
Qed.

Lemma calculate_run {E : Type} b :
  sizes_ok b -> block_size b <= u64_max -> calculate_block_memory_usage (E := E) b = Ok (block_size b).
Proof.
  intros [Hh Ht] Hle. unfold block_size, BLOCK_MEMORY_OVERHEAD in *. unfold calculate_block_memory_usage.
  pose proof (zsum_nonneg (map (fun tx => default AVERAGE_TRANSACTION_SIZE_BYTES (tx_size tx)) (txdata b))
    ltac:(by apply Forall_fmap)) as Hn.
  rewrite sum_sizes_run by (done || lia). rbind. unfold add_u64. rewrite checked_u64_Ok by (unfold is_u64; lia). rbind.
  apply checked_u64_Ok. unfold is_u64, BLOCK_MEMORY_OVERHEAD. lia.
Qed.

(** A block that the queue knows neither by hash nor by height. *)
Definition fresh_in q (n : Z) b : Prop := hash2number q !! hash_of b = None /\ number2hash q !! n = None.

Lemma queue_ok_insert q n b m : queue_ok q -> fresh_in q n b -> queue_ok (queued_insert n (hash_of b) m q).
Proof.
  intros Hq [Hh Hn] h k. cbn. destruct (decide (h = hash_of b)) as [-> | Hne], (decide (k = n)) as [-> | Hnk];
    rewrite ?lookup_insert_eq, ?lookup_insert_ne by congruence.
  - done.
  - split; [congruence |]. intros Hk%Hq. congruence.
  - split; [intros Hk%Hq |]; congruence.
  - apply Hq.
Qed.

Lemma total_memory_ext q q' (bs : list Block) :
  (forall b, b ∈ bs -> block_memory q' !! hash_of b = block_memory q !! hash_of b) -> total_memory q' bs = total_memory q bs.
Proof.
  intros Heq. unfold total_memory. f_equal. apply map_ext_in. intros b Hb%list_elem_of_In. unfold memory_of. by rewrite Heq.
Qed.

(** The downloader after [insert_block]. *)
Definition inserted (n : Z) b d : BlockDownloader :=
  set_queues (downloaded_blocks d ++ [b]) (blocks_in_queue d) (queued_insert n (hash_of b) (block_size b) (queued_blocks d))
    (if best_queued_number d <? n then n else best_queued_number d) (downloaded_blocks_memory d + block_size b) d.

Lemma insert_block_run {E : Type} n b d :
  sizes_ok b -> 0 <= downloaded_blocks_memory d -> downloaded_blocks_memory d + block_size b <= u64_max ->
  insert_block (E := E) n (hash_of b) b d = Ok (inserted n b d).
Proof.
  intros Hs Hm Hle. pose proof (block_size_pos b Hs). unfold insert_block, add_u64.
  rewrite calculate_run by (done || lia). rbind. rewrite checked_u64_Ok by (unfold is_u64; lia). done.
Qed.

Lemma inserted_wf n b d :
  downloader_wf d -> sizes_ok b -> downloaded_blocks_memory d + block_size b <= u64_max ->
  fresh_in (queued_blocks d) n b -> blocks_in_queue d !! hash_of b = None -> downloader_wf (inserted n b d).
Proof.
  intros [Hq Hd Hnd Hm Hb Hdis] Hs Hle Hf Hiq. pose proof (block_size_pos b Hs) as Hpos. destruct Hf as [Hh Hn].
  assert (Hne : forall x, x ∈ downloaded_blocks d -> hash_of x <> hash_of b).
  { intros x Hx Heq. destruct (Hd x Hx) as [[k Hk] _]. congruence. }
  split; cbn [inserted set_queues queued_blocks downloaded_blocks downloaded_blocks_memory blocks_in_queue].
  - by apply queue_ok_insert.
  - intros x [Hx | ->%list_elem_of_singleton]%elem_of_app; cbn.
    + rewrite !lookup_insert_ne by (by intros Heq; apply (Hne x Hx)). by apply Hd.
    + rewrite !lookup_insert_eq. split; [done |]. eexists. split; [done | lia].
  - rewrite map_app. apply NoDup_app. split; [done |]. split; [| apply NoDup_singleton].
    intros h (x & -> & Hx)%list_elem_of_fmap ?%list_elem_of_singleton. by apply (Hne x).
  - rewrite total_memory_app, (total_memory_ext (queued_blocks d)).
    + rewrite Hm. f_equal. unfold total_memory, memory_of. cbn. rewrite lookup_insert_eq. cbn. lia.
    + intros x Hx. cbn. by rewrite lookup_insert_ne by (by intros Heq; apply (Hne x Hx)).
  - done.
  - intros x [Hx | ->%list_elem_of_singleton]%elem_of_app; [by apply Hdis | done].
Qed.

(** Blocks inserted at consecutive heights. *)
Fixpoint insert_all (n : Z) (bs : list Block) d : BlockDownloader :=
  match bs with
  | [] => d
  | b :: bs => insert_all (n + 1) bs (inserted n b d)
  end.

(** What a run of insertions needs: known sizes, room for memory and heights. *)
Record room (n : Z) (bs : list Block) d : Prop := {
  rm_sizes : Forall sizes_ok bs;
  rm_memory : downloaded_blocks_memory d + zsum (map block_size bs) <= u64_max;
  rm_height : 0 <= n /\ n + Z.of_nat (length bs) <= u32_max;
}.

Lemma zsum_sizes_nonneg (bs : list Block) : Forall sizes_ok bs -> 0 <= zsum (map block_size bs).
Proof.
  intros Hs. apply zsum_nonneg, Forall_fmap. eapply Forall_impl; [exact Hs |]. intros b Hb%block_size_pos. cbn. lia.
Qed.

Lemma room_cons n b bs d :
  room n (b :: bs) d -> sizes_ok b /\ downloaded_blocks_memory d + block_size b <= u64_max /\
  room (n + 1) bs (inserted n b d).
Proof.
  intros [Hs Hm Hh]. apply Forall_cons in Hs as [Hb Hs]. cbn [map zsum foldr length] in *.
  fold (zsum (map block_size bs)) in *. pose proof (zsum_sizes_nonneg bs Hs).
  split; [done |]. split; [lia |]. split; [done | cbn; lia | lia].
Qed.

Lemma insert_children_run {E : Type} n i bs d :
  0 <= n -> 0 <= downloaded_blocks_memory d -> room (n + Z.of_nat i + 1) bs d ->
  insert_children (E := E) n i bs d = Ok (insert_all (n + Z.of_nat i + 1) bs d).
Proof.
  intros Hn. revert i d. induction bs as [| b bs IH]; intros i d Hm Hr; cbn [insert_children insert_all]; [done |].
  pose proof (rm_height _ _ _ Hr) as [_ Hh]. cbn [length] in Hh. apply room_cons in Hr as (Hs & Hle & Hr).
  assert (Hw : wrap_u32 (Z.of_nat i) = Z.of_nat i) by (apply Z.mod_small; unfold u32_max in *; lia). rewrite Hw.
  rewrite checked_u32_Ok by (unfold is_u32; lia). rbind. rewrite checked_u32_Ok by (unfold is_u32; lia). rbind.
  rewrite insert_block_run by done. rbind. pose proof (block_size_pos b Hs).
  replace (n + Z.of_nat i + 1 + 1) with (n + Z.of_nat (S i) + 1) in * by lia. apply IH; [cbn; lia | done].
Qed.

(** Blocks with new, distinct hashes and free heights. *)
Record all_fresh (n : Z) (bs : list Block) d : Prop := {
  af_hash b : b ∈ bs -> hash2number (queued_blocks d) !! hash_of b = None;
  af_queue b : b ∈ bs -> blocks_in_queue d !! hash_of b = None;
  af_nodup : NoDup (map hash_of bs);
  af_height k : n <= k < n + Z.of_nat (length bs) -> number2hash (queued_blocks d) !! k = None;
}.

Lemma all_fresh_cons n b bs d :
  all_fresh n (b :: bs) d -> fresh_in (queued_blocks d) n b /\ blocks_in_queue d !! hash_of b = None /\
  all_fresh (n + 1) bs (inserted n b d).
Proof.
  intros [Hh Hq Hnd Hk]. apply NoDup_cons in Hnd as [Hnin Hnd]. cbn [length] in Hk.
  split; [split; [apply Hh; left | apply Hk; lia] |]. split; [apply Hq; left |].
  split; cbn [inserted set_queues queued_blocks blocks_in_queue queued_insert hash2number number2hash].
  - intros x Hx. rewrite lookup_insert_ne; [apply Hh; by right |]. intros Heq. apply Hnin. rewrite Heq.
    by apply (list_elem_of_fmap_2 hash_of).
  - intros x Hx. apply Hq. by right.
  - done.
  - intros k ?. rewrite lookup_insert_ne by lia. apply Hk. lia.
Qed.

Lemma insert_all_wf n bs d : downloader_wf d -> room n bs d -> all_fresh n bs d -> downloader_wf (insert_all n bs d).
Proof.
  revert n d. induction bs as [| b bs IH]; intros n d Hwf Hr Hf; cbn [insert_all]; [done |].
  apply room_cons in Hr as (Hs & Hle & Hr). apply all_fresh_cons in Hf as (Hb & Hq & Hf).
  apply IH; [by apply inserted_wf | done | done].
Qed.

Lemma insert_all_other n bs d h :
  h ∉ map hash_of bs -> hash2number (queued_blocks (insert_all n bs d)) !! h = hash2number (queued_blocks d) !! h.
Proof.
  revert n d. induction bs as [| b bs IH]; intros n d; cbn [insert_all map]; [done |].
  intros [Hne Hnin]%not_elem_of_cons. rewrite IH by done. cbn. by rewrite lookup_insert_ne by congruence.
Qed.

Lemma insert_all_height n bs d i b :
  NoDup (map hash_of bs) -> bs !! i = Some b ->
  hash2number (queued_blocks (insert_all n bs d)) !! hash_of b = Some (n + Z.of_nat i).
Proof.
  revert n d i. induction bs as [| x bs IH]; intros n d i Hnd Hi; cbn [insert_all map] in *; [done |].
  apply NoDup_cons in Hnd as [Hnin Hnd]. destruct i as [| i]; cbn in Hi.
  - injection Hi as ->. rewrite insert_all_other by done. cbn. rewrite lookup_insert_eq. f_equal. lia.
  - rewrite (IH _ _ i) by done. f_equal. lia.
Qed.

Lemma insert_all_downloaded n bs d : downloaded_blocks (insert_all n bs d) = downloaded_blocks d ++ bs.
Proof.
  revert n d. induction bs as [| b bs IH]; intros n d; cbn [insert_all]; [by rewrite app_nil_r |].
  rewrite IH. cbn. by rewrite <- (assoc_L (++)).
Qed.

Lemma insert_all_pool n bs d :
  orphan_blocks_pool (insert_all n bs d) = orphan_blocks_pool d /\
  downloaded_blocks_count (insert_all n bs d) = downloaded_blocks_count d.
Proof. revert n d. induction bs as [| b bs IH]; intros n d; cbn [insert_all]; [done |]. by rewrite !(proj1 (IH _ _)), !(proj2 (IH _ _)). Qed.

(** ** Chains of orphans *)

(** No two orphans have the same parent. *)
Definition no_forks (s : OrphanBlocksPool) : Prop := forall p h h', h ∈ children s p -> h' ∈ children s p -> h = h'.

(** Without forks, the orphans that leave form a chain. *)
Lemma removal_chain s root popped s' removed :
  orphans_wf s -> no_forks s -> removal_inv s root popped [] s' removed ->
  forall i b, removed !! i = Some b -> (root :: map hash_of removed) !! i = Some (parent_of b).
Proof.
  intros Hwf Hnf Hinv i. induction (lt_wf i) as [i _ IH]. intros b Hb.
  assert (Hchild : forall x, x ∈ removed -> hash_of x ∈ children s (parent_of x)).
  { intros x Hx%(ri_removed _ _ _ _ _ _ Hinv). by apply (ow_block s Hwf) in Hx as [_ ?]. }
  pose proof (ri_order _ _ _ _ _ _ Hinv (take i removed) b (drop (S i) removed)
    ltac:(by rewrite take_drop_middle)) as (j & Hj)%list_elem_of_lookup.
  assert (Hji : (j <= i)%nat).
  { apply lookup_lt_Some in Hj. cbn in Hj. rewrite length_fmap in Hj. rewrite length_take in Hj. lia. }
  assert (Hj' : (root :: map hash_of removed) !! j = Some (parent_of b)).
  { destruct j as [| j]; [done |]. change ((hash_of <$> take i removed) !! j = Some (parent_of b)) in Hj.
    rewrite fmap_take, lookup_take_lt in Hj by lia. exact Hj. }
  destruct (decide (j = i)) as [-> | Hne]; [done |]. exfalso.
  destruct (removed !! j) as [b' |] eqn:Hb'.
  2: { apply lookup_ge_None in Hb'. apply lookup_lt_Some in Hb. lia. }
  pose proof (IH j ltac:(lia) b' Hb') as Hp'. rewrite Hj' in Hp'. injection Hp' as Hp'.
  assert (Heq : hash_of b = hash_of b').
  { apply (Hnf (parent_of b)); [| rewrite Hp']; apply Hchild; by eapply list_elem_of_lookup_2. }
  apply Hne. eapply (NoDup_lookup (map hash_of removed)); [apply (ri_nodup _ _ _ _ _ _ Hinv) | |].
  - rewrite list_lookup_fmap, Hb'. done.
  - rewrite list_lookup_fmap, Hb. by cbn; rewrite Heq.
Qed.

(** The situation in which a block is added: it and the orphans are new to the
    queue, heights from [n] on are free, and sums stay within their types. *)
Record arrival_ok (n : Z) b d : Prop := {
  ar_wf : downloader_wf d;
  ar_orphans : orphans_wf (orphan_blocks_pool d);
  ar_chain : no_forks (orphan_blocks_pool d);
  ar_not_orphan : op_blocks (orphan_blocks_pool d) !! hash_of b = None;
  ar_new x : x = b \/ op_blocks (orphan_blocks_pool d) !! hash_of x = Some x ->
    hash2number (queued_blocks d) !! hash_of x = None /\ blocks_in_queue d !! hash_of x = None;
  ar_size x : x = b \/ op_blocks (orphan_blocks_pool d) !! hash_of x = Some x -> sizes_ok x /\ block_size x <= u32_max;
  ar_height k : n <= k <= n + Z.of_nat (size (op_blocks (orphan_blocks_pool d))) -> number2hash (queued_blocks d) !! k = None;
  ar_heights : 0 <= n /\ n + Z.of_nat (size (op_blocks (orphan_blocks_pool d))) < u32_max;
  ar_memory : downloaded_blocks_memory d + (1 + Z.of_nat (size (op_blocks (orphan_blocks_pool d)))) * u32_max <= u64_max;
  ar_count : 0 <= downloaded_blocks_count d < u64_max;
}.

Lemma zsum_sizes_le (bs : list Block) :
  Forall (fun x => block_size x <= u32_max) bs -> zsum (map block_size bs) <= Z.of_nat (length bs) * u32_max.
Proof.
  induction 1 as [| x bs Hx _ IH]; cbn [map zsum foldr length]; [lia |]. fold (zsum (map block_size bs)). lia.
Qed.

Lemma removed_le s root popped s' removed :
  removal_inv s root popped [] s' removed -> (length removed <= size (op_blocks s))%nat.
Proof.
  intros Hinv. rewrite <- (length_map hash_of removed), <- (size_dom (D := gset bytes)).
  rewrite <- (size_list_to_set (C := gset bytes) _ (ri_nodup _ _ _ _ _ _ Hinv)). apply subseteq_size.
  intros h (x & -> & Hx)%elem_of_list_to_set%list_elem_of_fmap. apply elem_of_dom.
  apply (ri_removed _ _ _ _ _ _ Hinv) in Hx. eauto.
Qed.

(** The block with its chain of orphans can be inserted. *)
Lemma arrival_run n b d popped s' removed :
  arrival_ok n b d -> removal_inv (orphan_blocks_pool d) (hash_of b) popped [] s' removed ->
  room n (b :: removed) d /\ all_fresh n (b :: removed) d.
Proof.
  intros Ha Hinv. pose proof (removed_le _ _ _ _ _ Hinv) as Hlen.
  assert (Hin : forall x, x ∈ b :: removed -> x = b \/ op_blocks (orphan_blocks_pool d) !! hash_of x = Some x).
  { intros x [-> | Hx]%elem_of_cons; [by left |]. right. by apply (ri_removed _ _ _ _ _ _ Hinv). }
  pose proof (ar_heights _ _ _ Ha) as [Hn Hh]. split.
  - assert (Hsz : Forall (fun x => block_size x <= u32_max) (b :: removed)).
    { apply Forall_forall. intros x Hx%Hin. by apply (ar_size _ _ _ Ha). }
    split.
    + apply Forall_forall. intros x Hx%Hin. by apply (ar_size _ _ _ Ha).
    + apply zsum_sizes_le in Hsz. cbn [length] in Hsz. pose proof (ar_memory _ _ _ Ha). unfold u32_max in *. lia.
    + cbn [length]. lia.
  - split.
    + intros x Hx%Hin. by apply (ar_new _ _ _ Ha).
    + intros x Hx%Hin. by apply (ar_new _ _ _ Ha).
    + cbn [map]. apply NoDup_cons. split; [| apply (ri_nodup _ _ _ _ _ _ Hinv)].
      intros (x & Heq & Hx)%list_elem_of_fmap. apply (ri_removed _ _ _ _ _ _ Hinv) in Hx.
      rewrite <- Heq, (ar_not_orphan _ _ _ Ha) in Hx. done.
    + intros k Hk. cbn [length] in Hk. apply (ar_height _ _ _ Ha). lia.
Qed.

Lemma inserted_orphans n b d (pool : OrphanBlocksPool) bs :
  insert_all (n + 1) bs (set_orphans pool (inserted n b d)) = insert_all n (b :: bs) (set_orphans pool d).
Proof. done. Qed.

Lemma add_block_run {E : Type} n b from d :
  arrival_ok n b d ->
  exists s' popped linked, removal_inv (orphan_blocks_pool d) (hash_of b) popped [] s' linked /\ orphans_wf s' /\
    add_block (E := E) n (hash_of b) b from d =
      Ok (set_count (downloaded_blocks_count d + 1) (insert_all n (b :: linked) (set_orphans s' d)), [RecordBlockDownload from]).
Proof.
  intros Ha. destruct (removal_run (E := E) (hash_of b) (orphan_blocks_pool d) (ar_orphans _ _ _ Ha))
    as (s' & linked & popped & Hr & Hwf' & Hinv).
  exists s', popped, linked. split; [done |]. split; [done |].
  destruct (arrival_run n b d popped s' linked Ha Hinv) as [Hroom Hfresh].
  destruct (room_cons _ _ _ _ Hroom) as (Hs & Hle & Hrest). pose proof (block_size_pos b Hs).
  assert (Hm : 0 <= downloaded_blocks_memory d).
  { rewrite (dw_memory d (ar_wf _ _ _ Ha)). apply total_memory_nonneg. intros x Hx. by apply (dw_downloaded d (ar_wf _ _ _ Ha)). }
  pose proof (ar_heights _ _ _ Ha). pose proof (ar_count _ _ _ Ha).
  unfold add_block. rewrite insert_block_run by done. rbind. cbn [orphan_blocks_pool inserted set_queues].
  rewrite Hr. rbind. rewrite (insert_children_run n 0 linked); [| lia | cbn; lia |].
  - rbind. replace (n + Z.of_nat 0 + 1) with (n + 1) by lia. rewrite inserted_orphans.
    rewrite (proj2 (insert_all_pool _ _ _)). cbn [downloaded_blocks_count set_orphans]. unfold add_u64.
    rewrite checked_u64_Ok by (unfold is_u64; lia). done.
  - replace (n + Z.of_nat 0 + 1) with (n + 1) by lia. destruct Hrest. by split.
Qed.


(** ** Processed blocks *)

Lemma queue_ok_remove q h : queue_ok q -> queue_ok (queued_remove h q).
Proof.
  intros Hq x n. red in Hq. cbn. destruct (hash2number q !! h) as [k |] eqn:Hk.
  - rewrite !lookup_delete_Some, Hq. apply Hq in Hk. split; intros [Hne Hx]; (split; [| done]).
    + intros ->. congruence.
    + intros <-. apply Hq in Hk, Hx. congruence.
  - rewrite lookup_delete_Some, Hq. split; [by intros [_ ?] |]. intros Hx. split; [| done]. intros <-. apply Hq in Hx. congruence.
Qed.

Lemma handle_result_wf {E : Type} r d d' :
  downloader_wf d -> r.2 ∉ map hash_of (downloaded_blocks d) -> handle_result (E := E) r d = Ok d' ->
  downloader_wf d' /\ downloaded_blocks d' = downloaded_blocks d /\ r.1 = None.
Proof.
  intros [Hq Hd Hnd Hm Hb Hdis] Hnin. destruct r as [[err |] h]; [done |]. cbn in Hnin |- *. intros [= <-].
  assert (Hne : forall b, b ∈ downloaded_blocks d -> h <> hash_of b).
  { intros b Hbd ->. by apply Hnin, (list_elem_of_fmap_2 hash_of). }
  split; [| done]. split; cbn [set_queues queued_blocks downloaded_blocks downloaded_blocks_memory blocks_in_queue].
  - by apply queue_ok_remove.
  - intros b Hbd. cbn. rewrite !lookup_delete_ne by eauto. by apply Hd.
  - done.
  - rewrite Hm. symmetry. apply total_memory_ext. intros b Hbd. cbn. by rewrite lookup_delete_ne by eauto.
  - done.
  - intros b Hbd. rewrite lookup_delete_ne by eauto. by apply Hdis.
Qed.

Lemma handle_results_wf {E : Type} results d d' :
  downloader_wf d -> Forall (fun r => r.2 ∉ map hash_of (downloaded_blocks d)) results ->
  rfold (handle_result (E := E)) results d = Ok d' -> downloader_wf d' /\ downloaded_blocks d' = downloaded_blocks d.
Proof.
  intros Hwf Hall. revert d Hwf Hall. induction results as [| r results IH]; intros d Hwf Hall; cbn [rfold]; [by intros [= <-] |].
  apply Forall_cons in Hall as [Hr Hall]. intros (d1 & Hr1 & Hr2)%bind_Ok.
  destruct (handle_result_wf r d d1 Hwf Hr Hr1) as (Hwf1 & Hd1 & _).
  destruct (IH d1 Hwf1) as [Hwf' Hd']; [by rewrite Hd1 | done |]. split; [done |]. by rewrite Hd', Hd1.
Qed.

End facts.

(** ** Requests *)

Section requests.
Implicit Types (d : BlockDownloader).

Fixpoint schedule_rounds (n : nat) d : BlockDownloader * list (list Inventory) :=
  match n with
  | O => (d, [])
  | S n =>
      let '(d, batch) := schedule_next_download_batch d in
      let '(d, batches) := schedule_rounds n d in
      (d, batch :: batches)
  end.

Lemma base_max_request_size_bounds best : (2 <= base_max_request_size best <= 1024)%nat.
Proof. unfold base_max_request_size. repeat case_match; lia. Qed.

Lemma max_request_size_bounds d :
  (1 <= max_request_size d <= base_max_request_size (best_queued_number d))%nat.
Proof.
  pose proof (base_max_request_size_bounds (best_queued_number d)) as [Hlo Hhi]. unfold max_request_size.
  pose proof (Nat.Div0.div_le_upper_bound (base_max_request_size (best_queued_number d)) 4
    (base_max_request_size (best_queued_number d)) ltac:(lia)).
  pose proof (Nat.Div0.div_le_upper_bound (base_max_request_size (best_queued_number d)) 2
    (base_max_request_size (best_queued_number d)) ltac:(lia)).
  repeat case_match; lia.
Qed.

Lemma schedule_rounds_run n d :
  (length (missing_blocks d) <= n)%nat ->
  exists d' batches, schedule_rounds n d = (d', batches) /\ concat batches = map InvBlock (missing_blocks d) /\
    missing_blocks d' = [] /\ requested_blocks d' = list_to_set (missing_blocks d) ∪ requested_blocks d /\
    Forall (fun batch => (length batch <= base_max_request_size (best_queued_number d))%nat) batches.
Proof.
  revert d. induction n as [| n IH]; intros d Hlen; cbn [schedule_rounds].
  { destruct (missing_blocks d) eqn:Hm; [| cbn in Hlen; lia]. eexists _, _. split; [done |]. rewrite Hm. cbn.
    repeat split; [set_solver | constructor]. }
  pose proof (max_request_size_bounds d) as [Hlo Hhi]. unfold schedule_next_download_batch.
  set (k := max_request_size d) in *. set (d1 := set_requested _ _ _ _ d).
  destruct (IH d1) as (d' & batches & -> & Hc & Hm & Hr & Hall); [cbn; rewrite length_drop; lia |].
  eexists _, _. split; [done |]. cbn [concat missing_blocks requested_blocks set_requested d1] in *.
  split; [by rewrite Hc, <- map_app, take_drop |]. split; [done |]. split.
  - rewrite Hr. rewrite <- (take_drop k (missing_blocks d)) at 3. rewrite list_to_set_app_L. set_solver.
  - constructor; [rewrite length_map, length_take; lia | done].
Qed.

(** C20: Scheduling makes progress: however small memory pressure makes the
    batches, at most as many rounds as blocks are missing request every missing
    block, once and in order, in batches within the limit for the height. *)
Theorem schedule_download_liveness d :
  exists d' batches, schedule_rounds (length (missing_blocks d)) d = (d', batches) /\
    concat batches = map InvBlock (missing_blocks d) /\ missing_blocks d' = [] /\
    requested_blocks d' = list_to_set (missing_blocks d) ∪ requested_blocks d /\
    Forall (fun batch => (length batch <= base_max_request_size (best_queued_number d) <= 1024)%nat) batches.
Proof.
  destruct (schedule_rounds_run (length (missing_blocks d)) d) as (d' & batches & Hs & Hc & Hm & Hr & Hall); [done |].
  eexists _, _. repeat (split; [done |]). eapply Forall_impl; [exact Hall |]. intros batch Hb.
  pose proof (base_max_request_size_bounds (best_queued_number d)). cbn in *. lia.
Qed.
End requests.

(** ** Concrete downloaders *)

Module SampleDownload.
Import SampleOrder SampleBlocks.

#[export] Instance encoded_sizes : EncodedSizes := {| header_size _ := Some 80; tx_size _ := None |}.

Definition insert_sorted := fix insert_sorted (x : Z * Block) (l : list (Z * Block)) : list (Z * Block) :=
  match l with
  | [] => [x]
  | y :: l => if x.1 <=? y.1 then x :: y :: l else y :: insert_sorted x l
  end.
#[export] Instance stable_sort : UnstableSort := {| sort_by_number := foldr insert_sorted [] |}.

Lemma insert_sorted_perm x l : insert_sorted x l ≡ₚ x :: l.
Proof.
  induction l as [| y l IH]; cbn; [done |]. case_match; [done |]. rewrite IH. constructor.
Qed.

Lemma insert_sorted_sorted x l :
  StronglySorted (fun x y => x.1 <= y.1) l -> StronglySorted (fun x y => x.1 <= y.1) (insert_sorted x l).
Proof.
  induction 1 as [| y l Hs IH Hall]; cbn; [by repeat constructor |]. case_match; bools.
  - constructor; [by constructor |]. constructor; [done |]. eapply Forall_impl; [exact Hall |]. cbn. intros. lia.
  - constructor; [done |]. rewrite insert_sorted_perm. constructor; [lia | done].
Qed.

#[export] Instance stable_sort_laws : UnstableSortLaws.
Proof.
  split; cbn.
  - intros l. induction l as [| x l IH]; cbn; [done |]. by rewrite insert_sorted_perm, IH.
  - intros l. induction l as [| x l IH]; cbn; [constructor |]. by apply insert_sorted_sorted.
Qed.

Definition peer : PeerId := PeerV4 1 8333.
Definition chain_orphans : OrphanBlocksPool := insert_orphan_block b (insert_orphan_block c (insert_orphan_block other orphans_new)).
Definition waiting : BlockDownloader := set_orphans chain_orphans (downloader_new peer 0 memory_config_default 0).

Lemma waiting_wf : downloader_wf waiting.
Proof.
  split; cbn; try done.
  - by intros x ?%elem_of_nil.
  - apply NoDup_nil_2.
Qed.

Lemma chain_orphans_blocks x :
  op_blocks chain_orphans !! hash_of x = Some x -> x = b \/ x = c \/ x = other.
Proof.
  cbn. intros [[_ <-] | [_ [[_ <-] | [_ [[_ <-] | [_ Hx]]%lookup_insert_Some]]%lookup_insert_Some]]%lookup_insert_Some; auto.
  by rewrite lookup_empty in Hx.
Qed.

Lemma chain_orphans_no_forks : no_forks chain_orphans.
Proof.
  intros p h h'. unfold chain_orphans. rewrite !children_insert.
  change (children orphans_new p) with (∅ : gset bytes).
  repeat (case_decide; subst; try done); set_solver.
Qed.

Lemma waiting_arrival : arrival_ok 1 a waiting.
Proof.
  split; cbn [waiting set_orphans orphan_blocks_pool queued_blocks blocks_in_queue downloader_new].
  - apply waiting_wf.
  - do 3 apply insert_orphan_wf. apply orphans_new_wf.
  - apply chain_orphans_no_forks.
  - vm_compute. reflexivity.
  - intros x _. done.
  - intros x Hx. assert (Hc : x = a \/ x = b \/ x = c \/ x = other) by (destruct Hx as [-> | ?%chain_orphans_blocks]; tauto).
    destruct Hc as [-> | [-> | [-> | ->]]]; (split; [split; [done | constructor] | done]).
  - done.
  - split; [lia |]. vm_compute. reflexivity.
  - vm_compute. discriminate.
  - vm_compute. split; [discriminate | reflexivity].
Qed.

(** Two children of [a] and, later, the child of one of them. *)
Definition forked : BlockDownloader :=
  set_orphans (insert_orphan_block b (insert_orphan_block b' orphans_new)) (downloader_new peer 0 memory_config_default 0).
Definition forked_run : res Empty_set (BlockDownloader * (list bytes * list Block)) :=
  '(d, _) ← add_block 1 (hash_of a) a peer forked;
  let k := default 0 (block_number d (parent_of c)) in
  '(d, _) ← add_block (k + 1) (hash_of c) c peer d;
  prepare_blocks_for_import None d.
End SampleDownload.

Module DownloadWitness.
Import SampleOrder SampleBlocks SampleDownload.


Lemma prepare_blocks_for_import_spec_witness :
  exists d d' blocks, add_block (E := Empty_set) 1 (hash_of a) a peer waiting = Ok (d, [RecordBlockDownload peer]) /\
    prepare_blocks_for_import (E := Empty_set) (Some 2) d = Ok (d', (map hash_of blocks, blocks)) /\
    downloaded_blocks_memory d' = 0.
Proof.
  destruct (add_block_run (E := Empty_set) 1 a peer waiting waiting_arrival) as (s' & popped & linked & Hinv & _ & Hrun).
  destruct (arrival_run 1 a waiting popped s' linked waiting_arrival Hinv) as [Hroom Hfresh].
  assert (Hwf : downloader_wf (insert_all 1 (a :: linked) (set_orphans s' waiting))).
  { apply insert_all_wf; [| by destruct Hroom; split | by destruct Hfresh; split]. by destruct waiting_wf; split. }
  assert (Hwf' : downloader_wf (set_count 1 (insert_all 1 (a :: linked) (set_orphans s' waiting)))) by (by destruct Hwf; split).
  destruct (prepare_blocks_for_import_spec (E := Empty_set) (Some 2) _ Hwf') as (d' & blocks & Hp & _ & _ & _ & _ & Hm & _).
  exists (set_count 1 (insert_all 1 (a :: linked) (set_orphans s' waiting))), d', blocks.
  split; [exact Hrun |]. split; [exact Hp | exact Hm].
Defined.

(** Orphans that fork are numbered by their position, so that siblings get
    consecutive heights: when the child of the first arrives, two blocks share a
    height, and the import queue receives a block with the hash of another. *)
Lemma forked_orphans_mispaired :
  exists d' hashes blocks, forked_run = Ok (d', (hashes, blocks)) /\ blocks = [a; b; b'; c] /\
    hashes = [hash_of a; hash_of b; hash_of c; hash_of c] /\ hash_of b' <> hash_of c.
Proof.
  assert (Hr : match forked_run with Ok (_, r) => Some r | _ => None end =
    Some ([hash_of a; hash_of b; hash_of c; hash_of c], [a; b; b'; c])) by (vm_compute; reflexivity).
  destruct forked_run as [[d' [hashes blocks]] | |]; [| done | done]. injection Hr as -> ->.
  exists d'. do 2 eexists. done.
Qed.
End DownloadWitness.
