(* ===== verification/TxRelay.v ===== *)
(** * Transaction relay ([crates/subcoin-network/src/tx_relay.rs])

    Which transactions to request from a peer, to announce to a peer and to
    serve.  The relay owns a transaction pool that it knows by the trait of
    [crates/subcoin-primitives/src/tx_pool.rs] only; the mempool and the pool
    that does nothing implement it.  [Instant::now] is an argument, in
    seconds. *)

From Stdlib Require Import ZArith Lia.
From stdpp Require Import prelude gmap.
From S2P Require Import Prelude Collections Opcode Bitcoin Runtime ScriptTypes Sample Solver TxSanity Interpreter SigChecker Pallet Client.
From S2P Require Import MempoolTypes Arena MempoolInner CoinsView Policy Validation ValidationFacts Finalize Mempool MempoolFacts NetworkTypes.

(** ** The trait of pools *)

Class TxPool (P : Type) := {
  tx_validate : Transaction -> Z -> Z -> P -> res MempoolError TxValidationResult * P;
  tx_contains : P -> bytes -> bool;
  tx_get : P -> bytes -> res MempoolError (option Transaction);
  tx_pending_broadcast : P -> res MempoolError (list (bytes * Z));
  tx_mark_broadcast : list bytes -> P -> P;
  tx_iter_txids : P -> res MempoolError (list (bytes * Z));
  tx_info : P -> TxPoolInfo;
}.

(** What the relay relies on: a pending transaction is in the pool. *)
Class TxPoolLaws (P : Type) `{TxPool P} : Prop := {
  pending_contained p l txid : tx_pending_broadcast p = Ok l -> txid ∈ l.*1 -> tx_contains p txid = true;
}.

Inductive NoTxPool := no_tx_pool.

#[export] Instance no_tx_pool_impl `{!TxApi} : TxPool NoTxPool := {|
  tx_validate tx _ _ p := (Ok (Rejected (compute_txid tx) (Soft SoftPackageRelayDisabled)), p);
  tx_contains _ _ := false;
  tx_get _ _ := Ok None;
  tx_pending_broadcast _ := Ok [];
  tx_mark_broadcast _ p := p;
  tx_iter_txids _ := Ok [];
  tx_info _ := mk_pool_info 0 0 0 0;
|}.

#[export] Instance no_tx_pool_laws `{!TxApi} : TxPoolLaws NoTxPool.
Proof. split. by intros p l txid [= <-] ?%elem_of_nil. Qed.

(** The mempool. *)
Section mempool_impl.
Context `{!ScriptApi, !HashApi, !KeyApi, !SighashApi}.
Context `{!TxApi, !PoolTxApi, !SlotKeys, !HashOrder, !LruApi, !RuntimeStates, !ChainApi}.

#[export] Instance mempool_impl (client : Client) : TxPool MemPool := {|
  tx_validate := validate_transaction client;
  tx_contains p txid := contains_txid (mp_inner p) txid;
  tx_get p txid := get_transaction txid p;
  tx_pending_broadcast := pending_broadcast_txs;
  tx_mark_broadcast := mark_broadcast_txs;
  tx_iter_txids := iter_txids_by_priority;
  tx_info := pool_info;
|}.

Lemma fee_rates_contained txids p l :
  fee_rates txids p = Ok l -> Forall (fun txid => contains_txid (mp_inner p) txid = true) l.*1.
Proof.
  revert l. induction txids as [| txid txids IH]; intros l; cbn [fee_rates]; [intros [= <-]; by apply Forall_nil |].
  destruct (get_entry (mp_inner p) txid) as [entry |] eqn:He; [| apply IH].
  intros (fr & _ & (rest & Hrest & [= <-])%bind_Ok)%bind_Ok. cbn. constructor; [| by apply IH].
  unfold get_entry in He. unfold contains_txid.
  destruct (get_by_txid (arena (mp_inner p)) txid); [by apply bool_decide_eq_true_2 | done].
Qed.

#[export] Instance mempool_laws (client : Client) : TxPoolLaws MemPool (H := mempool_impl client).
Proof.
  split. cbn. intros p l txid Hc%fee_rates_contained Hin. rewrite Forall_forall in Hc. by apply Hc.
Qed.
End mempool_impl.

(** ** The relay *)

Definition TX_REQUEST_TIMEOUT : Z := 60.
Definition MAX_TX_REQUEST_BATCH : nat := 100.

(** The trait by which the relay queries the peer manager. *)
Class PeerTxRelayInfo (I : Type) := {
  peer_wants_tx_relay : I -> PeerId -> bool;
  get_fee_filter : I -> PeerId -> option Z;
}.

Record RequestInfo := mk_request { from_peer : PeerId; requested_at : Z }.

Inductive TxAction :=
| TxNone
| SendGetData (inv : list Inventory) (to : PeerId)
| AnnounceToPeers (batches : list (PeerId * list bytes))
| ServeTxs (txs : list (bytes * PeerId))
| PenalizePeer (peer : PeerId)
(** Never built; the error it carries is left out. *)
| DisconnectPeer (peer : PeerId).

Record TxRelay (P : Type) := mk_relay {
  tx_pool : P;
  peer_announcements : gmap PeerId (gset bytes);
  requested_txs : gmap bytes RequestInfo;
}.
Arguments mk_relay {P}.
Arguments tx_pool {P}.
Arguments peer_announcements {P}.
Arguments requested_txs {P}.

Section relay.
Context {P : Type} `{!TxPool P, !HashOrder} {I : Type} `{!PeerTxRelayInfo I}.
Implicit Types (r : TxRelay P).

Definition relay_new (pool : P) : TxRelay P := mk_relay pool ∅ ∅.

(** The loop over an inventory; it stops when the batch is full. *)
Fixpoint on_inv_loop (inv : list Inventory) (from : PeerId) (now : Z) r (to_request : list bytes) :
    TxRelay P * list bytes :=
  match inv with
  | [] => (r, to_request)
  | InvTransaction txid :: inv =>
      if tx_contains (tx_pool r) txid then on_inv_loop inv from now r to_request
      else if bool_decide (is_Some (requested_txs r !! txid)) then on_inv_loop inv from now r to_request
      else
        let r := mk_relay (tx_pool r) (peer_announcements r) (<[txid := mk_request from now]> (requested_txs r)) in
        let to_request := to_request ++ [txid] in
        if (MAX_TX_REQUEST_BATCH <=? length to_request)%nat then (r, to_request)
        else on_inv_loop inv from now r to_request
  | _ :: inv => on_inv_loop inv from now r to_request
  end.

Definition on_inv (inv : list Inventory) (from : PeerId) (now : Z) r : TxRelay P * TxAction :=
  let '(r, to_request) := on_inv_loop inv from now r [] in
  (r, if bool_decide (to_request = []) then TxNone else SendGetData (map InvTransaction to_request) from).

Definition cleanup_timeouts (now : Z) r : TxRelay P :=
  mk_relay (tx_pool r) (peer_announcements r)
    (filter (fun kv => ¬ TX_REQUEST_TIMEOUT < now - requested_at kv.2) (requested_txs r)).

(** One pending transaction and one peer. *)
Definition announce_to (info : I) (txid : bytes) (fee_rate : Z)
    (acc : gmap PeerId (gset bytes) * gmap PeerId (list bytes)) (peer : PeerId) :
    gmap PeerId (gset bytes) * gmap PeerId (list bytes) :=
  let '(announced, batches) := acc in
  if negb (peer_wants_tx_relay info peer) then acc
  else if bool_decide (txid ∈ default ∅ (announced !! peer)) then acc
  else if match get_fee_filter info peer with Some min_fee => fee_rate <? min_fee | None => false end then acc
  else
    (<[peer := {[ txid ]} ∪ default ∅ (announced !! peer)]> announced,
     <[peer := default [] (batches !! peer) ++ [txid]]> batches).

Definition announce (info : I) (connected : list PeerId)
    (acc : gmap PeerId (gset bytes) * gmap PeerId (list bytes)) (tx : bytes * Z) :
    gmap PeerId (gset bytes) * gmap PeerId (list bytes) :=
  foldl (announce_to info tx.1 tx.2) acc connected.

Definition on_tick (info : I) (connected_peers : list PeerId) (now : Z) r : res MempoolError (TxRelay P * TxAction) :=
  let r := cleanup_timeouts now r in
  pending ← tx_pending_broadcast (tx_pool r);
  if bool_decide (pending = []) then Ok (r, TxNone)
  else
    let '(announced, batches) := foldl (announce info connected_peers) (peer_announcements r, ∅) pending in
    Ok (mk_relay (tx_pool r) announced (requested_txs r),
        if bool_decide (batches = ∅) then TxNone
        else AnnounceToPeers (map (fun peer => (peer, default [] (batches !! peer))) (hash_iter (dom batches)))).

Definition on_get_data (inv : list Inventory) (from : PeerId) r : TxAction :=
  let txids := omap (fun item => match item with
    | InvTransaction txid => if tx_contains (tx_pool r) txid then Some (txid, from) else None
    | _ => None
    end) inv in
  if bool_decide (txids = []) then TxNone else ServeTxs txids.

Definition on_validated_tx (result : TxValidationResult) (received_from : PeerId) r : TxRelay P * TxAction :=
  match result with
  | Accepted txid _ => (mk_relay (tx_pool r) (peer_announcements r) (delete txid (requested_txs r)), TxNone)
  | Rejected txid reason =>
      (mk_relay (tx_pool r) (peer_announcements r) (delete txid (requested_txs r)),
       if should_penalize_peer reason then PenalizePeer received_from else TxNone)
  end.

Definition on_peer_disconnected (peer : PeerId) r : TxRelay P :=
  mk_relay (tx_pool r) (delete peer (peer_announcements r))
    (filter (fun kv => from_peer kv.2 <> peer) (requested_txs r)).

(** Methods that forward to the pool. *)
Definition relay_validate (tx : Transaction) (current_time now : Z) r :
    res MempoolError TxValidationResult * TxRelay P :=
  let '(result, pool) := tx_validate tx current_time now (tx_pool r) in
  (result, mk_relay pool (peer_announcements r) (requested_txs r)).
Definition relay_contains (txid : bytes) r : bool := tx_contains (tx_pool r) txid.
Definition relay_get_transaction (txid : bytes) r : res MempoolError (option Transaction) := tx_get (tx_pool r) txid.
Definition relay_mark_broadcast (txids : list bytes) r : TxRelay P :=
  mk_relay (tx_mark_broadcast txids (tx_pool r)) (peer_announcements r) (requested_txs r).
End relay.

(** ** Requests *)

Section requests.
Context {P : Type} `{!TxPool P}.
Implicit Types (r : TxRelay P).

(** The transactions of an inventory that are neither in the pool nor
    requested, each once. *)
Definition announced_txids (inv : list Inventory) : list bytes :=
  omap (fun item => match item with InvTransaction txid => Some txid | _ => None end) inv.
Definition unknown_to r (txid : bytes) : bool :=
  negb (tx_contains (tx_pool r) txid) && negb (bool_decide (is_Some (requested_txs r !! txid))).

(** The first occurrences. *)
Fixpoint firsts (seen : gset bytes) (l : list bytes) : list bytes :=
  match l with
  | [] => []
  | x :: l => if bool_decide (x ∈ seen) then firsts seen l else x :: firsts ({[ x ]} ∪ seen) l
  end.

Definition new_txids (inv : list Inventory) r : list bytes :=
  firsts ∅ (filter (fun txid => unknown_to r txid) (announced_txids inv)).

Definition request_all (txids : list bytes) (from : PeerId) (now : Z) r : TxRelay P :=
  mk_relay (tx_pool r) (peer_announcements r) (foldl (fun m txid => <[txid := mk_request from now]> m) (requested_txs r) txids).

Lemma firsts_elem seen l x : x ∈ firsts seen l <-> (x ∈ l) /\ (x ∉ seen).
Proof.
  revert seen. induction l as [| y l IH]; intros seen; cbn [firsts]; [set_solver |].
  case_bool_decide as Hy; rewrite ?elem_of_cons, IH; [set_solver |].
  destruct (decide (x = y)) as [-> | Hne]; set_solver.
Qed.

Lemma firsts_nodup seen l : NoDup (firsts seen l).
Proof.
  revert seen. induction l as [| y l IH]; intros seen; cbn [firsts]; [apply NoDup_nil_2 |].
  case_bool_decide; [done |]. constructor; [| done]. rewrite firsts_elem. set_solver.
Qed.

(** The loop, when [done] was requested before within the same message. *)
Lemma on_inv_loop_run inv from now r sent :
  (length sent < MAX_TX_REQUEST_BATCH)%nat ->
  let fresh := take (MAX_TX_REQUEST_BATCH - length sent)
    (firsts (list_to_set sent) (filter (fun txid => unknown_to r txid) (announced_txids inv))) in
  on_inv_loop inv from now (request_all sent from now r) sent =
    (request_all (sent ++ fresh) from now r, sent ++ fresh).
Proof.
  revert sent. induction inv as [| item inv IH]; intros sent Hlen; cbn [on_inv_loop].
  { cbn. rewrite take_nil, app_nil_r. done. }
  destruct item as [txid | | | |]; [| by apply IH ..].
  cbn [announced_txids omap list_omap]. rewrite filter_cons. fold (announced_txids inv).
  assert (Hreq : is_Some (requested_txs (request_all sent from now r) !! txid) <->
    txid ∈ sent \/ is_Some (requested_txs r !! txid)).
  { unfold request_all. cbn. generalize (requested_txs r) as m. clear. induction sent as [| x sent IH]; intros m; cbn [foldl].
    - set_solver.
    - rewrite IH, elem_of_cons, lookup_insert_is_Some'. naive_solver. }
  change (tx_pool (request_all sent from now r)) with (tx_pool r).
  destruct (decide (Is_true (unknown_to r txid))) as [Hu | Hu].
  2: { unfold unknown_to in Hu. destruct (tx_contains (tx_pool r) txid); [by apply IH |]. cbn [negb andb] in Hu.
    rewrite bool_decide_eq_true_2; [by apply IH |]. apply Hreq. right.
    destruct (decide (is_Some (requested_txs r !! txid))) as [Hr | Hr]; [done |].
    exfalso. apply Hu. by rewrite bool_decide_eq_false_2. }
  unfold unknown_to in Hu. apply Is_true_true, andb_true_iff in Hu as [Hu1 Hr]. bools. rewrite Hu1. cbn [firsts].
  destruct (decide (txid ∈ sent)) as [Hs | Hs].
  { rewrite bool_decide_eq_true_2 by (apply Hreq; by left).
    rewrite bool_decide_eq_true_2 by (by apply elem_of_list_to_set). by apply IH. }
  rewrite bool_decide_eq_false_2 by (rewrite Hreq; tauto).
  rewrite bool_decide_eq_false_2 by (by rewrite elem_of_list_to_set).
  assert (Hst : mk_relay (tx_pool (request_all sent from now r)) (peer_announcements (request_all sent from now r))
      (<[txid := mk_request from now]> (requested_txs (request_all sent from now r))) =
      request_all (sent ++ [txid]) from now r) by (unfold request_all; cbn; by rewrite foldl_app).
  cbn zeta. change (tx_pool (request_all sent from now r)) with (tx_pool r) in Hst. rewrite Hst.
  assert (Hm : (MAX_TX_REQUEST_BATCH - length sent = S (MAX_TX_REQUEST_BATCH - length (sent ++ [txid])))%nat)
    by (rewrite length_app; change (length [txid]) with 1%nat; lia).
  rewrite Hm. cbn [take]. rewrite !(cons_middle txid sent), !(assoc_L (++)), !app_nil_r.
  destruct (MAX_TX_REQUEST_BATCH <=? length (sent ++ [txid]))%nat eqn:Hfull; bools.
  - replace (MAX_TX_REQUEST_BATCH - length (sent ++ [txid]))%nat with 0%nat by lia. cbn. by rewrite app_nil_r.
  - rewrite IH by done. rewrite list_to_set_app_L. cbn.
    by replace ({[txid]} ∪ list_to_set sent : gset bytes) with (list_to_set sent ∪ ({[txid]} ∪ ∅) : gset bytes) by set_solver.
Qed.

(** An inventory is answered with a request for the first 100 of the
    transactions it announces that are neither in the pool nor already requested
    from a peer, each once and in order; they are recorded with the peer and the
    time, and nothing else changes.  This is the reference behaviour that the
    loop with its early exit computes. *)
Lemma on_inv_equiv inv from now r :
  let fresh := take MAX_TX_REQUEST_BATCH (new_txids inv r) in
  on_inv inv from now r =
    (request_all fresh from now r, if decide (fresh = []) then TxNone else SendGetData (map InvTransaction fresh) from) /\
  NoDup fresh /\ (length fresh <= 100)%nat /\
  (forall txid, txid ∈ fresh -> InvTransaction txid ∈ inv /\ tx_contains (tx_pool r) txid = false /\
    requested_txs r !! txid = None).
Proof.
  intros fresh. assert (Hrun := on_inv_loop_run inv from now r [] ltac:(cbn; unfold MAX_TX_REQUEST_BATCH; lia)).
  cbn zeta in Hrun. cbn [length app list_to_set] in Hrun. rewrite Nat.sub_0_r in Hrun. fold (new_txids inv r) in Hrun. fold fresh in Hrun.
  split; [| split; [| split]].
  - unfold on_inv. replace r with (request_all [] from now r) at 1 by (by destruct r). rewrite Hrun.
    f_equal. case_bool_decide; case_decide; done.
  - eapply sublist_NoDup; [apply (firsts_nodup ∅) | apply sublist_take].
  - unfold fresh. rewrite length_take. unfold MAX_TX_REQUEST_BATCH. lia.
  - intros txid Hin%(sublist_subseteq _ _ (sublist_take _ _)).
    apply firsts_elem in Hin as [[Hu Ha]%list_elem_of_filter _]. unfold announced_txids in Ha.
    apply list_elem_of_omap in Ha as ([] & Hi & [= ->]). split; [done |]. unfold unknown_to in Hu.
    apply Is_true_true, andb_true_iff in Hu as [H1 H2]. bools. split; [done |]. by apply eq_None_not_Some.
Qed.

End requests.

(** ** Announcements *)

Section facts.
Context {P : Type} `{!TxPool P, !TxPoolLaws P, !HashOrder, !HashOrderLaws} {I : Type} `{!PeerTxRelayInfo I}.
Implicit Types (r : TxRelay P).

Definition announced_to (announced : gmap PeerId (gset bytes)) (q : PeerId) : gset bytes := default ∅ (announced !! q).
Definition batch_of (batches : gmap PeerId (list bytes)) (q : PeerId) : list bytes := default [] (batches !! q).

(** What a peer is willing to hear about. *)
Definition willing (info : I) (q : PeerId) (fee_rate : Z) : bool :=
  peer_wants_tx_relay info q &&
  negb match get_fee_filter info q with Some min_fee => fee_rate <? min_fee | None => false end.

Definition eligible (info : I) (connected : list PeerId) (q : PeerId) (pending : list (bytes * Z)) : list bytes :=
  if decide (q ∈ connected) then (filter (fun tx => willing info q tx.2) pending).*1 else [].

(** What a peer is told, and that it is recorded. *)
Definition tell (txid : bytes) (ok : bool) (st : gset bytes * list bytes) : gset bytes * list bytes :=
  if ok && negb (bool_decide (txid ∈ st.1)) then ({[ txid ]} ∪ st.1, st.2 ++ [txid]) else st.

Definition view (acc : gmap PeerId (gset bytes) * gmap PeerId (list bytes)) (q : PeerId) : gset bytes * list bytes :=
  (announced_to acc.1 q, batch_of acc.2 q).

Lemma announce_to_view info txid fee acc peer q :
  view (announce_to info txid fee acc peer) q = if decide (q = peer) then tell txid (willing info q fee) (view acc q) else view acc q.
Proof.
  destruct acc as [announced batches]. unfold announce_to, willing, tell, view, announced_to, batch_of. cbn [fst snd].
  case_decide as Hq.
  - subst q. destruct (peer_wants_tx_relay info peer); [| done]. cbn [negb andb].
    destruct (bool_decide (txid ∈ default ∅ (announced !! peer))) eqn:Hin; [by rewrite andb_false_r |].
    destruct (match get_fee_filter info peer with Some min_fee => fee <? min_fee | None => false end); [done |].
    cbn. by rewrite !lookup_insert_eq.
  - repeat case_match; try done; cbn; by rewrite !lookup_insert_ne by congruence.
Qed.

Lemma tell_twice txid ok st : tell txid ok (tell txid ok st) = tell txid ok st.
Proof.
  unfold tell at 1. destruct (ok && negb (bool_decide (txid ∈ (tell txid ok st).1))) eqn:Ht; [| done].
  apply andb_true_iff in Ht as [-> Hn]. bools. exfalso. revert Hn. unfold tell. cbn [andb].
  case_bool_decide; cbn; set_solver.
Qed.

Lemma announce_view info connected acc tx q :
  view (announce info connected acc tx) q =
    if decide (q ∈ connected) then tell tx.1 (willing info q tx.2) (view acc q) else view acc q.
Proof.
  unfold announce. revert acc. induction connected as [| peer connected IH]; intros acc; cbn [foldl].
  { rewrite decide_False; [done | by intros ?%elem_of_nil]. }
  rewrite IH, announce_to_view. destruct (decide (q = peer)) as [-> | Hne].
  - rewrite (decide_True (P := peer ∈ peer :: connected)) by left. case_decide; [apply tell_twice | done].
  - destruct (decide (q ∈ connected)); [by rewrite decide_True by (by right) |].
    rewrite decide_False; [done |]. by rewrite elem_of_cons; intros [].
Qed.

Lemma announce_all_view info connected pending acc q :
  view (foldl (announce info connected) acc pending) q =
    (list_to_set (eligible info connected q pending) ∪ (view acc q).1,
     (view acc q).2 ++ firsts (view acc q).1 (eligible info connected q pending)).
Proof.
  revert acc. induction pending as [| [txid fee] pending IH]; intros acc; cbn [foldl].
  { unfold eligible. destruct (decide (q ∈ connected)); cbn; rewrite app_nil_r, (left_id_L ∅ (∪)); done. }
  rewrite IH, announce_view. unfold eligible. destruct (decide (q ∈ connected)); [| done].
  rewrite filter_cons. cbn [fst snd]. unfold tell. destruct (willing info q fee) eqn:Hw; cbn [andb].
  - rewrite decide_True by done. cbn [fmap list_fmap fst firsts list_to_set foldr].
    case_bool_decide as Hin; cbn [negb fst snd].
    + f_equal. set_solver.
    + rewrite <- (assoc_L (++)). f_equal. set_solver.
  - by rewrite decide_False by (intros []).
Qed.

(** What an action announces to a peer. *)
Definition announcements (q : PeerId) (act : TxAction) : list bytes :=
  match act with
  | AnnounceToPeers batches => concat (map snd (filter (fun b => b.1 = q) batches))
  | _ => []
  end.

Lemma announcements_batches (batches : gmap PeerId (list bytes)) q :
  announcements q (AnnounceToPeers (map (fun peer => (peer, default [] (batches !! peer))) (hash_iter (dom batches)))) =
    batch_of batches q.
Proof.
  cbn [announcements]. unfold batch_of.
  assert (Hgen : forall l, NoDup l ->
    concat (map snd (filter (fun b => b.1 = q) (map (fun peer => (peer, default [] (batches !! peer))) l))) =
      if decide (q ∈ l) then default [] (batches !! q) else []).
  { intros l. induction 1 as [| peer l Hnin Hnd IH]; cbn [map].
    - rewrite decide_False; [done | by intros ?%elem_of_nil].
    - rewrite filter_cons. cbn [fst]. destruct (decide (peer = q)) as [-> | Hne].
      + cbn [map concat snd]. rewrite IH, (decide_False (P := q ∈ l)), decide_True by (done || left). by rewrite app_nil_r.
      + rewrite IH. destruct (decide (q ∈ l)); [by rewrite decide_True by (by right) |].
        rewrite decide_False; [done |]. rewrite elem_of_cons. by intros [-> |]. }
  rewrite Hgen by apply hash_iter_nodup. case_decide as Hin; [done |].
  rewrite hash_iter_elem, not_elem_of_dom in Hin. by rewrite Hin.
Qed.

Lemma on_tick_run info connected now r pending :
  tx_pending_broadcast (tx_pool r) = Ok pending ->
  exists announced act,
    on_tick info connected now r = Ok (mk_relay (tx_pool r) announced (requested_txs (cleanup_timeouts now r)), act) /\
    forall q, announced_to announced q =
        list_to_set (eligible info connected q pending) ∪ announced_to (peer_announcements r) q /\
      announcements q act = firsts (announced_to (peer_announcements r) q) (eligible info connected q pending).
Proof.
  intros Hp. unfold on_tick. change (tx_pool (cleanup_timeouts now r)) with (tx_pool r).
  change (peer_announcements (cleanup_timeouts now r)) with (peer_announcements r). rewrite Hp. rbind.
  case_bool_decide as Hnil.
  { subst pending. eexists _, _. split; [by destruct r |]. intros q.
    unfold eligible. destruct (decide (q ∈ connected)); cbn; (split; [set_solver | done]). }
  destruct (foldl (announce info connected) (peer_announcements r, ∅) pending) as [announced batches] eqn:Hf.
  assert (Hview : forall q, announced_to announced q =
      list_to_set (eligible info connected q pending) ∪ announced_to (peer_announcements r) q /\
    batch_of batches q = firsts (announced_to (peer_announcements r) q) (eligible info connected q pending)).
  { intros q. pose proof (announce_all_view info connected pending (peer_announcements r, ∅) q) as Hv. rewrite Hf in Hv.
    unfold view in Hv. cbn [fst snd] in Hv. unfold batch_of in Hv at 2. rewrite lookup_empty in Hv. cbn [default app] in Hv.
    by injection Hv. }
  eexists _, _. split; [done |]. intros q. destruct (Hview q) as [Ha Hb]. split; [done |]. rewrite <- Hb.
  case_bool_decide as Hemp; [subst batches; cbn; unfold batch_of; by rewrite lookup_empty |]. apply announcements_batches.
Qed.

Lemma serve_contained txids q r :
  Forall (fun txid => tx_contains (tx_pool r) txid = true) txids -> txids <> [] ->
  on_get_data (map InvTransaction txids) q r = ServeTxs (map (fun txid => (txid, q)) txids).
Proof.
  intros Hall Hne. unfold on_get_data.
  assert (Ho : omap (fun item => match item with
    | InvTransaction txid => if tx_contains (tx_pool r) txid then Some (txid, q) else None
    | _ => None
    end) (map InvTransaction txids) = map (fun txid => (txid, q)) txids).
  { clear Hne. induction Hall as [| txid txids Hc _ IH]; [done |]. cbn. rewrite Hc. f_equal. exact IH. }
  rewrite Ho. rewrite bool_decide_eq_false_2; [done |]. by destruct txids.
Qed.

(** A tick announces to a peer exactly the pending transactions that the
    peer accepts - it is connected, relays transactions and its fee filter lets
    them pass - and that were not announced to it before, each once and in the
    order of the pool; they are recorded as announced, and only requests that
    timed out are forgotten.  All that was announced is served when the peer asks
    for it. *)
Lemma on_tick_spec info connected now r pending :
  tx_pending_broadcast (tx_pool r) = Ok pending ->
  exists r' act, on_tick info connected now r = Ok (r', act) /\ tx_pool r' = tx_pool r /\
    (forall q, announcements q act = firsts (announced_to (peer_announcements r) q) (eligible info connected q pending) /\
      announced_to (peer_announcements r') q =
        list_to_set (eligible info connected q pending) ∪ announced_to (peer_announcements r) q) /\
    (forall txid, requested_txs r' !! txid =
      match requested_txs r !! txid with
      | Some req => if decide (TX_REQUEST_TIMEOUT < now - requested_at req) then None else Some req
      | None => None
      end) /\
    (forall q, announcements q act <> [] ->
      on_get_data (map InvTransaction (announcements q act)) q r' = ServeTxs (map (fun txid => (txid, q)) (announcements q act))).
Proof.
  intros Hp. destruct (on_tick_run info connected now r pending Hp) as (announced & act & Hr & Hq).
  eexists _, act. split; [exact Hr |]. split; [done |]. split; [intros q; cbn; split; apply Hq |].
  split.
  - intros txid. cbn. rewrite map_lookup_filter. destruct (requested_txs r !! txid) as [req |]; [| done]. cbn.
    case_guard as Hg; case_decide; try done; cbn in Hg; lia.
  - intros q. destruct (Hq q) as [_ ->]. apply serve_contained. apply Forall_forall.
    intros txid [Hin _]%firsts_elem. eapply pending_contained; [exact Hp |]. revert Hin. unfold eligible.
    destruct (decide (q ∈ connected)); [| by intros ?%elem_of_nil].
    intros ([x fee] & -> & [_ Hx]%list_elem_of_filter)%list_elem_of_fmap. by apply (list_elem_of_fmap_2 fst pending (x, fee)).
Qed.

(** *** Histories *)

Inductive RelayEvent :=
| EvInv (inv : list Inventory) (from : PeerId) (now : Z)
| EvTick (info : I) (connected : list PeerId) (now : Z)
| EvValidate (tx : Transaction) (current_time now : Z)
| EvValidated (result : TxValidationResult) (received_from : PeerId)
| EvMark (txids : list bytes)
| EvDisconnected (peer : PeerId).

Definition relay_handle (ev : RelayEvent) r : res MempoolError (TxRelay P * TxAction) :=
  match ev with
  | EvInv inv from now => Ok (on_inv inv from now r)
  | EvTick info connected now => on_tick info connected now r
  | EvValidate tx current_time now => Ok ((relay_validate tx current_time now r).2, TxNone)
  | EvValidated result from => Ok (on_validated_tx result from r)
  | EvMark txids => Ok (relay_mark_broadcast txids r, TxNone)
  | EvDisconnected peer => Ok (on_peer_disconnected peer r, TxNone)
  end.

Fixpoint relay_run (evs : list RelayEvent) r : res MempoolError (TxRelay P * list TxAction) :=
  match evs with
  | [] => Ok (r, [])
  | ev :: evs =>
      '(r, act) ← relay_handle ev r;
      '(r, acts) ← relay_run evs r;
      Ok (r, act :: acts)
  end.

(** One event: what a peer hears is new to it, and recorded. *)
Lemma relay_handle_announced ev r r' act q :
  relay_handle ev r = Ok (r', act) -> ev <> EvDisconnected q ->
  NoDup (announcements q act) /\ (forall txid, txid ∈ announcements q act -> txid ∉ announced_to (peer_announcements r) q) /\
  list_to_set (announcements q act) ∪ announced_to (peer_announcements r) q ⊆ announced_to (peer_announcements r') q.
Proof.
  intros Hh Hne. assert (Hquiet : announcements q act = [] -> announced_to (peer_announcements r') q = announced_to (peer_announcements r) q ->
    NoDup (announcements q act) /\ (forall txid, txid ∈ announcements q act -> txid ∉ announced_to (peer_announcements r) q) /\
    list_to_set (announcements q act) ∪ announced_to (peer_announcements r) q ⊆ announced_to (peer_announcements r') q).
  { intros -> ->. split; [apply NoDup_nil_2 |]. split; [by intros ? ?%elem_of_nil | set_solver]. }
  destruct ev as [inv from now | info connected now | tx t now | result from | txids | peer]; cbn [relay_handle] in Hh.
  - injection Hh as Hh. unfold on_inv in Hh.
    pose proof (on_inv_loop_run inv from now r [] ltac:(cbn; unfold MAX_TX_REQUEST_BATCH; lia)) as Hrun. cbn zeta in Hrun.
    replace (request_all [] from now r) with r in Hrun by (by destruct r). rewrite Hrun in Hh.
    injection Hh as <- <-. apply Hquiet; [by case_bool_decide | done].
  - destruct (tx_pending_broadcast (tx_pool r)) as [pending | |] eqn:Hp.
    2, 3: unfold on_tick in Hh; change (tx_pool (cleanup_timeouts now r)) with (tx_pool r) in Hh; by rewrite Hp in Hh.
    destruct (on_tick_run info connected now r pending Hp) as (announced & act' & Hr & Hq).
    rewrite Hr in Hh. injection Hh as <- <-. cbn. destruct (Hq q) as [-> ->]. split; [apply firsts_nodup |].
    split; [by intros txid [_ ?]%firsts_elem |]. intros txid [[Hin _]%elem_of_list_to_set%firsts_elem | Hin]%elem_of_union;
      set_solver.
  - injection Hh as <- <-. apply Hquiet; [done |]. unfold relay_validate. by destruct (tx_validate tx t now (tx_pool r)).
  - destruct result; injection Hh as <- <-; (apply Hquiet; [| done]); [done | by case_match].
  - injection Hh as <- <-. by apply Hquiet.
  - injection Hh as <- <-. apply Hquiet; [done |]. unfold announced_to. cbn. by rewrite lookup_delete_ne by congruence.
Qed.

(** C25: Whatever happens, a transaction is announced to a peer at most once as
    long as the peer does not disconnect, and never if it was announced
    before. *)
Theorem announced_once evs r r' acts q :
  relay_run evs r = Ok (r', acts) -> EvDisconnected q ∉ evs ->
  NoDup (concat (map (announcements q) acts)) /\
  (forall txid, txid ∈ concat (map (announcements q) acts) -> txid ∉ announced_to (peer_announcements r) q) /\
  list_to_set (concat (map (announcements q) acts)) ⊆ announced_to (peer_announcements r') q.
Proof.
  enough (Hgen : relay_run evs r = Ok (r', acts) -> EvDisconnected q ∉ evs ->
    NoDup (concat (map (announcements q) acts)) /\
    (forall txid, txid ∈ concat (map (announcements q) acts) -> txid ∉ announced_to (peer_announcements r) q) /\
    list_to_set (concat (map (announcements q) acts)) ∪ announced_to (peer_announcements r) q ⊆ announced_to (peer_announcements r') q).
  { intros Hr Hq. destruct (Hgen Hr Hq) as (? & ? & ?). split; [done |]. split; [done | set_solver]. }
  revert r acts. induction evs as [| ev evs IH]; intros r acts; cbn [relay_run].
  { intros [= <- <-] _. cbn. split; [apply NoDup_nil_2 |]. split; [by intros ? ?%elem_of_nil | set_solver]. }
  intros ([r1 act] & Hh & ([r2 acts2] & Hr & [= <- <-])%bind_Ok)%bind_Ok [Hne Hnin]%not_elem_of_cons.
  destruct (relay_handle_announced ev r r1 act q Hh (not_eq_sym Hne)) as (Hnd & Hnew & Hrec).
  destruct (IH r1 acts2 Hr Hnin) as (Hnd' & Hnew' & Hrec'). cbn [map concat]. split; [| split].
  - apply NoDup_app. split; [done |]. split; [| done]. intros txid H1 H2%Hnew'. set_solver.
  - intros txid [H1 | H1]%elem_of_app; [by apply Hnew |]. apply Hnew' in H1. set_solver.
  - rewrite list_to_set_app_L. set_solver.
Qed.
End facts.

(** ** A concrete history *)

Module SampleRelay.
Import (hints) Sample SampleTx SampleChain SamplePool SampleView SampleOrder.
Import SampleMempool.

#[local] Existing Instance sample_sighash.
#[export] Instance pool : TxPool MemPool := mempool_impl SampleChain.client.
#[export] Instance pool_laws : TxPoolLaws MemPool := mempool_laws SampleChain.client.

(** Peers: the first two relay transactions, the second only for a high fee. *)
Definition peer (n : Z) : PeerId := PeerV4 n 8333.
#[export] Instance peer_info : PeerTxRelayInfo unit := {|
  peer_wants_tx_relay _ p := bool_decide (p = peer 1 \/ p = peer 2);
  get_fee_filter _ p := if decide (p = peer 2) then Some 1000000000 else None;
|}.

Definition parent_id : bytes := SampleTx.txid parent.

(** A transaction is announced by a peer, requested, received and announced. *)
Definition history : list (RelayEvent (I := unit)) :=
  [EvInv [InvTransaction parent_id; InvTransaction parent_id; InvBlock [1]] (peer 1) 0;
   EvValidate parent 1000 1000;
   EvValidated (Accepted parent_id 0) (peer 1);
   EvTick tt [peer 1; peer 2; peer 3] 1;
   EvTick tt [peer 1; peer 2; peer 3] 2].
End SampleRelay.
Import SampleRelay SampleMempool.
Import (hints) Sample SampleTx SampleChain SamplePool SampleView SampleOrder.
#[local] Existing Instance sample_sighash.

Lemma on_tick_spec_witness :
  exists r' act, on_tick tt [peer 1; peer 2] 0 (relay_new with_child) = Ok (r', act) /\
    length (announcements (peer 1) act) = 2%nat /\ announcements (peer 2) act = [] /\ announcements (peer 3) act = [].
Proof.
  set (pending := from_ok [] (tx_pending_broadcast with_child)).
  assert (Hp : tx_pending_broadcast (tx_pool (relay_new with_child)) = Ok pending).
  { apply (from_ok_eq [] (tx_pending_broadcast with_child)). vm_compute. reflexivity. }
  destruct (on_tick_spec tt [peer 1; peer 2] 0 (relay_new with_child) pending Hp) as (r' & act & Hr & _ & Hq & _).
  exists r', act. split; [exact Hr |].
  destruct (Hq (peer 1)) as [-> _]. destruct (Hq (peer 2)) as [-> _]. destruct (Hq (peer 3)) as [-> _].
  split_and!; vm_compute; reflexivity.
Defined.

Lemma announced_once_witness :
  exists r' acts, relay_run history (relay_new start) = Ok (r', acts) /\
    length (concat (map (announcements (peer 1)) acts)) = 1%nat /\
    list_to_set (concat (map (announcements (peer 1)) acts)) ⊆ announced_to (peer_announcements r') (peer 1).
Proof.
  set (run := from_ok (relay_new start, []) (relay_run history (relay_new start))).
  assert (Hr : relay_run history (relay_new start) = Ok run).
  { apply (from_ok_eq (relay_new start, []) (relay_run history (relay_new start))). vm_compute. reflexivity. }
  assert (Hl : length (concat (map (announcements (peer 1)) run.2)) = 1%nat) by (vm_compute; reflexivity).
  destruct run as [r' acts]. exists r', acts. split; [exact Hr |]. split; [exact Hl |].
  assert (Hq : EvDisconnected (peer 1) ∉ history).
  { unfold history. rewrite !elem_of_cons, elem_of_nil. intuition discriminate. }
  apply (announced_once history (relay_new start) r' acts (peer 1) Hr Hq).
Defined.
