(* ===== verification/PeerStore.v ===== *)
(** * Known peers ([crates/subcoin-network/src/peer_store.rs], [address_book.rs])

    The store of peers on disk with its messages, and the addresses that peers
    announce. *)

From Stdlib Require Import ZArith Lia Sorted.
From stdpp Require Import prelude gmap sorting.
From S2P Require Import Prelude Bitcoin Collections MempoolTypes NetworkTypes.

(** [slice::sort_by] with a comparison function: the result is a permutation;
    when the function is no total order the sort may panic ([None]) or leave any
    order. *)
Class SortBy := { sort_by : forall {A : Type}, (A -> A -> comparison) -> list A -> option (list A) }.

(** The comparison orders the elements of the list, which are distinct. *)
Record orders {A : Type} (cmp : A -> A -> comparison) (l : list A) : Prop := {
  ord_total x y : x ∈ l -> y ∈ l -> x <> y -> cmp x y = Lt /\ cmp y x = Gt \/ cmp x y = Gt /\ cmp y x = Lt;
  ord_trans x y z : x ∈ l -> y ∈ l -> z ∈ l -> cmp x y = Lt -> cmp y z = Lt -> cmp x z = Lt;
}.

Class SortByLaws `{SortBy} : Prop := {
  sort_by_perm {A : Type} (cmp : A -> A -> comparison) l l' : sort_by cmp l = Some l' -> l' ≡ₚ l;
  sort_by_sorted {A : Type} (cmp : A -> A -> comparison) l : NoDup l -> orders cmp l ->
    exists l', sort_by cmp l = Some l' /\ StronglySorted (fun x y => cmp x y = Lt) l';
}.

Definition MAX_CAPACITY : Z := 20.
Definition SAVE_INTERVAL : Z := 60 * 5.

Record PeerStats := mk_stats {
  latency : Z;
  last_seen : Z;
  ps_downloaded_blocks_count : Z;
  failure_count : Z;
}.

#[export] Instance PeerStats_eq_dec : EqDecision PeerStats.
Proof. solve_decision. Defined.

Definition is_better_than (s o : PeerStats) : bool :=
  if negb (failure_count s =? failure_count o) then failure_count s <? failure_count o
  else if negb (ps_downloaded_blocks_count s =? ps_downloaded_blocks_count o)
  then ps_downloaded_blocks_count o <? ps_downloaded_blocks_count s
  else if negb (latency s =? latency o) then latency s <? latency o
  else last_seen o <? last_seen s.

(** The handle: it sends messages. *)
Definition try_add_peer (persistent_peer_latency_threshold : Z) (peer : PeerId) (lat now : Z) : list PeerStoreMessage :=
  if lat <? persistent_peer_latency_threshold then [StorePeer peer lat now] else [].
Definition handle_remove_peer (peer : PeerId) : list PeerStoreMessage := [RemovePeer peer].
Definition record_block_download (peer : PeerId) : list PeerStoreMessage := [RecordBlockDownload peer].
Definition record_failure (peer : PeerId) : list PeerStoreMessage := [RecordFailure peer].

Record PersistentPeerStore := mk_store {
  ps_peers : gmap PeerId PeerStats;
  sorted_peers : list PeerId;
  peers_changed : bool;
  ps_capacity : Z;
  last_saved_at : Z;
}.

Section store.
Context `{!HashOrder, !SortBy} {E : Type}.
Implicit Types (s : PersistentPeerStore).

(** The peers read from the file, none when it cannot be read. *)
Definition store_new (loaded : option (gmap PeerId PeerStats)) (capacity now : Z) : PersistentPeerStore * list PeerId :=
  let peers := default ∅ loaded in
  let persistent_peers := hash_iter (dom peers) in
  (mk_store peers persistent_peers false (capacity `min` MAX_CAPACITY) now, persistent_peers).

Definition quality (peers : gmap PeerId PeerStats) (a b : PeerId) : comparison :=
  match peers !! a, peers !! b with
  | Some x, Some y => if is_better_than x y then Lt else Gt
  | _, _ => Gt
  end.

Definition update_sorted_peers s : res E PersistentPeerStore :=
  peer_ids ← expect (sort_by (quality (ps_peers s)) (hash_iter (dom (ps_peers s))));
  Ok (mk_store (ps_peers s) peer_ids (peers_changed s) (ps_capacity s) (last_saved_at s)).

(** [saved] tells whether the file can be written. *)
Definition process_peer_set_changes (saved : bool) (now : Z) s : res E PersistentPeerStore :=
  s ← update_sorted_peers s;
  Ok (if peers_changed s && (SAVE_INTERVAL <? now - last_saved_at s) && saved
      then mk_store (ps_peers s) (sorted_peers s) false (ps_capacity s) now
      else s).

Definition set_peers (peers : gmap PeerId PeerStats) (sorted : list PeerId) (changed : bool) s : PersistentPeerStore :=
  mk_store peers sorted changed (ps_capacity s) (last_saved_at s).

(** Room for a new peer: the store, or [None] when the peer is not added. *)
Definition make_room (new_peer : PeerStats) s : option PersistentPeerStore :=
  match sorted_peers s with
  | lowest_peer_id :: rest =>
      if ps_capacity s <=? Z.of_nat (size (ps_peers s)) then
        match ps_peers s !! lowest_peer_id with
        | Some lowest_peer =>
            if is_better_than new_peer lowest_peer
            then Some (set_peers (delete lowest_peer_id (ps_peers s)) rest (peers_changed s) s) else None
        | None => None
        end
      else Some s
  | [] => Some s
  end.

Definition store_peer (peer : PeerId) (lat seen : Z) (saved : bool) (now : Z) s : res E PersistentPeerStore :=
  match ps_peers s !! peer with
  | Some p =>
      process_peer_set_changes saved now
        (set_peers (<[peer := mk_stats lat seen (ps_downloaded_blocks_count p) (failure_count p)]> (ps_peers s))
           (sorted_peers s) true s)
  | None =>
      let new_peer := mk_stats lat seen 0 0 in
      match make_room new_peer s with
      | Some s => process_peer_set_changes saved now (set_peers (<[peer := new_peer]> (ps_peers s)) (sorted_peers s) true s)
      | None => Ok s
      end
  end.

Definition remove_peer (peer : PeerId) (saved : bool) (now : Z) s : res E PersistentPeerStore :=
  match ps_peers s !! peer with
  | Some _ => process_peer_set_changes saved now (set_peers (delete peer (ps_peers s)) (sorted_peers s) true s)
  | None => Ok s
  end.

(** One message of the loop [run]. *)
Definition run_message (msg : PeerStoreMessage) (saved : bool) (now : Z) s : res E PersistentPeerStore :=
  match msg with
  | StorePeer peer lat seen => store_peer peer lat seen saved now s
  | RemovePeer peer => remove_peer peer saved now s
  | RecordBlockDownload peer =>
      match ps_peers s !! peer with
      | Some p =>
          n ← add_u64 (ps_downloaded_blocks_count p) 1;
          process_peer_set_changes saved now
            (set_peers (<[peer := mk_stats (latency p) (last_seen p) n (failure_count p)]> (ps_peers s)) (sorted_peers s) true s)
      | None => Ok s
      end
  | RecordFailure peer =>
      match ps_peers s !! peer with
      | Some p =>
          n ← add_u64 (failure_count p) 1;
          process_peer_set_changes saved now
            (set_peers (<[peer := mk_stats (latency p) (last_seen p) (ps_downloaded_blocks_count p) n]> (ps_peers s))
               (sorted_peers s) true s)
      | None => Ok s
      end
  end.

Definition run_store (msgs : list (PeerStoreMessage * bool * Z)) s : res E PersistentPeerStore :=
  rfold (fun '(msg, saved, now) s => run_message msg saved now s) msgs s.
End store.

(** ** Quality *)

(** The documented criteria, in order. *)
Definition better (s o : PeerStats) : Prop :=
  failure_count s < failure_count o \/
  failure_count s = failure_count o /\
    (ps_downloaded_blocks_count o < ps_downloaded_blocks_count s \/
     ps_downloaded_blocks_count s = ps_downloaded_blocks_count o /\
       (latency s < latency o \/ latency s = latency o /\ last_seen o < last_seen s)).

Lemma is_better_than_iff s o : is_better_than s o = true <-> better s o.
Proof.
  unfold is_better_than, better. repeat (case_match; bools); rewrite ?Z.ltb_lt; lia.
Qed.

Lemma better_trans s o t : better s o -> better o t -> better s t.
Proof. unfold better. lia. Qed.

Lemma better_total s o : better s o \/ s = o \/ better o s.
Proof.
  destruct s as [l1 s1 d1 f1], o as [l2 s2 d2 f2]. unfold better. cbn.
  destruct (Z.lt_trichotomy f1 f2) as [? | [-> | ?]]; [tauto | | tauto].
  destruct (Z.lt_trichotomy d1 d2) as [? | [-> | ?]]; [tauto | | tauto].
  destruct (Z.lt_trichotomy l1 l2) as [? | [-> | ?]]; [tauto | | tauto].
  destruct (Z.lt_trichotomy s1 s2) as [? | [-> | ?]]; tauto.
Qed.

Lemma better_irrefl s : ~ better s s.
Proof. unfold better. lia. Qed.

(** ** Invariant *)

Section facts.
Context `{!HashOrder, !HashOrderLaws, !SortBy, !SortByLaws} {E : Type}.
Implicit Types (s : PersistentPeerStore).

(** The sorted list holds exactly the stored peers, within the capacity; a store
    without capacity still holds one peer. *)
Record store_wf s : Prop := {
  sw_sorted : sorted_peers s ≡ₚ elements (dom (ps_peers s));
  sw_capacity : Z.of_nat (size (ps_peers s)) <= 1 `max` ps_capacity s;
}.

Lemma process_run saved now s s' :
  process_peer_set_changes (E := E) saved now s = Ok s' ->
  ps_peers s' = ps_peers s /\ ps_capacity s' = ps_capacity s /\ sorted_peers s' ≡ₚ elements (dom (ps_peers s)).
Proof.
  unfold process_peer_set_changes, update_sorted_peers. intros (s1 & (l & Hl%expect_Ok & [= <-])%bind_Ok & [= <-])%bind_Ok.
  apply sort_by_perm in Hl. rewrite hash_iter_elements in Hl. case_match; cbn; done.
Qed.

Lemma process_wf saved now s s' :
  process_peer_set_changes (E := E) saved now s = Ok s' ->
  Z.of_nat (size (ps_peers s)) <= 1 `max` ps_capacity s -> store_wf s'.
Proof. intros (Hp & Hc & Hs)%process_run Hsize. split; rewrite Hp; [done | by rewrite Hc]. Qed.

Lemma size_update (m : gmap PeerId PeerStats) p x y : m !! p = Some y -> size (<[p := x]> m) = size m.
Proof. intros Hp. apply map_size_insert_Some. eauto. Qed.

Lemma make_room_size new_peer s s1 :
  store_wf s -> make_room new_peer s = Some s1 ->
  (Z.of_nat (size (ps_peers s1)) < 1 `max` ps_capacity s) /\ ps_capacity s1 = ps_capacity s /\ ps_peers s1 ⊆ ps_peers s.
Proof.
  intros [Hs Hc]. unfold make_room. destruct (sorted_peers s) as [| lowest rest] eqn:Hl.
  - intros [= <-]. assert (Hd : elements (dom (ps_peers s)) = []) by (symmetry; by apply Permutation_nil_l).
    apply elements_empty_inv, leibniz_equiv, dom_empty_iff_L in Hd. rewrite Hd, map_size_empty. split; [lia | done].
  - destruct (ps_capacity s <=? Z.of_nat (size (ps_peers s))) eqn:Hfull; bools; [| intros [= <-]; split; [lia | done]].
    destruct (ps_peers s !! lowest) as [x |] eqn:Hx; [| done]. destruct (is_better_than new_peer x); [| done]. intros [= <-]. cbn.
    rewrite map_size_delete_Some by eauto. assert (size (ps_peers s) <> 0%nat).
    { intros Hz%map_size_empty_inv. by rewrite Hz, lookup_empty in Hx. }
    split; [lia |]. split; [done | apply delete_subseteq].
Qed.

Lemma run_message_wf msg saved now s s' : store_wf s -> run_message (E := E) msg saved now s = Ok s' -> store_wf s'.
Proof.
  intros Hwf. pose proof (sw_capacity s Hwf) as Hc. destruct msg as [peer lat seen | peer | peer | peer]; cbn [run_message].
  - unfold store_peer. destruct (ps_peers s !! peer) as [p |] eqn:Hp.
    + intros Hr%process_wf; [done |]. cbn. by erewrite size_update.
    + destruct (make_room (mk_stats lat seen 0 0) s) as [s1 |] eqn:Hroom; [| by intros [= <-]].
      destruct (make_room_size _ s s1 Hwf Hroom) as (Hlt & Hcap & Hsub).
      intros Hr%process_wf; [done |]. cbn. rewrite Hcap. rewrite map_size_insert_None; [lia |].
      apply eq_None_not_Some. intros [x Hx]. apply (lookup_weaken _ _ _ _ Hx) in Hsub. congruence.
  - unfold remove_peer. destruct (ps_peers s !! peer) as [p |] eqn:Hp; [| by intros [= <-]].
    intros Hr%process_wf; [done |]. cbn. rewrite map_size_delete_Some by eauto. lia.
  - destruct (ps_peers s !! peer) as [p |] eqn:Hp; [| by intros [= <-]].
    intros (n & _ & Hr%process_wf)%bind_Ok; [done |]. cbn. by erewrite size_update.
  - destruct (ps_peers s !! peer) as [p |] eqn:Hp; [| by intros [= <-]].
    intros (n & _ & Hr%process_wf)%bind_Ok; [done |]. cbn. by erewrite size_update.
Qed.

Lemma run_store_wf msgs s s' : store_wf s -> run_store (E := E) msgs s = Ok s' -> store_wf s'.
Proof. intros Hwf. apply rfold_inv; [| done]. intros [[msg saved] now] x x'. apply run_message_wf. Qed.

(** ** The order *)

(** No two peers have the same statistics. *)
Definition distinct_stats (m : gmap PeerId PeerStats) : Prop :=
  forall p q x, m !! p = Some x -> m !! q = Some x -> p = q.

Lemma quality_lt m p q x y : m !! p = Some x -> m !! q = Some y -> quality m p q = Lt <-> better x y.
Proof.
  intros Hp Hq. unfold quality. rewrite Hp, Hq, <- is_better_than_iff. by destruct (is_better_than x y).
Qed.

Lemma quality_orders m : distinct_stats m -> orders (quality m) (elements (dom m)).
Proof.
  intros Hd. assert (Hin : forall p, p ∈ elements (dom m) -> exists x, m !! p = Some x).
  { intros p. rewrite elem_of_elements, elem_of_dom. by intros [x Hx]; exists x. }
  assert (Hgt : forall p q, quality m p q = Gt <-> quality m p q <> Lt).
  { intros p q. unfold quality. repeat case_match; split; done. }
  split.
  - intros p q [x Hx]%Hin [y Hy]%Hin Hne. rewrite !Hgt, !(quality_lt m _ _ _ _ Hx Hy), !(quality_lt m _ _ _ _ Hy Hx).
    destruct (better_total x y) as [Hb | [-> | Hb]].
    + left. split; [done |]. intros Hb'. apply (better_irrefl x). by eapply better_trans.
    + exfalso. apply Hne. by eapply Hd.
    + right. split; [| done]. intros Hb'. apply (better_irrefl x). by eapply better_trans.
  - intros p q t [x Hx]%Hin [y Hy]%Hin [z Hz]%Hin. rewrite (quality_lt m p q x y), (quality_lt m q t y z), (quality_lt m p t x z) by done.
    apply better_trans.
Qed.

Lemma quality_orders_perm m l : distinct_stats m -> l ≡ₚ elements (dom m) -> orders (quality m) l.
Proof.
  intros Hd Hp. destruct (quality_orders m Hd) as [Ht Htr]. split.
  - intros x y Hx Hy. rewrite Hp in Hx, Hy. by apply Ht.
  - intros x y z Hx Hy Hz. rewrite Hp in Hx, Hy, Hz. by apply Htr.
Qed.

(** With distinct statistics the sort succeeds, best peer first. *)
Lemma process_sorts saved now s :
  distinct_stats (ps_peers s) ->
  exists s', process_peer_set_changes (E := E) saved now s = Ok s' /\ ps_peers s' = ps_peers s /\
    StronglySorted (fun p q => quality (ps_peers s) p q = Lt) (sorted_peers s').
Proof.
  intros Hd. destruct (sort_by_sorted (quality (ps_peers s)) (hash_iter (dom (ps_peers s)))) as (l & Hl & Hsorted).
  { apply hash_iter_nodup. }
  { apply quality_orders_perm; [done | apply hash_iter_elements]. }
  unfold process_peer_set_changes, update_sorted_peers. rewrite Hl. cbn [expect]. rbind.
  eexists. split; [done |]. by case_match.
Qed.

(** The head of the sorted list is the best stored peer. *)
Lemma head_is_best s best rest x :
  store_wf s -> StronglySorted (fun p q => quality (ps_peers s) p q = Lt) (sorted_peers s) ->
  sorted_peers s = best :: rest -> ps_peers s !! best = Some x ->
  forall p y, ps_peers s !! p = Some y -> p <> best -> better x y.
Proof.
  intros Hwf Hs Hl Hx p y Hy Hne. rewrite Hl in Hs. apply StronglySorted_inv in Hs as [_ Hall].
  assert (Hin : p ∈ rest).
  { assert (Hp : p ∈ sorted_peers s) by (rewrite (sw_sorted s Hwf), elem_of_elements, elem_of_dom; eauto).
    rewrite Hl in Hp. by apply elem_of_cons in Hp as [-> |]. }
  rewrite Forall_forall in Hall. apply Hall in Hin. by apply (quality_lt _ best p x y) in Hin.
Qed.

Lemma store_new_wf loaded capacity now :
  Z.of_nat (size (default ∅ loaded)) <= 1 `max` (capacity `min` MAX_CAPACITY) -> store_wf (store_new loaded capacity now).1.
Proof. intros Hs. split; cbn; [apply hash_iter_elements | exact Hs]. Qed.

(** The comment says that a full store replaces its lowest quality peer, but
    the list is sorted with the best peer first: a new peer is refused unless it
    is better than every stored peer, and when it is, the best stored peer is
    dropped and all worse ones are kept.  Along any messages the sorted list
    holds the stored peers and the capacity is respected. *)
Lemma full_store_drops_best loaded capacity now0 msgs s peer lat seen saved now :
  Z.of_nat (size (default ∅ loaded)) <= 1 `max` (capacity `min` MAX_CAPACITY) ->
  run_store (E := E) msgs (store_new loaded capacity now0).1 = Ok s ->
  StronglySorted (fun p q => quality (ps_peers s) p q = Lt) (sorted_peers s) ->
  ps_capacity s <= Z.of_nat (size (ps_peers s)) -> ps_peers s !! peer = None ->
  distinct_stats (<[peer := mk_stats lat seen 0 0]> (ps_peers s)) -> ps_peers s <> ∅ ->
  sorted_peers s ≡ₚ elements (dom (ps_peers s)) /\ Z.of_nat (size (ps_peers s)) <= 1 `max` ps_capacity s /\
  exists best x, ps_peers s !! best = Some x /\ (forall p y, ps_peers s !! p = Some y -> p <> best -> better x y) /\
    exists s', store_peer (E := E) peer lat seen saved now s = Ok s' /\
      if decide (forall p y, ps_peers s !! p = Some y -> is_better_than (mk_stats lat seen 0 0) y = true)
      then ps_peers s' = <[peer := mk_stats lat seen 0 0]> (delete best (ps_peers s)) else s' = s.
Proof.
  intros Hsize Hrun Hsorted Hfull Hnew Hd Hne. set (n := mk_stats lat seen 0 0) in *.
  assert (Hwf : store_wf s) by (eapply run_store_wf; [by apply store_new_wf | exact Hrun]).
  split; [apply Hwf |]. split; [apply Hwf |].
  destruct (sorted_peers s) as [| best rest] eqn:Hl.
  { exfalso. apply Hne. pose proof (sw_sorted s Hwf) as Hp. rewrite Hl in Hp. symmetry in Hp.
    apply Permutation_nil_r, elements_empty_inv, leibniz_equiv, dom_empty_iff_L in Hp. done. }
  assert (Hbest : exists x, ps_peers s !! best = Some x).
  { assert (Hin : best ∈ sorted_peers s) by (rewrite Hl; left). rewrite (sw_sorted s Hwf), elem_of_elements, elem_of_dom in Hin.
    by destruct Hin as [x Hx]; exists x. }
  destruct Hbest as [x Hx]. rewrite <- Hl in Hsorted. pose proof (head_is_best s best rest x Hwf Hsorted Hl Hx) as Hb.
  exists best, x. split; [done |]. split; [done |]. unfold store_peer. fold n. rewrite Hnew.
  unfold make_room. rewrite Hl, Hx. rewrite (proj2 (Z.leb_le _ _) Hfull).
  destruct (is_better_than n x) eqn:Hnx.
  - destruct (process_sorts saved now (set_peers (<[peer := n]> (delete best (ps_peers s))) rest true
      (set_peers (delete best (ps_peers s)) rest (peers_changed s) s))) as (s' & Hs' & Hp' & _).
    { cbn. intros p q y. rewrite !lookup_insert_Some. intros Hpy Hqy. apply (Hd p q y); apply lookup_insert_Some.
      - destruct Hpy as [? | [? [_ ?]%lookup_delete_Some]]; [by left | by right].
      - destruct Hqy as [? | [? [_ ?]%lookup_delete_Some]]; [by left | by right]. }
    exists s'. split; [exact Hs' |]. rewrite decide_True; [exact Hp' |].
    intros p y Hy. destruct (decide (p = best)) as [-> | Hpb]; [congruence |].
    apply is_better_than_iff. apply is_better_than_iff in Hnx. eapply better_trans; [exact Hnx | by eapply Hb].
  - exists s. split; [done |]. rewrite decide_False; [done |]. intros Hall. specialize (Hall best x Hx). congruence.
Qed.
End facts.

(** ** A concrete store *)

Module SampleSort.
Section sort.
Context {A : Type} (cmp : A -> A -> comparison).

Fixpoint insert_by (x : A) (l : list A) : list A :=
  match l with
  | [] => [x]
  | y :: l => match cmp x y with Gt => y :: insert_by x l | _ => x :: y :: l end
  end.

Lemma insert_by_perm x l : insert_by x l ≡ₚ x :: l.
Proof. induction l as [| y l IH]; cbn; [done |]. case_match; [done | done |]. rewrite IH. constructor. Qed.

Lemma insert_by_sorted x l :
  x ∉ l -> orders cmp (x :: l) -> StronglySorted (fun x y => cmp x y = Lt) l ->
  StronglySorted (fun x y => cmp x y = Lt) (insert_by x l).
Proof.
  induction l as [| y l IH]; intros Hnin Ho Hs; cbn; [by repeat constructor |].
  apply StronglySorted_inv in Hs as [Hs Hall]. apply not_elem_of_cons in Hnin as [Hne Hnin].
  destruct Ho as [Ht Htr]. rewrite Forall_forall in Hall. destruct (Ht x y) as [[Hxy Hyx] | [Hxy Hyx]]; [set_solver.. | |].
  - rewrite Hxy. constructor; [constructor; [done | by apply Forall_forall] |]. apply Forall_forall.
    intros z [-> | Hz]%elem_of_cons; [done |]. apply (Htr x y z); [set_solver.. | by apply Hall].
  - rewrite Hxy. constructor.
    + apply IH; [done | | done]. split; [intros u v ? ?; apply Ht | intros u v w ? ? ?; apply Htr]; set_solver.
    + rewrite insert_by_perm. constructor; [done | by apply Forall_forall].
Qed.
End sort.

#[export] Instance insertion_sort : SortBy := {| sort_by A cmp l := Some (foldr (insert_by cmp) [] l) |}.

#[export] Instance insertion_sort_laws : SortByLaws.
Proof.
  assert (Hperm : forall A (cmp : A -> A -> comparison) l, foldr (insert_by cmp) [] l ≡ₚ l).
  { intros A cmp l. induction l as [| x l IH]; cbn; [done |]. by rewrite insert_by_perm, IH. }
  split; cbn.
  - intros A cmp l l' [= <-]. apply Hperm.
  - intros A cmp l Hnd Ho. eexists. split; [done |]. induction Hnd as [| x l Hnin Hnd IH]; cbn; [constructor |].
    assert (Hl : orders cmp l).
    { destruct Ho as [Ht Htr]. split; [intros u v ? ?; apply Ht | intros u v w ? ? ?; apply Htr]; set_solver. }
    apply insert_by_sorted; [by rewrite Hperm | | by apply IH]. destruct Ho as [Ht Htr].
    split; [intros u v; rewrite !Hperm; apply Ht | intros u v w; rewrite !Hperm; apply Htr].
Qed.
End SampleSort.

Module StoreWitness.
Import SampleOrder SampleSort.

Definition peer (n : Z) : PeerId := PeerV4 n 8333.
(** Two peers fill the store; a third one has the lowest latency. *)
Definition messages : list (PeerStoreMessage * bool * Z) :=
  [(StorePeer (peer 1) 10 5, false, 0); (StorePeer (peer 2) 20 5, false, 0)].
Definition full : PersistentPeerStore := from_ok (store_new None 0 0).1 (run_store (E := Empty_set) messages (store_new None 2 0).1).

Lemma full_store_drops_best_witness :
  exists s', store_peer (E := Empty_set) (peer 3) 5 5 false 0 full = Ok s' /\
    ps_peers full !! peer 1 = Some (mk_stats 10 5 0 0) /\ better (mk_stats 10 5 0 0) (mk_stats 20 5 0 0) /\
    ps_peers s' !! peer 1 = None /\ ps_peers s' !! peer 2 = Some (mk_stats 20 5 0 0) /\
    ps_peers s' !! peer 3 = Some (mk_stats 5 5 0 0).
Proof.
  assert (Hrun : run_store (E := Empty_set) messages (store_new None 2 0).1 = Ok full).
  { apply (from_ok_eq (store_new None 0 0).1 (run_store (E := Empty_set) messages (store_new None 2 0).1)).
    vm_compute. reflexivity. }
  assert (Hpeers : ps_peers full = <[peer 2 := mk_stats 20 5 0 0]> (<[peer 1 := mk_stats 10 5 0 0]> ∅)) by (vm_compute; reflexivity).
  assert (Hsorted : StronglySorted (fun p q => quality (ps_peers full) p q = Lt) (sorted_peers full)).
  { vm_compute. repeat constructor. }
  assert (Hd : distinct_stats (<[peer 3 := mk_stats 5 5 0 0]> (ps_peers full))).
  { rewrite Hpeers. intros p q x. rewrite !lookup_insert_Some, !lookup_empty. intuition congruence. }
  destruct (full_store_drops_best (E := Empty_set) None 2 0 messages full (peer 3) 5 5 false 0
    ltac:(vm_compute; discriminate) Hrun Hsorted ltac:(vm_compute; discriminate) ltac:(vm_compute; reflexivity) Hd
    ltac:(rewrite Hpeers; apply insert_non_empty)) as (_ & _ & best & x & Hx & Hbest & s' & Hs' & Hdec).
  exists s'. split; [exact Hs' |]. split; [vm_compute; reflexivity |]. split; [unfold better; cbn; lia |].
  rewrite decide_True in Hdec.
  2: { intros p y. rewrite Hpeers, !lookup_insert_Some, lookup_empty. intros [[_ <-] | [_ [[_ <-] | [_ Hnone]]]];
    [reflexivity | reflexivity | discriminate Hnone]. }
  assert (Hb : best = peer 1).
  { destruct (decide (best = peer 1)) as [| Hne]; [done |]. exfalso.
    assert (H1 : ps_peers full !! peer 1 = Some (mk_stats 10 5 0 0)) by (vm_compute; reflexivity).
    specialize (Hbest (peer 1) (mk_stats 10 5 0 0) H1 (not_eq_sym Hne)). clear Hrun Hsorted Hd Hs' Hdec H1.
    rewrite Hpeers, !lookup_insert_Some, lookup_empty in Hx. destruct Hx as [[_ <-] | [_ [[Hp1 _] | [_ Hnone]]]]; [| by apply Hne; rewrite <- Hp1 | discriminate Hnone].
    unfold better in Hbest. cbn in Hbest. lia. }
  subst best. rewrite Hdec, Hpeers. split_and!; vm_compute; reflexivity.
Defined.
End StoreWitness.

(** ** The address book ([crates/subcoin-network/src/address_book.rs])

    Addresses learnt from peers: those that can be tried, those in use and those
    that failed.  The random choice is a parameter. *)

(** [fastrand::Rng::choice] over an iterator. *)
Class RandomChoice := { choice : list PeerId -> option PeerId }.
Class RandomChoiceLaws `{RandomChoice} : Prop := {
  choice_in l p : choice l = Some p -> p ∈ l;
  choice_some l : l <> [] -> is_Some (choice l);
}.

(** [bitcoin::p2p::address::Address]: the services and the socket address, if
    the bytes denote one. *)
Record Address := mk_address { a_services : Z; socket_addr : option PeerId }.

(** [AddrV2Message]: an address of another kind is not used. *)
Inductive AddrV2 := AddrIpv4 (ip : Z) | AddrIpv6 (ip : Z) | AddrOther.
Record AddrV2Message := mk_addr_v2 { v2_services : Z; v2_addr : AddrV2; v2_port : Z }.

Record AddressBook := mk_book {
  discovered_addresses : gset PeerId;
  active_addresses : gset PeerId;
  failed_addresses : gset PeerId;
  ipv4_only : bool;
  max_addresses : Z;
}.

Section book.
Context `{!RandomChoice, !HashOrder}.
Implicit Types (s : AddressBook).

Definition book_new (ipv4 : bool) (max : Z) : AddressBook := mk_book ∅ ∅ ∅ ipv4 max.

Definition available_addresses_count s : Z := Z.of_nat (size (discovered_addresses s)).
Definition has_max_addresses s : bool := max_addresses s <=? Z.of_nat (size (discovered_addresses s)).

Definition pop s : AddressBook * option PeerId :=
  match choice (hash_iter (discovered_addresses s)) with
  | Some peer =>
      (mk_book (discovered_addresses s ∖ {[ peer ]}) ({[ peer ]} ∪ active_addresses s) (failed_addresses s)
         (ipv4_only s) (max_addresses s), Some peer)
  | None => (s, None)
  end.

Definition note_failed_address (peer : PeerId) s : AddressBook :=
  mk_book (discovered_addresses s) (active_addresses s ∖ {[ peer ]}) ({[ peer ]} ∪ failed_addresses s)
    (ipv4_only s) (max_addresses s).

Definition mark_disconnected (peer : PeerId) s : AddressBook :=
  mk_book (discovered_addresses s) (active_addresses s ∖ {[ peer ]}) (failed_addresses s) (ipv4_only s) (max_addresses s).

Definition should_add_address s (from new_addr : PeerId) : bool :=
  if bool_decide (from = new_addr) then false
  else if ipv4_only s && is_ipv6 new_addr then false
  else negb (bool_decide (new_addr ∈ failed_addresses s)).

Definition add_discovered (peer : PeerId) s : AddressBook :=
  mk_book ({[ peer ]} ∪ discovered_addresses s) (active_addresses s) (failed_addresses s) (ipv4_only s) (max_addresses s).

Fixpoint add_many (from : PeerId) (addresses : list Address) (added : Z) s : AddressBook * Z :=
  match addresses with
  | [] => (s, added)
  | address :: addresses =>
      if has_max_addresses s then (s, added)
      else if negb (is_ok (validate_outbound_services (a_services address))) then add_many from addresses added s
      else match socket_addr address with
           | Some addr =>
               if should_add_address s from addr then add_many from addresses (added + 1) (add_discovered addr s)
               else add_many from addresses added s
           | None => add_many from addresses added s
           end
  end.

Fixpoint add_many_v2 (from : PeerId) (addresses : list AddrV2Message) (added : Z) s : AddressBook * Z :=
  match addresses with
  | [] => (s, added)
  | address :: addresses =>
      if has_max_addresses s then (s, added)
      else if negb (is_ok (validate_outbound_services (v2_services address))) then add_many_v2 from addresses added s
      else
        match match v2_addr address with
              | AddrIpv4 ip => Some (PeerV4 ip (v2_port address))
              | AddrIpv6 ip => Some (PeerV6 ip (v2_port address))
              | AddrOther => None
              end with
        | Some addr =>
            if should_add_address s from addr then add_many_v2 from addresses (added + 1) (add_discovered addr s)
            else add_many_v2 from addresses added s
        | None => add_many_v2 from addresses added s
        end
  end.
End book.

(** ** Invariant *)

Section facts.
Context `{!RandomChoice, !RandomChoiceLaws, !HashOrder, !HashOrderLaws}.
Implicit Types (s : AddressBook).

Record book_wf s : Prop := {
  bw_max : Z.of_nat (size (discovered_addresses s)) <= max_addresses s;
  bw_ipv4 p : ipv4_only s = true -> p ∈ discovered_addresses s ∪ active_addresses s -> is_ipv6 p = false;
}.

Lemma book_new_wf ipv4 max : 0 <= max -> book_wf (book_new ipv4 max).
Proof. intros Hm. split; cbn; [by rewrite size_empty | set_solver]. Qed.

(** An address that is offered passed the checks. *)
Lemma add_discovered_wf s from p :
  book_wf s -> has_max_addresses s = false -> should_add_address s from p = true -> book_wf (add_discovered p s).
Proof.
  unfold has_max_addresses, should_add_address. intros [Hm Hv] Hlt%Z.leb_gt Hadd. split; cbn.
  - etrans; [| apply Zlt_le_succ; exact Hlt]. pose proof (size_union_alt {[ p ]} (discovered_addresses s)) as Hu.
    rewrite Hu, size_singleton. assert (size (discovered_addresses s ∖ {[ p ]}) <= size (discovered_addresses s))%nat
      by (apply subseteq_size; set_solver). lia.
  - intros q H4 Hq. destruct (decide (q = p)) as [-> | Hne]; [| apply Hv; [done | set_solver]].
    revert Hadd. case_bool_decide; [done |]. rewrite H4. by destruct (is_ipv6 p).
Qed.

Lemma add_many_wf from addresses added s : book_wf s -> book_wf (add_many from addresses added s).1.
Proof.
  revert added s. induction addresses as [| a addresses IH]; intros added s Hwf; cbn [add_many]; [done |].
  destruct (has_max_addresses s) eqn:Hmax; [done |]. destruct (negb _); [by apply IH |].
  destruct (socket_addr a) as [p |]; [| by apply IH]. destruct (should_add_address s from p) eqn:Hadd; [| by apply IH].
  apply IH. by eapply add_discovered_wf.
Qed.

Lemma add_many_v2_wf from addresses added s : book_wf s -> book_wf (add_many_v2 from addresses added s).1.
Proof.
  revert added s. induction addresses as [| a addresses IH]; intros added s Hwf; cbn [add_many_v2]; [done |].
  destruct (has_max_addresses s) eqn:Hmax; [done |]. destruct (negb _); [by apply IH |].
  destruct (match v2_addr a with AddrIpv4 ip => _ | AddrIpv6 ip => _ | AddrOther => _ end) as [p |]; [| by apply IH].
  destruct (should_add_address s from p) eqn:Hadd; [| by apply IH]. apply IH. by eapply add_discovered_wf.
Qed.

Lemma pop_wf s : book_wf s -> book_wf (pop s).1.
Proof.
  intros [Hm Hv]. unfold pop. destruct (choice (hash_iter (discovered_addresses s))) as [p |] eqn:Hc; [| by split].
  apply choice_in, hash_iter_elem in Hc. split; cbn.
  - assert (size (discovered_addresses s ∖ {[ p ]}) <= size (discovered_addresses s))%nat by (apply subseteq_size; set_solver). lia.
  - intros q H4 Hq. apply Hv; [done |]. destruct (decide (q = p)) as [-> |]; set_solver.
Qed.

(** An address is popped whenever one is available. *)
Lemma pop_some s : discovered_addresses s <> ∅ -> exists p, (pop s).2 = Some p /\ p ∈ discovered_addresses s /\
  (p ∉ discovered_addresses (pop s).1) /\ p ∈ active_addresses (pop s).1.
Proof.
  intros Hne. unfold pop. destruct (choice_some (hash_iter (discovered_addresses s))) as [p Hp].
  { intros Hnil. apply Hne. apply set_eq. intros p. rewrite <- hash_iter_elem, Hnil. set_solver. }
  rewrite Hp. apply choice_in, hash_iter_elem in Hp. exists p. cbn. split; [done |]. split; [done |]. set_solver.
Qed.

(** Addresses in use are not refused: an address can be popped while it is
    active. *)
Lemma active_offered_again from p s :
  from <> p -> is_ipv6 p = false -> p ∉ failed_addresses s -> should_add_address s from p = true.
Proof.
  intros Hf H4 Hp. unfold should_add_address. rewrite bool_decide_eq_false_2 by done. rewrite H4, andb_false_r.
  by rewrite bool_decide_eq_false_2.
Qed.
End facts.
