(* ===== verification/PeerManager.v ===== *)
(** * The peer manager ([crates/subcoin-network/src/peer_manager.rs])

    Connections, handshakes and connected peers.  The task that owns the other
    end of a connection's channel may have ended: then sending fails.  Messages
    and connection attempts are returned as effects; times are in milliseconds,
    and random numbers are an argument. *)

From Stdlib Require Import ZArith Lia String.
From stdpp Require Import prelude gmap.
From S2P Require Import Prelude Collections Bitcoin NetworkTypes PeerStore TxRelay.

Definition WTXID_RELAY_VERSION : Z := 70016.
Definition MAX_AVAILABLE_ADDRESSES : Z := 2000.
Definition PROTOCOL_VERSION : Z := 70016.
Definition MIN_PROTOCOL_VERSION : Z := 70012.
Definition PEER_LATENCY_THRESHOLD : Z := 2000.
Definition PEER_LATENCY_THRESHOLD_INITIAL_SYNC : Z := 5000.
Definition SLOW_PEER_LATENCY : Z := 500.
Definition EVICTION_INTERVAL : Z := 600 * 1000.
Definition HANDSHAKE_TIMEOUT : Z := 1.
Definition PING_TIMEOUT : Z := 30 * 1000.
Definition PING_INTERVAL : Z := 120 * 1000.
Definition u128_max : Z := 2 ^ 128 - 1.

(** ** Messages *)

(** [VersionMessage]. *)
Record VersionMessage := mk_version {
  vm_version : Z;
  vm_services : Z;
  vm_timestamp : Z;
  vm_receiver : Address;
  vm_sender : Address;
  vm_nonce : Z;
  vm_user_agent : string;
  vm_start_height : Z;
  vm_relay : bool;
}.

(** [NetworkMessage]; [MsgIgnored] stands for the kinds that are not handled. *)
Inductive NetworkMessage :=
| MsgVersion (v : VersionMessage)
| MsgVerack
| MsgAddr (addresses : list (Z * Address))
| MsgInv (inv : list Inventory)
| MsgGetData (inv : list Inventory)
| MsgGetBlocks (version : Z) (locator_hashes : list bytes) (stop : bytes)
| MsgGetHeaders (version : Z) (locator_hashes : list bytes) (stop : bytes)
| MsgTx (tx : Transaction)
| MsgBlock (block : Block)
| MsgHeaders (headers : list Header)
| MsgGetAddr
| MsgPing (nonce : Z)
| MsgPong (nonce : Z)
| MsgAddrV2 (addresses : list AddrV2Message)
| MsgSendAddrV2
| MsgSendHeaders
| MsgFeeFilter (min_fee_rate : Z)
| MsgMerkleBlock
| MsgIgnored (kind : Z).

Inductive Direction := Inbound | Outbound.
Definition is_inbound (d : Direction) : bool := match d with Inbound => true | Outbound => false end.
Definition is_outbound (d : Direction) : bool := match d with Inbound => false | Outbound => true end.

#[export] Instance Direction_eq_dec : EqDecision Direction.
Proof. solve_decision. Defined.

(** What is handed to other tasks. *)
Inductive Effect :=
| Sent (to : PeerId) (msg : NetworkMessage)
| Terminated (peer : PeerId)
| ConnectTo (addr : PeerId).

(** ** State *)

Record Config := mk_config {
  protocol_version : Z;
  services : Z;
  persistent : list PeerId;
  user_agent : string;
}.

Definition config_new (agent : string) : Config := mk_config PROTOCOL_VERSION 0 [] agent.

Record Connection := mk_connection {
  local_addr : PeerId;
  (** The receiving end of the channel is alive. *)
  writer_open : bool;
}.

Inductive HandshakeState :=
| ConnectionOpened
| VersionSent (at_ : Z)
| VersionReceived (version : VersionMessage)
| VerackReceived (peer : PeerId).

Definition handshake_is_complete (h : HandshakeState) : bool :=
  match h with VerackReceived _ => true | _ => false end.

Inductive NetError :=
| ConnectionNotFound (peer : PeerId)
| PeerNotFound (peer : PeerId)
| WriterClosed
| ProtocolVersionTooLow
| BadServices (e : ServiceError)
| UnexpectedHandshakeState (h : HandshakeState)
| HandshakeTimeout
| BadPong (expected got : Z)
| PingTimedOut
| UnexpectedPong.

Record LatencyTracker := mk_latency {
  received_pongs : Z;
  total_latency : Z;
}.

Definition record_pong (latency : Z) (t : LatencyTracker) : LatencyTracker * Z :=
  let received := (received_pongs t + 1) `min` u64_max in
  let total := (total_latency t + latency) `min` u128_max in
  (mk_latency received total, total / received).

Definition calc_average (t : LatencyTracker) : option Z :=
  if received_pongs t =? 0 then None else Some (total_latency t / received_pongs t).

Inductive PingState :=
| PingIdle (last_pong_at : Z)
| AwaitingPong (last_ping_at nonce : Z).

(** [Instant::elapsed]. *)
Definition elapsed (now since : Z) : Z := 0 `max` (now - since).

Definition should_ping (now : Z) (s : PingState) : bool :=
  match s with PingIdle t => PING_INTERVAL <=? elapsed now t | AwaitingPong _ _ => false end.
Definition has_timeout (now : Z) (s : PingState) : bool :=
  match s with PingIdle _ => false | AwaitingPong t _ => PING_TIMEOUT <=? elapsed now t end.

Record PeerInfo := mk_peer_info {
  pi_best_height : Z;
  pi_services : Z;
  pi_user_agent : string;
  pi_receiver : Address;
  pi_relay : bool;
  pi_wtxidrelay : bool;
  pi_version : Z;
  pi_nonce : Z;
  prefer_headers : bool;
  want_addrv2 : bool;
  ping_latency : LatencyTracker;
  ping_state : PingState;
  has_sent_ping : bool;
  pi_direction : Direction;
  fee_filter : option Z;
  invalid_tx_count : Z;
}.

Definition peer_info_new (msg : VersionMessage) (direction : Direction) (now : Z) : PeerInfo := {|
  pi_best_height := wrap_u32 (vm_start_height msg);
  pi_services := vm_services msg;
  pi_user_agent := vm_user_agent msg;
  pi_receiver := vm_receiver msg;
  pi_relay := vm_relay msg;
  pi_wtxidrelay := false;
  pi_version := vm_version msg;
  pi_nonce := vm_nonce msg;
  prefer_headers := false;
  want_addrv2 := false;
  ping_latency := mk_latency 0 0;
  ping_state := PingIdle now;
  has_sent_ping := false;
  pi_direction := direction;
  fee_filter := None;
  invalid_tx_count := 0;
|}.

Record PeerManager := mk_pm {
  config : Config;
  address_book : AddressBook;
  handshaking_peers : gmap PeerId HandshakeState;
  connections : gmap PeerId Connection;
  connected_peers : gmap PeerId PeerInfo;
  max_outbound_peers : Z;
  last_eviction : Z;
}.

Definition pm_new (cfg : Config) (max_outbound now : Z) : PeerManager :=
  mk_pm cfg (book_new true MAX_AVAILABLE_ADDRESSES) ∅ ∅ ∅ max_outbound now.

(** Assignments to fields. *)
Definition set_book (b : AddressBook) (s : PeerManager) : PeerManager :=
  mk_pm (config s) b (handshaking_peers s) (connections s) (connected_peers s) (max_outbound_peers s) (last_eviction s).
Definition set_handshaking (h : gmap PeerId HandshakeState) (s : PeerManager) : PeerManager :=
  mk_pm (config s) (address_book s) h (connections s) (connected_peers s) (max_outbound_peers s) (last_eviction s).
Definition set_connections (c : gmap PeerId Connection) (s : PeerManager) : PeerManager :=
  mk_pm (config s) (address_book s) (handshaking_peers s) c (connected_peers s) (max_outbound_peers s) (last_eviction s).
Definition set_connected (c : gmap PeerId PeerInfo) (s : PeerManager) : PeerManager :=
  mk_pm (config s) (address_book s) (handshaking_peers s) (connections s) c (max_outbound_peers s) (last_eviction s).

(** ** Operations *)

Section manager.
Context `{!RandomChoice, !HashOrder}.
Implicit Types (s : PeerManager).

(** A message that reaches the channel, or the reason why it does not. *)
Definition connection_send (to : PeerId) (c : Connection) (msg : NetworkMessage) : NetError + list Effect :=
  if writer_open c then inr [Sent to msg] else inl WriterClosed.

Definition send (to : PeerId) (msg : NetworkMessage) s : NetError + list Effect :=
  match connections s !! to with
  | Some c => connection_send to c msg
  | None => inl (ConnectionNotFound to)
  end.

(** [let _ = self.send(..)]. *)
Definition try_send (to : PeerId) (msg : NetworkMessage) s : list Effect :=
  match send to msg s with inr e => e | inl _ => [] end.

Definition start_ping (nonce now : Z) (i : PeerInfo) : PeerInfo :=
  mk_peer_info (pi_best_height i) (pi_services i) (pi_user_agent i) (pi_receiver i) (pi_relay i) (pi_wtxidrelay i)
    (pi_version i) (pi_nonce i) (prefer_headers i) (want_addrv2 i) (ping_latency i) (AwaitingPong now nonce) true
    (pi_direction i) (fee_filter i) (invalid_tx_count i).

Fixpoint send_pings (should_pings : list PeerId) (nonces : PeerId -> Z) (now : Z) s : PeerManager * list Effect :=
  match should_pings with
  | [] => (s, [])
  | peer :: should_pings =>
      match connected_peers s !! peer with
      | Some info =>
          let nonce := nonces peer in
          let s := set_connected (<[peer := start_ping nonce now info]> (connected_peers s)) s in
          let sent := try_send peer (MsgPing nonce) s in
          let '(s, effects) := send_pings should_pings nonces now s in
          (s, sent ++ effects)
      | None => send_pings should_pings nonces now s
      end
  end.

(** [Iterator::max_by_key]: the last of the greatest elements. *)
Definition max_by_latency (l : list (PeerId * Z)) : option (PeerId * Z) :=
  match l with
  | [] => None
  | x :: l => Some (foldl (fun x y => if x.2 <=? y.2 then y else x) x l)
  end.

Definition slow_peers s : list (PeerId * Z) :=
  omap (fun peer =>
    info ← connected_peers s !! peer;
    avg ← calc_average (ping_latency info);
    if SLOW_PEER_LATENCY <? avg then Some (peer, avg) else None) (hash_iter (dom (connected_peers s))).

Definition manage_outbound_connections (outbound_peers_count : Z) (now : Z) s
    : PeerManager * option (PeerId * Z) * list Effect :=
  if outbound_peers_count <? max_outbound_peers s then
    let '(book, popped) := pop (address_book s) in
    let s := set_book book s in
    match popped with
    | Some addr =>
        (s, None, if bool_decide (is_Some (connections s !! addr)) then [] else [ConnectTo addr])
    | None => (s, None, [])
    end
  else if (outbound_peers_count <? max_outbound_peers s) || (EVICTION_INTERVAL <? elapsed now (last_eviction s))
  then (s, max_by_latency (slow_peers s), [])
  else (s, None, []).

Definition count_peers (f : PeerInfo -> bool) s : Z :=
  Z.of_nat (size (filter (fun kv => f kv.2 = true) (connected_peers s))).

(** The connected peers with a property, in the order of the map. *)
Definition peers_with (f : PeerInfo -> bool) s : list PeerId :=
  omap (fun peer =>
    info ← connected_peers s !! peer;
    if f info then Some peer else None) (hash_iter (dom (connected_peers s))).

(** The peers whose ping timed out, and those to ping. *)
Definition timeout_peers (now : Z) s : list PeerId := peers_with (fun i => has_timeout now (ping_state i)) s.
Definition should_ping_peers (now : Z) s : list PeerId :=
  peers_with (fun i => negb (has_timeout now (ping_state i)) &&
                       (negb (has_sent_ping i) || should_ping now (ping_state i))) s.

Definition pm_on_tick (nonces : PeerId -> Z) (now : Z) s
    : PeerManager * (list PeerId * option (PeerId * Z)) * list Effect :=
  let timeouts := timeout_peers now s in
  let '(s, pings) := send_pings (should_ping_peers now s) nonces now s in
  let outbound_peers_count := count_peers (fun i => is_outbound (pi_direction i)) s in
  let '(s, slow, effects) := manage_outbound_connections outbound_peers_count now s in
  (s, (timeouts, slow), pings ++ effects).

Definition on_outbound_connection_failure (addr : PeerId) s : PeerManager :=
  set_book (note_failed_address addr (address_book s)) s.

Definition pm_disconnect (peer : PeerId) s : PeerManager * list Effect :=
  if bool_decide (peer ∈ persistent (config s)) then (s, [])
  else
    (mk_pm (config s) (mark_disconnected peer (address_book s)) (delete peer (handshaking_peers s))
       (delete peer (connections s)) (delete peer (connected_peers s)) (max_outbound_peers s) (last_eviction s),
     match connections s !! peer with Some _ => [Terminated peer] | None => [] end).

Definition evict (peer : PeerId) (now : Z) s : PeerManager * list Effect :=
  let '(s, effects) := pm_disconnect peer s in
  (mk_pm (config s) (address_book s) (handshaking_peers s) (connections s) (connected_peers s)
     (max_outbound_peers s) now, effects).

(** [self.connected_peers.entry(peer_id).and_modify]. *)
Definition modify_peer (f : PeerInfo -> PeerInfo) (peer : PeerId) s : PeerManager :=
  set_connected (alter f peer (connected_peers s)) s.

Definition set_want_addrv2 (peer : PeerId) s : PeerManager :=
  modify_peer (fun i => mk_peer_info (pi_best_height i) (pi_services i) (pi_user_agent i) (pi_receiver i) (pi_relay i)
    (pi_wtxidrelay i) (pi_version i) (pi_nonce i) (prefer_headers i) true (ping_latency i) (ping_state i)
    (has_sent_ping i) (pi_direction i) (fee_filter i) (invalid_tx_count i)) peer s.
Definition set_prefer_headers (peer : PeerId) s : PeerManager :=
  modify_peer (fun i => mk_peer_info (pi_best_height i) (pi_services i) (pi_user_agent i) (pi_receiver i) (pi_relay i)
    (pi_wtxidrelay i) (pi_version i) (pi_nonce i) true (want_addrv2 i) (ping_latency i) (ping_state i)
    (has_sent_ping i) (pi_direction i) (fee_filter i) (invalid_tx_count i)) peer s.
Definition set_fee_filter (peer : PeerId) (min_fee_rate : Z) s : PeerManager :=
  modify_peer (fun i => mk_peer_info (pi_best_height i) (pi_services i) (pi_user_agent i) (pi_receiver i) (pi_relay i)
    (pi_wtxidrelay i) (pi_version i) (pi_nonce i) (prefer_headers i) (want_addrv2 i) (ping_latency i) (ping_state i)
    (has_sent_ping i) (pi_direction i) (Some min_fee_rate) (invalid_tx_count i)) peer s.
(** The counter is logged when it reaches 100. *)
Definition record_invalid_tx (peer : PeerId) s : PeerManager :=
  modify_peer (fun i => mk_peer_info (pi_best_height i) (pi_services i) (pi_user_agent i) (pi_receiver i) (pi_relay i)
    (pi_wtxidrelay i) (pi_version i) (pi_nonce i) (prefer_headers i) (want_addrv2 i) (ping_latency i) (ping_state i)
    (has_sent_ping i) (pi_direction i) (fee_filter i) (invalid_tx_count i + 1)) peer s.

Definition is_connected (peer : PeerId) s : bool := bool_decide (is_Some (connected_peers s !! peer)).
Definition connected_peer_ids s : list PeerId := hash_iter (dom (connected_peers s)).
Definition connected_peers_count s : Z := Z.of_nat (size (connected_peers s)).
Definition inbound_peers_count s : Z := count_peers (fun i => is_inbound (pi_direction i)) s.
Definition peer_best_number (peer : PeerId) s : option Z := pi_best_height <$> connected_peers s !! peer.
Definition get_invalid_tx_count (peer : PeerId) s : Z :=
  default 0 (invalid_tx_count <$> connected_peers s !! peer).

Definition our_version (to local : PeerId) (nonce timestamp best_number : Z) s : VersionMessage :=
  mk_version (protocol_version (config s)) (services (config s)) timestamp (mk_address 0 (Some to))
    (mk_address (services (config s)) (Some local)) nonce (user_agent (config s)) (wrap_i32 best_number) false.

Definition on_new_connection (peer : PeerId) (c : Connection) (direction : Direction)
    (nonce timestamp best_number now : Z) s : PeerManager * list Effect :=
  let opened h effects :=
    (set_handshaking (<[peer := h]> (handshaking_peers s))
       (set_connections (<[peer := c]> (connections s)) s), effects) in
  match direction with
  | Inbound => opened ConnectionOpened []
  | Outbound =>
      match connection_send peer c (MsgVersion (our_version peer (local_addr c) nonce timestamp best_number s)) with
      | inl _ => (s, [])
      | inr sent => opened (VersionSent now) sent
      end
  end.

(** State and effects when the operation stops early. *)
Definition outcome : Type := PeerManager * list Effect * option NetError.

Definition on_version (peer : PeerId) (direction : Direction) (v : VersionMessage)
    (nonce timestamp best_number now : Z) s : outcome :=
  match direction with
  | Inbound =>
      match connections s !! peer with
      | None => (s, [], Some (ConnectionNotFound peer))
      | Some c =>
          match handshaking_peers s !! peer with
          | None => (s, [], Some (PeerNotFound peer))
          | Some _ =>
              let s := set_handshaking (<[peer := VersionReceived v]> (handshaking_peers s)) s in
              match send peer (MsgVersion (our_version peer (local_addr c) nonce timestamp best_number s)) s with
              | inl e => (s, [], Some e)
              | inr sent =>
                  match send peer MsgVerack s with
                  | inl e => (s, sent, Some e)
                  | inr sent' => (s, sent ++ sent', None)
                  end
              end
          end
      end
  | Outbound =>
      if vm_version v <? MIN_PROTOCOL_VERSION then (s, [], Some ProtocolVersionTooLow)
      else
        match validate_outbound_services (vm_services v) with
        | Err e => (s, [], Some (BadServices e))
        | _ =>
            let old := handshaking_peers s !! peer in
            let s := set_handshaking (<[peer := VersionReceived v]> (handshaking_peers s)) s in
            match old with
            | Some (VersionSent t) =>
                if HANDSHAKE_TIMEOUT <? Z.quot (now - t) 1000 then (s, [], Some HandshakeTimeout)
                else (s, [], None)
            | Some h => (s, [], Some (UnexpectedHandshakeState h))
            | None => (s, [], Some (PeerNotFound peer))
            end
        end
  end.

Definition on_verack (peer : PeerId) (direction : Direction) (nonces : PeerId -> Z) (now : Z) s : outcome :=
  match handshaking_peers s !! peer with
  | None => (s, [], Some (PeerNotFound peer))
  | Some h =>
      let s := set_handshaking (delete peer (handshaking_peers s)) s in
      match h with
      | VersionReceived version =>
          let continue verack :=
            let s := set_connected (<[peer := peer_info_new version direction now]> (connected_peers s)) s in
            match (if has_max_addresses (address_book s) then inr [] else send peer MsgGetAddr s) with
            | inl e => (s, verack, Some e)
            | inr get_addr =>
                let '(s, pings) := send_pings [peer] nonces now s in
                (s, verack ++ get_addr ++ pings, None)
            end in
          match direction with
          | Inbound => continue []
          | Outbound =>
              match send peer MsgVerack s with
              | inl e => (s, [], Some e)
              | inr sent => continue sent
              end
          end
      | h => (s, [], Some (UnexpectedHandshakeState h))
      end
  end.

Definition on_addr (peer : PeerId) (addresses : list (Z * Address)) s : PeerManager :=
  set_book (add_many peer (map snd addresses) 0 (address_book s)).1 s.
Definition on_addr_v2 (peer : PeerId) (addresses : list AddrV2Message) s : PeerManager :=
  set_book (add_many_v2 peer addresses 0 (address_book s)).1 s.

Definition finish_ping (tracker : LatencyTracker) (now : Z) (i : PeerInfo) : PeerInfo :=
  mk_peer_info (pi_best_height i) (pi_services i) (pi_user_agent i) (pi_receiver i) (pi_relay i) (pi_wtxidrelay i)
    (pi_version i) (pi_nonce i) (prefer_headers i) (want_addrv2 i) tracker (PingIdle now) (has_sent_ping i)
    (pi_direction i) (fee_filter i) (invalid_tx_count i).

Definition on_pong (peer : PeerId) (nonce now : Z) s : PeerManager * (NetError + Z) :=
  match connected_peers s !! peer with
  | None => (s, inl (PeerNotFound peer))
  | Some info =>
      match ping_state info with
      | PingIdle _ => (s, inl UnexpectedPong)
      | AwaitingPong last_ping_at expected =>
          if negb (nonce =? expected) then (s, inl (BadPong expected nonce))
          else
            let duration := elapsed now last_ping_at in
            if PING_TIMEOUT <=? duration then (s, inl PingTimedOut)
            else
              let '(tracker, avg) := record_pong duration (ping_latency info) in
              (set_connected (<[peer := finish_ping tracker now info]> (connected_peers s)) s, inr avg)
      end
  end.
End manager.

(** The peer manager answers the relay's questions. *)
#[export] Instance pm_relay_info : PeerTxRelayInfo PeerManager := {|
  peer_wants_tx_relay s peer := default false (pi_relay <$> connected_peers s !! peer);
  get_fee_filter s peer := connected_peers s !! peer ≫= fee_filter;
|}.
