(* ===== verification/PeerManagerFacts.v ===== *)
(** * Theorems on the peer manager

    An invariant of its maps, that outbound peers have shown what is required of
    them, the accounting of pings, and when peers are sought and evicted. *)

From Stdlib Require Import ZArith Lia String.
From stdpp Require Import prelude gmap.
From S2P Require Import Prelude Collections Bitcoin NetworkTypes PeerStore TxRelay PeerManager.

(** ** The invariant

    Each peer has one direction, [dir]. *)

Definition version_ok (version services : Z) : Prop :=
  MIN_PROTOCOL_VERSION <= version /\ has_service services NETWORK = true /\ has_service services WITNESS = true.

Record peer_ok (dir : PeerId -> Direction) (p : PeerId) (i : PeerInfo) : Prop := {
  po_direction : pi_direction i = dir p;
  po_version : dir p = Outbound -> version_ok (pi_version i) (pi_services i);
  po_ping t n : ping_state i = AwaitingPong t n -> has_sent_ping i = true;
}.

(** The invariant, where the peers of [except] may lack a connection. *)
Record pm_wf (dir : PeerId -> Direction) (except : gset PeerId) (s : PeerManager) : Prop := {
  wf_persistent : persistent (config s) = [];
  wf_handshaking p : p ∉ except -> is_Some (handshaking_peers s !! p) -> is_Some (connections s !! p);
  wf_connected p : p ∉ except -> is_Some (connected_peers s !! p) -> is_Some (connections s !! p);
  wf_version p v : handshaking_peers s !! p = Some (VersionReceived v) -> dir p = Outbound ->
    version_ok (vm_version v) (vm_services v);
  wf_peer p i : connected_peers s !! p = Some i -> peer_ok dir p i;
}.

Section invariant.
Context `{!RandomChoice, !HashOrder}.
Context (dir : PeerId -> Direction).
Implicit Types (s : PeerManager).
Abbreviation wf := (pm_wf dir ∅).

Lemma wf_mono X Y s : X ⊆ Y -> pm_wf dir X s -> pm_wf dir Y s.
Proof. intros HXY []. split; try done; intros p Hp; [apply wf_handshaking0 | apply wf_connected0]; set_solver. Qed.

Lemma pm_new_wf agent max now : wf (pm_new (config_new agent) max now).
Proof. split; cbn; try done; intros p; rewrite ?lookup_empty; intros; try done; by destruct H2. Qed.

(** Only the peer manager's other fields change. *)
Lemma set_book_wf X b s : pm_wf dir X s -> pm_wf dir X (set_book b s).
Proof. by intros []; split. Qed.

Lemma modify_peer_wf X f peer s :
  (forall i, peer_ok dir peer i -> peer_ok dir peer (f i)) ->
  pm_wf dir X s -> pm_wf dir X (modify_peer f peer s).
Proof.
  intros Hf [H1 H2 H3 H4 H5]. split; cbn; try done.
  - intros p Hp. rewrite lookup_alter_is_Some. by apply H3.
  - intros p i. rewrite lookup_alter_Some. intros [(<- & j & Hj & ->) | [_ Hj]]; [by apply Hf, H5 | by apply H5].
Qed.

Lemma connected_insert_wf X peer i s :
  is_Some (connections s !! peer) \/ peer ∈ X -> peer_ok dir peer i -> pm_wf dir X s ->
  pm_wf dir X (set_connected (<[peer := i]> (connected_peers s)) s).
Proof.
  intros Hc Hi [H1 H2 H3 H4 H5]. split; cbn; try done.
  - intros p Hp. rewrite lookup_insert_is_Some'. intros [<- | Hs]; [by destruct Hc | by apply H3].
  - intros p j. rewrite lookup_insert_Some. intros [[<- <-] | [_ Hj]]; [done | by apply H5].
Qed.

Lemma handshaking_insert_wf X peer h s :
  is_Some (connections s !! peer) \/ peer ∈ X ->
  (forall v, h = VersionReceived v -> dir peer = Outbound -> version_ok (vm_version v) (vm_services v)) ->
  pm_wf dir X s -> pm_wf dir X (set_handshaking (<[peer := h]> (handshaking_peers s)) s).
Proof.
  intros Hc Hv [H1 H2 H3 H4 H5]. split; cbn; try done.
  - intros p Hp. rewrite lookup_insert_is_Some'. intros [<- | Hs]; [by destruct Hc | by apply H2].
  - intros p v. rewrite lookup_insert_Some. intros [[<- Hh] | [_ Hj]]; [by apply Hv | by apply H4].
Qed.

Lemma handshaking_delete_wf X peer s :
  pm_wf dir X s -> pm_wf dir X (set_handshaking (delete peer (handshaking_peers s)) s).
Proof.
  intros [H1 H2 H3 H4 H5]. split; cbn; try done.
  - intros p Hp. rewrite lookup_delete_is_Some. intros [_ Hs]. by apply H2.
  - intros p v. rewrite lookup_delete_Some. intros [_ Hj]. by apply H4.
Qed.

Lemma disconnect_wf peer s : pm_wf dir {[ peer ]} s -> wf (pm_disconnect peer s).1.
Proof.
  intros [H1 H2 H3 H4 H5]. unfold pm_disconnect. rewrite bool_decide_eq_false_2 by (rewrite H1; apply not_elem_of_nil).
  split; cbn; try done.
  - intros p _. rewrite !lookup_delete_is_Some. intros [Hne Hs]. split; [done |]. apply H2; [set_solver | done].
  - intros p _. rewrite !lookup_delete_is_Some. intros [Hne Hs]. split; [done |]. apply H3; [set_solver | done].
  - intros p v. rewrite lookup_delete_Some. intros [_ Hj]. by apply H4.
  - intros p i. rewrite lookup_delete_Some. intros [_ Hj]. by apply H5.
Qed.

Lemma evict_wf peer now s : wf s -> wf (evict peer now s).1.
Proof.
  intros Hs. unfold evict. pose proof (disconnect_wf peer s (wf_mono _ _ _ (empty_subseteq _) Hs)) as Hd.
  destruct (pm_disconnect peer s) as [s' e]. cbn in *. by destruct Hd; split.
Qed.

Lemma start_ping_ok p i nonce now : peer_ok dir p i -> peer_ok dir p (start_ping nonce now i).
Proof. by intros []; split. Qed.

Lemma send_pings_wf X l nonces now s : pm_wf dir X s -> pm_wf dir X (send_pings l nonces now s).1.
Proof.
  revert s. induction l as [| p l IH]; intros s Hs; cbn [send_pings]; [done |].
  destruct (connected_peers s !! p) as [i |] eqn:Hi; [| by apply IH].
  destruct (send_pings l nonces now _) as [s' e] eqn:Hp. cbn [fst].
  replace s' with (send_pings l nonces now (set_connected (<[p := start_ping (nonces p) now i]> (connected_peers s)) s)).1
    by (by rewrite Hp).
  apply IH, connected_insert_wf; [| by eapply start_ping_ok, wf_peer | done].
  destruct (decide (p ∈ X)); [by right | left]. by eapply wf_connected.
Qed.

Lemma on_new_connection_wf peer c d nonce ts best now s :
  wf s -> wf (on_new_connection peer c d nonce ts best now s).1.
Proof.
  intros Hs. unfold on_new_connection.
  assert (forall h, (forall v, h = VersionReceived v -> False) ->
    wf (set_handshaking (<[peer := h]> (handshaking_peers s)) (set_connections (<[peer := c]> (connections s)) s))) as Hopen.
  { intros h Hh. apply (handshaking_insert_wf ∅ peer h (set_connections (<[peer := c]> (connections s)) s)).
    - left. cbn. by rewrite lookup_insert_eq.
    - intros v Hv. by destruct (Hh v).
    - destruct Hs as [H1 H2 H3 H4 H5]. split; cbn; try done; intros p Hp Hsome; rewrite lookup_insert_is_Some';
        right; auto. }
  destruct d; cbn [fst]; [by apply Hopen |]. destruct (connection_send _ _ _); cbn [fst]; [done | by apply Hopen].
Qed.

Lemma services_ok v :
  (vm_version v <? MIN_PROTOCOL_VERSION) = false -> (forall e, validate_outbound_services (vm_services v) <> Err e) ->
  version_ok (vm_version v) (vm_services v).
Proof.
  unfold validate_outbound_services, version_ok. intros Hv He. bools. split; [done |].
  destruct (has_service (vm_services v) NETWORK); cbn in He; [| by destruct (He NotFullNode)].
  destruct (has_service (vm_services v) WITNESS); [done |]. by destruct (He NotSegwitNode).
Qed.

(** A version message leaves the invariant, except for the peer itself when it is
    refused. *)
Lemma on_version_wf peer v nonce ts best now s s' e err :
  wf s -> on_version peer (dir peer) v nonce ts best now s = (s', e, err) ->
  pm_wf dir match err with Some _ => {[ peer ]} | None => ∅ end s'.
Proof.
  intros Hs. unfold on_version. destruct (dir peer) eqn:Hd.
  - destruct (connections s !! peer) as [c |] eqn:Hc.
    2:{ intros [= <- <- <-]. by apply (wf_mono ∅). }
    destruct (handshaking_peers s !! peer) as [h |] eqn:Hh.
    2:{ intros [= <- <- <-]. by apply (wf_mono ∅). }
    assert (wf (set_handshaking (<[peer := VersionReceived v]> (handshaking_peers s)) s)) as Hw.
    { apply handshaking_insert_wf; [left; by rewrite Hc | by rewrite Hd | done]. }
    destruct (send _ _ _) as [e1 | e1]; [intros [= <- <- <-]; by apply (wf_mono ∅) |].
    destruct (send _ _ _) as [e2 | e2]; intros [= <- <- <-]; [by apply (wf_mono ∅) | done].
  - destruct (vm_version v <? MIN_PROTOCOL_VERSION) eqn:Hv; [intros [= <- <- <-]; by apply (wf_mono ∅) |].
    destruct (validate_outbound_services (vm_services v)) as [[] | e1 |] eqn:Hval.
    2:{ intros [= <- <- <-]. by apply (wf_mono ∅). }
    2:{ exfalso. revert Hval. unfold validate_outbound_services.
        by destruct (has_service (vm_services v) NETWORK), (has_service (vm_services v) WITNESS). }
    assert (forall X, is_Some (connections s !! peer) \/ peer ∈ X ->
      pm_wf dir X (set_handshaking (<[peer := VersionReceived v]> (handshaking_peers s)) s)) as Hw.
    { intros X HX. apply handshaking_insert_wf; [done | | by apply (wf_mono ∅)].
      intros v' [= <-] _. apply services_ok; [done |]. by rewrite Hval. }
    destruct (handshaking_peers s !! peer) as [[| t | v' | q] |] eqn:Hh;
      [intros [= <- <- <-]; apply Hw; set_solver | | intros [= <- <- <-]; apply Hw; set_solver ..].
    case_match; intros [= <- <- <-]; apply Hw; [set_solver |]. left. apply (wf_handshaking dir ∅ s Hs); [set_solver |].
    by rewrite Hh.
Qed.

Lemma on_verack_wf peer nonces now s s' e err :
  wf s -> on_verack peer (dir peer) nonces now s = (s', e, err) -> wf s'.
Proof.
  intros Hs. unfold on_verack. destruct (handshaking_peers s !! peer) as [h |] eqn:Hh; [| by intros [= <- <- <-]].
  assert (is_Some (connections s !! peer)) as Hc.
  { apply (wf_handshaking dir ∅ s Hs); [set_solver | by rewrite Hh]. }
  pose proof (handshaking_delete_wf ∅ peer s Hs) as Hs1. set (s1 := set_handshaking _ s) in *.
  destruct h as [| t | v | q]; [by intros [= <- <- <-] .. | | by intros [= <- <- <-]].
  assert (wf (set_connected (<[peer := peer_info_new v (dir peer) now]> (connected_peers s1)) s1)) as Hs2.
  { apply connected_insert_wf; [by left | | done]. split; cbn; [done | | done].
    intros Hd. by apply (wf_version dir ∅ s Hs peer v). }
  set (s2 := set_connected _ s1) in *.
  assert (forall sent, (match (if has_max_addresses (address_book s2) then inr [] else send peer MsgGetAddr s2) with
    | inl e => (s2, sent, Some e)
    | inr get_addr => let '(s, pings) := send_pings [peer] nonces now s2 in (s, sent ++ get_addr ++ pings, None)
    end) = (s', e, err) -> wf s') as Hcont.
  { intros sent. case_match; [by intros [= <- <- <-] |].
    pose proof (send_pings_wf ∅ [peer] nonces now s2 Hs2) as Hp.
    destruct (send_pings [peer] nonces now s2) as [s3 pings]. by intros [= <- <- <-]. }
  destruct (dir peer); [apply Hcont |]. destruct (send peer MsgVerack s1); [by intros [= <- <- <-] | apply Hcont].
Qed.

Lemma on_pong_wf peer nonce now s : wf s -> wf (on_pong peer nonce now s).1.
Proof.
  intros Hs. unfold on_pong. destruct (connected_peers s !! peer) as [i |] eqn:Hi; [| done].
  destruct (ping_state i) as [| t expected] eqn:Hp; [done |]. destruct (negb _); [done |].
  destruct (_ <=? _); [done |]. destruct (record_pong _ _) as [tr avg]. cbn [fst].
  apply connected_insert_wf; [| | done].
  - left. apply (wf_connected dir ∅ s Hs); [set_solver | by rewrite Hi].
  - pose proof (wf_peer dir ∅ s Hs peer i Hi) as []. by split.
Qed.

Lemma pm_on_tick_wf nonces now s : wf s -> wf (pm_on_tick nonces now s).1.1.
Proof.
  intros Hs. unfold pm_on_tick.
  pose proof (send_pings_wf ∅ (should_ping_peers now s) nonces now s Hs) as Hp.
  destruct (send_pings _ _ _ s) as [s1 pings]. cbn [fst] in Hp. unfold manage_outbound_connections.
  destruct (_ <? _).
  - destruct (pop (address_book s1)) as [b [a |]]; cbn [fst]; by apply set_book_wf.
  - by destruct (_ || _).
Qed.
End invariant.

(** ** Seeking and evicting peers *)

Section outbound.
Context `{!RandomChoice, !RandomChoiceLaws, !HashOrder, !HashOrderLaws}.
Implicit Types (s : PeerManager).

(** A connected peer and its average latency. *)
Definition latency_of s (p : PeerId) (l : Z) : Prop :=
  exists i, connected_peers s !! p = Some i /\ calc_average (ping_latency i) = Some l.

Lemma slow_peers_spec s p l : (p, l) ∈ slow_peers s <-> latency_of s p l /\ SLOW_PEER_LATENCY < l.
Proof.
  unfold slow_peers, latency_of. rewrite list_elem_of_omap. split.
  - intros (q & Hq & Hl). destruct (connected_peers s !! q) as [i |] eqn:Hi; [| done]. cbn in Hl.
    destruct (calc_average (ping_latency i)) as [avg |] eqn:Ha; [| done]. cbn in Hl.
    destruct (Z.ltb_spec SLOW_PEER_LATENCY avg); [| done]. injection Hl as <- <-. split; [by exists i | done].
  - intros [(i & Hi & Ha) Hl]. exists p. split; [apply hash_iter_elem, elem_of_dom; by rewrite Hi |].
    rewrite Hi. cbn. rewrite Ha. cbn. by destruct (Z.ltb_spec SLOW_PEER_LATENCY l); [| lia].
Qed.

Lemma max_by_latency_spec l :
  match max_by_latency l with
  | Some x => x ∈ l /\ forall y, y ∈ l -> y.2 <= x.2
  | None => l = []
  end.
Proof.
  destruct l as [| x l]; cbn [max_by_latency]; [done |].
  assert (forall acc, let r := foldl (fun x y => if x.2 <=? y.2 then y else x) acc l in
    (r = acc \/ r ∈ l) /\ acc.2 <= r.2 /\ forall y, y ∈ l -> y.2 <= r.2) as Hgen.
  { induction l as [| y l IH]; intros acc; cbn [foldl].
    { split_and!; [by left | lia | set_solver]. }
    specialize (IH (if acc.2 <=? y.2 then y else acc)). cbv zeta in *.
    destruct IH as (Hin & Hle & Hall). destruct (Z.leb_spec acc.2 y.2);
      (split_and!; [set_solver | lia |]); intros z [-> | Hz]%elem_of_cons; auto; lia. }
  specialize (Hgen x). cbv zeta in Hgen. destruct Hgen as (Hin & Hle & Hall). split; [set_solver |].
  intros y [-> | Hy]%elem_of_cons; auto.
Qed.

(** when peers are sought and evicted.  Below the limit of outbound peers one
    address is taken from the book and connected to, unless it has a connection,
    and nobody is evicted.  Otherwise nothing changes and no connection is sought;
    a peer is named for eviction exactly when the interval since the last eviction
    has passed and some connected peer has an average latency above the threshold:
    the one with the highest average, inbound or outbound.  In particular, within
    the interval nobody is evicted however far the limit is exceeded. *)
Lemma manage_outbound_spec (count now : Z) (s s' : PeerManager) (slow : option (PeerId * Z)) (effects : list Effect) :
  manage_outbound_connections count now s = (s', slow, effects) ->
  (count < max_outbound_peers s ->
     slow = None /\ s' = set_book (pop (address_book s)).1 s /\
     (forall e, e ∈ effects <-> exists addr, e = ConnectTo addr /\ (pop (address_book s)).2 = Some addr /\
        connections s !! addr = None)) /\
  (max_outbound_peers s <= count ->
     s' = s /\ effects = [] /\
     match slow with
     | Some (p, l) => EVICTION_INTERVAL < elapsed now (last_eviction s) /\
         latency_of s p l /\ SLOW_PEER_LATENCY < l /\ (forall q m, latency_of s q m -> m <= l)
     | None => elapsed now (last_eviction s) <= EVICTION_INTERVAL \/
         forall q m, latency_of s q m -> m <= SLOW_PEER_LATENCY
     end).
Proof.
  unfold manage_outbound_connections. destruct (Z.ltb_spec count (max_outbound_peers s)) as [Hlt | Hge].
  - destruct (pop (address_book s)) as [b [addr |]]; cbn [fst snd]; intros [= <- <- <-]; (split; [| lia]); intros _;
      (split_and!; [done | done |]); intros e.
    + cbn [set_book connections]. case_bool_decide as Hc.
      * split; [set_solver |]. intros (a & _ & [= <-] & Hn). rewrite Hn in Hc. by destruct Hc.
      * rewrite list_elem_of_singleton. split; [intros ->; exists addr; by rewrite eq_None_not_Some |].
        by intros (a & -> & [= <-] & _).
    + split; [set_solver |]. by intros (a & _ & ? & _).
  - cbn [orb]. intros Hr. split; [lia |]. intros _.
    destruct (Z.ltb_spec EVICTION_INTERVAL (elapsed now (last_eviction s))) as [He | He];
      injection Hr as <- <- <-; (split_and!; [done | done |]); [| by left].
    pose proof (max_by_latency_spec (slow_peers s)) as Hm. destruct (max_by_latency (slow_peers s)) as [[p l] |].
    + destruct Hm as [[Hl Hs]%slow_peers_spec Hmax]. split_and!; try done. intros q m Hq.
      destruct (decide (SLOW_PEER_LATENCY < m)); [| lia]. apply (Hmax (q, m)). by apply slow_peers_spec.
    + right. intros q m Hq. destruct (decide (SLOW_PEER_LATENCY < m)); [| lia].
      assert ((q, m) ∈ slow_peers s) as Hin by (by apply slow_peers_spec). rewrite Hm in Hin. by apply elem_of_nil in Hin.
Qed.
End outbound.

(** ** Pings *)

(** The pongs counted in a tracker, without saturation. *)
Definition tracks (t : LatencyTracker) (latencies : list Z) : Prop :=
  received_pongs t = Z.of_nat (length latencies) /\ total_latency t = zsum latencies.

Section pings.
Context `{!HashOrder}.
Implicit Types (s : PeerManager).

(** a pong is counted exactly when it answers the ping that is awaited, in time:
    then the latency enters the average, and another pong is refused until the next
    ping; every refusal leaves the state alone. *)
Lemma on_pong_spec peer nonce now s latencies i t expected :
  connected_peers s !! peer = Some i -> ping_state i = AwaitingPong t expected ->
  tracks (ping_latency i) latencies -> Forall (fun l => 0 <= l < PING_TIMEOUT) latencies ->
  Z.of_nat (length latencies) < 2 ^ 63 ->
  let l := elapsed now t in
  if decide (nonce = expected /\ l < PING_TIMEOUT) then
    exists s' i', on_pong peer nonce now s = (s', inr (zsum (l :: latencies) / Z.of_nat (S (length latencies)))) /\
      connected_peers s' !! peer = Some i' /\ tracks (ping_latency i') (l :: latencies) /\
      (forall nonce' now', on_pong peer nonce' now' s' = (s', inl UnexpectedPong))
  else exists e, on_pong peer nonce now s = (s, inl e).
Proof.
  intros Hi Hp [Hr Ht] Hl Hlen l. unfold on_pong. rewrite Hi, Hp. fold l. case_decide as Hd.
  2:{ destruct (Z.eqb_spec nonce expected); cbn [negb]; [| by eexists].
      destruct (Z.leb_spec PING_TIMEOUT l); [by eexists | tauto]. }
  destruct Hd as [-> Hlt]. rewrite Z.eqb_refl. cbn [negb]. destruct (Z.leb_spec PING_TIMEOUT l); [lia |].
  assert (0 <= zsum latencies <= PING_TIMEOUT * Z.of_nat (length latencies)) as Hsum.
  { clear - Hl. unfold zsum. induction Hl as [| x ls Hx Hl IH]; cbn [foldr length]; unfold PING_TIMEOUT in *; lia. }
  assert (0 <= l) by (unfold l, elapsed; lia).
  unfold record_pong. rewrite Hr, Ht.
  rewrite !Z.min_l by (unfold u64_max, u128_max, PING_TIMEOUT in *; lia).
  replace (Z.of_nat (length latencies) + 1) with (Z.of_nat (S (length latencies))) by lia.
  replace (zsum latencies + l) with (zsum (l :: latencies)) by (unfold zsum; cbn; lia).
  do 2 eexists. split; [done |]. cbn [set_connected connected_peers]. rewrite lookup_insert_eq.
  split; [done |]. split; [by split |]. done.
Qed.
End pings.

(** ** A concrete manager *)

Module SampleManager.
Import SampleOrder.

(** The random choice takes the first. *)
#[export] Instance first_choice : RandomChoice := {| choice := head |}.
#[export] Instance first_choice_laws : RandomChoiceLaws.
Proof. split; intros [| x l]; cbn; [done | by intros ? [= <-]; left | done | done]. Qed.

Definition full_node (version : Z) : VersionMessage :=
  mk_version version 9 0 (mk_address 0 None) (mk_address 0 None) 0 "peer"%string 100 true.
(** A connected peer that has sent two pongs. *)
Definition peer_of (direction : Direction) (total : Z) : PeerInfo := {|
  pi_best_height := 100; pi_services := 9; pi_user_agent := "peer"%string; pi_receiver := mk_address 0 None;
  pi_relay := true; pi_wtxidrelay := false; pi_version := 70016; pi_nonce := 0; prefer_headers := false;
  want_addrv2 := false; ping_latency := mk_latency 2 total; ping_state := PingIdle 0; has_sent_ping := true;
  pi_direction := direction; fee_filter := None; invalid_tx_count := 0;
|}.

(** An inbound and an outbound peer, of average latency 900 and 700, and a fast one. *)
Definition slow_in : PeerId := PeerV4 1 8333.
Definition slow_out : PeerId := PeerV4 2 8333.
Definition fast : PeerId := PeerV4 3 8333.
Definition manager (max_outbound : Z) : PeerManager :=
  set_connected
    (<[slow_in := peer_of Inbound 1800]> (<[slow_out := peer_of Outbound 1400]> {[ fast := peer_of Outbound 40 ]}))
    (pm_new (config_new "subcoin"%string) max_outbound 0).
End SampleManager.

Module ManagerWitness.
Import SampleOrder SampleManager.

(** At the limit of outbound peers the slowest peer is evicted, an inbound one;
    below the limit nobody is. *)
Lemma manage_outbound_spec_witness :
  let now := EVICTION_INTERVAL + 1 in
  manage_outbound_connections 2 now (manager 1) = (manager 1, Some (slow_in, 900), []) /\
  (forall q m, latency_of (manager 1) q m -> m <= 900) /\
  (manage_outbound_connections 2 now (manager 3)).1.2 = None.
Proof.
  intros now.
  assert (manage_outbound_connections 2 now (manager 1) = (manager 1, Some (slow_in, 900), [])) as Hat
    by (vm_compute; reflexivity).
  split; [exact Hat |]. split.
  - destruct (manage_outbound_spec 2 now _ _ _ _ Hat) as [_ Hge].
    destruct Hge as (_ & _ & _ & _ & _ & Hmax); [cbn; lia | exact Hmax].
  - destruct (manage_outbound_connections 2 now (manager 3)) as [[s' slow] e] eqn:Hrun.
    destruct (manage_outbound_spec 2 now _ _ _ _ Hrun) as [Hlt _].
    destruct Hlt as [-> _]; [cbn; lia | reflexivity].
Defined.
End ManagerWitness.
