(* ===== verification/SyncTypes.v ===== *)
(** * Checkpoints and types of the sync ([crates/subcoin-network/src/checkpoint.rs], [sync.rs])

    The checkpoints that limit the first download of headers, and the types that the
    strategies of the sync share. *)

From Stdlib Require Import ZArith Lia.
From stdpp Require Import prelude gmap.
From S2P Require Import Prelude Bitcoin Client HeaderVerify NetworkTypes.

(** [subcoin_primitives::IndexedBlock]. *)
Record IndexedBlock := mk_indexed { ib_number : Z; ib_hash : bytes }.

#[export] Instance IndexedBlock_eq_dec : EqDecision IndexedBlock.
Proof. solve_decision. Defined.

(** [bitcoin::p2p::message::MAX_INV_SIZE]. *)
Definition MAX_INV_SIZE : Z := 50000.

(** Heights and hashes; a hash is written as the number its hexadecimal text
    denotes. *)
Definition checkpoint_table : list (Z * Z) :=
  [
   (11111, 0x69e244f73d78e8fd29ba2fd2ed618bd6fa2ee92559f542fdb26e7c1d);
   (33333, 0x2dd5588a74784eaa7ab0507a18ad16a236e7b1ce69f00d7ddfb5d0a6);
   (74000, 0x573993a3c9e41ce34471c079dcf5f52a0e824a81e7f953b8661a20);
   (105000, 0x291ce28027faea320c8d2b054b2e0fe44a773f3eefb151d6bdc97);
   (134444, 0x5b12ffd4cd315cd34ffd4a594f430ac814c91184a0d42d2b0fe);
   (168000, 0x99e61ea72015e79632f216fe6cb33d7899acb35b75c8303b763);
   (193000, 0x59f452a5f7340de6682a977387c17010ff6e6c3bd83ca8b1317);
   (210000, 0x48b95347e83192f69cf0366076336c639f9b7228e9ba171342e);
   (216116, 0x1b4f4b433e81ee46494af945cf96014816a4e2370f11b23df4e);
   (225430, 0x1c108384350f74090433e7fcf79a606b8e797f065b130575932);
   (250000, 0x3887df1f29024b06fc2200b55f8af8f35453d7be294df2d214);
   (267300, 0xa83fbd660e918f218bf37edd92b748ad940483c7c116179ac);
   (279000, 0x1ae8c72a0b0c301f67e3afca10e819efa9041e458e9bd7e40);
   (300255, 0x162804527c6e9b9f0563a280525f9d08c12041def0a0f3b2);
   (319400, 0x21c6052e9becade189495d1c539aa37c58917305fd15f13b);
   (343185, 0x72b8bf361d01a6ba7d445dd024203fafc78768ed4368554);
   (352940, 0x10755df42dba556bb72be6a32f3ce0b6941ce4430152c9ff);
   (382320, 0xa8dc6ed5b133d0eb2fd6af56203e4159789b092defd8ab2);
   (400000, 0x4ec466ce4732fe6f1ed1cddc2ed4b328fff5224276e3f6f);
   (430000, 0x1868b2bb3a285f3cc6b33ea234eb70facf4dcdf22186b87);
   (460000, 0xef751bbce8e744ad303c47ece06c8d863e4d417efc258c);
   (490000, 0xde069137b17b8d5a3dfbd5b145b2dcfb203f15d0c4de90);
   (520000, 0xd26984c0229c9f6962dc74db0a6d525f2f1640396f69c);
   (550000, 0x223b7a2298fb1c6c75fb0efc28a4c56853ff4112ec6bc9);
   (560000, 0x2c7b276daf6efb2b6aa68e2ce3be67ef925b3264ae7122);
   (563378, 0xf1c54590ee18d15ec70e68c8cd4cfbadb1b4f11697eee);
   (597379, 0x5f8920febd3925f8272a6a71237563d78c2edfdd09ddf);
   (623950, 0xf2adce67e49b0b6bdeb9de8b7c3d7e93b21e7fc1e819d);
   (654683, 0xb9d2ec5a352ecba0592946514a92f14319dc2b367fc72);
   (691719, 0x8a89e854d57e5667df88f1cdef6fde2fbca1de5b639ad);
   (724466, 0x52d314a259755ca65944e68df6b12a067ea8f1f5a7091);
   (751565, 0x9c97098b5295f7e5f183ac811fb5d1534040adb93cabd);
   (781565, 0x2b8c04999434c33b8e033f11a977b288f8411766ee61c);
   (800000, 0x2a7c4c1e48d76c5a37902165a270156b7a8d72728a054);
   (810000, 0x28028ca82b6aa81ce789e4eb9e0321b74c3cbaf405dd1)].

Fixpoint build_checkpoints {E : Type} (start : Z) (table : list (Z * Z)) : res E (list IndexedBlock) :=
  match table with
  | [] => Ok []
  | (number, text) :: table =>
      range ← expect (checked_u32 (number - start));
      if MAX_INV_SIZE <? range then Panic
      else
        rest ← build_checkpoints number table;
        Ok (mk_indexed number (parse_hash text) :: rest)
  end.

Definition CHECKPOINTS : list IndexedBlock :=
  match build_checkpoints (E := Empty_set) 0 checkpoint_table with Ok l => l | _ => [] end.

(** [binary_search_by_key] on a list without equal keys: the position of the
    key, or where it could be inserted. *)
Definition binary_search_by_key (key : Z) (l : list IndexedBlock) : nat + nat :=
  let i := length (filter (fun c => ib_number c < key) l) in
  match l !! i with
  | Some c => if ib_number c =? key then inl i else inr i
  | None => inr i
  end.

Definition next_checkpoint (block_number : Z) : option IndexedBlock :=
  match binary_search_by_key block_number CHECKPOINTS with
  | inl _ => None
  | inr index => CHECKPOINTS !! index
  end.

Definition last_checkpoint_height {E : Type} : res E Z :=
  c ← expect (last CHECKPOINTS);
  Ok (ib_number c).

(** ** Properties *)

(** The table is accepted: building it does not panic. *)
Lemma checkpoints_build : build_checkpoints (E := Empty_set) 0 checkpoint_table = Ok CHECKPOINTS.
Proof. vm_compute. reflexivity. Qed.

(** Strictly ascending heights, at most one [inv] message apart. *)
Fixpoint spaced (start : Z) (l : list IndexedBlock) : Prop :=
  match l with
  | [] => True
  | c :: l => start < ib_number c <= start + MAX_INV_SIZE /\ spaced (ib_number c) l
  end.

Lemma checkpoints_spaced : spaced 0 CHECKPOINTS.
Proof. vm_compute. repeat split; discriminate. Qed.

Lemma spaced_above start l c : spaced start l -> c ∈ l -> start < ib_number c.
Proof.
  revert start. induction l as [| x l IH]; intros start; cbn; [by intros _ ?%elem_of_nil |].
  intros [Hx Hs] [-> | Hc]%elem_of_cons; [lia |]. specialize (IH _ Hs Hc). lia.
Qed.

Lemma search_spaced start l key :
  spaced start l ->
  match binary_search_by_key key l with
  | inl i => exists c, l !! i = Some c /\ ib_number c = key
  | inr i => (forall c, c ∈ l -> ib_number c <> key) /\
      match l !! i with
      | Some c => key < ib_number c /\ forall c', c' ∈ l -> key < ib_number c' -> ib_number c <= ib_number c'
      | None => forall c, c ∈ l -> ib_number c < key
      end
  end.
Proof.
  unfold binary_search_by_key. revert start. induction l as [| x l IH]; intros start; cbn [spaced].
  { intros _. cbn. split; by intros c ?%elem_of_nil. }
  intros [Hx Hs]. specialize (IH _ Hs). pose proof (fun c => spaced_above _ l c Hs) as Habove. rewrite filter_cons.
  case_decide as Hk; cbn [length lookup list_lookup].
  - change ((x :: l) !! S (length (filter (fun c => ib_number c < key) l)))
      with (l !! length (filter (fun c => ib_number c < key) l)).
    destruct (l !! length (filter (fun c => ib_number c < key) l)) as [c |] eqn:Hl.
    + destruct (ib_number c =? key) eqn:Hc; bools; [exists c; split; [exact Hl | done] |].
      rewrite Hl in IH. destruct IH as (Hne & Hgt & Hmin).
      change ((x :: l) !! S (length (filter (fun c => ib_number c < key) l)))
        with (l !! length (filter (fun c => ib_number c < key) l)). rewrite Hl.
      split; [intros c' [-> | Hc']%elem_of_cons; [lia | by apply Hne] |]. split; [done |].
      intros c' [-> | Hc']%elem_of_cons; [lia | by apply Hmin].
    + rewrite Hl in IH. destruct IH as [Hne Hlt].
      change ((x :: l) !! S (length (filter (fun c => ib_number c < key) l)))
        with (l !! length (filter (fun c => ib_number c < key) l)). rewrite Hl.
      split; intros c [-> | Hc]%elem_of_cons; [lia | by apply Hne | lia | by apply Hlt].
  - assert (Hnil : filter (fun c => ib_number c < key) l = []).
    { destruct (filter (fun c => ib_number c < key) l) as [| c r] eqn:Hf; [done |]. exfalso.
      assert (Hc : c ∈ filter (fun c => ib_number c < key) l) by (rewrite Hf; left).
      apply list_elem_of_filter in Hc as [Hlt Hc%Habove]. lia. }
    rewrite Hnil. cbn. destruct (ib_number x =? key) eqn:Hc; bools; [by exists x |].
    split; [intros c [-> | Hc']%elem_of_cons; [lia | apply Habove in Hc'; lia] |]. split; [lia |].
    intros c [-> | Hc']%elem_of_cons; [lia | apply Habove in Hc'; lia].
Qed.

(** The next checkpoint of a height is the lowest one above it; but at a
    height that is itself a checkpoint there is none, although a later one may
    exist. *)
Lemma next_checkpoint_spec n :
  0 <= n ->
  match next_checkpoint n with
  | Some c => c ∈ CHECKPOINTS /\ n < ib_number c /\ forall c', c' ∈ CHECKPOINTS -> n < ib_number c' -> ib_number c <= ib_number c'
  | None => (exists c, c ∈ CHECKPOINTS /\ ib_number c = n) \/ forall c, c ∈ CHECKPOINTS -> ib_number c < n
  end.
Proof.
  intros Hn. pose proof (search_spaced 0 CHECKPOINTS n checkpoints_spaced) as Hs. unfold next_checkpoint.
  destruct (binary_search_by_key n CHECKPOINTS) as [i | i].
  - destruct Hs as (c & Hc & <-). left. exists c. split; [by eapply list_elem_of_lookup_2 | done].
  - destruct Hs as [_ Hs]. destruct (CHECKPOINTS !! i) as [c |] eqn:Hi; [| by right].
    destruct Hs. split; [by eapply list_elem_of_lookup_2 | done].
Qed.

Lemma next_checkpoint_spec_witness :
  (exists c, next_checkpoint 800 = Some c /\ ib_number c = 11111 /\ c ∈ CHECKPOINTS) /\
  next_checkpoint 11111 = None /\ exists c, c ∈ CHECKPOINTS /\ ib_number c = 11111.
Proof.
  split.
  - pose proof (next_checkpoint_spec 800 ltac:(lia)) as Hs. destruct (next_checkpoint 800) as [c |] eqn:Hc; [| discriminate Hc].
    exists c. split; [done |]. split; [| apply Hs]. vm_compute in Hc. injection Hc as <-. done.
  - split; [vm_compute; reflexivity |]. pose proof (next_checkpoint_spec 11111 ltac:(lia)) as Hs.
    assert (Hn : next_checkpoint 11111 = None) by (vm_compute; reflexivity). rewrite Hn in Hs.
    destruct Hs as [Hs | Hs]; [exact Hs |]. exists (mk_indexed 11111 (parse_hash 0x69e244f73d78e8fd29ba2fd2ed618bd6fa2ee92559f542fdb26e7c1d)).
    split; [| done]. apply list_elem_of_lookup. exists 0%nat. vm_compute. reflexivity.
Defined.

(** ** Actions and requests of the chain sync ([crates/subcoin-network/src/sync.rs])

    The sync strategies are state machines: an event of the network changes
    their state and yields an action for the network processor. *)

Record LocatorRequest := mk_locator_request {
  lr_locator_hashes : list bytes;
  stop_hash : bytes;
  lr_to : PeerId;
}.

Inductive SyncRequest :=
| RequestHeader (request : LocatorRequest)
| RequestInventory (request : LocatorRequest)
| RequestData (inv : list Inventory) (from : PeerId).

(** The errors of the network that the sync reports. *)
Inductive SyncError :=
| BadProofOfWork (hash : bytes)
| InvHasTooManyBlockItems
| TooManyHeaders
| HeadersNotInAscendingOrder
| MissingFirstHeaderParent
| TooManyInventoryItems.

Inductive SyncAction :=
| SyncSend (request : SyncRequest)
| SwitchToBlocksFirstSync
| SyncDisconnectPeer (peer : PeerId) (e : SyncError)
| RestartSyncWithStalledPeer (peer : PeerId)
| SetIdle
| SyncNone.

Definition get_headers (request : LocatorRequest) : SyncAction := SyncSend (RequestHeader request).
Definition get_inventory (request : LocatorRequest) : SyncAction := SyncSend (RequestInventory request).
Definition get_data (inv : list Inventory) (from : PeerId) : SyncAction := SyncSend (RequestData inv from).

Inductive SyncStatus :=
| StatusIdle
| StatusDownloading (target : Z) (peers : list PeerId)
| StatusImporting (target : Z) (peers : list PeerId).

(** Addition on [u32], which panics on overflow. *)
Definition add_u32 {E : Type} (a b : Z) : res E Z := expect (checked_u32 (a + b)).
Definition sub_u32 {E : Type} (a b : Z) : res E Z := expect (checked_u32 (a - b)).
