(* ===== verification/BlocksFirst.v ===== *)
(** * Blocks-first sync ([crates/subcoin-network/src/sync/strategy/blocks_first.rs])

    Inventories of at most 500 blocks are requested with [getblocks]; the blocks
    they announce are downloaded in batches.  The client is an argument of the
    operations: blocks are imported meanwhile.  Each operation returns the
    action for the network and the messages for the store of peers. *)

From Stdlib Require Import ZArith Lia.
From stdpp Require Import prelude gmap.
From S2P Require Import Prelude Collections Bitcoin Client MempoolTypes NetworkTypes OrphanPool BlockDownloader SyncTypes.

Definition MAX_GET_BLOCKS_RESPONSE : Z := 500.

(** A range of heights excludes its end. *)
Inductive BlocksState :=
| BfIdle
| BfRestarting
| BfDisconnecting
| BfFetchingInventory (start end_ : Z)
| BfFetchingBlockData (start end_ : Z)
| BfCompleted.

Definition is_fetching_block_data (s : BlocksState) : bool :=
  match s with BfFetchingBlockData _ _ => true | _ => false end.

Record InventoryRequester := mk_inv_requester {
  ir_peer_id : PeerId;
  ir_target_block_number : Z;
  ir_last_locator_request_start : Z;
}.

Inductive InvRequestOutcome :=
| InvRepeatedRequest
| NewGetBlocks (payload : LocatorRequest) (start end_ : Z).

Record BlocksFirstStrategy := mk_blocks_first {
  bf_state : BlocksState;
  bf_peer_id : PeerId;
  bf_target_block_number : Z;
  bf_block_downloader : BlockDownloader;
  inv_requester : InventoryRequester;
}.

Section strategy.
Context `{!ChainApi, !HashOrder, !EncodedSizes} {E : Type}.
Implicit Types (c : Client) (s : BlocksFirstStrategy).

Definition next_inventory_request c (d : BlockDownloader) (r : InventoryRequester) :
    res E (InventoryRequester * InvRequestOutcome) :=
  let from := best_number c `max` best_queued_number d in
  if (0 <? from) && (ir_last_locator_request_start r =? from) then Ok (r, InvRepeatedRequest)
  else
    let r := mk_inv_requester (ir_peer_id r) (ir_target_block_number r) from in
    locator ← block_locator c (Some from) (queued_block_hash (queued_blocks d));
    last ← add_u32 (latest_block locator) MAX_GET_BLOCKS_RESPONSE;
    let end_ := ir_target_block_number r `min` last in
    start ← add_u32 (latest_block locator) 1;
    end_ ← add_u32 end_ 1;
    Ok (r, NewGetBlocks (mk_locator_request (locator_hashes locator) ZERO_HASH (ir_peer_id r)) start end_).

(** Assignments to fields. *)
Definition bf_set_state (st : BlocksState) s : BlocksFirstStrategy :=
  mk_blocks_first st (bf_peer_id s) (bf_target_block_number s) (bf_block_downloader s) (inv_requester s).
Definition bf_set_downloader (d : BlockDownloader) s : BlocksFirstStrategy :=
  mk_blocks_first (bf_state s) (bf_peer_id s) (bf_target_block_number s) d (inv_requester s).
Definition bf_set_requester (r : InventoryRequester) s : BlocksFirstStrategy :=
  mk_blocks_first (bf_state s) (bf_peer_id s) (bf_target_block_number s) (bf_block_downloader s) r.

Definition process_inv_request_outcome (outcome : InvRequestOutcome) s : BlocksFirstStrategy * SyncAction :=
  match outcome with
  | InvRepeatedRequest => (s, SyncNone)
  | NewGetBlocks payload start end_ => (bf_set_state (BfFetchingInventory start end_) s, get_inventory payload)
  end.

Definition inventory_request_action c s : res E (BlocksFirstStrategy * SyncAction) :=
  '(r, outcome) ← next_inventory_request c (bf_block_downloader s) (inv_requester s);
  Ok (process_inv_request_outcome outcome (bf_set_requester r s)).

Definition blocks_first_new c (peer : PeerId) (target : Z) (config : MemoryConfig) (now : Z) :
    res E (BlocksFirstStrategy * SyncAction) :=
  inventory_request_action c
    (mk_blocks_first BfIdle peer target (downloader_new peer (best_number c) config now) (mk_inv_requester peer target 0)).

Definition bf_sync_status s : SyncStatus :=
  let d := bf_block_downloader s in
  if is_saturated (queue_status d) || (is_fetching_block_data (bf_state s) && bool_decide (missing_blocks d = []))
  then StatusImporting (bf_target_block_number s) [bf_peer_id s]
  else StatusDownloading (bf_target_block_number s) [bf_peer_id s].

Definition bf_can_swap_sync_peer s : option PeerId :=
  if downloaded_blocks_count (bf_block_downloader s) =? 0 then Some (bf_peer_id s) else None.

(** The downloader of the new peer. *)
Definition with_peer (peer : PeerId) (d : BlockDownloader) : BlockDownloader :=
  mk_downloader peer (missing_blocks d) (requested_blocks d) (downloaded_blocks d) (blocks_in_queue d) (queued_blocks d)
    (best_queued_number d) (orphan_blocks_pool d) (last_progress_time d) (queue_status d) 0 (memory_config d)
    (downloaded_blocks_memory d) (last_batch_size d).

Definition bf_swap_sync_peer (peer : PeerId) (target : Z) s : BlocksFirstStrategy :=
  mk_blocks_first (bf_state s) peer target (with_peer peer (bf_block_downloader s)) (inv_requester s).

Definition bf_set_peer_best (peer : PeerId) (peer_best : Z) s : BlocksFirstStrategy :=
  if bool_decide (bf_peer_id s = peer)
  then mk_blocks_first (bf_state s) (bf_peer_id s) peer_best (bf_block_downloader s) (inv_requester s) else s.

(** A batch from the downloader. *)
Definition next_batch s : BlocksFirstStrategy * SyncAction :=
  let '(d, inv) := schedule_next_download_batch (bf_block_downloader s) in
  (bf_set_downloader d s, get_data inv (bd_peer_id d)).

Definition evaluate c s : BlocksFirstStrategy * ImportQueueStatus :=
  let '(d, status) := evaluate_queue_status (best_number c) (bf_block_downloader s) in
  (bf_set_downloader d s, status).

(** The end of [on_tick]: stalls, and blocks that are still missing. *)
Definition tick_rest c (now : Z) s : res E (BlocksFirstStrategy * SyncAction * list PeerStoreMessage) :=
  match has_stalled now (bf_block_downloader s) with
  | (Some peer, msgs) => Ok (s, RestartSyncWithStalledPeer peer, msgs)
  | (None, _) =>
      if is_fetching_block_data (bf_state s) then
        let '(s, status) := evaluate c s in
        if is_ready status && bool_decide (requested_blocks (bf_block_downloader s) = ∅) then
          if bool_decide (missing_blocks (bf_block_downloader s) = []) then
            r ← inventory_request_action c s; Ok (r, [])
          else Ok (next_batch s, [])
        else Ok (s, SyncNone, [])
      else Ok (s, SyncNone, [])
  end.

Definition bf_on_tick c (now : Z) s : res E (BlocksFirstStrategy * SyncAction * list PeerStoreMessage) :=
  match bf_state s with
  | BfRestarting => r ← inventory_request_action c s; Ok (r, [])
  | _ =>
      if best_number c =? bf_target_block_number s then Ok (bf_set_state BfCompleted s, SetIdle, [])
      else if is_saturated (queue_status (bf_block_downloader s)) then
        let '(s, status) := evaluate c s in
        if is_ready status then
          if is_fetching_block_data (bf_state s) then
            if bool_decide (missing_blocks (bf_block_downloader s) = []) then
              r ← inventory_request_action c s; Ok (r, [])
            else if bool_decide (requested_blocks (bf_block_downloader s) = ∅) then Ok (next_batch s, [])
            else tick_rest c now s
          else r ← inventory_request_action c s; Ok (r, [])
        else Ok (s, SyncNone, [])
      else tick_rest c now s
  end.

Definition bf_restart (new_peer : PeerId) (target now : Z) s : BlocksFirstStrategy :=
  mk_blocks_first BfRestarting new_peer target (restart new_peer now (bf_block_downloader s))
    (mk_inv_requester new_peer (ir_target_block_number (inv_requester s)) 0).

Definition is_block_inv (inv : Inventory) : bool := match inv with InvBlock _ => true | _ => false end.
Definition count_blocks (inventories : list Inventory) : Z :=
  Z.of_nat (length (filter (fun inv => is_block_inv inv) inventories)).

(** The announced blocks that are not known. *)
Definition missing_of c s (inventories : list Inventory) : list bytes :=
  omap (fun inv => match inv with
    | InvBlock hash =>
        if negb (Client.block_exists c hash) && is_unknown_block (bf_block_downloader s) hash then Some hash else None
    | _ => None
    end) inventories.

Definition bf_on_inv c (inventories : list Inventory) (from : PeerId) s :
    res E (BlocksFirstStrategy * SyncAction) :=
  if negb (bool_decide (from = bf_peer_id s)) then Ok (s, SyncNone)
  else if MAX_GET_BLOCKS_RESPONSE <? count_blocks inventories
  then Ok (bf_set_state BfDisconnecting s, SyncDisconnectPeer (bf_peer_id s) InvHasTooManyBlockItems)
  else
    match bf_state s with
    | BfFetchingInventory start end_ =>
        let missing := missing_of c s inventories in
        if bool_decide (missing = []) then inventory_request_action c s
        else
          let s := bf_set_state (BfFetchingBlockData start end_) s in
          Ok (next_batch (bf_set_downloader (set_missing_blocks missing (bf_block_downloader s)) s))
    | _ => Ok (s, SyncNone)
    end.

Definition bf_schedule_block_download c (number last_target : Z) s : res E (BlocksFirstStrategy * SyncAction) :=
  match number ?= last_target with
  | Lt => Ok (s, SyncNone)
  | Gt => if bf_target_block_number s <=? number then Ok (bf_set_state BfCompleted s, SetIdle) else Ok (s, SyncNone)
  | Eq =>
      let '(s, status) := evaluate c s in
      if is_saturated status then Ok (s, SyncNone)
      else if bool_decide (missing_blocks (bf_block_downloader s) = []) then inventory_request_action c s
      else Ok (next_batch s)
  end.

(** The height of a known block: queued, or in the client. *)
Definition known_height c (d : BlockDownloader) (hash : bytes) : option Z :=
  match block_number d hash with
  | Some n => Some n
  | None => backend_block_number c hash
  end.

Definition bf_on_block c (block : Block) (from : PeerId) (now : Z) s :
    res E (BlocksFirstStrategy * SyncAction * list PeerStoreMessage) :=
  if negb (bool_decide (from = bf_peer_id s)) then Ok (s, SyncNone, [])
  else
    match bf_state s with
    | BfFetchingBlockData _ end_ =>
        last_target ← sub_u32 end_ 1;
        let hash := hash_of block in
        if BlockDownloader.block_exists (bf_block_downloader s) hash then Ok (s, SyncNone, [])
        else
          let maybe_parent := known_height c (bf_block_downloader s) (parent_of block) in
          let '(d, requested) := on_block_response hash now (bf_block_downloader s) in
          let s := bf_set_downloader d s in
          match maybe_parent with
          | Some parent_number =>
              number ← add_u32 parent_number 1;
              '(d, msgs) ← add_block number hash block from d;
              '(s, action) ← bf_schedule_block_download c number last_target (bf_set_downloader d s);
              Ok (s, action, msgs)
          | None =>
              if contains_unknown_block (orphan_blocks_pool d) hash then Ok (s, SyncNone, [])
              else if (requested : bool) then Ok (bf_set_downloader (add_orphan_block block d) s, SyncNone, [])
              else
                d ← add_unknown_block block d;
                let '(s, status) := evaluate c (bf_set_downloader d s) in
                if is_saturated status then Ok (s, SyncNone, [])
                else '(s, action) ← inventory_request_action c s; Ok (s, action, [])
          end
    | _ => Ok (s, SyncNone, [])
    end.
End strategy.
