(* ===== verification/HeadersFirst.v ===== *)
(** * Headers-first sync ([crates/subcoin-network/src/sync/strategy/headers_first.rs])

    Headers are downloaded up to the next checkpoint, then the blocks they
    announce; meanwhile the headers of the checkpoint after it are prefetched.
    As for the blocks-first strategy the client and the clock are arguments, and
    messages for the store of peers are returned. *)

From Stdlib Require Import ZArith Lia Sorted.
From stdpp Require Import prelude gmap.
From S2P Require Import Prelude Collections Bitcoin Client HeaderVerify MempoolTypes NetworkTypes OrphanPool BlockDownloader.
From S2P Require Import SyncTypes BlocksFirst.

Definition MAX_HEADERS_SIZE : nat := 2000.

(** [IndexMap<BlockHash, u32>]: a map that remembers the order of insertion. *)
Definition HeaderMap : Type := list (bytes * Z).

Fixpoint header_insert (hash : bytes) (number : Z) (m : HeaderMap) : HeaderMap :=
  match m with
  | [] => [(hash, number)]
  | (h, n) :: m => if bool_decide (h = hash) then (h, number) :: m else (h, n) :: header_insert hash number m
  end.

Fixpoint header_get (hash : bytes) (m : HeaderMap) : option Z :=
  match m with
  | [] => None
  | (h, n) :: m => if bool_decide (h = hash) then Some n else header_get hash m
  end.

(** The first header with a height. *)
Fixpoint header_at (height : Z) (m : HeaderMap) : option bytes :=
  match m with
  | [] => None
  | (h, n) :: m => if n =? height then Some h else header_at height m
  end.

Inductive BlockDownload :=
| AllBlocks (start end_ : IndexedBlock)
| Batches (paused : bool).

Record HeaderRequester := mk_header_requester {
  hr_peer_id : PeerId;
  hr_headers : HeaderMap;
  completed_range : option (IndexedBlock * IndexedBlock);
  hr_last_locator_request_start : Z;
}.

Inductive HeaderPrefetch :=
| PrefetchNone
| PrefetchInitiated (checkpoint anchor : IndexedBlock) (requester : HeaderRequester)
| PrefetchFetching (checkpoint anchor : IndexedBlock) (requester : HeaderRequester)
| PrefetchReady (headers : HeaderMap) (start end_ : IndexedBlock).

Inductive HeadersState :=
| HfIdle
| HfRestartingHeaders
| HfRestartingBlocks (start end_ : IndexedBlock)
| HfDisconnecting
| HfFetchingHeaders (start end_ : IndexedBlock)
| HfFetchingBlockData (download : BlockDownload)
| HfCompleted.

Inductive HeaderRequestOutcome :=
| ExhaustedCheckpoint
| HeaderRepeatedRequest
| NewGetHeaders (payload : LocatorRequest) (start end_ : IndexedBlock).

Record PrefetchStats := mk_prefetch_stats { hits : Z; misses : Z }.

Record HeadersFirstStrategy := mk_headers_first {
  hf_state : HeadersState;
  hf_peer_id : PeerId;
  hf_block_downloader : BlockDownloader;
  header_requester : HeaderRequester;
  hf_target_block_number : Z;
  header_prefetch : HeaderPrefetch;
  prefetch_stats : PrefetchStats;
}.

(** [sort_by_key] is stable. *)
Fixpoint insert_by_key (key : bytes -> Z) (x : bytes) (l : list bytes) : list bytes :=
  match l with
  | [] => [x]
  | y :: l => if key x <=? key y then x :: y :: l else y :: insert_by_key key x l
  end.
Definition sort_by_key (key : bytes -> Z) (l : list bytes) : list bytes := foldr (insert_by_key key) [] l.

(** 127.0.0.0/8; 10.0.0.0/8, 172.16.0.0/12, 192.168.0.0/16; 0.0.0.0. *)
Definition is_local_address (peer : PeerId) : bool :=
  match peer with
  | PeerV4 ip _ =>
      (Z.shiftr ip 24 =? 127) ||
      ((Z.shiftr ip 24 =? 10) || (Z.shiftr ip 20 =? 0xac1) || (Z.shiftr ip 16 =? 0xc0a8)) || (ip =? 0)
  | PeerV6 _ _ => false
  end.

Section strategy.
Context `{!ChainApi, !PowApi, !HashOrder, !EncodedSizes} {E : Type}.
Context (chain_params : ChainParams).
Implicit Types (c : Client) (s : HeadersFirstStrategy) (r : HeaderRequester).

(** *** Headers *)

Definition compute_missing_blocks c (best : Z) r : res E (list bytes) :=
  rassert (bool_decide (is_Some (completed_range r)));;
  Ok (sort_by_key (fun hash => default 0 (header_get hash (hr_headers r)))
        (omap (fun '(hash, number) =>
           if best <? number then Some hash else if Client.block_exists c hash then None else Some hash) (hr_headers r))).

Definition next_header_request_at c (number : Z) (hash : bytes) r : res E (HeaderRequester * HeaderRequestOutcome) :=
  next ← add_u32 number 1;
  match next_checkpoint next with
  | None => Ok (r, ExhaustedCheckpoint)
  | Some checkpoint =>
      if (0 <? number) && (number =? hr_last_locator_request_start r) then Ok (r, HeaderRepeatedRequest)
      else
        _ ← sub_u32 (E := E) (ib_number checkpoint) number;
        locator ← block_locator c (Some number) (fun _ => None);
        Ok (mk_header_requester (hr_peer_id r) [] None number,
            NewGetHeaders (mk_locator_request (locator_hashes locator) (ib_hash checkpoint) (hr_peer_id r))
              (mk_indexed number hash) checkpoint)
  end.

(** The headers that chain from a block, with valid work, stored with their
    heights; what was stored before an error stays. *)
Fixpoint validate_and_store_headers (headers : list Header) (hash : bytes) (number : Z) (m : HeaderMap) :
    res E (HeaderMap * (SyncError + bytes * Z)) :=
  match headers with
  | [] => Ok (m, inr (hash, number))
  | header :: headers =>
      if negb (bool_decide (prev_blockhash header = hash)) then Ok (m, inl HeadersNotInAscendingOrder)
      else if negb (has_valid_proof_of_work chain_params header) then Ok (m, inl (BadProofOfWork (block_hash header)))
      else
        number ← add_u32 number 1;
        validate_and_store_headers headers (block_hash header) number (header_insert (block_hash header) number m)
  end.

(** Assignments to fields. *)
Definition hf_set_state (st : HeadersState) s : HeadersFirstStrategy :=
  mk_headers_first st (hf_peer_id s) (hf_block_downloader s) (header_requester s) (hf_target_block_number s)
    (header_prefetch s) (prefetch_stats s).
Definition hf_set_downloader (d : BlockDownloader) s : HeadersFirstStrategy :=
  mk_headers_first (hf_state s) (hf_peer_id s) d (header_requester s) (hf_target_block_number s)
    (header_prefetch s) (prefetch_stats s).
Definition hf_set_requester r s : HeadersFirstStrategy :=
  mk_headers_first (hf_state s) (hf_peer_id s) (hf_block_downloader s) r (hf_target_block_number s)
    (header_prefetch s) (prefetch_stats s).
Definition hf_set_prefetch (p : HeaderPrefetch) s : HeadersFirstStrategy :=
  mk_headers_first (hf_state s) (hf_peer_id s) (hf_block_downloader s) (header_requester s) (hf_target_block_number s)
    p (prefetch_stats s).
Definition hf_set_stats (st : PrefetchStats) s : HeadersFirstStrategy :=
  mk_headers_first (hf_state s) (hf_peer_id s) (hf_block_downloader s) (header_requester s) (hf_target_block_number s)
    (header_prefetch s) st.

Definition process_header_request_outcome (outcome : HeaderRequestOutcome) s : HeadersFirstStrategy * SyncAction :=
  match outcome with
  | HeaderRepeatedRequest => (s, SyncNone)
  | ExhaustedCheckpoint => (hf_set_state HfCompleted s, SwitchToBlocksFirstSync)
  | NewGetHeaders payload start end_ => (hf_set_state (HfFetchingHeaders start end_) s, get_headers payload)
  end.

Definition header_request_action c s : res E (HeadersFirstStrategy * SyncAction) :=
  best_hash ← expect (backend_block_hash c (best_number c));
  '(r, outcome) ← next_header_request_at c (best_number c) best_hash (header_requester s);
  Ok (process_header_request_outcome outcome (hf_set_requester r s)).

Definition new_requester (peer : PeerId) : HeaderRequester := mk_header_requester peer [] None 0.

Definition headers_first_new c (peer : PeerId) (target : Z) (config : MemoryConfig) (now : Z) :
    res E (HeadersFirstStrategy * SyncAction) :=
  header_request_action c
    (mk_headers_first HfIdle peer (downloader_new peer (best_number c) config now) (new_requester peer) target PrefetchNone
       (mk_prefetch_stats 0 0)).

Definition hf_sync_status s : SyncStatus :=
  if is_saturated (queue_status (hf_block_downloader s)) then StatusImporting (hf_target_block_number s) [hf_peer_id s]
  else StatusDownloading (hf_target_block_number s) [hf_peer_id s].

Definition hf_can_swap_sync_peer s : option PeerId :=
  if downloaded_blocks_count (hf_block_downloader s) =? 0 then Some (hf_peer_id s) else None.

Definition requester_peer (peer : PeerId) r : HeaderRequester :=
  mk_header_requester peer (hr_headers r) (completed_range r) (hr_last_locator_request_start r).

Definition hf_swap_sync_peer (peer : PeerId) (target : Z) s : HeadersFirstStrategy :=
  mk_headers_first (hf_state s) peer (with_peer peer (hf_block_downloader s)) (requester_peer peer (header_requester s))
    target PrefetchNone (prefetch_stats s).

Definition hf_set_peer_best (peer : PeerId) (peer_best : Z) s : HeadersFirstStrategy :=
  if bool_decide (hf_peer_id s = peer)
  then mk_headers_first (hf_state s) (hf_peer_id s) (hf_block_downloader s) (header_requester s) peer_best
         (header_prefetch s) (prefetch_stats s)
  else s.

Definition hf_restart (new_peer : PeerId) (target now : Z) s : HeadersFirstStrategy :=
  let r := header_requester s in
  let '(headers, st) := match completed_range r with
    | Some (start, end_) => (hr_headers r, HfRestartingBlocks start end_)
    | None => ([], HfRestartingHeaders)
    end in
  mk_headers_first st new_peer (restart new_peer now (hf_block_downloader s))
    (mk_header_requester new_peer headers (completed_range r) 0) target PrefetchNone (prefetch_stats s).

(** *** Prefetching *)

Definition try_initiate_header_prefetch (number : Z) (hash : bytes) s : res E HeadersFirstStrategy :=
  match header_prefetch s with
  | PrefetchNone =>
      next ← add_u32 number 1;
      match next_checkpoint next with
      | None => Ok s
      | Some checkpoint =>
          Ok (hf_set_prefetch (PrefetchInitiated checkpoint (mk_indexed number hash) (new_requester (hf_peer_id s))) s)
      end
  | _ => Ok s
  end.

(** Downloaded headers first, then the client. *)
Definition search_headers c (m : HeaderMap) (height : Z) : option bytes :=
  match header_at height m with Some hash => Some hash | None => backend_block_hash c height end.

Definition send_prefetch_getheaders c s : res E (HeadersFirstStrategy * SyncAction) :=
  match header_prefetch s with
  | PrefetchInitiated checkpoint anchor requester =>
      let requester := mk_header_requester (hr_peer_id requester) (hr_headers requester) (completed_range requester)
        (ib_number anchor) in
      locator ← block_locator c (Some (ib_number anchor)) (search_headers c (hr_headers (header_requester s)));
      Ok (hf_set_prefetch (PrefetchFetching checkpoint anchor requester) s,
          get_headers (mk_locator_request (locator_hashes locator) (ib_hash checkpoint) (hf_peer_id s)))
  | _ => Panic
  end.

(** The height of the parent of the first header. *)
Definition first_of (o1 o2 : option Z) : option Z := match o1 with Some n => Some n | None => o2 end.

Definition on_prefetch_headers c (headers : list Header) (now : Z) s : res E (HeadersFirstStrategy * SyncAction) :=
  match head headers with
  | None => Ok (s, SyncNone)
  | Some first_header =>
      match header_prefetch s with
      | PrefetchFetching checkpoint anchor requester =>
          let s := hf_set_prefetch PrefetchNone s in
          let prev_hash := prev_blockhash first_header in
          match first_of (header_get prev_hash (hr_headers requester))
                  (first_of (header_get prev_hash (hr_headers (header_requester s))) (backend_block_number c prev_hash)) with
          | None => Ok (s, SyncNone)
          | Some prev_number =>
              '(m, result) ← validate_and_store_headers headers prev_hash prev_number (hr_headers requester);
              match result with
              | inl _ => Ok (s, SyncNone)
              | inr (final_hash, final_number) =>
                  let s := hf_set_downloader (touch_progress now (hf_block_downloader s)) s in
                  if final_number =? ib_number checkpoint
                  then Ok (hf_set_prefetch (PrefetchReady m anchor (mk_indexed final_number final_hash)) s, SyncNone)
                  else
                    locator ← block_locator c (Some final_number) (search_headers c m);
                    let requester := mk_header_requester (hr_peer_id requester) m (completed_range requester) final_number in
                    Ok (hf_set_prefetch (PrefetchFetching checkpoint anchor requester) s,
                        get_headers (mk_locator_request (locator_hashes locator) (ib_hash checkpoint) (hf_peer_id s)))
              end
          end
      | _ => Ok (s, SyncNone)
      end
  end.

(** *** Blocks *)

Definition hf_next_batch s : HeadersFirstStrategy * SyncAction :=
  let '(d, inv) := schedule_next_download_batch (hf_block_downloader s) in
  (hf_set_downloader d s, get_data inv (bd_peer_id d)).

Definition hf_evaluate c s : HeadersFirstStrategy * ImportQueueStatus :=
  let '(d, status) := evaluate_queue_status (best_number c) (hf_block_downloader s) in
  (hf_set_downloader d s, status).

Definition start_block_download c (start end_ : IndexedBlock) s : res E (HeadersFirstStrategy * SyncAction) :=
  missing ← compute_missing_blocks c (best_number c) (header_requester s);
  if bool_decide (missing = []) then header_request_action c s
  else if is_local_address (hf_peer_id s) then
    s ← try_initiate_header_prefetch (ib_number end_) (ib_hash end_)
          (hf_set_state (HfFetchingBlockData (AllBlocks start end_)) s);
    Ok (s, get_data (map InvBlock missing) (hf_peer_id s))
  else
    let s := hf_set_state (HfFetchingBlockData (Batches false)) s in
    s ← try_initiate_header_prefetch (ib_number end_) (ib_hash end_)
          (hf_set_downloader (set_missing_blocks missing (hf_block_downloader s)) s);
    Ok (hf_next_batch s).

Definition try_use_prefetched_headers c (hash : bytes) s :
    res E (HeadersFirstStrategy * option SyncAction) :=
  match header_prefetch s with
  | PrefetchReady headers start end_ =>
      if negb (bool_decide (hash = ib_hash start)) then Ok (hf_set_prefetch PrefetchNone s, None)
      else
        hits ← add_u64 (hits (prefetch_stats s)) 1;
        let s := hf_set_prefetch PrefetchNone (hf_set_stats (mk_prefetch_stats hits (misses (prefetch_stats s))) s) in
        let r := header_requester s in
        let s := hf_set_requester (mk_header_requester (hr_peer_id r) headers (Some (start, end_))
                                     (hr_last_locator_request_start r)) s in
        '(s, action) ← start_block_download c start end_ s;
        s ← try_initiate_header_prefetch (ib_number end_) (ib_hash end_) s;
        Ok (s, Some action)
  | _ => Ok (s, None)
  end.

(** The checkpoint is reached: more headers. *)
Definition request_more_headers c (number : Z) (hash : bytes) s : res E (HeadersFirstStrategy * SyncAction) :=
  let '(s, status) := hf_evaluate c s in
  if is_saturated status then Ok (s, SyncNone)
  else
    '(s, used) ← try_use_prefetched_headers c hash s;
    match used with
    | Some action => Ok (s, action)
    | None =>
        misses ← add_u64 (misses (prefetch_stats s)) 1;
        let s := hf_set_stats (mk_prefetch_stats (hits (prefetch_stats s)) misses) s in
        '(r, outcome) ← next_header_request_at c number hash (header_requester s);
        Ok (process_header_request_outcome outcome (hf_set_requester r s))
    end.

(** After a batch: pipeline, next batch, pause or more headers. *)
Definition schedule_batches c (number : Z) (hash : bytes) s : res E (HeadersFirstStrategy * SyncAction) :=
  if bool_decide (requested_blocks (hf_block_downloader s) = ∅) then
    if bool_decide (missing_blocks (hf_block_downloader s) = []) then request_more_headers c number hash s
    else
      let '(s, status) := hf_evaluate c s in
      if is_saturated status then Ok (hf_set_state (HfFetchingBlockData (Batches true)) s, SyncNone)
      else Ok (hf_next_batch s)
  else Ok (s, SyncNone).

Definition hf_schedule_block_download c (number : Z) (hash : bytes) s : res E (HeadersFirstStrategy * SyncAction) :=
  match hf_state s with
  | HfFetchingBlockData (AllBlocks start end_) =>
      if bool_decide (ib_hash end_ = hash) then request_more_headers c number hash s else Ok (s, SyncNone)
  | HfFetchingBlockData (Batches paused) =>
      if should_pipeline (hf_block_downloader s) then
        let '(s, status) := hf_evaluate c s in
        if negb (is_saturated status) then Ok (hf_next_batch s) else schedule_batches c number hash s
      else schedule_batches c number hash s
  | _ => Panic
  end.

Definition hf_on_block c (block : Block) (from : PeerId) (now : Z) s :
    res E (HeadersFirstStrategy * SyncAction * list PeerStoreMessage) :=
  match hf_state s with
  | HfFetchingBlockData _ =>
      let hash := hash_of block in
      let '(d, requested) := on_block_response hash now (hf_block_downloader s) in
      let s := hf_set_downloader d s in
      match known_height c d (parent_of block) with
      | Some parent_number =>
          number ← add_u32 parent_number 1;
          '(d, msgs) ← add_block number hash block from d;
          '(s, action) ← hf_schedule_block_download c number hash (hf_set_downloader d s);
          Ok (s, action, msgs)
      | None => Ok (if (requested : bool) then hf_set_downloader (add_orphan_block block d) s else s, SyncNone, [])
      end
  | _ => Ok (s, SyncNone, [])
  end.

(** *** Headers messages and ticks *)

Definition hf_on_headers c (headers : list Header) (from : PeerId) (now : Z) s :
    res E (HeadersFirstStrategy * SyncAction) :=
  if (MAX_HEADERS_SIZE <? length headers)%nat then Ok (s, SyncDisconnectPeer from TooManyHeaders)
  else
    match head headers with
    | None => Ok (s, SyncNone)
    | Some first_header =>
        match hf_state s, header_prefetch s with
        | HfFetchingBlockData _, PrefetchFetching _ _ _ => on_prefetch_headers c headers now s
        | HfFetchingHeaders start end_, _ =>
            let prev_hash := prev_blockhash first_header in
            match (if bool_decide (prev_hash = ib_hash start) then Some (ib_number start)
                   else first_of (header_get prev_hash (hr_headers (header_requester s))) (backend_block_number c prev_hash)) with
            | None => Ok (hf_set_state HfDisconnecting s, SyncDisconnectPeer (hf_peer_id s) MissingFirstHeaderParent)
            | Some prev_number =>
                let r := header_requester s in
                '(m, result) ← validate_and_store_headers headers prev_hash prev_number (hr_headers r);
                let s := hf_set_requester (mk_header_requester (hr_peer_id r) m (completed_range r)
                                             (hr_last_locator_request_start r)) s in
                match result with
                | inl e => Ok (hf_set_state HfDisconnecting s, SyncDisconnectPeer from e)
                | inr (final_hash, final_number) =>
                    let s := hf_set_downloader (touch_progress now (hf_block_downloader s)) s in
                    if final_number =? ib_number end_ then
                      let r := header_requester s in
                      start_block_download c start end_
                        (hf_set_requester (mk_header_requester (hr_peer_id r) (hr_headers r) (Some (start, end_))
                                             (hr_last_locator_request_start r)) s)
                    else Ok (s, get_headers (mk_locator_request [final_hash] (ib_hash end_) (hf_peer_id s)))
                end
            end
        | _, _ => Ok (s, SyncNone)
        end
    end.

Definition is_initiated (p : HeaderPrefetch) : bool := match p with PrefetchInitiated _ _ _ => true | _ => false end.

(** The end of [on_tick]: the saturated queue, and stalls. *)
Definition hf_tick_queue c (now : Z) s : res E (HeadersFirstStrategy * SyncAction * list PeerStoreMessage) :=
  if is_saturated (queue_status (hf_block_downloader s)) then
    let '(s, status) := hf_evaluate c s in
    if is_ready status then
      match hf_state s with
      | HfFetchingBlockData (Batches true) =>
          let s := hf_set_state (HfFetchingBlockData (Batches false)) s in
          if negb (bool_decide (missing_blocks (hf_block_downloader s) = [])) then Ok (hf_next_batch s, [])
          else r ← header_request_action c s; Ok (r, [])
      | _ => r ← header_request_action c s; Ok (r, [])
      end
    else Ok (s, SyncNone, [])
  else
    match has_stalled now (hf_block_downloader s) with
    | (Some peer, msgs) => Ok (s, RestartSyncWithStalledPeer peer, msgs)
    | (None, _) => Ok (s, SyncNone, [])
    end.

Definition hf_on_tick c (now : Z) s : res E (HeadersFirstStrategy * SyncAction * list PeerStoreMessage) :=
  match hf_state s with
  | HfRestartingHeaders => r ← header_request_action c s; Ok (r, [])
  | HfRestartingBlocks start end_ => r ← start_block_download c start end_ s; Ok (r, [])
  | st =>
      if best_number c =? hf_target_block_number s then Ok (hf_set_state HfCompleted s, SetIdle, [])
      else match st with
           | HfFetchingBlockData _ =>
               if is_initiated (header_prefetch s) then r ← send_prefetch_getheaders c s; Ok (r, [])
               else hf_tick_queue c now s
           | _ => hf_tick_queue c now s
           end
  end.
End strategy.
