(* ===== verification/ChainSync.v ===== *)
(** * Chain sync ([crates/subcoin-network/src/sync.rs])

    The peers, the one strategy that is running, and the choice of the peer to
    sync from by a score.  The atomic flag of major sync is a field; blocks for
    the import queue are returned. *)

From Stdlib Require Import ZArith Lia.
From Stdlib Require Import Floats.SpecFloat.
From stdpp Require Import prelude gmap sorting.
From S2P Require Import Prelude Collections Bitcoin Client HeaderVerify MempoolTypes NetworkTypes OrphanPool BlockDownloader.
From S2P Require Import SyncTypes BlocksFirst HeadersFirst.

Definition MAJOR_SYNC_GAP : Z := 144.
Definition LOW_LATENCY_CUTOFF : Z := 20.
Definition MAX_STALLS : Z := 5.

(** Double precision, as in the downloader. *)
Definition PEER_SCORE_IMPROVEMENT_THRESHOLD : spec_float := f64_div (f64_of 12) (f64_of 10).
Definition LATENCY_WEIGHT : spec_float := f64_div (f64_of 7) (f64_of 10).
Definition RELIABILITY_WEIGHT : spec_float := f64_div (f64_of 3) (f64_of 10).
Definition BASE_RELIABILITY_SCORE : spec_float := f64_of 100.

Inductive PeerSyncState :=
| Available
| Deprioritized (stalled_count : Z)
| DownloadingNew (start : Z).

Definition is_available (st : PeerSyncState) : bool := match st with Available => true | _ => false end.
Definition stalled_count_of (st : PeerSyncState) : Z := match st with Deprioritized n => n | _ => 0 end.
Definition is_permanently_deprioritized (st : PeerSyncState) : bool :=
  match st with Deprioritized n => MAX_STALLS <? n | _ => false end.
Definition is_downloading (st : PeerSyncState) : bool := match st with DownloadingNew _ => true | _ => false end.

Record PeerSync := mk_peer_sync {
  sp_peer_id : PeerId;
  sp_best_number : Z;
  sp_latency : Z;
  sp_state : PeerSyncState;
}.

Definition peer_score (p : PeerSync) : spec_float :=
  let latency_score := f64_of (sp_latency p) in
  let reliability_penalty := f64_mul (f64_of (stalled_count_of (sp_state p))) (f64_of 20) in
  let reliability_score := f64_add BASE_RELIABILITY_SCORE reliability_penalty in
  f64_add (f64_mul latency_score LATENCY_WEIGHT) (f64_mul reliability_score RELIABILITY_WEIGHT).

(** [partial_cmp(..).unwrap_or(Equal)]. *)
Definition compare_scores (x y : spec_float) : comparison := default Eq (SFcompare x y).

(** [Iterator::min_by]: the first of the least elements. *)
Definition min_by {A : Type} (cmp : A -> A -> comparison) (l : list A) : option A :=
  match l with
  | [] => None
  | x :: l => Some (foldl (fun x y => match cmp x y with Gt => y | _ => x end) x l)
  end.

Definition compare_peers (a b : PeerSync) : comparison := compare_scores (peer_score a) (peer_score b).

Definition target_block_number (sync_target : option Z) (peer_best : Z) : Z :=
  match sync_target with Some target => peer_best `min` target | None => peer_best end.

Inductive RestartReason := ReasonStalled | ReasonDisconnected.
Inductive SyncStrategy := StrategyHeadersFirst | StrategyBlocksFirst.
Inductive BlockOrigin := NetworkInitialSync | NetworkBroadcast.

Inductive Syncing :=
| SyncingBlocksFirst (strategy : BlocksFirstStrategy)
| SyncingHeadersFirst (strategy : HeadersFirstStrategy)
| SyncingIdle.

Definition syncing_is_major (s : Syncing) : bool := match s with SyncingIdle => false | _ => true end.

Record ChainSync := mk_chain_sync {
  cs_peers : gmap PeerId PeerSync;
  syncing : Syncing;
  sync_strategy : SyncStrategy;
  is_major_syncing : bool;
  enable_block_sync : bool;
  sync_target : option Z;
  min_sync_peer_threshold : Z;
  cs_memory_config : MemoryConfig;
}.

Definition chain_sync_new (strategy : SyncStrategy) (major enable : bool) (target : option Z) (threshold : Z)
    (config : MemoryConfig) : ChainSync :=
  mk_chain_sync ∅ SyncingIdle strategy major enable target threshold config.

Section sync.
Context `{!ChainApi, !PowApi, !HashOrder, !EncodedSizes, !UnstableSort} {E : Type}.
Context (chain_params : ChainParams).
Implicit Types (c : Client) (s : ChainSync).

(** Assignments to fields. *)
Definition cs_set_peers (peers : gmap PeerId PeerSync) s : ChainSync :=
  mk_chain_sync peers (syncing s) (sync_strategy s) (is_major_syncing s) (enable_block_sync s) (sync_target s)
    (min_sync_peer_threshold s) (cs_memory_config s).
Definition set_syncing (st : Syncing) s : ChainSync :=
  mk_chain_sync (cs_peers s) st (sync_strategy s) (is_major_syncing s) (enable_block_sync s) (sync_target s)
    (min_sync_peer_threshold s) (cs_memory_config s).
Definition update_syncing_state (new : Syncing) s : ChainSync :=
  mk_chain_sync (cs_peers s) new (sync_strategy s) (syncing_is_major new) (enable_block_sync s) (sync_target s)
    (min_sync_peer_threshold s) (cs_memory_config s).
(** [entry(peer_id).and_modify]. *)
Definition set_peer_state (peer : PeerId) (st : PeerSyncState -> PeerSyncState) s : ChainSync :=
  cs_set_peers (alter (fun p => mk_peer_sync (sp_peer_id p) (sp_best_number p) (sp_latency p) (st (sp_state p))) peer
    (cs_peers s)) s.

Definition peer_values s : list PeerSync := omap (fun peer => cs_peers s !! peer) (hash_iter (dom (cs_peers s))).

Definition cs_sync_status s : SyncStatus :=
  match syncing s with
  | SyncingIdle => StatusIdle
  | SyncingBlocksFirst strategy => bf_sync_status strategy
  | SyncingHeadersFirst strategy => hf_sync_status strategy
  end.

Definition is_idle s : bool := match syncing s with SyncingIdle => true | _ => false end.

Definition is_active_sync_peer (peer : PeerId) s : bool :=
  match cs_peers s !! peer with Some p => is_downloading (sp_state p) | None => false end.

Definition cs_on_tick c (now : Z) s : res E (ChainSync * SyncAction * list PeerStoreMessage) :=
  match syncing s with
  | SyncingIdle => Ok (s, SyncNone, [])
  | SyncingBlocksFirst strategy =>
      '(strategy, action, msgs) ← bf_on_tick c now strategy;
      Ok (set_syncing (SyncingBlocksFirst strategy) s, action, msgs)
  | SyncingHeadersFirst strategy =>
      '(strategy, action, msgs) ← hf_on_tick c now strategy;
      Ok (set_syncing (SyncingHeadersFirst strategy) s, action, msgs)
  end.

Definition unreliable_peers s : list PeerId :=
  omap (fun peer => match cs_peers s !! peer with
    | Some p => if is_permanently_deprioritized (sp_state p) then Some peer else None
    | None => None
    end) (hash_iter (dom (cs_peers s))).

(** *** The choice of a peer *)

Definition best_of (candidate : PeerSync -> bool) s : option PeerSync :=
  min_by compare_peers (filter (fun p => candidate p) (peer_values s)).

Definition select_next_peer_for_sync (our_best : Z) (excluded : PeerId) s : option PeerId :=
  match best_of (fun p => negb (bool_decide (sp_peer_id p = excluded)) && (our_best <? sp_best_number p) &&
                          is_available (sp_state p)) s with
  | Some p => Some (sp_peer_id p)
  | None =>
      match best_of (fun p => negb (bool_decide (sp_peer_id p = excluded)) && (our_best <? sp_best_number p) &&
                              negb (is_permanently_deprioritized (sp_state p))) s with
      | Some p => Some (sp_peer_id p)
      | None => None
      end
  end.

(** [select_nth_unstable] at the middle. *)
Definition median_seen s : option Z :=
  let best_seens := map sp_best_number (peer_values s) in
  merge_sort Z.le best_seens !! (length best_seens / 2)%nat.

Definition strategy_restart (peer : PeerId) (target now : Z) (st : Syncing) : Syncing :=
  match st with
  | SyncingBlocksFirst strategy => SyncingBlocksFirst (bf_restart peer target now strategy)
  | SyncingHeadersFirst strategy => SyncingHeadersFirst (hf_restart peer target now strategy)
  | SyncingIdle => SyncingIdle
  end.

Definition restart_sync c (prior : PeerId) (reason : RestartReason) (now : Z) s : ChainSync :=
  let our_best := best_number c in
  match select_next_peer_for_sync our_best prior s with
  | None =>
      match median_seen s with
      | Some median => if median <=? our_best then update_syncing_state SyncingIdle s else s
      | None => s
      end
  | Some new_peer_id =>
      match cs_peers s !! new_peer_id with
      | None => s
      | Some new_peer =>
          let s := set_peer_state new_peer_id (fun _ => DownloadingNew our_best) s in
          let target := target_block_number (sync_target s) (sp_best_number new_peer) in
          let s := set_syncing (strategy_restart (sp_peer_id new_peer) target now (syncing s)) s in
          match reason with
          | ReasonStalled => set_peer_state prior (fun st => Deprioritized (stalled_count_of st + 1)) s
          | ReasonDisconnected => s
          end
      end
  end.

Definition disconnect c (peer : PeerId) (now : Z) s : ChainSync :=
  match cs_peers s !! peer with
  | Some removed =>
      let s := cs_set_peers (delete peer (cs_peers s)) s in
      if is_downloading (sp_state removed) then restart_sync c (sp_peer_id removed) ReasonDisconnected now s else s
  | None => s
  end.

Definition update_peer_best (peer : PeerId) (peer_best : Z) s : ChainSync :=
  match cs_peers s !! peer with
  | Some p =>
      if sp_best_number p <? peer_best then
        let s := cs_set_peers (<[peer := mk_peer_sync (sp_peer_id p) peer_best (sp_latency p) (sp_state p)]> (cs_peers s)) s in
        set_syncing match syncing s with
          | SyncingIdle => SyncingIdle
          | SyncingBlocksFirst strategy => SyncingBlocksFirst (bf_set_peer_best peer peer_best strategy)
          | SyncingHeadersFirst strategy => SyncingHeadersFirst (hf_set_peer_best peer peer_best strategy)
          end s
      else s
  | None => s
  end.

(** Swapping the sync peer while nothing was downloaded. *)
Definition can_swap_sync_peer (st : Syncing) : option PeerId :=
  match st with
  | SyncingIdle => None
  | SyncingBlocksFirst strategy => bf_can_swap_sync_peer strategy
  | SyncingHeadersFirst strategy => hf_can_swap_sync_peer strategy
  end.
Definition swap_sync_peer (peer : PeerId) (target : Z) (st : Syncing) : Syncing :=
  match st with
  | SyncingBlocksFirst strategy => SyncingBlocksFirst (bf_swap_sync_peer peer target strategy)
  | SyncingHeadersFirst strategy => SyncingHeadersFirst (hf_swap_sync_peer peer target strategy)
  | SyncingIdle => SyncingIdle
  end.

(** A low latency of the current peer is logged only. *)
Definition update_sync_peer_on_lower_latency c s : ChainSync :=
  match can_swap_sync_peer (syncing s) with
  | None => s
  | Some current_id =>
      match cs_peers s !! current_id with
      | None => s
      | Some current =>
          let our_best := best_number c in
          match best_of (fun p => negb (bool_decide (sp_peer_id p = current_id)) && (our_best <? sp_best_number p) &&
                                  is_available (sp_state p)) s with
          | None => s
          | Some best =>
              if f64_gt (peer_score best) (f64_of 0) &&
                 f64_gt (f64_div (peer_score current) (peer_score best)) PEER_SCORE_IMPROVEMENT_THRESHOLD
              then
                let peer := sp_peer_id best in
                let target := target_block_number (sync_target s) (sp_best_number best) in
                let s := set_syncing (swap_sync_peer peer target (syncing s)) s in
                let s := set_peer_state current_id (fun _ => Available) s in
                set_peer_state peer (fun _ => DownloadingNew our_best) s
              else s
          end
      end
  end.

Definition update_peer_latency c (peer : PeerId) (avg_latency : Z) s : ChainSync :=
  update_sync_peer_on_lower_latency c
    (cs_set_peers (alter (fun p => mk_peer_sync (sp_peer_id p) (sp_best_number p) avg_latency (sp_state p)) peer (cs_peers s)) s).

(** *** Starting *)

(** Fewer stalls first, then the lower latency. *)
Definition compare_deprioritized (a b : PeerSync) : comparison :=
  match stalled_count_of (sp_state a) ?= stalled_count_of (sp_state b) with
  | Eq => sp_latency a ?= sp_latency b
  | other => other
  end.

Definition is_deprioritized (st : PeerSyncState) : bool := match st with Deprioritized _ => true | _ => false end.

Definition find_sync_peer (our_best : Z) s : option PeerId :=
  match best_of (fun p => (our_best <? sp_best_number p) && is_available (sp_state p)) s with
  | Some p => Some (sp_peer_id p)
  | None =>
      match min_by compare_deprioritized (filter (fun p => (our_best <? sp_best_number p) &&
              is_deprioritized (sp_state p) && negb (is_permanently_deprioritized (sp_state p))) (peer_values s)) with
      | Some p => Some (sp_peer_id p)
      | None => None
      end
  end.

Definition attempt_sync_start c (now : Z) s : res E (ChainSync * SyncAction) :=
  if syncing_is_major (syncing s) then Ok (s, SyncNone)
  else if Z.of_nat (size (cs_peers s)) <? min_sync_peer_threshold s then Ok (s, SyncNone)
  else
    let our_best := best_number c in
    if match sync_target s with Some target => target <=? our_best | None => false end then Ok (s, SyncNone)
    else
      match find_sync_peer our_best s with
      | None => Ok (s, SyncNone)
      | Some next_id =>
          match cs_peers s !! next_id with
          | None => Ok (s, SyncNone)
          | Some next =>
              gap ← sub_u32 (sp_best_number next) our_best;
              let target := target_block_number (sync_target s) (sp_best_number next) in
              last ← last_checkpoint_height;
              let blocks_first := (last <=? our_best) ||
                match sync_strategy s with StrategyBlocksFirst => true | StrategyHeadersFirst => false end in
              '(st, action) ←
                (if negb (MAJOR_SYNC_GAP <? gap) || blocks_first then
                   '(strategy, action) ← blocks_first_new c next_id target (cs_memory_config s) now;
                   Ok (SyncingBlocksFirst strategy, action)
                 else
                   '(strategy, action) ← headers_first_new c next_id target (cs_memory_config s) now;
                   Ok (SyncingHeadersFirst strategy, action));
              Ok (update_syncing_state st (set_peer_state next_id (fun _ => DownloadingNew our_best) s), action)
          end
      end.

Definition add_new_peer c (peer : PeerId) (best latency : Z) (now : Z) s : res E (ChainSync * SyncAction) :=
  let s := cs_set_peers (<[peer := mk_peer_sync peer best latency Available]> (cs_peers s)) s in
  if enable_block_sync s then attempt_sync_start c now s else Ok (s, SyncNone).

Definition start_block_sync c (now : Z) s : res E (ChainSync * SyncAction) :=
  attempt_sync_start c now
    (mk_chain_sync (cs_peers s) (syncing s) (sync_strategy s) (is_major_syncing s) true (sync_target s)
       (min_sync_peer_threshold s) (cs_memory_config s)).

(** *** Blocks and headers *)

Definition strategy_downloader (st : Syncing) : option BlockDownloader :=
  match st with
  | SyncingIdle => None
  | SyncingBlocksFirst strategy => Some (bf_block_downloader strategy)
  | SyncingHeadersFirst strategy => Some (hf_block_downloader strategy)
  end.
Definition set_strategy_downloader (d : BlockDownloader) (st : Syncing) : Syncing :=
  match st with
  | SyncingIdle => SyncingIdle
  | SyncingBlocksFirst strategy => SyncingBlocksFirst (bf_set_downloader d strategy)
  | SyncingHeadersFirst strategy => SyncingHeadersFirst (hf_set_downloader d strategy)
  end.

(** The blocks for the import queue, with their origin. *)
Definition import_pending_blocks s : res E (ChainSync * option (BlockOrigin * list Block)) :=
  match strategy_downloader (syncing s) with
  | None => Ok (s, None)
  | Some d =>
      if negb (has_pending_blocks d) then Ok (s, None)
      else
        '(d, (_, blocks)) ← prepare_blocks_for_import (sync_target s) d;
        Ok (set_syncing (set_strategy_downloader d (syncing s)) s,
            Some (if is_major_syncing s then NetworkInitialSync else NetworkBroadcast, blocks))
  end.

Definition on_blocks_processed (results : list (option BlockImportError * bytes)) (now : Z) s : res E ChainSync :=
  match strategy_downloader (syncing s) with
  | None => Ok s
  | Some d =>
      d ← handle_processed_blocks results now d;
      Ok (set_syncing (set_strategy_downloader d (syncing s)) s)
  end.

Definition start_blocks_first_sync c (now : Z) s :
    res E (ChainSync * option SyncAction * option (BlockOrigin * list Block)) :=
  match syncing s with
  | SyncingBlocksFirst _ => Ok (s, None, None)
  | _ =>
      '(s, import) ← import_pending_blocks s;
      let our_best := best_number c in
      match best_of (fun p => (our_best <? sp_best_number p) && is_available (sp_state p)) s with
      | None => Ok (update_syncing_state SyncingIdle s, None, import)
      | Some best =>
          '(strategy, action) ← blocks_first_new c (sp_peer_id best) (sp_best_number best) (cs_memory_config s) now;
          Ok (update_syncing_state (SyncingBlocksFirst strategy) s, Some action, import)
      end
  end.

Definition set_idle s : res E (ChainSync * option (BlockOrigin * list Block)) :=
  '(s, import) ← import_pending_blocks s;
  Ok (update_syncing_state SyncingIdle s, import).

Definition cs_on_inv c (inventories : list Inventory) (from : PeerId) s : res E (ChainSync * SyncAction) :=
  match syncing s with
  | SyncingBlocksFirst strategy =>
      '(strategy, action) ← bf_on_inv c inventories from strategy;
      Ok (set_syncing (SyncingBlocksFirst strategy) s, action)
  | _ => Ok (s, SyncNone)
  end.

Definition cs_on_block c (block : Block) (from : PeerId) (now : Z) s :
    res E (ChainSync * SyncAction * list PeerStoreMessage) :=
  match syncing s with
  | SyncingIdle => Ok (s, SyncNone, [])
  | SyncingBlocksFirst strategy =>
      '(strategy, action, msgs) ← bf_on_block c block from now strategy;
      Ok (set_syncing (SyncingBlocksFirst strategy) s, action, msgs)
  | SyncingHeadersFirst strategy =>
      '(strategy, action, msgs) ← hf_on_block c block from now strategy;
      Ok (set_syncing (SyncingHeadersFirst strategy) s, action, msgs)
  end.

Definition cs_on_headers c (headers : list Header) (from : PeerId) (now : Z) s : res E (ChainSync * SyncAction) :=
  match syncing s with
  | SyncingHeadersFirst strategy =>
      '(strategy, action) ← hf_on_headers chain_params c headers from now strategy;
      Ok (set_syncing (SyncingHeadersFirst strategy) s, action)
  | _ => Ok (s, SyncNone)
  end.
End sync.
