(* ===== verification/SyncFacts.v ===== *)
(** * Properties of the chain sync

    What a message of headers leads to, which peers are chosen, and where the
    state machines get stuck or panic. *)

From Stdlib Require Import ZArith Lia.
From Stdlib Require Import Floats.SpecFloat.
From stdpp Require Import prelude gmap.
From S2P Require Import Prelude Collections Bitcoin Client HeaderVerify MempoolTypes NetworkTypes OrphanPool BlockDownloader.
From S2P Require Import DownloaderFacts SyncTypes BlocksFirst HeadersFirst ChainSync.

(** ** Headers *)

Section headers.
Context `{!ChainApi, !PowApi, !HashOrder, !EncodedSizes} {E : Type}.
Context (chain_params : ChainParams).
Implicit Types (c : Client) (s : HeadersFirstStrategy) (m : HeaderMap).

(** Headers that chain from a hash, with valid proof of work. *)
Fixpoint chain_from (hash : bytes) (headers : list Header) : Prop :=
  match headers with
  | [] => True
  | h :: headers =>
      prev_blockhash h = hash /\ has_valid_proof_of_work chain_params h = true /\ chain_from (block_hash h) headers
  end.

Fixpoint store_headers (number : Z) (headers : list Header) m : HeaderMap :=
  match headers with
  | [] => m
  | h :: headers => store_headers (number + 1) headers (header_insert (block_hash h) (number + 1) m)
  end.

Fixpoint last_hash (hash : bytes) (headers : list Header) : bytes :=
  match headers with
  | [] => hash
  | h :: headers => last_hash (block_hash h) headers
  end.

Lemma header_get_insert hash number h m :
  header_get h (header_insert hash number m) = if decide (h = hash) then Some number else header_get h m.
Proof.
  induction m as [| [h' n'] m IH]; cbn.
  - case_decide as Hh; [subst; by rewrite bool_decide_eq_true_2 |]. by rewrite bool_decide_eq_false_2 by congruence.
  - case_bool_decide as Hh'; cbn.
    + subst h'. case_decide as Hh; [subst; by rewrite bool_decide_eq_true_2 |]. by rewrite bool_decide_eq_false_2 by congruence.
    + case_bool_decide as Hx; [subst h'; by rewrite decide_False by congruence | exact IH].
Qed.

Lemma store_headers_other number headers m h :
  h ∉ map block_hash headers -> header_get h (store_headers number headers m) = header_get h m.
Proof.
  revert number m. induction headers as [| x headers IH]; intros number m; cbn; [done |].
  intros [Hne Hnin]%not_elem_of_cons. rewrite IH by done. rewrite header_get_insert. by rewrite decide_False.
Qed.

Lemma store_headers_get number headers m i h :
  NoDup (map block_hash headers) -> headers !! i = Some h ->
  header_get (block_hash h) (store_headers number headers m) = Some (number + 1 + Z.of_nat i).
Proof.
  revert number m i. induction headers as [| x headers IH]; intros number m i Hnd Hi; [done |].
  cbn [map store_headers] in *. apply NoDup_cons in Hnd as [Hnin Hnd]. destruct i as [| i]; cbn in Hi.
  - injection Hi as ->. rewrite store_headers_other by done. rewrite header_get_insert, decide_True by done. f_equal. lia.
  - rewrite (IH _ _ i) by done. f_equal. lia.
Qed.

Lemma validate_run headers hash number m :
  chain_from hash headers -> 0 <= number -> number + Z.of_nat (length headers) <= u32_max ->
  validate_and_store_headers (E := E) chain_params headers hash number m =
    Ok (store_headers number headers m, inr (last_hash hash headers, number + Z.of_nat (length headers))).
Proof.
  revert hash number m. induction headers as [| h headers IH]; intros hash number m; cbn [chain_from validate_and_store_headers].
  { intros _ _ _. cbn. by rewrite Z.add_0_r. }
  intros (Hp & Hw & Hc) Hn Hle. cbn [length] in Hle. rewrite (bool_decide_eq_true_2 _ Hp), Hw. cbn [negb].
  unfold add_u32. rewrite checked_u32_Ok by (unfold is_u32; lia). rbind. rewrite IH by (done || lia). cbn [store_headers last_hash length].
  by replace (number + 1 + Z.of_nat (length headers)) with (number + Z.of_nat (S (length headers))) by lia.
Qed.

(** The first header that breaks the chain decides the error. *)
Lemma validate_fails headers hash number m :
  ~ chain_from hash headers -> 0 <= number -> number + Z.of_nat (length headers) <= u32_max ->
  exists m' e h, validate_and_store_headers (E := E) chain_params headers hash number m = Ok (m', inl e) /\ h ∈ headers /\
    (e = HeadersNotInAscendingOrder \/ e = BadProofOfWork (block_hash h) /\ has_valid_proof_of_work chain_params h = false).
Proof.
  revert hash number m. induction headers as [| h headers IH]; intros hash number m Hc Hn Hle; [by contradict Hc |].
  cbn [validate_and_store_headers]. case_bool_decide as Hp; cbn [negb].
  2: { eexists _, _, h. split; [done |]. split; [left | by left]. }
  destruct (has_valid_proof_of_work chain_params h) eqn:Hw; cbn [negb].
  2: { eexists _, _, h. split; [done |]. split; [left | by right]. }
  cbn [length] in Hle. unfold add_u32. rewrite checked_u32_Ok by (unfold is_u32; lia). rbind.
  destruct (IH (block_hash h) (number + 1) (header_insert (block_hash h) (number + 1) m)) as (m' & e & h' & Hr & Hin & He);
    [| lia | lia |].
  - intros Hc'. by apply Hc.
  - exists m', e, h'. split; [exact Hr |]. split; [by right | done].
Qed.

(** The height of the parent of a first header. *)
Definition parent_height c s (start : IndexedBlock) (hash : bytes) : option Z :=
  if bool_decide (hash = ib_hash start) then Some (ib_number start)
  else first_of (header_get hash (hr_headers (header_requester s))) (backend_block_number c hash).

(** The strategy that has stored headers. *)
Definition with_headers m (now : Z) s : HeadersFirstStrategy :=
  let r := header_requester s in
  hf_set_downloader (touch_progress now (hf_block_downloader s))
    (hf_set_requester (mk_header_requester (hr_peer_id r) m (completed_range r) (hr_last_locator_request_start r)) s).
Definition with_completed (start end_ : IndexedBlock) s : HeadersFirstStrategy :=
  let r := header_requester s in
  hf_set_requester (mk_header_requester (hr_peer_id r) (hr_headers r) (Some (start, end_)) (hr_last_locator_request_start r)) s.


(** When the best block is one below a checkpoint, there is no next
    checkpoint for the strategy: it gives up headers-first sync at once, although
    later checkpoints remain. *)
Lemma headers_first_ends_early c s best_hash :
  backend_block_hash c (best_number c) = Some best_hash -> 0 <= best_number c ->
  (exists checkpoint, checkpoint ∈ CHECKPOINTS /\ ib_number checkpoint = best_number c + 1) ->
  header_request_action (E := E) c s = Ok (hf_set_state HfCompleted s, SwitchToBlocksFirstSync).
Proof.
  intros Hb Hn (cp & Hin & Hcp). unfold header_request_action. rewrite Hb. cbn [expect]. rbind.
  assert (Hmax : forall x, x ∈ CHECKPOINTS -> ib_number x <= u32_max).
  { assert (Hall : forallb (fun x => ib_number x <=? u32_max) CHECKPOINTS = true) by (vm_compute; reflexivity).
    rewrite forallb_forall in Hall. intros x Hx%list_elem_of_In%Hall. by apply Z.leb_le. }
  unfold next_header_request_at, add_u32. rewrite checked_u32_Ok by (unfold is_u32; rewrite <- Hcp; split; [lia | auto]). rbind.
  assert (Hnone : next_checkpoint (best_number c + 1) = None).
  { pose proof (search_spaced 0 CHECKPOINTS (best_number c + 1) checkpoints_spaced) as Hs. unfold next_checkpoint.
    destruct (binary_search_by_key (best_number c + 1) CHECKPOINTS); [done |]. by destruct Hs as [Hs _]; destruct (Hs cp Hin). }
  rewrite Hnone. rbind. by destruct s.
Qed.
End headers.

(** ** The choice of peers *)

Section peers.
Context `{!ChainApi, !PowApi, !HashOrder, !HashOrderLaws, !EncodedSizes, !UnstableSort} {E : Type}.
Implicit Types (c : Client) (s : ChainSync).

(** Peers are stored under their own id. *)
Definition peers_wf s : Prop := forall id p, cs_peers s !! id = Some p -> sp_peer_id p = id.

Lemma peer_values_elem s p : p ∈ peer_values s <-> exists id, cs_peers s !! id = Some p.
Proof.
  unfold peer_values. rewrite list_elem_of_omap. setoid_rewrite hash_iter_elem. setoid_rewrite elem_of_dom. naive_solver.
Qed.

Lemma min_by_elem {A : Type} (cmp : A -> A -> comparison) l x : min_by cmp l = Some x -> x ∈ l.
Proof.
  destruct l as [| y l]; cbn; [done |]. intros [= <-]. revert y. induction l as [| z l IH]; intros y; cbn; [left |].
  specialize (IH (match cmp y z with Gt => z | _ => y end)). destruct (cmp y z); set_solver.
Qed.

Lemma min_by_None {A : Type} (cmp : A -> A -> comparison) l : min_by cmp l = None <-> l = [].
Proof. by destruct l. Qed.

Lemma best_of_elem (candidate : PeerSync -> bool) s p :
  best_of candidate s = Some p -> (exists id, cs_peers s !! id = Some p) /\ candidate p = true.
Proof.
  unfold best_of. intros [Hc Hp]%min_by_elem%list_elem_of_filter. apply peer_values_elem in Hp. split; [done |].
  by apply Is_true_true in Hc.
Qed.

Lemma best_of_None (candidate : PeerSync -> bool) s :
  best_of candidate s = None <-> forall id p, cs_peers s !! id = Some p -> candidate p = false.
Proof.
  unfold best_of. rewrite min_by_None. split.
  - intros Hnil id p Hp. destruct (candidate p) eqn:Hc; [| done]. exfalso.
    assert (Hin : p ∈ filter (fun p => candidate p) (peer_values s)).
    { apply list_elem_of_filter. split; [by apply Is_true_true | apply peer_values_elem; eauto]. }
    rewrite Hnil in Hin. by apply elem_of_nil in Hin.
  - intros Hall. destruct (filter (fun p => candidate p) (peer_values s)) as [| p l] eqn:Hf; [done |]. exfalso.
    assert (Hin : p ∈ filter (fun p => candidate p) (peer_values s)) by (rewrite Hf; left).
    apply list_elem_of_filter in Hin as [Hc (id & Hp)%peer_values_elem]. apply Is_true_true in Hc. rewrite (Hall id p Hp) in Hc. done.
Qed.

(** When a sync is restarted, the peer chosen is connected, is not the one
    that is left, has blocks we lack and did not stall more than five times; an
    available peer is preferred to any other.  No peer is chosen only if there is
    none. *)
Lemma select_next_peer_spec our_best excluded s :
  peers_wf s ->
  match select_next_peer_for_sync our_best excluded s with
  | Some id => id <> excluded /\ exists p, cs_peers s !! id = Some p /\ our_best < sp_best_number p /\
      is_permanently_deprioritized (sp_state p) = false /\
      (is_available (sp_state p) = true \/
       forall id' p', cs_peers s !! id' = Some p' -> id' <> excluded -> our_best < sp_best_number p' ->
         is_available (sp_state p') = false)
  | None => forall id p, cs_peers s !! id = Some p -> id <> excluded -> our_best < sp_best_number p ->
      is_permanently_deprioritized (sp_state p) = true
  end.
Proof.
  intros Hwf. unfold select_next_peer_for_sync.
  destruct (best_of (fun p => negb (bool_decide (sp_peer_id p = excluded)) && (our_best <? sp_best_number p) &&
    is_available (sp_state p)) s) as [p |] eqn:Hb1.
  { apply best_of_elem in Hb1 as [(id & Hp) Hc]. rewrite (Hwf id p Hp) in *.
    apply andb_true_iff in Hc as [[Hne Hlt]%andb_true_iff Ha]. bools. split; [done |]. exists p.
    split; [done |]. split; [done |]. split; [by destruct (sp_state p) | by left]. }
  rewrite best_of_None in Hb1. assert (Hbusy : forall id p, cs_peers s !! id = Some p -> id <> excluded ->
    our_best < sp_best_number p -> is_available (sp_state p) = false).
  { intros id p Hp Hne Hlt. specialize (Hb1 id p Hp). rewrite (Hwf id p Hp), bool_decide_eq_false_2 in Hb1 by done.
    by rewrite (proj2 (Z.ltb_lt _ _) Hlt) in Hb1. }
  destruct (best_of (fun p => negb (bool_decide (sp_peer_id p = excluded)) && (our_best <? sp_best_number p) &&
    negb (is_permanently_deprioritized (sp_state p))) s) as [p |] eqn:Hb2.
  - apply best_of_elem in Hb2 as [(id & Hp) Hc]. rewrite (Hwf id p Hp) in *.
    apply andb_true_iff in Hc as [[Hne Hlt]%andb_true_iff Hd]. bools. split; [done |]. exists p.
    split; [done |]. split; [done |]. split; [done | by right].
  - rewrite best_of_None in Hb2. intros id p Hp Hne Hlt. specialize (Hb2 id p Hp).
    rewrite (Hwf id p Hp), bool_decide_eq_false_2 in Hb2 by done. rewrite (proj2 (Z.ltb_lt _ _) Hlt) in Hb2.
    by destruct (is_permanently_deprioritized (sp_state p)).
Qed.

(** *** Idle *)

Lemma no_sync_peer our_best s :
  (forall id p, cs_peers s !! id = Some p -> is_downloading (sp_state p) = true) -> find_sync_peer our_best s = None.
Proof.
  intros Hbusy. unfold find_sync_peer.
  assert (Hb1 : best_of (fun p => (our_best <? sp_best_number p) && is_available (sp_state p)) s = None).
  { apply best_of_None. intros id p Hp. specialize (Hbusy id p Hp). destruct (sp_state p); try done. by rewrite andb_false_r. }
  rewrite Hb1. destruct (min_by compare_deprioritized _) as [p |] eqn:Hb2; [| done]. exfalso.
  apply min_by_elem, list_elem_of_filter in Hb2 as [Hc (id & Hp)%peer_values_elem]. apply Is_true_true in Hc.
  specialize (Hbusy id p Hp). destruct (sp_state p); try done. by rewrite andb_false_r in Hc.
Qed.

Lemma update_peer_best_busy peer best s :
  (forall id p, cs_peers s !! id = Some p -> is_downloading (sp_state p) = true) ->
  forall id p, cs_peers (update_peer_best peer best s) !! id = Some p -> is_downloading (sp_state p) = true.
Proof.
  intros Hbusy id p. unfold update_peer_best. destruct (cs_peers s !! peer) as [x |] eqn:Hx; [| apply Hbusy].
  destruct (sp_best_number x <? best); [| apply Hbusy]. cbn. intros [[_ <-] | [_ Hp]]%lookup_insert_Some; [| by eapply Hbusy].
  by apply (Hbusy peer x).
Qed.

Lemma update_peer_best_idle peer best s : syncing s = SyncingIdle -> syncing (update_peer_best peer best s) = SyncingIdle.
Proof.
  intros Hi. unfold update_peer_best. destruct (cs_peers s !! peer) as [x |]; [| done].
  destruct (sp_best_number x <? best); [| done]. cbn. by rewrite Hi.
Qed.

Lemma import_keeps_peers s s' import : import_pending_blocks (E := E) s = Ok (s', import) -> cs_peers s' = cs_peers s.
Proof.
  unfold import_pending_blocks. destruct (strategy_downloader (syncing s)) as [d |]; [| by intros [= <- _]].
  destruct (negb (has_pending_blocks d)); [by intros [= <- _] |].
  intros ([d' [hs bs]] & _ & [= <- _])%bind_Ok. done.
Qed.

(** A sync that completes leaves its peer in the downloading state.  When
    all peers are in it - the only peer, for one - sync does not start again,
    however many blocks the peers announce. *)
Lemma idle_never_resumes c now s s' import announced :
  set_idle (E := E) s = Ok (s', import) ->
  (forall id p, cs_peers s !! id = Some p -> is_downloading (sp_state p) = true) ->
  let s'' := foldr (fun '(peer, best) s => update_peer_best peer best s) s' announced in
  attempt_sync_start (E := E) c now s'' = Ok (s'', SyncNone) /\ syncing s'' = SyncingIdle.
Proof.
  intros Hidle Hbusy s''. unfold set_idle in Hidle. apply bind_Ok in Hidle as ([s1 import'] & Hi & [= <- _]).
  apply import_keeps_peers in Hi.
  assert (Hinv : syncing s'' = SyncingIdle /\ forall id p, cs_peers s'' !! id = Some p -> is_downloading (sp_state p) = true).
  { subst s''. induction announced as [| [peer best] announced [IHi IHb]]; cbn [foldr].
    - split; [done |]. cbn. by rewrite Hi.
    - split; [by apply update_peer_best_idle | by apply update_peer_best_busy]. }
  destruct Hinv as [Hi' Hb']. split; [| done]. unfold attempt_sync_start. rewrite Hi'. cbn [syncing_is_major].
  destruct (Z.of_nat (size (cs_peers s'')) <? min_sync_peer_threshold s''); [done |].
  destruct (match sync_target s'' with Some target => target <=? best_number c | None => false end); [done |].
  by rewrite (no_sync_peer _ s'').
Qed.

(** *** Swapping the peer of a blocks-first sync *)

(** Swapping the peer of a blocks-first sync leaves the requester with the
    old peer: inventories are still requested from it, and its answers are
    ignored because they do not come from the new one. *)
Lemma swapped_peer_not_asked c (s s' : BlocksFirstStrategy) (peer : PeerId) target inventories request :
  ir_peer_id (inv_requester s) <> peer ->
  inventory_request_action (E := E) c (bf_swap_sync_peer peer target s) = Ok (s', SyncSend request) ->
  exists payload, request = RequestInventory payload /\ lr_to payload = ir_peer_id (inv_requester s) /\
    bf_on_inv (E := E) c inventories (lr_to payload) s' = Ok (s', SyncNone).
Proof.
  intros Hne. unfold inventory_request_action. intros ([r outcome] & Hr & Ha)%bind_Ok.
  unfold next_inventory_request in Hr. case_match; [injection Hr as <- <-; done |]. cbn [inv_requester bf_swap_sync_peer] in Hr.
  apply bind_Ok in Hr as (locator & _ & (last & _ & (st & _ & (en & _ & [= <- <-])%bind_Ok)%bind_Ok)%bind_Ok).
  injection Ha as <- <-. eexists. split; [done |]. split; [done |]. unfold bf_on_inv. cbn.
  by rewrite bool_decide_eq_false_2.
Qed.
End peers.

(** ** Concrete syncs *)

Module SampleSync.
Import SampleOrder SampleBlocks SampleDownload SamplePow.

Definition peer : PeerId := PeerV4 1 8333.
(** A client at a height, that knows the block [root] at height 0. *)
Definition client_at (best : Z) : Client := {|
  get_aux h := inr (if decide (h = root) then Some root else None);
  client_number h := inr (if decide (h = root) then Some 0 else None);
  client_hash _ := inr (Some [1]);
  client_header _ := inr (Some (mk_substrate_header [PreRuntime NAKAMOTO_HASH_ENGINE_ID (replicate 32 7)] [1]));
  best_hash := [1];
  Client.best_number := best;
|}.

(** Headers-first sync that downloads blocks [a] and [b]. *)
Definition downloading : HeadersFirstStrategy :=
  mk_headers_first (HfFetchingBlockData (Batches false)) peer
    (set_requested [] {[ hash_of a; hash_of b ]} 2 0 (downloader_new peer 0 memory_config_default 0))
    (new_requester peer) 1000 PrefetchNone (mk_prefetch_stats 0 0).
Definition chain_sync : ChainSync :=
  mk_chain_sync {[ peer := mk_peer_sync peer 1000 50 (DownloadingNew 0) ]} (SyncingHeadersFirst downloading)
    StrategyHeadersFirst true true None 1 memory_config_default.

(** Some other peer sends the requested block twice, before and after it is
    handed to the import queue. *)
Definition stranger : PeerId := PeerV4 2 8333.
Definition duplicate_run (duplicate : bool) : res Empty_set (list (list Block)) :=
  let c := client_at 0 in
  '(s, _, _) ← cs_on_block c a stranger 1 chain_sync;
  '(s, first) ← import_pending_blocks s;
  '(s, _, _) ← (if duplicate then cs_on_block c a stranger 2 s else Ok (s, SyncNone, []));
  s ← on_blocks_processed [(None, hash_of a)] 3 s;
  '(s, second) ← import_pending_blocks s;
  Ok (omap (fun import => match import with Some (_, blocks) => Some blocks | None => None end) [first; second]).

(** Two headers from height 11109 on, to the height of the first checkpoint. *)
Definition start : IndexedBlock := mk_indexed 11109 [9].
Definition header1 : Header := mk_header 1 [9] [] 0 1 1.
Definition header2 : Header := mk_header 1 [1; 9] [] 0 1 2.
Definition first_checkpoint : IndexedBlock := default start (CHECKPOINTS !! 0%nat).
Definition fetching : HeadersFirstStrategy :=
  hf_set_state (HfFetchingHeaders start first_checkpoint) downloading.
End SampleSync.

Module SyncWitness.
Import SampleOrder SampleBlocks SampleDownload SamplePow SampleSync.

(** In headers-first sync a block is queued whoever sends it, without a look
    at what is queued already: a second copy that arrives while the first is
    being imported makes the next hand-over to the import queue panic.  Without
    the copy the run succeeds. *)
Lemma duplicate_block_panics : duplicate_run true = Panic /\ duplicate_run false = Ok [[a]].
Proof. split; vm_compute; reflexivity. Qed.


Lemma headers_first_ends_early_witness :
  header_request_action (E := Empty_set) (client_at 11110) downloading =
    Ok (hf_set_state HfCompleted downloading, SwitchToBlocksFirstSync).
Proof.
  apply (headers_first_ends_early (client_at 11110) downloading (replicate 32 7)).
  - vm_compute. reflexivity.
  - cbn. lia.
  - exists first_checkpoint. split; [| vm_compute; reflexivity]. apply list_elem_of_lookup. exists 0%nat. vm_compute. reflexivity.
Defined.

Definition other_peer : PeerSync := mk_peer_sync stranger 900 10 (Deprioritized 2).
Definition two_peers : ChainSync := cs_set_peers (<[stranger := other_peer]> (cs_peers chain_sync)) chain_sync.

Lemma select_next_peer_spec_witness :
  select_next_peer_for_sync 0 peer two_peers = Some stranger /\ stranger <> peer.
Proof.
  assert (Hsel : select_next_peer_for_sync 0 peer two_peers = Some stranger) by (vm_compute; reflexivity).
  assert (Hwf : peers_wf two_peers).
  { intros id p. cbn. intros [[<- <-] | [_ [<- <-]%lookup_singleton_Some]]%lookup_insert_Some; done. }
  pose proof (select_next_peer_spec 0 peer two_peers Hwf) as Hs. rewrite Hsel in Hs. split; [exact Hsel | apply Hs].
Defined.

Lemma idle_never_resumes_witness :
  exists s' import, set_idle (E := Empty_set) chain_sync = Ok (s', import) /\
    let s'' := update_peer_best peer 5000 s' in
    attempt_sync_start (E := Empty_set) (client_at 0) 9 s'' = Ok (s'', SyncNone) /\ syncing s'' = SyncingIdle.
Proof.
  exists (update_syncing_state SyncingIdle chain_sync), None.
  assert (Hi : set_idle (E := Empty_set) chain_sync = Ok (update_syncing_state SyncingIdle chain_sync, None)) by reflexivity.
  split; [exact Hi |].
  apply (idle_never_resumes (E := Empty_set) (client_at 0) 9 chain_sync _ None [(peer, 5000)] Hi).
  intros id p. cbn. intros [<- <-]%lookup_singleton_Some. done.
Defined.

Definition blocks_first : BlocksFirstStrategy :=
  mk_blocks_first BfIdle peer 1000 (downloader_new peer 0 memory_config_default 0) (mk_inv_requester peer 1000 0).

Lemma swapped_peer_not_asked_witness :
  exists s' payload,
    inventory_request_action (E := Empty_set) (client_at 0) (bf_swap_sync_peer stranger 1000 blocks_first) =
      Ok (s', SyncSend (RequestInventory payload)) /\ lr_to payload = peer /\
    bf_on_inv (E := Empty_set) (client_at 0) [InvBlock [3]] peer s' = Ok (s', SyncNone).
Proof.
  set (run := from_ok (blocks_first, SyncNone)
    (inventory_request_action (E := Empty_set) (client_at 0) (bf_swap_sync_peer stranger 1000 blocks_first))).
  assert (Hr : inventory_request_action (E := Empty_set) (client_at 0) (bf_swap_sync_peer stranger 1000 blocks_first) = Ok run).
  { apply from_ok_eq. vm_compute. reflexivity. }
  assert (Ha : exists request, run.2 = SyncSend request) by (eexists; vm_compute; reflexivity).
  destruct run as [s' action], Ha as [request Ha]. cbn in Ha. subst action.
  assert (Hne : ir_peer_id (inv_requester blocks_first) <> stranger) by (cbn; discriminate).
  destruct (swapped_peer_not_asked (E := Empty_set) (client_at 0) blocks_first s' stranger 1000 [InvBlock [3]] request Hne Hr)
    as (payload & -> & Hto & Hinv).
  exists s', payload. split; [exact Hr |]. rewrite Hto in Hinv. split; [exact Hto | exact Hinv].
Defined.
End SyncWitness.
