(* ===== verification/NetworkProcessor.v ===== *)
(** * The network processor ([crates/subcoin-network/src/network_processor.rs])

    The task that owns the peer manager, the chain sync and the transaction relay
    and dispatches what happens to them: events of connections, messages of peers,
    requests of the node and ticks.  An operation is a function of the state that
    also returns what is handed to other tasks: messages to peers, the store of
    peers and the import queue. *)

From Stdlib Require Import ZArith Lia.
From stdpp Require Import prelude gmap.
From S2P Require Import Prelude Collections Bitcoin Client TxSanity HeaderVerify BlockVerify MempoolTypes Mempool.
From S2P Require Import NetworkTypes OrphanPool BlockDownloader TxRelay PeerStore PeerManager.
From S2P Require Import SyncTypes BlocksFirst HeadersFirst ChainSync.

(** ** Events *)

Inductive Event :=
| NewConnection (peer : PeerId) (c : Connection) (direction : Direction)
| OutboundConnectionFailure (peer : PeerId)
| DisconnectPeer (peer : PeerId)
| PeerMessage (from : PeerId) (direction : Direction) (payload : NetworkMessage).

Inductive ProcessorMessage :=
| RequestNetworkStatus
| RequestSyncPeers
| RequestInboundPeersCount
| RequestTransaction (txid : bytes)
| SendTransaction (tx : Transaction)
| StartBlockSync.

Inductive Reply :=
| NetworkStatus (num_connected_peers : Z) (status : SyncStatus)
| SyncPeers (peers : list PeerSync)
| InboundPeersCount (n : Z)
| TransactionReply (tx : option Transaction)
| SendTransactionSuccess (txid : bytes)
| SendTransactionFailure (reason : RejectionReason)
| NoReply.

Inductive ProcessorEffect :=
| PeerEffect (e : Effect)
| StoreMessage (m : PeerStoreMessage)
| ImportBlocks (origin : BlockOrigin) (blocks : list Block).

(** What the processor reads from outside during one step: the client, the clocks
    (in milliseconds, in seconds, and the wall clock), random numbers. *)
Record Env := mk_env {
  env_client : Client;
  env_now_ms : Z;
  env_now : Z;
  env_unix : Z;
  env_nonces : PeerId -> Z;
}.

(** ** State *)

Record NetworkProcessor (P : Type) := mk_np {
  chain_sync : ChainSync;
  peer_manager : PeerManager;
  tx_relay : TxRelay P;
  requested_block_announce : gmap PeerId (gset bytes);
}.
Arguments mk_np {P}.
Arguments chain_sync {P}.
Arguments peer_manager {P}.
Arguments tx_relay {P}.
Arguments requested_block_announce {P}.

(** Operations: a state monad with effects and panics. *)
Definition proc (P A : Type) : Type :=
  NetworkProcessor P -> res MempoolError (A * NetworkProcessor P * list ProcessorEffect).

#[export] Instance proc_ret P : MRet (proc P) := fun A a s => Ok (a, s, []).
#[export] Instance proc_bind P : MBind (proc P) := fun A B f m s =>
  match m s with
  | Ok (a, s, e) =>
      match f a s with
      | Ok (b, s, e') => Ok (b, s, e ++ e')
      | Err x => Err x
      | Panic => Panic
      end
  | Err x => Err x
  | Panic => Panic
  end.

Section primitives.
Context {P : Type}.

Definition state : proc P (NetworkProcessor P) := fun s => Ok (s, s, []).
Definition emit (e : list ProcessorEffect) : proc P unit := fun s => Ok (tt, s, e).

Definition on_pm {A} (f : PeerManager -> PeerManager * list Effect * A) : proc P A := fun s =>
  let '(pm, e, a) := f (peer_manager s) in
  Ok (a, mk_np (chain_sync s) pm (tx_relay s) (requested_block_announce s), map PeerEffect e).
Definition on_sync {A} (f : ChainSync -> res MempoolError (ChainSync * A)) : proc P A := fun s =>
  '(cs, a) ← f (chain_sync s);
  Ok (a, mk_np cs (peer_manager s) (tx_relay s) (requested_block_announce s), []).
Definition on_relay {A} (f : TxRelay P -> res MempoolError (TxRelay P * A)) : proc P A := fun s =>
  '(r, a) ← f (tx_relay s);
  Ok (a, mk_np (chain_sync s) (peer_manager s) r (requested_block_announce s), []).
Definition set_requested (r : gmap PeerId (gset bytes)) : proc P unit := fun s =>
  Ok (tt, mk_np (chain_sync s) (peer_manager s) (tx_relay s) r, []).
End primitives.

(** ** Handlers *)

Section processor.
Context `{!ChainApi, !PowApi, !HashOrder, !EncodedSizes, !UnstableSort, !RandomChoice, !TxApi, !BlockApi}.
Context {P : Type} `{!TxPool P}.
Context (chain_params : ChainParams) (persistent_peer_latency_threshold : Z) (env : Env).
Abbreviation client := (env_client env).

Definition store (l : list PeerStoreMessage) : proc P unit := emit (map StoreMessage l).

(** The blocks for the import queue. *)
Definition import (o : option (BlockOrigin * list Block)) : proc P unit :=
  match o with Some (origin, blocks) => emit [ImportBlocks origin blocks] | None => mret tt end.

Definition pm_disconnect_peer (peer : PeerId) : proc P unit :=
  on_pm (fun pm => (pm_disconnect peer pm, tt)).
Definition sync_disconnect (peer : PeerId) : proc P unit :=
  on_sync (fun cs => Ok (disconnect client peer (env_now env) cs, tt)).
Definition relay_disconnected (peer : PeerId) : proc P unit :=
  on_relay (fun r => Ok (on_peer_disconnected peer r, tt)).

(** The three components forget a peer. *)
Definition disconnect_everywhere (peer : PeerId) : proc P unit :=
  _ ← pm_disconnect_peer peer;
  _ ← sync_disconnect peer;
  relay_disconnected peer.

(** [self.send]: the error, if any. *)
Definition np_send (to : PeerId) (msg : NetworkMessage) : proc P (option NetError) :=
  on_pm (fun pm => match send to msg pm with
                   | inr e => (pm, e, None)
                   | inl err => (pm, [], Some err)
                   end).

Definition send_get_blocks_message (request : LocatorRequest) : proc P unit :=
  if bool_decide (lr_locator_hashes request = []) then mret tt
  else
    s ← state;
    _ ← np_send (lr_to request)
          (MsgGetBlocks (protocol_version (config (peer_manager s))) (lr_locator_hashes request) (stop_hash request));
    mret tt.

Definition do_sync_action (action : SyncAction) : proc P unit :=
  match action with
  | SyncSend (RequestHeader request) =>
      if bool_decide (lr_locator_hashes request = []) then mret tt
      else
        s ← state;
        _ ← np_send (lr_to request)
              (MsgGetHeaders (protocol_version (config (peer_manager s))) (lr_locator_hashes request) (stop_hash request));
        mret tt
  | SyncSend (RequestInventory request) => send_get_blocks_message request
  | SyncSend (RequestData invs to) =>
      if bool_decide (invs = []) then mret tt else _ ← np_send to (MsgGetData invs); mret tt
  | SwitchToBlocksFirstSync =>
      '(action, blocks) ← on_sync (fun cs =>
        '(cs, action, blocks) ← start_blocks_first_sync client (env_now env) cs;
        Ok (cs, (action, blocks)));
      _ ← import blocks;
      match action with
      | Some (SyncSend (RequestInventory request)) => send_get_blocks_message request
      | _ => mret tt
      end
  | SetIdle => blocks ← on_sync set_idle; import blocks
  | RestartSyncWithStalledPeer stalled =>
      on_sync (fun cs => Ok (restart_sync client stalled ReasonStalled (env_now env) cs, tt))
  | SyncDisconnectPeer peer _ => disconnect_everywhere peer
  | SyncNone => mret tt
  end.

(** *** Transactions *)

(** Announcements, one peer at a time. *)
Fixpoint announce_all (batches : list (PeerId * list bytes)) : proc P unit :=
  match batches with
  | [] => mret tt
  | (peer, txids) :: batches =>
      err ← np_send peer (MsgInv (map InvTransaction txids));
      _ ← match err with
          | Some _ => mret tt
          | None => on_relay (fun r => Ok (relay_mark_broadcast txids r, tt))
          end;
      announce_all batches
  end.

Fixpoint serve_all (requests : list (bytes * PeerId)) : proc P unit :=
  match requests with
  | [] => mret tt
  | (txid, peer) :: requests =>
      tx ← on_relay (fun r => tx ← relay_get_transaction txid r; Ok (r, tx));
      _ ← match tx with Some tx => _ ← np_send peer (MsgTx tx); mret tt | None => mret tt end;
      serve_all requests
  end.

Definition do_tx_action (action : TxAction) : proc P unit :=
  match action with
  | TxNone => mret tt
  | SendGetData inv peer => _ ← np_send peer (MsgGetData inv); mret tt
  | AnnounceToPeers batches => announce_all batches
  | ServeTxs requests => serve_all requests
  | PenalizePeer peer => on_pm (fun pm => (record_invalid_tx peer pm, [], tt))
  | TxRelay.DisconnectPeer peer => pm_disconnect_peer peer
  end.

Definition handle_tx_message (from : PeerId) (tx : Transaction) : proc P unit :=
  s ← state;
  if negb (peer_wants_tx_relay (peer_manager s) from) then mret tt
  else if relay_contains (compute_txid tx) (tx_relay s) then mret tt
  else
    result ← on_relay (fun r =>
      let '(result, r) := relay_validate tx (env_unix env) (env_now env) r in
      result ← result;
      Ok (r, result));
    action ← on_relay (fun r => Ok (on_validated_tx result from r));
    do_tx_action action.

Definition handle_fee_filter (from : PeerId) (min_fee_rate : Z) : proc P unit :=
  if min_fee_rate <? 0 then mret tt
  else on_pm (fun pm => (set_fee_filter from (wrap_u64 min_fee_rate) pm, [], tt)).

(** *** Messages of peers *)

Definition process_pong (from : PeerId) (nonce : Z) : proc P (NetError + SyncAction) :=
  result ← on_pm (fun pm => let '(pm, result) := on_pong from nonce (env_now_ms env) pm in (pm, [], result));
  match result with
  | inr avg_latency =>
      s ← state;
      let latency_threshold := if is_major_syncing (chain_sync s) then PEER_LATENCY_THRESHOLD_INITIAL_SYNC
                               else PEER_LATENCY_THRESHOLD in
      if latency_threshold <? avg_latency then
        if is_active_sync_peer from (chain_sync s) then mret (inr SyncNone)
        else
          _ ← disconnect_everywhere from;
          _ ← store (handle_remove_peer from);
          mret (inr SyncNone)
      else
        _ ← store (try_add_peer persistent_peer_latency_threshold from avg_latency (env_unix env));
        if bool_decide (is_Some (cs_peers (chain_sync s) !! from)) then
          _ ← on_sync (fun cs => Ok (update_peer_latency client from avg_latency cs, tt));
          mret (inr SyncNone)
        else
          match peer_best_number from (peer_manager s) with
          | None => mret (inl (ConnectionNotFound from))
          | Some peer_best =>
              action ← on_sync (add_new_peer client from peer_best avg_latency (env_now env));
              mret (inr action)
          end
  | inl _ =>
      _ ← disconnect_everywhere from;
      _ ← store (handle_remove_peer from);
      mret (inr SyncNone)
  end.

Definition is_tx_inv (i : Inventory) : bool := match i with InvTransaction _ => true | _ => false end.

Definition process_inv (from : PeerId) (inv : list Inventory) : proc P (NetError + SyncAction) :=
  if MAX_INV_SIZE <? Z.of_nat (length inv) then mret (inr (SyncDisconnectPeer from TooManyInventoryItems))
  else
    let tx_inv := filter (fun i => is_tx_inv i = true) inv in
    let block_inv := filter (fun i => is_tx_inv i = false) inv in
    s ← state;
    _ ← (if negb (bool_decide (tx_inv = [])) && peer_wants_tx_relay (peer_manager s) from then
           action ← on_relay (fun r => Ok (on_inv tx_inv from (env_now env) r));
           do_tx_action action
         else mret tt);
    match block_inv with
    | [] => mret (inr SyncNone)
    | [InvBlock block_hash] =>
        if bool_decide (is_Some (backend_block_number client block_hash)) then mret (inr SyncNone)
        else
          s ← state;
          let announced := default ∅ (requested_block_announce s !! from) in
          _ ← set_requested (<[from := {[ block_hash ]} ∪ announced]> (requested_block_announce s));
          if bool_decide (block_hash ∈ announced) then mret (inr SyncNone)
          else mret (inr (get_data block_inv from))
    | _ =>
        action ← on_sync (cs_on_inv client block_inv from);
        mret (inr action)
    end.

Definition process_block (from : PeerId) (block : Block) : proc P (NetError + SyncAction) :=
  let hash := block_hash (block_header block) in
  s ← state;
  let announced := default ∅ (requested_block_announce s !! from) in
  if bool_decide (hash ∈ announced) then
    _ ← set_requested (<[from := announced ∖ {[ hash ]}]> (requested_block_announce s));
    _ ← match bip34_block_height block with
        | inr height => on_sync (fun cs => Ok (update_peer_best from (wrap_u32 height) cs, tt))
        | inl _ => mret tt
        end;
    _ ← (if bool_decide (is_Some (substrate_block_hash_for client hash)) then mret tt
         else
           match backend_block_hash client (best_number client) with
           | None => fun _ => Panic
           | Some best_hash =>
               if bool_decide (prev_blockhash (block_header block) = best_hash)
               then emit [ImportBlocks NetworkBroadcast [block]] else mret tt
           end);
    mret (inr SyncNone)
  else
    '(action, msgs) ← on_sync (fun cs =>
      '(cs, action, msgs) ← cs_on_block client block from (env_now env) cs;
      Ok (cs, (action, msgs)));
    _ ← store msgs;
    mret (inr action).

(** The first header without enough work. *)
Definition invalid_header (headers : list Header) : option Header :=
  find (fun h => negb (has_valid_proof_of_work chain_params h)) headers.

Definition process_headers (from : PeerId) (headers : list Header) : proc P (NetError + SyncAction) :=
  match headers with
  | [] => mret (inr SyncNone)
  | first :: _ =>
      match backend_block_hash client (best_number client) with
      | None => mret (inr SyncNone)
      | Some best_hash =>
          s ← state;
          if is_idle (chain_sync s) && bool_decide (prev_blockhash first = best_hash) then
            match invalid_header headers with
            | Some h => mret (inr (SyncDisconnectPeer from (BadProofOfWork (block_hash h))))
            | None =>
                let hashes := map block_hash headers in
                let announced := default ∅ (requested_block_announce s !! from) in
                _ ← set_requested (<[from := list_to_set hashes ∪ announced]> (requested_block_announce s));
                mret (inr (get_data (map InvBlock hashes) from))
            end
          else
            action ← on_sync (cs_on_headers chain_params client headers from (env_now env));
            mret (inr action)
      end
  end.

(** Blocks are not served. *)
Fixpoint process_get_data (from : PeerId) (requests : list Inventory) : proc P unit :=
  match requests with
  | [] => mret tt
  | inv :: requests =>
      _ ← match inv with
          | InvTransaction _ => s ← state; do_tx_action (on_get_data [inv] from (tx_relay s))
          | _ => mret tt
          end;
      process_get_data from requests
  end.

(** [self.send(..)?] and no action. *)
Definition reply (to : PeerId) (msg : NetworkMessage) : proc P (NetError + SyncAction) :=
  err ← np_send to msg;
  mret match err with Some e => inl e | None => inr SyncNone end.

(** A failed handshake: the sync is not told. *)
Definition drop_handshake (from : PeerId) (err : option NetError) : proc P (NetError + SyncAction) :=
  _ ← match err with
      | Some _ => _ ← pm_disconnect_peer from; relay_disconnected from
      | None => mret tt
      end;
  mret (inr SyncNone).

Definition none_after (m : proc P unit) : proc P (NetError + SyncAction) := _ ← m; mret (inr SyncNone).

Definition process_network_message (from : PeerId) (direction : Direction) (message : NetworkMessage)
    : proc P (NetError + SyncAction) :=
  match message with
  | MsgVersion v =>
      err ← on_pm (on_version from direction v (env_nonces env from) (env_unix env)
                     (best_number client) (env_now_ms env));
      drop_handshake from err
  | MsgVerack =>
      s ← state;
      if is_connected from (peer_manager s) then mret (inr SyncNone)
      else
        err ← on_pm (on_verack from direction (env_nonces env) (env_now_ms env));
        drop_handshake from err
  | MsgAddr addresses => none_after (on_pm (fun pm => (on_addr from addresses pm, [], tt)))
  | MsgTx tx => none_after (handle_tx_message from tx)
  | MsgGetData inv => none_after (process_get_data from inv)
  | MsgGetBlocks _ _ _ => reply from (MsgInv [])
  | MsgGetHeaders _ _ _ => reply from (MsgInv [])
  | MsgGetAddr => reply from (MsgAddrV2 [])
  | MsgPing nonce => reply from (MsgPong nonce)
  | MsgPong nonce => process_pong from nonce
  | MsgAddrV2 addresses => none_after (on_pm (fun pm => (on_addr_v2 from addresses pm, [], tt)))
  | MsgSendAddrV2 => none_after (on_pm (fun pm => (set_want_addrv2 from pm, [], tt)))
  | MsgSendHeaders => none_after (on_pm (fun pm => (set_prefer_headers from pm, [], tt)))
  | MsgFeeFilter min_fee_rate => none_after (handle_fee_filter from min_fee_rate)
  | MsgInv inv => process_inv from inv
  | MsgBlock block => process_block from block
  | MsgHeaders headers => process_headers from headers
  | MsgMerkleBlock | MsgIgnored _ => mret (inr SyncNone)
  end.

Definition process_peer_message (from : PeerId) (direction : Direction) (payload : NetworkMessage) : proc P unit :=
  result ← process_network_message from direction payload;
  match result with
  | inr action => do_sync_action action
  | inl _ => mret tt
  end.

Definition handle_event (event : Event) : proc P unit :=
  match event with
  | NewConnection peer c direction =>
      on_pm (fun pm => (on_new_connection peer c direction (env_nonces env peer) (env_unix env)
                          (best_number client) (env_now_ms env) pm, tt))
  | OutboundConnectionFailure peer =>
      _ ← on_pm (fun pm => (on_outbound_connection_failure peer pm, [], tt));
      store (handle_remove_peer peer)
  | DisconnectPeer peer =>
      _ ← disconnect_everywhere peer;
      store (handle_remove_peer peer)
  | PeerMessage from direction payload => process_peer_message from direction payload
  end.

(** *** Ticks and requests *)

Fixpoint for_each {A} (l : list A) (f : A -> proc P unit) : proc P unit :=
  match l with
  | [] => mret tt
  | x :: l => _ ← f x; for_each l f
  end.

Definition execute_periodic_tasks : proc P unit :=
  '(action, msgs) ← on_sync (fun cs =>
    '(cs, action, msgs) ← cs_on_tick client (env_now env) cs;
    Ok (cs, (action, msgs)));
  _ ← store msgs;
  _ ← do_sync_action action;
  s ← state;
  _ ← for_each (unreliable_peers (chain_sync s)) (fun peer =>
        _ ← disconnect_everywhere peer;
        store (handle_remove_peer peer));
  '(timeouts, slow) ← on_pm (fun pm =>
    let '(pm, r, e) := pm_on_tick (env_nonces env) (env_now_ms env) pm in (pm, e, r));
  _ ← for_each timeouts disconnect_everywhere;
  _ ← match slow with
      | Some (peer, _) =>
          _ ← on_pm (fun pm => (evict peer (env_now_ms env) pm, tt));
          _ ← sync_disconnect peer;
          relay_disconnected peer
      | None => mret tt
      end;
  s ← state;
  action ← on_relay (on_tick (peer_manager s) (connected_peer_ids (peer_manager s)) (env_now env));
  do_tx_action action.

Definition handle_processor_message (msg : ProcessorMessage) : proc P Reply :=
  s ← state;
  match msg with
  | RequestNetworkStatus =>
      mret (NetworkStatus (connected_peers_count (peer_manager s)) (cs_sync_status (chain_sync s)))
  | RequestSyncPeers => mret (SyncPeers (peer_values (chain_sync s)))
  | RequestInboundPeersCount => mret (InboundPeersCount (inbound_peers_count (peer_manager s)))
  | RequestTransaction txid =>
      tx ← on_relay (fun r => tx ← relay_get_transaction txid r; Ok (r, tx));
      mret (TransactionReply tx)
  | SendTransaction tx =>
      result ← on_relay (fun r =>
        let '(result, r) := relay_validate tx (env_unix env) (env_now env) r in
        result ← result;
        Ok (r, result));
      mret match result with
           | Accepted txid _ => SendTransactionSuccess txid
           | Rejected _ reason => SendTransactionFailure reason
           end
  | StartBlockSync =>
      action ← on_sync (start_block_sync client (env_now env));
      _ ← do_sync_action action;
      mret NoReply
  end.

(** *** The main loop *)

Inductive Input :=
| BlocksProcessed (results : list (option BlockImportError * bytes))
| NetworkEvent (event : Event)
| Requested (msg : ProcessorMessage)
| Tick.

(** One turn of [run]. *)
Definition np_step (input : Input) : proc P unit :=
  _ ← match input with
      | BlocksProcessed results =>
          on_sync (fun cs => cs ← on_blocks_processed results (env_now env) cs; Ok (cs, tt))
      | NetworkEvent event => handle_event event
      | Requested msg => _ ← handle_processor_message msg; mret tt
      | Tick => execute_periodic_tasks
      end;
  blocks ← on_sync import_pending_blocks;
  import blocks.
End processor.

(** The processor at start. *)
Definition np_new {P} (agent : String.string) (pool : P) (sync : ChainSync) (max_outbound now : Z) : NetworkProcessor P :=
  mk_np sync (pm_new (config_new agent) max_outbound now) (relay_new pool) ∅.
