(* ===== verification/Connection.v ===== *)
(** * Connections ([crates/subcoin-network/src/peer_connection.rs], [lib.rs])

    The tasks between the sockets and the network processor: the decoder that turns
    bytes into messages, the task that reads from a socket, the task that writes to
    one, the opening of connections, the listener, and the watcher of the fast sync.
    A task is a function of what it is woken up with; what the socket answers to an
    attempt to read or write is part of that. *)

From Stdlib Require Import ZArith Lia.
From stdpp Require Import prelude gmap.
From S2P Require Import Prelude Bitcoin NetworkTypes PeerStore PeerManager NetworkProcessor.

(** ** The wire format *)

Inductive DecodeError :=
| UnexpectedEof
| BadEncoding (kind : Z).

#[export] Instance DecodeError_eq_dec : EqDecision DecodeError.
Proof. solve_decision. Defined.

(** rust-bitcoin's [RawNetworkMessage], a magic number and a payload: its encoding,
    which may fail, and [deserialize_partial], which also tells how many bytes it
    has read. *)
Class WireFormat := {
  consensus_encode : Z -> NetworkMessage -> Z + bytes;
  deserialize_partial : bytes -> DecodeError + (Z * NetworkMessage * nat);
}.

(** A message is read from the front of the bytes and is what was encoded; bytes
    behind what decides the outcome do not change it. *)
Class WireLaws `{!WireFormat} : Prop := {
  wire_empty : deserialize_partial [] = inl UnexpectedEof;
  wire_decode magic msg bs :
    consensus_encode magic msg = inr bs -> deserialize_partial bs = inr (magic, msg, length bs);
  wire_read bs magic msg n :
    deserialize_partial bs = inr (magic, msg, n) -> (0 < n <= length bs)%nat;
  wire_extend bs more r : deserialize_partial bs = inr r -> deserialize_partial (bs ++ more) = inr r;
  wire_bad bs more e :
    deserialize_partial bs = inl e -> e <> UnexpectedEof -> deserialize_partial (bs ++ more) = inl e;
}.

Inductive ConnError :=
| PeerShutdown
| NetworkEventStreamError
| ConnectionTimeout
| Ipv4Only
| IoError (kind : Z)
| EncodingError (e : DecodeError).

(** ** The decoder *)

Record NetworkMessageDecoder := mk_decoder { unparsed : bytes }.

Definition decoder_new : NetworkMessageDecoder := mk_decoder [].

(** [NetworkMessageDecoder::input]. *)
Definition input (bs : bytes) (d : NetworkMessageDecoder) : NetworkMessageDecoder :=
  mk_decoder (unparsed d ++ bs).

Section connection.
Context `{!WireFormat}.

Definition decode_next (d : NetworkMessageDecoder) : NetworkMessageDecoder * (DecodeError + option (Z * NetworkMessage)) :=
  match deserialize_partial (unparsed d) with
  | inr (magic, msg, index) => (mk_decoder (drop index (unparsed d)), inr (Some (magic, msg)))
  | inl UnexpectedEof => (d, inr None)
  | inl e => (d, inl e)
  end.

(** ** The reader *)

(** How a task goes on. *)
Inductive Control :=
| Continue
| Return (result : option ConnError).

(** [while let Some(msg) = decoder.decode_next()? { sender.send(..)? }], where the
    processor may be gone.  [None] when the fuel runs out. *)
Fixpoint decode_all (fuel : nat) (processor_alive : bool) (d : NetworkMessageDecoder)
    : option (NetworkMessageDecoder * list NetworkMessage * Control) :=
  match fuel with
  | O => None
  | S fuel =>
      match decode_next d with
      | (d, inl e) => Some (d, [], Return (Some (EncodingError e)))
      | (d, inr None) => Some (d, [], Continue)
      | (d, inr (Some (_, payload))) =>
          if processor_alive then
            '(d, payloads, control) ← decode_all fuel processor_alive d;
            Some (d, payload :: payloads, control)
          else Some (d, [], Return (Some NetworkEventStreamError))
      end
  end.

(** What a task finds when it wakes up. *)
Inductive ReadWake :=
| ReadDisconnect
| ReadNotReady (kind : Z)
| ReadOk (bs : bytes)
| ReadWouldBlock
| ReadFailed (kind : Z).

Record Reader := mk_reader {
  decoder : NetworkMessageDecoder;
  total_bytes_inbound : Z;
}.

(** One turn of [read_peer_messages]. *)
Definition read_peer_messages (processor_alive : bool) (peer : PeerId) (direction : Direction) (wake : ReadWake)
    (r : Reader) : option (Reader * list Event * Control) :=
  match wake with
  | ReadDisconnect => Some (r, [], Return None)
  | ReadNotReady kind => Some (r, [], Return (Some (IoError kind)))
  | ReadOk [] => Some (r, [], Return (Some PeerShutdown))
  | ReadOk bs =>
      let total := wrap_u64 (total_bytes_inbound r + Z.of_nat (length bs)) in
      let d := input bs (decoder r) in
      '(d, payloads, control) ← decode_all (S (length (unparsed d))) processor_alive d;
      Some (mk_reader d total, map (PeerMessage peer direction) payloads, control)
  | ReadWouldBlock => Some (r, [], Continue)
  | ReadFailed kind => Some (r, [], Return (Some (IoError kind)))
  end.

(** The task: the turns until it returns, and the event that its end causes. *)
Fixpoint run_reader (processor_alive : bool) (peer : PeerId) (direction : Direction) (wakes : list ReadWake) (r : Reader)
    : option (Reader * list Event) :=
  match wakes with
  | [] => Some (r, [])
  | wake :: wakes =>
      '(r, events, control) ← read_peer_messages processor_alive peer direction wake r;
      match control with
      | Continue =>
          '(r, more) ← run_reader processor_alive peer direction wakes r;
          Some (r, events ++ more)
      | Return (Some _) => Some (r, events ++ [DisconnectPeer peer])
      | Return None => Some (r, events)
      end
  end.

(** ** The writer *)

(** What a call of [try_write] does. *)
Inductive WriteOutcome :=
| Wrote (n : nat)
| WriteWouldBlock
| WriteFailed (kind : Z).

(** What the writer wakes up with; [next] is what [recv] gives, if the turn gets
    there: a message, or nothing when the channel is closed. *)
Inductive WriteWake :=
| WriteDisconnect
| WriteNotReady (kind : Z)
| WriteReady (outcome : WriteOutcome) (next : option NetworkMessage).

Record Writer := mk_writer {
  msg_buffer : list bytes;
  total_bytes_outbound : Z;
  (** The bytes handed to the socket. *)
  wire : bytes;
}.

Definition writer_new : Writer := mk_writer [] 0 [].

Definition wrote (n : nat) (msg : bytes) (buffer : list bytes) (w : Writer) : Writer :=
  mk_writer buffer (wrap_u64 (total_bytes_outbound w + Z.of_nat n)) (wire w ++ take n msg).

(** One turn of [send_peer_messages]. *)
Definition send_peer_messages (magic : Z) (wake : WriteWake) (w : Writer) : Writer * Control :=
  match wake with
  | WriteDisconnect => (w, Return None)
  | WriteNotReady kind => (w, Return (Some (IoError kind)))
  | WriteReady outcome next =>
      match msg_buffer w with
      | msg :: rest =>
          match outcome with
          | Wrote n => (wrote n msg rest w, Continue)
          | WriteWouldBlock => (w, Continue)
          | WriteFailed kind => (w, Return (Some (IoError kind)))
          end
      | [] =>
          match next with
          | None => (w, Continue)
          | Some network_message =>
              match consensus_encode magic network_message with
              | inl kind => (w, Return (Some (IoError kind)))
              | inr msg =>
                  match outcome with
                  | Wrote n => (wrote n msg [] w, Continue)
                  | WriteWouldBlock => (mk_writer [msg] (total_bytes_outbound w) (wire w), Continue)
                  | WriteFailed kind => (w, Return (Some (IoError kind)))
                  end
              end
          end
      end
  end.

(** The writer with its channel: a turn that gets to [recv] takes the first
    message that is waiting. *)
Definition write_turn (magic : Z) (outcome : WriteOutcome) (queue : list NetworkMessage) (w : Writer)
    : Writer * list NetworkMessage * Control :=
  match msg_buffer w with
  | [] => let '(w, c) := send_peer_messages magic (WriteReady outcome (head queue)) w in (w, tail queue, c)
  | _ => let '(w, c) := send_peer_messages magic (WriteReady outcome None) w in (w, queue, c)
  end.

Fixpoint run_writer (magic : Z) (outcomes : list WriteOutcome) (queue : list NetworkMessage) (w : Writer)
    : Writer * list NetworkMessage * Control :=
  match outcomes with
  | [] => (w, queue, Continue)
  | outcome :: outcomes =>
      let '(w, queue, control) := write_turn magic outcome queue w in
      match control with
      | Continue => run_writer magic outcomes queue w
      | Return _ => (w, queue, control)
      end
  end.
End connection.

(** ** Opening connections *)

Definition CONNECT_TIMEOUT : Z := 5.

(** A socket: the addresses of its ends, unless the system fails to tell. *)
Record Stream := mk_stream {
  stream_peer_addr : Z + PeerId;
  stream_local_addr : Z + PeerId;
}.

(** The event for the processor, or the error; the two tasks are started with it. *)
Definition initiate_new_connection (ipv4_only processor_alive : bool) (direction : Direction) (stream : Stream)
    : ConnError + Event :=
  match stream_peer_addr stream with
  | inl kind => inl (IoError kind)
  | inr peer_addr =>
      if ipv4_only && is_ipv6 peer_addr then inl Ipv4Only
      else
        match stream_local_addr stream with
        | inl kind => inl (IoError kind)
        | inr local =>
            if processor_alive then inr (NewConnection peer_addr (mk_connection local true) direction)
            else inl NetworkEventStreamError
        end
  end.

Inductive ConnectOutcome :=
| ConnectTimedOut
| ConnectFailed (kind : Z)
| Connected (stream : Stream).

(** The event that an attempt to connect causes. *)
Definition initiate_outbound_connection (ipv4_only processor_alive : bool) (addr : PeerId) (outcome : ConnectOutcome)
    : list Event :=
  let result :=
    match outcome with
    | ConnectTimedOut => inl ConnectionTimeout
    | ConnectFailed kind => inl (IoError kind)
    | Connected stream => initiate_new_connection ipv4_only processor_alive Outbound stream
    end in
  match result with
  | inr event => [event]
  | inl _ => if processor_alive then [OutboundConnectionFailure addr] else []
  end.

Definition initiate_inbound_connection (ipv4_only processor_alive : bool) (stream : Stream) : ConnError + Event :=
  initiate_new_connection ipv4_only processor_alive Inbound stream.

(** One accepted socket: the processor is asked for its number of inbound peers. *)
Definition listen_for_inbound_connections (ipv4_only processor_alive : bool) (max_inbound_peers inbound_peers_count : Z)
    (stream : Stream) : list Event :=
  if inbound_peers_count <? max_inbound_peers then
    match initiate_inbound_connection ipv4_only processor_alive stream with
    | inr event => [event]
    | inl _ => []
    end
  else [].

(** The addresses to connect to at start: [lookup] is the system's resolver, with
    what it finds for a name or the error. *)
Definition initialize_outbound_connections {Name : Type} (builtin seednodes : list Name) (seednode_only : bool)
    (persistent_peers : list PeerId) (name_of : PeerId -> Name) (lookup : Name -> Z + list PeerId) : list PeerId :=
  let bootnodes := seednodes ++ (if seednode_only then [] else builtin) ++ map name_of persistent_peers in
  omap (fun bootnode => match lookup bootnode with inr (addr :: _) => Some addr | _ => None end) bootnodes.

(** ** The fast sync watcher *)

(** The observations of the state sync, every 100 ms: whether block sync is started. *)
Fixpoint watch_substrate_fast_sync (state_sync_has_started : bool) (active : list bool) : bool :=
  match active with
  | [] => false
  | true :: active => watch_substrate_fast_sync true active
  | false :: active => if state_sync_has_started then true else watch_substrate_fast_sync false active
  end.

(** ** What arrives *)

Section facts.
Context `{!WireFormat, !WireLaws}.
Implicit Types (bs : bytes) (d : NetworkMessageDecoder).

Definition decode_bytes bs : option (NetworkMessageDecoder * list NetworkMessage * Control) :=
  decode_all (S (length bs)) true (mk_decoder bs).

(** More fuel than bytes is enough, and then the amount does not matter. *)
Lemma decode_all_fuel fuel1 fuel2 bs :
  (length bs < fuel1)%nat -> (length bs < fuel2)%nat ->
  is_Some (decode_all fuel1 true (mk_decoder bs)) /\
  decode_all fuel1 true (mk_decoder bs) = decode_all fuel2 true (mk_decoder bs).
Proof.
  revert fuel2 bs. induction fuel1 as [| fuel1 IH]; intros [| fuel2] bs Hf1 Hf2; [lia .. |].
  cbn [decode_all]. unfold decode_next. cbn [unparsed].
  destruct (deserialize_partial bs) as [[| k] | [[magic msg] n]] eqn:Hd; [done .. |].
  apply wire_read in Hd. destruct (IH fuel2 (drop n bs)) as [[[[d ms] c] Hr] Heq]; [rewrite length_drop; lia .. |].
  rewrite <- Heq, Hr. done.
Qed.

Lemma decode_bytes_total bs : is_Some (decode_bytes bs).
Proof. apply (decode_all_fuel _ (S (length bs))); lia. Qed.

(** One step of decoding. *)
Lemma decode_bytes_step bs :
  decode_bytes bs =
    match deserialize_partial bs with
    | inr (_, msg, n) => '(d, ms, c) ← decode_bytes (drop n bs); Some (d, msg :: ms, c)
    | inl UnexpectedEof => Some (mk_decoder bs, [], Continue)
    | inl e => Some (mk_decoder bs, [], Return (Some (EncodingError e)))
    end.
Proof.
  unfold decode_bytes at 1. cbn [decode_all]. unfold decode_next. cbn [unparsed].
  destruct (deserialize_partial bs) as [[| k] | [[magic msg] n]] eqn:Hd; [done .. |].
  apply wire_read in Hd. unfold decode_bytes. f_equal.
  apply (decode_all_fuel (length bs)); rewrite length_drop; lia.
Qed.

(** Decoding goes on where it stopped. *)
Lemma decode_bytes_app bs more d ms c :
  decode_bytes bs = Some (d, ms, c) ->
  match c with
  | Continue => decode_bytes (bs ++ more) = '(d', ms', c') ← decode_bytes (unparsed d ++ more); Some (d', ms ++ ms', c')
  | Return e => exists d', decode_bytes (bs ++ more) = Some (d', ms, Return e)
  end.
Proof.
  remember (length bs) as len eqn:Hlen. revert bs Hlen d ms c.
  induction len as [len IH] using lt_wf_ind. intros bs -> d ms c.
  rewrite decode_bytes_step. destruct (deserialize_partial bs) as [[| k] | [[magic msg] n]] eqn:Hd.
  - intros [= <- <- <-]. cbn [unparsed]. by destruct (decode_bytes (bs ++ more)) as [[[d' ms'] c'] |].
  - intros [= <- <- <-]. rewrite decode_bytes_step, (wire_bad _ _ _ Hd) by done. by eexists.
  - pose proof (wire_read _ _ _ _ Hd) as Hn. rewrite (decode_bytes_step (bs ++ more)), (wire_extend _ _ _ Hd).
    rewrite drop_app_le by lia.
    destruct (decode_bytes (drop n bs)) as [[[d1 ms1] c1] |] eqn:Hrest; [| done]. cbn [mbind option_bind]. intros [= <- <- <-].
    assert (length (drop n bs) < length bs)%nat as Hlt by (rewrite length_drop; lia).
    specialize (IH _ Hlt _ eq_refl _ _ _ Hrest). destruct c1 as [| e].
    + rewrite IH. by destruct (decode_bytes (unparsed d1 ++ more)) as [[[d' ms'] c'] |].
    + destruct IH as [d' ->]. by eexists.
Qed.

(** Decoding ends with an error or goes on. *)
Lemma decode_bytes_control bs d ms : decode_bytes bs <> Some (d, ms, Return None).
Proof.
  unfold decode_bytes. generalize (S (length bs)). intros fuel. generalize (mk_decoder bs). revert d ms.
  induction fuel as [| fuel IH]; intros d ms d0; cbn [decode_all]; [done |].
  destruct (decode_next d0) as [d1 [e | [[magic msg] |]]]; [done | | done].
  destruct (decode_all fuel true d1) as [[[d2 ms2] c2] |] eqn:Hd; [| done]. cbn. intros [= -> <- ->].
  by eapply IH.
Qed.

(** *** Reading *)

(** The bytes that a run of the reader receives. *)
Fixpoint received (wakes : list ReadWake) : bytes :=
  match wakes with
  | ReadOk bs :: wakes => bs ++ received wakes
  | _ :: wakes => received wakes
  | [] => []
  end.

(** Bytes, or a readiness that was a false alarm. *)
Definition is_data (wake : ReadWake) : Prop :=
  match wake with ReadOk bs => bs <> [] | ReadWouldBlock => True | _ => False end.

(** The events of a stream of bytes. *)
Definition stream_events (peer : PeerId) (direction : Direction) (ms : list NetworkMessage) (c : Control) : list Event :=
  map (PeerMessage peer direction) ms ++ match c with Return (Some _) => [DisconnectPeer peer] | _ => [] end.

Lemma read_data peer direction bs r :
  bs <> [] ->
  read_peer_messages true peer direction (ReadOk bs) r =
    '(d, ms, c) ← decode_bytes (unparsed (decoder r) ++ bs);
    Some (mk_reader d (wrap_u64 (total_bytes_inbound r + Z.of_nat (length bs))), map (PeerMessage peer direction) ms, c).
Proof. by destruct bs. Qed.

Lemma run_reader_spec peer direction wakes r d0 ms0 :
  Forall is_data wakes -> decode_bytes (unparsed (decoder r)) = Some (d0, ms0, Continue) -> ms0 = [] ->
  exists r' d ms c, decode_bytes (unparsed (decoder r) ++ received wakes) = Some (d, ms, c) /\
    run_reader true peer direction wakes r = Some (r', stream_events peer direction ms c) /\
    (c = Continue -> decoder r' = d).
Proof.
  intros Hw. revert r d0 ms0. induction Hw as [| wake wakes Hwake Hw IH]; intros r d0 ms0 Hd ->.
  - cbn [received run_reader]. rewrite app_nil_r. exists r, d0, [], Continue. split_and!; [done | done |].
    intros _. revert Hd. rewrite decode_bytes_step.
    destruct (deserialize_partial _) as [[| k] | [[? ?] ?]]; [intros [= <-]; by destruct (decoder r) | done |].
    by destruct (decode_bytes _) as [[[] ?] |].
  - destruct wake as [| k | bs | | k]; cbn [is_data] in Hwake; [done | done | | | done]; cbn [run_reader received].
    2: { cbn. destruct (IH r _ _ Hd eq_refl) as (r' & d & ms & c & Hr & -> & Hc). cbn. eauto 10. }
    rewrite read_data by done.
    destruct (decode_bytes_total (unparsed (decoder r) ++ bs)) as [[[d1 ms1] c1] Hd1]. rewrite Hd1.
    cbn [mbind option_bind].
    pose proof (decode_bytes_app _ (received wakes) _ _ _ Hd1) as Happ. rewrite <- app_assoc in Happ.
    destruct c1 as [| e].
    + specialize (IH (mk_reader d1 (wrap_u64 (total_bytes_inbound r + Z.of_nat (length bs)))) d1 []).
      assert (decode_bytes (unparsed d1) = Some (d1, [], Continue)) as Hstop.
      { pose proof (decode_bytes_app _ [] _ _ _ Hd1) as Hnil. rewrite !app_nil_r, Hd1 in Hnil.
        destruct (decode_bytes_total (unparsed d1)) as [[[d2 ms2] c2] Hd2]. rewrite Hd2 in *. cbn in Hnil.
        injection Hnil as <- Hms <-. destruct ms2; [done |]. apply (f_equal length) in Hms.
        rewrite length_app in Hms. cbn in Hms. lia. }
      destruct (IH Hstop eq_refl) as (r' & d & ms & c & Hr & -> & Hc). cbn [decoder] in *.
      rewrite Hr in Happ. cbn in Happ. exists r', d, (ms1 ++ ms), c. split_and!; [done | | done].
      unfold stream_events. by rewrite map_app, <- app_assoc.
    + destruct Happ as [d' Happ]. destruct e as [e |].
      * eexists _, d', ms1, _. by split_and!.
      * by apply decode_bytes_control in Hd1.
Qed.

(** *** Writing *)

(** Messages and their encodings. *)
Definition encoded (magic : Z) : list NetworkMessage -> list bytes -> Prop :=
  Forall2 (fun msg bs => consensus_encode magic msg = inr bs).

Lemma decode_encoded magic ms bss more :
  encoded magic ms bss ->
  decode_bytes (concat bss ++ more) = '(d, ms', c) ← decode_bytes more; Some (d, ms ++ ms', c).
Proof.
  induction 1 as [| msg bs ms bss Henc _ IH]; cbn [concat].
  - cbn [app]. by destruct (decode_bytes more) as [[[] ?] |].
  - rewrite decode_bytes_step, <- app_assoc, (wire_extend bs _ _ (wire_decode _ _ _ Henc)), drop_app_length, IH.
    by destruct (decode_bytes more) as [[[] ?] |].
Qed.

Lemma decode_nothing : decode_bytes [] = Some (mk_decoder [], [], Continue).
Proof. rewrite decode_bytes_step. by rewrite wire_empty. Qed.

(** Less than a message is kept until the rest arrives. *)
Lemma decode_prefix magic msg bs n :
  consensus_encode magic msg = inr bs -> (n < length bs)%nat ->
  decode_bytes (take n bs) = Some (mk_decoder (take n bs), [], Continue).
Proof.
  intros Henc%wire_decode Hn. rewrite decode_bytes_step.
  destruct (deserialize_partial (take n bs)) as [[| k] | r] eqn:Hd; [done | |].
  - apply (wire_bad _ (drop n bs)) in Hd; [| done]. rewrite take_drop in Hd. congruence.
  - pose proof Hd as Hext. apply (wire_extend _ (drop n bs)) in Hext. rewrite take_drop in Hext.
    rewrite Henc in Hext. injection Hext as <-. apply wire_read in Hd. rewrite length_take in Hd. lia.
Qed.

(** The bytes that the next turn tries to write. *)
Definition next_write (magic : Z) (queue : list NetworkMessage) (w : Writer) : option bytes :=
  match msg_buffer w, queue with
  | msg :: _, _ => Some msg
  | [], msg :: _ => match consensus_encode magic msg with inr bs => Some bs | inl _ => None end
  | [], [] => None
  end.

(** Every write that succeeds takes all of the message. *)
Fixpoint full_writes (magic : Z) (outcomes : list WriteOutcome) (queue : list NetworkMessage) (w : Writer) : Prop :=
  match outcomes with
  | [] => True
  | outcome :: outcomes =>
      (forall n bs, outcome = Wrote n -> next_write magic queue w = Some bs -> n = length bs) /\
      let '(w, queue, control) := write_turn magic outcome queue w in
      control = Continue -> full_writes magic outcomes queue w
  end.

Ltac nothing_sent := split_and!; [done | constructor | by rewrite app_nil_r | done | done].

(** The state of a writer after [sent] of [pending ++ queue]. *)
Lemma run_writer_spec magic outcomes queue w w' rest c pending :
  encoded magic pending (msg_buffer w) -> (length pending <= 1)%nat -> full_writes magic outcomes queue w ->
  run_writer magic outcomes queue w = (w', rest, c) ->
  exists sent bss pending', pending ++ queue = sent ++ pending' ++ rest /\ encoded magic sent bss /\
    wire w' = wire w ++ concat bss /\ (length pending' <= 1)%nat /\
    (c = Continue -> encoded magic pending' (msg_buffer w')).
Proof.
  revert queue w pending. induction outcomes as [| outcome outcomes IH]; intros queue w pending Hp Hlen Hfull Hrun.
  { injection Hrun as <- <- <-. exists [], [], pending. nothing_sent. }
  cbn [full_writes run_writer] in *. destruct Hfull as [Hn Hfull].
  unfold write_turn, next_write, send_peer_messages in *.
  destruct (msg_buffer w) as [| msg buffer] eqn:Hbuf.
  - apply Forall2_nil_inv_r in Hp as ->. destruct queue as [| m queue]; cbn [head tail hd_error] in *.
    { cbv zeta in *. by eapply (IH [] w []); [rewrite Hbuf; constructor | cbn; lia | apply Hfull | exact Hrun]. }
    destruct (consensus_encode magic m) as [kind | bs] eqn:Henc.
    { injection Hrun as <- <- <-. exists [], [], [m]. nothing_sent. }
    destruct outcome as [n | | kind].
    + rewrite (Hn n bs eq_refl eq_refl) in Hfull, Hrun.
      destruct (IH queue (wrote (length bs) bs [] w) []) as (sent & bss & p & Hq & He & Hwire & Hl & Hc);
        [constructor | cbn; lia | by apply Hfull | exact Hrun |].
      exists (m :: sent), (bs :: bss), p. split_and!; [cbn; by rewrite <- Hq | by constructor | | done | done].
      rewrite Hwire. cbn [wrote wire concat]. by rewrite firstn_all, <- app_assoc.
    + apply (IH queue (mk_writer [bs] (total_bytes_outbound w) (wire w)) [m]); [by repeat constructor | cbn; lia | by apply Hfull | exact Hrun].
    + injection Hrun as <- <- <-. exists [], [], [m]. nothing_sent.
  - apply Forall2_cons_inv_r in Hp as (m & ms & Henc & Hms & ->). cbn in Hlen.
    assert (ms = []) as -> by (apply nil_length_inv; lia). apply Forall2_nil_inv_l in Hms as ->.
    destruct outcome as [n | | kind].
    + rewrite (Hn n msg eq_refl eq_refl) in Hfull, Hrun.
      destruct (IH queue (wrote (length msg) msg [] w) []) as (sent & bss & p & Hq & He & Hwire & Hl & Hc);
        [constructor | cbn; lia | by apply Hfull | exact Hrun |].
      exists (m :: sent), (msg :: bss), p. split_and!; [cbn; by rewrite <- Hq | by constructor | | done | done].
      rewrite Hwire. cbn [wrote wire concat]. by rewrite firstn_all, <- app_assoc.
    + apply (IH queue w [m]); [rewrite Hbuf; by repeat constructor | done | by apply Hfull | exact Hrun].
    + injection Hrun as <- <- <-. exists [], [], [m]. nothing_sent.
Qed.

Definition reader_new : Reader := mk_reader decoder_new 0.

(** what is read does not depend on how the network cuts the stream: for any two
    ways in which the same bytes arrive, in pieces and with false alarms, the task
    that reads a connection hands the same events to the processor. *)
Lemma reader_chunking (peer : PeerId) (direction : Direction) (wakes1 wakes2 : list ReadWake) :
  Forall is_data wakes1 -> Forall is_data wakes2 -> received wakes1 = received wakes2 ->
  exists r1 r2 events, run_reader true peer direction wakes1 reader_new = Some (r1, events) /\
    run_reader true peer direction wakes2 reader_new = Some (r2, events).
Proof.
  intros H1 H2 Heq.
  destruct (run_reader_spec peer direction wakes1 reader_new _ _ H1 decode_nothing eq_refl) as (r1 & d & ms & c & Hd & Hr & _).
  destruct (run_reader_spec peer direction wakes2 reader_new _ _ H2 decode_nothing eq_refl) as (r2 & d' & ms' & c' & Hd' & Hr' & _).
  rewrite <- Heq, Hd in Hd'. injection Hd' as <- <- <-. eauto.
Qed.

(** C24: what one end writes arrives at the other: after any run of the writer in
    which the socket takes each message whole or would block, the peer that reads
    the bytes, however they are cut, handles a prefix of the queued messages, in
    their order and each once, and keeps no bytes; of the queue only the messages
    that are still waiting are missing, at most one of them taken off the channel. *)
Theorem connection_delivers (magic : Z) (outcomes : list WriteOutcome) (queue rest : list NetworkMessage) (w : Writer)
    (control : Control) (peer : PeerId) (direction : Direction) (wakes : list ReadWake) :
  full_writes magic outcomes queue writer_new -> run_writer magic outcomes queue writer_new = (w, rest, control) ->
  Forall is_data wakes -> received wakes = wire w ->
  exists sent pending r, queue = sent ++ pending ++ rest /\ (length pending <= 1)%nat /\
    run_reader true peer direction wakes reader_new = Some (r, map (PeerMessage peer direction) sent) /\
    unparsed (decoder r) = [].
Proof.
  intros Hfull Hrun Hdata Hwire.
  destruct (run_writer_spec magic outcomes queue writer_new w rest control []) as (sent & bss & pending & Hq & He & Hw & Hl & _);
    [constructor | cbn; lia | done | done |].
  destruct (run_reader_spec peer direction wakes reader_new _ _ Hdata decode_nothing eq_refl) as (r & d & ms & c & Hd & Hr & Hc).
  assert (decode_bytes (wire w) = Some (mk_decoder [], sent, Continue)) as Hdec.
  { pose proof (decode_encoded magic sent bss [] He) as H1. rewrite decode_nothing, app_nil_r in H1. cbn [mbind option_bind] in H1.
    rewrite Hw. cbn [writer_new wire app]. by rewrite H1, app_nil_r. }
  cbn [reader_new decoder decoder_new unparsed app] in Hd. rewrite Hwire, Hdec in Hd. injection Hd as <- <- <-.
  exists sent, pending, r. rewrite Hr. unfold stream_events. rewrite app_nil_r. split_and!; [done | done | done |].
  by rewrite Hc.
Qed.

(** the writer takes a short write for a whole one: when the socket accepts only
    the first [n] bytes of a message, the rest of it is never sent, although the
    task goes on, with nothing left to send.  A peer that has read everything before
    gets no message, and its decoder holds the piece, in front of whatever comes
    next. *)
Lemma short_write_truncates (magic : Z) (msg : NetworkMessage) (queue : list NetworkMessage) (w : Writer) (bs : bytes)
    (n : nat) (peer : PeerId) (direction : Direction) :
  msg_buffer w = [] -> consensus_encode magic msg = inr bs -> (0 < n < length bs)%nat ->
  exists w', write_turn magic (Wrote n) (msg :: queue) w = (w', queue, Continue) /\
    wire w' = wire w ++ take n bs /\ msg_buffer w' = [] /\
    exists r, read_peer_messages true peer direction (ReadOk (take n bs)) reader_new = Some (r, [], Continue) /\
      unparsed (decoder r) = take n bs.
Proof.
  intros Hbuf Henc Hn. unfold write_turn, send_peer_messages. rewrite Hbuf. cbn [head hd_error tail]. rewrite Henc.
  eexists. split; [reflexivity |]. split; [done |]. split; [done |].
  assert (take n bs <> []) as Hne by (intros ?%(f_equal length); rewrite length_take in *; cbn in *; lia).
  eexists. split.
  - rewrite read_data by done. cbn [reader_new decoder decoder_new unparsed app].
    by rewrite (decode_prefix _ _ _ n Henc (proj2 Hn)).
  - done.
Qed.
End facts.

(** ** A concrete format *)

(** Pings and pongs: a tag, the magic number and the nonce. *)
Module SampleWire.
#[export] Instance wire_format : WireFormat := {|
  consensus_encode magic msg :=
    match msg with
    | MsgPing nonce => inr [1; magic; nonce]
    | MsgPong nonce => inr [2; magic; nonce]
    | _ => inl 0
    end;
  deserialize_partial bs :=
    match bs with
    | [] => inl UnexpectedEof
    | tag :: bs =>
        if (tag =? 1) || (tag =? 2) then
          match bs with
          | magic :: nonce :: _ => inr (magic, if tag =? 1 then MsgPing nonce else MsgPong nonce, 3%nat)
          | _ => inl UnexpectedEof
          end
        else inl (BadEncoding tag)
    end;
|}.

#[export] Instance wire_laws : WireLaws.
Proof.
  split.
  - done.
  - intros magic [] bs; try done; by intros [= <-].
  - intros [| tag [| m [| nonce bs]]] magic msg n; cbn; try done; destruct (_ || _); try done.
    intros [= <- <- <-]. cbn. lia.
  - intros [| tag [| m [| nonce bs]]] more r; cbn; try done; by destruct (_ || _).
  - intros [| tag [| m [| nonce bs]]] more e; cbn; intros Hd Hne; try destruct (_ || _); congruence.
Qed.

Definition peer : PeerId := PeerV4 1 8333.
Definition magic : Z := 99.
End SampleWire.

Module WireWitness.
Import SampleWire.

(** Three bytes at once, or one at a time with a false alarm. *)
Lemma reader_chunking_witness :
  exists r1 r2 events,
    run_reader true peer Inbound [ReadOk [1; 99; 7]] reader_new = Some (r1, events) /\
    run_reader true peer Inbound [ReadOk [1]; ReadWouldBlock; ReadOk [99; 7]] reader_new = Some (r2, events).
Proof.
  apply (reader_chunking peer Inbound [ReadOk [1; 99; 7]] [ReadOk [1]; ReadWouldBlock; ReadOk [99; 7]]);
    [repeat constructor; discriminate .. | reflexivity].
Defined.

(** The first message is put back once, the third is not sent yet. *)
Lemma connection_delivers_witness :
  let outcomes := [WriteWouldBlock; Wrote 3; Wrote 3] in
  let queue := [MsgPing 7; MsgPong 8; MsgPing 9] in
  exists w sent pending r, run_writer magic outcomes queue writer_new = (w, [MsgPing 9], Continue) /\
    queue = sent ++ pending ++ [MsgPing 9] /\
    run_reader true peer Inbound [ReadOk (wire w)] reader_new = Some (r, map (PeerMessage peer Inbound) sent) /\
    wire w = [1; 99; 7; 2; 99; 8].
Proof.
  intros outcomes queue. set (w := (run_writer magic outcomes queue writer_new).1.1).
  destruct (connection_delivers magic outcomes queue [MsgPing 9] w Continue peer Inbound
    [ReadOk (wire w)]) as (sent & pending & r & Hq & _ & Hr & _).
  - cbn. repeat split; intros n bs; try discriminate; intros [= <-] [= <-]; reflexivity.
  - reflexivity.
  - repeat constructor. discriminate.
  - reflexivity.
  - exists w, sent, pending, r. split; [reflexivity |]. split; [exact Hq |]. split; [exact Hr | reflexivity].
Defined.

(** Two of the three bytes of a ping are written, then a pong: the peer reads a ping
    that nobody sent, and closes the connection. *)
Lemma short_write_truncates_witness :
  exists w, write_turn magic (Wrote 2) [MsgPing 7; MsgPong 8] writer_new = (w, [MsgPong 8], Continue) /\
    wire w = [1; 99] /\ msg_buffer w = [] /\
    exists r, run_reader true peer Inbound [ReadOk [1; 99]; ReadOk [2; 99; 8]] reader_new =
      Some (r, [PeerMessage peer Inbound (MsgPing 2); DisconnectPeer peer]).
Proof.
  destruct (short_write_truncates magic (MsgPing 7) [MsgPong 8] writer_new [1; 99; 7] 2 peer Inbound)
    as (w & Hw & Hwire & Hb & _); [reflexivity | reflexivity | cbn; lia |].
  exists w. split; [exact Hw |]. split; [exact Hwire |]. split; [exact Hb |]. eexists. vm_compute. reflexivity.
Defined.
End WireWitness.
