(* ===== verification/NetworkFacts.v ===== *)
(** * Theorems on the network processor

    Invariants along any sequence of events: what every connected peer has shown,
    and that the peers of the chain sync are connected, with the one way in which
    this fails. *)

From Stdlib Require Import ZArith Lia.
From stdpp Require Import prelude gmap.
From S2P Require Import Prelude Collections Bitcoin Client TxSanity HeaderVerify BlockVerify MempoolTypes Mempool.
From S2P Require Import NetworkTypes OrphanPool BlockDownloader TxRelay PeerStore PeerManager PeerManagerFacts.
From S2P Require Import Ledger SyncTypes DownloaderFacts BlocksFirst HeadersFirst ChainSync SyncFacts NetworkProcessor.

(** ** Triples *)

Section triples.
Context {P : Type}.
Implicit Types (Q : NetworkProcessor P -> Prop).

(** From [Q] an operation that returns ends in [R] of its value. *)
Definition triple {A} Q (m : proc P A) (R : A -> NetworkProcessor P -> Prop) : Prop :=
  forall s a s' e, Q s -> m s = Ok (a, s', e) -> R a s'.

(** An operation keeps [Q]. *)
Definition keeps {A} Q (m : proc P A) : Prop := triple Q m (fun _ => Q).

Lemma triple_ret {A} Q (a : A) (R : A -> NetworkProcessor P -> Prop) :
  (forall s, Q s -> R a s) -> triple Q (mret a) R.
Proof. intros HR s b s' e Hs [= <- <- <-]. auto. Qed.

Lemma triple_bind {A B} Q (m : proc P A) (f : A -> proc P B) (R : A -> NetworkProcessor P -> Prop) (S : B -> NetworkProcessor P -> Prop) :
  triple Q m R -> (forall a, triple (R a) (f a) S) -> triple Q (m ≫= f) S.
Proof.
  intros Hm Hf s b s' e Hs. unfold mbind, proc_bind. destruct (m s) as [[[a s1] e1] | |] eqn:Hms; [| done ..].
  destruct (f a s1) as [[[b' s2] e2] | |] eqn:Hfs; [| done ..]. intros [= <- <- <-].
  eapply Hf; [| exact Hfs]. by eapply Hm.
Qed.

Lemma triple_weaken {A} Q Q' (m : proc P A) (R R' : A -> NetworkProcessor P -> Prop) :
  triple Q m R -> (forall s, Q' s -> Q s) -> (forall a s, R a s -> R' a s) -> triple Q' m R'.
Proof. intros Hm HQ HR s a s' e Hs Hr. eauto. Qed.

(** Running a sequence. *)
Lemma run_bind {A B} (m : proc P A) (f : A -> proc P B) s a s1 e1 b s2 e2 :
  m s = Ok (a, s1, e1) -> f a s1 = Ok (b, s2, e2) -> (m ≫= f) s = Ok (b, s2, e1 ++ e2).
Proof. intros Hm Hf. unfold mbind, proc_bind. by rewrite Hm, Hf. Qed.

Lemma keeps_from {A} Q Q' (m : proc P A) : (forall s, Q' s -> Q s) -> keeps Q m -> triple Q' m (fun _ => Q).
Proof. intros HQ Hm. by eapply triple_weaken. Qed.

Lemma keeps_ret {A} Q (a : A) : keeps Q (mret a).
Proof. by apply triple_ret. Qed.

Lemma keeps_bind {A B} Q (m : proc P A) (f : A -> proc P B) :
  keeps Q m -> (forall a, keeps Q (f a)) -> keeps Q (m ≫= f).
Proof. intros Hm Hf. eapply triple_bind; [exact Hm |]. intros a. apply Hf. Qed.

Lemma keeps_state Q : keeps Q (state (P := P)).
Proof. by intros s a s' e Hs [= <- <- <-]. Qed.

Lemma keeps_emit Q e : keeps Q (emit (P := P) e).
Proof. by intros s a s' e' Hs [= <- <- <-]. Qed.

Lemma keeps_panic {A} Q : keeps Q (fun _ : NetworkProcessor P => Panic (E := MempoolError) (A := A * NetworkProcessor P * list ProcessorEffect)).
Proof. by intros s a s' e Hs. Qed.
End triples.


Create HintDb network discriminated.
#[export] Hint Resolve keeps_ret keeps_state keeps_emit keeps_panic : network.

(** Go through a handler: one goal per step that the hints do not settle. *)
Ltac keep_step :=
  first
  [ solve [eauto with network]
  | apply keeps_bind; [| intros ?]
  | match goal with
    | |- keeps _ (match ?x with _ => _ end) => destruct x
    | |- keeps _ (let '_ := ?x in _) => destruct x
    end ].
Ltac keep := repeat keep_step.

(** ** Every handler

    An invariant is kept by every step when the primitive operations keep it.
    Operations on the chain sync are benign when they add no peer; operations on
    the peer manager when they keep its invariant and forget no connected peer. *)

Definition sync_benign {A} (f : ChainSync -> res MempoolError (ChainSync * A)) : Prop :=
  forall cs cs' a, f cs = Ok (cs', a) -> dom (cs_peers cs') ⊆ dom (cs_peers cs).

Definition pm_benign (dir : PeerId -> Direction) {A} (f : PeerManager -> PeerManager * list Effect * A) : Prop :=
  forall pm, pm_wf dir ∅ pm ->
    pm_wf dir ∅ (f pm).1.1 /\ dom (connected_peers pm) ⊆ dom (connected_peers (f pm).1.1).

(** *** The chain sync's operations on its peers *)

Section sync_peers.
Context `{!ChainApi, !PowApi, !HashOrder, !EncodedSizes, !UnstableSort}.
Implicit Types (s : ChainSync).

Lemma set_peer_state_dom peer st s : dom (cs_peers (set_peer_state peer st s)) = dom (cs_peers s).
Proof. cbn. apply dom_alter_L. Qed.

Lemma restart_sync_dom c prior reason now s : dom (cs_peers (restart_sync c prior reason now s)) = dom (cs_peers s).
Proof.
  unfold restart_sync. repeat case_match; try done;
    cbn [set_syncing cs_peers set_peer_state cs_set_peers]; by rewrite ?dom_alter_L.
Qed.

Lemma disconnect_dom c peer now s : dom (cs_peers (disconnect c peer now s)) = dom (cs_peers s) ∖ {[ peer ]}.
Proof.
  unfold disconnect. destruct (cs_peers s !! peer) as [p |] eqn:Hp.
  - destruct (is_downloading (sp_state p)); rewrite ?restart_sync_dom; cbn [cs_set_peers cs_peers]; by rewrite dom_delete_L.
  - apply not_elem_of_dom in Hp. set_solver.
Qed.

Lemma update_peer_best_dom peer best s : dom (cs_peers (update_peer_best peer best s)) = dom (cs_peers s).
Proof.
  unfold update_peer_best. destruct (cs_peers s !! peer) as [p |] eqn:Hp; [| done].
  destruct (_ <? _); [| done]. cbn [set_syncing cs_peers cs_set_peers].
  apply elem_of_dom_2 in Hp. rewrite dom_insert_L. set_solver.
Qed.

Lemma update_peer_latency_dom c peer l s : dom (cs_peers (update_peer_latency c peer l s)) = dom (cs_peers s).
Proof.
  unfold update_peer_latency, update_sync_peer_on_lower_latency.
  repeat case_match; cbn [set_syncing cs_peers set_peer_state cs_set_peers]; by rewrite ?dom_alter_L.
Qed.

Lemma attempt_sync_start_dom c now s s' a :
  attempt_sync_start (E := MempoolError) c now s = Ok (s', a) -> dom (cs_peers s') = dom (cs_peers s).
Proof.
  unfold attempt_sync_start. repeat case_match; try (by intros [= <- <-]); intros Hr; inv_ok;
    repeat match goal with H : _ * _ |- _ => destruct H end; inv_ok; simplify_eq;
    cbn [update_syncing_state set_peer_state cs_peers cs_set_peers]; by rewrite ?dom_alter_L.
Qed.

Lemma import_pending_blocks_benign : sync_benign import_pending_blocks.
Proof.
  intros s s' a. unfold import_pending_blocks. destruct (strategy_downloader (syncing s)); [| by intros [= <- <-]].
  destruct (negb _); [by intros [= <- <-] |].
  intros ([d' [n blocks]] & _ & [= <- <-])%bind_Ok. done.
Qed.

Lemma on_blocks_processed_benign results now :
  sync_benign (fun cs => cs ← on_blocks_processed results now cs; Ok (cs, tt)).
Proof.
  intros s s' a (s1 & Hrun & [= <- <-])%bind_Ok. revert Hrun. unfold on_blocks_processed.
  destruct (strategy_downloader (syncing s)); [| by intros [= <-]]. intros (d' & _ & [= <-])%bind_Ok. done.
Qed.

Lemma start_blocks_first_benign c now :
  sync_benign (fun cs => '(cs, action, blocks) ← start_blocks_first_sync c now cs; Ok (cs, (action, blocks))).
Proof.
  intros s s' a ([[s1 act] blocks] & Hrun & [= <- <-])%bind_Ok. revert Hrun. unfold start_blocks_first_sync.
  assert (forall (m : res MempoolError (ChainSync * option SyncAction * option (BlockOrigin * list Block))),
    m = ('(s0, import) ← import_pending_blocks s;
      let our_best := best_number c in
      match best_of (fun p => (our_best <? sp_best_number p) && is_available (sp_state p)) s0 with
      | None => Ok (update_syncing_state SyncingIdle s0, None, import)
      | Some best =>
          '(strategy, action) ← blocks_first_new c (sp_peer_id best) (sp_best_number best) (cs_memory_config s0) now;
          Ok (update_syncing_state (SyncingBlocksFirst strategy) s0, Some action, import)
      end) -> m = Ok (s1, act, blocks) -> dom (cs_peers s1) ⊆ dom (cs_peers s)) as Hgen.
  { intros m -> ([s0 import] & Hi & Hm)%bind_Ok. apply import_pending_blocks_benign in Hi. cbv zeta in Hm.
    destruct (best_of _ s0); [| by injection Hm as <- <- <-].
    apply bind_Ok in Hm as ([st action] & _ & [= <- <- <-]). done. }
  destruct (syncing s) eqn:Hs; [by intros [= <- <- <-] | by apply Hgen ..].
Qed.

Lemma set_idle_benign : sync_benign set_idle.
Proof. intros s s' a ([s1 i] & Hi & [= <- <-])%bind_Ok. by apply import_pending_blocks_benign in Hi. Qed.

Lemma restart_benign c prior reason now : sync_benign (fun cs => Ok (restart_sync c prior reason now cs, tt)).
Proof. intros s s' a [= <- <-]. by rewrite restart_sync_dom. Qed.

Lemma update_best_benign peer best : sync_benign (fun cs => Ok (update_peer_best peer best cs, tt)).
Proof. intros s s' a [= <- <-]. by rewrite update_peer_best_dom. Qed.

Lemma update_latency_benign c peer l : sync_benign (fun cs => Ok (update_peer_latency c peer l cs, tt)).
Proof. intros s s' a [= <- <-]. by rewrite update_peer_latency_dom. Qed.

Lemma start_block_sync_benign c now : sync_benign (start_block_sync c now).
Proof. intros s s' a Ha. apply attempt_sync_start_dom in Ha. by rewrite Ha. Qed.

Lemma on_inv_benign c inv from : sync_benign (cs_on_inv c inv from).
Proof.
  intros s s' a. unfold cs_on_inv. destruct (syncing s); [| by intros [= <- <-] ..].
  by intros ([st act] & _ & [= <- <-])%bind_Ok.
Qed.

Lemma on_block_benign c block from now :
  sync_benign (fun cs => '(cs, action, msgs) ← cs_on_block c block from now cs; Ok (cs, (action, msgs))).
Proof.
  intros s s' a ([[s1 act] msgs] & Hrun & [= <- <-])%bind_Ok. revert Hrun. unfold cs_on_block.
  destruct (syncing s); [by intros ([[st ac] ms] & _ & [= <- <- <-])%bind_Ok .. | by intros [= <- <- <-]].
Qed.

Lemma on_headers_benign params c headers from now : sync_benign (cs_on_headers params c headers from now).
Proof.
  intros s s' a. unfold cs_on_headers. destruct (syncing s); [by intros [= <- <-] | | by intros [= <- <-]].
  by intros ([st act] & _ & [= <- <-])%bind_Ok.
Qed.

Lemma on_tick_benign c now :
  sync_benign (fun cs => '(cs, action, msgs) ← cs_on_tick c now cs; Ok (cs, (action, msgs))).
Proof.
  intros s s' a ([[s1 act] msgs] & Hrun & [= <- <-])%bind_Ok. revert Hrun. unfold cs_on_tick.
  destruct (syncing s); [by intros ([[st ac] ms] & _ & [= <- <- <-])%bind_Ok .. | by intros [= <- <- <-]].
Qed.

Lemma add_new_peer_dom c peer best l now s s' a :
  add_new_peer (E := MempoolError) c peer best l now s = Ok (s', a) ->
  dom (cs_peers s') = {[ peer ]} ∪ dom (cs_peers s).
Proof.
  unfold add_new_peer. cbn [cs_set_peers enable_block_sync]. destruct (enable_block_sync s).
  - intros ->%attempt_sync_start_dom. cbn [cs_set_peers cs_peers]. by rewrite dom_insert_L.
  - intros [= <- <-]. cbn. by rewrite dom_insert_L.
Qed.
End sync_peers.
#[export] Hint Resolve import_pending_blocks_benign on_blocks_processed_benign start_blocks_first_benign set_idle_benign
  restart_benign update_best_benign update_latency_benign start_block_sync_benign on_inv_benign on_block_benign
  on_headers_benign on_tick_benign : network.

(** *** The peer manager's operations *)

Section manager_ops.
Context `{!RandomChoice, !HashOrder}.
Context (dir : PeerId -> Direction).

Lemma send_benign to msg :
  pm_benign dir (fun pm => match send to msg pm with inr e => (pm, e, None) | inl err => (pm, [], Some err) end).
Proof. intros pm Hpm. by destruct (send to msg pm). Qed.

Lemma modify_benign f peer :
  (forall i, peer_ok dir peer i -> peer_ok dir peer (f i)) ->
  pm_benign dir (fun pm => (modify_peer f peer pm, [], tt)).
Proof.
  intros Hf pm Hpm. split; [by apply modify_peer_wf |]. cbn. by rewrite dom_alter_L.
Qed.

Lemma record_invalid_benign peer : pm_benign dir (fun pm => (record_invalid_tx peer pm, [], tt)).
Proof. apply modify_benign. by intros i []; split. Qed.
Lemma fee_filter_benign peer rate : pm_benign dir (fun pm => (set_fee_filter peer rate pm, [], tt)).
Proof. apply modify_benign. by intros i []; split. Qed.
Lemma want_addrv2_benign peer : pm_benign dir (fun pm => (set_want_addrv2 peer pm, [], tt)).
Proof. apply modify_benign. by intros i []; split. Qed.
Lemma prefer_headers_benign peer : pm_benign dir (fun pm => (set_prefer_headers peer pm, [], tt)).
Proof. apply modify_benign. by intros i []; split. Qed.

Lemma book_benign (f : PeerManager -> AddressBook) : pm_benign dir (fun pm => (set_book (f pm) pm, [], tt)).
Proof. intros pm Hpm. split; [by apply set_book_wf | done]. Qed.

Lemma failure_benign peer : pm_benign dir (fun pm => (on_outbound_connection_failure peer pm, [], tt)).
Proof. apply book_benign. Qed.
Lemma addr_benign peer l : pm_benign dir (fun pm => (on_addr peer l pm, [], tt)).
Proof. apply book_benign. Qed.
Lemma addr_v2_benign peer l : pm_benign dir (fun pm => (on_addr_v2 peer l pm, [], tt)).
Proof. apply book_benign. Qed.

Lemma new_connection_benign peer c d nonce ts best now :
  pm_benign dir (fun pm => (on_new_connection peer c d nonce ts best now pm, tt)).
Proof.
  intros pm Hpm. pose proof (on_new_connection_wf dir peer c d nonce ts best now pm Hpm) as Hw. split.
  - cbn. by destruct (on_new_connection _ _ _ _ _ _ _ _).
  - cbn. unfold on_new_connection. destruct d; [done |]. by destruct (connection_send _ _ _).
Qed.

Lemma send_pings_dom l nonces now pm :
  dom (connected_peers (send_pings l nonces now pm).1) = dom (connected_peers pm).
Proof.
  clear dir. revert pm. induction l as [| p l IH]; intros pm; cbn [send_pings]; [done |].
  destruct (connected_peers pm !! p) as [i |] eqn:Hi; [| apply IH].
  specialize (IH (set_connected (<[p := start_ping (nonces p) now i]> (connected_peers pm)) pm)).
  destruct (send_pings l nonces now _) as [pm' e]. cbn in *. rewrite IH, dom_insert_L.
  apply elem_of_dom_2 in Hi. set_solver.
Qed.

Lemma pm_tick_benign nonces now :
  pm_benign dir (fun pm => let '(pm, r, e) := pm_on_tick nonces now pm in (pm, e, r)).
Proof.
  intros pm Hpm. pose proof (pm_on_tick_wf dir nonces now pm Hpm) as Hw.
  assert (dom (connected_peers pm) ⊆ dom (connected_peers (pm_on_tick nonces now pm).1.1)) as Hd.
  { unfold pm_on_tick. pose proof (send_pings_dom (should_ping_peers now pm) nonces now pm) as Hp.
    destruct (send_pings _ _ _ pm) as [pm1 e1]. cbn in Hp. unfold manage_outbound_connections.
    destruct (_ <? _); [destruct (pop _) as [b [q |]]; cbn; by rewrite Hp | destruct (_ || _); cbn; by rewrite Hp]. }
  destruct (pm_on_tick nonces now pm) as [[pm' r] e]. by split.
Qed.

Lemma on_pong_dom peer nonce now pm :
  dom (connected_peers (on_pong peer nonce now pm).1) = dom (connected_peers pm) /\
  (forall avg, (on_pong peer nonce now pm).2 = inr avg -> peer ∈ dom (connected_peers pm)).
Proof.
  clear dir. unfold on_pong. destruct (connected_peers pm !! peer) as [i |] eqn:Hi; [| done].
  apply elem_of_dom_2 in Hi. destruct (ping_state i); [done |]. destruct (negb _); [done |].
  destruct (_ <=? _); [done |]. destruct (record_pong _ _). cbn. rewrite dom_insert_L. set_solver.
Qed.
End manager_ops.
#[export] Hint Resolve send_benign record_invalid_benign fee_filter_benign want_addrv2_benign prefer_headers_benign
  failure_benign addr_benign addr_v2_benign new_connection_benign pm_tick_benign : network.

(** *** All handlers *)

Section handlers.
Context `{!ChainApi, !PowApi, !HashOrder, !EncodedSizes, !UnstableSort, !RandomChoice, !TxApi, !BlockApi}.
Context {P : Type} `{!TxPool P}.
Context (chain_params : ChainParams) (threshold : Z) (env : Env) (dir : PeerId -> Direction).
Context (I : NetworkProcessor P -> Prop) (allowed : PeerId -> NetworkProcessor P -> Prop).

(** What an invariant has to satisfy: the primitive operations keep it, and so do
    the handlers of the messages that change who is connected. *)
Record handled : Prop := {
  h_relay A (f : TxRelay P -> res MempoolError (TxRelay P * A)) : keeps I (on_relay f);
  h_requested r : keeps I (set_requested r);
  h_pm A (f : PeerManager -> PeerManager * list Effect * A) : pm_benign dir f -> keeps I (on_pm f);
  h_sync A (f : ChainSync -> res MempoolError (ChainSync * A)) : sync_benign f -> keeps I (on_sync f);
  h_disconnect peer : keeps I (disconnect_everywhere env peer);
  h_evict peer : keeps I (
    _ ← on_pm (fun pm => (evict peer (env_now_ms env) pm, tt));
    _ ← sync_disconnect env peer;
    relay_disconnected peer);
  h_pong from nonce : keeps I (process_pong threshold env from nonce);
  h_version from v : triple (fun s => I s /\ allowed from s)
    (process_network_message chain_params threshold env from (dir from) (MsgVersion v)) (fun _ => I);
  h_verack from : keeps I (process_network_message chain_params threshold env from (dir from) MsgVerack);
}.
Context (Hhandled : handled).

#[local] Hint Resolve h_relay h_requested h_disconnect h_evict h_pong : network.

Lemma keeps_pm {A} (f : PeerManager -> PeerManager * list Effect * A) : pm_benign dir f -> keeps I (on_pm f).
Proof. by apply h_pm. Qed.
Lemma keeps_sync {A} (f : ChainSync -> res MempoolError (ChainSync * A)) : sync_benign f -> keeps I (on_sync f).
Proof. by apply h_sync. Qed.
#[local] Hint Resolve keeps_pm keeps_sync : network.

Lemma keeps_store l : keeps I (store l).
Proof. unfold store. auto with network. Qed.
Lemma keeps_import o : keeps I (import o).
Proof. unfold import. destruct o as [[]|]; auto with network. Qed.
Lemma keeps_send to msg : keeps I (np_send to msg).
Proof. unfold np_send. auto with network. Qed.
#[local] Hint Resolve keeps_store keeps_import keeps_send : network.

Lemma keeps_get_blocks request : keeps I (send_get_blocks_message request).
Proof. unfold send_get_blocks_message. keep. Qed.
#[local] Hint Resolve keeps_get_blocks : network.

Lemma keeps_sync_action action : keeps I (do_sync_action env action).
Proof. destruct action as [[] | | | | |]; cbn [do_sync_action]; keep. Qed.
#[local] Hint Resolve keeps_sync_action : network.

Lemma keeps_announce batches : keeps I (announce_all batches).
Proof. induction batches as [| [peer txids] batches IH]; cbn [announce_all]; keep. Qed.
Lemma keeps_serve requests : keeps I (serve_all requests).
Proof. induction requests as [| [txid peer] requests IH]; cbn [serve_all]; keep. Qed.
#[local] Hint Resolve keeps_announce keeps_serve : network.

(** The relay never asks to disconnect a peer. *)
Lemma keeps_tx_action action :
  (forall peer, action <> TxRelay.DisconnectPeer peer) -> keeps I (do_tx_action action).
Proof. intros Hn. destruct action; cbn [do_tx_action]; keep. by destruct (Hn peer). Qed.

(** The actions of the relay that are carried out. *)
Definition benign_action (action : TxAction) : Prop := forall peer, action <> TxRelay.DisconnectPeer peer.

Lemma keeps_relay_action (f : TxRelay P -> res MempoolError (TxRelay P * TxAction)) :
  (forall r r' a, f r = Ok (r', a) -> benign_action a) -> keeps I (action ← on_relay f; do_tx_action action).
Proof.
  intros Hf. eapply (triple_bind _ _ _ (fun a s => I s /\ benign_action a)).
  - intros s a s' e Hs Hr. split; [by eapply h_relay |]. revert Hr. unfold on_relay.
    intros ([r b] & Hfr & [= <- <- <-])%bind_Ok. by eapply Hf.
  - intros a s b s' e [Hs Ha]. by apply keeps_tx_action.
Qed.

Lemma on_inv_action inv from now (r r' : TxRelay P) a : on_inv inv from now r = (r', a) -> benign_action a.
Proof.
  unfold on_inv. destruct (on_inv_loop inv from now r []) as [r1 l]. intros [= <- <-] peer. by case_bool_decide.
Qed.

Lemma on_validated_action result from (r r' : TxRelay P) a :
  on_validated_tx result from r = (r', a) -> benign_action a.
Proof. unfold on_validated_tx. destruct result; intros [= <- <-] peer; [done |]. by destruct (should_penalize_peer _). Qed.

Lemma on_tick_action (pm : PeerManager) peers now (r r' : TxRelay P) a :
  on_tick pm peers now r = Ok (r', a) -> benign_action a.
Proof.
  unfold on_tick. cbv zeta. intros (pending & _ & Hr)%bind_Ok peer. revert Hr.
  case_bool_decide; [by intros [= <- <-] |]. destruct (foldl _ _ _) as [announced batches].
  intros [= <- <-]. by case_bool_decide.
Qed.

Lemma get_data_action inv from (r : TxRelay P) : benign_action (on_get_data inv from r).
Proof. intros peer. unfold on_get_data. cbv zeta. by case_bool_decide. Qed.

Lemma keeps_tx from tx : keeps I (handle_tx_message env from tx).
Proof.
  unfold handle_tx_message. apply keeps_bind; [keep | intros s]. destruct (negb _); [keep |].
  destruct (relay_contains _ _); [keep |]. apply keeps_bind; [keep | intros result].
  apply keeps_relay_action. intros r r' a [= Hr]. by eapply on_validated_action.
Qed.

Lemma keeps_fee_filter from rate : keeps I (handle_fee_filter from rate).
Proof. unfold handle_fee_filter. keep. Qed.

Lemma keeps_get_data from requests : keeps I (process_get_data from requests).
Proof.
  induction requests as [| inv requests IH]; cbn [process_get_data]; [keep |].
  apply keeps_bind; [| by intros]. destruct inv; [| keep ..]. apply keeps_bind; [keep | intros s].
  apply keeps_tx_action, get_data_action.
Qed.
#[local] Hint Resolve keeps_tx keeps_fee_filter keeps_get_data : network.

Lemma keeps_inv from inv : keeps I (process_inv env from inv).
Proof.
  unfold process_inv. destruct (_ <? _); [keep |]. apply keeps_bind; [keep | intros s].
  apply keeps_bind.
  - destruct (_ && _); [| keep]. apply keeps_relay_action. intros r r' a [= Hr]. by eapply on_inv_action.
  - intros _. keep.
Qed.

Lemma keeps_block from block : keeps I (process_block env from block).
Proof. unfold process_block. keep. Qed.

Lemma keeps_headers from headers : keeps I (process_headers chain_params env from headers).
Proof. unfold process_headers. keep. Qed.
#[local] Hint Resolve keeps_inv keeps_block keeps_headers : network.

(** A message that may be processed: a version only from an allowed peer. *)
Definition message_ok (msg : NetworkMessage) (from : PeerId) (s : NetworkProcessor P) : Prop :=
  match msg with MsgVersion _ => allowed from s | _ => True end.

Lemma keeps_message from msg :
  triple (fun s => I s /\ message_ok msg from s)
    (process_network_message chain_params threshold env from (dir from) msg) (fun _ => I).
Proof.
  destruct msg; try (by apply h_version);
    (apply keeps_from; [by intros s [Hs _] |]);
    try (by apply h_verack); cbn [process_network_message]; unfold none_after, reply;
    keep.
Qed.

Definition event_ok (event : Event) (s : NetworkProcessor P) : Prop :=
  match event with
  | PeerMessage from direction msg => direction = dir from /\ message_ok msg from s
  | _ => True
  end.

Lemma keeps_event event : triple (fun s => I s /\ event_ok event s) (handle_event chain_params threshold env event) (fun _ => I).
Proof.
  destruct event as [peer c d | peer | peer | from d msg];
    [apply keeps_from; [by intros s [Hs _] |]; cbn [handle_event]; keep .. |].
  intros s a s' e (Hs & -> & Hm). cbn [handle_event]. unfold process_peer_message. revert s a s' e Hs Hm.
  assert (triple (fun s => I s /\ message_ok msg from s)
    (result ← process_network_message chain_params threshold env from (dir from) msg;
     match result with inr action => do_sync_action env action | inl _ => mret tt end) (fun _ => I)) as Ht.
  { eapply triple_bind; [apply keeps_message |]. intros [e | action]; apply (keeps_from I); auto; keep. }
  intros s a s' e Hs Hm. by apply Ht.
Qed.

Lemma keeps_for_each {A} (l : list A) f : (forall x, keeps I (f x)) -> keeps I (for_each l f).
Proof. intros Hf. induction l as [| x l IH]; cbn [for_each]; [keep |]. apply keeps_bind; [done | by intros]. Qed.

Lemma keeps_tick : keeps I (execute_periodic_tasks env).
Proof.
  unfold execute_periodic_tasks. apply keeps_bind; [keep | intros [action msgs]].
  apply keeps_bind; [keep | intros _]. apply keeps_bind; [keep | intros _]. apply keeps_bind; [keep | intros s].
  apply keeps_bind; [apply keeps_for_each; intros; keep | intros _].
  apply keeps_bind; [keep | intros [timeouts slow]].
  apply keeps_bind; [apply keeps_for_each; intros; keep | intros _].
  apply keeps_bind; [destruct slow as [[peer l] |]; [by apply h_evict | keep] | intros _].
  apply keeps_bind; [keep | intros s1]. apply keeps_relay_action. intros r r' a. apply on_tick_action.
Qed.

Lemma keeps_processor_message msg : keeps I (handle_processor_message env msg).
Proof. unfold handle_processor_message. apply keeps_bind; [keep | intros s]. destruct msg; keep. Qed.

Definition input_ok (input : Input) (s : NetworkProcessor P) : Prop :=
  match input with NetworkEvent event => event_ok event s | _ => True end.

(** An invariant that is handled is kept by every turn of the loop. *)
Lemma keeps_step input :
  triple (fun s => I s /\ input_ok input s) (np_step chain_params threshold env input) (fun _ => I).
Proof.
  unfold np_step. eapply (triple_bind _ _ _ (fun _ => I)).
  - destruct input as [results | event | msg |]; [| apply keeps_event | |];
      (apply keeps_from; [by intros s [Hs _] |]).
    + keep.
    + apply keeps_bind; [apply keeps_processor_message | intros; keep].
    + apply keeps_tick.
  - intros _. apply (keeps_from I); [done |]. keep.
Qed.
End handlers.

(** ** The invariants of the processor *)

Section invariants.
Context `{!ChainApi, !PowApi, !HashOrder, !EncodedSizes, !UnstableSort, !RandomChoice, !TxApi, !BlockApi}.
Context {P : Type} `{!TxPool P}.
Context (chain_params : ChainParams) (threshold : Z) (dir : PeerId -> Direction).
Implicit Types (s : NetworkProcessor P).

Definition peers_of_sync s : gset PeerId := dom (cs_peers (chain_sync s)).
Definition peers_connected s : gset PeerId := dom (connected_peers (peer_manager s)).

(** The peer manager is well formed, with exceptions. *)
Definition manager_wf (X : gset PeerId) s : Prop := pm_wf dir X (peer_manager s).
(** Moreover, when [strict], the peers of the sync, apart from [Y], are
    connected. *)
Context (strict : bool).
Definition sync_wf (X Y : gset PeerId) s : Prop :=
  manager_wf X s /\ (strict = true -> peers_of_sync s ∖ Y ⊆ peers_connected s).
(** A version message is allowed from peers that the sync does not know. *)
Definition allowed (from : PeerId) s : Prop := strict = true -> from ∉ peers_of_sync s.

(** *** Primitive operations *)

Lemma triple_state (Q : NetworkProcessor P -> Prop) : triple Q state (fun a s => a = s /\ Q s).
Proof. by intros s a s' e Hs [= <- <- <-]. Qed.

Lemma triple_pm {A} (Q : NetworkProcessor P -> Prop) (f : PeerManager -> PeerManager * list Effect * A) R :
  (forall s, Q s -> R (f (peer_manager s)).2
     (mk_np (chain_sync s) (f (peer_manager s)).1.1 (tx_relay s) (requested_block_announce s))) ->
  triple Q (on_pm f) R.
Proof.
  intros HR s a s' e Hs. specialize (HR s Hs). unfold on_pm.
  destruct (f (peer_manager s)) as [[pm e'] b]. by intros [= <- <- <-].
Qed.

Lemma triple_sync {A} (Q : NetworkProcessor P -> Prop) (f : ChainSync -> res MempoolError (ChainSync * A)) R :
  (forall s cs a, Q s -> f (chain_sync s) = Ok (cs, a) ->
     R a (mk_np cs (peer_manager s) (tx_relay s) (requested_block_announce s))) ->
  triple Q (on_sync f) R.
Proof.
  intros HR s a s' e Hs. unfold on_sync. intros ([cs b] & Hf & [= <- <- <-])%bind_Ok. by eapply HR.
Qed.

Lemma relay_keeps {A} (Q : NetworkProcessor P -> Prop) (f : TxRelay P -> res MempoolError (TxRelay P * A)) :
  (forall s r, Q s -> Q (mk_np (chain_sync s) (peer_manager s) r (requested_block_announce s))) ->
  keeps Q (on_relay f).
Proof.
  intros HQ s a s' e Hs. unfold on_relay. intros ([r b] & Hf & [= <- <- <-])%bind_Ok. by apply HQ.
Qed.

Lemma requested_keeps (Q : NetworkProcessor P -> Prop) r :
  (forall s, Q s -> Q (mk_np (chain_sync s) (peer_manager s) (tx_relay s) r)) -> keeps Q (set_requested r).
Proof. intros HQ s a s' e Hs [= <- <- <-]. by apply HQ. Qed.

Lemma disconnect_connected peer pm :
  dom (connected_peers pm) ∖ {[ peer ]} ⊆ dom (connected_peers (pm_disconnect peer pm).1).
Proof. unfold pm_disconnect. case_bool_decide; cbn; rewrite ?dom_delete_L; set_solver. Qed.

Lemma evict_connected peer now pm :
  dom (connected_peers pm) ∖ {[ peer ]} ⊆ dom (connected_peers (evict peer now pm).1).
Proof.
  unfold evict. pose proof (disconnect_connected peer pm). by destruct (pm_disconnect peer pm).
Qed.

(** *** Leaving *)

(** Removing a peer from the manager, then from the sync. *)
Lemma forget_keeps (f : PeerManager -> PeerManager * list Effect) env peer :
  (forall pm, pm_wf dir ∅ pm -> pm_wf dir ∅ (f pm).1 /\
     dom (connected_peers pm) ∖ {[ peer ]} ⊆ dom (connected_peers (f pm).1)) ->
  keeps (sync_wf ∅ ∅) (
    _ ← on_pm (fun pm => (f pm, tt));
    _ ← sync_disconnect (P := P) env peer;
    relay_disconnected peer).
Proof.
  intros Hf. eapply (triple_bind _ _ _ (fun _ => sync_wf ∅ {[ peer ]})).
  - apply triple_pm. intros s [Hw Hs]. destruct (Hf _ Hw) as [Hw' Hd]. split; [done |].
    intros Hb. specialize (Hs Hb). unfold peers_of_sync, peers_connected in *. cbn. set_solver.
  - intros _. eapply (triple_bind _ _ _ (fun _ => sync_wf ∅ ∅)).
    + apply triple_sync. intros s cs a [Hw Hs] [= <- <-]. split; [done |].
      intros Hb. specialize (Hs Hb). unfold peers_of_sync, peers_connected in *. cbn [chain_sync peer_manager].
      rewrite disconnect_dom. set_solver.
    + intros _. by apply relay_keeps.
Qed.

Lemma disconnect_good peer pm : pm_wf dir ∅ pm ->
  pm_wf dir ∅ (pm_disconnect peer pm).1 /\
  dom (connected_peers pm) ∖ {[ peer ]} ⊆ dom (connected_peers (pm_disconnect peer pm).1).
Proof. intros Hpm. split; [apply disconnect_wf; by apply (wf_mono dir ∅) | apply disconnect_connected]. Qed.

Lemma evict_good peer now pm : pm_wf dir ∅ pm ->
  pm_wf dir ∅ (evict peer now pm).1 /\
  dom (connected_peers pm) ∖ {[ peer ]} ⊆ dom (connected_peers (evict peer now pm).1).
Proof. intros Hpm. split; [by apply evict_wf | apply evict_connected]. Qed.

(** *** Handshakes *)

Lemma on_version_connected peer d v nonce ts best now pm :
  connected_peers (on_version peer d v nonce ts best now pm).1.1 = connected_peers pm.
Proof. unfold on_version. repeat case_match; done. Qed.

Lemma on_verack_connected peer d nonces now pm :
  dom (connected_peers pm) ⊆ dom (connected_peers (on_verack peer d nonces now pm).1.1).
Proof.
  unfold on_verack. destruct (handshaking_peers pm !! peer) as [h |]; [| done]. destruct h as [| t | v | q]; try done.
  assert (forall pm1, dom (connected_peers pm) ⊆ dom (connected_peers pm1) ->
    dom (connected_peers pm) ⊆ dom (connected_peers (send_pings [peer] nonces now pm1).1)) as Hp
    by (intros pm1 Hd; by rewrite send_pings_dom).
  assert (dom (connected_peers pm) ⊆ dom (<[peer := peer_info_new v d now]> (connected_peers pm))) as Hd
    by (rewrite dom_insert_L; set_solver).
  destruct d; cbv zeta; repeat case_match; try done;
    match goal with Heq : send_pings [peer] nonces now ?pm1 = (?pm2, _) |- _ =>
      specialize (Hp pm1 Hd); by rewrite Heq in Hp end.
Qed.

(** After a failed handshake of a peer that the sync does not know. *)
Lemma drop_handshake_keeps from err :
  triple (fun s => manager_wf match err with Some _ => {[ from ]} | None => ∅ end s /\
                   (strict = true -> peers_of_sync s ⊆ peers_connected s) /\
                   (err <> None -> strict = true -> from ∉ peers_of_sync s))
    (drop_handshake from err) (fun _ => sync_wf ∅ ∅).
Proof.
  unfold drop_handshake. eapply (triple_bind _ _ _ (fun _ => sync_wf ∅ ∅)); [| intros _; by apply triple_ret].
  destruct err as [e |].
  - eapply (triple_bind _ _ _ (fun _ => sync_wf ∅ ∅)); [| intros _; by apply relay_keeps].
    apply triple_pm. intros s (Hw & Hs & Hf). split; [by apply disconnect_wf |].
    intros Hb. specialize (Hs Hb). specialize (Hf ltac:(done) Hb).
    pose proof (disconnect_connected from (peer_manager s)).
    unfold peers_of_sync, peers_connected in *. cbn. set_solver.
  - apply triple_ret. intros s (Hw & Hs & _). split; [done |]. intros Hb. specialize (Hs Hb). set_solver.
Qed.

Lemma version_keeps env from v :
  triple (fun s => sync_wf ∅ ∅ s /\ allowed from s)
    (process_network_message chain_params threshold env from (dir from) (MsgVersion v)) (fun _ => sync_wf ∅ ∅).
Proof.
  cbn [process_network_message]. eapply triple_bind; [| intros err; apply drop_handshake_keeps].
  apply triple_pm. intros s ([Hw Hs] & Ha). unfold manager_wf, peers_of_sync, peers_connected in *.
  pose proof (on_version_connected from (dir from) v (env_nonces env from) (env_unix env)
    (best_number (env_client env)) (env_now_ms env) (peer_manager s)) as Hc.
  destruct (on_version _ _ _ _ _ _ _ _) as [[pm e] err] eqn:Hv. cbn [fst snd chain_sync peer_manager] in *.
  split; [by eapply on_version_wf |]. split; [| done].
  intros Hb. specialize (Hs Hb). rewrite Hc. set_solver.
Qed.

Lemma verack_keeps env from :
  keeps (sync_wf ∅ ∅) (process_network_message chain_params threshold env from (dir from) MsgVerack).
Proof.
  cbn [process_network_message]. eapply triple_bind; [apply triple_state |]. intros s0.
  destruct (is_connected from (peer_manager s0)) eqn:Hcon.
  { apply triple_ret. by intros s [_ Hs]. }
  eapply triple_bind; [| intros err; apply drop_handshake_keeps].
  apply triple_pm. intros s (-> & Hw & Hs). unfold manager_wf, peers_of_sync, peers_connected in *.
  unfold is_connected in Hcon. apply bool_decide_eq_false, eq_None_not_Some, not_elem_of_dom in Hcon.
  pose proof (on_verack_connected from (dir from) (env_nonces env) (env_now_ms env) (peer_manager s)) as Hc.
  destruct (on_verack _ _ _ _ _) as [[pm e] err] eqn:Hv. cbn [fst snd chain_sync peer_manager] in *.
  apply on_verack_wf in Hv; [| done].
  split; [by destruct err; [apply (wf_mono dir ∅) |] |]. split; [intros Hb; specialize (Hs Hb); set_solver |].
  intros _ Hb. specialize (Hs Hb). set_solver.
Qed.

(** *** Pongs *)

Lemma pong_keeps env from nonce : keeps (sync_wf ∅ ∅) (process_pong (P := P) threshold env from nonce).
Proof.
  unfold process_pong.
  eapply (triple_bind _ _ _ (fun result s => sync_wf ∅ ∅ s /\
    forall avg, result = inr avg -> from ∈ peers_connected s)).
  { apply triple_pm. intros s [Hw Hs]. unfold manager_wf, peers_of_sync, peers_connected in *.
    pose proof (on_pong_wf dir from nonce (env_now_ms env) (peer_manager s) Hw) as Hw'.
    destruct (on_pong_dom from nonce (env_now_ms env) (peer_manager s)) as [Hd Hin].
    destruct (on_pong _ _ _ _) as [pm result]. cbn [fst snd chain_sync peer_manager] in *.
    split.
    - split; [done |]. unfold peers_of_sync, peers_connected. cbn [chain_sync peer_manager]. by rewrite Hd.
    - intros avg ->. unfold peers_connected. cbn [peer_manager]. rewrite Hd. by eapply Hin. }
  assert (keeps (sync_wf ∅ ∅) (disconnect_everywhere (P := P) env from)) as Hdis
    by (apply forget_keeps, disconnect_good).
  intros [err | avg].
  { apply (keeps_from (sync_wf ∅ ∅)); [by intros s [Hs _] |]. keep. }
  eapply (triple_weaken (fun s => sync_wf ∅ ∅ s /\ from ∈ peers_connected s) _ _ (fun _ => sync_wf ∅ ∅));
    [| intros s [Hs Hf]; split; [done | by eapply Hf] | done].
  eapply (triple_bind _ _ _ (fun _ s => sync_wf ∅ ∅ s /\ from ∈ peers_connected s)).
  { apply keeps_state. }
  intros s0. cbv zeta. destruct (_ <? avg).
  { apply (keeps_from (sync_wf ∅ ∅)); [by intros s [Hs _] |]. destruct (is_active_sync_peer _ _); keep. }
  eapply (triple_bind _ _ _ (fun _ s => sync_wf ∅ ∅ s /\ from ∈ peers_connected s)); [apply keeps_emit |].
  intros _. destruct (bool_decide _).
  { apply (keeps_from (sync_wf ∅ ∅)); [by intros s [Hs _] |]. keep.
    apply triple_sync. intros s cs a [Hw Hs] [= <- <-]. split; [done |]. intros Hb. specialize (Hs Hb).
    unfold peers_of_sync in *. cbn [chain_sync]. by rewrite update_peer_latency_dom. }
  destruct (peer_best_number _ _); [| apply triple_ret; by intros s [Hs _]].
  eapply (triple_bind _ _ _ (fun _ => sync_wf ∅ ∅)); [| intros a; by apply triple_ret].
  apply triple_sync. intros s cs a ([Hw Hs] & Hf) Hadd. split; [done |]. intros Hb. specialize (Hs Hb).
  apply add_new_peer_dom in Hadd. unfold peers_of_sync, peers_connected in *. cbn [chain_sync peer_manager].
  rewrite Hadd. set_solver.
Qed.

Lemma sync_wf_handled env : handled chain_params threshold env dir (sync_wf ∅ ∅) allowed.
Proof.
  split.
  - intros A f. by apply relay_keeps.
  - intros r. by apply requested_keeps.
  - intros A f Hf. apply triple_pm. intros s [Hw Hs]. destruct (Hf _ Hw) as [Hw' Hd]. split; [done |].
    intros Hb. specialize (Hs Hb). unfold peers_of_sync, peers_connected in *. cbn. set_solver.
  - intros A f Hf. apply triple_sync. intros s cs a [Hw Hs] Hr. split; [done |]. intros Hb. specialize (Hs Hb).
    apply Hf in Hr. unfold peers_of_sync, peers_connected in *. cbn. set_solver.
  - intros peer. apply forget_keeps, disconnect_good.
  - intros peer. apply (forget_keeps (evict peer (env_now_ms env))), evict_good.
  - intros. apply pong_keeps.
  - intros. apply version_keeps.
  - intros. apply verack_keeps.
Qed.
End invariants.

(** ** Reachable states *)

Section reachable.
Context `{!ChainApi, !PowApi, !HashOrder, !EncodedSizes, !UnstableSort, !RandomChoice, !TxApi, !BlockApi}.
Context {P : Type} `{!TxPool P}.
Context (chain_params : ChainParams) (threshold : Z) (dir : PeerId -> Direction).
Implicit Types (s : NetworkProcessor P).

(** The task that writes to a peer ends. *)
Definition writer_ends (peer : PeerId) s : NetworkProcessor P :=
  mk_np (chain_sync s)
    (set_connections (alter (fun c => mk_connection (local_addr c) false) peer (connections (peer_manager s)))
       (peer_manager s)) (tx_relay s) (requested_block_announce s).

(** The states the processor goes through, each turn with its own environment;
    with [strict], no peer of the sync repeats its version message. *)
Inductive reachable (strict : bool) : NetworkProcessor P -> Prop :=
| reachable_new agent pool sync max_outbound now :
    cs_peers sync = ∅ -> reachable strict (np_new agent pool sync max_outbound now)
| reachable_writer_ends peer s : reachable strict s -> reachable strict (writer_ends peer s)
| reachable_step env input s s' e :
    reachable strict s -> input_ok dir (allowed strict) input s ->
    np_step chain_params threshold env input s = Ok (tt, s', e) -> reachable strict s'.

Lemma writer_ends_wf strict peer s : sync_wf dir strict ∅ ∅ s -> sync_wf dir strict ∅ ∅ (writer_ends peer s).
Proof.
  intros [[W1 W2 W3 W4 W5] Hs]. split; [| done]. split; cbn; try done;
    intros p Hp Hsome; rewrite lookup_alter_is_Some; auto.
Qed.

Lemma np_reachable_wf strict s : reachable strict s -> sync_wf dir strict ∅ ∅ s.
Proof.
  induction 1 as [agent pool sync max now Hsync | peer s Hr IH | env input s s' e Hr IH Hok Hstep].
  - split; [apply pm_new_wf |]. intros _. unfold peers_of_sync. cbn. rewrite Hsync. set_solver.
  - by apply writer_ends_wf.
  - by eapply (keeps_step chain_params threshold env dir (sync_wf dir strict ∅ ∅) (allowed strict)
      (sync_wf_handled chain_params threshold dir strict env)).
Qed.

(** C22: along any sequence of events, requests, ticks and failures of connections,
    every peer that is counted as connected has a connection and has completed the
    handshake in its own direction; an outbound one has announced a protocol
    version of at least 70012, the full chain and witness data.  A peer in the
    middle of its handshake has a connection. *)
Theorem connected_peers_checked (s : NetworkProcessor P) (p : PeerId) :
  reachable false s ->
  (forall i, connected_peers (peer_manager s) !! p = Some i ->
     is_Some (connections (peer_manager s) !! p) /\ pi_direction i = dir p /\
     (dir p = Outbound -> version_ok (pi_version i) (pi_services i))) /\
  (is_Some (handshaking_peers (peer_manager s) !! p) -> is_Some (connections (peer_manager s) !! p)).
Proof.
  intros [[W1 W2 W3 W4 W5] _]%np_reachable_wf. split.
  - intros i Hi. destruct (W5 p i Hi) as [Hd Hv _]. split; [| by split]. apply W3; [set_solver | by rewrite Hi].
  - apply W2. set_solver.
Qed.

(** C23: the peer manager and the chain sync agree on who is there: along any
    sequence of events in which no peer repeats its version message while the sync
    knows it, every peer of the sync is connected. *)
Theorem sync_peers_connected (s : NetworkProcessor P) :
  reachable true s -> dom (cs_peers (chain_sync s)) ⊆ dom (connected_peers (peer_manager s)).
Proof.
  intros [_ Hs]%np_reachable_wf. specialize (Hs eq_refl). unfold peers_of_sync, peers_connected in Hs. set_solver.
Qed.

(** a repeated version message splits them: an outbound peer that is connected
    and known to the sync and sends its version message again is dropped by the
    peer manager, which closes its connection, but stays a peer of the sync, which
    can choose it and sends its requests to nobody. *)
Lemma repeated_version_ghost (env : Env) (from : PeerId) (v : VersionMessage) (s : NetworkProcessor P) :
  persistent (config (peer_manager s)) = [] ->
  from ∈ dom (cs_peers (chain_sync s)) -> is_Some (connections (peer_manager s) !! from) ->
  handshaking_peers (peer_manager s) !! from = None ->
  exists s', handle_event chain_params threshold env (PeerMessage from Outbound (MsgVersion v)) s =
      Ok (tt, s', [PeerEffect (Terminated from)]) /\
    chain_sync s' = chain_sync s /\ from ∈ dom (cs_peers (chain_sync s')) /\
    (from ∉ dom (connected_peers (peer_manager s'))) /\
    forall msg, send from msg (peer_manager s') = inl (ConnectionNotFound from).
Proof.
  clear dir. intros Hp Hin [c Hc] Hh. unfold handle_event, process_peer_message. cbn [process_network_message].
  set (refused := fun pm => pm = peer_manager s \/
    pm = set_handshaking (<[from := VersionReceived v]> (handshaking_peers (peer_manager s))) (peer_manager s)).
  assert (exists pm err, on_version from Outbound v (env_nonces env from) (env_unix env)
      (best_number (env_client env)) (env_now_ms env) (peer_manager s) = (pm, [], Some err) /\ refused pm)
    as (pm & err & Hv & Hpm).
  { unfold on_version. destruct (_ <? _); [do 2 eexists; split; [done | by left] |].
    destruct (validate_outbound_services (vm_services v)); rewrite ?Hh;
      do 2 eexists; (split; [done |]); [by right | by left | by right]. }
  assert (persistent (config pm) = [] /\ connections pm !! from = Some c) as [Hpp Hpc]
    by (by destruct Hpm as [-> | ->]).
  assert (exists pm', pm_disconnect from pm = (pm', [Terminated from]) /\
    connected_peers pm' = delete from (connected_peers pm) /\ connections pm' = delete from (connections pm))
    as (pm' & Hd & Hcon & Hconn).
  { unfold pm_disconnect. rewrite bool_decide_eq_false_2 by (rewrite Hpp; apply not_elem_of_nil). rewrite Hpc.
    by eexists. }
  set (s' := mk_np (chain_sync s) pm' (on_peer_disconnected from (tx_relay s)) (requested_block_announce s)).
  exists s'. split.
  - eapply (run_bind _ _ _ (inr SyncNone) s' [PeerEffect (Terminated from)] _ _ []); [| reflexivity].
    eapply (run_bind _ _ _ _ _ [] _ _ [PeerEffect (Terminated from)]); [unfold on_pm; by rewrite Hv |].
    unfold drop_handshake. eapply (run_bind _ _ _ tt s' [PeerEffect (Terminated from)] _ _ []); [| reflexivity].
    eapply (run_bind _ _ _ tt (mk_np (chain_sync s) pm' (tx_relay s) (requested_block_announce s))
      [PeerEffect (Terminated from)] _ _ []); [| reflexivity].
    unfold pm_disconnect_peer, on_pm. cbn [peer_manager]. by rewrite Hd.
  - cbn [s' chain_sync peer_manager]. split_and!; [done | done | rewrite Hcon, dom_delete_L; set_solver |].
    intros msg. unfold send. by rewrite Hconn, lookup_delete_eq.
Qed.

(** ** Announced blocks *)

Definition announced_by (from : PeerId) s : gset bytes := default ∅ (requested_block_announce s !! from).

(** what becomes of a block that a peer announced and was asked for: it is
    handed to the import queue exactly when it is new and extends the best block
    that the client knows at that moment, and in every case it is forgotten.  So of
    several announced blocks that arrive before the first one is imported, all but
    the first are lost, although they were requested together. *)
Lemma announced_block_spec (env : Env) (from : PeerId) (block : Block) (s : NetworkProcessor P) (best : bytes) :
  let hash := block_hash (block_header block) in
  let c := env_client env in
  hash ∈ announced_by from s -> backend_block_hash c (best_number c) = Some best ->
  exists s', process_block env from block s = Ok (inr SyncNone, s',
      if decide (substrate_block_hash_for c hash = None /\ prev_blockhash (block_header block) = best)
      then [ImportBlocks NetworkBroadcast [block]] else []) /\
    announced_by from s' = announced_by from s ∖ {[ hash ]} /\
    (forall q, q <> from -> announced_by q s' = announced_by q s) /\
    peer_manager s' = peer_manager s /\ tx_relay s' = tx_relay s.
Proof.
  intros hash c Hin Hbest. unfold process_block. fold hash. fold c.
  set (cs' := match bip34_block_height block with
    | inr h => update_peer_best from (wrap_u32 h) (chain_sync s) | inl _ => chain_sync s end).
  exists (mk_np cs' (peer_manager s) (tx_relay s)
    (<[from := announced_by from s ∖ {[ hash ]}]> (requested_block_announce s))).
  split.
  - eapply (run_bind _ _ _ s s [] _ _ _); [reflexivity |]. cbv beta zeta. fold (announced_by from s).
    rewrite bool_decide_eq_true_2 by done.
    eapply (run_bind _ _ _ _ _ [] _ _ _); [reflexivity |].
    eapply (run_bind _ _ _ tt (mk_np cs' (peer_manager s) (tx_relay s) _) [] _ _ _).
    { unfold cs'. destruct (bip34_block_height block); reflexivity. }
    cbv beta. rewrite Hbest.
    rewrite <- (app_nil_r (if decide _ then _ else _)). eapply run_bind; [| reflexivity].
    destruct (substrate_block_hash_for c hash) as [h |].
    + rewrite bool_decide_eq_true_2 by done. rewrite decide_False by (by intros [? _]). reflexivity.
    + rewrite bool_decide_eq_false_2 by (by intros [? ?]). case_bool_decide as Hprev.
      * by rewrite decide_True.
      * rewrite decide_False by (by intros [_ ?]). reflexivity.
  - unfold announced_by. cbn [requested_block_announce peer_manager tx_relay]. rewrite lookup_insert_eq.
    split_and!; [done | | done | done]. intros q Hq. by rewrite lookup_insert_ne.
Qed.

(** what a peer announced is remembered after the peer is gone: a block that
    was requested from a peer which disconnected before sending it is not requested
    from the same address again, when the peer comes back and announces it. *)
Lemma reannounced_block_ignored (env env' : Env) (from : PeerId) (hash : bytes) (s s1 : NetworkProcessor P)
    (e : list ProcessorEffect) :
  hash ∈ announced_by from s ->
  handle_event chain_params threshold env (DisconnectPeer from) s = Ok (tt, s1, e) ->
  hash ∈ announced_by from s1 /\
  forall s2, requested_block_announce s2 = requested_block_announce s1 ->
    exists s3, process_inv env' from [InvBlock hash] s2 = Ok (inr SyncNone, s3, []) /\
      announced_by from s3 = announced_by from s1.
Proof.
  clear dir. intros Hin Hev.
  assert (keeps (fun t => requested_block_announce t = requested_block_announce s)
    (handle_event chain_params threshold env (DisconnectPeer from))) as Hk.
  { cbn [handle_event]. unfold disconnect_everywhere, pm_disconnect_peer, sync_disconnect, relay_disconnected, store.
    repeat (apply keeps_bind; [| intros ?]); try apply keeps_emit.
    - apply triple_pm. done.
    - apply triple_sync. done.
    - by apply relay_keeps. }
  assert (requested_block_announce s1 = requested_block_announce s) as Hreq by (eapply Hk; [| exact Hev]; done).
  assert (announced_by from s1 = announced_by from s) as Ha by (unfold announced_by; by rewrite Hreq).
  split; [by rewrite Ha |]. intros s2 Hs2. unfold process_inv. cbn [length].
  change (MAX_INV_SIZE <? Z.of_nat 1) with false. cbv iota.
  change (filter (fun i => is_tx_inv i = true) [InvBlock hash]) with (@nil Inventory).
  change (filter (fun i => is_tx_inv i = false) [InvBlock hash]) with [InvBlock hash].
  destruct (backend_block_number (env_client env') hash) eqn:Hnum.
  - exists s2. split; [| by unfold announced_by; rewrite Hs2].
    do 2 (eapply (run_bind _ _ _ _ _ [] _ _ []); [reflexivity |]). cbv beta.
    rewrite bool_decide_eq_true_2 by (rewrite Hnum; done). reflexivity.
  - exists (mk_np (chain_sync s2) (peer_manager s2) (tx_relay s2)
      (<[from := {[ hash ]} ∪ announced_by from s2]> (requested_block_announce s2))).
    assert (announced_by from s2 = announced_by from s1) as Ha2 by (unfold announced_by; by rewrite Hs2).
    split.
    + do 2 (eapply (run_bind _ _ _ _ _ [] _ _ []); [reflexivity |]). cbv beta.
      rewrite bool_decide_eq_false_2 by (rewrite ?Hnum; apply is_Some_None).
      do 2 (eapply (run_bind _ _ _ _ _ [] _ _ []); [reflexivity |]). cbv beta zeta. fold (announced_by from s2).
      rewrite bool_decide_eq_true_2 by (by rewrite Ha2, Ha). reflexivity.
    + unfold announced_by at 1. cbn. rewrite lookup_insert_eq. cbn. rewrite Ha2, Ha. set_solver.
Qed.
End reachable.

(** ** A concrete run *)

Module SampleNetwork.
Import SampleOrder SampleBlocks SampleDownload SampleSync SampleManager.
Import (hints) SamplePow SampleTx SampleBlock.
#[export] Existing Instances SampleTx.tx_api SampleBlock.block_api SamplePow.pow_api.

Definition direction (p : PeerId) : Direction := if decide (p = peer) then Outbound else Inbound.
Definition env_at (now : Z) : Env := mk_env (client_at 0) (1000 * now) now now (fun _ => 42).
Definition start : NetworkProcessor NoTxPool :=
  np_new (String.EmptyString) no_tx_pool (chain_sync_new StrategyHeadersFirst true false None 1 memory_config_default) 8 0.

(** The state after a turn of the loop that succeeds. *)
Definition next (input : Input) (s : NetworkProcessor NoTxPool) : NetworkProcessor NoTxPool :=
  (from_ok (tt, s, []) (np_step SamplePow.regtest 200 (env_at 0) input s)).1.2.

(** An outbound peer connects, completes the handshake and answers the ping. *)
Definition message (msg : NetworkMessage) : Input := NetworkEvent (PeerMessage peer Outbound msg).
Definition opened := next (NetworkEvent (NewConnection peer (mk_connection stranger true) Outbound)) start.
Definition greeted := next (message (MsgVersion (full_node 70016))) opened.
Definition accepted := next (message MsgVerack) greeted.
Definition connected := next (message (MsgPong 42)) accepted.

(** The next block and one on top of it, which the peer announces. *)
Definition best_block : bytes := replicate 32 7.
Definition new_block : Block := child_of best_block 1.
Definition newer_block : Block := child_of (hash_of new_block) 2.
Definition announced :=
  next (message (MsgInv [InvBlock (hash_of newer_block)])) (next (message (MsgInv [InvBlock (hash_of new_block)])) connected).

Lemma reachable_next strict input s :
  reachable SamplePow.regtest 200 direction strict s -> input_ok direction (allowed strict) input s ->
  is_ok (np_step SamplePow.regtest 200 (env_at 0) input s) = true ->
  reachable SamplePow.regtest 200 direction strict (next input s).
Proof.
  intros Hr Hi Hok%(from_ok_eq (tt, s, [])). unfold next. destruct (from_ok _ _) as [[[] s'] e].
  by eapply reachable_step.
Qed.

Lemma connected_reachable strict : reachable SamplePow.regtest 200 direction strict connected.
Proof.
  unfold connected, accepted, greeted, opened.
  repeat (apply reachable_next; [| | vm_compute; reflexivity]); [by apply reachable_new | | | |]; try done; split; try done.
Qed.
End SampleNetwork.

Module NetworkWitness.
Import SampleOrder SampleBlocks SampleDownload SampleManager SampleNetwork.
Import SampleSync(peer).

Ltac computed := refine (bool_decide_unpack _ _); vm_compute; exact I.

(** The outbound peer of the run. *)
Lemma connected_peers_checked_witness :
  exists i, connected_peers (peer_manager connected) !! peer = Some i /\
    is_Some (connections (peer_manager connected) !! peer) /\ pi_direction i = Outbound /\
    version_ok (pi_version i) (pi_services i).
Proof.
  destruct (connected_peers_checked SamplePow.regtest 200 direction connected peer (connected_reachable false)) as [Hc _].
  assert (exists i, connected_peers (peer_manager connected) !! peer = Some i) as [i Hi]
    by (eexists; vm_compute; reflexivity).
  exists i. split; [exact Hi |]. destruct (Hc i Hi) as (Hconn & Hd & Hv). split; [exact Hconn |].
  split; [exact Hd | apply Hv; reflexivity].
Defined.

Lemma sync_peers_connected_witness :
  peer ∈ dom (cs_peers (chain_sync connected)) /\ peer ∈ dom (connected_peers (peer_manager connected)).
Proof.
  assert (peer ∈ dom (cs_peers (chain_sync connected))) as Hin by computed.
  split; [exact Hin |].
  apply (sync_peers_connected SamplePow.regtest 200 direction connected (connected_reachable true)), Hin.
Defined.

(** The same peer greets again. *)
Lemma repeated_version_ghost_witness :
  exists s', handle_event SamplePow.regtest 200 (env_at 0) (PeerMessage peer Outbound (MsgVersion (full_node 70016)))
      connected = Ok (tt, s', [PeerEffect (Terminated peer)]) /\
    peer ∈ dom (cs_peers (chain_sync s')) /\ (peer ∉ dom (connected_peers (peer_manager s'))).
Proof.
  destruct (repeated_version_ghost SamplePow.regtest 200 (env_at 0) peer (full_node 70016) connected)
    as (s' & Hr & _ & Hin & Hout & _).
  1, 4: vm_compute; reflexivity.
  - computed.
  - eexists. vm_compute. reflexivity.
  - exists s'. exact (conj Hr (conj Hin Hout)).
Defined.

(** Of two announced blocks, the second arrives while the first is imported. *)
Lemma announced_block_spec_witness :
  exists s1 s2,
    process_block (env_at 0) peer new_block announced = Ok (inr SyncNone, s1, [ImportBlocks NetworkBroadcast [new_block]]) /\
    process_block (env_at 0) peer newer_block s1 = Ok (inr SyncNone, s2, []) /\
    announced_by peer s2 = ∅.
Proof.
  destruct (announced_block_spec (env_at 0) peer new_block announced best_block) as (s1 & Hr1 & Ha1 & _).
  { computed. }
  { vm_compute. reflexivity. }
  destruct (announced_block_spec (env_at 0) peer newer_block s1 best_block) as (s2 & Hr2 & Ha2 & _).
  { rewrite Ha1. computed. }
  { vm_compute. reflexivity. }
  exists s1, s2. split; [exact Hr1 |]. split; [exact Hr2 |]. rewrite Ha2, Ha1. vm_compute. reflexivity.
Defined.

(** The peer leaves before it sends the block, and announces it again. *)
Lemma reannounced_block_ignored_witness :
  exists s1 s2 e, handle_event SamplePow.regtest 200 (env_at 0) (DisconnectPeer peer) announced = Ok (tt, s1, e) /\
    process_inv (env_at 1) peer [InvBlock (hash_of new_block)] s1 = Ok (inr SyncNone, s2, []) /\
    announced_by peer s2 = announced_by peer s1.
Proof.
  set (m := handle_event SamplePow.regtest 200 (env_at 0) (DisconnectPeer peer) announced).
  assert (m = Ok (from_ok (tt, announced, []) m)) as Hm by (apply from_ok_eq; vm_compute; reflexivity).
  destruct (from_ok (tt, announced, []) m) as [[[] s1] e].
  destruct (reannounced_block_ignored SamplePow.regtest 200 (env_at 0) (env_at 1) peer (hash_of new_block) announced s1 e)
    as [_ Hagain].
  { computed. }
  { exact Hm. }
  destruct (Hagain s1 eq_refl) as (s2 & Hi & Ha). exists s1, s2, e. exact (conj Hm (conj Hi Ha)).
Defined.
End NetworkWitness.
