(* ===== verification/IndexerDb.v ===== *)
(** * The address index ([crates/subcoin-indexer/src/db.rs], [types.rs])

    The tables of the SQLite database as finite maps from their primary keys, and
    the statements of the source as operations on them.  A transaction of the
    database is one operation; the driver itself does not fail here. *)

From Stdlib Require Import ZArith Lia String.
From stdpp Require Import prelude gmap strings.
From S2P Require Import Prelude Collections ScriptTypes Bitcoin Client HeaderVerify.

(** ** Addresses *)

(** rust-bitcoin's addresses: [Address::from_script] and [Address::p2pkh] as text,
    and the hash of a compressed key, if the bytes are one. *)
Class AddressApi := {
  address_from_script : Network -> bytes -> option string;
  address_p2pkh : Network -> bytes -> string;
  compressed_pubkey_hash : bytes -> option bytes;
}.

Definition byte_at (bs : bytes) (i : nat) : Z := default 0 (bs !! i).

Definition script_to_address `{!AddressApi, !HashApi} (script : bytes) (network : Network) : option string :=
  match address_from_script network script with
  | Some address => Some address
  | None =>
      let compressed :=
        if (length script =? 35)%nat && (byte_at script 0 =? 0x21) && (byte_at script 34 =? 0xac)
        then address_p2pkh network <$> compressed_pubkey_hash (take 33 (drop 1 script))
        else None in
      match compressed with
      | Some address => Some address
      | None =>
          if (length script =? 67)%nat && (byte_at script 0 =? 0x41) && (byte_at script 66 =? 0xac)
          then Some (address_p2pkh network (hash160 (take 65 (drop 1 script))))
          else None
      end
  end.

(** ** Tables *)

Inductive IndexerError :=
| DatabaseError
| InvalidTxid
| BlockNotFound (height : Z).

Inductive IndexerState :=
| HistoricalIndexing (target_height current_height : Z)
| Active (last_indexed : Z).

Record BlockRow := mk_block_row { b_hash : bytes; b_timestamp : Z }.

(** The columns of an output that its spending sets. *)
Record SpentBy := mk_spent_by { spent_txid : bytes; spent_vout : Z; spent_block_height : Z }.

Record OutputRow := mk_row {
  r_address : option string;
  r_value : Z;
  r_script : bytes;
  r_height : Z;
  r_spent : option SpentBy;
}.

(** Address, height and transaction. *)
Abbreviation HistoryKey := (string * Z * bytes)%type.
Definition key_address (k : HistoryKey) : string := k.1.1.
Definition key_height (k : HistoryKey) : Z := k.1.2.
Definition key_txid (k : HistoryKey) : bytes := k.2.

Record IndexerDatabase := mk_db {
  blocks : gmap Z BlockRow;
  transactions : gmap bytes (Z * Z);
  outputs : gmap OutPoint OutputRow;
  address_history : gmap HistoryKey Z;
  state_value : option string;
}.

(** [init_schema] on a new file. *)
Definition empty_db : IndexerDatabase := mk_db ∅ ∅ ∅ ∅ None.

Definition set_blocks m d := mk_db m (transactions d) (outputs d) (address_history d) (state_value d).
Definition set_transactions m d := mk_db (blocks d) m (outputs d) (address_history d) (state_value d).
Definition set_outputs m d := mk_db (blocks d) (transactions d) m (address_history d) (state_value d).
Definition set_history m d := mk_db (blocks d) (transactions d) (outputs d) m (state_value d).
Definition set_state v d := mk_db (blocks d) (transactions d) (outputs d) (address_history d) v.

(** ** Single statements *)

(** [INSERT OR REPLACE INTO blocks]: the hash is unique too. *)
Definition insert_block_row (m : gmap Z BlockRow) (row : Z * bytes * Z) : gmap Z BlockRow :=
  let '(height, hash, timestamp) := row in
  <[height := mk_block_row hash timestamp]> (filter (fun kv => b_hash kv.2 <> hash) m).

Definition insert_block (height : Z) (hash : bytes) (timestamp : Z) (d : IndexerDatabase) : IndexerDatabase :=
  set_blocks (insert_block_row (blocks d) (height, hash, timestamp)) d.

(** [SELECT MAX(height) FROM blocks] yields a row in any case; without blocks it
    holds no number, which the driver refuses to decode. *)
Definition last_block_height (d : IndexerDatabase) : res IndexerError (option Z) :=
  match map_to_list (blocks d) with
  | [] => Err DatabaseError
  | (h, _) :: l => let m := foldr (fun kv m => kv.1 `max` m) h l in Ok (if 0 <=? m then Some (wrap_u32 m) else None)
  end.

Definition insert_transaction_row (m : gmap bytes (Z * Z)) (row : bytes * Z * Z) : gmap bytes (Z * Z) :=
  let '(txid, block_height, tx_index) := row in <[txid := (block_height, tx_index)]> m.

Definition insert_transaction (txid : bytes) (block_height tx_index : Z) (d : IndexerDatabase) : IndexerDatabase :=
  set_transactions (insert_transaction_row (transactions d) (txid, block_height, tx_index)) d.

Definition get_transaction (txid : bytes) (d : IndexerDatabase) : option (Z * Z) :=
  (fun '(h, i) => (wrap_u32 h, wrap_u32 i)) <$> transactions d !! txid.

(** Replacing a row clears the columns that the statement does not name. *)
Definition insert_output_row (m : gmap OutPoint OutputRow) (row : OutPoint * OutputRow) : gmap OutPoint OutputRow :=
  <[row.1 := row.2]> m.

Definition spend_row (m : gmap OutPoint OutputRow) (u : SpentBy * OutPoint) : gmap OutPoint OutputRow :=
  alter (fun r => mk_row (r_address r) (r_value r) (r_script r) (r_height r) (Some u.1)) u.2 m.

Definition mark_output_spent (outpoint : OutPoint) (txid : bytes) (vout height : Z) (d : IndexerDatabase) : IndexerDatabase :=
  set_outputs (spend_row (outputs d) (mk_spent_by txid vout height, outpoint)) d.

(** The address and the value of a row with an address. *)
Definition row_info (r : OutputRow) : option (string * Z) :=
  match r_address r with Some a => Some (a, wrap_u64 (r_value r)) | None => None end.

Definition get_output_info (outpoint : OutPoint) (d : IndexerDatabase) : option (string * Z) :=
  outputs d !! outpoint ≫= row_info.

(** The deltas of one key are added up; a sum beyond 64 bits would no longer be an
    integer for SQLite. *)
Definition insert_address_history (address : string) (txid : bytes) (block_height delta : Z) (d : IndexerDatabase)
    : res IndexerError IndexerDatabase :=
  let key := (address, block_height, txid) in
  match address_history d !! key with
  | None => Ok (set_history (<[key := delta]> (address_history d)) d)
  | Some old =>
      match checked_i64 (old + delta) with
      | Some sum => Ok (set_history (<[key := sum]> (address_history d)) d)
      | None => Err DatabaseError
      end
  end.

(** ** Reorganisations *)

Definition unspend_above (height : Z) (r : OutputRow) : OutputRow :=
  match r_spent r with
  | Some s => if height <? spent_block_height s
              then mk_row (r_address r) (r_value r) (r_script r) (r_height r) None else r
  | None => r
  end.

Definition revert_to_height (height : Z) (d : IndexerDatabase) : IndexerDatabase :=
  mk_db
    (filter (fun kv => kv.1 <= height) (blocks d))
    (filter (fun kv => kv.2.1 <= height) (transactions d))
    (filter (fun kv => r_height kv.2 <= height) (unspend_above height <$> outputs d))
    (filter (fun kv => key_height kv.1 <= height) (address_history d))
    (state_value d).

Definition parse_txid (bs : bytes) : res IndexerError bytes :=
  if (length bs =? 32)%nat then Ok bs else Err InvalidTxid.

(** ** Indexing a batch of blocks *)

(** The rows collected in memory. *)
Record Buffers := mk_buffers {
  blocks_data : list (Z * bytes * Z);
  transactions_data : list (bytes * Z * Z);
  outputs_data : list (OutPoint * OutputRow);
  spent_updates : list (SpentBy * OutPoint);
  address_history_map : gmap HistoryKey Z;
  batch_outputs : gmap OutPoint (option string * Z);
}.

Definition no_buffers : Buffers := mk_buffers [] [] [] [] ∅ ∅.

(** [*map.entry(key).or_insert(0) += delta]. *)
Definition add_delta {E : Type} (key : HistoryKey) (delta : Z) (m : gmap HistoryKey Z) : res E (gmap HistoryKey Z) :=
  sum ← expect (checked_i64 (default 0 (m !! key) + delta));
  Ok (<[key := sum]> m).

Section batch.
Context `{!AddressApi, !HashApi, !TxApi, !ChainApi, !HashOrder}.
Context (network : Network).

(** Phase 1: the outputs that the inputs refer to. *)
Definition outpoints_to_fetch (bs : list (Z * Block)) : gset OutPoint :=
  list_to_set (filter (fun o => is_null o = false)
    (flat_map (fun hb => flat_map (fun tx => map previous_output (tx_input tx)) (txdata hb.2)) bs)).

(** Phase 2: those of them that are stored with an address. *)
Definition fetch_output (d : IndexerDatabase) (o : OutPoint) (cache : gmap OutPoint (string * Z))
    : res IndexerError (gmap OutPoint (string * Z)) :=
  match get_output_info o d with
  | Some info => txid ← parse_txid (op_txid o); Ok (<[mk_outpoint txid (wrap_u32 (op_vout o)) := info]> cache)
  | None => Ok cache
  end.

Definition fetch_outputs (d : IndexerDatabase) (os : list OutPoint) : res IndexerError (gmap OutPoint (string * Z)) :=
  rfold (fetch_output d) os ∅.

(** Phase 3: collecting. *)
Definition process_input (output_cache : gmap OutPoint (string * Z)) (height : Z) (txid : bytes) (vin : nat)
    (input : TxIn) (b : Buffers) : res IndexerError Buffers :=
  let o := previous_output input in
  if is_null o then Ok b
  else
    let output_info :=
      match output_cache !! o with
      | Some info => Some info
      | None => match batch_outputs b !! o with
                | Some (Some a, v) => Some (a, v)
                | _ => None
                end
      end in
    match output_info with
    | Some (address, value) =>
        history ← add_delta (address, height, txid) (- wrap_i64 value) (address_history_map b);
        Ok (mk_buffers (blocks_data b) (transactions_data b) (outputs_data b)
              (spent_updates b ++ [(mk_spent_by txid (Z.of_nat vin) height, o)]) history (batch_outputs b))
    | None => Ok b
    end.

Fixpoint process_inputs (output_cache : gmap OutPoint (string * Z)) (height : Z) (txid : bytes) (vin : nat)
    (inputs : list TxIn) (b : Buffers) : res IndexerError Buffers :=
  match inputs with
  | [] => Ok b
  | input :: inputs =>
      b ← process_input output_cache height txid vin input b;
      process_inputs output_cache height txid (S vin) inputs b
  end.

(** The row of a new output. *)
Definition output_row (height : Z) (out : TxOut) : OutputRow :=
  mk_row (script_to_address (script_pubkey out) network) (wrap_i64 (value out)) (script_pubkey out) height None.

(** [IndexerDatabase::insert_output]. *)
Definition insert_output (txid : bytes) (vout height : Z) (out : TxOut) (d : IndexerDatabase) : IndexerDatabase :=
  set_outputs (insert_output_row (outputs d) (mk_outpoint txid vout, output_row height out)) d.

Definition process_output (height : Z) (txid : bytes) (vout : nat) (out : TxOut) (b : Buffers)
    : res IndexerError Buffers :=
  let row := output_row height out in
  let address := r_address row in
  history ← match address with
            | Some addr => add_delta (addr, height, txid) (wrap_i64 (value out)) (address_history_map b)
            | None => Ok (address_history_map b)
            end;
  Ok (mk_buffers (blocks_data b) (transactions_data b)
        (outputs_data b ++ [(mk_outpoint txid (Z.of_nat vout), row)]) (spent_updates b) history
        (<[mk_outpoint txid (wrap_u32 (Z.of_nat vout)) := (address, value out)]> (batch_outputs b))).

Fixpoint process_outputs (height : Z) (txid : bytes) (vout : nat) (outs : list TxOut) (b : Buffers)
    : res IndexerError Buffers :=
  match outs with
  | [] => Ok b
  | out :: outs =>
      b ← process_output height txid vout out b;
      process_outputs height txid (S vout) outs b
  end.

Fixpoint process_transactions (output_cache : gmap OutPoint (string * Z)) (height : Z) (tx_index : nat)
    (txs : list Transaction) (b : Buffers) : res IndexerError Buffers :=
  match txs with
  | [] => Ok b
  | tx :: txs =>
      let txid := compute_txid tx in
      let b := mk_buffers (blocks_data b) (transactions_data b ++ [(txid, height, Z.of_nat tx_index)]) (outputs_data b)
                 (spent_updates b) (address_history_map b) (batch_outputs b) in
      b ← process_inputs output_cache height txid 0 (tx_input tx) b;
      b ← process_outputs height txid 0 (tx_output tx) b;
      process_transactions output_cache height (S tx_index) txs b
  end.

Fixpoint process_blocks (output_cache : gmap OutPoint (string * Z)) (bs : list (Z * Block)) (b : Buffers)
    : res IndexerError Buffers :=
  match bs with
  | [] => Ok b
  | (height, block) :: bs =>
      let row := (height, block_hash (block_header block), header_time (block_header block)) in
      let b := mk_buffers (blocks_data b ++ [row]) (transactions_data b) (outputs_data b) (spent_updates b)
                 (address_history_map b) (batch_outputs b) in
      b ← process_transactions output_cache height 0 (txdata block) b;
      process_blocks output_cache bs b
  end.

(** Phase 4: the rows are written table by table. *)
Definition write_buffers (b : Buffers) (d : IndexerDatabase) : IndexerDatabase :=
  mk_db (fold_left insert_block_row (blocks_data b) (blocks d))
    (fold_left insert_transaction_row (transactions_data b) (transactions d))
    (fold_left spend_row (spent_updates b) (fold_left insert_output_row (outputs_data b) (outputs d)))
    (address_history_map b ∪ address_history d) (state_value d).

Definition index_blocks_batch (bs : list (Z * Block)) (d : IndexerDatabase) : res IndexerError IndexerDatabase :=
  match bs with
  | [] => Ok d
  | _ =>
      output_cache ← fetch_outputs d (hash_iter (outpoints_to_fetch bs));
      b ← process_blocks output_cache bs no_buffers;
      Ok (write_buffers b d)
  end.

(** [IndexerDatabase::index_block]. *)
Definition db_index_block (height : Z) (block : Block) (d : IndexerDatabase) : res IndexerError IndexerDatabase :=
  index_blocks_batch [(height, block)] d.
End batch.
