(* ===== verification/IndexerQuery.v ===== *)
(** * Queries of the address index ([crates/subcoin-indexer/src/queries.rs])

    The queries as functions of the tables.  The order of rows that a query does not
    order is a parameter. *)

From Stdlib Require Import ZArith Lia String Floats.SpecFloat.
From stdpp Require Import prelude gmap strings sorting.
From S2P Require Import Prelude Collections ScriptTypes Bitcoin Client IndexerDb.

(** [ORDER BY column DESC]: rows with equal values come in any order. *)
Class RowOrder := { order_desc : forall {A}, (A -> Z) -> list A -> list A }.
Class RowOrderLaws `{!RowOrder} : Prop := {
  order_desc_perm {A} (f : A -> Z) l : order_desc f l ≡ₚ l;
  order_desc_sorted {A} (f : A -> Z) l : StronglySorted (fun x y => f y <= f x) (order_desc f l);
}.

Record TxPosition := mk_position { tx_block_number : Z; tx_pos_index : Z }.

Record AddressHistory := mk_history {
  ah_txid : bytes;
  ah_block_height : Z;
  ah_delta : Z;
  ah_timestamp : Z;
}.

(** [types::Utxo]. *)
Record AddressUtxo := mk_address_utxo {
  au_txid : bytes;
  au_vout : Z;
  au_value : Z;
  au_block_height : Z;
  au_script_pubkey : bytes;
}.

Record AddressBalance := mk_balance {
  confirmed : Z;
  ab_tx_count : Z;
  utxo_count : Z;
  total_received : Z;
  total_sent : Z;
}.

Record AddressStats := mk_stats {
  first_seen : option (Z * Z);
  last_seen : option (Z * Z);
  largest_receive : Z;
  largest_send : Z;
  receive_count : Z;
  send_count : Z;
}.

Record OutputStatus := mk_status {
  os_spent : bool;
  spent_by_txid : option bytes;
  spent_by_vin : option Z;
  spent_at_height : option Z;
}.

Record IndexerStatus := mk_indexer_status {
  is_syncing : bool;
  indexed_height : Z;
  status_target_height : option Z;
  progress_percent : spec_float;
}.

(** [COALESCE(SUM(column), 0)]: a sum beyond 64 bits is an error. *)
Definition sum_query (l : list Z) : res IndexerError Z := if in_i64 (zsum l) then Ok (zsum l) else Err DatabaseError.
(** [COALESCE(MAX(column), 0)]. *)
Definition max_query (l : list Z) : Z := match l with [] => 0 | x :: l => foldr Z.max x l end.
Definition count_query {A} (l : list A) : Z := wrap_u64 (Z.of_nat (length l)).

(** The rows of an address. *)
Definition outputs_of (address : string) (d : IndexerDatabase) : list (OutPoint * OutputRow) :=
  filter (fun kr => r_address kr.2 = Some address) (map_to_list (outputs d)).
Definition history_of (address : string) (d : IndexerDatabase) : list (HistoryKey * Z) :=
  filter (fun kv => key_address kv.1 = address) (map_to_list (address_history d)).

Definition get_tx_position (txid : bytes) (d : IndexerDatabase) : option TxPosition :=
  (fun '(n, i) => mk_position n i) <$> get_transaction txid d.

Definition get_address_balance (address : string) (d : IndexerDatabase) : res IndexerError AddressBalance :=
  let rows := outputs_of address d in
  let unspent := filter (fun kr => r_spent kr.2 = None) rows in
  let spent := filter (fun kr => r_spent kr.2 <> None) rows in
  confirmed ← sum_query (map (fun kr => r_value kr.2) unspent);
  received ← sum_query (map (fun kr => r_value kr.2) rows);
  sent ← sum_query (map (fun kr => r_value kr.2) spent);
  let txids := remove_dups (map (fun kv => key_txid kv.1) (history_of address d)) in
  Ok (mk_balance (wrap_u64 confirmed) (count_query txids) (count_query unspent) (wrap_u64 received) (wrap_u64 sent)).

Definition get_address_tx_count (address : string) (d : IndexerDatabase) : Z :=
  count_query (remove_dups (map (fun kv => key_txid kv.1) (history_of address d))).

Section ordered.
Context `{!RowOrder}.

Fixpoint history_rows (rows : list (HistoryKey * Z)) (d : IndexerDatabase) : res IndexerError (list AddressHistory) :=
  match rows with
  | [] => Ok []
  | (k, delta) :: rows =>
      txid ← parse_txid (key_txid k);
      let timestamp := match blocks d !! key_height k with Some b => wrap_u32 (b_timestamp b) | None => 0 end in
      rest ← history_rows rows d;
      Ok (mk_history txid (wrap_u32 (key_height k)) delta timestamp :: rest)
  end.

Definition get_address_history (address : string) (limit offset : Z) (d : IndexerDatabase)
    : res IndexerError (list AddressHistory) :=
  let rows := order_desc (fun kv => key_height kv.1) (history_of address d) in
  history_rows (take (Z.to_nat limit) (drop (Z.to_nat offset) rows)) d.

Fixpoint utxo_rows (rows : list (OutPoint * OutputRow)) : res IndexerError (list AddressUtxo) :=
  match rows with
  | [] => Ok []
  | (o, r) :: rows =>
      txid ← parse_txid (op_txid o);
      rest ← utxo_rows rows;
      Ok (mk_address_utxo txid (wrap_u32 (op_vout o)) (wrap_u64 (r_value r)) (wrap_u32 (r_height r)) (r_script r) :: rest)
  end.

Definition get_address_utxos (address : string) (d : IndexerDatabase) : res IndexerError (list AddressUtxo) :=
  utxo_rows (order_desc (fun kr => r_height kr.2) (filter (fun kr => r_spent kr.2 = None) (outputs_of address d))).

(** The history of an address with the times of the blocks. *)
Definition seen_rows (address : string) (d : IndexerDatabase) : list (Z * Z) :=
  omap (fun kv => b ← blocks d !! key_height kv.1; Some (key_height kv.1, b_timestamp b)) (history_of address d).

Definition get_address_stats (address : string) (d : IndexerDatabase) : AddressStats :=
  let as_u32 := fun p : Z * Z => (wrap_u32 p.1, wrap_u32 p.2) in
  let deltas := map snd (history_of address d) in
  let received := filter (fun x => 0 < x) deltas in
  let sent := filter (fun x => x < 0) deltas in
  mk_stats
    (as_u32 <$> head (order_desc (fun p => - p.1) (seen_rows address d)))
    (as_u32 <$> head (order_desc (fun p => p.1) (seen_rows address d)))
    (wrap_u64 (max_query received)) (wrap_u64 (max_query (map Z.abs sent)))
    (count_query received) (count_query sent).
End ordered.

Definition get_output_status (txid : bytes) (vout : Z) (d : IndexerDatabase) : res IndexerError (option OutputStatus) :=
  match outputs d !! mk_outpoint txid vout with
  | None => Ok None
  | Some r =>
      match r_spent r with
      | None => Ok (Some (mk_status false None None None))
      | Some s =>
          by_txid ← parse_txid (spent_txid s);
          Ok (Some (mk_status true (Some by_txid) (Some (wrap_u32 (spent_vout s))) (Some (wrap_u32 (spent_block_height s)))))
      end
  end.

Definition get_status (state : option IndexerState) (chain_tip : Z) : IndexerStatus :=
  let percent := fun x y => f64_mul (f64_div (f64_of x) (f64_of y)) (f64_of 100) in
  match state with
  | Some (HistoricalIndexing target current) =>
      mk_indexer_status true current (Some target) (if 0 <? target then percent current target else f64_of 0)
  | Some (Active last_indexed) =>
      let progress := if 0 <? chain_tip then percent last_indexed chain_tip else f64_of 100 in
      mk_indexer_status (last_indexed <? chain_tip) last_indexed
        (if last_indexed <? chain_tip then Some chain_tip else None) (f64_min progress (f64_of 100))
  | None => mk_indexer_status (0 <? chain_tip) 0 (if 0 <? chain_tip then Some chain_tip else None) (f64_of 0)
  end.
