(* ===== verification/IndexerFacts.v ===== *)
(** * Theorems on the address index

    The bulk indexing of a batch against one statement at a time, reverting as the
    inverse of indexing, and the balances. *)

From Stdlib Require Import ZArith Lia String.
From stdpp Require Import prelude gmap strings.
From S2P Require Import Prelude Collections ScriptTypes Bitcoin Client HeaderVerify IndexerDb.

(** ** One statement at a time *)

Section reference.
Context `{!AddressApi, !HashApi, !TxApi, !ChainApi}.
Context (network : Network).

Definition ref_input (height : Z) (txid : bytes) (vin : nat) (input : TxIn) (d : IndexerDatabase)
    : res IndexerError IndexerDatabase :=
  let o := previous_output input in
  if is_null o then Ok d
  else
    match get_output_info o d with
    | Some (address, value) =>
        insert_address_history address txid height (- wrap_i64 value) (mark_output_spent o txid (Z.of_nat vin) height d)
    | None => Ok d
    end.

Fixpoint ref_inputs (height : Z) (txid : bytes) (vin : nat) (inputs : list TxIn) (d : IndexerDatabase)
    : res IndexerError IndexerDatabase :=
  match inputs with
  | [] => Ok d
  | input :: inputs => d ← ref_input height txid vin input d; ref_inputs height txid (S vin) inputs d
  end.

Definition ref_output (height : Z) (txid : bytes) (vout : nat) (out : TxOut) (d : IndexerDatabase)
    : res IndexerError IndexerDatabase :=
  let d := insert_output network txid (Z.of_nat vout) height out d in
  match script_to_address (script_pubkey out) network with
  | Some address => insert_address_history address txid height (wrap_i64 (value out)) d
  | None => Ok d
  end.

Fixpoint ref_outputs (height : Z) (txid : bytes) (vout : nat) (outs : list TxOut) (d : IndexerDatabase)
    : res IndexerError IndexerDatabase :=
  match outs with
  | [] => Ok d
  | out :: outs => d ← ref_output height txid vout out d; ref_outputs height txid (S vout) outs d
  end.

Definition ref_transaction (height : Z) (tx_index : nat) (tx : Transaction) (d : IndexerDatabase)
    : res IndexerError IndexerDatabase :=
  let txid := compute_txid tx in
  d ← ref_inputs height txid 0 (tx_input tx) (insert_transaction txid height (Z.of_nat tx_index) d);
  ref_outputs height txid 0 (tx_output tx) d.

Fixpoint ref_transactions (height : Z) (tx_index : nat) (txs : list Transaction) (d : IndexerDatabase)
    : res IndexerError IndexerDatabase :=
  match txs with
  | [] => Ok d
  | tx :: txs => d ← ref_transaction height tx_index tx d; ref_transactions height (S tx_index) txs d
  end.

Definition ref_block (hb : Z * Block) (d : IndexerDatabase) : res IndexerError IndexerDatabase :=
  ref_transactions hb.1 0 (txdata hb.2)
    (insert_block hb.1 (block_hash (block_header hb.2)) (header_time (block_header hb.2)) d).

Definition ref_blocks (bs : list (Z * Block)) (d : IndexerDatabase) : res IndexerError IndexerDatabase :=
  rfold ref_block bs d.
End reference.

(** The transactions of a batch and their ids. *)
Definition batch_txs (bs : list (Z * Block)) : list Transaction := flat_map (fun hb => txdata hb.2) bs.
Definition batch_txids `{!TxApi} (bs : list (Z * Block)) : list bytes := map compute_txid (batch_txs bs).

(** An amount that fits the signed columns of the database. *)
Definition amount_ok (v : Z) : Prop := 0 <= v <= i64_max.

Definition tx_typed (tx : Transaction) : Prop :=
  Forall (fun out => amount_ok (value out)) (tx_output tx) /\ Z.of_nat (length (tx_output tx)) <= u32_max.

(** The keys of the stored outputs are outpoints, their values amounts. *)
Definition rows_ok (d : IndexerDatabase) : Prop :=
  forall o r, outputs d !! o = Some r -> length (op_txid o) = 32%nat /\ is_u32 (op_vout o) /\ amount_ok (r_value r).

(** The index knows nothing of a transaction. *)
Definition unknown_tx (d : IndexerDatabase) (txid : bytes) : Prop :=
  transactions d !! txid = None /\ (forall o, op_txid o = txid -> outputs d !! o = None) /\
  (forall k, key_txid k = txid -> address_history d !! k = None).

(** ** Rows *)

Lemma amount_i64 v : amount_ok v -> wrap_i64 v = v.
Proof. intros Hv. apply wrap_i64_id. unfold amount_ok, is_i64, i64_min in *. lia. Qed.

Lemma amount_u64 v : amount_ok v -> wrap_u64 v = v.
Proof. unfold amount_ok, i64_max, wrap_u64. intros Hv. apply Z.mod_small. lia. Qed.

Lemma insert_rows_union l m : fold_left insert_output_row l m = fold_left insert_output_row l ∅ ∪ m.
Proof.
  induction l as [| [o r] l IH] using rev_ind; [cbn [fold_left]; by rewrite map_empty_union |].
  rewrite !fold_left_app. cbn [fold_left]. rewrite IH. unfold insert_output_row. cbn. by rewrite insert_union_l.
Qed.

Lemma spend_rows_info us m o : (fold_left spend_row us m !! o) ≫= row_info = m !! o ≫= row_info.
Proof.
  revert m. induction us as [| u us IH]; intros m; cbn [fold_left]; [done |]. rewrite IH. unfold spend_row.
  destruct (decide (u.2 = o)) as [<- |]; [| by rewrite lookup_alter_ne].
  rewrite lookup_alter_eq. by destruct (m !! u.2).
Qed.

Lemma spend_rows_insert us m o r :
  Forall (fun u => u.2 <> o) us -> fold_left spend_row us (<[o := r]> m) = <[o := r]> (fold_left spend_row us m).
Proof.
  intros Hus. revert m. induction Hus as [| u us Hu _ IH]; intros m; cbn [fold_left]; [done |].
  unfold spend_row at 2 4. rewrite <- IH. by rewrite alter_insert_ne.
Qed.

Lemma res_bind_assoc {E A B C} (m : res E A) (f : A -> res E B) (g : B -> res E C) :
  (m ≫= f) ≫= g = m ≫= (fun x => f x ≫= g).
Proof. by destruct m. Qed.

(** ** Bulk indexing *)

Section equivalence.
Context `{!AddressApi, !HashApi, !TxApi, !ChainApi, !HashOrder, !HashOrderLaws}.
Context (network : Network) (d0 : IndexerDatabase) (fetched : gset OutPoint) (cache : gmap OutPoint (string * Z)).
Implicit Types (b : Buffers) (T : gset bytes).

(** The new rows of the buffers. *)
Definition new_rows b : gmap OutPoint OutputRow := fold_left insert_output_row (outputs_data b) ∅.

(** The buffers hold the transactions [T], and nothing of them is stored. *)
Record buffered T b : Prop := {
  bf_rows o : match batch_outputs b !! o, new_rows b !! o with
              | Some (a, v), Some r => r_address r = a /\ r_value r = v /\ amount_ok v
              | None, None => True
              | _, _ => False
              end;
  bf_new o r : new_rows b !! o = Some r -> op_txid o ∈ T;
  bf_spent u : u ∈ spent_updates b -> op_txid u.2 ∈ T \/ is_Some (outputs d0 !! u.2);
}.

Hypothesis rows_ok0 : rows_ok d0.
Hypothesis cache_spec : forall o, o ∈ fetched -> cache !! o = get_output_info o d0.

Definition stored_unknown T : Prop :=
  (forall o, op_txid o ∈ T -> outputs d0 !! o = None) /\ (forall k, key_txid k ∈ T -> address_history d0 !! k = None).

(** The two runs agree: both fail, or the buffers written are the database. *)
Definition agree T (m : res IndexerError Buffers) (n : res IndexerError IndexerDatabase) : Prop :=
  match m, n with
  | Ok b, Ok d => d = write_buffers b d0 /\ buffered T b
  | Ok _, _ | _, Ok _ => False
  | _, _ => True
  end.

Lemma agree_bind T T' m n (f : Buffers -> res IndexerError Buffers) (g : IndexerDatabase -> res IndexerError IndexerDatabase) :
  agree T m n -> (forall b, m = Ok b -> buffered T b -> agree T' (f b) (g (write_buffers b d0))) ->
  agree T' (m ≫= f) (n ≫= g).
Proof. destruct m, n; cbn; try done. intros [-> Hb] Hf. auto. Qed.

Lemma buffered_info T b o :
  buffered T b -> stored_unknown T -> o ∈ fetched ->
  match cache !! o with
  | Some info => Some info
  | None => match batch_outputs b !! o with Some (Some a, v) => Some (a, v) | _ => None end
  end = get_output_info o (write_buffers b d0).
Proof.
  intros [Hrows Hnew _] [Hout _] Ho. rewrite cache_spec by done. unfold get_output_info. cbn [write_buffers outputs].
  rewrite spend_rows_info, insert_rows_union. fold (new_rows b). specialize (Hrows o).
  destruct (new_rows b !! o) as [r |] eqn:Hr.
  - erewrite lookup_union_Some_l by done. rewrite (Hout o) by eauto. cbn.
    destruct (batch_outputs b !! o) as [[a v] |]; [| done]. destruct Hrows as (<- & Hv & Hu).
    unfold row_info. rewrite Hv, amount_u64 by done. by destruct (r_address r).
  - rewrite lookup_union_r by done. destruct (batch_outputs b !! o) as [[a v] |]; [done |].
    by destruct (outputs d0 !! o ≫= row_info).
Qed.

(** Adding to the map of deltas, then writing, against the statement. *)
Lemma agree_history T b b' (key : HistoryKey) delta :
  buffered T b' -> address_history d0 !! key = None -> is_i64 delta -> address_history_map b' = address_history_map b ->
  agree T
    (history ← add_delta key delta (address_history_map b);
     Ok (mk_buffers (blocks_data b') (transactions_data b') (outputs_data b') (spent_updates b') history (batch_outputs b')))
    (insert_address_history key.1.1 key.2 key.1.2 delta (write_buffers b' d0)).
Proof.
  intros [Hrows Hnew Hsp] Hkey Hd Heq. destruct key as [[a h] t]. unfold add_delta, insert_address_history. cbn in *.
  assert ((address_history_map b' ∪ address_history d0) !! (a, h, t) = address_history_map b !! (a, h, t)) as ->.
  { rewrite Heq. rewrite lookup_union, Hkey. by destruct (address_history_map b !! _). }
  assert (checked_i64 delta = Some delta) as Hdelta by (unfold checked_i64; by rewrite (proj2 (in_i64_spec delta) Hd)).
  destruct (address_history_map b !! (a, h, t)) as [old |]; cbn [default id from_option].
  - destruct (checked_i64 (old + delta)) as [sum |]; cbn; [| done]. split; [| by split].
    unfold write_buffers, set_history. cbn. by rewrite Heq, insert_union_l.
  - rewrite Z.add_0_l, Hdelta. cbn. split; [| by split].
    unfold write_buffers, set_history. cbn. by rewrite Heq, insert_union_l.
Qed.


(** What an input spends has an amount. *)
Lemma written_amount T b o a v : buffered T b -> get_output_info o (write_buffers b d0) = Some (a, v) -> amount_ok v.
Proof.
  intros [Hrows _ _]. unfold get_output_info. cbn [write_buffers outputs].
  rewrite spend_rows_info, insert_rows_union. fold (new_rows b). specialize (Hrows o).
  assert (forall r, amount_ok (r_value r) -> row_info r = Some (a, v) -> amount_ok v) as Hinfo.
  { intros r Hr. unfold row_info. destruct (r_address r); [| done]. rewrite amount_u64 by done. by intros [= _ <-]. }
  destruct (new_rows b !! o) as [r |] eqn:Hr.
  - erewrite lookup_union_Some_l by done. destruct (batch_outputs b !! o) as [[a' v'] |]; [| done].
    destruct Hrows as (_ & <- & Hv). by apply Hinfo.
  - rewrite lookup_union_r by done. destruct (outputs d0 !! o) as [r |] eqn:Ho; [| done].
    apply Hinfo. by eapply rows_ok0.
Qed.

Lemma agree_input T b height txid vin input :
  buffered T b -> stored_unknown T -> (forall k, key_txid k = txid -> address_history d0 !! k = None) ->
  (is_null (previous_output input) = false -> previous_output input ∈ fetched) ->
  agree T (process_input cache height txid vin input b) (ref_input height txid vin input (write_buffers b d0)).
Proof.
  intros Hb Hs Hk Hf. unfold process_input, ref_input. destruct (is_null (previous_output input)); [by split |].
  cbv zeta. rewrite (buffered_info T) by auto.
  destruct (get_output_info (previous_output input) (write_buffers b d0)) as [[a v] |] eqn:Hinfo; [| by split].
  pose proof (written_amount _ _ _ _ _ Hb Hinfo) as Hv.
  set (u := (mk_spent_by txid (Z.of_nat vin) height, previous_output input)).
  set (b' := mk_buffers (blocks_data b) (transactions_data b) (outputs_data b) (spent_updates b ++ [u])
    (address_history_map b) (batch_outputs b)).
  assert (buffered T b') as Hb'.
  { pose proof Hb as [Hrows Hnew Hsp]. split; [done | done |]. cbn. intros w [Hw | ->%list_elem_of_singleton]%elem_of_app; [auto |].
    unfold get_output_info in Hinfo. cbn [write_buffers outputs] in Hinfo.
    rewrite spend_rows_info, insert_rows_union in Hinfo. fold (new_rows b) in Hinfo. cbn.
    destruct (new_rows b !! previous_output input) as [r |] eqn:Hr; [left; eauto |].
    rewrite lookup_union_r in Hinfo by done. destruct (outputs d0 !! _); [by right | done]. }
  assert (mark_output_spent (previous_output input) txid (Z.of_nat vin) height (write_buffers b d0) = write_buffers b' d0) as ->.
  { unfold mark_output_spent, write_buffers, set_outputs. cbn. by rewrite fold_left_app. }
  apply (agree_history T b b' (a, height, txid)); [done | by apply Hk | | done].
  rewrite amount_i64 by done. unfold amount_ok, is_i64, i64_min, i64_max in *. lia.
Qed.

Lemma agree_inputs T b height txid vin inputs :
  buffered T b -> stored_unknown T -> (forall k, key_txid k = txid -> address_history d0 !! k = None) ->
  (forall i, i ∈ inputs -> is_null (previous_output i) = false -> previous_output i ∈ fetched) ->
  agree T (process_inputs cache height txid vin inputs b) (ref_inputs height txid vin inputs (write_buffers b d0)).
Proof.
  intros Hb Hs Hk. revert vin b Hb. induction inputs as [| i inputs IH]; intros vin b Hb Hf; cbn [process_inputs ref_inputs]; [by split |].
  apply (agree_bind T); [apply agree_input; [done | done | done | apply Hf; set_solver] |].
  intros b' _ Hb'. apply IH; [done |]. set_solver.
Qed.

(** Outputs of a transaction that no buffered update refers to. *)
Lemma agree_output T b height txid vout out :
  buffered T b -> txid ∈ T -> stored_unknown T -> Forall (fun u => op_txid u.2 <> txid) (spent_updates b) ->
  amount_ok (value out) -> Z.of_nat vout <= u32_max ->
  agree T (process_output network height txid vout out b) (ref_output network height txid vout out (write_buffers b d0)).
Proof.
  intros Hb HT Hs Hsp Hv Hu. unfold process_output, ref_output.
  change (r_address (output_row network height out)) with (script_to_address (script_pubkey out) network).
  assert (wrap_u32 (Z.of_nat vout) = Z.of_nat vout) as ->
    by (unfold wrap_u32, u32_max in *; apply Z.mod_small; lia).
  set (o := mk_outpoint txid (Z.of_nat vout)). set (row := output_row network height out).
  set (address := script_to_address (script_pubkey out) network).
  set (b' := mk_buffers (blocks_data b) (transactions_data b) (outputs_data b ++ [(o, row)]) (spent_updates b)
    (address_history_map b) (<[o := (address, value out)]> (batch_outputs b))).
  assert (new_rows b' = <[o := row]> (new_rows b)) as Hnr.
  { unfold new_rows. cbn. by rewrite fold_left_app. }
  assert (buffered T b') as Hb'.
  { destruct Hb as [Hrows Hnew Hspent]. split; [| | done].
    - intros o'. rewrite Hnr. cbn. destruct (decide (o = o')) as [<- | Hne].
      + rewrite !lookup_insert_eq. split_and!; [done | | done]. cbn. by apply amount_i64.
      + rewrite !lookup_insert_ne by done. apply Hrows.
    - intros o' r. rewrite Hnr. intros [[<- _] | [_ Hr]]%lookup_insert_Some; [done | by eapply Hnew]. }
  assert (insert_output network txid (Z.of_nat vout) height out (write_buffers b d0) = write_buffers b' d0) as Hins.
  { unfold insert_output, set_outputs, write_buffers. cbn [blocks transactions outputs address_history state_value].
    f_equal. cbn [b' outputs_data spent_updates]. rewrite fold_left_app. symmetry.
    apply (spend_rows_insert (spent_updates b) _ o row).
    eapply Forall_impl; [exact Hsp |]. intros u Hu2 Heq. apply Hu2. by rewrite Heq. }
  cbv zeta. rewrite Hins. destruct address as [a |] eqn:Ha; [| by split].
  apply (agree_history T b b' (a, height, txid)); [done | | | done].
  - apply Hs. done.
  - rewrite amount_i64 by done. unfold amount_ok, is_i64, i64_min, i64_max in *. lia.
Qed.

Lemma process_output_spent height txid vout out b b' :
  process_output network height txid vout out b = Ok b' -> spent_updates b' = spent_updates b.
Proof. unfold process_output. intros (h & _ & [= <-])%bind_Ok. done. Qed.

Lemma agree_outputs T b height txid vout outs :
  buffered T b -> txid ∈ T -> stored_unknown T -> Forall (fun u => op_txid u.2 <> txid) (spent_updates b) ->
  Forall (fun out => amount_ok (value out)) outs -> Z.of_nat (vout + length outs) <= u32_max ->
  agree T (process_outputs network height txid vout outs b) (ref_outputs network height txid vout outs (write_buffers b d0)).
Proof.
  intros Hb HT Hs Hsp Houts. revert vout b Hb Hsp. induction Houts as [| out outs Hout _ IH]; intros vout b Hb Hsp Hlen;
    cbn [process_outputs ref_outputs]; [by split |]. cbn [length] in Hlen.
  apply (agree_bind T); [apply agree_output; try done; lia |].
  intros b' Hrun Hb'. apply IH; [done | by rewrite (process_output_spent _ _ _ _ _ _ Hrun) | lia].
Qed.

Lemma buffered_mono T T' b : T ⊆ T' -> buffered T b -> buffered T' b.
Proof. intros HT [Hrows Hnew Hsp]. split; [done | set_solver |]. intros u [Hu | Hu]%Hsp; [left; set_solver | by right]. Qed.

Lemma agree_transactions T b height tx_index txs :
  buffered T b -> NoDup (map compute_txid txs) -> T ## list_to_set (map compute_txid txs) ->
  stored_unknown (T ∪ list_to_set (map compute_txid txs)) -> Forall tx_typed txs ->
  (forall tx i, tx ∈ txs -> i ∈ tx_input tx -> is_null (previous_output i) = false -> previous_output i ∈ fetched) ->
  agree (T ∪ list_to_set (map compute_txid txs)) (process_transactions network cache height tx_index txs b)
    (ref_transactions network height tx_index txs (write_buffers b d0)).
Proof.
  intros Hb Hnd Hdisj Hs Hty. revert T tx_index b Hb Hnd Hdisj Hs.
  induction Hty as [| tx txs [Hamounts Hlen] Hty IH]; intros T tx_index b Hb Hnd Hdisj Hs Hf;
    cbn [process_transactions ref_transactions map list_to_set].
  { split; [done |]. by apply (buffered_mono T); [set_solver |]. }
  cbn [map list_to_set] in *. apply NoDup_cons in Hnd as [Hnin Hnd]. set (t := compute_txid tx) in *.
  assert (stored_unknown T) as HsT by (split; intros; apply Hs; set_solver).
  assert (forall k, key_txid k = t -> address_history d0 !! k = None) as Hk by (intros k Hkt; apply Hs; set_solver).
  unfold ref_transaction. fold t. rewrite res_bind_assoc.
  set (b1 := mk_buffers _ (transactions_data b ++ _) _ _ _ _).
  assert (insert_transaction t height (Z.of_nat tx_index) (write_buffers b d0) = write_buffers b1 d0) as ->.
  { unfold insert_transaction, set_transactions, write_buffers. cbn. by rewrite fold_left_app. }
  assert (buffered T b1) as Hb1 by (by destruct Hb; split).
  apply (agree_bind T).
  { apply agree_inputs; [done | done | done |]. intros i Hi. apply (Hf tx); [by left | done]. }
  intros b2 _ Hb2. apply (agree_bind ({[ t ]} ∪ T)).
  { apply agree_outputs; [by apply (buffered_mono T); [set_solver |] | set_solver | | | done | done].
    - split; intros; apply Hs; set_solver.
    - apply Forall_forall. intros u Hu Heq. destruct (bf_spent T b2 Hb2 u Hu) as [HuT | [r Hr]]; [set_solver |].
      destruct Hs as [Hs _]. rewrite Hs in Hr by set_solver. done. }
  intros b3 _ Hb3.
  replace (T ∪ ({[t]} ∪ list_to_set (map compute_txid txs))) with (({[t]} ∪ T) ∪ list_to_set (map compute_txid txs)) in * by set_solver.
  apply IH; [done | done | set_solver | done |]. intros tx' i Htx'. apply Hf. by right.
Qed.

Lemma agree_blocks T b bs :
  buffered T b -> NoDup (batch_txids bs) -> T ## list_to_set (batch_txids bs) ->
  stored_unknown (T ∪ list_to_set (batch_txids bs)) -> Forall tx_typed (batch_txs bs) ->
  (forall tx i, tx ∈ batch_txs bs -> i ∈ tx_input tx -> is_null (previous_output i) = false -> previous_output i ∈ fetched) ->
  agree (T ∪ list_to_set (batch_txids bs)) (process_blocks network cache bs b) (ref_blocks network bs (write_buffers b d0)).
Proof.
  revert T b. induction bs as [| [height block] bs IH]; intros T b Hb Hnd Hdisj Hs Hty Hf;
    unfold ref_blocks; cbn [process_blocks rfold].
  { split; [done |]. by apply (buffered_mono T); [set_solver |]. }
  unfold batch_txids in *. cbn [batch_txs flat_map snd] in *. fold (batch_txs bs) in *.
  rewrite map_app in *. rewrite list_to_set_app_L in *.
  apply NoDup_app in Hnd as (Hnd1 & Hdd & Hnd2). apply Forall_app in Hty as [Hty1 Hty2].
  unfold ref_block. cbn [fst snd].
  set (b1 := mk_buffers (blocks_data b ++ _) _ _ _ _ _).
  assert (insert_block height (block_hash (block_header block)) (header_time (block_header block)) (write_buffers b d0)
    = write_buffers b1 d0) as ->.
  { unfold insert_block, set_blocks, write_buffers. cbn. by rewrite fold_left_app. }
  assert (buffered T b1) as Hb1 by (by destruct Hb; split).
  set (T1 := list_to_set (map compute_txid (txdata block)) : gset bytes) in *.
  set (T2 := list_to_set (map compute_txid (batch_txs bs)) : gset bytes) in *.
  assert (T1 ## T2) as Hd12.
  { intros t Ht1 Ht2. unfold T1, T2 in *. rewrite elem_of_list_to_set in Ht1, Ht2. by eapply Hdd. }
  apply (agree_bind (T ∪ T1)).
  { apply agree_transactions; [done | done | set_solver | | done |].
    - split; intros; apply Hs; set_solver.
    - intros tx i Htx. apply Hf. apply elem_of_app. by left. }
  intros b2 _ Hb2. rewrite (union_assoc_L T) in Hs |- *.
  apply IH; [done | done | clear - Hdisj Hd12; set_solver | done | done |].
  intros tx i Htx. apply Hf. apply elem_of_app. by right.
Qed.
End equivalence.

Section bulk.
Context `{!AddressApi, !HashApi, !TxApi, !ChainApi, !HashOrder, !HashOrderLaws}.
Context (network : Network).

Lemma fetch_output_spec d o cache0 :
  rows_ok d ->
  fetch_output d o cache0 = Ok (match get_output_info o d with Some info => <[o := info]> cache0 | None => cache0 end).
Proof.
  intros Hd. unfold fetch_output. destruct (get_output_info o d) as [info |] eqn:Hinfo; [| done].
  unfold get_output_info in Hinfo. destruct (outputs d !! o) as [r |] eqn:Hr; [| done].
  destruct (Hd o r Hr) as (Hlen & Hu & _). unfold parse_txid. rewrite Hlen. cbn [Nat.eqb mbind res_bind].
  do 2 f_equal. destruct o as [t v]. cbn in *. f_equal. unfold wrap_u32, is_u32, u32_max in *. apply Z.mod_small. lia.
Qed.

Lemma fetch_outputs_spec d os cache0 :
  rows_ok d ->
  exists cache, rfold (fetch_output d) os cache0 = Ok cache /\
    forall o, cache !! o = match (if decide (o ∈ os) then get_output_info o d else None) with
                           | Some info => Some info | None => cache0 !! o end.
Proof.
  intros Hd. revert cache0. induction os as [| o os IH]; intros cache0; cbn [rfold].
  { eexists. split; [done |]. intros o. by rewrite decide_False by set_solver. }
  rewrite fetch_output_spec by done. cbn [mbind res_bind]. edestruct IH as (cache & Hrun & Hc).
  exists cache. split; [exact Hrun |]. intros o'. rewrite Hc. destruct (decide (o = o')) as [<- | Hne].
  - rewrite (decide_True (P := o ∈ o :: os)) by set_solver.
    destruct (get_output_info o d); [rewrite lookup_insert_eq |]; by case_decide.
  - rewrite (decide_ext (o' ∈ o :: os) (o' ∈ os)) by set_solver.
    destruct (get_output_info o d); [| done]. by rewrite lookup_insert_ne.
Qed.

Lemma fetched_inputs bs tx i :
  tx ∈ batch_txs bs -> i ∈ tx_input tx -> is_null (previous_output i) = false ->
  previous_output i ∈ outpoints_to_fetch bs.
Proof.
  unfold batch_txs, outpoints_to_fetch. intros Htx Hi Hn.
  rewrite elem_of_list_to_set, list_elem_of_filter. split; [done |].
  apply list_elem_of_In, in_flat_map. apply list_elem_of_In, in_flat_map in Htx as (hb & Hhb & Htx).
  exists hb. split; [done |]. apply in_flat_map. exists tx. split; [done |]. apply in_map. by apply list_elem_of_In.
Qed.

(** The bulk indexing of a batch of blocks, with its prefetched outputs, its rows
    collected in memory and its deltas added up beforehand, does to the database
    exactly what one statement after the other does, block by block and input by
    input, also for outputs that are created and spent in the same batch.  The
    transactions are new to the index, as the ids of a chain are. *)
Lemma index_batch_equiv (bs : list (Z * Block)) (d d' : IndexerDatabase) :
  rows_ok d -> NoDup (batch_txids bs) -> Forall (unknown_tx d) (batch_txids bs) -> Forall tx_typed (batch_txs bs) ->
  index_blocks_batch network bs d = Ok d' <-> ref_blocks network bs d = Ok d'.
Proof.
  intros Hd Hnd Hnew Hty. unfold index_blocks_batch. destruct bs as [| hb bs]; [done |]. set (l := hb :: bs) in *.
  destruct (fetch_outputs_spec d (hash_iter (outpoints_to_fetch l)) ∅ Hd) as (cache & Hrun & Hcache).
  unfold fetch_outputs. rewrite Hrun. cbn [mbind res_bind].
  assert (forall o, o ∈ outpoints_to_fetch l -> cache !! o = get_output_info o d) as Hspec.
  { intros o Ho. rewrite Hcache, decide_True by (by apply hash_iter_elem). by destruct (get_output_info o d). }
  rewrite Forall_forall in Hnew.
  assert (stored_unknown d (∅ ∪ list_to_set (batch_txids l))) as Hs.
  { split; [intros o Ho | intros k Hk]; [apply (Hnew (op_txid o)) | apply (Hnew (key_txid k))]; set_solver. }
  assert (buffered d ∅ no_buffers) as Hb by (split; [done | done | set_solver]).
  pose proof (agree_blocks network d (outpoints_to_fetch l) cache Hd Hspec ∅ no_buffers l Hb Hnd ltac:(set_solver) Hs Hty
    (fetched_inputs l)) as Hagree.
  assert (write_buffers no_buffers d = d) as Hw by (destruct d; unfold write_buffers; cbn; by rewrite map_empty_union).
  rewrite Hw in Hagree.
  destruct (process_blocks network cache l no_buffers) as [b | e |], (ref_blocks network l d) as [d1 | e1 |]; cbn in Hagree |- *; try done.
  destruct Hagree as [-> _]. done.
Qed.
End bulk.

(** ** Reverting *)

Section revert.
Context (h : Z).
Implicit Types (d : IndexerDatabase).

Lemma revert_insert_block height hash ts d :
  h < height -> (forall n r, blocks d !! n = Some r -> b_hash r <> hash) -> blocks d !! height = None ->
  revert_to_height h (insert_block height hash ts d) = revert_to_height h d.
Proof.
  intros Hh Hnew Hn. unfold revert_to_height, insert_block, set_blocks, insert_block_row. cbn. f_equal.
  assert (filter (fun kv : Z * BlockRow => b_hash kv.2 <> hash) (blocks d) = blocks d) as ->.
  { apply map_filter_id. intros n r Hr. by eapply Hnew. }
  rewrite map_filter_insert_False by (cbn; lia). by rewrite delete_id.
Qed.

Lemma revert_insert_transaction txid height i d :
  h < height -> transactions d !! txid = None ->
  revert_to_height h (insert_transaction txid height i d) = revert_to_height h d.
Proof.
  intros Hh Hn. unfold revert_to_height, insert_transaction, set_transactions, insert_transaction_row. cbn. f_equal.
  rewrite map_filter_insert_False by (cbn; lia). by rewrite delete_id.
Qed.

Lemma revert_insert_row o r d :
  h < r_height r -> r_spent r = None -> outputs d !! o = None ->
  revert_to_height h (set_outputs (insert_output_row (outputs d) (o, r)) d) = revert_to_height h d.
Proof.
  intros Hh Hs Hn. unfold revert_to_height, set_outputs, insert_output_row. cbn. f_equal.
  rewrite fmap_insert, map_filter_insert_False by (cbn; unfold unspend_above; rewrite Hs; lia).
  rewrite delete_id by (by rewrite lookup_fmap, Hn). done.
Qed.

Lemma revert_mark_spent o txid vin height d :
  h < height -> (forall r, outputs d !! o = Some r -> r_spent r = None) ->
  revert_to_height h (mark_output_spent o txid vin height d) = revert_to_height h d.
Proof.
  intros Hh Hn. unfold revert_to_height, mark_output_spent, set_outputs, spend_row. cbn. do 2 f_equal.
  apply map_eq. intros o'. rewrite !lookup_fmap. destruct (decide (o = o')) as [<- | Hne]; [| by rewrite lookup_alter_ne].
  rewrite lookup_alter_eq. destruct (outputs d !! o) as [r |] eqn:Hr; [| done]. cbn. f_equal.
  unfold unspend_above. cbn. rewrite (Hn r eq_refl). destruct (Z.ltb_spec h height); [| lia].
  specialize (Hn r eq_refl). destruct r as [a v s hh sp]. cbn in *. by subst.
Qed.

Lemma revert_history (key : HistoryKey) delta d :
  h < key_height key -> revert_to_height h (set_history (<[key := delta]> (address_history d)) d) = revert_to_height h d.
Proof.
  intros Hh. unfold revert_to_height, set_history. cbn. f_equal.
  rewrite map_filter_insert_False by (cbn; lia). apply map_filter_delete_not. cbn. lia.
Qed.

Lemma revert_insert_history a txid height delta d d' :
  h < height -> insert_address_history a txid height delta d = Ok d' -> revert_to_height h d' = revert_to_height h d.
Proof.
  intros Hh. unfold insert_address_history. destruct (address_history d !! _); [destruct (checked_i64 _) |];
    intros [= <-]; by apply revert_history.
Qed.

(** Everything in the index is from blocks up to the height. *)
Record below d : Prop := {
  bl_blocks n r : blocks d !! n = Some r -> n <= h;
  bl_txs t p : transactions d !! t = Some p -> p.1 <= h;
  bl_outputs o r : outputs d !! o = Some r -> r_height r <= h;
  bl_spent o r s : outputs d !! o = Some r -> r_spent r = Some s -> spent_block_height s <= h;
  bl_history k v : address_history d !! k = Some v -> key_height k <= h;
}.

Lemma revert_below d : below d -> revert_to_height h d = d.
Proof.
  intros [H1 H2 H3 H4 H5]. destruct d as [bs ts os hs st]. unfold revert_to_height. cbn in *.
  assert (unspend_above h <$> os = os) as ->.
  { apply map_eq. intros o. rewrite lookup_fmap. destruct (os !! o) as [r |] eqn:Hr; [| done]. cbn. f_equal.
    unfold unspend_above. destruct (r_spent r) as [s |] eqn:Hs; [| done]. specialize (H4 o r s Hr Hs).
    by destruct (Z.ltb_spec h (spent_block_height s)); [lia |]. }
  f_equal; apply map_filter_id; intros; cbn; eauto.
Qed.
End revert.
