(* ===== verification/IndexerChain.v ===== *)
(** * The address index of a chain

    What indexing the blocks of a chain keeps invariant, one statement at a time;
    with it, that reverting undoes indexing and that the balances are right. *)

From Stdlib Require Import ZArith Lia String.
From stdpp Require Import prelude gmap strings sorting.
From S2P Require Import Prelude Collections ScriptTypes Bitcoin Client HeaderVerify IndexerDb IndexerQuery IndexerFacts.

(** ** Chains *)

(** The outputs that transactions spend. *)
Definition spends (txs : list Transaction) : list OutPoint :=
  filter (fun o => is_null o = false) (flat_map (fun tx => map previous_output (tx_input tx)) txs).

(** Blocks by height, in which no transaction id, no block hash and no spent output
    appears twice. *)
Record valid_chain `{!TxApi, !ChainApi} (chain : list (Z * Block)) : Prop := {
  vc_heights : StronglySorted Z.lt (map fst chain);
  vc_hashes : NoDup (map (fun hb => block_hash (block_header hb.2)) chain);
  vc_txids : NoDup (batch_txids chain);
  vc_spends : NoDup (spends (batch_txs chain));
  vc_typed : Forall tx_typed (batch_txs chain);
}.

Lemma spends_app l l' : spends (l ++ l') = spends l ++ spends l'.
Proof. unfold spends. by rewrite flat_map_app, filter_app. Qed.

Lemma batch_txs_app l l' : batch_txs (l ++ l') = batch_txs l ++ batch_txs l'.
Proof. apply flat_map_app. Qed.

(** ** Invariants along the statements *)

Definition is_txid `{!TxApi} (t : bytes) : Prop := exists tx, compute_txid tx = t.

(** An invariant that every statement of a block at a height keeps. *)
Record kept (J : IndexerDatabase -> Prop) (network : Network) `{!AddressApi, !HashApi, !TxApi} (height : Z) : Prop := {
  kept_block hash ts d :
    J d -> (forall n r, blocks d !! n = Some r -> b_hash r <> hash) -> blocks d !! height = None ->
    J (insert_block height hash ts d);
  kept_transaction txid i d : J d -> transactions d !! txid = None -> J (insert_transaction txid height i d);
  kept_input o r a v txid vin d d' :
    J d -> outputs d !! o = Some r -> r_spent r = None -> row_info r = Some (a, v) ->
    insert_address_history a txid height (- wrap_i64 v) (mark_output_spent o txid vin height d) = Ok d' -> J d';
  kept_output txid vout out d d' :
    J d -> is_txid txid -> outputs d !! mk_outpoint txid (Z.of_nat vout) = None -> amount_ok (value out) -> Z.of_nat vout <= u32_max ->
    ref_output network height txid vout out d = Ok d' -> J d';
}.

(** The transactions, spent outputs and blocks that are in the index. *)
Record tracked (X : gset bytes) (Y : gset OutPoint) (hashes : gset bytes) (top : Z) (d : IndexerDatabase) : Prop := {
  tr_txs t : is_Some (transactions d !! t) -> t ∈ X;
  tr_outputs o : is_Some (outputs d !! o) -> op_txid o ∈ X;
  tr_history k : is_Some (address_history d !! k) -> key_txid k ∈ X;
  tr_spent o r : outputs d !! o = Some r -> r_spent r <> None -> o ∈ Y;
  tr_blocks n r : blocks d !! n = Some r -> b_hash r ∈ hashes /\ n <= top;
}.

Lemma tracked_mono X X' Y Y' hashes hashes' top top' d :
  tracked X Y hashes top d -> X ⊆ X' -> Y ⊆ Y' -> hashes ⊆ hashes' -> top <= top' -> tracked X' Y' hashes' top' d.
Proof.
  intros [Ht Ho Hh Hs Hb] HX HY HH Htop. split; [set_solver | set_solver | set_solver | set_solver |].
  intros n r Hr. destruct (Hb n r Hr). split; [set_solver | lia].
Qed.

Ltac track_mono := eapply tracked_mono; [eassumption | clear; set_solver | clear; set_solver | clear; set_solver | lia].

(** What a statement on the history leaves alone. *)
Lemma insert_history_frame a txid height delta d d' :
  insert_address_history a txid height delta d = Ok d' ->
  blocks d' = blocks d /\ transactions d' = transactions d /\ outputs d' = outputs d /\ state_value d' = state_value d /\
  forall k, is_Some (address_history d' !! k) -> is_Some (address_history d !! k) \/ k = (a, height, txid).
Proof.
  unfold insert_address_history. destruct (address_history d !! _) as [old |] eqn:Hk; [destruct (checked_i64 _); [| done] |];
    intros [= <-]; cbn; (split_and!; [done .. |]); intros k; rewrite lookup_insert_is_Some'; naive_solver.
Qed.

Section chain.
Context `{!AddressApi, !HashApi, !TxApi, !ChainApi}.
Context (network : Network) (J : IndexerDatabase -> Prop).
Implicit Types (d : IndexerDatabase).

Section at_height.
Context (height : Z) (HJ : kept J network height) (hashes : gset bytes) (top : Z).

Lemma track_input X Y txid vin input d d' :
  tracked X Y hashes top d -> J d -> txid ∈ X -> (is_null (previous_output input) = false -> previous_output input ∉ Y) ->
  ref_input height txid vin input d = Ok d' ->
  tracked X ((if is_null (previous_output input) then ∅ else {[ previous_output input ]}) ∪ Y) hashes top d' /\ J d' /\
  (forall o, is_Some (outputs d' !! o) <-> is_Some (outputs d !! o)).
Proof.
  intros Ht Hj HX HY. unfold ref_input. destruct (is_null (previous_output input)).
  { intros [= <-]. split_and!; [track_mono | done | done]. }
  specialize (HY eq_refl). set (o := previous_output input) in *. unfold get_output_info.
  assert (tracked X ({[ o ]} ∪ Y) hashes top d) as Ht' by track_mono.
  destruct (outputs d !! o) as [r |] eqn:Hr; [| by intros [= <-]]. cbn.
  destruct (row_info r) as [[a v] |] eqn:Hinfo; [| by intros [= <-]]. intros Hins.
  assert (r_spent r = None) as Hunspent.
  { destruct (r_spent r) eqn:Hs; [| done]. destruct HY. eapply (tr_spent X Y); [done | done | by rewrite Hs]. }
  destruct (insert_history_frame _ _ _ _ _ _ Hins) as (Hb & Htx & Hout & _ & Hk). cbn in Hb, Htx, Hout, Hk.
  assert (forall o', is_Some (outputs d' !! o') <-> is_Some (outputs d !! o')) as Hdom.
  { intros o'. rewrite Hout. unfold spend_row. by rewrite lookup_alter_is_Some. }
  split_and!; [| by eapply (kept_input J network height HJ) | done].
  destruct Ht as [T1 T2 T3 T4 T5]. split.
  - by rewrite Htx.
  - intros o'. rewrite Hdom. apply T2.
  - intros k [Hk' | ->]%Hk; [by apply T3 | done].
  - intros o' r' Ho' Hs. rewrite Hout in Ho'. unfold spend_row in Ho'. cbn in Ho'.
    destruct (decide (o = o')) as [<- | Hne]; [set_solver |]. rewrite lookup_alter_ne in Ho' by done.
    specialize (T4 _ _ Ho' Hs). set_solver.
  - by rewrite Hb.
Qed.

(** The outputs that inputs spend. *)
Definition input_spends (inputs : list TxIn) : list OutPoint :=
  filter (fun o => is_null o = false) (map previous_output inputs).

Lemma track_inputs X Y txid vin inputs d d' :
  tracked X Y hashes top d -> J d -> txid ∈ X -> NoDup (input_spends inputs) -> Y ## list_to_set (input_spends inputs) ->
  ref_inputs height txid vin inputs d = Ok d' ->
  tracked X (list_to_set (input_spends inputs) ∪ Y) hashes top d' /\ J d' /\
  (forall o, is_Some (outputs d' !! o) <-> is_Some (outputs d !! o)).
Proof.
  intros Ht Hj HX. revert Y vin d Ht Hj. induction inputs as [| i inputs IH]; intros Y vin d Ht Hj Hnd Hdisj; cbn [ref_inputs].
  { intros [= <-]. split_and!; [track_mono | done | done]. }
  intros (d1 & Hi & Hrest)%bind_Ok.
  assert (NoDup (input_spends inputs) /\
    ((if is_null (previous_output i) then ∅ else {[ previous_output i ]}) ∪ Y) ## list_to_set (input_spends inputs) /\
    (is_null (previous_output i) = false -> previous_output i ∉ Y) /\
    list_to_set (input_spends (i :: inputs)) =
      (if is_null (previous_output i) then ∅ else {[ previous_output i ]}) ∪ list_to_set (C := gset OutPoint) (input_spends inputs))
    as (Hnd' & Hdisj' & Hni & Heq).
  { unfold input_spends in *. cbn [map] in *. rewrite filter_cons in *. destruct (is_null (previous_output i)) eqn:Hnull.
    - rewrite decide_False in * by done. split_and!; [done | set_solver | done | set_solver].
    - rewrite decide_True in * by done. apply NoDup_cons in Hnd as [Hnin Hnd]. cbn [list_to_set] in *.
      split_and!; [done | set_solver | set_solver | done]. }
  destruct (track_input X Y txid vin i d d1 Ht Hj HX Hni Hi) as (Ht1 & Hj1 & Hdom1).
  destruct (IH _ (S vin) d1 Ht1 Hj1 Hnd' Hdisj' Hrest) as (Ht2 & Hj2 & Hdom2). rewrite Heq.
  split_and!; [| done | intros o; by rewrite Hdom2].
  track_mono.
Qed.

Lemma track_output X Y txid vout out d d' :
  tracked X Y hashes top d -> J d -> txid ∈ X -> is_txid txid -> outputs d !! mk_outpoint txid (Z.of_nat vout) = None ->
  amount_ok (value out) -> Z.of_nat vout <= u32_max -> ref_output network height txid vout out d = Ok d' ->
  tracked X Y hashes top d' /\ J d' /\
  (forall o, o <> mk_outpoint txid (Z.of_nat vout) -> outputs d' !! o = outputs d !! o).
Proof.
  intros Ht Hj HX Hid Hnone Hv Hu Hrun. pose proof (kept_output J network height HJ _ _ _ _ _ Hj Hid Hnone Hv Hu Hrun) as Hj'.
  set (o := mk_outpoint txid (Z.of_nat vout)) in *. set (row := output_row network height out).
  assert (blocks d' = blocks d /\ transactions d' = transactions d /\ outputs d' = <[o := row]> (outputs d) /\
    forall k, is_Some (address_history d' !! k) -> is_Some (address_history d !! k) \/ key_txid k = txid)
    as (Hb & Htx & Hout & Hk).
  { revert Hrun. unfold ref_output. destruct (script_to_address _ _).
    - intros Hins. destruct (insert_history_frame _ _ _ _ _ _ Hins) as (Hb & Htx & Hout & _ & Hk).
      split_and!; [done | done | done |]. intros k [Hk' | ->]%Hk; [by left | by right].
    - intros [= <-]. split_and!; try done. intros k Hk'. by left. }
  split_and!; [| done | intros o' Hne; by rewrite Hout, lookup_insert_ne].
  destruct Ht as [T1 T2 T3 T4 T5]. split.
  - by rewrite Htx.
  - intros o'. rewrite Hout, lookup_insert_is_Some'. intros [<- | Ho']; [done | by apply T2].
  - intros k [Hk' | ->]%Hk; [by apply T3 | done].
  - intros o' r. rewrite Hout. intros [[<- <-] | [_ Hr]]%lookup_insert_Some Hs; [done | by eapply T4].
  - by rewrite Hb.
Qed.

Lemma track_outputs X Y txid vout outs d d' :
  tracked X Y hashes top d -> J d -> txid ∈ X -> is_txid txid -> (forall n, (vout <= n)%nat -> outputs d !! mk_outpoint txid (Z.of_nat n) = None) ->
  Forall (fun out => amount_ok (value out)) outs -> Z.of_nat (vout + length outs) <= u32_max ->
  ref_outputs network height txid vout outs d = Ok d' -> tracked X Y hashes top d' /\ J d'.
Proof.
  intros Ht Hj HX Hid Hnone Houts. revert vout d Ht Hj Hnone. induction Houts as [| out outs Hv _ IH]; intros vout d Ht Hj Hnone Hlen;
    cbn [ref_outputs]; [by intros [= <-] |]. cbn [length] in Hlen. intros (d1 & Ho & Hrest)%bind_Ok.
  destruct (track_output X Y txid vout out d d1) as (Ht1 & Hj1 & Hout); [done | done | done | done | by apply Hnone | done | lia | done |].
  apply (IH (S vout) d1); [done | done | | lia | done].
  intros n Hn. rewrite Hout; [apply Hnone; lia |]. intros [= ?]. lia.
Qed.

Lemma spends_cons tx txs : spends (tx :: txs) = input_spends (tx_input tx) ++ spends txs.
Proof. unfold spends, input_spends. cbn [flat_map]. by rewrite filter_app. Qed.

Lemma track_transactions X Y i txs d d' :
  tracked X Y hashes top d -> J d -> NoDup (map compute_txid txs) -> X ## list_to_set (map compute_txid txs) ->
  NoDup (spends txs) -> Y ## list_to_set (spends txs) -> Forall tx_typed txs ->
  ref_transactions network height i txs d = Ok d' ->
  tracked (list_to_set (map compute_txid txs) ∪ X) (list_to_set (spends txs) ∪ Y) hashes top d' /\ J d'.
Proof.
  intros Ht Hj Hnd Hdisj Hsp Hspd Hty. revert X Y i d Ht Hj Hnd Hdisj Hsp Hspd.
  induction Hty as [| tx txs [Hv Hlen] _ IH]; intros X Y i d Ht Hj Hnd Hdisj Hsp Hspd; cbn [ref_transactions map list_to_set].
  { intros [= <-]. split; [track_mono | done]. }
  rewrite spends_cons in *. apply NoDup_app in Hsp as (Hsp1 & Hsp12 & Hsp2). rewrite list_to_set_app_L in *.
  cbn [map list_to_set] in *. apply NoDup_cons in Hnd as [Hnin Hnd]. set (t := compute_txid tx) in *.
  intros (d1 & Htx & Hrest)%bind_Ok. unfold ref_transaction in Htx. fold t in Htx.
  apply bind_Ok in Htx as (d2 & Hin & Hout).
  assert (t ∉ X) as HtX by set_solver.
  assert (transactions d !! t = None) as Hnone.
  { apply eq_None_not_Some. intros Hs. apply HtX. by eapply tr_txs. }
  pose proof (kept_transaction J network height HJ t (Z.of_nat i) d Hj Hnone) as Hj1.
  assert (tracked ({[ t ]} ∪ X) Y hashes top (insert_transaction t height (Z.of_nat i) d)) as Ht1.
  { destruct Ht as [T1 T2 T3 T4 T5]. split; [| set_solver | set_solver | done | done]. cbn.
    intros t'. rewrite lookup_insert_is_Some'. intros [<- | Ht']; [set_solver |]. specialize (T1 _ Ht'). set_solver. }
  destruct (track_inputs _ Y t 0 (tx_input tx) _ d2 Ht1 Hj1 ltac:(set_solver) Hsp1 ltac:(clear - Hspd; set_solver) Hin) as (Ht2 & Hj2 & Hdom).
  destruct (track_outputs _ _ t 0 (tx_output tx) d2 d1 Ht2 Hj2 ltac:(set_solver)) as (Ht3 & Hj3); [by exists tx | | done | done | done |].
  { intros n _. apply eq_None_not_Some. rewrite Hdom. cbn. intros Hs. apply HtX. apply (tr_outputs _ _ _ _ _ Ht _ Hs). }
  destruct (IH _ _ (S i) d1 Ht3 Hj3 Hnd) as (Ht4 & Hj4); [clear - Hdisj Hnin; set_solver | done | | done |].
  { clear - Hspd Hsp12. set_solver. }
  split; [track_mono | done].
Qed.
End at_height.

Lemma track_block X Y hashes top hb d d' :
  kept J network hb.1 -> tracked X Y hashes top d -> J d -> top < hb.1 -> block_hash (block_header hb.2) ∉ hashes ->
  NoDup (map compute_txid (txdata hb.2)) -> X ## list_to_set (map compute_txid (txdata hb.2)) ->
  NoDup (spends (txdata hb.2)) -> Y ## list_to_set (spends (txdata hb.2)) -> Forall tx_typed (txdata hb.2) ->
  ref_block network hb d = Ok d' ->
  tracked (list_to_set (map compute_txid (txdata hb.2)) ∪ X) (list_to_set (spends (txdata hb.2)) ∪ Y)
    ({[ block_hash (block_header hb.2) ]} ∪ hashes) hb.1 d' /\ J d'.
Proof.
  intros HJ Ht Hj Htop Hhash Hnd Hdisj Hsp Hspd Hty Hrun. unfold ref_block in Hrun.
  set (hash := block_hash (block_header hb.2)) in *.
  assert (forall n r, blocks d !! n = Some r -> b_hash r <> hash) as Hne.
  { intros n r Hr <-. apply Hhash. by eapply (tr_blocks _ _ _ _ _ Ht). }
  assert (blocks d !! hb.1 = None) as Hnone.
  { destruct (blocks d !! hb.1) as [r |] eqn:Hr; [| done]. apply (tr_blocks _ _ _ _ _ Ht) in Hr. lia. }
  eapply (track_transactions hb.1 HJ ({[ hash ]} ∪ hashes) hb.1 X Y); [| | done .. | exact Hrun].
  - destruct Ht as [T1 T2 T3 T4 T5]. split; [done .. |]. cbn [insert_block set_blocks blocks insert_block_row]. intros n r.
    intros [[<- <-] | [_ [Hr _]%map_lookup_filter_Some]]%lookup_insert_Some; [split; [set_solver | lia] |].
    apply T5 in Hr as [Hr Hn]. split; [set_solver | lia].
  - by apply (kept_block J network hb.1 HJ).
Qed.

(** The hashes of blocks. *)
Definition hashes_of (chain : list (Z * Block)) : list bytes := map (fun hb => block_hash (block_header hb.2)) chain.

(** Along a chain. *)
Lemma track_blocks X Y hashes top chain d d' :
  Forall (fun hb => kept J network hb.1) chain -> tracked X Y hashes top d -> J d ->
  valid_chain chain -> Forall (fun n => top < n) (map fst chain) ->
  hashes ## list_to_set (hashes_of chain) -> X ## list_to_set (batch_txids chain) -> Y ## list_to_set (spends (batch_txs chain)) ->
  ref_blocks network chain d = Ok d' ->
  J d' /\ exists top', tracked (list_to_set (batch_txids chain) ∪ X) (list_to_set (spends (batch_txs chain)) ∪ Y)
            (list_to_set (hashes_of chain) ∪ hashes) top' d' /\ (forall n, n ∈ map fst chain -> n <= top') /\
            (chain = [] -> top' = top) /\ (chain <> [] -> top' ∈ map fst chain).
Proof.
  revert X Y hashes top d. induction chain as [| hb chain IH]; intros X Y hashes top d HJ Ht Hj Hvc Htop Hh HX HY.
  { intros [= <-]. split; [done |]. exists top. split_and!; [track_mono | set_solver | done | done]. }
  unfold ref_blocks. cbn [rfold]. intros (d1 & Hb & Hrest)%bind_Ok. fold (ref_blocks network chain d1) in Hrest.
  destruct Hvc as [V1 V2 V3 V4 V5]. cbn [map fst] in *.
  unfold batch_txids, hashes_of in *. cbn [batch_txs flat_map map snd] in *. fold (batch_txs chain) in *.
  rewrite map_app in *. rewrite spends_app in *. rewrite !list_to_set_app_L in *. cbn [list_to_set] in *.
  apply StronglySorted_inv in V1 as [V1 V1']. apply NoDup_cons in V2 as [V2' V2]. apply NoDup_app in V3 as (V3 & V3'' & V3').
  apply NoDup_app in V4 as (V4 & V4'' & V4'). apply Forall_app in V5 as [V5 V5'].
  apply Forall_cons in HJ as [HJ1 HJ]. apply Forall_cons in Htop as [Htop _].
  destruct (track_block X Y hashes top hb d d1) as [Ht1 Hj1]; try done.
  1-3: clear - Hh HX HY; set_solver.
  destruct (IH _ _ _ hb.1 d1 HJ Ht1 Hj1) as (Hj2 & top' & Ht2 & Hall & Hnil & Hin); try done.
  - clear - Hh V2'. set_solver.
  - clear - HX V3''. set_solver.
  - clear - HY V4''. set_solver.
  - split; [done |]. exists top'. split_and!; [track_mono | | done |].
    + intros n [-> | Hn]%elem_of_cons; [| by apply Hall]. destruct chain as [| hb' chain']; [rewrite Hnil by done; lia |].
      specialize (Hin ltac:(done)). rewrite Forall_forall in V1'. specialize (V1' _ Hin). lia.
    + intros _. destruct chain as [| hb' chain']; [rewrite Hnil by done; by left | right; by apply Hin].
Qed.
End chain.

(** ** Sums over tables *)

Section sums.
Context `{Countable K} {A : Type}.
Implicit Types (m : gmap K A) (f : K -> A -> Z).

Definition map_sum f m : Z := map_fold (fun k x acc => f k x + acc) 0 m.

Lemma map_sum_empty f : map_sum f ∅ = 0.
Proof. apply map_fold_empty. Qed.

Lemma map_sum_fresh f m k x : m !! k = None -> map_sum f (<[k := x]> m) = f k x + map_sum f m.
Proof. intros Hk. unfold map_sum. rewrite map_fold_insert_L; [done | intros; lia | done]. Qed.

Lemma map_sum_update f m k x y : m !! k = Some x -> map_sum f (<[k := y]> m) = map_sum f m - f k x + f k y.
Proof.
  intros Hk. pose proof (map_sum_fresh f (delete k m) k x (lookup_delete_eq m k)) as Hx.
  rewrite insert_delete_id in Hx by done.
  rewrite <- insert_delete_eq, map_sum_fresh by apply lookup_delete_eq. lia.
Qed.

Lemma map_sum_list f m : map_sum f m = zsum (map (fun kx => f kx.1 kx.2) (map_to_list m)).
Proof.
  unfold map_sum. rewrite map_fold_foldr. unfold zsum. induction (map_to_list m) as [| [k x] l IH]; cbn; [done | by rewrite IH].
Qed.
End sums.

Lemma zsum_filter {A} (P : A -> Prop) `{!forall x, Decision (P x)} (g : A -> Z) l :
  zsum (map g (filter P l)) = zsum (map (fun x => if decide (P x) then g x else 0) l).
Proof.
  unfold zsum. induction l as [| x l IH]; [done |]. rewrite filter_cons. cbn. case_decide; cbn; by rewrite IH.
Qed.

(** ** What indexing keeps *)

Section invariants.
Context `{!AddressApi, !HashApi, !TxApi, !ChainApi}.
Context (network : Network).

(** The rows above a height do not matter after a revert. *)
Lemma kept_revert h d0 height :
  h < height -> kept (fun d => revert_to_height h d = revert_to_height h d0) network height.
Proof.
  intros Hh. split.
  - intros hash ts d <- Hne Hnone. by apply revert_insert_block.
  - intros txid i d <- Hnone. by apply revert_insert_transaction.
  - intros o r a v txid vin d d' <- Hr Hs _ Hins. rewrite (revert_insert_history h _ _ _ _ _ _ Hh Hins).
    apply revert_mark_spent; [done |]. intros r' Hr'. congruence.
  - intros txid vout out d d' <- _ Hnone _ _. unfold ref_output, insert_output.
    assert (revert_to_height h (set_outputs (insert_output_row (outputs d) (mk_outpoint txid (Z.of_nat vout), output_row network height out)) d)
      = revert_to_height h d) as Hins by (by apply revert_insert_row).
    destruct (script_to_address _ _); [intros Hrun; by rewrite (revert_insert_history h _ _ _ _ _ _ Hh Hrun) | by intros [= <-]].
Qed.

Lemma insert_history_below h a txid height delta d d' :
  height <= h -> below h d -> insert_address_history a txid height delta d = Ok d' -> below h d'.
Proof.
  intros Hh [B1 B2 B3 B4 B5] Hins.
  destruct (insert_history_frame _ _ _ _ _ _ Hins) as (Hb & Htx & Hout & _ & Hk).
  split; rewrite ?Hb, ?Htx, ?Hout; try done. intros k v Hkv. destruct (Hk k) as [[w Hw] | ->]; [by eexists | eauto | done].
Qed.

Lemma kept_below h height : height <= h -> kept (below h) network height.
Proof.
  intros Hh. split.
  - intros hash ts d [B1 B2 B3 B4 B5] _ _. split; try done. cbn. intros n r.
    intros [[<- _] | [_ [Hr _]%map_lookup_filter_Some]]%lookup_insert_Some; [done | eauto].
  - intros txid i d [B1 B2 B3 B4 B5] _. split; try done. cbn.
    intros t p [[_ <-] | [_ Hp]]%lookup_insert_Some; [done | eauto].
  - intros o r a v txid vin d d' [B1 B2 B3 B4 B5] Hr _ _. apply insert_history_below; [done |].
    split; try done; cbn; unfold spend_row; cbn.
    + intros o' r' [(<- & r'' & Hr'' & ->) | [_ Hr']]%lookup_alter_Some; cbn; eauto.
    + intros o' r' s [(<- & r'' & Hr'' & ->) | [_ Hr']]%lookup_alter_Some; cbn; [by intros [= <-] | eauto].
  - intros txid vout out d d' [B1 B2 B3 B4 B5] _ _ _ _. unfold ref_output.
    assert (below h (insert_output network txid (Z.of_nat vout) height out d)) as Hins.
    { split; try done; cbn.
      - intros o r [[_ <-] | [_ Hr]]%lookup_insert_Some; [done | eauto].
      - intros o r s [[_ <-] | [_ Hr]]%lookup_insert_Some; [done | eauto]. }
    destruct (script_to_address _ _); [by apply insert_history_below | by intros [= <-]].
Qed.
End invariants.
