(* ===== verification/IndexerSpec.v ===== *)
(** * Theorems on the address index of a chain

    Batches of any size give the same index, reverting undoes indexing, and the
    balance of an address is the sum of its history. *)

From Stdlib Require Import ZArith Lia String.
From stdpp Require Import prelude gmap strings sorting.
From S2P Require Import Prelude Collections ScriptTypes Bitcoin Client HeaderVerify IndexerDb IndexerQuery IndexerFacts IndexerChain.

(** Transaction ids have 32 bytes. *)
Class TxidLaws `{!TxApi} : Prop := { txid_length tx : length (compute_txid tx) = 32%nat }.

(** ** Balances *)

Definition history_term (a : string) (k : HistoryKey) (delta : Z) : Z := if decide (key_address k = a) then delta else 0.
Definition unspent_term (a : string) (o : OutPoint) (r : OutputRow) : Z :=
  if decide (r_address r = Some a /\ r_spent r = None) then r_value r else 0.

(** The history of an address adds up to its unspent outputs. *)
Definition balanced (d : IndexerDatabase) : Prop :=
  forall a, map_sum (history_term a) (address_history d) = map_sum (unspent_term a) (outputs d).

Lemma insert_history_sum a a' txid height delta d d' :
  insert_address_history a txid height delta d = Ok d' ->
  map_sum (history_term a') (address_history d') =
  map_sum (history_term a') (address_history d) + (if decide (a = a') then delta else 0).
Proof.
  unfold insert_address_history. destruct (address_history d !! _) as [old |] eqn:Hk.
  - unfold checked_i64. destruct (in_i64 _); [| done]. intros [= <-]. cbn. rewrite (map_sum_update _ _ _ _ _ Hk).
    unfold history_term, key_address. cbn. case_decide; lia.
  - intros [= <-]. cbn. rewrite map_sum_fresh by done. unfold history_term, key_address. cbn. case_decide; lia.
Qed.

Lemma spend_row_insert m o r s :
  m !! o = Some r ->
  spend_row m (s, o) = <[o := mk_row (r_address r) (r_value r) (r_script r) (r_height r) (Some s)]> m.
Proof.
  intros Hr. unfold spend_row. apply map_eq. intros o'. cbn. destruct (decide (o = o')) as [<- | Hne].
  - by rewrite lookup_alter_eq, Hr, lookup_insert_eq.
  - by rewrite lookup_alter_ne, lookup_insert_ne.
Qed.

Section kept.
Context `{!AddressApi, !HashApi, !TxApi, !TxidLaws, !ChainApi}.
Context (network : Network).

Lemma kept_rows height : kept rows_ok network height.
Proof.
  split; [done | done | |].
  - intros o r a v txid vin d d' Hd Hr _ _ Hins. destruct (insert_history_frame _ _ _ _ _ _ Hins) as (_ & _ & Hout & _).
    intros o' r'. rewrite Hout. cbn. unfold spend_row. cbn.
    intros [(<- & r'' & Hr'' & ->) | [_ Hr']]%lookup_alter_Some; cbn; by eapply Hd.
  - intros txid vout out d d' Hd [tx <-] _ Hv Hu.
    assert (rows_ok (insert_output network (compute_txid tx) (Z.of_nat vout) height out d)) as Hins.
    { intros o r. cbn. intros [[<- <-] | [_ Hr]]%lookup_insert_Some; [| by eapply Hd]. cbn.
      split_and!; [apply txid_length | unfold is_u32; lia | by rewrite amount_i64]. }
    unfold ref_output. destruct (script_to_address _ _); [| by intros [= <-]].
    intros Hrun. destruct (insert_history_frame _ _ _ _ _ _ Hrun) as (_ & _ & Hout & _). intros o r. rewrite Hout. apply Hins.
Qed.

Lemma kept_balanced height : kept (fun d => rows_ok d /\ balanced d) network height.
Proof.
  pose proof (kept_rows height) as [_ _ Kin Kout]. split.
  - by intros hash ts d [Hd Hbal] _ _.
  - by intros txid i d [Hd Hbal] _.
  - intros o r a v txid vin d d' [Hd Hbal] Hr Hs Hinfo Hins. split; [by eapply Kin |].
    intros a'. rewrite (insert_history_sum _ a' _ _ _ _ _ Hins). destruct (insert_history_frame _ _ _ _ _ _ Hins) as (_ & _ & -> & _).
    unfold mark_output_spent, set_outputs. cbn [address_history outputs]. rewrite Hbal, (spend_row_insert _ _ _ _ Hr), (map_sum_update _ _ _ _ _ Hr).
    destruct (Hd _ _ Hr) as (_ & _ & Hv). unfold row_info in Hinfo. destruct (r_address r) as [a'' |] eqn:Ha; [| done].
    rewrite amount_u64 in Hinfo by done. injection Hinfo as -> <-. rewrite amount_i64 by done.
    unfold unspent_term. cbn. rewrite Ha, Hs. repeat case_decide; naive_solver lia.
  - intros txid vout out d d' [Hd Hbal] Hid Hnone Hv Hu Hrun. split; [by eapply Kout |].
    revert Hrun. unfold ref_output.
    assert (forall a', map_sum (unspent_term a') (outputs (insert_output network txid (Z.of_nat vout) height out d)) =
      map_sum (unspent_term a') (outputs d) +
      (if decide (script_to_address (script_pubkey out) network = Some a') then value out else 0)) as Hsum.
    { intros a'. cbn. rewrite map_sum_fresh by done. unfold unspent_term. cbn. rewrite amount_i64 by done.
      repeat case_decide; naive_solver lia. }
    destruct (script_to_address _ _) as [a |] eqn:Ha.
    + intros Hins a'. rewrite (insert_history_sum _ a' _ _ _ _ _ Hins).
      destruct (insert_history_frame _ _ _ _ _ _ Hins) as (_ & _ & -> & _).
      rewrite Hsum. cbn. rewrite Hbal, amount_i64 by done. repeat case_decide; naive_solver lia.
    + intros [= <-] a'. rewrite Hsum. cbn. rewrite Hbal. rewrite decide_False by done. lia.
Qed.
End kept.

(** ** Batches *)

Lemma valid_chain_app `{!TxApi, !ChainApi} (c1 c2 : list (Z * Block)) :
  valid_chain (c1 ++ c2) ->
  valid_chain c1 /\ valid_chain c2 /\
  (forall x y, x ∈ map fst c1 -> y ∈ map fst c2 -> x < y) /\
  list_to_set (C := gset bytes) (hashes_of c1) ## list_to_set (hashes_of c2) /\
  list_to_set (C := gset bytes) (batch_txids c1) ## list_to_set (batch_txids c2) /\
  list_to_set (C := gset OutPoint) (spends (batch_txs c1)) ## list_to_set (spends (batch_txs c2)).
Proof.
  intros [V1 V2 V3 V4 V5]. rewrite map_app in V1, V2. unfold batch_txids in V3. rewrite batch_txs_app in V3, V4, V5.
  rewrite map_app in V3. rewrite spends_app in V4.
  apply StronglySorted_app in V1 as (V1 & V1a & V1b).
  apply NoDup_app in V2 as (V2a & V2 & V2b). apply NoDup_app in V3 as (V3a & V3 & V3b).
  apply NoDup_app in V4 as (V4a & V4 & V4b). apply Forall_app in V5 as [V5a V5b].
  split_and!; [by split | by split | intros x y; by apply V1 | | |];
    intros z; rewrite !elem_of_list_to_set; [apply V2 | apply V3 | apply V4].
Qed.

Lemma rfold_app {E A B} (f : A -> B -> res E B) l l' b : rfold f (l ++ l') b = rfold f l b ≫= rfold f l'.
Proof.
  revert b. induction l as [| x l IH]; intros b; cbn [rfold app]; [done |].
  destruct (f x b); cbn; [apply IH | done | done].
Qed.

Lemma disjoint_next `{Countable A} (U X W : gset A) : U ## W -> X ## U ∪ W -> U ∪ X ## W.
Proof. set_solver. Qed.

Lemma disjoint_first `{Countable A} (X U W : gset A) : X ## U ∪ W -> X ## U.
Proof. set_solver. Qed.

Lemma tracked_unknown X Y hashes top d t : tracked X Y hashes top d -> t ∉ X -> unknown_tx d t.
Proof.
  intros [T1 T2 T3 _ _] Ht. split_and!.
  - apply eq_None_not_Some. intros Hs. by apply Ht, T1.
  - intros o <-. apply eq_None_not_Some. intros Hs. by apply Ht, T2.
  - intros k <-. apply eq_None_not_Some. intros Hs. by apply Ht, T3.
Qed.

Lemma tracked_empty top : tracked ∅ ∅ ∅ top empty_db.
Proof. split; cbn; intros *; rewrite ?lookup_empty; try (by intros [? ?]); done. Qed.

Section batches.
Context `{!AddressApi, !HashApi, !TxApi, !TxidLaws, !ChainApi, !HashOrder, !HashOrderLaws}.
Context (network : Network).

(** Batch after batch. *)
Definition index_batches (batches : list (list (Z * Block))) (d : IndexerDatabase) : res IndexerError IndexerDatabase :=
  rfold (index_blocks_batch network) batches d.

Lemma index_batches_from X Y hashes top batches d d' :
  tracked X Y hashes top d -> rows_ok d -> valid_chain (concat batches) -> Forall (fun n => top < n) (map fst (concat batches)) ->
  hashes ## list_to_set (hashes_of (concat batches)) -> X ## list_to_set (batch_txids (concat batches)) ->
  Y ## list_to_set (spends (batch_txs (concat batches))) ->
  index_batches batches d = Ok d' <-> ref_blocks network (concat batches) d = Ok d'.
Proof.
  revert X Y hashes top d. induction batches as [| bs batches IH]; intros X Y hashes top d Ht Hd Hvc Htop Hh HX HY; [done |].
  unfold index_batches, ref_blocks. cbn [rfold concat] in *. rewrite rfold_app. fold (ref_blocks network bs d).
  pose proof (valid_chain_app _ _ Hvc) as (Hv1 & Hv2 & Hlt & Hdh & Hdx & Hdy).
  unfold batch_txids, hashes_of in *. rewrite batch_txs_app in *. rewrite spends_app in *. rewrite !map_app in *.
  rewrite !list_to_set_app_L in *. apply Forall_app in Htop as [Htop1 Htop2].
  assert (forall d1, index_blocks_batch network bs d = Ok d1 <-> ref_blocks network bs d = Ok d1) as Heq.
  { intros d1. apply index_batch_equiv; [done | apply Hv1 | | apply Hv1].
    apply Forall_forall. intros t Htx. eapply tracked_unknown; [exact Ht |]. intros HtX.
    apply (HX t HtX), elem_of_union_l, elem_of_list_to_set, Htx. }
  assert (forall d1, ref_blocks network bs d = Ok d1 ->
    (index_batches batches d1 = Ok d' <-> ref_blocks network (concat batches) d1 = Ok d')) as Hrest.
  { intros d1 Hrun.
    destruct (track_blocks network rows_ok X Y hashes top bs d d1) as (Hd1 & top' & Ht1 & Hall & Hnil & Hin); try done.
    { apply Forall_forall. intros. apply kept_rows. }
    1-3: by eapply disjoint_first.
    eapply (IH _ _ _ top' d1 Ht1 Hd1 Hv2).
    { apply Forall_forall. intros n Hn. destruct bs as [| hb bs']; [rewrite Hnil by done; by eapply (proj1 (Forall_forall _ _) Htop2) |].
      apply Hlt; [by apply Hin | done]. }
    all: by apply disjoint_next. }
  unfold index_batches, ref_blocks in Hrest.
  split; intros (d1 & Hrun & Hr)%bind_Ok; apply bind_Ok; exists d1; (split; [by apply Heq |]);
    apply Hrest; try done; by apply Heq.
Qed.

(** A height below the chain. *)
Definition before (chain : list (Z * Block)) : Z := match chain with [] => 0 | hb :: _ => hb.1 - 1 end.

Lemma before_lt chain : valid_chain chain -> Forall (fun n => before chain < n) (map fst chain).
Proof.
  intros [V1 _ _ _ _]. destruct chain as [| hb chain]; [constructor |]. cbn in *.
  apply StronglySorted_inv in V1 as [_ V1]. constructor; [lia |]. eapply Forall_impl; [exact V1 |]. cbn. lia.
Qed.

Lemma index_batches_ref batches d :
  valid_chain (concat batches) -> index_batches batches empty_db = Ok d <-> ref_blocks network (concat batches) empty_db = Ok d.
Proof.
  intros Hvc. apply (index_batches_from ∅ ∅ ∅ (before (concat batches))); [apply tracked_empty | | done | by apply before_lt | set_solver ..].
  intros o r. cbn. by rewrite lookup_empty.
Qed.

(** An invariant of the statements holds of the index of a chain. *)
Lemma indexed_kept (J : IndexerDatabase -> Prop) chain d :
  Forall (fun hb => kept J network hb.1) chain -> J empty_db -> valid_chain chain -> ref_blocks network chain empty_db = Ok d ->
  J d /\ exists top, tracked (list_to_set (batch_txids chain)) (list_to_set (spends (batch_txs chain)))
    (list_to_set (hashes_of chain)) top d /\ (chain = [] -> d = empty_db) /\ (chain <> [] -> top ∈ map fst chain).
Proof.
  intros HJ Hj0 Hvc Hrun.
  destruct (track_blocks network J ∅ ∅ ∅ (before chain) chain empty_db d) as (Hj & top & Ht & _ & _ & Hin);
    [done | apply tracked_empty | done | done | by apply before_lt | set_solver .. | done |].
  split; [done |]. exists top. rewrite !union_empty_r_L in Ht. split_and!; [done | | done].
  intros ->. by injection Hrun.
Qed.

(** The index of a chain, ready for blocks on top of it. *)
Lemma indexed_tracked (J : IndexerDatabase -> Prop) chain more d :
  Forall (fun hb => kept J network hb.1) chain -> J empty_db -> valid_chain (chain ++ more) -> ref_blocks network chain empty_db = Ok d ->
  J d /\ exists top, tracked (list_to_set (batch_txids chain)) (list_to_set (spends (batch_txs chain)))
    (list_to_set (hashes_of chain)) top d /\ Forall (fun n => top < n) (map fst more).
Proof.
  intros HJ Hj0 Hvc Hrun. pose proof (valid_chain_app _ _ Hvc) as (Hv1 & Hv2 & Hlt & _).
  destruct (indexed_kept J chain d) as (Hj & top & Ht & Hnil & Hin); [done .. |]. split; [done |].
  destruct (decide (chain = [])) as [Hemp | Hne].
  - exists (before more). split; [| by apply before_lt]. rewrite (Hnil Hemp).
    apply (tracked_mono ∅ _ ∅ _ ∅ _ (before more)); [apply tracked_empty | set_solver .. | lia].
  - exists top. split; [done |]. apply Forall_forall. intros n Hn. apply Hlt; [by apply Hin | done].
Qed.

Lemma rows_ok_empty : rows_ok empty_db.
Proof. intros o r. cbn. by rewrite lookup_empty. Qed.

Lemma kept_rows_all (chain : list (Z * Block)) : Forall (fun hb => kept rows_ok network hb.1) chain.
Proof. apply Forall_forall. intros. apply kept_rows. Qed.

(** Batches on top of the index of a chain. *)
Lemma extend_batches chain batches d d' :
  valid_chain (chain ++ concat batches) -> ref_blocks network chain empty_db = Ok d ->
  index_batches batches d = Ok d' <-> ref_blocks network (concat batches) d = Ok d'.
Proof.
  intros Hvc Hrun. pose proof (valid_chain_app _ _ Hvc) as (Hv1 & Hv2 & Hlt & Hdh & Hdx & Hdy).
  destruct (indexed_tracked rows_ok chain (concat batches) d) as (Hd & top & Ht & Htop);
    [apply kept_rows_all | apply rows_ok_empty | done | done |].
  by apply (index_batches_from _ _ _ top batches d d' Ht).
Qed.

(** Reverting to a height between two parts of a chain. *)
Lemma revert_blocks chain more h d1 d2 :
  valid_chain (chain ++ more) ->
  Forall (fun n => n <= h) (map fst chain) -> Forall (fun n => h < n) (map fst more) ->
  ref_blocks network chain empty_db = Ok d1 -> ref_blocks network more d1 = Ok d2 -> revert_to_height h d2 = d1.
Proof.
  intros Hvc Hlow Hhigh Hrun1 Hrun2. pose proof (valid_chain_app _ _ Hvc) as (Hv1 & Hv2 & Hlt & Hdh & Hdx & Hdy).
  destruct (indexed_tracked (below h) chain more d1) as (Hbelow & top & Ht & Htop); [| | done | done |].
  { apply Forall_forall. intros hb Hhb. rewrite Forall_map, Forall_forall in Hlow. by apply kept_below, Hlow. }
  { by split; cbn; intros *; rewrite lookup_empty. }
  transitivity (revert_to_height h d1); [| by apply revert_below].
  eapply (track_blocks network (fun d => revert_to_height h d = revert_to_height h d1)); [| done ..].
  apply Forall_forall. intros hb Hhb. apply kept_revert. rewrite Forall_map, Forall_forall in Hhigh. by apply Hhigh.
Qed.

(** reverting undoes indexing: when blocks above a height are indexed on top of
    the index of a chain up to it, in batches of any size, then reverting to the
    height gives back exactly the index from before, in all tables: transactions,
    outputs and history of the blocks are gone, and what they spent is unspent. *)
Lemma index_revert (batches1 batches2 : list (list (Z * Block))) (h : Z) (d1 d2 : IndexerDatabase) :
  valid_chain (concat batches1 ++ concat batches2) ->
  Forall (fun n => n <= h) (map fst (concat batches1)) -> Forall (fun n => h < n) (map fst (concat batches2)) ->
  index_batches batches1 empty_db = Ok d1 -> index_batches batches2 d1 = Ok d2 ->
  revert_to_height h d2 = d1.
Proof.
  intros Hvc Hlow Hhigh Hrun1 Hrun2. pose proof (valid_chain_app _ _ Hvc) as (Hv1 & _).
  apply index_batches_ref in Hrun1; [| done]. apply (extend_batches (concat batches1)) in Hrun2; [| done ..].
  by apply (revert_blocks (concat batches1) (concat batches2)).
Qed.

Lemma kept_balanced_all (chain : list (Z * Block)) :
  Forall (fun hb => kept (fun d => rows_ok d /\ balanced d) network hb.1) chain.
Proof. apply Forall_forall. intros. apply kept_balanced. Qed.

(** The three sums of an address over its outputs. *)
Lemma address_sums d a :
  zsum (map (fun kr => r_value kr.2) (filter (fun kr => r_spent kr.2 = None) (outputs_of a d))) = map_sum (unspent_term a) (outputs d) /\
  zsum (map (fun kr => r_value kr.2) (outputs_of a d)) =
    zsum (map (fun kr => r_value kr.2) (filter (fun kr => r_spent kr.2 = None) (outputs_of a d))) +
    zsum (map (fun kr => r_value kr.2) (filter (fun kr => r_spent kr.2 <> None) (outputs_of a d))).
Proof.
  unfold outputs_of. rewrite map_sum_list, !zsum_filter. unfold zsum.
  induction (map_to_list (outputs d)) as [| [o r] l [IH1 IH2]]; [done |]. cbn. unfold unspent_term at 1.
  split; [f_equal; [repeat case_decide; naive_solver | done] |]. rewrite IH2. repeat case_decide; cbn in *; try done; lia.
Qed.

End batches.
