(* ===== verification/Indexer.v ===== *)
(** * The indexer ([crates/subcoin-indexer/src/indexer.rs], the state in [db.rs])

    The task that keeps the address index up to date: the state it resumes from, the
    indexing of a range of blocks, the catching up at start and the handling of
    notifications of imported blocks. *)

From Stdlib Require Import ZArith Lia String Ascii DecimalString DecimalPos DecimalN.
From stdpp Require Import prelude gmap strings.
From S2P Require Import Prelude Collections ScriptTypes Bitcoin Client HeaderVerify IndexerDb.

Definition PROGRESS_SAVE_INTERVAL : Z := 1000.
Definition BATCH_SIZE : Z := 100.

(** ** The saved state *)

(** A number in decimal, and [parse().unwrap_or(0)]. *)
Definition dec (z : Z) : string := NilZero.string_of_uint (N.to_uint (Z.to_N z)).

Definition strip_plus (s : string) : string :=
  match s with String c rest => if Ascii.eqb c "+" then rest else s | EmptyString => s end.

Definition parse_u32 (s : string) : Z :=
  match NilZero.uint_of_string (strip_plus s) with
  | Some d => let z := Z.of_N (N.of_uint d) in if z <=? u32_max then z else 0
  | None => 0
  end.

(** [split(':')]. *)
Fixpoint split_colon (s : string) : list string :=
  match s with
  | EmptyString => [EmptyString]
  | String c rest =>
      match split_colon rest with
      | part :: parts => if Ascii.eqb c ":" then EmptyString :: part :: parts else String c part :: parts
      | [] => []
      end
  end.

Fixpoint strip_prefix (p s : string) : option string :=
  match p, s with
  | EmptyString, _ => Some s
  | String c p, String c' s => if Ascii.eqb c c' then strip_prefix p s else None
  | String _ _, EmptyString => None
  end.

Definition state_text (s : IndexerState) : string :=
  match s with
  | HistoricalIndexing target current => "historical:" +:+ (dec target +:+ (":" +:+ dec current))
  | Active last_indexed => "active:" +:+ dec last_indexed
  end.

Definition save_state (s : IndexerState) (d : IndexerDatabase) : IndexerDatabase := set_state (Some (state_text s)) d.

Definition load_state (d : IndexerDatabase) : option IndexerState :=
  match state_value d with
  | None => None
  | Some value =>
      match strip_prefix "historical:" value with
      | Some rest =>
          match split_colon rest with
          | [target; current] => Some (HistoricalIndexing (parse_u32 target) (parse_u32 current))
          | _ => None
          end
      | None =>
          match strip_prefix "active:" value with
          | Some rest => Some (Active (parse_u32 rest))
          | None => None
          end
      end
  end.

(** ** The client *)

(** The client at one moment: the best height, the hash at a height, and a block,
    which may not convert to a Bitcoin block. *)
Record IndexClient := mk_index_client {
  ic_best : Z;
  ic_hash : Z -> Z + option bytes;
  ic_block : bytes -> Z + option (Z + Block);
}.

Definition get_bitcoin_block_at_height (c : IndexClient) (height : Z) : res IndexerError Block :=
  match ic_hash c height with
  | inl _ => Err DatabaseError
  | inr None => Err (BlockNotFound height)
  | inr (Some hash) =>
      match ic_block c hash with
      | inl _ => Err DatabaseError
      | inr None => Err (BlockNotFound height)
      | inr (Some (inl _)) => Err DatabaseError
      | inr (Some (inr block)) => Ok block
      end
  end.

(** The blocks from a height on.  They are read in parallel and then sorted; of
    several errors any one may be reported, here the first. *)
Fixpoint blocks_from (c : IndexClient) (height : Z) (n : nat) : res IndexerError (list (Z * Block)) :=
  match n with
  | O => Ok []
  | S n =>
      block ← get_bitcoin_block_at_height c height;
      rest ← blocks_from c (height + 1) n;
      Ok ((height, block) :: rest)
  end.

Section indexer.
Context `{!AddressApi, !HashApi, !TxApi, !ChainApi, !HashOrder}.
Context (network : Network).
Implicit Types (c : IndexClient) (d : IndexerDatabase).

Definition index_block_batch c (start end_ : Z) d : res IndexerError IndexerDatabase :=
  blocks_data ← blocks_from c start (Z.to_nat (end_ - start));
  index_blocks_batch network blocks_data d.

(** The loop of [index_block_range]. *)
Fixpoint range_loop (fuel : nat) c (height end_ processed : Z) d : res IndexerError IndexerDatabase :=
  match fuel with
  | O => Panic
  | S fuel =>
      if height <? end_ then
        next ← expect (checked_u32 (height + BATCH_SIZE));
        let batch_end := next `min` end_ in
        d ← index_block_batch c height batch_end d;
        let batch_processed := batch_end - height in
        processed ← expect (checked_u32 (processed + batch_processed));
        let is_last := end_ <=? batch_end in
        let d :=
          if ((processed mod PROGRESS_SAVE_INTERVAL =? 0) || is_last || (processed =? batch_processed)) && negb is_last
          then save_state (HistoricalIndexing end_ batch_end) d else d in
        range_loop fuel c batch_end end_ processed d
      else Ok d
  end.

Definition index_block_range c (start end_ : Z) d : res IndexerError IndexerDatabase :=
  d ← range_loop (S (Z.to_nat (end_ - start))) c start end_ 0 d;
  Ok (save_state (Active (0 `max` (end_ - 1))) d).

Definition handle_index_gap c d : res IndexerError IndexerDatabase :=
  let best_number := ic_best c in
  match load_state d with
  | Some (HistoricalIndexing target_height current_height) => index_block_range c current_height target_height d
  | Some (Active last_indexed) =>
      if last_indexed <? best_number then
        start ← expect (checked_u32 (last_indexed + 1));
        end_ ← expect (checked_u32 (best_number + 1));
        index_block_range c start end_ d
      else Ok d
  | None =>
      if 0 <? best_number then
        end_ ← expect (checked_u32 (best_number + 1));
        index_block_range c 0 end_ (save_state (HistoricalIndexing end_ 0) d)
      else Ok (save_state (Active 0) d)
  end.

(** The loop at the start of [run]: each turn sees the client before, during and
    after it.  The height to go on from is returned when the loop ends. *)
Fixpoint catch_up (turns : list (IndexClient * IndexClient * IndexClient)) d
    : res IndexerError (IndexerDatabase * option Z) :=
  match turns with
  | [] => Ok (d, None)
  | (before, during, after) :: turns =>
      d ← handle_index_gap during d;
      if ic_best after =? ic_best before
      then Ok (d, Some match load_state d with Some (Active last_indexed) => last_indexed | _ => 0 end)
      else catch_up turns d
  end.

(** A notification: the height of the block, and the route of a change of the best
    chain: the heights of the blocks that were retracted, from the old best block
    down towards the common ancestor, and of those that replace them, upwards. *)
Record Notification := mk_notification {
  n_number : Z;
  tree_route : option (list Z * list Z);
}.

(** Errors of single blocks are logged. *)
Fixpoint index_enacted c (enacted : list Z) (last_indexed : Z) d : res IndexerError (IndexerDatabase * Z) :=
  match enacted with
  | [] => Ok (d, last_indexed)
  | height :: enacted =>
      match (block ← get_bitcoin_block_at_height c height; db_index_block network height block d) with
      | Ok d => index_enacted c enacted height d
      | Err _ => index_enacted c enacted last_indexed d
      | Panic => Panic
      end
  end.

Definition on_notification c (n : Notification) (last_indexed : Z) d : res IndexerError (IndexerDatabase * Z) :=
  match tree_route n with
  | Some (retracted, enacted) =>
      let '(d, last_indexed) :=
        match retracted with
        | first :: _ => let revert_to := 0 `max` (first - 1) in (revert_to_height revert_to d, revert_to)
        | [] => (d, last_indexed)
        end in
      '(d, last_indexed) ← index_enacted c enacted last_indexed d;
      Ok (save_state (Active last_indexed) d, last_indexed)
  | None =>
      match (block ← get_bitcoin_block_at_height c (n_number n); db_index_block network (n_number n) block d) with
      | Ok d => Ok (save_state (Active (n_number n)) d, n_number n)
      | Err _ => Ok (d, last_indexed)
      | Panic => Panic
      end
  end.
End indexer.

(** ** What is saved is loaded *)

(** No colon in a text. *)
Fixpoint no_colon (s : string) : bool :=
  match s with EmptyString => true | String c rest => negb (Ascii.eqb c ":") && no_colon rest end.

Lemma split_no_colon s : no_colon s = true -> split_colon s = [s].
Proof.
  induction s as [| c s IH]; cbn; [done |]. intros [Hc Hs]%andb_prop. rewrite IH by done. by destruct (Ascii.eqb c ":").
Qed.

Lemma split_two a b : no_colon a = true -> no_colon b = true -> split_colon (a +:+ (":" +:+ b)) = [a; b].
Proof.
  intros Ha Hb. induction a as [| c a IH].
  - change ("" +:+ (":" +:+ b)) with (String ":" b). cbn [split_colon]. by rewrite split_no_colon.
  - cbn in Ha. apply andb_prop in Ha as [Hc Ha]. change (String c a +:+ (":" +:+ b)) with (String c (a +:+ (":" +:+ b))).
    cbn [split_colon]. rewrite IH by done. by destruct (Ascii.eqb c ":").
Qed.

Lemma strip_prefix_app p s : strip_prefix p (p +:+ s) = Some s.
Proof.
  induction p as [| c p IH]; [done |]. change (String c p +:+ s) with (String c (p +:+ s)). cbn [strip_prefix].
  by rewrite Ascii.eqb_refl.
Qed.

Lemma uint_no_colon d : no_colon (NilEmpty.string_of_uint d) = true.
Proof. by induction d. Qed.

Lemma dec_no_colon z : no_colon (dec z) = true.
Proof. unfold dec, NilZero.string_of_uint. destruct (N.to_uint (Z.to_N z)) eqn:Hu; [done | apply uint_no_colon ..]. Qed.

Lemma parse_dec z : 0 <= z <= u32_max -> parse_u32 (dec z) = z.
Proof.
  intros Hz. unfold parse_u32, dec. set (d := N.to_uint (Z.to_N z)).
  assert (d <> Decimal.Nil) as Hnil by (unfold d; destruct (Z.to_N z); [done | apply DecimalPos.Unsigned.to_uint_nonnil]).
  assert (strip_plus (NilZero.string_of_uint d) = NilZero.string_of_uint d) as -> by (by destruct d).
  rewrite NilZero.usu by done. unfold d. rewrite Unsigned.of_to.
  rewrite Z2N.id by lia. by destruct (Z.leb_spec z u32_max); [| lia].
Qed.

(** Numbers that fit the state. *)
Definition state_ok (s : IndexerState) : Prop :=
  match s with
  | HistoricalIndexing t c => 0 <= t <= u32_max /\ 0 <= c <= u32_max
  | Active l => 0 <= l <= u32_max
  end.

Lemma load_save s d : state_ok s -> load_state (save_state s d) = Some s.
Proof.
  unfold load_state, save_state. cbn [set_state state_value]. destruct s as [t c | l]; cbn [state_ok state_text].
  - intros [Ht Hc]. rewrite strip_prefix_app, split_two by apply dec_no_colon. by rewrite !parse_dec.
  - intros Hl. change (strip_prefix "historical:" ("active:" +:+ dec l)) with (@None string).
    cbv iota. by rewrite strip_prefix_app, parse_dec.
Qed.
