(* ===== verification/IndexerRun.v ===== *)
(** * Theorems on the indexer

    Catching up gives the index of the whole chain, whatever the batches and the
    saved progress; new blocks and a change of the best block keep it so. *)

From Stdlib Require Import ZArith Lia String Ascii.
From stdpp Require Import prelude gmap strings sorting.
From S2P Require Import Prelude ScriptTypes Stack CheckSig Sample Bitcoin Client HeaderVerify Collections OrphanPool IndexerDb IndexerQuery IndexerFacts IndexerChain.
From S2P Require Import IndexerSpec Indexer.

(** ** Reading blocks *)

Lemma blocks_from_app c h n m :
  blocks_from c h (n + m) = (l ← blocks_from c h n; l' ← blocks_from c (h + Z.of_nat n) m; Ok (l ++ l')).
Proof.
  revert h. induction n as [| n IH]; intros h; cbn [blocks_from Nat.add].
  - cbn [mbind res_bind]. rewrite Z.add_0_r. by destruct (blocks_from c h m).
  - destruct (get_bitcoin_block_at_height c h) as [b | |]; cbn [mbind res_bind]; [| done ..].
    rewrite IH, Nat2Z.inj_succ, <- Z.add_1_l, (Z.add_assoc h 1). destruct (blocks_from c (h + 1) n) as [l | |]; cbn [mbind res_bind]; [| done ..].
    by destruct (blocks_from c _ m).
Qed.

Lemma blocks_from_heights c h n (l : list (Z * Block)) :
  blocks_from c h n = Ok l -> length l = n /\ forall i, (i < n)%nat -> (l.*1) !! i = Some (h + Z.of_nat i).
Proof.
  revert h l. induction n as [| n IH]; intros h l; cbn [blocks_from]; [intros [= <-]; split; [done | lia] |].
  intros (b & _ & (rest & Hrest & [= <-])%bind_Ok)%bind_Ok. destruct (IH _ _ Hrest) as [Hlen Hi]. split; [cbn; lia |].
  intros [| i] Hlt; cbn; [f_equal; lia |]. rewrite Hi by lia. f_equal. lia.
Qed.

(** The index of blocks, and its state. *)
Lemma set_state_twice v v' d : set_state v (set_state v' d) = set_state v d.
Proof. done. Qed.

Lemma set_state_same d : set_state (state_value d) d = d.
Proof. by destruct d. Qed.

Section run.
Context `{!AddressApi, !HashApi, !TxApi, !TxidLaws, !ChainApi, !HashOrder, !HashOrderLaws}.
Context (network : Network).
Implicit Types (c : IndexClient) (d : IndexerDatabase).

(** Indexing neither reads nor writes the saved state. *)
Lemma batch_state v bs d :
  index_blocks_batch network bs (set_state v d) = (d' ← index_blocks_batch network bs d; Ok (set_state v d')).
Proof.
  unfold index_blocks_batch. destruct bs as [| hb bs]; [done |].
  change (fetch_outputs (set_state v d)) with (fetch_outputs d).
  destruct (fetch_outputs d _) as [cache | |]; cbn [mbind res_bind]; [| done ..]. by destruct (process_blocks _ _ _ _).
Qed.

Lemma batches_state v batches d :
  index_batches network batches (set_state v d) = (d' ← index_batches network batches d; Ok (set_state v d')).
Proof.
  unfold index_batches. revert d. induction batches as [| bs batches IH]; intros d; cbn [rfold]; [done |].
  rewrite batch_state. destruct (index_blocks_batch network bs d); cbn [mbind res_bind]; [apply IH | done ..].
Qed.

(** The loop over a range indexes its blocks in batches; only the saved state is
    beside that. *)
Lemma range_loop_batches fuel c h end_ processed bs :
  (Z.to_nat (end_ - h) < fuel)%nat -> blocks_from c h (Z.to_nat (end_ - h)) = Ok bs ->
  0 <= processed -> 0 <= h -> processed + (end_ - h) <= u32_max -> end_ + BATCH_SIZE <= u32_max ->
  exists batches, concat batches = bs /\ forall d,
    (d' ← range_loop network fuel c h end_ processed d; Ok (set_state None d')) =
    index_batches network batches (set_state None d).
Proof.
  revert h processed bs. induction fuel as [| fuel IH]; intros h processed bs Hf Hbs Hp Hh Hpe He; [lia |]. cbn [range_loop].
  destruct (Z.ltb_spec h end_) as [Hlt |].
  2: { replace (Z.to_nat (end_ - h)) with 0%nat in Hbs by lia. injection Hbs as <-. exists []. done. }
  unfold BATCH_SIZE in *. set (e := (h + 100) `min` end_).
  assert (Z.to_nat (end_ - h) = Z.to_nat (e - h) + Z.to_nat (end_ - e))%nat as Hsplit by lia.
  rewrite Hsplit, blocks_from_app in Hbs. apply bind_Ok in Hbs as (l1 & Hl1 & (l2 & Hl2 & [= <-])%bind_Ok).
  replace (h + Z.of_nat (Z.to_nat (e - h))) with e in Hl2 by lia.
  destruct (IH e (processed + (e - h)) l2) as (batches & Hcat & Hrun); [lia | done | lia | lia | lia | lia |].
  exists (l1 :: batches). split; [cbn; by rewrite Hcat |]. intros d.
  rewrite checked_u32_Ok by (unfold is_u32; lia). cbn [mbind res_bind]. fold e. unfold index_block_batch. rewrite Hl1. unfold index_batches in *. cbn [mbind res_bind rfold]. rewrite batch_state.
  destruct (index_blocks_batch network l1 d) as [d1 | |]; cbn [mbind res_bind]; [| done ..].
  rewrite checked_u32_Ok by (unfold is_u32; lia). cbn [mbind res_bind]. rewrite Hrun. by destruct (_ && _).
Qed.

Lemma index_block_range_batches c h end_ bs :
  blocks_from c h (Z.to_nat (end_ - h)) = Ok bs -> 0 <= h -> 1 <= end_ -> end_ + BATCH_SIZE <= u32_max ->
  exists batches, concat batches = bs /\ forall d,
    index_block_range network c h end_ d =
    (d' ← index_batches network batches (set_state None d); Ok (save_state (Active (end_ - 1)) d')).
Proof.
  intros Hbs Hh He1 He. destruct (range_loop_batches (S (Z.to_nat (end_ - h))) c h end_ 0 bs) as (batches & Hcat & Hrun);
    [lia | done | lia | lia | unfold BATCH_SIZE in *; lia | done |].
  exists batches. split; [done |]. intros d. unfold index_block_range. rewrite <- Hrun.
  destruct (range_loop _ _ _ _ _ _ _) as [d1 | |]; cbn [mbind res_bind]; [| done ..].
  unfold save_state. rewrite set_state_twice. by replace (0 `max` (end_ - 1)) with (end_ - 1) by lia.
Qed.
(** ** The whole chain *)

(** The database holds the index of a chain, and its state says up to where. *)
Definition indexed (chain : list (Z * Block)) (last : Z) (d : IndexerDatabase) : Prop :=
  exists d0, ref_blocks network chain empty_db = Ok d0 /\ d = save_state (Active last) d0.

Lemma ref_blocks_app chain more d :
  ref_blocks network (chain ++ more) d = (d' ← ref_blocks network chain d; ref_blocks network more d').
Proof. apply rfold_app. Qed.

Lemma ref_state chain d : valid_chain chain -> ref_blocks network chain empty_db = Ok d -> set_state None d = d.
Proof.
  intros Hvc Hrun. pose proof (batches_state None [chain] empty_db) as Hs. change (set_state None empty_db) with empty_db in Hs.
  assert (index_batches network [chain] empty_db = Ok d) as Hi by (apply index_batches_ref; cbn; by rewrite app_nil_r).
  rewrite Hi in Hs. cbn in Hs. congruence.
Qed.

(** Batches on top of an index, with any state. *)
Lemma extend_indexed chain batches v d d' :
  valid_chain (chain ++ concat batches) -> ref_blocks network chain empty_db = Ok d ->
  index_batches network batches (set_state v d) = Ok d' <->
  exists d0, ref_blocks network (chain ++ concat batches) empty_db = Ok d0 /\ d' = set_state v d0.
Proof.
  intros Hvc Hrun. rewrite batches_state, bind_Ok, ref_blocks_app, Hrun. cbn [mbind res_bind].
  split; intros (d0 & Hd0 & Heq); exists d0; (split; [by apply (extend_batches network chain) | congruence]).
Qed.
(** A range on top of an index. *)
Lemma range_indexed c chain more v d d' last best :
  blocks_from c (last + 1) (Z.to_nat (best - last)) = Ok more -> -1 <= last -> 0 <= best -> best + 1 + BATCH_SIZE <= u32_max ->
  valid_chain (chain ++ more) -> ref_blocks network chain empty_db = Ok d ->
  index_block_range network c (last + 1) (best + 1) (set_state v d) = Ok d' <-> indexed (chain ++ more) best d'.
Proof.
  intros Hmore Hlast Hbest Hmax Hvc Hrun.
  destruct (index_block_range_batches c (last + 1) (best + 1) more) as (batches & Hcat & Heq); [| lia | lia | done |].
  { by replace (best + 1 - (last + 1)) with (best - last) by lia. }
  rewrite Heq, set_state_twice, bind_Ok. setoid_rewrite (extend_indexed chain batches None d); [| by rewrite Hcat | done].
  rewrite Hcat. replace (best + 1 - 1) with best by lia. unfold indexed, save_state.
  split; [intros (? & (d0 & Hd0 & ->) & [= <-]) | intros (d0 & Hd0 & ->)]; [by exists d0 |].
  exists (set_state None d0). split; [by exists d0 | done].
Qed.


(** ** New blocks *)

Lemma index_enacted_batches c enacted top d d' :
  Forall (fun hb => get_bitcoin_block_at_height c hb.1 = Ok hb.2) enacted ->
  index_batches network (map (fun hb => [hb]) enacted) d = Ok d' ->
  index_enacted network c (map fst enacted) top d = Ok (d', default top (last (map fst enacted))).
Proof.
  intros Hc. revert top d. induction Hc as [| [h b] enacted Hb Hc IH]; intros l d; cbn [map index_batches rfold]; [by intros [= ->] |].
  intros (d1 & Hd1 & Hrest)%bind_Ok. cbn [index_enacted fst]. cbn in Hb. rewrite Hb. cbn [mbind res_bind].
  unfold db_index_block. rewrite Hd1. rewrite (IH h d1 Hrest), last_cons. by destruct (last _).
Qed.

Lemma concat_singletons {A} (l : list A) : concat (map (fun x => [x]) l) = l.
Proof. induction l as [| x l IH]; cbn; congruence. Qed.
(** The blocks of a notification: one new block, or a route to a new best block. *)
Definition notifies (n : Notification) (retracted enacted : list (Z * Block)) : Prop :=
  match tree_route n with
  | None => retracted = [] /\ exists b, enacted = [(n_number n, b)]
  | Some route => route = (rev (map fst retracted), map fst enacted)
  end.

Lemma enacted_indexed c common enacted v top d d1 :
  valid_chain (common ++ enacted) -> Forall (fun hb => get_bitcoin_block_at_height c hb.1 = Ok hb.2) enacted ->
  ref_blocks network common empty_db = Ok d -> ref_blocks network (common ++ enacted) empty_db = Ok d1 ->
  index_enacted network c (map fst enacted) top (set_state v d) = Ok (set_state v d1, default top (last (map fst enacted))).
Proof.
  intros Hvc Hc Hd Hd1. apply index_enacted_batches; [done |].
  apply (extend_indexed common); rewrite ?concat_singletons; [done | done |]. by exists d1.
Qed.

(** C33: live indexing: when the database holds the index of the old best chain, and
    a block is imported on top of it, or a route replaces at most its last block
    by others, then the database holds the index of the new best chain after the
    notification, and the state is its height. *)
Theorem notification_spec (c : IndexClient) (n : Notification) (common retracted enacted : list (Z * Block))
    (top : Z) (d d1 : IndexerDatabase) :
  notifies n retracted enacted -> (length retracted <= 1)%nat -> enacted <> [] -> Forall (fun hb => 0 < hb.1) retracted ->
  Forall (fun hb => get_bitcoin_block_at_height c hb.1 = Ok hb.2) enacted ->
  valid_chain (common ++ retracted) -> valid_chain (common ++ enacted) ->
  indexed (common ++ retracted) top d -> ref_blocks network (common ++ enacted) empty_db = Ok d1 ->
  let height := default 0 (last (map fst enacted)) in
  on_notification network c n top d = Ok (save_state (Active height) d1, height).
Proof.
  intros Hn Hlen Hne Hpos Hc Hvr Hve (d0 & Hd0 & ->) Hd1 height. unfold notifies in Hn. unfold on_notification.
  rewrite ref_blocks_app in Hd0. apply bind_Ok in Hd0 as (dc & Hdc & Hd0).
  assert (forall t, default t (last (map fst enacted)) = height) as Hh.
  { intros t. unfold height. destruct (last (map fst enacted)) eqn:Hl; [done |]. apply last_None in Hl. by destruct enacted. }
  destruct (tree_route n) as [route |].
  - subst route. destruct retracted as [| [r b] [| ? ?]]; [| | cbn in Hlen; lia]; cbn [map rev app fst].
    + injection Hd0 as ->. change (save_state (Active top) d0) with (set_state (Some (state_text (Active top))) d0).
      rewrite (enacted_indexed c common enacted _ top d0 d1) by done.
      cbn [mbind res_bind]. by rewrite Hh.
    + rewrite Forall_singleton in Hpos. cbn in Hpos.
      assert (revert_to_height (0 `max` (r - 1)) d0 = dc) as Hrev.
      { pose proof (valid_chain_app _ _ Hvr) as (_ & _ & Hlt & _).
        apply (revert_blocks network common [(r, b)]); [done | | constructor; [cbn; lia | constructor] | done | done].
        apply Forall_forall. intros x Hx. specialize (Hlt x r Hx ltac:(cbn; set_solver)). lia. }
      change (revert_to_height (0 `max` (r - 1)) (save_state (Active top) d0))
        with (set_state (Some (state_text (Active top))) (revert_to_height (0 `max` (r - 1)) d0)).
      rewrite Hrev, (enacted_indexed c common enacted _ _ dc d1) by done. cbn [mbind res_bind]. by rewrite Hh.
  - destruct Hn as [-> [b ->]]. injection Hd0 as ->. rewrite Forall_singleton in Hc. cbn in Hc. rewrite Hc. cbn [mbind res_bind].
    assert (index_batches network [[(n_number n, b)]] (save_state (Active top) d0) = Ok (save_state (Active top) d1)) as Hi.
    { apply (extend_indexed common); [done | done |]. by exists d1. }
    unfold index_batches in Hi. cbn [rfold] in Hi. apply bind_Ok in Hi as (d2 & Hi & [= ->]). unfold db_index_block. by rewrite Hi.
Qed.
End run.

(** ** Examples of the indexer

    A small chain, on which the theorems of the indexer are applied and its
    deviations are seen. *)

(** Transactions are identified by their lock time; a script of one byte pays to the
    address with that letter. *)
Module SampleIndex.
Import SampleOrder SampleBlocks(chain_api).

Definition txid (n : Z) : bytes := n :: replicate 31 0.

Definition index_tx_api : TxApi := {|
  compute_txid tx := txid (tx_lock_time tx);
  base_size _ := 0;
  count_sigops_legacy _ := 0;
  total_sigop_cost _ _ := 0;
  lock_time_from_consensus n := AbsBlocks n;
  height_from_consensus := Some;
  time_from_consensus _ := None;
|}.
#[export] Existing Instance index_tx_api.
#[export] Existing Instances chain_api Sample.hash_api hash_order hash_order_laws.

#[export] Instance index_txid_laws : TxidLaws.
Proof. split. intros tx. reflexivity. Qed.

#[export] Instance address_api : AddressApi := {|
  address_from_script _ s := match s with [b] => Some (String (ascii_of_N (Z.to_N b)) EmptyString) | _ => None end;
  address_p2pkh _ _ := "key"%string;
  compressed_pubkey_hash _ := None;
|}.

Definition pay (v a : Z) : TxOut := mk_txout v [a].
Definition spend (n i : Z) : TxIn := mk_txin (mk_outpoint (txid n) i) [] 0 [].
Definition coinbase (n : Z) (out : TxOut) : Transaction := mk_tx 1 n [mk_txin null_outpoint [] 0 []] [out].
Definition block (n : Z) (txs : list Transaction) : Block := mk_block (mk_header 1 [0] [] (1000 + n) 0 n) txs.

(** Alice is 65, Bob 66 and Carol 67. *)
Definition b0 := block 0 [coinbase 100 (pay 50 65)].
Definition b1 := block 1 [coinbase 101 (pay 50 66); mk_tx 1 201 [spend 100 0] [pay 30 66; pay 20 67]].
Definition b2 := block 2 [coinbase 102 (pay 50 65); mk_tx 1 202 [spend 201 0] [pay 10 65; mk_txout 20 [1; 2]]].
Definition b3 := block 3 [coinbase 103 (pay 50 67); mk_tx 1 203 [spend 202 1] [pay 20 67]].
(** Another branch from the first block on. *)
Definition b1' := block 11 [coinbase 111 (pay 50 67)].
Definition b2' := block 12 [coinbase 112 (pay 50 67)].
Definition b3' := block 13 [coinbase 113 (pay 50 67)].

Definition chain : list (Z * Block) := [(0, b0); (1, b1); (2, b2); (3, b3)].

(** A client whose best chain is a list of blocks. *)
Definition client (bs : list Block) : IndexClient :=
  mk_index_client (Z.of_nat (length bs) - 1)
    (fun h => inr (if bool_decide (0 <= h < Z.of_nat (length bs)) then Some [h] else None))
    (fun hash => match hash with
                 | [h] => inr (inr <$> bs !! Z.to_nat h)
                 | _ => inr None
                 end).

(** The index of blocks from the first one on, one by one. *)
Definition index_of (bs : list (Z * Block)) : IndexerDatabase := from_ok empty_db (ref_blocks Mainnet bs empty_db).
Definition all : IndexClient := client [b0; b1; b2; b3].
Definition up_to_1 : IndexerDatabase := save_state (Active 1) (index_of (take 2 chain)).
Definition up_to_2 : IndexerDatabase := save_state (Active 2) (index_of (take 3 chain)).

Ltac sample_chain := split; [repeat (constructor; cbn; try lia) | refine (bool_decide_unpack _ _); vm_compute; exact I .. |
  cbn; repeat (apply Forall_cons; split; [split; [repeat (apply Forall_cons; split; [unfold amount_ok, i64_max; cbn; lia |]);
    apply Forall_nil_2 | unfold u32_max; cbn; lia] |]); apply Forall_nil_2].

Lemma chain_valid : valid_chain chain.
Proof. sample_chain. Qed.

Lemma fork_valid : valid_chain [(0, b0); (1, b1); (2, b2'); (3, b3')].
Proof. sample_chain. Qed.
End SampleIndex.

Module IndexerWitness.
Import SampleIndex.


(** The second block of the chain is replaced by two others. *)
Lemma notification_spec_witness :
  on_notification Mainnet (client [b0; b1; b2'; b3']) (mk_notification 3 (Some ([2], [2; 3]))) 2 up_to_2 =
    Ok (save_state (Active 3) (index_of [(0, b0); (1, b1); (2, b2'); (3, b3')]), 3).
Proof.
  apply (notification_spec Mainnet _ _ [(0, b0); (1, b1)] [(2, b2)] [(2, b2'); (3, b3')]).
  - reflexivity.
  - cbn; lia.
  - discriminate.
  - constructor; [cbn; lia | constructor].
  - repeat constructor.
  - apply (valid_chain_app (take 3 chain) [(3, b3)] chain_valid).
  - exact fork_valid.
  - exists (index_of (take 3 chain)). split; [apply from_ok_eq; vm_compute; reflexivity | reflexivity].
  - apply from_ok_eq. vm_compute. reflexivity.
Defined.

Lemma index_revert_witness :
  revert_to_height 1 (from_ok empty_db (index_batches Mainnet [[(2, b2); (3, b3)]]
    (from_ok empty_db (index_batches Mainnet [[(0, b0)]; [(1, b1)]] empty_db)))) =
  from_ok empty_db (index_batches Mainnet [[(0, b0)]; [(1, b1)]] empty_db).
Proof.
  apply (index_revert Mainnet [[(0, b0)]; [(1, b1)]] [[(2, b2); (3, b3)]] 1).
  - exact chain_valid.
  - repeat (constructor; cbn; [lia |]); constructor.
  - repeat (constructor; cbn; [lia |]); constructor.
  - apply from_ok_eq. vm_compute. reflexivity.
  - apply from_ok_eq. vm_compute. reflexivity.
Defined.

End IndexerWitness.

(** ** Deviations *)

Module IndexerDeviations.
Import SampleIndex.

(** Interrupted indexing goes on to its old target only: a chain that has grown
    meanwhile, from 2 to 4 blocks, is taken for indexed, and after the next block
    the blocks in between are missing for good. *)
Lemma resume_gap :
  let d := save_state (HistoricalIndexing 2 1) (index_of (take 1 chain)) in
  exists d1 d2,
    catch_up Mainnet [(all, all, all)] d = Ok (d1, Some 1) /\
    on_notification Mainnet (client [b0; b1; b2; b3; b3']) (mk_notification 4 None) 1 d1 = Ok (d2, 4) /\
    load_state d2 = Some (Active 4) /\ blocks d2 !! 2 = None /\ blocks d2 !! 3 = None /\ is_Some (blocks d2 !! 4).
Proof.
  set (d := save_state _ _). set (d1 := from_ok (empty_db, None) (catch_up Mainnet [(all, all, all)] d)).
  set (d2 := from_ok (empty_db, 0) (on_notification Mainnet (client [b0; b1; b2; b3; b3']) (mk_notification 4 None) 1 d1.1)).
  exists d1.1, d2.1. split_and!; vm_compute; [reflexivity .. | eexists; reflexivity].
Qed.

(** The route of a change of the best chain lists the old best block first: of two
    retracted blocks only the upper one is reverted, and a transaction of the lower
    one stays in the index, with its outputs. *)
Lemma deep_reorg_stale :
  exists d,
    on_notification Mainnet (client [b0; b1'; b2'; b3']) (mk_notification 3 (Some ([2; 1], [1; 2; 3]))) 2 up_to_2 = Ok (d, 3) /\
    get_tx_position (txid 201) d = Some (mk_position 1 1) /\
    (exists balance, get_address_balance "B" d = Ok balance /\ confirmed balance = 80).
Proof.
  set (r := from_ok (empty_db, 0) (on_notification Mainnet (client [b0; b1'; b2'; b3']) (mk_notification 3 (Some ([2; 1], [1; 2; 3]))) 2 up_to_2)).
  exists r.1. split_and!; [vm_compute; reflexivity .. |].
  exists (from_ok (mk_balance 0 0 0 0 0) (get_address_balance "B" r.1)). split; [apply from_ok_eq |]; vm_compute; reflexivity.
Qed.

(** A block of a side branch at height 1 is imported: the block of the best chain at
    that height is indexed again, its outputs count as unspent from then on, and
    the state falls back. *)
Lemma side_block_unspends :
  exists d balance,
    on_notification Mainnet (client [b0; b1; b2]) (mk_notification 1 None) 2 up_to_2 = Ok (d, 1) /\
    get_address_balance "B" up_to_2 = Ok (mk_balance 50 3 1 80 30) /\
    get_address_balance "B" d = Ok balance /\ confirmed balance = 80 /\ total_sent balance = 0.
Proof.
  set (r := from_ok (empty_db, 0) (on_notification Mainnet (client [b0; b1; b2]) (mk_notification 1 None) 2 up_to_2)).
  exists r.1, (from_ok (mk_balance 0 0 0 0 0) (get_address_balance "B" r.1)).
  split_and!; [vm_compute; reflexivity | vm_compute; reflexivity | apply from_ok_eq; vm_compute; reflexivity | vm_compute; reflexivity ..].
Qed.

(** An output without an address is reported as unspent though it was spent. *)
Lemma no_address_never_spent :
  get_output_status (txid 202) 1 (index_of chain) = Ok (Some (mk_status false None None None)) /\
  (exists tx, tx ∈ txdata b3 /\ map previous_output (tx_input tx) = [mk_outpoint (txid 202) 1]).
Proof.
  split; [vm_compute; reflexivity |]. exists (mk_tx 1 203 [spend 202 1] [pay 20 67]).
  split; [right; left | reflexivity].
Qed.

(** Without blocks the last height is an error, not absent. *)
Lemma last_block_height_empty : last_block_height empty_db = Err DatabaseError.
Proof. reflexivity. Qed.

(** A node without blocks beyond the first one never indexes that one. *)
Lemma genesis_not_indexed :
  exists d, handle_index_gap Mainnet (client [b0]) empty_db = Ok d /\ load_state d = Some (Active 0) /\ blocks d = ∅.
Proof. eexists. split_and!; reflexivity. Qed.
End IndexerDeviations.
