(* ===== verification/Executive.v ===== *)
(** * The executive ([crates/pallet-executive/src/lib.rs])

    The orchestration of the runtime: a block is initialised, its extrinsics are
    applied in order, the hooks of the pallets run and the resulting header is
    compared.  FRAME's system pallet, the hooks of the pallets, the migrations and
    the extrinsics themselves are parameters. *)

From Stdlib Require Import ZArith Lia.
From stdpp Require Import prelude.
From S2P Require Import Prelude.

(** ** Computations of the runtime *)

(** A panic ends the call, and its changes are lost. *)
Definition runtime_op (St A : Type) : Type := St -> res Empty_set (A * St).

#[export] Instance op_ret {St} : MRet (runtime_op St) := fun A a s => Ok (a, s).
#[export] Instance op_bind {St} : MBind (runtime_op St) := fun A B f m s =>
  match m s with
  | Ok (a, s) => f a s
  | Err e => Err e
  | Panic => Panic
  end.

Definition reads {St A} (f : St -> A) : runtime_op St A := fun s => Ok (f s, s).
Definition writes {St} (f : St -> St) : runtime_op St unit := fun s => Ok (tt, f s).
(** [assert!]. *)
Definition asserts {St} (b : bool) : runtime_op St unit := fun s => if b then Ok (tt, s) else Panic.

(** ** Data *)

Inductive DispatchClass := ClassNormal | ClassOperational | ClassMandatory.
#[export] Instance dispatch_class_eq_dec : EqDecision DispatchClass.
Proof. solve_decision. Defined.

Inductive ExtrinsicInclusionMode := AllExtrinsics | OnlyInherents.
#[export] Instance inclusion_mode_eq_dec : EqDecision ExtrinsicInclusionMode.
Proof. solve_decision. Defined.

Inductive DigestItem := PreRuntime (engine data : bytes) | OtherItem (data : bytes).
#[export] Instance digest_item_eq_dec : EqDecision DigestItem.
Proof. solve_decision. Defined.

(** [DigestItem::as_pre_runtime], [is_some]. *)
Definition as_pre_runtime (d : DigestItem) : bool := match d with PreRuntime _ _ => true | OtherItem _ => false end.

(** The header of a block of the runtime. *)
Record RtHeader := mk_rt_header {
  rh_number : Z;
  rh_parent_hash : bytes;
  rh_state_root : bytes;
  rh_extrinsics_root : bytes;
  rh_digest : list DigestItem;
}.

Inductive TransactionSource := InBlock | LocalSource | ExternalSource.

(** [TransactionValidityError], as far as the executive makes it. *)
Inductive ValidityError :=
| InvalidCall
| BadMandatory
| MandatoryValidation
| OtherValidity (code : Z).

Inductive ExecutiveError :=
| UnableToDecodeExtrinsic
| InvalidInherentPosition (index : nat)
| OnlyInherentsAllowed
| ApplyExtrinsic (e : ValidityError).

(** ** The parameters *)

(** The types of a runtime: its state, extrinsics as decoded and as checked, what is
    known of a call before and after it ran, weights and versions. *)
Class RuntimeTypes := {
  St : Type;
  Extrinsic : Type;
  Checked : Type;
  DispatchInfo : Type;
  PostInfo : Type;
  DispatchError : Type;
  Weight : Type;
  RuntimeVersion : Type;
  Validity : Type;
}.

Class FrameRuntime `{!RuntimeTypes} := {
  (** Weights. *)
  zero_weight : Weight;
  weight_add : Weight -> Weight -> Weight;
  weight_sub : Weight -> Weight -> Weight;
  all_gt : Weight -> Weight -> bool;
  base_block : Weight;
  max_block : Weight;
  (** [frame_system::Pallet]. *)
  block_number : St -> Z;
  block_hash : Z -> St -> bytes;
  inherents_were_applied : St -> bool;
  block_weight : St -> Weight;
  last_runtime_upgrade : St -> option RuntimeVersion;
  was_upgraded : RuntimeVersion -> bool;
  put_last_runtime_upgrade : St -> St;
  reset_events : St -> St;
  initialize : Z -> bytes -> list DigestItem -> St -> St;
  register_extra_weight_unchecked : Weight -> DispatchClass -> St -> St;
  note_finished_initialize : St -> St;
  note_inherents_applied : St -> St;
  note_extrinsic : bytes -> St -> St;
  note_applied_extrinsic : DispatchError + PostInfo -> DispatchInfo -> St -> St;
  note_finished_extrinsics : St -> St;
  finalize : runtime_op St RtHeader;
  insert_block_hash : Z -> bytes -> St -> St;
  header_hash : RtHeader -> bytes;
  (** The hooks of the pallets and of the configuration. *)
  before_all_runtime_migrations : runtime_op St Weight;
  on_runtime_upgrade : runtime_op St Weight;
  on_initialize : Z -> runtime_op St Weight;
  on_idle : Z -> Weight -> runtime_op St Weight;
  (** The weight that was consumed, of a limit. *)
  on_poll : Z -> Weight -> runtime_op St Weight;
  on_finalize : Z -> runtime_op St unit;
  run_offchain_worker : Z -> runtime_op St unit;
  pre_inherents : runtime_op St unit;
  post_inherents : runtime_op St unit;
  post_transactions : runtime_op St unit;
  (** [MultiBlockMigrator]. *)
  ongoing : St -> bool;
  step : runtime_op St Weight;
  (** Extrinsics. *)
  is_inherent : Extrinsic -> bool;
  encode : Extrinsic -> bytes;
  decode_with_depth_limit : bytes -> option Extrinsic;
  check : Extrinsic -> St -> ValidityError + Checked;
  get_dispatch_info : Checked -> DispatchInfo;
  class_of : DispatchInfo -> DispatchClass;
  apply_checked : Checked -> DispatchInfo -> Z -> runtime_op St (ValidityError + (DispatchError + PostInfo));
  validate : TransactionSource -> Checked -> DispatchInfo -> Z -> runtime_op St (ValidityError + Validity);
}.

(** ** The executive *)

Section executive.
Context `{!RuntimeTypes, !FrameRuntime}.
Abbreviation op := (runtime_op St).

Definition execute_on_runtime_upgrade : op Weight :=
  before_all_weight ← before_all_runtime_migrations;
  runtime_upgrade_weight ← on_runtime_upgrade;
  mret (weight_add before_all_weight runtime_upgrade_weight).

Definition extrinsic_mode : op ExtrinsicInclusionMode :=
  migrating ← reads ongoing;
  mret (if migrating : bool then OnlyInherents else AllExtrinsics).

Definition extract_pre_digest (header : RtHeader) : list DigestItem :=
  filter (fun d => as_pre_runtime d = true) (rh_digest header).

Definition runtime_upgraded (s : St) : bool :=
  match last_runtime_upgrade s with Some v => was_upgraded v | None => true end.

(** The start of [initialize_block_impl]. *)
Definition upgrade_runtime : op Weight :=
  upgraded ← reads runtime_upgraded;
  if upgraded : bool then
    w ← execute_on_runtime_upgrade;
    _ ← writes put_last_runtime_upgrade;
    mret (weight_add zero_weight w)
  else mret zero_weight.

Definition initialize_block_impl (n : Z) (parent_hash : bytes) (digest : list DigestItem) : op unit :=
  _ ← writes reset_events;
  weight ← upgrade_runtime;
  _ ← writes (initialize n parent_hash digest);
  w ← on_initialize n;
  let weight := weight_add (weight_add weight w) base_block in
  _ ← writes (register_extra_weight_unchecked weight ClassMandatory);
  _ ← writes note_finished_initialize;
  pre_inherents.

Definition initialize_block (header : RtHeader) : op ExtrinsicInclusionMode :=
  _ ← initialize_block_impl (rh_number header) (rh_parent_hash header) (extract_pre_digest header);
  extrinsic_mode.

Definition initial_checks (header : RtHeader) : op unit :=
  parent ← reads (block_hash (rh_number header - 1));
  asserts ((0 <? rh_number header) && bool_decide (parent = rh_parent_hash header)).

(** [on_poll] is reached only without migrations. *)
Definition on_poll_hook (n : Z) : op unit :=
  weight ← reads block_weight;
  let remaining := weight_sub max_block weight in
  if all_gt remaining zero_weight then
    consumed ← on_poll n remaining;
    writes (register_extra_weight_unchecked consumed ClassMandatory)
  else mret tt.

Definition inherents_applied : op unit :=
  _ ← writes note_inherents_applied;
  _ ← post_inherents;
  migrating ← reads ongoing;
  if migrating : bool then
    used_weight ← step;
    writes (register_extra_weight_unchecked used_weight ClassMandatory)
  else
    n ← reads block_number;
    on_poll_hook n.

Definition on_idle_hook (n : Z) : op unit :=
  migrating ← reads ongoing;
  if migrating : bool then mret tt
  else
    weight ← reads block_weight;
    let remaining_weight := weight_sub max_block weight in
    if all_gt remaining_weight zero_weight then
      used_weight ← on_idle n remaining_weight;
      writes (register_extra_weight_unchecked used_weight ClassMandatory)
    else mret tt.

Definition on_finalize_hook (n : Z) : op unit := on_finalize n.

(** The transition after the inherents, if nothing triggered it yet. *)
Definition ensure_inherents_applied : op unit :=
  applied ← reads inherents_were_applied;
  if applied : bool then mret tt else inherents_applied.

(** An extrinsic that is invalid is reported; a call that failed is noted. *)
Definition do_apply_extrinsic (uxt : Extrinsic) (inherent : bool) : op (ValidityError + (DispatchError + unit)) :=
  let encoded := encode uxt in
  match decode_with_depth_limit encoded with
  | None => mret (inl InvalidCall)
  | Some uxt =>
      checked ← reads (check uxt);
      match checked : ValidityError + Checked with
      | inl e => mret (inl e)
      | inr xt =>
          let dispatch_info := get_dispatch_info xt in
          _ ← (if negb inherent then ensure_inherents_applied else mret tt);
          _ ← writes (note_extrinsic encoded);
          applied ← apply_checked xt dispatch_info (Z.of_nat (length encoded));
          match applied : ValidityError + (DispatchError + PostInfo) with
          | inl e => mret (inl e)
          | inr r =>
              match r, class_of dispatch_info with
              | inl _, ClassMandatory => mret (inl BadMandatory)
              | _, _ =>
                  _ ← writes (note_applied_extrinsic r dispatch_info);
                  mret (inr match r with inl e => inl e | inr _ => inr tt end)
              end
          end
      end
  end.

Definition apply_extrinsic (uxt : Extrinsic) : op (ValidityError + (DispatchError + unit)) :=
  do_apply_extrinsic uxt (is_inherent uxt).

(** [apply_extrinsics]; an extrinsic may not decode. *)
Fixpoint apply_extrinsics (mode : ExtrinsicInclusionMode) (idx first_non_inherent_idx : nat)
    (extrinsics : list (option Extrinsic)) : op (ExecutiveError + unit) :=
  match extrinsics with
  | [] => mret (inr tt)
  | None :: _ => mret (inl UnableToDecodeExtrinsic)
  | Some uxt :: extrinsics =>
      let inherent := is_inherent uxt in
      if inherent && negb (first_non_inherent_idx =? idx)%nat then mret (inl (InvalidInherentPosition idx))
      else if negb inherent && bool_decide (mode = OnlyInherents) then mret (inl OnlyInherentsAllowed)
      else
        r ← do_apply_extrinsic uxt inherent;
        match r : ValidityError + (DispatchError + unit) with
        | inl e => mret (inl (ApplyExtrinsic e))
        | inr _ =>
            apply_extrinsics mode (S idx) (if inherent then S first_non_inherent_idx else first_non_inherent_idx) extrinsics
        end
  end.

Definition final_checks (header : RtHeader) (check_state_root check_extrinsics_root : bool) : op unit :=
  new_header ← finalize;
  _ ← asserts (length (rh_digest header) =? length (rh_digest new_header))%nat;
  _ ← asserts (forallb (fun '(header_item, computed_item) => bool_decide (header_item = computed_item))
                 (zip (rh_digest header) (rh_digest new_header)));
  _ ← asserts (negb check_state_root || bool_decide (rh_state_root header = rh_state_root new_header));
  asserts (negb check_extrinsics_root || bool_decide (rh_extrinsics_root header = rh_extrinsics_root new_header)).

Definition execute_block_inner (header : RtHeader) (extrinsics : list (option Extrinsic)) (state_root_check : bool) : op unit :=
  mode ← initialize_block header;
  _ ← initial_checks header;
  r ← apply_extrinsics mode 0 0 extrinsics;
  _ ← asserts (match r : ExecutiveError + unit with inl _ => false | inr _ => true end);
  _ ← ensure_inherents_applied;
  _ ← writes note_finished_extrinsics;
  _ ← post_transactions;
  _ ← on_idle_hook (rh_number header);
  _ ← on_finalize_hook (rh_number header);
  final_checks header state_root_check true.

Definition execute_block (header : RtHeader) (extrinsics : list (option Extrinsic)) : op unit :=
  execute_block_inner header extrinsics true.

Definition execute_block_without_state_root_check (header : RtHeader) (extrinsics : list (option Extrinsic)) : op unit :=
  execute_block_inner header extrinsics false.

Definition finalize_block : op RtHeader :=
  _ ← ensure_inherents_applied;
  _ ← writes note_finished_extrinsics;
  _ ← post_transactions;
  n ← reads block_number;
  _ ← on_idle_hook n;
  _ ← on_finalize_hook n;
  finalize.

Definition finalize_block_without_checks (header : RtHeader) : op unit :=
  _ ← ensure_inherents_applied;
  _ ← writes note_finished_extrinsics;
  _ ← on_finalize_hook (rh_number header);
  final_checks header false false.

(** The changes to the storage are discarded by the caller. *)
Definition validate_transaction (source : TransactionSource) (uxt : Extrinsic) (hash : bytes) : op (ValidityError + Validity) :=
  n ← reads block_number;
  next ← (fun s => match checked_u32 (n + 1) with Some next => Ok (next, s) | None => Panic end);
  _ ← writes (initialize next hash []);
  let encoded := encode uxt in
  match decode_with_depth_limit encoded with
  | None => mret (inl InvalidCall)
  | Some uxt =>
      checked ← reads (check uxt);
      match checked : ValidityError + Checked with
      | inl e => mret (inl e)
      | inr xt =>
          let dispatch_info := get_dispatch_info xt in
          if bool_decide (class_of dispatch_info = ClassMandatory) then mret (inl MandatoryValidation)
          else validate source xt dispatch_info (Z.of_nat (length encoded))
      end
  end.

Definition offchain_worker (header : RtHeader) : op unit :=
  _ ← writes (initialize (rh_number header) (rh_parent_hash header) (rh_digest header));
  _ ← writes (insert_block_hash (rh_number header) (header_hash header));
  run_offchain_worker (rh_number header).
End executive.
