(* ===== verification/ExecutiveFacts.v ===== *)
(** * Theorems on the executive

    An accepted block is a run of its inherents, the transition after them, and its
    other extrinsics; its state root is determined by the rest of it. *)

From Stdlib Require Import ZArith Lia.
From stdpp Require Import prelude.
From S2P Require Import Prelude Executive.

(** ** Computations *)

Lemma op_bind_Ok {St A B} (m : runtime_op St A) (f : A -> runtime_op St B) s b s' :
  (x ← m; f x) s = Ok (b, s') <-> exists a s1, m s = Ok (a, s1) /\ f a s1 = Ok (b, s').
Proof. unfold mbind, op_bind. destruct (m s) as [[] | |]; naive_solver. Qed.

Lemma op_bind_assoc {St A B C} (m : runtime_op St A) (f : A -> runtime_op St B) (g : B -> runtime_op St C) s :
  (y ← (x ← m; f x); g y) s = (x ← m; y ← f x; g y) s.
Proof. unfold mbind, op_bind. by destruct (m s) as [[] | |]. Qed.

Lemma op_ret_Ok {St A} (a : A) (s : St) b s' : (mret a : runtime_op St A) s = Ok (b, s') <-> b = a /\ s' = s.
Proof. unfold mret, op_ret. naive_solver. Qed.

Lemma reads_Ok {St A} (f : St -> A) s b s' : reads f s = Ok (b, s') <-> b = f s /\ s' = s.
Proof. unfold reads. naive_solver. Qed.

Lemma writes_Ok {St} (f : St -> St) s u s' : writes f s = Ok (u, s') <-> s' = f s.
Proof. unfold writes. destruct u. naive_solver. Qed.

Lemma asserts_Ok {St} b (s : St) u s' : asserts b s = Ok (u, s') <-> b = true /\ s' = s.
Proof. unfold asserts. destruct b, u; naive_solver. Qed.

(** ** What computations keep *)

Definition keeps {St A B} (f : St -> B) (m : runtime_op St A) : Prop := forall s a s', m s = Ok (a, s') -> f s' = f s.

Create HintDb keeps.

Section keeps.
Context {St B : Type} (f : St -> B).

Lemma op_keeps_ret {A} (a : A) : keeps f (mret a).
Proof. by intros s b s' [_ ->]%op_ret_Ok. Qed.

Lemma keeps_reads {A} (g : St -> A) : keeps f (reads g).
Proof. by intros s b s' [_ ->]%reads_Ok. Qed.

Lemma keeps_asserts b : keeps f (asserts b).
Proof. by intros s a s' [_ ->]%asserts_Ok. Qed.

Lemma op_keeps_bind {A C} (m : runtime_op St A) (g : A -> runtime_op St C) :
  keeps f m -> (forall a, keeps f (g a)) -> keeps f (x ← m; g x).
Proof. intros Hm Hg s c s' (a & s1 & H1 & H2)%op_bind_Ok. by rewrite (Hg _ _ _ _ H2), (Hm _ _ _ H1). Qed.

Lemma keeps_if {A} (b : bool) (m n : runtime_op St A) : keeps f m -> keeps f n -> keeps f (if b then m else n).
Proof. by destruct b. Qed.
End keeps.
#[export] Hint Resolve op_keeps_ret keeps_reads keeps_asserts op_keeps_bind keeps_if : keeps.

(** Runs a goal of [keeps] through a computation. *)
Ltac solve_keeps :=
  repeat match goal with
  | |- keeps _ (mbind _ _) => apply op_keeps_bind; [| intros ?]
  | |- keeps _ (if ?b then _ else _) => destruct b eqn:?
  | |- keeps _ (match ?x with _ => _ end) => destruct x eqn:?
  end; auto with keeps.

(** ** Documented behaviour of the system pallet *)

Section executive.
Context `{!RuntimeTypes, !FrameRuntime}.
Abbreviation op := (runtime_op St).

(** What the hooks and the book-keeping of a block do not change of the state, and
    neither do its extrinsics. *)
Record quiet {B} (f : St -> B) : Prop := {
  qt_weight w c : keeps f (writes (register_extra_weight_unchecked w c));
  qt_initialized : keeps f (writes note_finished_initialize);
  qt_extrinsic e : keeps f (writes (note_extrinsic e));
  qt_applied r i : keeps f (writes (note_applied_extrinsic r i));
  qt_extrinsics : keeps f (writes note_finished_extrinsics);
  qt_on_initialize n : keeps f (on_initialize n);
  qt_on_idle n w : keeps f (on_idle n w);
  qt_on_poll n w : keeps f (on_poll n w);
  qt_on_finalize n : keeps f (on_finalize n);
  qt_pre_inherents : keeps f pre_inherents;
  qt_post_inherents : keeps f post_inherents;
  qt_post_transactions : keeps f post_transactions;
  qt_step : keeps f step;
}.
#[local] Hint Resolve qt_weight qt_initialized qt_extrinsic qt_applied qt_extrinsics qt_on_initialize qt_on_idle qt_on_poll
  qt_on_finalize qt_pre_inherents qt_post_inherents qt_post_transactions qt_step : keeps.

(** The transition after the inherents, where its mark is kept too. *)
Lemma quiet_transition {B} (f : St -> B) :
  quiet f -> keeps f (writes note_inherents_applied) -> keeps f inherents_applied /\ keeps f ensure_inherents_applied.
Proof.
  intros Hf Hn. assert (keeps f inherents_applied) as Hi by (unfold inherents_applied, on_poll_hook; solve_keeps).
  split; [done |]. unfold ensure_inherents_applied. solve_keeps.
Qed.

(** The mark of applied inherents is set by the call that is named for it, and
    removed when the block is finalised; checking an extrinsic does not depend on
    the transition after the inherents. *)
Class InherentLaws : Prop := {
  mark_quiet : quiet inherents_were_applied;
  mark_apply xt i n : keeps inherents_were_applied (apply_checked xt i n);
  mark_reset : keeps inherents_were_applied (writes reset_events);
  mark_upgrade : keeps inherents_were_applied upgrade_runtime;
  mark_initialize n p d : keeps inherents_were_applied (writes (initialize n p d));
  mark_set s : inherents_were_applied (note_inherents_applied s) = true;
  mark_finalize s h s' : finalize s = Ok (h, s') -> inherents_were_applied s' = false;
  check_transition x s s' : inherents_applied s = Ok (tt, s') -> check x s' = check x s;
}.

Section marked.
Context `{!InherentLaws}.
#[local] Hint Resolve mark_quiet mark_apply mark_reset mark_upgrade mark_initialize : keeps.

Lemma initialize_unmarked header s mode s1 :
  initialize_block header s = Ok (mode, s1) -> inherents_were_applied s1 = inherents_were_applied s.
Proof.
  revert s mode s1. change (keeps inherents_were_applied (initialize_block header)).
  unfold initialize_block, initialize_block_impl, extrinsic_mode. solve_keeps.
Qed.

Lemma inherents_applied_mark s s' : inherents_applied s = Ok (tt, s') -> inherents_were_applied s' = true.
Proof.
  unfold inherents_applied. intros (u & s1 & Hw & Hrest)%op_bind_Ok. apply writes_Ok in Hw as ->.
  rewrite <- (mark_set s). revert Hrest. generalize (note_inherents_applied s) as s0. clear s. intros s0 Hrest.
  refine ((_ : keeps inherents_were_applied _) _ _ _ Hrest). unfold on_poll_hook. solve_keeps.
Qed.

Lemma apply_keeps_mark x : keeps inherents_were_applied (do_apply_extrinsic x true).
Proof. unfold do_apply_extrinsic. cbn [negb]. solve_keeps. Qed.

(** ** The reference *)

(** An extrinsic that must be valid, without regard to the inherents. *)
Definition must_apply (x : Extrinsic) : op unit :=
  r ← do_apply_extrinsic x true;
  asserts (match r : ValidityError + (DispatchError + unit) with inl _ => false | inr _ => true end).

Fixpoint must_apply_all (l : list Extrinsic) : op unit :=
  match l with
  | [] => mret tt
  | x :: l => _ ← must_apply x; must_apply_all l
  end.

Lemma must_apply_Ok x s s' :
  must_apply x s = Ok (tt, s') <-> exists o, do_apply_extrinsic x true s = Ok (inr o, s').
Proof.
  unfold must_apply. rewrite op_bind_Ok. split.
  - intros ([e | o] & s1 & Hrun & [Hb ->]%asserts_Ok); [done | by exists o].
  - intros [o Hrun]. exists (inr o), s'. split; [done |]. by apply asserts_Ok.
Qed.

Lemma must_apply_keeps_mark x : keeps inherents_were_applied (must_apply x).
Proof. unfold must_apply. apply op_keeps_bind; [apply apply_keeps_mark | auto with keeps]. Qed.

(** An extrinsic after the transition. *)
Lemma apply_marked x s : inherents_were_applied s = true -> do_apply_extrinsic x false s = do_apply_extrinsic x true s.
Proof.
  intros Hs. unfold do_apply_extrinsic. destruct (decode_with_depth_limit _) as [y |]; [| done].
  unfold mbind, op_bind, reads. destruct (check y s) as [e | xt]; [done |]. cbn [negb]. unfold ensure_inherents_applied, mbind, op_bind, reads.
  by rewrite Hs.
Qed.

(** The first extrinsic that is not an inherent makes the transition. *)
Lemma apply_unmarked x s o s' :
  inherents_were_applied s = false ->
  do_apply_extrinsic x false s = Ok (inr o, s') <->
  exists s1, inherents_applied s = Ok (tt, s1) /\ do_apply_extrinsic x true s1 = Ok (inr o, s').
Proof.
  intros Hs. unfold do_apply_extrinsic. destruct (decode_with_depth_limit _) as [y |].
  2: { rewrite op_ret_Ok. split; [by intros [? _] |]. intros (s1 & _ & [? _]%op_ret_Ok). done. }
  cbn [negb]. split.
  - intros (c & s0 & [-> ->]%reads_Ok & Hrun)%op_bind_Ok. destruct (check y s) as [e | xt] eqn:Hc; [by apply op_ret_Ok in Hrun as [? _] |].
    apply op_bind_Ok in Hrun as ([] & s1 & Hens & Hrun). unfold ensure_inherents_applied, mbind, op_bind, reads in Hens. rewrite Hs in Hens.
    exists s1. split; [done |]. apply op_bind_Ok. exists (check y s1), s1. split; [by apply reads_Ok |].
    rewrite (check_transition y s s1 Hens), Hc. apply op_bind_Ok. exists tt, s1. split; [by apply op_ret_Ok | done].
  - intros (s1 & Htr & (c & s0 & [-> ->]%reads_Ok & Hrun)%op_bind_Ok). rewrite (check_transition y s s1 Htr) in Hrun.
    apply op_bind_Ok. exists (check y s), s. split; [by apply reads_Ok |]. destruct (check y s) as [e | xt]; [by apply op_ret_Ok in Hrun as [? _] |].
    apply op_bind_Ok in Hrun as ([] & s0 & [_ ->]%op_ret_Ok & Hrun). apply op_bind_Ok. exists tt, s1. split; [| done].
    unfold ensure_inherents_applied, mbind, op_bind, reads. by rewrite Hs.
Qed.

(** The shape of a block. *)
Definition split_block (mode : ExtrinsicInclusionMode) (l : list (option Extrinsic)) (inherents rest : list Extrinsic) : Prop :=
  l = map Some (inherents ++ rest) /\ Forall (fun x => is_inherent x = true) inherents /\
  Forall (fun x => is_inherent x = false) rest /\ (mode = OnlyInherents -> rest = []).

Lemma apply_rest mode idx first l s s' :
  inherents_were_applied s = true -> (first < idx)%nat ->
  apply_extrinsics mode idx first l s = Ok (inr tt, s') <->
  exists rest, split_block mode l [] rest /\ must_apply_all rest s = Ok (tt, s').
Proof.
  intros Hs. revert idx s Hs. induction l as [| [x |] l IH]; intros idx s Hs Hlt; cbn [apply_extrinsics].
  - rewrite op_ret_Ok. split.
    + intros [_ ->]. exists []. split; [by repeat split | by apply op_ret_Ok].
    + intros (rest & (Hl & _) & Hrun). destruct rest; [| done]. by apply op_ret_Ok in Hrun as [_ ->].
  - destruct (is_inherent x) eqn:Hx; cbn [andb negb].
    { destruct (Nat.eqb_spec first idx); [lia |]. cbn [negb]. rewrite op_ret_Ok. split; [by intros [? _] |].
      intros ([| y rest] & (Hl & _ & Hr & _) & _); [done |]. injection Hl as -> _. apply Forall_cons in Hr as [? _]. congruence. }
    destruct (decide (mode = OnlyInherents)) as [Hm | Hm].
    { rewrite bool_decide_true, op_ret_Ok by done. split; [by intros [? _] |].
      intros (rest & (Hl & _ & _ & Hr) & _). rewrite (Hr Hm) in Hl. done. }
    rewrite bool_decide_false, op_bind_Ok by done. split.
    + intros ([e | o] & s1 & Hx1 & Hrun); [by apply op_ret_Ok in Hrun as [? _] |].
      rewrite (apply_marked x s Hs) in Hx1. apply IH in Hrun as (rest & (-> & _ & Hr & Hmr) & Hrun); [| | lia].
      2: { by rewrite (apply_keeps_mark x s (inr o) s1 Hx1). }
      exists (x :: rest). split; [by repeat split; [constructor | constructor |] |].
      cbn [must_apply_all]. apply op_bind_Ok. exists tt, s1. split; [apply must_apply_Ok; by exists o | done].
    + intros ([| y rest] & (Hl & _ & Hr & Hmr) & Hrun); [done |]. injection Hl as <- ->.
      cbn [must_apply_all] in Hrun. apply op_bind_Ok in Hrun as ([] & s1 & Hx1 & Hrun). pose proof (must_apply_keeps_mark _ _ _ _ Hx1) as Hk.
      apply must_apply_Ok in Hx1 as [o Hx1]. exists (inr o), s1. rewrite (apply_marked x s Hs). split; [done |].
      apply IH; [congruence | lia |]. exists rest. apply Forall_cons in Hr as [_ Hr]. by repeat split.
  - rewrite op_ret_Ok. split; [by intros [? _] |]. intros ([| ? ?] & (Hl & _) & _); done.
Qed.

(** The extrinsics of a block and the transition, which the last check makes up for. *)
Definition run_extrinsics (mode : ExtrinsicInclusionMode) (idx first : nat) (l : list (option Extrinsic)) : op unit :=
  r ← apply_extrinsics mode idx first l;
  _ ← asserts (match r : ExecutiveError + unit with inl _ => false | inr _ => true end);
  ensure_inherents_applied.

Lemma run_extrinsics_Ok mode idx first l s s' :
  run_extrinsics mode idx first l s = Ok (tt, s') <->
  exists s1, apply_extrinsics mode idx first l s = Ok (inr tt, s1) /\ ensure_inherents_applied s1 = Ok (tt, s').
Proof.
  unfold run_extrinsics. rewrite op_bind_Ok. split.
  - intros ([e | []] & s1 & Ha & ([] & s2 & [Hb ->]%asserts_Ok & Hens)%op_bind_Ok); [done |]. by exists s1.
  - intros (s1 & Ha & Hens). exists (inr tt), s1. split; [done |]. apply op_bind_Ok. exists tt, s1. split; [by apply asserts_Ok | done].
Qed.

Definition run_reference (inherents rest : list Extrinsic) : op unit :=
  _ ← must_apply_all inherents;
  _ ← inherents_applied;
  must_apply_all rest.

Lemma must_apply_all_keeps_mark l : keeps inherents_were_applied (must_apply_all l).
Proof. induction l; cbn [must_apply_all]; solve_keeps. apply must_apply_keeps_mark. Qed.

(** A block goes on with an extrinsic that is not an inherent. *)
Lemma run_transition mode idx x l s s' :
  inherents_were_applied s = false -> is_inherent x = false ->
  (exists s1,
    (if bool_decide (mode = OnlyInherents) then mret (inl OnlyInherentsAllowed)
     else (r ← do_apply_extrinsic x false;
           match r : ValidityError + (DispatchError + unit) with
           | inl e => mret (inl (ApplyExtrinsic e))
           | inr _ => apply_extrinsics mode (S idx) idx l
           end) : op (ExecutiveError + unit)) s = Ok (inr tt, s1) /\
    ensure_inherents_applied s1 = Ok (tt, s')) <->
  exists inherents rest, split_block mode (Some x :: l) inherents rest /\ run_reference inherents rest s = Ok (tt, s').
Proof.
  intros Hs Hx.
  destruct (decide (mode = OnlyInherents)) as [Hm | Hm].
  { rewrite bool_decide_true by done. split; [intros (s1 & [? _]%op_ret_Ok & _); done |].
    intros ([| y inh] & rest & (Hl & Hi & _ & Hr) & _); rewrite (Hr Hm) in Hl; [done |].
    injection Hl as <- _. apply Forall_cons in Hi as [? _]. congruence. }
  rewrite bool_decide_false by done. split.
  * intros (s2 & ([e | o] & s1 & Hx1 & Hrun)%op_bind_Ok & Hens); [by apply op_ret_Ok in Hrun as [? _] |].
    apply apply_unmarked in Hx1 as (s0 & Htr & Hx1); [| done]. pose proof (inherents_applied_mark _ _ Htr) as Hmark.
    pose proof (apply_keeps_mark _ _ _ _ Hx1) as Hk. apply apply_rest in Hrun as (rest & (-> & _ & Hr & _) & Hrest); [| congruence | lia].
    pose proof (must_apply_all_keeps_mark _ _ _ _ Hrest) as Hk'. unfold ensure_inherents_applied, mbind, op_bind, reads in Hens.
    rewrite Hk', Hk, Hmark in Hens. apply op_ret_Ok in Hens as [_ ->].
    exists [], (x :: rest). split; [by repeat split; [constructor | constructor |] |]. unfold run_reference. cbn [must_apply_all].
    apply op_bind_Ok. exists tt, s. split; [by apply op_ret_Ok |]. apply op_bind_Ok. exists tt, s0. split; [done |].
    apply op_bind_Ok. exists tt, s1. split; [apply must_apply_Ok; by exists o | done].
  * intros ([| y inh] & rest & (Hl & Hi & Hr & _) & Href).
    2: { injection Hl as <- _. apply Forall_cons in Hi as [? _]. congruence. }
    destruct rest as [| y rest]; [done |]. injection Hl as <- ->. apply Forall_cons in Hr as [_ Hr].
    unfold run_reference in Href. cbn [must_apply_all] in Href.
    apply op_bind_Ok in Href as ([] & s0 & [_ ->]%op_ret_Ok & ([] & s0 & Htr & ([] & s1 & Hx1 & Hrest)%op_bind_Ok)%op_bind_Ok).
    pose proof (inherents_applied_mark _ _ Htr) as Hmark. pose proof (must_apply_keeps_mark _ _ _ _ Hx1) as Hk.
    apply must_apply_Ok in Hx1 as [o Hx1]. pose proof (must_apply_all_keeps_mark _ _ _ _ Hrest) as Hk'. exists s'. split.
    -- apply op_bind_Ok. exists (inr o), s1. split; [apply apply_unmarked; [done | by exists s0] |].
       apply apply_rest; [congruence | lia |]. exists rest. by repeat split.
    -- unfold ensure_inherents_applied, mbind, op_bind, reads. by rewrite Hk', Hk, Hmark.
Qed.

Lemma run_extrinsics_reference mode idx l s s' :
  inherents_were_applied s = false ->
  run_extrinsics mode idx idx l s = Ok (tt, s') <->
  exists inherents rest, split_block mode l inherents rest /\ run_reference inherents rest s = Ok (tt, s').
Proof.
  rewrite run_extrinsics_Ok. revert idx s. induction l as [| [x |] l IH]; intros idx s Hs; cbn [apply_extrinsics].
  - split.
    + intros (s1 & [_ ->]%op_ret_Ok & Hens). unfold ensure_inherents_applied, mbind, op_bind, reads in Hens. rewrite Hs in Hens.
      exists [], []. split; [by repeat split |]. unfold run_reference. cbn [must_apply_all]. apply op_bind_Ok. exists tt, s.
      split; [by apply op_ret_Ok |]. apply op_bind_Ok. exists tt, s'. split; [done | by apply op_ret_Ok].
    + intros ([| ? ?] & [| ? ?] & (Hl & _) & Hrun); try done. exists s. split; [by apply op_ret_Ok |].
      unfold run_reference in Hrun. cbn [must_apply_all] in Hrun.
      apply op_bind_Ok in Hrun as ([] & s1 & [_ ->]%op_ret_Ok & ([] & s2 & Htr & [_ ->]%op_ret_Ok)%op_bind_Ok).
      unfold ensure_inherents_applied, mbind, op_bind, reads. by rewrite Hs.
  - destruct (is_inherent x) eqn:Hx; cbn [andb negb].
    + rewrite Nat.eqb_refl. cbn [negb]. split.
      * intros (s2 & ([e | o] & s1 & Hx1 & Hrun)%op_bind_Ok & Hens); [by apply op_ret_Ok in Hrun as [? _] |].
        pose proof (apply_keeps_mark _ _ _ _ Hx1) as Hk.
        destruct (proj1 (IH (S idx) s1 ltac:(congruence))) as (inh & rest & (-> & Hi & Hr & Hm) & Href); [by exists s2 |].
        exists (x :: inh), rest. split; [by repeat split; [constructor | |] |]. unfold run_reference in *. cbn [must_apply_all].
        rewrite op_bind_assoc. apply op_bind_Ok. exists tt, s1. split; [apply must_apply_Ok; by exists o | done].
      * intros ([| y inh] & rest & (Hl & Hi & Hr & Hm) & Href).
        { destruct rest as [| y rest]; [done |]. injection Hl as -> _. apply Forall_cons in Hr as [? _]. congruence. }
        injection Hl as <- ->. unfold run_reference in Href. cbn [must_apply_all] in Href. rewrite op_bind_assoc in Href.
        apply op_bind_Ok in Href as ([] & s1 & Hx1 & Href). pose proof (must_apply_keeps_mark _ _ _ _ Hx1) as Hk. apply must_apply_Ok in Hx1 as [o Hx1].
        apply Forall_cons in Hi as [_ Hi].
        destruct (proj2 (IH (S idx) s1 ltac:(congruence))) as (s2 & Ha & Hens); [by exists inh, rest |].
        exists s2. split; [| done]. apply op_bind_Ok. by exists (inr o), s1.
    + by apply run_transition.
  - split; [intros (s1 & [? _]%op_ret_Ok & _); done |]. intros ([| ? ?] & [| ? ?] & (Hl & _) & _); done.
Qed.

(** The end of a block. *)
Definition finish_block (header : RtHeader) (state_root_check : bool) : op unit :=
  _ ← writes note_finished_extrinsics;
  _ ← post_transactions;
  _ ← on_idle_hook (rh_number header);
  _ ← on_finalize_hook (rh_number header);
  final_checks header state_root_check true.

Lemma execute_block_phases header xs state_root_check s s' :
  execute_block_inner header xs state_root_check s = Ok (tt, s') <->
  exists mode s1 s2, initialize_block header s = Ok (mode, s1) /\ initial_checks header s1 = Ok (tt, s1) /\
    run_extrinsics mode 0 0 xs s1 = Ok (tt, s2) /\ finish_block header state_root_check s2 = Ok (tt, s').
Proof.
  unfold execute_block_inner. rewrite op_bind_Ok. split.
  - intros (mode & s1 & Hi & ([] & s1' & Hc & (r & s2 & Ha & ([] & s2' & Hr & ([] & s3 & He & Hf)%op_bind_Ok)%op_bind_Ok)%op_bind_Ok)%op_bind_Ok).
    assert (s1' = s1) as ->.
    { unfold initial_checks in Hc. by apply op_bind_Ok in Hc as (? & ? & [_ ->]%reads_Ok & [_ ->]%asserts_Ok). }
    exists mode, s1, s3. split_and!; [done | done | | done].
    unfold run_extrinsics. apply op_bind_Ok. exists r, s2. split; [done |]. apply op_bind_Ok. by exists tt, s2'.
  - intros (mode & s1 & s2 & Hi & Hc & Hrun & Hf). exists mode, s1. split; [done |]. apply op_bind_Ok. exists tt, s1. split; [done |].
    unfold run_extrinsics in Hrun. apply op_bind_Ok in Hrun as (r & s3 & Ha & ([] & s4 & Hr & He)%op_bind_Ok).
    apply op_bind_Ok. exists r, s3. split; [done |]. apply op_bind_Ok. exists tt, s4. split; [done |]. apply op_bind_Ok. by exists tt, s2.
Qed.

Lemma finish_unmarks header state_root_check s s' :
  finish_block header state_root_check s = Ok (tt, s') -> inherents_were_applied s' = false.
Proof.
  unfold finish_block, final_checks. intros Hf.
  repeat match type of Hf with
  | mbind _ _ _ = _ => apply op_bind_Ok in Hf as (? & ? & ? & Hf)
  | asserts _ _ = _ => apply asserts_Ok in Hf as [_ ->]
  end.
  repeat match goal with K : asserts _ _ = _ |- _ => apply asserts_Ok in K as [_ ->] end.
  match goal with K : finalize _ = _ |- _ => exact (mark_finalize _ _ _ K) end.
Qed.

(** C5: execution of a block: between blocks, where no inherents are marked as applied,
    a block is executed without panic exactly when its extrinsics decode, its
    inherents come first and stand alone while migrations go on, and the state is
    reached by initialising, applying the inherents, the one transition after them,
    applying the other extrinsics, and finishing with the computed header equal to
    the given one; and then no inherents are marked any more. *)
Theorem execute_block_spec (header : RtHeader) (xs : list (option Extrinsic)) (state_root_check : bool) (s s' : St) :
  inherents_were_applied s = false ->
  (execute_block_inner header xs state_root_check s = Ok (tt, s') <->
   exists mode inherents rest s1 s2, initialize_block header s = Ok (mode, s1) /\ initial_checks header s1 = Ok (tt, s1) /\
     split_block mode xs inherents rest /\ run_reference inherents rest s1 = Ok (tt, s2) /\
     finish_block header state_root_check s2 = Ok (tt, s')) /\
  (execute_block_inner header xs state_root_check s = Ok (tt, s') -> inherents_were_applied s' = false).
Proof.
  intros Hs. split.
  - rewrite execute_block_phases. split.
    + intros (mode & s1 & s2 & Hi & Hc & Hrun & Hf). pose proof (initialize_unmarked _ _ _ _ Hi) as Hm.
      apply run_extrinsics_reference in Hrun as (inherents & rest & Hsplit & Hrun); [| congruence]. by exists mode, inherents, rest, s1, s2.
    + intros (mode & inherents & rest & s1 & s2 & Hi & Hc & Hsplit & Hrun & Hf). pose proof (initialize_unmarked _ _ _ _ Hi) as Hm.
      exists mode, s1, s2. split_and!; try done. apply run_extrinsics_reference; [congruence |]. by exists inherents, rest.
  - intros (mode & s1 & s2 & _ & _ & _ & Hf)%execute_block_phases. by apply finish_unmarks in Hf.
Qed.
End marked.

(** ** The state root *)

Definition with_state_root (header : RtHeader) (root : bytes) : RtHeader :=
  mk_rt_header (rh_number header) (rh_parent_hash header) root (rh_extrinsics_root header) (rh_digest header).

Lemma final_checks_root header root s s' :
  final_checks (with_state_root header root) true true s = Ok (tt, s') <->
  final_checks header false true s = Ok (tt, s') /\ exists new_header, finalize s = Ok (new_header, s') /\ rh_state_root new_header = root.
Proof.
  unfold final_checks. rewrite !op_bind_Ok. cbn [with_state_root rh_digest rh_state_root rh_extrinsics_root negb orb]. split.
  - intros (h & s1 & Hf & ([] & s2 & [H1 ->]%asserts_Ok & ([] & s3 & [H2 ->]%asserts_Ok & ([] & s4 & [H3 ->]%asserts_Ok & [H4 ->]%asserts_Ok)%op_bind_Ok)%op_bind_Ok)%op_bind_Ok).
    apply bool_decide_eq_true in H3. split; [| by exists h]. exists h, s1. split; [done |]. apply op_bind_Ok.
    exists tt, s1. split; [by apply asserts_Ok |]. apply op_bind_Ok. exists tt, s1. split; [by apply asserts_Ok |].
    apply op_bind_Ok. exists tt, s1. split; by apply asserts_Ok.
  - intros [(h & s1 & Hf & ([] & s2 & [H1 ->]%asserts_Ok & ([] & s3 & [H2 ->]%asserts_Ok & ([] & s4 & [_ ->]%asserts_Ok & [H4 ->]%asserts_Ok)%op_bind_Ok)%op_bind_Ok)%op_bind_Ok) (h' & Hf' & Hroot)].
    rewrite Hf in Hf'. injection Hf' as <-. exists h, s1. split; [done |]. apply op_bind_Ok.
    exists tt, s1. split; [by apply asserts_Ok |]. apply op_bind_Ok. exists tt, s1. split; [by apply asserts_Ok |].
    apply op_bind_Ok. exists tt, s1. split; [apply asserts_Ok; by rewrite bool_decide_true | by apply asserts_Ok].
Qed.

Lemma finish_root header root s s' :
  finish_block (with_state_root header root) true s = Ok (tt, s') <->
  exists s1, finish_block header false s = Ok (tt, s') /\
    (_ ← writes note_finished_extrinsics; _ ← post_transactions; _ ← on_idle_hook (rh_number header); on_finalize_hook (rh_number header)) s = Ok (tt, s1) /\
    exists new_header, finalize s1 = Ok (new_header, s') /\ rh_state_root new_header = root.
Proof.
  unfold finish_block. cbn [with_state_root rh_number]. split.
  - intros ([] & s1 & H1 & ([] & s2 & H2 & ([] & s3 & H3 & ([] & s4 & H4 & [H5 H6]%final_checks_root)%op_bind_Ok)%op_bind_Ok)%op_bind_Ok)%op_bind_Ok.
    exists s4. split; [| split; [| done]]; repeat (apply op_bind_Ok; eexists tt, _; split; [done |]); done.
  - intros (s0 & ([] & s1 & H1 & ([] & s2 & H2 & ([] & s3 & H3 & ([] & s4 & H4 & H5)%op_bind_Ok)%op_bind_Ok)%op_bind_Ok)%op_bind_Ok & Hpre & Hroot).
    apply op_bind_Ok in Hpre as ([] & t1 & K1 & ([] & t2 & K2 & ([] & t3 & K3 & K4)%op_bind_Ok)%op_bind_Ok). simplify_eq.
    rewrite H1 in K1. injection K1 as <-. rewrite H2 in K2. injection K2 as <-. rewrite H3 in K3. injection K3 as <-.
    rewrite H4 in K4. injection K4 as <-.
    repeat (apply op_bind_Ok; eexists tt, _; split; [done |]). by apply final_checks_root.
Qed.

(** the state root of a block is determined by the rest of it: a block that was
    executed on import without a check of its state root is accepted by the full
    execution, with the same result, for exactly one state root. *)
Lemma state_root_unique (header : RtHeader) (xs : list (option Extrinsic)) (s s' : St) :
  execute_block_without_state_root_check header xs s = Ok (tt, s') ->
  exists! root, execute_block (with_state_root header root) xs s = Ok (tt, s').
Proof.
  unfold execute_block, execute_block_without_state_root_check. rewrite execute_block_phases.
  intros (mode & s1 & s2 & Hi & Hc & Hrun & Hf). pose proof Hf as Hf'. unfold finish_block in Hf'.
  apply op_bind_Ok in Hf' as ([] & t1 & H1 & ([] & t2 & H2 & ([] & t3 & H3 & ([] & t4 & H4 & H5)%op_bind_Ok)%op_bind_Ok)%op_bind_Ok).
  assert (exists h, finalize t4 = Ok (h, s')) as [h Hfin].
  { unfold final_checks in H5. apply op_bind_Ok in H5 as (h & t5 & Hfin & H5). exists h. rewrite Hfin. do 2 f_equal.
    apply op_bind_Ok in H5 as (? & ? & [_ ->]%asserts_Ok & (? & ? & [_ ->]%asserts_Ok & (? & ? & [_ ->]%asserts_Ok & [_ ->]%asserts_Ok)%op_bind_Ok)%op_bind_Ok). done. }
  assert ((_ ← writes note_finished_extrinsics; _ ← post_transactions; _ ← on_idle_hook (rh_number header); on_finalize_hook (rh_number header)) s2 = Ok (tt, t4)) as Hpre
    by (repeat (apply op_bind_Ok; eexists tt, _; split; [done |]); done).
  exists (rh_state_root h). split.
  - apply execute_block_phases. exists mode, s1, s2. split_and!; try done. apply finish_root. exists t4. split_and!; [done | done | by exists h].
  - intros root Hroot. apply execute_block_phases in Hroot as (mode' & u1 & u2 & Hi' & _ & Hrun' & Hf').
    change (initialize_block (with_state_root header root)) with (initialize_block header) in Hi'. rewrite Hi in Hi'. injection Hi' as <- <-.
    rewrite Hrun in Hrun'. injection Hrun' as <-. apply finish_root in Hf' as (u4 & _ & Hpre' & h' & Hfin' & <-).
    rewrite Hpre in Hpre'. injection Hpre' as <-. congruence.
Qed.
End executive.
