(* ===== verification/RuntimeLedger.v ===== *)
(** * The executive on the ledger ([crates/subcoin-runtime/src/lib.rs])

    The runtime consists of FRAME's system pallet and the Bitcoin pallet.  What the
    executive needs of the two is stated as an interface; with it, a block of Bitcoin
    transactions that the executive accepts changes the coins exactly as its
    transactions do one after the other. *)

From Stdlib Require Import ZArith Lia.
From stdpp Require Import prelude gmap.
From S2P Require Import Prelude ScriptTypes Sample Bitcoin Runtime PalletTypes Pallet Ledger Executive ExecutiveFacts.

(** Header weight and the count of transactions; the maximal block weight. *)
Definition BITCOIN_BASE_BLOCK_WEIGHT : Z := 80 * 4 + 4.
Definition BITCOIN_MAX_WEIGHT : Z := 4000000.

(** The weights of [frame_system::limits::BlockWeights]: time and size of proofs; a
    class without a limit has [None]. *)
Record BlockWeights := mk_block_weights {
  bw_base_block : Z * Z;
  bw_max_block : Z * Z;
  bw_max_total : DispatchClass -> option (Z * Z);
  bw_reserved : DispatchClass -> option (Z * Z);
}.

(** [impl Get<BlockWeights> for BlockWeights]. *)
Definition block_weights : BlockWeights :=
  let initial := fun class => if decide (class = ClassMandatory) then None else Some (0, 0) in
  mk_block_weights (BITCOIN_BASE_BLOCK_WEIGHT, 0) (BITCOIN_MAX_WEIGHT, u64_max) initial initial.

(** ** The interface *)

(** The coins are the business of the Bitcoin pallet alone: neither the system pallet
    nor any hook touches them.  A bare extrinsic with a Bitcoin transaction decodes,
    passes the check as it has no signature, is no inherent, and is dispatched to
    the pallet, at the height the system pallet was initialised with. *)
Class BitcoinRuntime `{!RuntimeTypes, !FrameRuntime, !ScriptApi, !TxApi} := {
  coins_of : St -> PalletState;
  bare : Transaction -> Extrinsic;
  checked_bare : Transaction -> Checked;
  number_initialize n p d s : block_number (initialize n p d s) = n;
  number_quiet : quiet block_number;
  number_transition : keeps block_number (writes note_inherents_applied);
  coins_quiet : quiet coins_of;
  coins_transition : keeps coins_of (writes note_inherents_applied);
  coins_reset : keeps coins_of (writes reset_events);
  coins_upgrade : keeps coins_of upgrade_runtime;
  coins_initialize n p d : keeps coins_of (writes (initialize n p d));
  coins_finalize : keeps coins_of finalize;
  bare_decode tx : decode_with_depth_limit (encode (bare tx)) = Some (bare tx);
  bare_inherent tx : is_inherent (bare tx) = false;
  bare_check tx s : check (bare tx) s = inr (checked_bare tx);
  bare_class tx : class_of (get_dispatch_info (checked_bare tx)) = ClassNormal;
  bare_apply tx i n s r s' :
    apply_checked (checked_bare tx) i n s = Ok (r, s') ->
    block_number s' = block_number s /\
    transact NoneOrigin (block_number s) (Types.transaction_from tx) (coins_of s) = Ok (coins_of s');
}.

Section ledger.
Context `{!RuntimeTypes, !FrameRuntime, !ScriptApi, !TxApi, !BitcoinRuntime}.

(** The laws of the height, without the coins among their parameters. *)
Lemma height_quiet : quiet block_number.
Proof. apply number_quiet. Qed.

Lemma height_transition : keeps block_number (writes note_inherents_applied).
Proof. apply number_transition. Qed.

#[local] Hint Resolve height_quiet height_transition coins_quiet coins_transition coins_reset coins_upgrade coins_initialize
  coins_finalize : keeps.
#[local] Hint Resolve qt_weight qt_initialized qt_extrinsic qt_applied qt_extrinsics qt_on_initialize qt_on_idle qt_on_poll
  qt_on_finalize qt_pre_inherents qt_post_inherents qt_post_transactions qt_step : keeps.

(** Height and coins. *)
Definition chain_view (s : St) : Z * PalletState := (block_number s, coins_of s).

Lemma keeps_view {A} (m : runtime_op St A) : keeps block_number m -> keeps coins_of m -> keeps chain_view m.
Proof. intros Hn Hc s a s' Hrun. unfold chain_view. by rewrite (Hn _ _ _ Hrun), (Hc _ _ _ Hrun). Qed.

Lemma ensure_keeps_view : keeps chain_view ensure_inherents_applied.
Proof.
  apply keeps_view; [apply (quiet_transition block_number) | apply (quiet_transition coins_of)]; auto with keeps.
Qed.

Lemma writes_keeps_view f : keeps block_number (writes f) -> keeps coins_of (writes f) -> forall s, chain_view (f s) = chain_view s.
Proof. intros Hn Hc s. refine (keeps_view (writes f) Hn Hc s tt (f s) _). by apply writes_Ok. Qed.

Lemma initialize_view header s mode s1 :
  initialize_block header s = Ok (mode, s1) -> chain_view s1 = (rh_number header, coins_of s).
Proof.
  unfold initialize_block, initialize_block_impl. intros (u & s2 & Hi & Hm)%op_bind_Ok.
  assert (s1 = s2) as ->.
  { unfold extrinsic_mode in Hm. by apply op_bind_Ok in Hm as (? & ? & [_ ->]%reads_Ok & [_ ->]%op_ret_Ok). }
  apply op_bind_Ok in Hi as ([] & s3 & Hr & Hi). pose proof (coins_reset _ _ _ Hr) as C1.
  apply op_bind_Ok in Hi as (w & s4 & Hu & Hi). pose proof (coins_upgrade _ _ _ Hu) as C2.
  apply op_bind_Ok in Hi as ([] & s5 & Hin & Hi). pose proof (coins_initialize _ _ _ _ _ _ Hin) as C3.
  apply writes_Ok in Hin as ->.
  assert (chain_view (initialize (rh_number header) (rh_parent_hash header) (extract_pre_digest header) s4) = (rh_number header, coins_of s)) as Hv.
  { unfold chain_view. rewrite number_initialize. congruence. }
  rewrite <- Hv. refine ((_ : keeps chain_view _) _ _ _ Hi). apply keeps_view; solve_keeps.
Qed.

Lemma apply_bare tx b s o s' :
  do_apply_extrinsic (bare tx) b s = Ok (inr o, s') ->
  transact NoneOrigin (block_number s) (Types.transaction_from tx) (coins_of s) = Ok (coins_of s') /\ block_number s' = block_number s.
Proof.
  unfold do_apply_extrinsic. rewrite bare_decode. intros (c & s0 & [-> ->]%reads_Ok & Hrun)%op_bind_Ok. rewrite bare_check in Hrun.
  apply op_bind_Ok in Hrun as ([] & s1 & Hens & ([] & s2 & Hnote & (r & s3 & Happ & Hrun)%op_bind_Ok)%op_bind_Ok).
  assert (chain_view s1 = chain_view s) as V1 by (destruct b; cbn [negb] in Hens; [by apply op_ret_Ok in Hens as [_ ->] | by apply ensure_keeps_view in Hens]).
  assert (chain_view s2 = chain_view s1) as V2
    by (apply writes_Ok in Hnote as ->; apply writes_keeps_view; auto with keeps).
  apply bare_apply in Happ as [Hn Ht]. rewrite V1 in V2. injection V2 as N2 C2. rewrite N2, C2 in Ht.
  assert (chain_view s' = chain_view s3) as V3.
  { destruct r as [e | r]; [by apply op_ret_Ok in Hrun as [? _] |]. rewrite bare_class in Hrun.
    assert ((_ ← writes (note_applied_extrinsic r (get_dispatch_info (checked_bare tx)));
      mret (inr match r with inl e => inl e | inr _ => inr tt end) : runtime_op St (ValidityError + (Executive.DispatchError + unit))) s3 = Ok (inr o, s')) as Hrun'
      by (destruct r; exact Hrun).
    apply op_bind_Ok in Hrun' as ([] & s4 & Hw & [_ ->]%op_ret_Ok). apply writes_Ok in Hw as ->.
    apply writes_keeps_view; auto with keeps. }
  injection V3 as N3 C3. rewrite C3, N3. split; [done | congruence].
Qed.

Lemma apply_extrinsics_bare mode idx first txs s s' :
  apply_extrinsics mode idx first (map (fun tx => Some (bare tx)) txs) s = Ok (inr tt, s') ->
  Ledger.execute_block (block_number s) txs (coins_of s) = Ok (coins_of s').
Proof.
  revert idx s. induction txs as [| tx txs IH]; intros idx s; cbn [map apply_extrinsics Ledger.execute_block].
  { by intros [_ ->]%op_ret_Ok. }
  rewrite bare_inherent. cbn [andb negb]. destruct (bool_decide _); [by intros [? _]%op_ret_Ok |].
  intros ([e | o] & s1 & Hx & Hrun)%op_bind_Ok; [by apply op_ret_Ok in Hrun as [? _] |].
  apply apply_bare in Hx as [Ht Hn]. rewrite Ht. cbn [mbind res_bind]. rewrite <- Hn. by apply (IH (S idx)).
Qed.

Lemma finish_keeps_coins header state_root_check : keeps coins_of (finish_block header state_root_check).
Proof. unfold finish_block, on_idle_hook, on_finalize_hook, final_checks. solve_keeps. Qed.

(** C4: the executive on the ledger: a block of Bitcoin transactions that the
    executive accepts, with or without the check of the state root, leaves the coins
    that its transactions leave when they are executed one after the other at the
    height in the header. *)
Theorem executive_refines_ledger (header : RtHeader) (txs : list Transaction) (state_root_check : bool) (s s' : St) :
  execute_block_inner header (map (fun tx => Some (bare tx)) txs) state_root_check s = Ok (tt, s') ->
  Ledger.execute_block (rh_number header) txs (coins_of s) = Ok (coins_of s').
Proof.
  intros (mode & s1 & s2 & Hi & _ & Hrun & Hf)%execute_block_phases. apply initialize_view in Hi. injection Hi as Hn Hc.
  apply run_extrinsics_Ok in Hrun as (s3 & Ha & He). apply apply_extrinsics_bare in Ha.
  apply ensure_keeps_view in He. injection He as _ He. apply finish_keeps_coins in Hf. congruence.
Qed.
End ledger.

(** ** A concrete runtime *)

#[export] Instance TxIn_countable : Countable TxIn.
Proof.
  refine (inj_countable' (fun i => (previous_output i, script_sig i, sequence i, txin_witness i))
    (fun '(o, s, q, w) => mk_txin o s q w) _). by intros [].
Defined.

#[export] Instance TxOut_countable : Countable TxOut.
Proof. refine (inj_countable' (fun o => (value o, script_pubkey o)) (fun '(v, s) => mk_txout v s) _). by intros []. Defined.

#[export] Instance Transaction_countable : Countable Transaction.
Proof.
  refine (inj_countable' (fun t => (tx_version t, tx_lock_time t, tx_input t, tx_output t))
    (fun '(v, l, i, o) => mk_tx v l i o) _). by intros [].
Defined.

(** The system pallet keeps what the executive asks for; an extrinsic is an inherent
    that sets a number, or a Bitcoin transaction. *)
Module SampleRuntime.
Import Sample SampleTx.

Record State := mk_state {
  t_number : Z;
  t_parent : bytes;
  t_digest : list DigestItem;
  t_marked : bool;
  t_extrinsics : Z;
  t_time : Z;
  t_coins : PalletState;
}.

#[export] Instance types : RuntimeTypes := {|
  St := State;
  Extrinsic := Z + Transaction;
  Checked := Z + Transaction;
  DispatchInfo := DispatchClass;
  PostInfo := unit;
  Executive.DispatchError := unit;
  Weight := Z;
  RuntimeVersion := unit;
  Validity := unit;
|}.

Definition idle_weight : runtime_op State Z := mret 0.
Definition idle_unit : runtime_op State unit := mret tt.

Definition seal : runtime_op State RtHeader := fun s =>
  Ok (mk_rt_header (t_number s) (t_parent s) [coins_count (t_coins s)] [t_extrinsics s] (t_digest s),
      mk_state (t_number s) (t_parent s) (t_digest s) false 0 (t_time s) (t_coins s)).

Definition dispatch (xt : Z + Transaction) : runtime_op State (ValidityError + (unit + unit)) := fun s =>
  match xt with
  | inl t => Ok (inr (inr tt), mk_state (t_number s) (t_parent s) (t_digest s) (t_marked s) (t_extrinsics s) t (t_coins s))
  | inr tx =>
      match transact NoneOrigin (t_number s) (Types.transaction_from tx) (t_coins s) with
      | Ok p => Ok (inr (inr tt), mk_state (t_number s) (t_parent s) (t_digest s) (t_marked s) (t_extrinsics s) (t_time s) p)
      | _ => Panic
      end
  end.

Definition frame : FrameRuntime := {|
  zero_weight := 0 : Weight;
  weight_add := Z.add : Weight -> Weight -> Weight;
  weight_sub := Z.sub : Weight -> Weight -> Weight;
  all_gt := Z.gtb : Weight -> Weight -> bool;
  base_block := 324 : Weight;
  max_block := 4000000 : Weight;
  block_number := t_number : St -> Z;
  block_hash _ := t_parent : St -> bytes;
  inherents_were_applied := t_marked : St -> bool;
  block_weight _ := 0 : Weight;
  last_runtime_upgrade _ := Some tt : option RuntimeVersion;
  was_upgraded _ := false;
  put_last_runtime_upgrade s := s;
  reset_events s := s;
  initialize n p d s := mk_state n p d (t_marked s) 0 (t_time s) (t_coins s) : St;
  register_extra_weight_unchecked _ _ s := s;
  note_finished_initialize s := s;
  note_inherents_applied s := mk_state (t_number s) (t_parent s) (t_digest s) true (t_extrinsics s) (t_time s) (t_coins s) : St;
  note_extrinsic _ s := mk_state (t_number s) (t_parent s) (t_digest s) (t_marked s) (t_extrinsics s + 1) (t_time s) (t_coins s) : St;
  note_applied_extrinsic _ _ s := s;
  note_finished_extrinsics s := s;
  finalize := seal;
  insert_block_hash _ _ s := s;
  header_hash h := [rh_number h];
  before_all_runtime_migrations := idle_weight;
  on_runtime_upgrade := idle_weight;
  on_initialize _ := idle_weight;
  on_idle _ _ := idle_weight;
  on_poll _ _ := idle_weight;
  on_finalize _ := idle_unit;
  run_offchain_worker _ := idle_unit;
  pre_inherents := idle_unit;
  post_inherents := idle_unit;
  post_transactions := idle_unit;
  ongoing _ := false;
  step := idle_weight;
  is_inherent x := match x : Z + Transaction with inl _ => true | inr _ => false end;
  encode x := [Z.pos (countable.encode (x : Z + Transaction))];
  decode_with_depth_limit bs := match bs with [Z.pos p] => countable.decode p : option (Z + Transaction) | _ => None end;
  check x _ := inr x;
  get_dispatch_info x := match x : Z + Transaction with inl _ => ClassMandatory | inr _ => ClassNormal end;
  class_of i := i : DispatchClass;
  apply_checked x _ _ := dispatch x;
  validate _ _ _ _ := mret (inr tt);
|}.
#[export] Existing Instance frame.

Ltac sample_keeps :=
  intros; first [apply (op_keeps_ret (St := State)) | let Hrun := fresh in intros ? ? ? Hrun%writes_Ok; subst; reflexivity].

Lemma sample_upgrade {B} (f : St -> B) : keeps f upgrade_runtime.
Proof. by intros s a s' [= _ <-]. Qed.

Lemma sample_dispatch (xt : Z + Transaction) s r s' :
  dispatch xt s = Ok (r, s') ->
  t_number s' = t_number s /\ t_marked s' = t_marked s /\
  match xt with
  | inl _ => t_coins s' = t_coins s
  | inr tx => transact NoneOrigin (t_number s) (Types.transaction_from tx) (t_coins s) = Ok (t_coins s')
  end.
Proof.
  unfold dispatch. destruct xt as [t | tx]; [by intros [= _ <-] |].
  destruct (transact _ _ _ _) as [p | |]; [| done | done]. by intros [= _ <-].
Qed.

#[export] Instance laws : InherentLaws.
Proof.
  split.
  - split; sample_keeps.
  - intros xt i n s r s' Hrun. destruct (sample_dispatch xt s r s' Hrun) as (_ & Hm & _). exact Hm.
  - sample_keeps.
  - apply sample_upgrade.
  - sample_keeps.
  - reflexivity.
  - by intros s h s' [= _ <-].
  - reflexivity.
Qed.

#[export] Instance bitcoin : BitcoinRuntime.
Proof.
  refine {| coins_of := t_coins : St -> PalletState; bare := inr : Transaction -> Extrinsic; checked_bare := inr : Transaction -> Checked |}.
  - reflexivity.
  - split; sample_keeps.
  - sample_keeps.
  - split; sample_keeps.
  - sample_keeps.
  - sample_keeps.
  - apply sample_upgrade.
  - sample_keeps.
  - by intros s h s' [= _ <-].
  - intros tx. apply (countable.decode_encode (inr tx : Z + Transaction)).
  - reflexivity.
  - reflexivity.
  - reflexivity.
  - intros tx i n s r s' Hrun. destruct (sample_dispatch (inr tx) s r s' Hrun) as (Hn & _ & Ht). exact (conj Hn Ht).
Defined.

(** An inherent and a transaction that spends the coin of the set. *)
Definition start : St := mk_state 8 [8] [] false 0 0 sample_set.
Definition header : RtHeader := mk_rt_header 9 [9] [1] [2] [PreRuntime [1] [2]].
Definition body : list (option Extrinsic) := [Some (inl 77); Some (inr sample_spend)].
Definition after : St := (from_ok (tt, start) (execute_block header body start)).2.
(** A block with the transaction alone. *)
Definition one_header : RtHeader := mk_rt_header 9 [9] [1] [1] [].
Definition one_after : St :=
  (from_ok (tt, start) (execute_block one_header (map (fun tx => Some (bare tx)) [sample_spend]) start)).2.
End SampleRuntime.

Module ExecutiveWitness.
Import Sample SampleTx SampleRuntime.

Lemma execute_block_spec_witness :
  execute_block_inner header body true start = Ok (tt, after) /\ inherents_were_applied after = false /\
  exists mode inherents rest s1, initialize_block header start = Ok (mode, s1) /\ split_block mode body inherents rest /\ length rest = 1%nat.
Proof.
  assert (execute_block_inner header body true start = Ok (tt, after)) as Hrun by (vm_compute; reflexivity).
  assert (inherents_were_applied start = false) as Hs by reflexivity.
  destruct (execute_block_spec header body true start after Hs) as [Hiff Hmark].
  split; [exact Hrun |]. split; [exact (Hmark Hrun) |].
  destruct (proj1 Hiff Hrun) as (mode & inherents & rest & s1 & s2 & Hi & _ & Hsplit & _).
  exists mode, inherents, rest, s1. split; [exact Hi |]. split; [exact Hsplit |].
  destruct Hsplit as (Hl & Hin & Hout & _). destruct inherents as [| a [| b inherents]].
  - destruct rest as [| c rest]; [discriminate |]. cbn in Hl. injection Hl as <- _. inversion Hout. discriminate.
  - destruct rest as [| c [| e rest]]; cbn in Hl; [discriminate | reflexivity | discriminate].
  - cbn in Hl. injection Hl as _ <- _. inversion Hin as [| ? ? _ Hb]. inversion Hb. discriminate.
Defined.

(** The root of the state is the number of coins. *)
Lemma state_root_unique_witness :
  exists! root, execute_block (with_state_root (mk_rt_header 9 [9] [] [2] [PreRuntime [1] [2]]) root) body start = Ok (tt, after).
Proof. apply (state_root_unique (mk_rt_header 9 [9] [] [2] [PreRuntime [1] [2]]) body start after). vm_compute. reflexivity. Defined.

Lemma executive_refines_ledger_witness :
  exists s', execute_block_inner one_header (map (fun tx => Some (bare tx)) [sample_spend]) true start = Ok (tt, s') /\
    Ledger.execute_block 9 [sample_spend] sample_set = Ok (coins_of s').
Proof.
  assert (execute_block_inner one_header (map (fun tx => Some (bare tx)) [sample_spend]) true start = Ok (tt, one_after)) as Hrun
    by (vm_compute; reflexivity).
  exists one_after. split; [exact Hrun |]. exact (executive_refines_ledger one_header [sample_spend] true start one_after Hrun).
Defined.
End ExecutiveWitness.
