(* ===== verification/NetworkRequest.v ===== *)
(** * Requests of Subcoin nodes ([crates/subcoin-service/src/network_request_handler.rs])

    The request-response protocol that Subcoin nodes offer each other besides the
    ones of Substrate: the best block, a header by number, and the number of coins
    at a block. *)

From Stdlib Require Import ZArith Lia String.
From stdpp Require Import prelude gmap strings.
From S2P Require Import Prelude.

(** Headers of Substrate blocks. *)
Class SubstrateHeader := {
  SubHeader : Type;
  sub_hash : SubHeader -> bytes;
  sub_number : SubHeader -> Z;
}.

Section messages.
Context `{!SubstrateHeader}.

Inductive NetworkRequest :=
| GetBestBlock
| GetCoinsCount (block_hash : bytes)
| GetBlockHeader (block_number : Z).

Inductive NetworkResponse :=
| BestBlock (best_hash : bytes) (best_number : Z)
| CoinsCount (block_hash : bytes) (count : Z)
| BlockHeader (block_header : SubHeader).

Inductive HandleRequestError :=
| InvalidHash
| ClientError (code : Z)
| HashNotFound (block_number : Z)
| HeaderNotFound (block_number : Z) (block_hash : bytes)
| RuntimeApiError (code : Z)
| SendResponse.
End messages.

(** SCALE encoding of the versioned messages, of which there is one version, and the
    text of an error. *)
Class RequestCodec `{!SubstrateHeader} := {
  encode_request : NetworkRequest -> bytes;
  decode_request : bytes -> option NetworkRequest;
  encode_response : string + NetworkResponse -> bytes;
  decode_response : bytes -> option (string + NetworkResponse);
  error_text : HandleRequestError -> string;
  bytes2hex : bytes -> string;
}.
Class RequestCodecLaws `{!SubstrateHeader, !RequestCodec} : Prop := {
  decode_encode_request r : decode_request (encode_request r) = Some r;
  decode_encode_response r : decode_response (encode_response r) = Some r;
}.

Section handler.
Context `{!SubstrateHeader, !RequestCodec}.

Definition generate_protocol_name (genesis_hash : bytes) (fork_id : option string) : string :=
  let genesis_hash := bytes2hex genesis_hash in
  match fork_id with
  | Some fork_id => "/" +:+ (genesis_hash +:+ ("/" +:+ (fork_id +:+ "/subcoin/1")))
  | None => "/" +:+ (genesis_hash +:+ "/subcoin/1")
  end.

Definition generate_legacy_protocol_name (protocol_id : string) : string := "/" +:+ (protocol_id +:+ "/subcoin/1").

(** What the handler asks of the client; errors are numbers. *)
Record HandlerClient := mk_handler_client {
  hc_best_hash : bytes;
  hc_best_number : Z;
  hc_hash : Z -> Z + option bytes;
  hc_header : bytes -> Z + option SubHeader;
  hc_coins_count : bytes -> Z + Z;
}.

Definition process_request_v1 (client : HandlerClient) (request : NetworkRequest) : res HandleRequestError NetworkResponse :=
  match request with
  | GetBestBlock => Ok (BestBlock (hc_best_hash client) (hc_best_number client))
  | GetCoinsCount block_hash =>
      match hc_coins_count client block_hash with
      | inl e => Err (RuntimeApiError e)
      | inr count => Ok (CoinsCount block_hash count)
      end
  | GetBlockHeader block_number =>
      match hc_hash client block_number with
      | inl e => Err (ClientError e)
      | inr None => Err (HashNotFound block_number)
      | inr (Some block_hash) =>
          match hc_header client block_hash with
          | inl e => Err (ClientError e)
          | inr None => Err (HeaderNotFound block_number block_hash)
          | inr (Some block_header) => Ok (BlockHeader block_header)
          end
      end
  end.

(** The response that is sent, and the result; [receiving] is whether the requester
    still waits. *)
Definition handle_request (client : HandlerClient) (payload : bytes) (receiving : bool)
    : option bytes * res HandleRequestError unit :=
  match decode_request payload with
  | None => (None, Err InvalidHash)
  | Some request =>
      let response :=
        match process_request_v1 client request with
        | Ok r => inr r
        | Err e => inl (error_text e)
        | Panic => inl EmptyString
        end in
      if receiving then (Some (encode_response response), Ok tt) else (None, Err SendResponse)
  end.

(** A request and its answer over the wire. *)
Definition ask (client : HandlerClient) (request : NetworkRequest) : option (string + NetworkResponse) :=
  (handle_request client (encode_request request) true).1 ≫= decode_response.

Lemma process_request_total client request : process_request_v1 client request <> Panic.
Proof.
  destruct request; cbn; [done | by destruct (hc_coins_count _ _) |].
  destruct (hc_hash _ _) as [| [h |]]; [done | | done]. by destruct (hc_header _ _) as [| [|]].
Qed.

(** A request reaches the handler and its answer the requester, as they were sent. *)
Lemma ask_spec `{!RequestCodecLaws} client request :
  ask client request = Some match process_request_v1 client request with
                            | Ok r => inr r
                            | Err e => inl (error_text e)
                            | Panic => inl EmptyString
                            end.
Proof. unfold ask, handle_request. rewrite decode_encode_request. cbn. by rewrite decode_encode_response. Qed.
End handler.
