(* ===== verification/SyncingStrategy.v ===== *)
(** * The syncing strategy of snapcake ([crates/subcoin-snapcake/src/syncing_strategy.rs])

    Snapcake finds the block to take a snapshot of by asking its peers: for their best
    block, for the header of the target, and for the number of coins there; then it
    starts the state sync.  The state sync and the chain sync of Substrate are
    parameters.  [debug_assert!] is off, as in a release. *)

From Stdlib Require Import ZArith Lia String.
From stdpp Require Import prelude gmap strings.
From S2P Require Import Prelude Collections NetworkRequest.

Abbreviation PeerId := Z.

Definition MAX_BLOCKS_IN_RESPONSE : Z := 128.
Definition CONFIRMATION_DEPTH : Z := 6.

(** [sc_network]: the modes of syncing. *)
Inductive SyncMode := ModeFull | ModeLightState (skip_proofs storage_chain_mode : bool) | ModeWarp.
Inductive ChainSyncMode := ChainFull | ChainLightState (skip_proofs storage_chain_mode : bool).

Definition chain_sync_mode (sync_mode : SyncMode) : ChainSyncMode :=
  match sync_mode with
  | ModeFull => ChainFull
  | ModeLightState skip_proofs storage_chain_mode => ChainLightState skip_proofs storage_chain_mode
  | ModeWarp => ChainFull
  end.

Inductive TargetBlock := TargetHash (hash : bytes) | TargetNumber (number : Z) | LastFinalized.

(** [sc_network_common::sync::message]. *)
Inductive FromBlock := FromHash (hash : bytes) | FromNumber (number : Z).
Inductive Direction := Ascending | Descending.
#[export] Instance from_block_eq_dec : EqDecision FromBlock.
Proof. solve_decision. Defined.
#[export] Instance direction_eq_dec : EqDecision Direction.
Proof. solve_decision. Defined.
Definition ATTRIBUTE_HEADER : Z := 1.

Record BlockRequest := mk_block_request {
  br_id : Z;
  br_fields : Z;
  br_from : FromBlock;
  br_direction : Direction;
  br_max : option Z;
}.
#[export] Instance block_request_eq_dec : EqDecision BlockRequest.
Proof. solve_decision. Defined.

(** The keys of strategies. *)
Inductive StrategyKey := StateKey | WarpKey | ChainSyncKey | SubcoinKey | OtherKey (name : string).

Inductive SyncError := SyncErrorCode (code : Z).

Section data.
Context `{!SubstrateHeader}.

Record BlockData := mk_block_data { bd_header : option SubHeader }.

(** What the strategy asks the engine to do. *)
Inductive SyncingAction :=
| SubcoinRequest (peer : PeerId) (request : NetworkRequest)
| HeaderRequest (peer : PeerId) (request : BlockRequest)
| ImportBlocks
| Finished
| OtherAction (code : Z).

(** A response as the engine delivers it: bytes, blocks, or something else. *)
Inductive ResponsePayload :=
| PayloadBytes (bs : bytes)
| PayloadBlocks (request : BlockRequest) (blocks : option (list BlockData))
| PayloadOther.
End data.

(** The strategies of [sc_network_sync]. *)
Class SyncStrategies `{!SubstrateHeader} := {
  StateStrategy : Type;
  ChainSyncStrategy : Type;
  SyncStatus : Type;
  (** Target, number of coins and best blocks of the peers. *)
  new_with_provider : SubHeader -> Z -> list (PeerId * Z) -> StateStrategy;
  is_succeeded : StateStrategy -> bool;
  state_add_peer : PeerId -> bytes -> Z -> StateStrategy -> StateStrategy;
  state_remove_peer : PeerId -> StateStrategy -> StateStrategy;
  state_announce : bool -> PeerId -> SubHeader -> StateStrategy -> StateStrategy * option (bytes * Z);
  on_state_response : PeerId -> bytes -> StateStrategy -> StateStrategy;
  state_actions : StateStrategy -> StateStrategy * list SyncingAction;
  state_status : StateStrategy -> SyncStatus;
  new_chain_sync : ChainSyncMode -> Z -> Z -> SyncError + ChainSyncStrategy;
  chain_add_peer : PeerId -> bytes -> Z -> ChainSyncStrategy -> ChainSyncStrategy;
  chain_remove_peer : PeerId -> ChainSyncStrategy -> ChainSyncStrategy;
  chain_announce : bool -> PeerId -> SubHeader -> ChainSyncStrategy -> ChainSyncStrategy * option (bytes * Z);
  chain_fork_request : list PeerId -> bytes -> Z -> ChainSyncStrategy -> ChainSyncStrategy;
  chain_request_justification : bytes -> Z -> ChainSyncStrategy -> ChainSyncStrategy;
  chain_clear_justifications : ChainSyncStrategy -> ChainSyncStrategy;
  chain_justification_import : bytes -> Z -> bool -> ChainSyncStrategy -> ChainSyncStrategy;
  chain_update_info : bytes -> Z -> ChainSyncStrategy -> ChainSyncStrategy;
  (** [create_block_request_action]: the action is a request for blocks. *)
  chain_block_request : PeerId -> BlockRequest -> ChainSyncStrategy -> ChainSyncStrategy;
  chain_status : ChainSyncStrategy -> SyncStatus;
  status_major_syncing : SyncStatus -> bool;
  chain_downloaded : ChainSyncStrategy -> Z;
  chain_requests : ChainSyncStrategy -> Z;
}.

Record SnapcakeConfig := mk_snapcake_config {
  cfg_mode : SyncMode;
  cfg_max_parallel_downloads : Z;
  cfg_max_blocks_per_request : Z;
  cfg_block_protocol : string;
}.

(** ** The strategy *)

Section strategy.
Context `{!SubstrateHeader, !RequestCodec, !SyncStrategies, !HashOrder}.

Record SnapcakeSyncingStrategy := mk_snapcake {
  config : SnapcakeConfig;
  state : option StateStrategy;
  chain_sync : option ChainSyncStrategy;
  peer_best_blocks : gmap PeerId (bytes * Z);
  peer_state_sync_target_headers : gmap PeerId SubHeader;
  pending_best_block_requests : list PeerId;
  pending_header_requests : list (PeerId * BlockRequest);
  pending_header_requests_by_number : list (PeerId * Z);
  pending_coins_count_requests : list (PeerId * bytes);
  coins_count : gmap bytes Z;
  state_sync_complete : bool;
  sync_target : TargetBlock;
  (** Whether the sender of the shutdown signal is still there. *)
  shutdown_tx : bool;
}.

Implicit Type s : SnapcakeSyncingStrategy.

Definition set_state_strategy st s := mk_snapcake (config s) st (chain_sync s) (peer_best_blocks s) (peer_state_sync_target_headers s)
  (pending_best_block_requests s) (pending_header_requests s) (pending_header_requests_by_number s)
  (pending_coins_count_requests s) (coins_count s) (state_sync_complete s) (sync_target s) (shutdown_tx s).
Definition set_chain_sync cs s := mk_snapcake (config s) (state s) cs (peer_best_blocks s) (peer_state_sync_target_headers s)
  (pending_best_block_requests s) (pending_header_requests s) (pending_header_requests_by_number s)
  (pending_coins_count_requests s) (coins_count s) (state_sync_complete s) (sync_target s) (shutdown_tx s).
Definition set_best_blocks m s := mk_snapcake (config s) (state s) (chain_sync s) m (peer_state_sync_target_headers s)
  (pending_best_block_requests s) (pending_header_requests s) (pending_header_requests_by_number s)
  (pending_coins_count_requests s) (coins_count s) (state_sync_complete s) (sync_target s) (shutdown_tx s).
Definition set_targets m s := mk_snapcake (config s) (state s) (chain_sync s) (peer_best_blocks s) m
  (pending_best_block_requests s) (pending_header_requests s) (pending_header_requests_by_number s)
  (pending_coins_count_requests s) (coins_count s) (state_sync_complete s) (sync_target s) (shutdown_tx s).
Definition set_pending_best l s := mk_snapcake (config s) (state s) (chain_sync s) (peer_best_blocks s) (peer_state_sync_target_headers s)
  l (pending_header_requests s) (pending_header_requests_by_number s)
  (pending_coins_count_requests s) (coins_count s) (state_sync_complete s) (sync_target s) (shutdown_tx s).
Definition set_pending_headers l s := mk_snapcake (config s) (state s) (chain_sync s) (peer_best_blocks s) (peer_state_sync_target_headers s)
  (pending_best_block_requests s) l (pending_header_requests_by_number s)
  (pending_coins_count_requests s) (coins_count s) (state_sync_complete s) (sync_target s) (shutdown_tx s).
Definition set_pending_numbers l s := mk_snapcake (config s) (state s) (chain_sync s) (peer_best_blocks s) (peer_state_sync_target_headers s)
  (pending_best_block_requests s) (pending_header_requests s) l
  (pending_coins_count_requests s) (coins_count s) (state_sync_complete s) (sync_target s) (shutdown_tx s).
Definition set_pending_coins l s := mk_snapcake (config s) (state s) (chain_sync s) (peer_best_blocks s) (peer_state_sync_target_headers s)
  (pending_best_block_requests s) (pending_header_requests s) (pending_header_requests_by_number s)
  l (coins_count s) (state_sync_complete s) (sync_target s) (shutdown_tx s).
Definition set_coins_count m s := mk_snapcake (config s) (state s) (chain_sync s) (peer_best_blocks s) (peer_state_sync_target_headers s)
  (pending_best_block_requests s) (pending_header_requests s) (pending_header_requests_by_number s)
  (pending_coins_count_requests s) m (state_sync_complete s) (sync_target s) (shutdown_tx s).
(** The state sync is over: the shutdown is signalled. *)
Definition complete_state_sync s := mk_snapcake (config s) None (chain_sync s) (peer_best_blocks s) (peer_state_sync_target_headers s)
  (pending_best_block_requests s) (pending_header_requests s) (pending_header_requests_by_number s)
  (pending_coins_count_requests s) (coins_count s) true (sync_target s) false.

Definition new (c : SnapcakeConfig) (target : TargetBlock) : res SyncError SnapcakeSyncingStrategy :=
  let max_blocks := if MAX_BLOCKS_IN_RESPONSE <? cfg_max_blocks_per_request c then MAX_BLOCKS_IN_RESPONSE
                    else cfg_max_blocks_per_request c in
  let c := mk_snapcake_config (cfg_mode c) (cfg_max_parallel_downloads c) max_blocks (cfg_block_protocol c) in
  chain_sync ← of_sum (new_chain_sync (chain_sync_mode (cfg_mode c)) (cfg_max_parallel_downloads c) (cfg_max_blocks_per_request c));
  Ok (mk_snapcake c None (Some chain_sync) ∅ ∅ [] [] [] [] ∅ false target true).

Definition proceed_to_next {E : Type} s : res E SnapcakeSyncingStrategy :=
  match state s with
  | Some _ => Ok (set_state_strategy None s)
  | None => Panic
  end.

(** The first peer in the order of the map. *)
Definition select_state_sync_target s : option (PeerId * SubHeader) :=
  peer ← head (hash_iter (dom (peer_state_sync_target_headers s)));
  header ← peer_state_sync_target_headers s !! peer;
  Some (peer, header).

(** A target header is recorded, and the coins there are asked for. *)
Definition note_target (peer : PeerId) (header : SubHeader) s : SnapcakeSyncingStrategy :=
  let s := set_targets (<[peer := header]> (peer_state_sync_target_headers s)) s in
  set_pending_coins (pending_coins_count_requests s ++ [(peer, sub_hash header)]) s.

Definition process_block_response {E : Type} (peer : PeerId) (blocks : list BlockData) (index : nat) s
    : res E SnapcakeSyncingStrategy :=
  block ← expect (blocks !! index);
  target_header ← expect (bd_header block);
  Ok (note_target peer target_header s).

(** [position] and [remove]: the first request that is equal. *)
Fixpoint remove_request (r : PeerId * BlockRequest) (l : list (PeerId * BlockRequest)) : option (list (PeerId * BlockRequest)) :=
  match l with
  | [] => None
  | x :: l => if decide (x = r) then Some l else (x ::.) <$> remove_request r l
  end.

Definition on_block_response {E : Type} (peer : PeerId) (request : BlockRequest) (blocks : list BlockData) s
    : res E SnapcakeSyncingStrategy :=
  match sync_target s with
  | TargetNumber _ => process_block_response peer blocks 0 s
  | _ =>
      match remove_request (peer, request) (pending_header_requests s) with
      | Some l =>
          let s := set_pending_headers l s in
          match sync_target s with
          | LastFinalized =>
              if Z.of_nat (length blocks) <? CONFIRMATION_DEPTH then Ok s
              else process_block_response peer blocks (Z.to_nat (CONFIRMATION_DEPTH - 1)) s
          | _ => process_block_response peer blocks 0 s
          end
      | None => Ok s
      end
  end.

(** The request for the header of the target block. *)
Definition header_request (from : bytes) (max : Z) : BlockRequest :=
  mk_block_request 0 ATTRIBUTE_HEADER (FromHash from) Descending (Some max).

Definition on_peer_best_block (peer : PeerId) (best_hash : bytes) (best_number : Z) s : SnapcakeSyncingStrategy :=
  let s := set_best_blocks (<[peer := (best_hash, best_number)]> (peer_best_blocks s)) s in
  let s := set_state_strategy (state_add_peer peer best_hash best_number <$> state s) s in
  let s := set_chain_sync (chain_add_peer peer best_hash best_number <$> chain_sync s) s in
  match sync_target s with
  | TargetNumber n => set_pending_numbers (pending_header_requests_by_number s ++ [(peer, n)]) s
  | TargetHash h => set_pending_headers (pending_header_requests s ++ [(peer, header_request h 1)]) s
  | LastFinalized => set_pending_headers (pending_header_requests s ++ [(peer, header_request best_hash CONFIRMATION_DEPTH)]) s
  end.

Definition on_subcoin_response_result_v1 (peer : PeerId) (response : string + NetworkResponse) s : SnapcakeSyncingStrategy :=
  match response with
  | inl _ => s
  | inr (BestBlock best_hash best_number) => on_peer_best_block peer best_hash best_number s
  | inr (CoinsCount block_hash count) => set_coins_count (<[block_hash := count]> (coins_count s)) s
  | inr (BlockHeader block_header) => note_target peer block_header s
  end.

Definition add_peer (peer : PeerId) s : SnapcakeSyncingStrategy :=
  set_pending_best (pending_best_block_requests s ++ [peer]) s.

Definition remove_peer (peer : PeerId) s : SnapcakeSyncingStrategy :=
  let s := set_state_strategy (state_remove_peer peer <$> state s) s in
  let s := set_chain_sync (chain_remove_peer peer <$> chain_sync s) s in
  let s := set_best_blocks (delete peer (peer_best_blocks s)) s in
  let s := set_pending_headers (filter (fun x => x.1 <> peer) (pending_header_requests s)) s in
  let s := set_pending_numbers (filter (fun x => x.1 <> peer) (pending_header_requests_by_number s)) s in
  set_pending_coins (filter (fun x => x.1 <> peer) (pending_coins_count_requests s)) s.

Definition on_validated_block_announce (is_best : bool) (peer : PeerId) (header : SubHeader) s
    : SnapcakeSyncingStrategy * option (bytes * Z) :=
  let '(s, new_best) :=
    match state s with
    | Some st => let '(st, b) := state_announce is_best peer header st in (set_state_strategy (Some st) s, b)
    | None =>
        match chain_sync s with
        | Some cs => let '(cs, b) := chain_announce is_best peer header cs in (set_chain_sync (Some cs) s, b)
        | None => (s, Some (sub_hash header, sub_number header))
        end
    end in
  match new_best, peer_best_blocks s !! peer with
  | Some b, Some _ => (set_best_blocks (<[peer := b]> (peer_best_blocks s)) s, new_best)
  | _, _ => (s, new_best)
  end.

Definition set_sync_fork_request (peers : list PeerId) (hash : bytes) (number : Z) s : SnapcakeSyncingStrategy :=
  set_chain_sync (chain_fork_request peers hash number <$> chain_sync s) s.
Definition request_justification (hash : bytes) (number : Z) s : SnapcakeSyncingStrategy :=
  set_chain_sync (chain_request_justification hash number <$> chain_sync s) s.
Definition clear_justification_requests s : SnapcakeSyncingStrategy :=
  set_chain_sync (chain_clear_justifications <$> chain_sync s) s.
Definition on_justification_import (hash : bytes) (number : Z) (success : bool) s : SnapcakeSyncingStrategy :=
  set_chain_sync (chain_justification_import hash number success <$> chain_sync s) s.
Definition update_chain_info (best_hash : bytes) (best_number : Z) s : SnapcakeSyncingStrategy :=
  set_chain_sync (chain_update_info best_hash best_number <$> chain_sync s) s.

Definition on_generic_response {E : Type} (peer : PeerId) (key : StrategyKey) (protocol_name : string) (response : ResponsePayload) s
    : res E SnapcakeSyncingStrategy :=
  match key with
  | StateKey =>
      match state s, response with
      | Some st, PayloadBytes bs => Ok (set_state_strategy (Some (on_state_response peer bs st)) s)
      | _, _ => Ok s
      end
  | WarpKey => Panic
  | ChainSyncKey =>
      if decide (protocol_name = cfg_block_protocol (config s)) then
        match response with
        | PayloadBlocks request (Some blocks) => on_block_response peer request blocks s
        | _ => Ok s
        end
      else Ok s
  | SubcoinKey =>
      match response with
      | PayloadBytes bs =>
          match decode_response bs with
          | Some r => Ok (on_subcoin_response_result_v1 peer r s)
          | None => Ok s
          end
      | _ => Ok s
      end
  | OtherKey _ => Ok s
  end.

Definition is_major_syncing {E : Type} s : res E bool :=
  match state s with
  | Some _ => Ok true
  | None => cs ← expect (chain_sync s); Ok (status_major_syncing (chain_status cs))
  end.

Definition num_peers s : Z := Z.of_nat (size (peer_best_blocks s)).

Definition status {E : Type} s : res E SyncStatus :=
  match state s with
  | Some st => Ok (state_status st)
  | None => cs ← expect (chain_sync s); Ok (chain_status cs)
  end.

Definition num_downloaded_blocks s : Z := match chain_sync s with Some cs => chain_downloaded cs | None => 0 end.
Definition num_sync_requests s : Z := match chain_sync s with Some cs => chain_requests cs | None => 0 end.

(** The start of [actions]: the state sync begins when the target and the coins there
    are known. *)
Definition start_state_sync s : SnapcakeSyncingStrategy :=
  match state s, state_sync_complete s with
  | None, false =>
      match select_state_sync_target s with
      | Some (_, header) =>
          match coins_count s !! sub_hash header with
          | Some total_coins =>
              let peers := omap (fun p => (fun b : bytes * Z => (p, b.2)) <$> peer_best_blocks s !! p)
                             (hash_iter (dom (peer_best_blocks s))) in
              set_state_strategy (Some (new_with_provider header total_coins peers)) s
          | None => s
          end
      | None => s
      end
  | _, _ => s
  end.

(** The requests for headers stay pending. *)
Fixpoint create_header_requests {E : Type} (requests : list (PeerId * BlockRequest)) (cs : option ChainSyncStrategy)
    : res E (option ChainSyncStrategy * list SyncingAction) :=
  match requests with
  | [] => Ok (cs, [])
  | (peer, request) :: requests =>
      c ← expect cs;
      '(cs, actions) ← create_header_requests requests (Some (chain_block_request peer request c));
      Ok (cs, HeaderRequest peer request :: actions)
  end.

(** The actions to be taken next, of one kind; [None] if there is none. *)
Definition next_actions {E : Type} s : res E (SnapcakeSyncingStrategy * option (list SyncingAction)) :=
  match pending_best_block_requests s, pending_header_requests s, pending_coins_count_requests s,
        pending_header_requests_by_number s, state s with
  | (_ :: _) as peers, _, _, _, _ => Ok (set_pending_best [] s, Some (map (fun p => SubcoinRequest p GetBestBlock) peers))
  | [], (_ :: _) as requests, _, _, _ =>
      '(cs, actions) ← create_header_requests requests (chain_sync s);
      Ok (set_chain_sync cs s, Some actions)
  | [], [], (_ :: _) as requests, _, _ =>
      Ok (set_pending_coins [] s, Some (map (fun '(p, h) => SubcoinRequest p (GetCoinsCount h)) requests))
  | [], [], [], (_ :: _) as requests, _ =>
      Ok (set_pending_numbers [] s, Some (map (fun '(p, n) => SubcoinRequest p (GetBlockHeader n)) requests))
  | [], [], [], [], Some st =>
      let '(st, actions) := state_actions st in Ok (set_state_strategy (Some st) s, Some actions)
  | [], [], [], [], None => Ok (s, None)
  end.

Definition is_import (a : SyncingAction) : bool := match a with ImportBlocks => true | _ => false end.
Definition is_finished (a : SyncingAction) : bool := match a with Finished => true | _ => false end.

(** The actions, and whether the shutdown is signalled. *)
Definition actions {E : Type} s : res E (SnapcakeSyncingStrategy * list SyncingAction * bool) :=
  '(s, next) ← next_actions (start_state_sync s);
  match next with
  | None => Ok (s, [], false)
  | Some actions =>
      let complete := existsb is_import actions in
      let signal := complete && shutdown_tx s in
      let s := if complete then complete_state_sync s else s in
      s ← (if existsb is_finished actions then proceed_to_next s else Ok s);
      Ok (s, actions, signal)
  end.

(** ** Runs *)

Inductive StrategyEvent :=
| PeerAdded (peer : PeerId)
| PeerRemoved (peer : PeerId)
| BlockAnnounced (is_best : bool) (peer : PeerId) (header : SubHeader)
| ResponseReceived (peer : PeerId) (key : StrategyKey) (protocol_name : string) (response : ResponsePayload)
| ActionsTaken.

(** The state after an event, the actions, and whether the shutdown is signalled. *)
Definition strategy_event {E : Type} (e : StrategyEvent) s : res E (SnapcakeSyncingStrategy * list SyncingAction * bool) :=
  match e with
  | PeerAdded peer => Ok (add_peer peer s, [], false)
  | PeerRemoved peer => Ok (remove_peer peer s, [], false)
  | BlockAnnounced is_best peer header => Ok ((on_validated_block_announce is_best peer header s).1, [], false)
  | ResponseReceived peer key protocol_name response => s ← on_generic_response peer key protocol_name response s; Ok (s, [], false)
  | ActionsTaken => actions s
  end.

Fixpoint strategy_run {E : Type} (events : list StrategyEvent) s : res E (SnapcakeSyncingStrategy * list SyncingAction * nat) :=
  match events with
  | [] => Ok (s, [], 0%nat)
  | e :: events =>
      '(s, l, signal) ← strategy_event e s;
      '(s, l', n) ← strategy_run events s;
      Ok (s, l ++ l', ((if signal : bool then 1 else 0) + n)%nat)
  end.
End strategy.
