(* ===== verification/SyncingStrategyFacts.v ===== *)
(** * Theorems on the syncing strategy of snapcake

    The shutdown is signalled once and without panics when peers answer properly; the
    dialogue with honest peers starts the state sync at the block that was asked for;
    one peer that does not answer holds up everything. *)

From Stdlib Require Import ZArith Lia String.
From stdpp Require Import prelude gmap strings.
From S2P Require Import Prelude Collections NetworkRequest SyncingStrategy.

Section facts.
Context `{!SubstrateHeader, !RequestCodec, !SyncStrategies, !HashOrder}.
Implicit Type s : SnapcakeSyncingStrategy.

(** ** Completion *)

(** The chain sync is always there; once the state sync is complete it is gone, and
    then the sender of the signal is used up. *)
Record strategy_ok s : Prop := {
  ok_chain : is_Some (chain_sync s);
  ok_complete : state_sync_complete s = true -> state s = None;
  ok_signal : shutdown_tx s = negb (state_sync_complete s);
}.

Lemma new_ok c target s : new c target = Ok s -> strategy_ok s /\ state_sync_complete s = false.
Proof. unfold new. destruct (new_chain_sync _ _ _); [done |]. intros [= <-]. split; [split; done | done]. Qed.

(** Nothing but the actions starts or ends a state sync. *)
Lemma frame_ok s s' :
  (is_Some (chain_sync s) -> is_Some (chain_sync s')) -> (state s = None -> state s' = None) ->
  state_sync_complete s' = state_sync_complete s -> shutdown_tx s' = shutdown_tx s ->
  strategy_ok s -> strategy_ok s'.
Proof. intros Hc Hst Hcomp Htx [O1 O2 O3]. split; [by apply Hc | rewrite Hcomp; auto | congruence]. Qed.

Lemma fmap_is_Some {A B} (f : A -> B) (o : option A) : is_Some o -> is_Some (f <$> o).
Proof. intros [x ->]. by eexists. Qed.

Lemma fmap_None_stays {A B} (f : A -> B) (o : option A) : o = None -> f <$> o = None.
Proof. by intros ->. Qed.

Lemma remove_peer_ok p s : strategy_ok s -> strategy_ok (remove_peer p s) /\ state_sync_complete (remove_peer p s) = state_sync_complete s.
Proof. intros Hs. split; [| done]. revert Hs. apply frame_ok; [apply fmap_is_Some | apply fmap_None_stays | done | done]. Qed.

Lemma announce_ok b p h s :
  strategy_ok s ->
  strategy_ok (on_validated_block_announce b p h s).1 /\
  state_sync_complete (on_validated_block_announce b p h s).1 = state_sync_complete s.
Proof.
  intros Hs. unfold on_validated_block_announce.
  destruct (state s) as [st |] eqn:Hst.
  - destruct (state_announce b p h st) as [st' [nb |]]; cbn [fst set_state_strategy peer_best_blocks];
      [destruct (peer_best_blocks s !! p) |]; (split; [| done]); revert Hs; apply frame_ok; cbn; congruence.
  - destruct (chain_sync s) as [cs |] eqn:Hcs; [destruct (chain_announce b p h cs) as [cs' nb] | ];
      cbn [fst set_chain_sync peer_best_blocks]; repeat case_match; (split; [| done]); revert Hs; apply frame_ok; cbn; try done; congruence.
Qed.

Lemma best_block_ok p h n s :
  strategy_ok s -> strategy_ok (on_peer_best_block p h n s) /\ state_sync_complete (on_peer_best_block p h n s) = state_sync_complete s.
Proof.
  intros Hs. unfold on_peer_best_block. cbn [set_chain_sync set_state_strategy set_best_blocks sync_target].
  destruct (sync_target s); (split; [| done]); revert Hs;
    (apply frame_ok; [apply fmap_is_Some | apply fmap_None_stays | done | done]).
Qed.

(** A response with a header where one is expected. *)
Definition proper_blocks (target : TargetBlock) (blocks : list BlockData) : Prop :=
  match target with
  | LastFinalized => forall b, blocks !! Z.to_nat (CONFIRMATION_DEPTH - 1) = Some b -> is_Some (bd_header b)
  | _ => exists b, head blocks = Some b /\ is_Some (bd_header b)
  end.

Lemma process_block_ok {E : Type} p blocks i s b h :
  strategy_ok s -> blocks !! i = Some b -> bd_header b = Some h ->
  exists s', process_block_response (E := E) p blocks i s = Ok s' /\ strategy_ok s' /\ state_sync_complete s' = state_sync_complete s.
Proof.
  intros Hs Hb Hh. unfold process_block_response. rewrite Hb. cbn. rewrite Hh. cbn. eexists. split; [done |].
  split; [| done]. revert Hs. by apply frame_ok.
Qed.

Lemma block_response_ok {E : Type} p r blocks s :
  strategy_ok s -> proper_blocks (sync_target s) blocks ->
  exists s', on_block_response (E := E) p r blocks s = Ok s' /\ strategy_ok s' /\ state_sync_complete s' = state_sync_complete s.
Proof.
  intros Hs Hp. unfold on_block_response.
  assert (forall l, strategy_ok (set_pending_headers l s)) as Hl by (intros l; revert Hs; by apply frame_ok).
  destruct (sync_target s) as [hash | n |] eqn:Ht; cbn [proper_blocks] in Hp.
  - destruct Hp as (b & Hb & h & Hh). destruct (remove_request _ _) as [l |]; [| by exists s].
    cbn [set_pending_headers sync_target]. rewrite Ht. by apply (process_block_ok p blocks 0 (set_pending_headers l s) b h (Hl l)); [destruct blocks |].
  - destruct Hp as (b & Hb & h & Hh). by apply (process_block_ok p blocks 0 s b h Hs); [destruct blocks |].
  - destruct (remove_request _ _) as [l |]; [| by exists s]. cbn [set_pending_headers sync_target]. rewrite Ht.
    destruct (Z.ltb_spec (Z.of_nat (length blocks)) CONFIRMATION_DEPTH); [by eexists |].
    destruct (lookup_lt_is_Some_2 blocks (Z.to_nat (CONFIRMATION_DEPTH - 1))) as [b Hb]; [unfold CONFIRMATION_DEPTH in *; lia |].
    destruct (Hp b Hb) as [h Hh]. by apply (process_block_ok p blocks _ (set_pending_headers l s) b h (Hl l)).
Qed.

(** Events that do not make the strategy panic. *)
Definition proper_event (target : TargetBlock) (e : StrategyEvent) : Prop :=
  match e with
  | ResponseReceived _ WarpKey _ _ => False
  | ResponseReceived _ ChainSyncKey _ (PayloadBlocks _ (Some blocks)) => proper_blocks target blocks
  | _ => True
  end.

(** The state sync does not import and finish at once. *)
Class StateStrategyLaws : Prop := {
  import_before_finish st : existsb is_import (state_actions st).2 = true -> existsb is_finished (state_actions st).2 = false;
}.

Lemma header_requests_ok {E : Type} l cs :
  is_Some cs -> exists cs', create_header_requests (E := E) l cs = Ok (cs', map (fun x => HeaderRequest x.1 x.2) l) /\ is_Some cs'.
Proof.
  revert cs. induction l as [| [p r] l IH]; intros cs Hcs; cbn [create_header_requests map]; [by exists cs |].
  destruct Hcs as [c ->]. cbn [expect mbind res_bind]. destruct (IH (Some (chain_block_request p r c))) as (cs' & -> & Hcs'); [by eexists |].
  by exists cs'.
Qed.

(** What the strategy takes next: requests, or the actions of the state sync. *)
Lemma next_actions_ok {E : Type} s :
  strategy_ok s ->
  exists s' next, next_actions (E := E) s = Ok (s', next) /\ strategy_ok s' /\ state_sync_complete s' = state_sync_complete s /\
    match next with
    | None => s' = s
    | Some l => (existsb is_import l = false /\ existsb is_finished l = false) \/
                (exists st, state s = Some st /\ l = (state_actions st).2 /\ is_Some (state s'))
    end.
Proof.
  intros Hs. unfold next_actions.
  assert (forall {A} (f : A -> SyncingAction) l, (forall x, is_import (f x) = false /\ is_finished (f x) = false) ->
    existsb is_import (map f l) = false /\ existsb is_finished (map f l) = false) as Hmap.
  { intros A f l Hf. induction l as [| x l [IH1 IH2]]; [done |]. cbn. destruct (Hf x) as [-> ->]. done. }
  destruct (pending_best_block_requests s) as [| p ps] eqn:Hb.
  2: { eexists _, _. split; [done |]. split; [revert Hs; by apply frame_ok |]. split; [done |]. left.
       apply (Hmap _ (fun p => SubcoinRequest p GetBestBlock)). done. }
  destruct (pending_header_requests s) as [| r rs] eqn:Hh.
  2: { destruct (header_requests_ok (E := E) (r :: rs) (chain_sync s)) as (cs & -> & Hcs); [apply Hs |]. cbn [mbind res_bind].
       eexists _, _. split; [done |]. split; [revert Hs; apply frame_ok; [done | done | done | done] |]. split; [done |]. left. by apply Hmap. }
  destruct (pending_coins_count_requests s) as [| c cs] eqn:Hc.
  2: { eexists _, _. split; [done |]. split; [revert Hs; by apply frame_ok |]. split; [done |]. left.
       apply (Hmap _ (fun '(p, h) => SubcoinRequest p (GetCoinsCount h))). by intros []. }
  destruct (pending_header_requests_by_number s) as [| n ns] eqn:Hn.
  2: { eexists _, _. split; [done |]. split; [revert Hs; by apply frame_ok |]. split; [done |]. left.
       apply (Hmap _ (fun '(p, h) => SubcoinRequest p (GetBlockHeader h))). by intros []. }
  destruct (state s) as [st |] eqn:Hst.
  2: { by eexists _, _. }
  destruct (state_actions st) as [st' l] eqn:Ha. eexists _, _. split; [done |].
  split; [revert Hs; apply frame_ok; cbn; congruence |]. split; [done |]. right. exists st. rewrite Ha. by split_and!; [| | eexists].
Qed.

Lemma start_ok s : strategy_ok s -> strategy_ok (start_state_sync s) /\ state_sync_complete (start_state_sync s) = state_sync_complete s.
Proof.
  intros Hs. unfold start_state_sync. destruct (state s) eqn:Hst; [done |]. destruct (state_sync_complete s) eqn:Hc; [done |].
  destruct (select_state_sync_target s) as [[p h] |]; [| done]. destruct (coins_count s !! _) as [n |]; [| done].
  split; [| done]. destruct Hs as [O1 O2 O3]. split; cbn; congruence.
Qed.

(** The shutdown is signalled when blocks are imported. *)
Lemma actions_ok {E : Type} `{!StateStrategyLaws} s :
  strategy_ok s ->
  exists s' l signal, actions (E := E) s = Ok (s', l, signal) /\ strategy_ok s' /\
    signal = existsb is_import l /\ state_sync_complete s' = state_sync_complete s || signal /\
    (state_sync_complete s = true -> signal = false).
Proof.
  intros Hs. unfold actions. destruct (start_ok s Hs) as [Hs1 Hc1]. set (s1 := start_state_sync s) in *.
  destruct (next_actions_ok (E := E) s1 Hs1) as (s2 & next & -> & Hs2 & Hc2 & Hnext). cbn [mbind res_bind].
  destruct next as [l |].
  2: { eexists _, _, _. split; [done |]. split_and!; [done | done | rewrite orb_false_r; congruence | done]. }
  destruct Hnext as [[Hi Hf] | (st & Hst & -> & Hst2)].
  - rewrite Hi, Hf. cbn [andb mbind res_bind]. eexists _, _, _. split; [done |]. rewrite Hi, orb_false_r. split_and!; [done | done | congruence | done].
  - assert (state_sync_complete s1 = false) as Hnc.
    { destruct (state_sync_complete s1) eqn:Hc; [| done]. apply Hs1 in Hc. congruence. }
    destruct (existsb is_import (state_actions st).2) eqn:Hi.
    + rewrite (import_before_finish st Hi). cbn [andb mbind res_bind]. rewrite (ok_signal s2 Hs2), Hc2, Hnc. cbn [negb].
      eexists _, _, _. split; [done |]. rewrite Hi, orb_true_r. split_and!; [| done | done | congruence].
      destruct Hs2 as [O1 O2 O3]. by split.
    + cbn [andb]. destruct (existsb is_finished (state_actions st).2).
      * unfold proceed_to_next. destruct Hst2 as [st2 Hst2]. rewrite Hst2. cbn [mbind res_bind].
        eexists _, _, _. split; [done |]. rewrite Hi, orb_false_r. split_and!; [| done | cbn; congruence | done].
        revert Hs2. by apply frame_ok.
      * cbn [mbind res_bind]. eexists _, _, _. split; [done |]. rewrite Hi, orb_false_r. split_and!; [done | done | congruence | done].
Qed.
(** The target is never changed. *)
Lemma block_response_target {E : Type} p r blocks s s' :
  on_block_response (E := E) p r blocks s = Ok s' -> sync_target s' = sync_target s.
Proof.
  unfold on_block_response, process_block_response. intros Hrun.
  repeat (case_match; cbn in Hrun; try done); simplify_eq; try done;
    repeat match type of Hrun with mbind _ _ = _ => apply bind_Ok in Hrun as (? & ? & Hrun) end; by injection Hrun as <-.
Qed.

Lemma next_actions_target {E : Type} s s' next : next_actions (E := E) s = Ok (s', next) -> sync_target s' = sync_target s.
Proof.
  unfold next_actions. intros Hrun.
  repeat (case_match; try done);
    repeat match type of Hrun with mbind _ _ = _ => apply bind_Ok in Hrun as ([? ?] & ? & Hrun) end; by injection Hrun as <-.
Qed.

Lemma start_target s : sync_target (start_state_sync s) = sync_target s.
Proof. unfold start_state_sync. by repeat case_match. Qed.

Lemma event_target {E : Type} e s s' l b : strategy_event (E := E) e s = Ok (s', l, b) -> sync_target s' = sync_target s.
Proof.
  destruct e as [p | p | is_best p h | p k name r |]; cbn [strategy_event].
  - by intros [= <- _ _].
  - by intros [= <- _ _].
  - intros [= <- _ _]. unfold on_validated_block_announce. repeat case_match; simplify_eq; done.
  - intros (s1 & Hrun & [= <- _ _])%bind_Ok. unfold on_generic_response in Hrun.
    destruct k; repeat (case_match; try done); simplify_eq; try done; try (by apply block_response_target in Hrun).
    unfold on_subcoin_response_result_v1, on_peer_best_block. repeat (case_match; try done).
  - unfold actions. intros ([s1 next] & Hn & Hrun)%bind_Ok. apply next_actions_target in Hn. rewrite start_target in Hn.
    destruct next as [acts |]; [| by injection Hrun as <- _ _]. apply bind_Ok in Hrun as (s2 & Hp & [= <- _ _]).
    rewrite <- Hn. repeat case_match; simplify_eq; try done; unfold proceed_to_next in Hp; repeat case_match; by simplify_eq.
Qed.

Lemma event_ok {E : Type} `{!StateStrategyLaws} e s :
  strategy_ok s -> proper_event (sync_target s) e ->
  exists s' l signal, strategy_event (E := E) e s = Ok (s', l, signal) /\ strategy_ok s' /\
    signal = existsb is_import l /\ state_sync_complete s' = state_sync_complete s || signal /\
    (state_sync_complete s = true -> signal = false).
Proof.
  intros Hs He. destruct e as [p | p | is_best p h | p k name r |]; cbn [strategy_event].
  - eexists _, _, _. split; [done |]. rewrite orb_false_r. split_and!; [revert Hs; by apply frame_ok | done ..].
  - destruct (remove_peer_ok p s Hs) as [K1 K2]. eexists _, _, _. split; [done |]. by rewrite orb_false_r.
  - destruct (announce_ok is_best p h s Hs) as [K1 K2]. eexists _, _, _. split; [done |]. by rewrite orb_false_r.
  - assert (exists s', on_generic_response (E := E) p k name r s = Ok s' /\ strategy_ok s' /\ state_sync_complete s' = state_sync_complete s)
      as (s' & -> & K1 & K2).
    { destruct k; cbn [on_generic_response proper_event] in *; [| done | | | by exists s].
      - destruct (state s) as [st |] eqn:Hst; [| by exists s]. destruct r; try (by exists s).
        eexists. split; [done |]. split; [| done]. revert Hs. apply frame_ok; cbn; congruence.
      - case_decide; [| by exists s]. destruct r as [| r [blocks |] |]; try (by exists s). by apply block_response_ok.
      - destruct r as [bs | |]; try (by exists s). destruct (decode_response bs) as [[err | [h n | h n | h]] |]; try (by exists s);
          eexists; (split; [done |]); cbn [on_subcoin_response_result_v1].
        + by apply best_block_ok.
        + split; [revert Hs; by apply frame_ok | done].
        + split; [revert Hs; by apply frame_ok | done]. }
    cbn [mbind res_bind]. eexists _, _, _. split; [done |]. by rewrite orb_false_r.
  - by apply actions_ok.
Qed.


(** ** A silent peer *)

(** The peer neither answers the request nor leaves. *)
Definition unanswered (p : PeerId) (r : BlockRequest) (e : StrategyEvent) : Prop :=
  match e with
  | PeerRemoved q => q <> p
  | ResponseReceived q ChainSyncKey _ (PayloadBlocks r' (Some _)) => (q, r') <> (p, r)
  | _ => True
  end.

Definition only_asks (a : SyncingAction) : Prop :=
  match a with SubcoinRequest _ GetBestBlock | HeaderRequest _ _ => True | _ => False end.

Lemma remove_request_other x r l l' : x ∈ l -> x <> r -> remove_request r l = Some l' -> x ∈ l'.
Proof.
  intros Hx Hne. revert l'. induction l as [| y l IH]; intros l'; [by apply elem_of_nil in Hx |]. cbn [remove_request].
  apply elem_of_cons in Hx as [<- | Hx].
  - rewrite decide_False by done. destruct (remove_request r l); [| done]. intros [= <-]. left.
  - case_decide; [by intros [= <-] |]. destruct (remove_request r l) as [l2 |]; [| done]. intros [= <-]. right. by apply IH.
Qed.

Lemma block_response_pending {E : Type} p r q r' blocks s s' :
  (p, r) ∈ pending_header_requests s -> (q, r') <> (p, r) ->
  on_block_response (E := E) q r' blocks s = Ok s' -> (p, r) ∈ pending_header_requests s'.
Proof.
  intros Hp Hne. unfold on_block_response, process_block_response, note_target.
  assert (forall i (s1 : SnapcakeSyncingStrategy), (block ← expect (blocks !! i); target_header ← expect (bd_header block);
    Ok (note_target q target_header s1)) = @Ok E _ s' -> pending_header_requests s' = pending_header_requests s1) as Hpr.
  { intros i s1 (b & _ & (h & _ & [= <-])%bind_Ok)%bind_Ok. done. }
  destruct (sync_target s) eqn:Ht; [| intros Hrun; by rewrite (Hpr _ _ Hrun) |];
    (destruct (remove_request (q, r') (pending_header_requests s)) as [l |] eqn:Hl; [| by intros [= <-]]);
    pose proof (remove_request_other (p, r) _ _ _ Hp ltac:(done) Hl) as Hin;
    cbn [set_pending_headers sync_target]; rewrite Ht; [intros Hrun; by rewrite (Hpr _ _ Hrun) |].
  case_match; [by intros [= <-] | intros Hrun; by rewrite (Hpr _ _ Hrun)].
Qed.

Lemma start_pending s : pending_header_requests (start_state_sync s) = pending_header_requests s /\
  pending_best_block_requests (start_state_sync s) = pending_best_block_requests s /\
  state_sync_complete (start_state_sync s) = state_sync_complete s.
Proof. unfold start_state_sync. by repeat case_match. Qed.

Lemma header_requests_ask {E : Type} l cs cs' acts :
  create_header_requests (E := E) l cs = Ok (cs', acts) -> acts = map (fun x => HeaderRequest x.1 x.2) l.
Proof.
  revert cs cs' acts. induction l as [| [q r] l IH]; intros cs cs' acts; cbn [create_header_requests map]; [by intros [= _ <-] |].
  intros (c & _ & ([cs1 acts1] & Hrun & [= _ <-])%bind_Ok)%bind_Ok. by rewrite (IH _ _ _ Hrun).
Qed.

Lemma only_asks_requests l : Forall only_asks l -> existsb is_import l = false /\ existsb is_finished l = false.
Proof. induction 1 as [| a l Ha Hl [IH1 IH2]]; [done |]. cbn. rewrite IH1, IH2. by destruct a. Qed.

Lemma actions_pending {E : Type} x s s' l b :
  x ∈ pending_header_requests s -> actions (E := E) s = Ok (s', l, b) ->
  x ∈ pending_header_requests s' /\ Forall only_asks l /\ state_sync_complete s' = state_sync_complete s.
Proof.
  intros Hx. unfold actions. destruct (start_pending s) as (Hh & Hb & Hc). set (s1 := start_state_sync s) in *.
  intros ([s2 next] & Hnext & Hrun)%bind_Ok. rewrite <- Hh in Hx. rewrite <- Hc. clear Hh Hc. unfold next_actions in Hnext.
  destruct (pending_best_block_requests s1) as [| p ps].
  - destruct (pending_header_requests s1) as [| r rs] eqn:Hr; [by apply elem_of_nil in Hx |].
    apply bind_Ok in Hnext as ([cs acts] & Hreq & [= <- <-]). apply header_requests_ask in Hreq as ->.
    assert (Forall only_asks (map (fun x => HeaderRequest x.1 x.2) (r :: rs))) as Ha.
    { apply Forall_forall. intros a Ha. apply list_elem_of_fmap in Ha as (y & -> & _). done. }
    destruct (only_asks_requests _ Ha) as [Hi Hf]. rewrite Hi, Hf in Hrun. injection Hrun as <- <- _. split_and!; [cbn; by rewrite Hr | done | done].
  - injection Hnext as <- Hacts. change (map (fun p => SubcoinRequest p GetBestBlock) (p :: ps)) with
      (SubcoinRequest p GetBestBlock :: map (fun p => SubcoinRequest p GetBestBlock) ps) in *. subst next.
    assert (Forall only_asks (SubcoinRequest p GetBestBlock :: map (fun p => SubcoinRequest p GetBestBlock) ps)) as Ha.
    { constructor; [done |]. apply Forall_forall. intros a Ha. apply list_elem_of_fmap in Ha as (y & -> & _). done. }
    destruct (only_asks_requests _ Ha) as [Hi Hf]. rewrite Hi, Hf in Hrun. injection Hrun as <- <- _. by split_and!.
Qed.

Lemma event_pending {E : Type} p r e s s' l b :
  (p, r) ∈ pending_header_requests s -> unanswered p r e -> strategy_event (E := E) e s = Ok (s', l, b) ->
  (p, r) ∈ pending_header_requests s' /\ Forall only_asks l /\ state_sync_complete s' = state_sync_complete s.
Proof.
  intros Hx He. destruct e as [q | q | is_best q h | q k name a |]; cbn [strategy_event].
  - intros [= <- <- _]. by split_and!.
  - intros [= <- <- _]. split_and!; [| done | done]. cbn. apply list_elem_of_filter. by split; [cbn; intros <- |].
  - intros [= <- <- _]. unfold on_validated_block_announce. repeat case_match; simplify_eq; by split_and!.
  - intros (s1 & Hrun & [= <- <- _])%bind_Ok. cut ((p, r) ∈ pending_header_requests s1 /\ state_sync_complete s1 = state_sync_complete s).
    { intros [K1 K2]. by split_and!. }
    unfold on_generic_response in Hrun. destruct k; cbn [unanswered] in He; try done.
    + repeat (case_match; try done); by simplify_eq.
    + case_decide; [| by injection Hrun as <-]. destruct a as [| r' [blocks |] |]; try (by injection Hrun as <-).
      split; [by eapply block_response_pending |]. revert Hrun. unfold on_block_response, process_block_response.
      intros Hrun. repeat (case_match; cbn in Hrun; try done); simplify_eq; try done;
        repeat match type of Hrun with mbind _ _ = _ => apply bind_Ok in Hrun as (? & ? & Hrun) end; by injection Hrun as <-.
    + destruct a as [bs | |]; try (by injection Hrun as <-). destruct (decode_response bs) as [[err | [h n | h n | h]] |];
        injection Hrun as <-; try done. cbn [on_subcoin_response_result_v1].
      unfold on_peer_best_block. cbn [set_chain_sync set_state_strategy set_best_blocks sync_target].
      destruct (sync_target s); cbn; (split; [| done]); rewrite ?elem_of_app; auto.
    + by injection Hrun as <-.
  - by apply actions_pending.
Qed.

(** a silent peer: while a peer that was asked for headers neither answers nor
    leaves, the strategy asks for best blocks and for headers over and over, whatever
    the other peers answer: it never asks for the number of coins, and the state sync
    is neither driven nor completed. *)
Lemma silent_peer_stalls {E : Type} (p : PeerId) (r : BlockRequest) (events : list StrategyEvent) (s s' : SnapcakeSyncingStrategy)
    (l : list SyncingAction) (n : nat) :
  (p, r) ∈ pending_header_requests s -> Forall (unanswered p r) events ->
  strategy_run (E := E) events s = Ok (s', l, n) ->
  Forall only_asks l /\ state_sync_complete s' = state_sync_complete s /\ (p, r) ∈ pending_header_requests s'.
Proof.
  intros Hx Hev. revert s l n Hx. induction Hev as [| e events He Hev IH]; intros s l n Hx; cbn [strategy_run].
  { intros [= <- <- _]. by split_and!. }
  intros ([[s1 l1] b] & Hr1 & ([[s2 l2] n2] & Hr2 & [= <- <- _])%bind_Ok)%bind_Ok.
  destruct (event_pending _ _ _ _ _ _ _ Hx He Hr1) as (Hx1 & Hl1 & Hc1). destruct (IH _ _ _ Hx1 Hr2) as (Hl2 & Hc2 & Hx2).
  split_and!; [by apply Forall_app | congruence | done].
Qed.

(** ** The dialogue with honest peers *)

Section dialogue.
Context `{!HashOrderLaws, !RequestCodecLaws} {E : Type}.
Context (clients : PeerId -> HandlerClient) (name : string).

(** The answers of the peers to the requests of the strategy. *)
Definition answer (a : SyncingAction) : option StrategyEvent :=
  match a with
  | SubcoinRequest p r =>
      (fun bs => ResponseReceived p SubcoinKey name (PayloadBytes bs)) <$> (handle_request (clients p) (encode_request r) true).1
  | _ => None
  end.

(** One round: the actions are taken, and all requests answered. *)
Definition round s : res E SnapcakeSyncingStrategy :=
  '(s, l, _) ← actions s;
  '(s, _, _) ← strategy_run (omap answer l) s;
  Ok s.

Fixpoint rounds (n : nat) s : res E SnapcakeSyncingStrategy :=
  match n with
  | O => Ok s
  | S n => s ← round s; rounds n s
  end.

(** The answer to a request, once it arrived. *)
Lemma answer_event p r resp s :
  process_request_v1 (clients p) r = Ok resp ->
  exists e, answer (SubcoinRequest p r) = Some e /\
    strategy_event (E := E) e s = Ok (on_subcoin_response_result_v1 p (inr resp) s, [], false).
Proof.
  intros Hp. unfold answer, handle_request. rewrite decode_encode_request, Hp. cbn. eexists. split; [done |]. cbn.
  by rewrite decode_encode_response.
Qed.

(** The answers to a list of requests, one after the other. *)
Lemma answers_run {A} (f : A -> PeerId * NetworkRequest) (g : A -> NetworkResponse) xs s :
  Forall (fun x => process_request_v1 (clients (f x).1) (f x).2 = Ok (g x)) xs ->
  strategy_run (E := E) (omap answer (map (fun x => SubcoinRequest (f x).1 (f x).2) xs)) s =
  Ok (foldl (fun s x => on_subcoin_response_result_v1 (f x).1 (inr (g x)) s) s xs, [], 0%nat).
Proof.
  intros Hxs. revert s. induction Hxs as [| x xs Hx Hxs IH]; intros s; [done |].
  destruct (answer_event (f x).1 (f x).2 (g x) s Hx) as (e & He & Hrun).
  cbn [map]. unfold omap in *. cbn [list_omap foldl]. rewrite He. cbn [strategy_run]. rewrite Hrun. cbn [mbind res_bind]. rewrite IH. done.
Qed.

(** Where the dialogue stands. *)
Record stage (n : Z) s (best : gmap PeerId (bytes * Z)) (targets : gmap PeerId SubHeader) (asked : list PeerId)
    (numbers : list (PeerId * Z)) (coins : list (PeerId * bytes)) (counts : gmap bytes Z) : Prop := {
  sg_state : state s = None;
  sg_complete : state_sync_complete s = false;
  sg_target : sync_target s = TargetNumber n;
  sg_best : peer_best_blocks s = best;
  sg_targets : peer_state_sync_target_headers s = targets;
  sg_asked : pending_best_block_requests s = asked;
  sg_headers : pending_header_requests s = [];
  sg_numbers : pending_header_requests_by_number s = numbers;
  sg_coins : pending_coins_count_requests s = coins;
  sg_counts : coins_count s = counts;
}.

(** Without a target or its coins the state sync does not begin. *)
Lemma stage_no_start n s best targets asked numbers coins counts :
  stage n s best targets asked numbers coins counts ->
  (forall p h, targets !! p = Some h -> counts !! sub_hash h = None) -> start_state_sync s = s.
Proof.
  intros [S1 S2 S3 S4 S5 S6 S7 S8 S9 S10] Hc. unfold start_state_sync. rewrite S1, S2.
  destruct (select_state_sync_target s) as [[p h] |] eqn:Hsel; [| done]. unfold select_state_sync_target in Hsel.
  destruct (head _) as [q |]; [| done]. cbn in Hsel. destruct (peer_state_sync_target_headers s !! q) as [h' |] eqn:Hq; [| done].
  injection Hsel as <- <-. rewrite S5 in Hq. by rewrite S10, (Hc _ _ Hq).
Qed.

(** A round of requests that are answered. *)
Lemma round_answers {A} (f : A -> PeerId * NetworkRequest) (g : A -> NetworkResponse) xs s s1 :
  start_state_sync s = s -> next_actions (E := E) s = Ok (s1, Some (map (fun x => SubcoinRequest (f x).1 (f x).2) xs)) ->
  Forall (fun x => process_request_v1 (clients (f x).1) (f x).2 = Ok (g x)) xs ->
  round s = Ok (foldl (fun s x => on_subcoin_response_result_v1 (f x).1 (inr (g x)) s) s1 xs).
Proof.
  intros Hst Hnext Hxs. unfold round, actions. rewrite Hst, Hnext. cbn [mbind res_bind].
  assert (forall h, h = is_import \/ h = is_finished -> existsb h (map (fun x => SubcoinRequest (f x).1 (f x).2) xs) = false) as Hno.
  { intros h Hh. clear -Hh. induction xs as [| x xs IH]; [done |]. cbn. rewrite IH. by destruct Hh as [-> | ->]. }
  rewrite !Hno by auto. cbn [andb mbind res_bind]. by rewrite (answers_run f g xs s1 Hxs).
Qed.

Definition best_of (p : PeerId) : bytes * Z := (hc_best_hash (clients p), hc_best_number (clients p)).
Definition with_best (ps : list PeerId) (m : gmap PeerId (bytes * Z)) : gmap PeerId (bytes * Z) :=
  foldl (fun m p => <[p := best_of p]> m) m ps.
Definition with_target (h : SubHeader) (ps : list PeerId) (m : gmap PeerId SubHeader) : gmap PeerId SubHeader :=
  foldl (fun m p => <[p := h]> m) m ps.

Lemma foldl_insert {A} (f : PeerId -> A) ps (m : gmap PeerId A) p :
  foldl (fun m p => <[p := f p]> m) m ps !! p = if decide (p ∈ ps) then Some (f p) else m !! p.
Proof.
  revert m. induction ps as [| q ps IH]; intros m; cbn [foldl]; [done |]. rewrite IH.
  destruct (decide (p ∈ ps)); [by rewrite decide_True by (by right) |].
  destruct (decide (p = q)) as [-> | Hne]; [by rewrite lookup_insert_eq, decide_True by left |].
  rewrite lookup_insert_ne by done. by rewrite decide_False by (by intros [? | ?]%elem_of_cons).
Qed.

Lemma fold_best n ps s best targets numbers coins counts :
  stage n s best targets [] numbers coins counts ->
  stage n (foldl (fun s p => on_subcoin_response_result_v1 p (inr (BestBlock (best_of p).1 (best_of p).2)) s) s ps)
    (with_best ps best) targets [] (numbers ++ map (fun p => (p, n)) ps) coins counts.
Proof.
  revert s best numbers. induction ps as [| p ps IH]; intros s best numbers Hs; cbn [foldl with_best map]; [by rewrite app_nil_r |].
  rewrite cons_middle, app_assoc. apply (IH _ (<[p := best_of p]> best)). destruct Hs as [S1 S2 S3 S4 S5 S6 S7 S8 S9 S10].
  cbn [on_subcoin_response_result_v1]. unfold on_peer_best_block. cbn [set_chain_sync set_state_strategy set_best_blocks sync_target]. rewrite S3.
  split; cbn; try done; [by rewrite S1 | by rewrite S4 | by rewrite S8].
Qed.

Lemma fold_target n h ps s best targets numbers coins counts :
  stage n s best targets [] numbers coins counts ->
  stage n (foldl (fun s p => on_subcoin_response_result_v1 p (inr (BlockHeader h)) s) s ps)
    best (with_target h ps targets) [] numbers (coins ++ map (fun p => (p, sub_hash h)) ps) counts.
Proof.
  revert s targets coins. induction ps as [| p ps IH]; intros s targets coins Hs; cbn [foldl with_target map]; [by rewrite app_nil_r |].
  rewrite cons_middle, app_assoc. apply (IH _ (<[p := h]> targets)). destruct Hs as [S1 S2 S3 S4 S5 S6 S7 S8 S9 S10].
  split; cbn; try done; [by rewrite S5 | by rewrite S9].
Qed.

Lemma fold_coins n hash count (ps : list PeerId) s best targets numbers coins counts :
  stage n s best targets [] numbers coins counts ->
  stage n (foldl (fun s p => on_subcoin_response_result_v1 p (inr (CoinsCount hash count)) s) s ps)
    best targets [] numbers coins (if decide (ps = []) then counts else <[hash := count]> counts).
Proof.
  revert s counts. induction ps as [| p ps IH]; intros s counts Hs; cbn [foldl]; [done |].
  assert (stage n (on_subcoin_response_result_v1 p (inr (CoinsCount hash count)) s) best targets [] numbers coins (<[hash := count]> counts)) as Hs1.
  { destruct Hs as [S1 S2 S3 S4 S5 S6 S7 S8 S9 S10]. split; cbn; try done. by rewrite S10. }
  specialize (IH _ _ Hs1). cbn [decide]. destruct (decide (ps = [])); rewrite ?insert_insert_eq in IH; done.
Qed.

Lemma with_target_lookup h ps p : with_target h ps ∅ !! p = if decide (p ∈ ps) then Some h else None.
Proof. unfold with_target. rewrite (foldl_insert (fun _ => h)). by rewrite lookup_empty. Qed.

(** The three rounds. *)
Lemma best_round n ps s :
  ps <> [] -> stage n s ∅ ∅ ps [] [] ∅ ->
  exists s', round s = Ok s' /\ stage n s' (with_best ps ∅) ∅ [] (map (fun p => (p, n)) ps) [] ∅.
Proof.
  intros Hps Hs. assert (stage n (set_pending_best [] s) ∅ ∅ [] [] [] ∅) as Hs' by (by destruct Hs; split).
  pose proof (fold_best n ps _ _ _ _ _ _ Hs') as Hs1. rewrite app_nil_l in Hs1. eexists. split; [| exact Hs1].
  apply (round_answers (fun p => (p, GetBestBlock)) (fun p => BestBlock (best_of p).1 (best_of p).2)).
  - by apply (stage_no_start _ _ _ _ _ _ _ _ Hs).
  - unfold next_actions. rewrite (sg_asked _ _ _ _ _ _ _ _ Hs). by destruct ps.
  - by apply Forall_forall.
Qed.

Lemma header_round n h ps s best :
  ps <> [] -> Forall (fun p => process_request_v1 (clients p) (GetBlockHeader n) = Ok (BlockHeader h)) ps ->
  stage n s best ∅ [] (map (fun p => (p, n)) ps) [] ∅ ->
  exists s', round s = Ok s' /\ stage n s' best (with_target h ps ∅) [] [] (map (fun p => (p, sub_hash h)) ps) ∅.
Proof.
  intros Hps Hhon Hs. assert (stage n (set_pending_numbers [] s) best ∅ [] [] [] ∅) as Hs' by (by destruct Hs; split).
  pose proof (fold_target n h ps _ _ _ _ _ _ Hs') as Hs1. rewrite app_nil_l in Hs1. eexists. split; [| exact Hs1].
  apply (round_answers (fun p => (p, GetBlockHeader n)) (fun _ => BlockHeader h)); [| | done].
  - by apply (stage_no_start _ _ _ _ _ _ _ _ Hs).
  - unfold next_actions. destruct Hs as [S1 S2 S3 S4 S5 S6 S7 S8 S9 S10]. rewrite S6, S7, S9, S8.
    destruct ps as [| p ps']; [done |]. cbn [map]. do 3 f_equal. by rewrite map_map.
Qed.

Lemma coins_round n h count ps s best targets :
  ps <> [] -> Forall (fun p => process_request_v1 (clients p) (GetCoinsCount (sub_hash h)) = Ok (CoinsCount (sub_hash h) count)) ps ->
  stage n s best targets [] [] (map (fun p => (p, sub_hash h)) ps) ∅ ->
  exists s', round s = Ok s' /\ stage n s' best targets [] [] [] (<[sub_hash h := count]> ∅).
Proof.
  intros Hps Hhon Hs. assert (stage n (set_pending_coins [] s) best targets [] [] [] ∅) as Hs' by (by destruct Hs; split).
  pose proof (fold_coins n (sub_hash h) count ps _ _ _ _ _ _ Hs') as Hs1. rewrite decide_False in Hs1 by done. eexists. split; [| exact Hs1].
  apply (round_answers (fun p => (p, GetCoinsCount (sub_hash h))) (fun _ => CoinsCount (sub_hash h) count)); [| | done].
  - apply (stage_no_start _ _ _ _ _ _ _ _ Hs). intros p h' _. apply lookup_empty.
  - unfold next_actions. destruct Hs as [S1 S2 S3 S4 S5 S6 S7 S8 S9 S10]. rewrite S6, S7, S9.
    destruct ps as [| p ps']; [done |]. cbn [map]. do 3 f_equal. by rewrite map_map.
Qed.

Lemma added_stage n ps asked s : stage n s ∅ ∅ asked [] [] ∅ -> stage n (foldl (fun s p => add_peer p s) s ps) ∅ ∅ (asked ++ ps) [] [] ∅.
Proof.
  revert s asked. induction ps as [| p ps IH]; intros s asked Hs; cbn [foldl]; [by rewrite app_nil_r |].
  rewrite cons_middle, app_assoc. apply IH. destruct Hs as [S1 S2 S3 S4 S5 S6 S7 S8 S9 S10]. split; cbn; try done. by rewrite S6.
Qed.

(** With the target and its coins known the state sync begins. *)
Lemma sync_starts n header count ps s :
  ps <> [] -> stage n s (with_best ps ∅) (with_target header ps ∅) [] [] [] (<[sub_hash header := count]> ∅) ->
  exists peers, start_state_sync s = set_state_strategy (Some (new_with_provider header count peers)) s /\
    forall p b, (p, b) ∈ peers <-> p ∈ ps /\ b = hc_best_number (clients p).
Proof.
  intros Hps [S1 S2 S3 S4 S5 S6 S7 S8 S9 S10].
  assert (exists p, select_state_sync_target s = Some (p, header)) as [p Hsel].
  { unfold select_state_sync_target. rewrite S5. destruct (hash_iter (dom (with_target header ps ∅))) as [| q l] eqn:Hl.
    - destruct ps as [| q ps]; [done |]. exfalso. assert (q ∈ hash_iter (dom (with_target header (q :: ps) ∅))) as Hq.
      { apply hash_iter_elem, elem_of_dom. rewrite with_target_lookup, decide_True by left. by eexists. }
      rewrite Hl in Hq. by apply elem_of_nil in Hq.
    - cbn. assert (q ∈ hash_iter (dom (with_target header ps ∅))) as Hq by (rewrite Hl; left).
      apply hash_iter_elem, elem_of_dom in Hq as [h Hq]. rewrite Hq. rewrite with_target_lookup in Hq. case_decide; [| done]. injection Hq as <-.
      by exists q. }
  unfold start_state_sync. rewrite S1, S2, Hsel, S10, lookup_insert_eq. eexists. split; [done |].
  intros q b. rewrite list_elem_of_omap. rewrite S4. unfold with_best. split.
  - intros (q' & Hq' & Heq). destruct (foldl _ ∅ ps !! q') as [[bh bn] |] eqn:Hlook; [| done]. cbn in Heq. injection Heq as <- <-.
    rewrite foldl_insert, lookup_empty in Hlook. case_decide; [| done]. by injection Hlook as _ <-.
  - intros [Hq ->]. assert (foldl (fun m p => <[p := best_of p]> m) ∅ ps !! q = Some (best_of q)) as Hlook by (by rewrite foldl_insert, decide_True).
    exists q. split; [apply hash_iter_elem, elem_of_dom; by eexists |]. by rewrite Hlook.
Qed.

End dialogue.
End facts.

(** ** A concrete strategy *)

(** A header is its number and its hash; the state sync takes two steps. *)
Module SampleSnapcake.
Import SampleOrder.

#[export] Instance headers : SubstrateHeader := {| SubHeader := Z * bytes; sub_hash := snd; sub_number := fst |}.

#[export] Instance codec : RequestCodec := {|
  encode_request r := match r with GetBestBlock => [0] | GetCoinsCount h => 1 :: h | GetBlockHeader n => [2; n] end;
  decode_request bs := match bs with [0] => Some GetBestBlock | 1 :: h => Some (GetCoinsCount h) | [2; n] => Some (GetBlockHeader n) | _ => None end;
  encode_response r := match r with
                       | inl e => [0; Z.pos (countable.encode e)]
                       | inr (BestBlock h n) => 1 :: n :: h
                       | inr (CoinsCount h c) => 2 :: c :: h
                       | inr (BlockHeader (n, h)) => 3 :: n :: h
                       end;
  decode_response bs := match bs with
                        | [0; Z.pos e] => inl <$> countable.decode e
                        | 1 :: n :: h => Some (inr (BestBlock h n))
                        | 2 :: c :: h => Some (inr (CoinsCount h c))
                        | 3 :: n :: h => Some (inr (BlockHeader (n, h)))
                        | _ => None
                        end;
  error_text _ := "error"%string;
  bytes2hex _ := "00"%string;
|}.

#[export] Instance codec_laws : RequestCodecLaws.
Proof.
  split; [by intros [| |] |]. intros [e | [h n | h c | [n h]]]; try done.
  cbn [encode_response codec decode_response]. by rewrite countable.decode_encode.
Qed.

Record Sync := mk_sync { sy_header : Z * bytes; sy_count : Z; sy_peers : list (Z * Z); sy_step : nat }.

#[export] Instance strategies : SyncStrategies := {|
  StateStrategy := Sync;
  ChainSyncStrategy := unit;
  SyncStatus := bool;
  new_with_provider h c ps := mk_sync h c ps 0;
  SyncingStrategy.is_succeeded _ := true;
  state_add_peer _ _ _ st := st;
  state_remove_peer _ st := st;
  state_announce _ _ _ st := (st, None);
  on_state_response _ _ st := st;
  state_actions st := (mk_sync (sy_header st) (sy_count st) (sy_peers st) (S (sy_step st)),
                       match sy_step st with O => [OtherAction 7] | _ => [ImportBlocks] end);
  state_status _ := true;
  new_chain_sync _ _ _ := inr tt;
  chain_add_peer _ _ _ c := c;
  chain_remove_peer _ c := c;
  chain_announce _ _ _ c := (c, None);
  chain_fork_request _ _ _ c := c;
  chain_request_justification _ _ c := c;
  chain_clear_justifications c := c;
  chain_justification_import _ _ _ c := c;
  chain_update_info _ _ c := c;
  chain_block_request _ _ c := c;
  chain_status _ := false;
  status_major_syncing b := b;
  chain_downloaded _ := 0;
  chain_requests _ := 0;
|}.

#[export] Instance strategy_laws : StateStrategyLaws.
Proof. split. intros [h c ps [| n]]; done. Qed.

Definition cfg : SnapcakeConfig := mk_snapcake_config ModeFull 5 256 "block".
Definition fresh (target : TargetBlock) : SnapcakeSyncingStrategy :=
  from_ok (mk_snapcake cfg None None ∅ ∅ [] [] [] [] ∅ true target false) (new cfg target).

(** A node at height 20, whose blocks have their numbers as hashes. *)
Definition node : HandlerClient :=
  mk_handler_client [20] 20 (fun n => inr (if n <=? 20 then Some [n] else None))
    (fun h => match h with [n] => inr (Some (n, h)) | _ => inr None end) (fun h => inr 42).

(** The blocks below height 20, as a peer sends them for the last finalized one. *)
Definition last_blocks : list BlockData := map (fun n => mk_block_data (Some (n, [n]))) [20; 19; 18; 17; 16; 15].

Definition to_finalized : list StrategyEvent :=
  [PeerAdded 1; ActionsTaken; ResponseReceived 1 SubcoinKey "subcoin" (PayloadBytes (encode_response (inr (BestBlock [20] 20))));
   ActionsTaken; ResponseReceived 1 ChainSyncKey "block" (PayloadBlocks (header_request [20] 6) (Some last_blocks));
   ActionsTaken; ResponseReceived 1 SubcoinKey "subcoin" (PayloadBytes (encode_response (inr (CoinsCount [15] 42))));
   ActionsTaken; ActionsTaken; ActionsTaken].
End SampleSnapcake.

Module SnapcakeWitness.
Import SampleOrder SampleSnapcake.


Definition stalled : SnapcakeSyncingStrategy := set_pending_headers [(1, header_request [20] 6)] (fresh LastFinalized).

Lemma silent_peer_stalls_witness :
  exists s' l n,
    strategy_run (E := Empty_set) [PeerAdded 2; ActionsTaken; ActionsTaken; PeerRemoved 2; ActionsTaken] stalled = Ok (s', l, n) /\
    l = [SubcoinRequest 2 GetBestBlock; HeaderRequest 1 (header_request [20] 6); HeaderRequest 1 (header_request [20] 6)] /\
    Forall only_asks l.
Proof.
  set (r := from_ok (stalled, [], 0%nat)
    (strategy_run (E := Empty_set) [PeerAdded 2; ActionsTaken; ActionsTaken; PeerRemoved 2; ActionsTaken] stalled)).
  assert (strategy_run (E := Empty_set) [PeerAdded 2; ActionsTaken; ActionsTaken; PeerRemoved 2; ActionsTaken] stalled = Ok (r.1.1, r.1.2, r.2))
    as Hrun by (vm_compute; reflexivity).
  exists r.1.1, r.1.2, r.2. split; [exact Hrun |]. split; [vm_compute; reflexivity |].
  refine (proj1 (silent_peer_stalls (E := Empty_set) 1 (header_request [20] 6) _ stalled r.1.1 r.1.2 r.2 _ _ Hrun)).
  - left.
  - repeat constructor. discriminate.
Defined.

End SnapcakeWitness.

(** ** Deviations *)

Module SnapcakeDeviations.
Import SampleOrder SampleSnapcake.

(** A response without blocks brings the program down. *)
Lemma empty_response_panics :
  on_generic_response (E := Empty_set) 1 ChainSyncKey "block" (PayloadBlocks (header_request [7] 1) (Some []))
    (on_peer_best_block 1 [20] 20 (fresh (TargetHash [7]))) = Panic.
Proof. vm_compute. reflexivity. Qed.

(** The target header of a peer that left is still used. *)
Lemma left_peer_selected :
  let s := set_coins_count {[ [15] := 42 ]} (remove_peer 1 (note_target 1 (15, [15]) (on_peer_best_block 1 [20] 20 (fresh (TargetNumber 15))))) in
  peer_best_blocks s = ∅ /\ state (start_state_sync s) = Some (mk_sync (15, [15]) 42 [] 0).
Proof. vm_compute. split; reflexivity. Qed.

(** The last finalized block is the best height less five. *)
Lemma finalized_depth :
  exists s l n, strategy_run (E := Empty_set) (take 5 to_finalized) (fresh LastFinalized) = Ok (s, l, n) /\
    peer_state_sync_target_headers s !! 1 = Some (20 - (CONFIRMATION_DEPTH - 1), [15]).
Proof.
  set (r := from_ok (fresh LastFinalized, [], 0%nat) (strategy_run (E := Empty_set) (take 5 to_finalized) (fresh LastFinalized))).
  exists r.1.1, r.1.2, r.2. split; vm_compute; reflexivity.
Qed.
End SnapcakeDeviations.
