(* ===== verification/ImportQueue.v ===== *)
(** * The import queue ([crates/sc-consensus-nakamoto/src/import_queue.rs], [verifier.rs],
      [crates/subcoin-node/src/commands/import_blocks.rs])

    Batches of downloaded blocks are imported one after the other in a task of their
    own; the results go back to the network.  A command imports the blocks of another
    node's database.  Blocks that arrive over the network of Substrate are checked by a
    verifier of their own. *)

From Stdlib Require Import ZArith Lia.
From stdpp Require Import prelude gmap.
From S2P Require Import Prelude Opcode ScriptNum ScriptTypes Stack CheckSig MultiSig Sample Eval Interpreter Bitcoin Runtime SigChecker PalletTypes Pallet TxSanity Client HeaderVerify Import BlockVerify Ledger ImportBlock.

(** ** Batches *)

(** [sc_consensus::BlockImportStatus] and [BlockImportError]. *)
Inductive BlockImportStatus := ImportedKnown (number : Z) | ImportedUnknown (number : Z).
Inductive QueueError :=
| Cancelled
| QueueMissingState
| QueueUnknownParent
| QueueBadBlock
| QueueOther (e : ImportError).

Record ImportManyBlocksResult := mk_many_result {
  imported : nat;
  block_count : nat;
  results : list ((QueueError + BlockImportStatus) * bytes);
}.

(** The outcome of one import as the queue reports it. *)
Definition queue_status (r : ImportError + ImportStatus) : QueueError + BlockImportStatus :=
  match r with
  | inr (AlreadyInChain number) => inr (ImportedKnown number)
  | inr (Imported number _) => inr (ImportedUnknown number)
  | inr MissingState => inl QueueMissingState
  | inr UnknownParent => inl QueueUnknownParent
  | inr KnownBad => inl QueueBadBlock
  | inl e => inl (QueueOther e)
  end.

Section queue.
Context `{!ChainApi} {S : Type}.
(** [BitcoinBlockImport::import_block] on the state of the importer. *)
Context (import_one : Block -> S -> res Empty_set (S * (ImportError + ImportStatus))).

(** The loop of [import_many_blocks]; nothing is imported after an error. *)
Fixpoint import_loop (blocks : list Block) (has_error : bool) (s : S) (n : nat) (rs : list ((QueueError + BlockImportStatus) * bytes))
    : res Empty_set (S * nat * list ((QueueError + BlockImportStatus) * bytes)) :=
  match blocks with
  | [] => Ok (s, n, rs)
  | block :: blocks =>
      let hash := block_hash (block_header block) in
      '(s, r) ← (if has_error then Ok (s, inl Cancelled)
                 else '(s, r) ← import_one block s; Ok (s, queue_status r));
      let ok := match r : QueueError + BlockImportStatus with inr _ => true | inl _ => false end in
      import_loop blocks (negb ok || has_error) s (if ok then Datatypes.S n else n) (rs ++ [(r, hash)])
  end.

Definition import_many_blocks (blocks : list Block) (s : S) : res Empty_set (S * ImportManyBlocksResult) :=
  '(s, n, rs) ← import_loop blocks false s 0 [];
  Ok (s, mk_many_result n (length blocks) rs).

(** [block_import_process]: the batches of the channel until it is closed, and the
    results that are sent. *)
Fixpoint block_import_process (batches : list (list Block)) (s : S) : res Empty_set (S * list ImportManyBlocksResult) :=
  match batches with
  | [] => Ok (s, [])
  | blocks :: batches =>
      '(s, r) ← import_many_blocks blocks s;
      '(s, rs) ← block_import_process batches s;
      Ok (s, r :: rs)
  end.

(** ** What a batch does *)

(** Imports one after the other, all successful. *)
Inductive imports_all : list Block -> S -> S -> list ((QueueError + BlockImportStatus) * bytes) -> Prop :=
| imports_all_nil s : imports_all [] s s []
| imports_all_cons block blocks s s1 s2 r status rs :
    import_one block s = Ok (s1, r) -> queue_status r = inr status -> imports_all blocks s1 s2 rs ->
    imports_all (block :: blocks) s s2 ((inr status, block_hash (block_header block)) :: rs).

Lemma cancelled_loop blocks s n rs :
  import_loop blocks true s n rs = Ok (s, n, rs ++ map (fun b => (inl Cancelled, block_hash (block_header b))) blocks).
Proof.
  revert rs. induction blocks as [| b blocks IH]; intros rs; cbn [import_loop map]; [by rewrite app_nil_r |].
  cbn [mbind res_bind negb orb]. rewrite IH. by rewrite <- app_assoc.
Qed.

(** the import queue: unless an import panics, the blocks of a batch are imported
    in their order up to the first that fails, which is reported with its error; the
    importer is not called for those after it, which are reported as cancelled; the
    count is that of the successful imports, and every block has its result. *)
Lemma import_many_blocks_spec (blocks : list Block) (s s' : S) (r : ImportManyBlocksResult) :
  import_many_blocks blocks s = Ok (s', r) ->
  block_count r = length blocks /\ map snd (results r) = map (fun b => block_hash (block_header b)) blocks /\
  ((imports_all blocks s s' (results r) /\ imported r = length blocks) \/
   (exists done failed rest s1 outcome e rs,
      blocks = done ++ failed :: rest /\ imports_all done s s1 rs /\ import_one failed s1 = Ok (s', outcome) /\
      queue_status outcome = inl e /\ imported r = length done /\
      results r = rs ++ (inl e, block_hash (block_header failed)) :: map (fun b => (inl Cancelled, block_hash (block_header b))) rest)).
Proof.
  unfold import_many_blocks. intros ([[s1 n] rs] & Hrun & [= -> <-])%bind_Ok. cbn [block_count results imported].
  assert (forall acc k, import_loop blocks false s k acc = Ok (s', n, rs) -> exists new, rs = acc ++ new /\
    map snd new = map (fun b => block_hash (block_header b)) blocks /\
    ((imports_all blocks s s' new /\ n = (k + length blocks)%nat) \/
     (exists done failed rest s1 outcome e rs0,
       blocks = done ++ failed :: rest /\ imports_all done s s1 rs0 /\ import_one failed s1 = Ok (s', outcome) /\
       queue_status outcome = inl e /\ n = (k + length done)%nat /\
       new = rs0 ++ (inl e, block_hash (block_header failed)) :: map (fun b => (inl Cancelled, block_hash (block_header b))) rest))) as Hloop.
  { clear Hrun. revert s. induction blocks as [| b blocks IH]; intros s acc k; cbn [import_loop].
    { intros [= -> -> ->]. exists []. rewrite app_nil_r. split_and!; [done | done |]. left. split; [constructor | cbn; lia]. }
    intros ([s2 o] & ([s2' out] & Hone & [= -> <-])%bind_Ok & Hrun)%bind_Ok.
    destruct (queue_status out) as [e | status] eqn:Hst; cbn [negb orb] in Hrun.
    - rewrite cancelled_loop in Hrun. injection Hrun as -> -> <-. exists ((inl e, block_hash (block_header b)) :: map (fun b => (inl Cancelled, block_hash (block_header b))) blocks).
      split; [by rewrite <- app_assoc |]. split; [cbn; by rewrite map_map |]. right.
      exists [], b, blocks, s, out, e, []. split_and!; try done; constructor.
    - apply IH in Hrun as (new & -> & Hsnd & Hcase). exists ((inr status, block_hash (block_header b)) :: new).
      split; [by rewrite <- app_assoc |]. split; [cbn; by rewrite Hsnd |].
      destruct Hcase as [[Hall ->] | (done & failed & rest & s1' & out' & e & rs0 & -> & Hall & Hf & He & -> & ->)].
      + left. split; [by eapply imports_all_cons | cbn; lia].
      + right. exists (b :: done), failed, rest, s1', out', e, ((inr status, block_hash (block_header b)) :: rs0).
        split_and!; try done; [by eapply imports_all_cons | cbn; lia]. }
  destruct (Hloop [] 0%nat Hrun) as (new & -> & Hsnd & Hcase). by split_and!.
Qed.
End queue.

(** ** The queue with the importer of Bitcoin blocks *)

Section importer.
Context `{!ScriptApi, !HashApi, !KeyApi, !SighashApi}.
Context `{!TxApi, !ChainApi, !PowApi, !BlockApi}.
(** The importer on a client, and the clock. *)
Context (importer : Client -> BitcoinBlockImporter) (now : Z).

(** An import as a change of the client, which stores what it is given when it reports
    the block as imported. *)
Definition import_one (block : Block) (c : Client) : res Empty_set (Client * (ImportError + ImportStatus)) :=
  match import_block (importer c) now block with
  | Ok (Imported n h, Some ps) =>
      Ok (import_into c (ip_number ps) (ip_header ps) (ip_auxiliary ps) (ip_fork_choice ps), inr (Imported n h))
  | Ok (status, _) => Ok (c, inr status)
  | Err e => Ok (c, inl e)
  | Panic => Panic
  end.

(** The importer works on the client, which imports a block under a hash of 32 bytes
    that it does not know. *)
Class ImporterLaws : Prop := {
  importer_client c : bv_client (im_verifier (importer c)) = c;
  importer_hash_length c n p b d a : length (im_header_hash (importer c) n p b d a) = 32%nat;
  importer_inner c ps : im_inner (importer c) ps = inr ResultImported -> client_header c (substrate_hash (ip_header ps)) = inr None;
}.

(** A queued block refers to its parent by 32 bytes. *)
Definition well_linked (block : Block) : Prop := length (prev_blockhash (block_header block)) = 32%nat.

Context `{!ChainLaws, !ImporterLaws}.
Context (genesis : Header) (sub0 : bytes).

Lemma import_one_imports block c c' r :
  well_linked block -> imports genesis sub0 c -> import_one block c = Ok (c', r) -> imports genesis sub0 c'.
Proof.
  intros Hlink Hi. unfold import_one.
  destruct (import_block (importer c) now block) as [[status params] | |] eqn:Himp; [| by intros [= <- _] | done].
  destruct status as [n h | | | |], params as [ps |]; try (by intros [= <- _]). intros [= <- _].
  unfold import_block in Himp. rewrite importer_client in Himp.
  destruct (backend_block_number c (block_hash (block_header block))) as [? |] eqn:Hn; [done |].
  apply bind_Ok in Himp as (parent & Hp & Himp). apply map_err_Ok in Hp. destruct parent as [[ph pn] |]; [| done].
  apply bind_Ok in Himp as (early & He & Himp). destruct early as [early |]; [done |].
  apply bind_Ok in Himp as (bn & Hbn & Himp). apply bind_Ok in Himp as ([] & _ & Himp). apply bind_Ok in Himp as (ps' & Hps & Himp).
  apply bind_Ok in Himp as (result & Hres & [= Hst ->]).
  assert (result = ResultImported) as -> by (by destruct result). apply map_err_Ok, of_sum_Ok in Hres.
  unfold fetch_substrate_block_info in Hp. destruct (substrate_block_hash_for c _) as [sh |] eqn:Hsub; [| done].
  apply bind_Ok in Hp as (num & Hnum & Hp). apply of_sum_Ok in Hnum. apply bind_Ok in Hp as (pn' & Hpn & Hp). apply ok_or_Ok in Hpn as ->.
  injection Hp as -> ->.
  apply expect_Ok in Hbn. unfold checked_u32 in Hbn. destruct ((0 <=? _) && _) eqn:Hr; [injection Hbn as <- | done]. bools.
  apply importer_inner in Hres. unfold prepare_substrate_block_import in Hps. rewrite Z.min_r, importer_client in Hps by done.
  apply bind_Ok in Hps as (action & _ & Hps). apply bind_Ok in Hps as ([total fc] & Hw & [= <-]). apply map_err_Ok in Hw. cbn in Hres |- *.
  assert (get_aux c (block_hash (block_header block)) = inr None) as Haux.
  { apply imports_tree in Hi as (M & best & Ht). apply (t_unknown _ _ _ _ Ht); [apply block_hash_length |].
    destruct (M !! _) as [e |] eqn:He'; [| done]. by rewrite (k_number _ _ _ (t_known _ _ _ _ Ht _ _ He')) in Hn. }
  apply imports_block; try done; [apply importer_hash_length |].
  unfold backend_block_number. rewrite Hsub. cbn. by rewrite Hnum.
Qed.

Lemma import_loop_imports blocks has_error c k rs c' n rs' :
  Forall well_linked blocks -> imports genesis sub0 c ->
  import_loop import_one blocks has_error c k rs = Ok (c', n, rs') -> imports genesis sub0 c'.
Proof.
  intros Hl. revert has_error c k rs. induction Hl as [| b blocks Hb Hl IH]; intros has_error c k rs Hi; cbn [import_loop]; [by intros [= <- _ _] |].
  intros ([c1 r] & Hone & Hrun)%bind_Ok. destruct has_error.
  - injection Hone as <- <-. by eapply IH.
  - apply bind_Ok in Hone as ([c2 out] & Hone & [= -> <-]). eapply IH; [| exact Hrun]. by eapply import_one_imports.
Qed.

End importer.

(** ** Blocks of another node ([crates/subcoin-node/src/commands/import_blocks.rs]) *)

Section command.
Context `{!ScriptApi, !HashApi, !KeyApi, !SighashApi}.
Context `{!TxApi, !ChainApi, !PowApi, !BlockApi}.
Context (importer : Client -> BitcoinBlockImporter) (now : Z).

(** [BitcoinBlockProvider]: the number of blocks, and the block at a height, which
    may not decode. *)
Record BitcoinBlockProvider := mk_provider {
  provider_block_count : Z;
  block_at : Z -> Z + option Block;
}.

Inductive CommandError :=
| ProviderError (code : Z)
| ConsensusError (e : ImportError)
| InvalidHexData.

(** The options of the command; a raw block is its bytes, if the text is hexadecimal. *)
Record ImportBlocksCmd := mk_import_cmd {
  cmd_block_count : option Z;
  cmd_to : option Z;
  cmd_raw_block : option (option bytes);
}.

Definition no_error {E : Type} (e : Empty_set) : E := match e with end.

(** The import of one block; only an error ends the command. *)
Definition import_or_fail (block : Block) (c : Client) : res CommandError Client :=
  '(c, r) ← map_err no_error (import_one importer now block c);
  match r with
  | inl e => Err (ConsensusError e)
  | inr _ => Ok c
  end.

(** The message about the best block. *)
Definition report_best {E : Type} (c : Client) : res E unit :=
  _ ← expect (bitcoin_block_hash_for c (best_hash c));
  Ok tt.

(** The loop over the heights; [elapsed] is whether a second has passed since the last
    message when so many blocks were imported. *)
Fixpoint import_range (p : BitcoinBlockProvider) (limit : option Z) (elapsed : Z -> bool) (indexes : list Z)
    (total_imported : Z) (c : Client) : res CommandError (Client * Z) :=
  match indexes with
  | [] => Ok (c, total_imported)
  | index :: indexes =>
      block ← map_err ProviderError (of_sum (block_at p index));
      block ← expect block;
      c ← import_or_fail block c;
      (if ((total_imported mod 1000 =? 0) || elapsed total_imported) && (0 <? total_imported)
       then report_best c else Ok tt);;
      let total_imported := total_imported + 1 in
      if bool_decide (limit = Some total_imported) then Ok (c, total_imported)
      else import_range p limit elapsed indexes total_imported c
  end.

Definition import_blocks (p : BitcoinBlockProvider) (cmd : ImportBlocksCmd) (elapsed : Z -> bool) (c : Client)
    : res CommandError (Client * Z) :=
  let max := provider_block_count p in
  let to := default max (cmd_to cmd) `min` max in
  from ← expect (checked_u32 (best_number c + 1));
  import_range p (cmd_block_count cmd) elapsed (seqZ from (to - from + 1)) 0 c.

(** [decode] is rust-bitcoin's. *)
Definition import_cmd_run (decode : bytes -> option Block) (p : BitcoinBlockProvider) (cmd : ImportBlocksCmd)
    (elapsed : Z -> bool) (c : Client) : res CommandError Client :=
  match cmd_raw_block cmd with
  | Some data =>
      raw_block ← ok_or InvalidHexData data;
      block ← expect (decode raw_block);
      import_or_fail block c
  | None =>
      '(c, _) ← import_blocks p cmd elapsed c;
      Ok c
  end.

Context `{!ChainLaws, !ImporterLaws importer}.
Context (genesis : Header) (sub0 : bytes).

(** The provider has blocks, and they refer to their parents by hashes. *)
Definition provides (p : BitcoinBlockProvider) (indexes : list Z) : Prop :=
  Forall (fun i => exists b, block_at p i = inr (Some b) /\ well_linked b) indexes.

Lemma import_or_fail_imports block c c' :
  well_linked block -> imports genesis sub0 c -> import_or_fail block c = Ok c' -> imports genesis sub0 c'.
Proof.
  intros Hl Hi. unfold import_or_fail. intros ([c1 r] & Hone & Hr)%bind_Ok. apply map_err_Ok in Hone.
  destruct r; [done |]. injection Hr as <-. by eapply import_one_imports.
Qed.

Lemma report_best_ok {E : Type} c : imports genesis sub0 c -> report_best (E := E) c = Ok tt.
Proof. intros (best & w & Hb & _)%best_work. unfold report_best. by rewrite Hb. Qed.

(** the command leaves a client that follows the chain with the most work; as long as
    no import panics it does not panic either, and it does not count more blocks than
    it was given, nor than its limit. *)
Lemma import_range_spec p limit elapsed indexes total c :
  imports genesis sub0 c -> provides p indexes -> 0 <= total ->
  (forall block c, imports genesis sub0 c -> import_one importer now block c <> Panic) ->
  match import_range p limit elapsed indexes total c with
  | Ok (c', n) => imports genesis sub0 c' /\ total <= n <= total + Z.of_nat (length indexes) /\
      forall l, limit = Some l -> total < l -> n <= l
  | Err e => exists ie, e = ConsensusError ie
  | Panic => False
  end.
Proof.
  intros Hi Hp Htot Hsafe. revert total c Hi Htot. induction Hp as [| i indexes (b & Hb & Hlink) Hp IH]; intros total c Hi Htot; cbn [import_range].
  { split_and!; [done | cbn; lia .. |]. intros. lia. }
  rewrite Hb. cbn [of_sum map_err expect mbind res_bind]. destruct (import_or_fail b c) as [c1 | e |] eqn:Hone; cbn [mbind res_bind].
  - pose proof (import_or_fail_imports _ _ _ Hlink Hi Hone) as Hi1.
    assert ((if ((total mod 1000 =? 0) || elapsed total) && (0 <? total) then report_best (E := CommandError) c1 else Ok tt) = Ok tt)
      as -> by (destruct (_ && _); [by apply report_best_ok | done]). cbn [mbind res_bind].
    case_bool_decide as Hl.
    + split_and!; [done | cbn; lia .. |]. intros l Heq _. rewrite Hl in Heq. injection Heq. lia.
    + specialize (IH (total + 1) c1 Hi1 ltac:(lia)). destruct (import_range _ _ _ _ _ _) as [[c' n] | |]; [| done ..].
      destruct IH as (? & ? & Hlim). split_and!; [done | cbn [length]; lia .. |]. intros l -> Hlt. apply Hlim; [done |].
      destruct (decide (l = total + 1)); [congruence | lia].
  - unfold import_or_fail in Hone. pose proof (Hsafe b c Hi). destruct (import_one importer now b c) as [[c1 r] | [] |]; [| done].
    destruct r; [| done]. cbn in Hone. injection Hone as <-. eauto.
  - unfold import_or_fail in Hone. pose proof (Hsafe b c Hi). destruct (import_one importer now b c) as [[c1 r] | [] |]; [| done]. by destruct r.
Qed.

(** A block that is not imported, as its parent is not known, counts as imported. *)
Lemma unknown_parent_counted p limit elapsed i b c :
  block_at p i = inr (Some b) -> import_one importer now b c = Ok (c, inr UnknownParent) ->
  import_range p limit elapsed [i] 0 c = Ok (c, 1).
Proof.
  intros Hb Hone. cbn [import_range]. unfold import_or_fail. rewrite Hb. cbn [of_sum map_err expect mbind res_bind]. rewrite Hone. cbn.
  rewrite andb_false_r. cbn. by case_bool_decide.
Qed.
End command.

(** ** Blocks of the Substrate network *)

Section verifier.
Context `{!ChainApi, !PowApi}.

(** [BlockImportParams], as far as the verifier looks at them. *)
Record QueueParams := mk_queue_params {
  qp_number : Z;
  qp_header : SubstrateHeader;
  qp_fork_choice : option bool;
  qp_auxiliary : list (bytes * bytes);
}.

Inductive VerifierError :=
| ExtractHeader (e : HeaderError)
| InvalidHeader (e : HeaderVerifyError)
| CumulativeWork (e : ClientError)
| ExtractHash (e : HeaderError).

(** [SubstrateImportQueueVerifier::verify]. *)
Definition queue_verify (c : Client) (chain_params : ChainParams) (now : Z) (ps : QueueParams) : res VerifierError QueueParams :=
  let substrate_header := qp_header ps in
  btc_header ← map_err ExtractHeader (extract_bitcoin_block_header substrate_header);
  _ ← map_err InvalidHeader (header_verify c chain_params now btc_header);
  '(chain_work, fork_choice) ← map_err CumulativeWork
    (calculate_chain_work_and_fork_choice c btc_header (Z.min u32_max (qp_number ps)));
  bitcoin_block_hash ← map_err ExtractHash (extract_bitcoin_block_hash substrate_header);
  Ok (mk_queue_params (qp_number ps) substrate_header (Some fork_choice)
        (qp_auxiliary ps ++ write_aux_storage bitcoin_block_hash (substrate_hash substrate_header) chain_work)).

(** [VerifyNothing::verify]: new parameters for the header. *)
Definition verify_nothing (ps : QueueParams) : QueueParams := mk_queue_params (qp_number ps) (qp_header ps) None [].

(** A header with the digest that the importer makes is verified as the Bitcoin header
    in it, and gets the fork choice and the auxiliary entries of an import. *)
Lemma queue_verify_spec `{!ChainLaws} c chain_params now n header sub ps' :
  is_u32 n ->
  queue_verify c chain_params now (mk_queue_params n (mk_substrate_header (substrate_header_digest header) sub) None []) = Ok ps' <->
  exists t total best, header_verify c chain_params now header = Ok t /\
    calculate_chain_work_and_fork_choice c header n = Ok (total, best) /\
    ps' = mk_queue_params n (mk_substrate_header (substrate_header_digest header) sub) (Some best)
            (write_aux_storage (block_hash header) sub total).
Proof.
  intros [_ Hn]. unfold queue_verify. cbn [qp_header qp_number qp_auxiliary substrate_hash].
  rewrite Z.min_r by done. destruct (extract_digest header sub) as [-> ->]. cbn [map_err mbind res_bind].
  destruct (header_verify _ _ _ _) as [t | |]; cbn; [| naive_solver ..].
  destruct (calculate_chain_work_and_fork_choice _ _ _) as [[total best] | |]; cbn; [| naive_solver ..].
  split; [intros [= <-]; by exists t, total, best | intros (? & ? & ? & [= <-] & [= <- <-] & ->); done].
Qed.

(** The digest with the hash is not compared with the hash of the header: the entries
    of a block are written under whatever hash it claims. *)
Lemma forged_hash c chain_params now n header sub claimed t total best :
  is_u32 n -> length claimed = 32%nat ->
  decode_header (encode_header header) = Some header ->
  header_verify c chain_params now header = Ok t -> calculate_chain_work_and_fork_choice c header n = Ok (total, best) ->
  let forged := mk_substrate_header [PreRuntime NAKAMOTO_HASH_ENGINE_ID (reverse claimed);
                                     PreRuntime NAKAMOTO_HEADER_ENGINE_ID (encode_header header)] sub in
  queue_verify c chain_params now (mk_queue_params n forged None []) =
    Ok (mk_queue_params n forged (Some best) (write_aux_storage claimed sub total)).
Proof.
  intros [_ Hn] Hl Hd Hv Hw forged. unfold queue_verify. cbn [qp_header qp_number qp_auxiliary].
  assert (extract_bitcoin_block_hash forged = Ok claimed /\ extract_bitcoin_block_header forged = Ok header) as [-> ->].
  { unfold extract_bitcoin_block_hash, extract_bitcoin_block_header, forged. cbn [digest_logs find_pre_digest].
    repeat first [rewrite (bool_decide_eq_true_2 (_ = _)) by reflexivity | rewrite (bool_decide_eq_false_2 (_ = _)) by discriminate].
    rbind. cbn [ok_or]. rbind. by rewrite reverse_involutive, Hl, Hd. }
  cbn [map_err mbind res_bind]. rewrite Hv. cbn [map_err mbind res_bind]. by rewrite Z.min_r, Hw.
Qed.
End verifier.

(** ** Instances *)

Import (hints) Sample SampleTx SampleChain SamplePow SampleBlock.
#[local] Existing Instance sample_sighash.

Module QueueWitness.
(** The importer of the samples on any client; a Substrate hash is the work and the
    height of the block. *)
Definition importer (c : Client) : BitcoinBlockImporter :=
  mk_importer
    (mk_verifier c (mk_chain_params (mk_params 100 100 100 true 1209600 2016 (2 ^ 255)) 100 100 []) VerifyFull NoEngine
       (fun _ => Some (mk_pallet ∅ 0)))
    true (fun _ => inr InChainWithState)
    (fun ps => inr (match client_header c (substrate_hash (ip_header ps)) with inr None => ResultImported | _ => ResultAlreadyInChain end))
    (fun n _ _ _ _ => n :: replicate 31 9).

Lemma importer_laws : ImporterLaws importer.
Proof.
  split; [done | done |]. intros c ps. cbn. by destruct (client_header c _) as [| [|]].
Qed.
#[local] Existing Instance importer_laws.

(** A block on the genesis block, and one without a parent. *)
Definition orphan : Block := mk_block (mk_header 4 (replicate 32 5) [] 160 0x207fffff 9) [first_coinbase].
Definition batch : list Block := [sample_block; orphan; sample_block].

Lemma import_many_blocks_spec_witness :
  exists c r, import_many_blocks (import_one importer 1000) batch sample_client = Ok (c, r) /\
    block_count r = 3%nat /\ imported r = 1%nat /\ map fst (results r) = [inr (ImportedUnknown 1); inl QueueUnknownParent; inl Cancelled].
Proof.
  set (run := from_ok (sample_client, mk_many_result 0 0 []) (import_many_blocks (import_one importer 1000) batch sample_client)).
  assert (import_many_blocks (import_one importer 1000) batch sample_client = Ok (run.1, run.2)) as Hrun by (vm_compute; reflexivity).
  destruct (import_many_blocks_spec (import_one importer 1000) batch sample_client run.1 run.2 Hrun) as (Hcount & _ & _).
  exists run.1, run.2. split; [exact Hrun |]. split; [exact Hcount |]. split; vm_compute; reflexivity.
Defined.

End QueueWitness.
