(* ===== verification/Finalizer.v ===== *)
(** * Finalisation by confirmations ([crates/subcoin-service/src/finalizer.rs])

    A block is finalised when enough blocks are on top of it.  Imports are handled one
    by one; a worker, of which there is at most one, finalises in the background, so
    that its steps interleave with the imports. *)

From Stdlib Require Import ZArith Lia.
From stdpp Require Import prelude.
From S2P Require Import Prelude.

(** A block by number and hash. *)
Abbreviation BlockInfo := (Z * bytes)%type.

(** What the worker is about to do: finalise its block, take the cached one, finalise
    that, or end. *)
Inductive Worker :=
| NoWorker
| FinalizeFirst (b : BlockInfo)
| TakeCached
| FinalizeCached (b : BlockInfo)
| WorkerEnd.

Record SubcoinFinalizer := mk_finalizer {
  finalized_number : Z;
  cached_block_to_finalize : option BlockInfo;
  finalizer_worker : Worker;
}.

(** [finalizer_worker_is_busy]. *)
Definition is_busy (f : SubcoinFinalizer) : bool := match finalizer_worker f with NoWorker => false | _ => true end.

Definition try_update_cached_block_to_finalize (b : BlockInfo) (f : SubcoinFinalizer) : SubcoinFinalizer :=
  let should_update := match cached_block_to_finalize f with Some (cached, _) => cached <? b.1 | None => true end in
  if should_update then mk_finalizer (finalized_number f) (Some b) (finalizer_worker f) else f.

(** What an import sees: the number of the block, the hashes of the best chain, and
    whether Substrate is syncing with blocks in its queue. *)
Record ImportNotification := mk_import_notification {
  in_number : option Z;
  in_hash : Z -> option bytes;
  in_syncing : bool;
}.

Definition on_import (confirmation_depth : Z) (n : ImportNotification) (f : SubcoinFinalizer) : res Empty_set SubcoinFinalizer :=
  block_number ← expect (in_number n);
  if block_number <? confirmation_depth then Ok f
  else
    let confirmed_block_number := block_number - confirmation_depth in
    if confirmed_block_number <=? finalized_number f then Ok f
    else
      confirmed_block_hash ← expect (in_hash n confirmed_block_number);
      let b := (confirmed_block_number, confirmed_block_hash) in
      if in_syncing n then Ok (try_update_cached_block_to_finalize b f)
      else if is_busy f then Ok (try_update_cached_block_to_finalize b f)
      else Ok (mk_finalizer (finalized_number f) (cached_block_to_finalize f) (FinalizeFirst b)).

(** [do_finalize_block]; [succeeds] is whether the client finalises the block.  The
    block is returned that the client was asked to finalise. *)
Definition do_finalize_block (b : BlockInfo) (succeeds : bool) (finalized : Z) : Z * option BlockInfo :=
  if b.1 <=? finalized then (finalized, None) else (if succeeds then b.1 else finalized, Some b).

Definition worker_step (succeeds : bool) (f : SubcoinFinalizer) : SubcoinFinalizer * option BlockInfo :=
  match finalizer_worker f with
  | NoWorker => (f, None)
  | FinalizeFirst b =>
      let '(n, call) := do_finalize_block b succeeds (finalized_number f) in
      (mk_finalizer n (cached_block_to_finalize f) TakeCached, call)
  | TakeCached =>
      (mk_finalizer (finalized_number f) None
         match cached_block_to_finalize f with Some b => FinalizeCached b | None => WorkerEnd end, None)
  | FinalizeCached b =>
      let '(n, call) := do_finalize_block b succeeds (finalized_number f) in
      (mk_finalizer n (cached_block_to_finalize f) WorkerEnd, call)
  | WorkerEnd => (mk_finalizer (finalized_number f) (cached_block_to_finalize f) NoWorker, None)
  end.

Inductive FinalizerEvent := BlockImported (n : ImportNotification) | WorkerRuns (succeeds : bool).

Fixpoint finalizer_run (confirmation_depth : Z) (events : list FinalizerEvent) (f : SubcoinFinalizer)
    : res Empty_set (SubcoinFinalizer * list BlockInfo) :=
  match events with
  | [] => Ok (f, [])
  | BlockImported n :: events =>
      f ← on_import confirmation_depth n f;
      finalizer_run confirmation_depth events f
  | WorkerRuns succeeds :: events =>
      let '(f, call) := worker_step succeeds f in
      '(f, calls) ← finalizer_run confirmation_depth events f;
      Ok (f, match call with Some b => b :: calls | None => calls end)
  end.

(** ** What is finalised *)

Section facts.
Context (depth : Z).

(** The block that an import confirms. *)
Definition confirms (n : ImportNotification) (b : BlockInfo) : Prop :=
  exists m, in_number n = Some m /\ depth <= m /\ b.1 = m - depth /\ in_hash n b.1 = Some b.2.

(** The blocks the finalizer holds: in the cache and in the worker. *)
Definition holds (f : SubcoinFinalizer) (b : BlockInfo) : Prop :=
  cached_block_to_finalize f = Some b \/ finalizer_worker f = FinalizeFirst b \/ finalizer_worker f = FinalizeCached b.

Lemma on_import_holds n f f' :
  on_import depth n f = Ok f' ->
  finalized_number f' = finalized_number f /\ (forall b, holds f' b -> holds f b \/ confirms n b).
Proof.
  unfold on_import, try_update_cached_block_to_finalize, is_busy. intros (m & Hm & Hrun)%bind_Ok. apply expect_Ok in Hm.
  destruct (Z.ltb_spec m depth) as [| Hd]; [injection Hrun as <-; by auto |].
  destruct (Z.leb_spec (m - depth) (finalized_number f)); [injection Hrun as <-; by auto |].
  apply bind_Ok in Hrun as (h & Hh%expect_Ok & Hrun).
  assert (confirms n (m - depth, h)) as Hc by (exists m; cbn; split_and!; [done | lia | lia | done]).
  assert (forall b, holds (mk_finalizer (finalized_number f) (Some (m - depth, h)) (finalizer_worker f)) b -> holds f b \/ confirms n b) as Hnew.
  { intros b [[= <-] | Hb]; [by right | left; by right]. }
  destruct (in_syncing n); [| destruct (finalizer_worker f) eqn:Hw].
  2: { injection Hrun as <-. split; [done |]. intros b [Hb | [[= <-] | Hb]]; [left; by left | by right | done]. }
  all: case_match; injection Hrun as <-; (split; [done |]); auto.
Qed.

Lemma worker_step_holds ok f f' call :
  worker_step ok f = (f', call) ->
  (forall b, holds f' b -> holds f b) /\ finalized_number f <= finalized_number f' /\
  match call with
  | Some b => holds f b /\ finalized_number f < b.1 /\ finalized_number f' = (if ok then b.1 else finalized_number f)
  | None => finalized_number f' = finalized_number f
  end.
Proof.
  unfold worker_step, do_finalize_block, holds. destruct f as [z c w]. cbn [finalized_number cached_block_to_finalize finalizer_worker].
  destruct w as [| b | | b |].
  - intros [= <- <-]. split_and!; [auto | done | done].
  - destruct (Z.leb_spec b.1 z); intros [= <- <-]; cbn; (split; [naive_solver |]); [by split | split; [destruct ok; lia | split_and!; [auto | lia | done]]].
  - intros [= <- <-]. cbn. split_and!; [| lia | done]. intros b [? | [? | Hb]]; [done | by destruct c |]. destruct c; naive_solver.
  - destruct (Z.leb_spec b.1 z); intros [= <- <-]; cbn; (split; [naive_solver |]); [by split | split; [destruct ok; lia | split_and!; [auto | lia | done]]].
  - intros [= <- <-]. cbn. split_and!; [naive_solver | lia | done].
Qed.

Lemma run_calls events f f' calls :
  finalizer_run depth events f = Ok (f', calls) ->
  finalized_number f <= finalized_number f' /\
  Forall (fun b => finalized_number f < b.1 /\ (holds f b \/ exists n, BlockImported n ∈ events /\ confirms n b)) calls.
Proof.
  revert f calls. induction events as [| [n | ok] events IH]; intros f calls; cbn [finalizer_run].
  - intros [= <- <-]. by split.
  - intros (f1 & [Hf Hh]%on_import_holds & Hrun)%bind_Ok. apply IH in Hrun as [Hle Hcalls]. rewrite Hf in *. split; [done |].
    eapply Forall_impl; [exact Hcalls |]. intros b [Hlt [Hb | (n' & Hn' & Hc)]]; (split; [done |]).
    + destruct (Hh b Hb) as [? | Hc]; [by left |]. right. exists n. split; [left | done].
    + right. exists n'. split; [by right | done].
  - destruct (worker_step ok f) as [f1 call] eqn:Hw. apply worker_step_holds in Hw as (Hh & Hle & Hcall).
    intros ([f2 calls2] & Hrun & [= <- <-])%bind_Ok. apply IH in Hrun as [Hle2 Hcalls]. split; [lia |].
    assert (Forall (fun b => finalized_number f < b.1 /\ (holds f b \/ exists n, BlockImported n ∈ WorkerRuns ok :: events /\ confirms n b)) calls2) as Hrest.
    { eapply Forall_impl; [exact Hcalls |]. intros b [Hlt [Hb | (n' & Hn' & Hc)]]; (split; [lia |]); [left; auto |].
      right. exists n'. split; [by right | done]. }
    destruct call as [b |]; [| done]. destruct Hcall as (Hb & Hlt & _). constructor; [by split; [| left] | done].
Qed.

(** Every confirmed height is finalised, or held. *)
Definition accounted (f : SubcoinFinalizer) (n : Z) : Prop := n <= finalized_number f \/ exists b, holds f b /\ n <= b.1.

Lemma cache_accounts b f m : accounted f m \/ m <= b.1 -> accounted (try_update_cached_block_to_finalize b f) m.
Proof.
  unfold accounted, try_update_cached_block_to_finalize, holds. destruct f as [z c w]. cbn [cached_block_to_finalize finalized_number finalizer_worker].
  intros Hm. destruct c as [[cn ch] |]; [destruct (Z.ltb_spec cn b.1) |]; cbn.
  - destruct Hm as [[Hm | (b' & [[= <-] | Hb] & Hm)] | Hm]; [by left | | right; by exists b'; auto | right; exists b; auto].
    right. exists b. split; [by left | cbn in Hm; lia].
  - destruct Hm as [[Hm | Hm] | Hm]; [by left | by right |]. right. exists (cn, ch). split; [by left | cbn; lia].
  - destruct Hm as [[Hm | (b' & [? | Hb] & Hm)] | Hm]; [by left | done | right; by exists b'; auto | right; exists b; auto].
Qed.

Lemma on_import_accounts n f f' m :
  on_import depth n f = Ok f' ->
  accounted f m \/ (exists k, in_number n = Some k /\ depth <= k /\ m = k - depth) -> accounted f' m.
Proof.
  unfold on_import, is_busy. intros (k & Hk & Hrun)%bind_Ok Hm. apply expect_Ok in Hk.
  assert (accounted f m \/ (depth <= k /\ m = k - depth)) as Hm'.
  { destruct Hm as [Hm | (k' & Hk' & Hd & ->)]; [by left |]. rewrite Hk in Hk'. injection Hk' as <-. by right. }
  clear Hm. destruct (Z.ltb_spec k depth) as [| Hd].
  { injection Hrun as <-. destruct Hm' as [Hm | [? ?]]; [done | lia]. }
  destruct (Z.leb_spec (k - depth) (finalized_number f)).
  { injection Hrun as <-. destruct Hm' as [Hm | [? ->]]; [done | by left]. }
  apply bind_Ok in Hrun as (h & _ & Hrun).
  assert (accounted (try_update_cached_block_to_finalize (k - depth, h) f) m) as Hcache
    by (apply cache_accounts; destruct Hm' as [Hm | [? ->]]; [by left | right; cbn; lia]).
  destruct (in_syncing n); [by injection Hrun as <- |].
  destruct (finalizer_worker f) eqn:Hw; try (by injection Hrun as <-). injection Hrun as <-.
  destruct Hm' as [[Hm | (b & [Hb | [Hb | Hb]] & Hm)] | [_ ->]]; [by left | | congruence | congruence |].
  - right. exists b. split; [by left | done].
  - right. exists (k - depth, h). split; [right; by left | cbn; lia].
Qed.

Lemma worker_step_accounts f m : accounted f m -> accounted (worker_step true f).1 m.
Proof.
  unfold accounted, worker_step, do_finalize_block, holds. destruct f as [z c w]. cbn [finalized_number cached_block_to_finalize finalizer_worker].
  intros [Hm | (b & [Hb | [Hb | Hb]] & Hm)]; destruct w as [| b' | | b' |]; try done; simplify_eq; cbn;
    repeat match goal with |- context [?x <=? ?y] => destruct (Z.leb_spec x y); cbn end;
    try (left; lia); right; exists b; split; auto.
Qed.

End facts.

(** ** Examples *)

Module FinalizerWitness.
Definition notification (n : Z) : FinalizerEvent := BlockImported (mk_import_notification (Some n) (fun k => Some [k]) false).
Definition sample_events : list FinalizerEvent :=
  [notification 9; notification 10; WorkerRuns true; notification 12; notification 11; WorkerRuns true; WorkerRuns true; WorkerRuns true].


(** A block that is cached after the worker took the cache, and before it ended, waits
    for the next import. *)
Lemma cached_too_late :
  exists f' calls,
    finalizer_run 6 [notification 9; WorkerRuns true; WorkerRuns true; notification 10; WorkerRuns true; WorkerRuns true; WorkerRuns true]
      (mk_finalizer 2 None NoWorker) = Ok (f', calls) /\
    finalized_number f' = 3 /\ cached_block_to_finalize f' = Some (4, [4]) /\ finalizer_worker f' = NoWorker.
Proof. do 2 eexists. split_and!; vm_compute; reflexivity. Qed.
End FinalizerWitness.
