(* ===== verification/NetworkApi.v ===== *)
(** * The handle of the network ([crates/subcoin-network/src/network_api.rs])

    The interface through which the rest of the node reaches the network processor,
    and its three implementations: the handle, which sends a message and waits for
    the answer, and the two that stand in when the network is off. *)

From Stdlib Require Import ZArith Lia String.
From stdpp Require Import prelude gmap strings.
From S2P Require Import Prelude Collections Bitcoin Client HeaderVerify BlockVerify MempoolTypes Mempool.
From S2P Require Import NetworkTypes BlockDownloader TxRelay PeerStore PeerManager SyncTypes ChainSync NetworkProcessor.

(** The bytes on the wire are counted by the connections. *)
Record NetStatus := mk_net_status {
  num_connected_peers : Z;
  sync_status : SyncStatus;
}.

(** The texts of a failure: no network, no processor, no answer, or a rejection. *)
Inductive SendFailure :=
| NetworkServiceUnavailable
| FailedToSend (txid : bytes)
| InternalError
| RejectedBecause (reason : RejectionReason).

Inductive SendTransactionResult :=
| SendSuccess (txid : bytes)
| SendFailed (why : SendFailure).

(** The trait; [N] is what the calls may change, and the last component what is
    handed to other tasks. *)
Class NetworkApi (N : Type) := {
  net_enabled : N -> bool;
  net_status : N -> option NetStatus;
  net_sync_peers : N -> list PeerSync;
  net_get_transaction : bytes -> N -> option Transaction;
  net_send_transaction : Transaction -> N -> SendTransactionResult * N * list ProcessorEffect;
  net_start_block_sync : N -> bool * N * list ProcessorEffect;
  net_is_major_syncing : N -> bool;
}.

(** What callers rely on: a network that is not enabled answers nothing and takes
    no transaction. *)
Class NetworkApiLaws (N : Type) `{!NetworkApi N} : Prop := {
  disabled_silent n :
    net_enabled n = false ->
    net_status n = None /\ net_sync_peers n = [] /\ (forall txid, net_get_transaction txid n = None) /\
    (forall tx, net_send_transaction tx n = (SendFailed NetworkServiceUnavailable, n, [])) /\
    net_start_block_sync n = (false, n, []);
}.

(** ** No network *)

Inductive NoNetwork := no_network.
Inductive OfflineSync := offline_sync.

#[export] Instance no_network_api : NetworkApi NoNetwork := {|
  net_enabled _ := false;
  net_status _ := None;
  net_sync_peers _ := [];
  net_get_transaction _ _ := None;
  net_send_transaction _ n := (SendFailed NetworkServiceUnavailable, n, []);
  net_start_block_sync n := (false, n, []);
  net_is_major_syncing _ := false;
|}.

#[export] Instance offline_sync_api : NetworkApi OfflineSync := {|
  net_enabled _ := false;
  net_status _ := None;
  net_sync_peers _ := [];
  net_get_transaction _ _ := None;
  net_send_transaction _ n := (SendFailed NetworkServiceUnavailable, n, []);
  net_start_block_sync n := (false, n, []);
  net_is_major_syncing _ := true;
|}.

#[export] Instance no_network_laws : NetworkApiLaws NoNetwork.
Proof. split. by intros []. Qed.
#[export] Instance offline_sync_laws : NetworkApiLaws OfflineSync.
Proof. split. by intros []. Qed.

(** ** The handle *)

(** The processor behind the handle; once it is gone the flag keeps its value. *)
Inductive NetworkHandle (P : Type) :=
| Running (s : NetworkProcessor P)
| Stopped (major_syncing : bool).
Arguments Running {P}.
Arguments Stopped {P}.

Section handle.
Context `{!ChainApi, !PowApi, !HashOrder, !EncodedSizes, !UnstableSort, !RandomChoice, !TxApi, !BlockApi}.
Context {P : Type} `{!TxPool P}.
Context (env : Env).
Implicit Types (h : NetworkHandle P).

(** A message to the processor: [None] when it cannot be sent, [Some None] when the
    processor ends without an answer. *)
Definition request (msg : ProcessorMessage) h : option (option Reply) * NetworkHandle P * list ProcessorEffect :=
  match h with
  | Stopped _ => (None, h, [])
  | Running s =>
      match handle_processor_message env msg s with
      | Ok (r, s, e) => (Some (Some r), Running s, e)
      | Err _ | Panic => (Some None, Stopped (is_major_syncing (chain_sync s)), [])
      end
  end.

Definition status h : option NetStatus :=
  match (request RequestNetworkStatus h).1.1 with
  | Some (Some (NetworkStatus n st)) => Some (mk_net_status n st)
  | _ => None
  end.

Definition sync_peers h : list PeerSync :=
  match (request RequestSyncPeers h).1.1 with
  | Some (Some (SyncPeers peers)) => peers
  | _ => []
  end.

Definition handle_get_transaction (txid : bytes) h : option Transaction :=
  match (request (RequestTransaction txid) h).1.1 with
  | Some (Some (TransactionReply tx)) => tx
  | _ => None
  end.

Definition send_transaction (tx : Transaction) h : SendTransactionResult * NetworkHandle P * list ProcessorEffect :=
  let '(reply, h, e) := request (SendTransaction tx) h in
  (match reply with
   | None => SendFailed (FailedToSend (compute_txid tx))
   | Some (Some (SendTransactionSuccess txid)) => SendSuccess txid
   | Some (Some (SendTransactionFailure reason)) => SendFailed (RejectedBecause reason)
   | Some _ => SendFailed InternalError
   end, h, e).

Definition handle_start_block_sync h : bool * NetworkHandle P * list ProcessorEffect :=
  let '(reply, h, e) := request StartBlockSync h in (bool_decide (is_Some reply), h, e).

Definition handle_is_major_syncing h : bool :=
  match h with
  | Running s => is_major_syncing (chain_sync s)
  | Stopped b => b
  end.

Definition handle_api : NetworkApi (NetworkHandle P) := {|
  net_enabled _ := true;
  net_status := status;
  net_sync_peers := sync_peers;
  net_get_transaction := handle_get_transaction;
  net_send_transaction := send_transaction;
  net_start_block_sync := handle_start_block_sync;
  net_is_major_syncing := handle_is_major_syncing;
|}.

Lemma handle_laws : @NetworkApiLaws (NetworkHandle P) handle_api.
Proof. by split. Qed.

Lemma transaction_request txid s :
  handle_processor_message env (RequestTransaction txid) s =
  match tx_get (tx_pool (tx_relay s)) txid with
  | Ok tx => Ok (TransactionReply tx, s, [])
  | Err e => Err e
  | Panic => Panic
  end.
Proof.
  unfold handle_processor_message, on_relay, state, mbind, proc_bind, mret, proc_ret, res_bind, relay_get_transaction.
  destruct (tx_get _ txid); [| done ..]. by destruct s.
Qed.

(** The requests that only read leave the processor as it is, so that the handle may
    forget the state after them. *)
Lemma requests_read msg s :
  msg = RequestNetworkStatus \/ msg = RequestSyncPeers \/ (exists txid, msg = RequestTransaction txid) ->
  (exists r, request msg (Running s) = (Some (Some r), Running s, [])) \/
  request msg (Running s) = (Some None, Stopped (is_major_syncing (chain_sync s)), []).
Proof.
  unfold request. intros [-> | [-> | [txid ->]]]; [left; by eexists .. |].
  rewrite transaction_request. destruct (tx_get _ txid); [left; by eexists | by right ..].
Qed.

(** The handle finds exactly the transactions of the pool. *)
Lemma handle_get_transaction_spec txid s :
  handle_get_transaction txid (Running s) =
  match tx_get (tx_pool (tx_relay s)) txid with Ok tx => tx | _ => None end.
Proof. unfold handle_get_transaction, request. rewrite transaction_request. by destruct (tx_get _ txid). Qed.
End handle.
