(* ===== verification/NodeChain.v ===== *)
(** * Bitcoin blocks in the Substrate client ([crates/subcoin-service/src/transaction_adapter.rs],
      [genesis_block_builder.rs], [lib.rs], [crates/subcoin-primitives/src/lib.rs])

    Bitcoin transactions travel as extrinsics of the Bitcoin pallet, and a Bitcoin
    block is rebuilt from a Substrate block.  The genesis block is made of the Bitcoin
    genesis block.  The lemmas show that a client which starts from it and imports
    blocks keeps every block, but for the witnesses of coinbases. *)

From Stdlib Require Import ZArith Lia.
From stdpp Require Import prelude gmap.
From S2P Require Import Prelude Collections Bitcoin Runtime PalletTypes Client HeaderVerify Import.

(** ** Extrinsics ([transaction_adapter.rs]) *)

(** The calls of the runtime: the one of the Bitcoin pallet, and the others. *)
Inductive RuntimeCall :=
| Transact (btc_tx : Types.Transaction)
| OtherCall (code : Z).

(** SCALE encoding of unsigned extrinsics. *)
Class ExtrinsicCodec := {
  encode_extrinsic : RuntimeCall -> bytes;
  decode_extrinsic : bytes -> option RuntimeCall;
}.
Class ExtrinsicCodecLaws `{!ExtrinsicCodec} : Prop := {
  decode_encode_extrinsic call : decode_extrinsic (encode_extrinsic call) = Some call;
}.

Record SubstrateBlock := mk_substrate_block {
  sb_header : SubstrateHeader;
  extrinsics : list bytes;
}.

(** The client with the bodies of blocks ([BlockBackend]). *)
Record NodeClient := mk_node_client {
  backend : Client;
  client_block : bytes -> ClientError + option SubstrateBlock;
}.

Section adapter.
Context `{!TxApi, !ExtrinsicCodec}.

Definition extrinsic_to_bitcoin_transaction {E : Type} (extrinsic : bytes) : res E Transaction :=
  unchecked_extrinsic ← expect (decode_extrinsic extrinsic);
  match unchecked_extrinsic with
  | Transact btc_tx => Types.transaction_into btc_tx
  | OtherCall _ => Panic
  end.

Definition bitcoin_transaction_into_extrinsic (btc_tx : Transaction) : bytes :=
  encode_extrinsic (Transact (Types.transaction_from btc_tx)).

Fixpoint extrinsics_to_transactions {E : Type} (l : list bytes) : res E (list Transaction) :=
  match l with
  | [] => Ok []
  | x :: l =>
      tx ← extrinsic_to_bitcoin_transaction x;
      txs ← extrinsics_to_transactions l;
      Ok (tx :: txs)
  end.

Definition convert_to_bitcoin_block `{!ChainApi} (substrate_block : SubstrateBlock) : res HeaderError Block :=
  header ← extract_bitcoin_block_header (sb_header substrate_block);
  txdata ← extrinsics_to_transactions (extrinsics substrate_block);
  Ok (mk_block header txdata).

(** ** The genesis block ([genesis_block_builder.rs], [lib.rs]) *)

(** [genesis] is the one of rust-bitcoin for the network; [header_hash] the hash of
    the Substrate header made of the extrinsics, the state root and the digest. *)
Definition substrate_genesis_block `{!ChainApi} (genesis : Block) (state_root : bytes)
    (header_hash : list bytes -> bytes -> list DigestItem -> bytes) : SubstrateBlock :=
  let extrinsics := map bitcoin_transaction_into_extrinsic (txdata genesis) in
  let digest := substrate_header_digest (block_header genesis) in
  mk_substrate_block (mk_substrate_header digest (header_hash extrinsics state_root digest)) extrinsics.

(** [insert_aux] with one entry. *)
Definition insert_aux (k v : bytes) (c : Client) : Client := {|
  get_aux k' := if bool_decide (k' = k) then inr (Some v) else get_aux c k';
  client_number := client_number c;
  client_hash := client_hash c;
  client_header := client_header c;
  best_hash := best_hash c;
  best_number := best_number c;
|}.

Definition initialize_genesis_block_hash_mapping `{!ChainApi} (genesis : Block) (genesis_hash : bytes) (c : Client) : Client :=
  insert_aux (block_hash (block_header genesis)) (encode_hash genesis_hash) c.

(** A new Substrate database with its genesis block: what the client does. *)
Definition fresh_client (sb : SubstrateBlock) : NodeClient :=
  let hash := substrate_hash (sb_header sb) in
  {| backend := {|
       get_aux _ := inr None;
       client_number h := inr (if bool_decide (h = hash) then Some 0 else None);
       client_hash n := inr (if n =? 0 then Some hash else None);
       client_header h := inr (if bool_decide (h = hash) then Some (sb_header sb) else None);
       best_hash := hash;
       best_number := 0 |};
     client_block h := inr (if bool_decide (h = hash) then Some sb else None) |}.

(** The client when the node starts for the first time. *)
Definition start_client `{!ChainApi} (genesis : Block) (state_root : bytes)
    (header_hash : list bytes -> bytes -> list DigestItem -> bytes) : NodeClient :=
  let sb := substrate_genesis_block genesis state_root header_hash in
  let c := fresh_client sb in
  {| backend := initialize_genesis_block_hash_mapping genesis (substrate_hash (sb_header sb)) (backend c);
     client_block := client_block c |}.

(** ** Imports with bodies *)

(** An import as [import_into], which also keeps the body. *)
Definition import_block_into `{!ChainApi} (c : NodeClient) (number : Z) (block : Block) (sub : bytes) (total : Z)
    (best : bool) : NodeClient :=
  let header := mk_substrate_header (substrate_header_digest (block_header block)) sub in
  {| backend := import_into (backend c) number header
       (write_aux_storage (block_hash (block_header block)) sub total) best;
     client_block h :=
       if bool_decide (h = sub)
       then inr (Some (mk_substrate_block header (map bitcoin_transaction_into_extrinsic (txdata block))))
       else client_block c h |}.
End adapter.

(** What comes back of a block: the witnesses of null inputs are lost. *)
Definition stored_block (b : Block) : Block := mk_block (block_header b) (map Types.stored (txdata b)).

Section node.
Context `{!TxApi, !TxLaws, !ExtrinsicCodec, !ExtrinsicCodecLaws, !ChainApi, !ChainLaws, !PowApi}.
Context (genesis : Block) (state_root : bytes) (header_hash : list bytes -> bytes -> list DigestItem -> bytes).
Implicit Types (c : NodeClient).

Lemma extrinsic_roundtrip {E : Type} tx :
  extrinsic_to_bitcoin_transaction (E := E) (bitcoin_transaction_into_extrinsic tx) = Ok (Types.stored tx).
Proof.
  unfold extrinsic_to_bitcoin_transaction, bitcoin_transaction_into_extrinsic. rewrite decode_encode_extrinsic.
  apply Types.transaction_roundtrip_full.
Qed.

Lemma extrinsics_roundtrip {E : Type} txs :
  extrinsics_to_transactions (E := E) (map bitcoin_transaction_into_extrinsic txs) = Ok (map Types.stored txs).
Proof. induction txs as [| tx txs IH]; cbn; [done |]. rewrite extrinsic_roundtrip. rbind. by rewrite IH. Qed.

(** The hash of the genesis block in Substrate. *)
Definition genesis_hash : bytes := substrate_hash (sb_header (substrate_genesis_block genesis state_root header_hash)).

(** The clients of the node, with the Bitcoin blocks they were given: as [imports],
    from the first start on. *)
Inductive node_imports : NodeClient -> list Block -> Prop :=
| node_start : node_imports (start_client genesis state_root header_hash) [genesis]
| node_import c blocks block sub parent total best :
    node_imports c blocks ->
    get_aux (backend c) (block_hash (block_header block)) = inr None ->
    client_header (backend c) sub = inr None -> length sub = 32%nat ->
    length (prev_blockhash (block_header block)) = 32%nat ->
    backend_block_number (backend c) (prev_blockhash (block_header block)) = Some parent ->
    calculate_chain_work_and_fork_choice (backend c) (block_header block) (parent + 1) = Ok (total, best) ->
    node_imports (import_block_into c (parent + 1) block sub total best) (block :: blocks).

(** What the client holds of a block. *)
Record holds c (b : Block) (e : Entry) : Prop := {
  ho_known : known (backend c) (block_hash (block_header b)) e;
  ho_header : e_header e = block_header b;
  ho_block : exists h, client_header (backend c) (e_sub e) = inr (Some h) /\
    extract_bitcoin_block_header h = Ok (block_header b) /\
    extract_bitcoin_block_hash h = Ok (block_hash (block_header b)) /\
    client_block c (e_sub e) = inr (Some (mk_substrate_block h (map bitcoin_transaction_into_extrinsic (txdata b))));
}.

Lemma holds_convert c b e :
  holds c b e -> exists sb, client_block c (e_sub e) = inr (Some sb) /\ convert_to_bitcoin_block sb = Ok (stored_block b).
Proof.
  intros [_ _ (h & _ & Hh & _ & Hb)]. eexists. split; [exact Hb |].
  unfold convert_to_bitcoin_block. cbn. rewrite Hh. rbind. by rewrite extrinsics_roundtrip.
Qed.

Context (Hgenesis : length genesis_hash = 32%nat).

(** The first start leaves a client that knows the genesis block. *)
Lemma start_genesis : genesis_client (backend (start_client genesis state_root header_hash)) (block_header genesis) genesis_hash.
Proof.
  destruct (extract_digest (block_header genesis) genesis_hash) as [Hhash Hhead].
  assert (Hs : substrate_block_hash_for (backend (start_client genesis state_root header_hash)) (block_hash (block_header genesis)) = Some genesis_hash).
  { unfold substrate_block_hash_for. cbn. rewrite bool_decide_eq_true_2 by done. cbn. by apply decode_encode_hash. }
  split; try done.
  - unfold backend_block_header. rewrite Hs. cbn. rewrite bool_decide_eq_true_2 by done. exact (f_equal ok Hhead).
  - unfold backend_block_number. rewrite Hs. cbn. by rewrite bool_decide_eq_true_2.
  - unfold bitcoin_block_hash_for. cbn. rewrite bool_decide_eq_true_2 by done. exact (f_equal ok Hhash).
  - intros k Hk. cbn. by rewrite bool_decide_eq_false_2.
  - intros h Hh. cbn. by rewrite bool_decide_eq_false_2.
Qed.

Lemma node_imports_backend c blocks : node_imports c blocks -> imports (block_header genesis) genesis_hash (backend c).
Proof.
  induction 1 as [| c blocks block sub parent total best Hi IH Hfresh Hnew Hsub Hprev Hnum Hcalc].
  - apply imports_genesis, start_genesis.
  - by apply imports_block.
Qed.

Lemma node_imports_holds c blocks : node_imports c blocks -> forall b, b ∈ blocks -> exists e, holds c b e.
Proof.
  induction 1 as [| c blocks block sub parent total best Hi IH Hfresh Hnew Hsub Hprev Hnum Hcalc]; intros b.
  - intros ->%list_elem_of_singleton. pose proof (genesis_tree _ _ _ start_genesis) as Ht.
    exists (mk_entry_of (block_header genesis) 0 genesis_hash (work (block_header genesis))).
    destruct (extract_digest (block_header genesis) genesis_hash) as [Hhash Hhead]. split; [| done |].
    + apply (t_known _ _ _ _ Ht). by rewrite lookup_singleton_eq.
    + exists (mk_substrate_header (substrate_header_digest (block_header genesis)) genesis_hash).
      cbn. rewrite !bool_decide_eq_true_2 by done. done.
  - destruct (imports_tree _ _ _ (node_imports_backend _ _ Hi)) as (M & bst & Ht).
    destruct (tree_lookup _ _ _ _ _ _ Ht Hprev Hnum) as (p & Hp & Hpn).
    destruct (calculate_in_tree _ _ _ _ _ _ _ _ _ Ht Hp Hpn Hcalc) as (Htot & Hrange & Hb).
    destruct (extract_digest (block_header block) sub) as [Hhash Hhead].
    intros [-> | Hin]%elem_of_cons.
    + exists (mk_entry_of (block_header block) (parent + 1) sub total). split; [| done |].
      * by apply import_known_new.
      * eexists. cbn. rewrite !bool_decide_eq_true_2 by done. done.
    + destruct (IH b Hin) as [e [Hk He (h & Hch & Hx & Hxh & Hcb)]]. exists e. split; [| done |].
      * apply import_known_old; [done | | done]. intros Heq. rewrite Heq in Hk.
        pose proof (k_sub _ _ _ Hk) as Hs. unfold substrate_block_hash_for in Hs. by rewrite Hfresh in Hs.
      * assert (e_sub e <> sub) by congruence.
        exists h. cbn. rewrite !bool_decide_eq_false_2 by done. done.
Qed.

Lemma node_imports_unknown c blocks hash :
  node_imports c blocks -> length hash = 32%nat -> hash ∉ map (fun b => block_hash (block_header b)) blocks ->
  get_aux (backend c) hash = inr None.
Proof.
  intros Hi Hl. induction Hi as [| c blocks block sub parent total best Hi IH Hfresh Hnew Hsub Hprev Hnum Hcalc];
    cbn [map]; rewrite not_elem_of_cons; intros [Hne Hnot].
  - cbn. by rewrite bool_decide_eq_false_2.
  - cbn [backend import_block_into]. rewrite import_aux_other; auto.
Qed.
End node.
