(* ===== verification/Rpc.v ===== *)
(** * JSON-RPC of the node ([crates/subcoin-rpc])

    The handlers of the [blockchain_], [rawtx_], [network_] and [address_] methods,
    over the client, the network handle and the address index.  The values that are
    turned into JSON are returned as they are. *)

From Stdlib Require Import ZArith Lia String.
From stdpp Require Import prelude gmap strings sorting.
From S2P Require Import Prelude Collections ScriptTypes Bitcoin Runtime PalletTypes Client HeaderVerify Import Solver NodeChain.
From S2P Require Import NetworkTypes PeerManager SyncTypes ChainSync NetworkProcessor NetworkApi IndexerDb IndexerQuery Indexer.

(** ** What the handlers rely on *)

(** The hex crate, and rust-bitcoin's consensus encoding. *)
Class RpcCodec := {
  hex_encode : bytes -> string;
  hex_decode : string -> option bytes;
  encode_block : Block -> bytes;
  decode_block : bytes -> option Block;
  encode_transaction : Transaction -> bytes;
  decode_transaction : bytes -> option Transaction;
  (** The text of an error of the index. *)
  indexer_error_text : IndexerError -> string;
}.
Class RpcCodecLaws `{!RpcCodec} : Prop := {
  hex_decode_encode bs : hex_decode (hex_encode bs) = Some bs;
  decode_encode_block b : decode_block (encode_block b) = Some b;
  decode_encode_transaction tx : decode_transaction (encode_transaction tx) = Some tx;
}.

(** [serialize_hex] and [deserialize_hex]. *)
Definition serialize_hex `{!RpcCodec} (tx : Transaction) : string := hex_encode (encode_transaction tx).
Definition deserialize_hex `{!RpcCodec} (s : string) : option Transaction := hex_decode s ≫= decode_transaction.

(** ** [TransactionIndex] ([crates/subcoin-primitives/src/lib.rs]) *)

Class TransactionIndex (T : Type) := { tx_index : bytes -> T -> ClientError + option TxPosition }.

Inductive NoTransactionIndex := no_transaction_index.

#[export] Instance no_index : TransactionIndex NoTransactionIndex := {| tx_index _ _ := inr None |}.
(** The query of the index; the database answers. *)
#[export] Instance indexer_index : TransactionIndex IndexerDatabase := {| tx_index txid d := inr (get_tx_position txid d) |}.

(** ** Errors ([error.rs]) *)

Inductive RpcError :=
| RpcBlockNotFound
| RpcHeaderNotFound
| RpcNetworkUnavailable
| RpcSubstrateBlockHashNotFound
| RpcHeader (e : HeaderError)
| RpcBitcoinIO
| RpcBlockchain (e : ClientError)
| RpcDecodeHex
| RpcSerdeJson
| RpcUnsafeRpcCalled
| RpcClient (code : Z)
| RpcOther (message : string).

Definition BLOCKCHAIN : Z := 10000.
Definition BASE_ERROR : Z := BLOCKCHAIN.

(** The code of the error object. *)
Definition error_code (e : RpcError) : Z :=
  match e with
  | RpcOther _ => BASE_ERROR + 1
  | _ => BASE_ERROR + 2
  end.

(** ** Blocks and transactions ([blockchain.rs]) *)

Record BlockWithTxids := mk_block_with_txids {
  bw_header : Header;
  txids : list bytes;
  bw_txdata : list Transaction;
}.

Section blockchain.
Context `{!ScriptApi, !HashApi, !TxApi, !ExtrinsicCodec, !ChainApi, !RpcCodec, !AddressApi}.
Context {T : Type} `{!TransactionIndex T}.
Implicit Types (c : NodeClient).

Definition substrate_block_hash c (bitcoin_hash : option bytes) : res RpcError bytes :=
  match bitcoin_hash with
  | Some h => ok_or RpcSubstrateBlockHashNotFound (substrate_block_hash_for (backend c) h)
  | None => Ok (best_hash (backend c))
  end.

Definition header c (hash : option bytes) : res RpcError (option Header) :=
  substrate_block_hash ← substrate_block_hash c hash;
  h ← map_err RpcBlockchain (of_sum (client_header (backend c) substrate_block_hash));
  h ← ok_or RpcHeaderNotFound h;
  bitcoin_header ← map_err RpcHeader (extract_bitcoin_block_header h);
  Ok (Some bitcoin_header).

Definition block c (hash : option bytes) : res RpcError (option Block) :=
  substrate_block_hash ← substrate_block_hash c hash;
  b ← map_err RpcBlockchain (of_sum (client_block c substrate_block_hash));
  substrate_block ← ok_or RpcBlockNotFound b;
  bitcoin_block ← map_err RpcHeader (convert_to_bitcoin_block substrate_block);
  Ok (Some bitcoin_block).

(** The hash that the methods by number pass on. *)
Definition hash_of_number c (number : option Z) : res RpcError (option bytes) :=
  match number with
  | Some number =>
      h ← ok_or RpcBlockNotFound (backend_block_hash (backend c) number);
      Ok (Some h)
  | None => Ok None
  end.

Definition block_by_number c (number : option Z) : res RpcError (option Block) :=
  block_hash ← hash_of_number c number;
  block c block_hash.

Definition block_with_txids c (hash : option bytes) : res RpcError (option BlockWithTxids) :=
  b ← block c hash;
  match b with
  | Some b => Ok (Some (mk_block_with_txids (block_header b) (map compute_txid (txdata b)) (txdata b)))
  | None => Ok None
  end.

Definition block_with_txids_by_number c (number : option Z) : res RpcError (option BlockWithTxids) :=
  block_hash ← hash_of_number c number;
  block_with_txids c block_hash.

Definition raw_block c (hash : option bytes) : res RpcError (option string) :=
  b ← block c hash;
  match b with
  | Some b => Ok (Some (hex_encode (encode_block b)))
  | None => Ok None
  end.

Definition raw_block_by_number c (number : option Z) : res RpcError (option string) :=
  block_hash ← hash_of_number c number;
  raw_block c block_hash.

Definition transaction c (index : T) (txid : bytes) : res RpcError (option Transaction) :=
  position ← map_err RpcBlockchain (of_sum (tx_index txid index));
  match position with
  | None => Ok None
  | Some p =>
      h ← map_err RpcBlockchain (of_sum (client_hash (backend c) (tx_block_number p)));
      substrate_block_hash ← ok_or (RpcBlockchain BackendError) h;
      b ← map_err RpcBlockchain (of_sum (client_block c substrate_block_hash));
      substrate_block ← ok_or RpcBlockNotFound b;
      bitcoin_block ← map_err RpcHeader (convert_to_bitcoin_block substrate_block);
      Ok (txdata bitcoin_block !! Z.to_nat (tx_pos_index p))
  end.

Definition best_block_hash c : res RpcError bytes :=
  ok_or (RpcOther "Best block hash not found") (bitcoin_block_hash_for (backend c) (best_hash (backend c))).

Definition rpc_block_hash c (height : Z) : res RpcError (option bytes) := Ok (backend_block_hash (backend c) height).
Definition block_number c (hash : bytes) : res RpcError (option Z) := Ok (backend_block_number (backend c) hash).

Definition decode_script_pubkey (network : Network) (script_pubkey_hex : string) : res RpcError (option string) :=
  script ← ok_or (RpcOther "Invalid hex") (hex_decode script_pubkey_hex);
  match address_from_script network script with
  | Some address => Ok (Some address)
  | None =>
      kind ← solve script;
      match kind with
      | PubKey pubkey => Ok (Some (address_p2pkh network (hash160 pubkey)))
      | _ => Ok None
      end
  end.
End blockchain.

(** ** The network ([network.rs], [raw_transactions.rs]) *)

Record SyncPeersInfo := mk_sync_peers_info {
  available : Z;
  deprioritized : Z;
  downloading_new : Z;
  best_known_block : option Z;
  peer_sync_details : list PeerSync;
}.

(** The counters of one peer. *)
Definition count_peer (counts : Z * Z * Z * Z) (peer : PeerSync) : Z * Z * Z * Z :=
  let '(available, deprioritized, downloading_new, best) := counts in
  let best := if best <? sp_best_number peer then sp_best_number peer else best in
  match sp_state peer with
  | Available => (available + 1, deprioritized, downloading_new, best)
  | Deprioritized _ => (available, deprioritized + 1, downloading_new, best)
  | DownloadingNew _ => (available, deprioritized, downloading_new + 1, best)
  end.

(** [sort_by_key] on the latency. *)
Definition latency_le (p q : PeerSync) : Prop := sp_latency p <= sp_latency q.
#[export] Instance latency_le_dec : RelDecision latency_le.
Proof. intros p q. unfold latency_le. apply _. Defined.

Section network.
Context `{!RpcCodec} {N : Type} `{!NetworkApi N}.

Definition network_sync_peers (n : N) : SyncPeersInfo :=
  let peers := net_sync_peers n in
  let '(available, deprioritized, downloading_new, best) := fold_left count_peer peers (0, 0, 0, 0) in
  mk_sync_peers_info available deprioritized downloading_new (if 0 <? best then Some best else None)
    (merge_sort latency_le peers).

Definition network_status (n : N) : option NetStatus := net_status n.

(** [deny_unsafe] is what the connection of the caller says. *)
Definition network_start_block_sync (deny_unsafe : bool) (n : N) : res RpcError (N * list ProcessorEffect) :=
  reject_if deny_unsafe RpcUnsafeRpcCalled;;
  let '(_, n, e) := net_start_block_sync n in
  Ok (n, e).

Definition decode_raw_transaction (raw_tx : string) : res RpcError Transaction :=
  ok_or RpcDecodeHex (deserialize_hex raw_tx).

Definition get_raw_transaction (txid : bytes) (n : N) : option string := serialize_hex <$> net_get_transaction txid n.

Definition send_raw_transaction (raw_tx : string) (n : N) : res RpcError (SendTransactionResult * N * list ProcessorEffect) :=
  if net_enabled n then
    tx ← ok_or RpcDecodeHex (deserialize_hex raw_tx);
    Ok (net_send_transaction tx n)
  else Err RpcNetworkUnavailable.
End network.

(** ** Addresses ([address.rs]) *)

(** Balance, statistics and status have the fields of the index; an unspent output
    has its script in hexadecimal. *)
Record AddressUtxoInfo := mk_utxo_info {
  ui_txid : bytes;
  ui_vout : Z;
  ui_value : Z;
  ui_block_height : Z;
  ui_script_pubkey : string;
}.

Section address.
Context `{!RpcCodec, !RowOrder}.

Definition index_error (e : IndexerError) : RpcError := RpcOther (indexer_error_text e).

Definition get_balance (address : string) (d : IndexerDatabase) : res RpcError AddressBalance :=
  map_err index_error (get_address_balance address d).

Definition get_history (address : string) (limit offset : option Z) (d : IndexerDatabase) : res RpcError (list AddressHistory) :=
  map_err index_error (get_address_history address (default 25 limit) (default 0 offset) d).

Definition get_utxos (address : string) (d : IndexerDatabase) : res RpcError (list AddressUtxoInfo) :=
  utxos ← map_err index_error (get_address_utxos address d);
  Ok (map (fun u => mk_utxo_info (au_txid u) (au_vout u) (au_value u) (au_block_height u)
                      (hex_encode (au_script_pubkey u))) utxos).

Definition get_tx_count (address : string) (d : IndexerDatabase) : res RpcError Z := Ok (get_address_tx_count address d).

Definition indexer_status (c : NodeClient) (d : IndexerDatabase) : res RpcError IndexerStatus :=
  Ok (get_status (load_state d) (best_number (backend c))).

Definition get_stats (address : string) (d : IndexerDatabase) : res RpcError AddressStats := Ok (get_address_stats address d).

Definition rpc_get_output_status (txid : bytes) (vout : Z) (d : IndexerDatabase) : res RpcError (option OutputStatus) :=
  map_err index_error (get_output_status txid vout d).
End address.
