(* ===== verification/RpcBitcoind.v ===== *)
(** * JSON-RPC in the manner of Bitcoin Core ([crates/subcoin-rpc-bitcoind])

    The methods that tools for Bitcoin Core call, over the client, the network handle
    and the index of transactions.  Answers are the values that are turned into JSON. *)

From Stdlib Require Import ZArith Lia String Floats.SpecFloat.
From stdpp Require Import prelude gmap strings.
From S2P Require Import Prelude Collections ScriptTypes Bitcoin Runtime PalletTypes Client HeaderVerify Import Solver NodeChain.
From S2P Require Import BlockVerify MempoolTypes Collections MuHash NetworkProcessor NetworkApi IndexerDb IndexerQuery Rpc.

(** What rust-bitcoin prints and measures: hashes and scripts as text, the name of a
    network, amounts in bitcoins, and the size of a transaction with its witnesses. *)
Class RpcFormat := {
  to_core_arg : Network -> string;
  to_asm_string : bytes -> string;
  to_btc : Z -> spec_float;
  total_size : Transaction -> Z;
}.

(** ** Errors ([error.rs]) *)

Inductive BtcError :=
| BtcBlockNotFound
| BtcBlockHeightOutOfRange
| BtcInvalidBlockHash
| BtcTransactionNotFound
| BtcInvalidTransactionHex
| BtcNetworkUnavailable
| BtcHeader (e : HeaderError)
| BtcBitcoinIO
| BtcBlockchain (e : ClientError)
| BtcDecodeHex
| BtcSerdeJson
| BtcClient (code : Z)
| BtcOther (message : string).

Definition RPC_INVALID_ADDRESS_OR_KEY : Z := -5.
Definition RPC_INVALID_PARAMETER : Z := -8.
Definition RPC_DATABASE_ERROR : Z := -20.
Definition RPC_DESERIALIZATION_ERROR : Z := -22.
Definition RPC_MISC_ERROR : Z := -1.

Definition btc_error_code (e : BtcError) : Z :=
  match e with
  | BtcBlockNotFound | BtcTransactionNotFound => RPC_INVALID_ADDRESS_OR_KEY
  | BtcBlockHeightOutOfRange | BtcInvalidBlockHash => RPC_INVALID_PARAMETER
  | BtcInvalidTransactionHex | BtcDecodeHex => RPC_DESERIALIZATION_ERROR
  | BtcBlockchain _ => RPC_DATABASE_ERROR
  | _ => RPC_MISC_ERROR
  end.

(** ** Answers ([types.rs]) *)

Record GetBlockchainInfo := mk_blockchain_info {
  bi_chain : string;
  bi_blocks : Z;
  bi_headers : Z;
  bi_bestblockhash : bytes;
  bi_difficulty : spec_float;
  bi_verificationprogress : spec_float;
  bi_initialblockdownload : bool;
  bi_chainwork : string;
  bi_size_on_disk : Z;
  bi_pruned : bool;
  bi_warnings : list string;
}.

(** [getblockheader]. *)
Record GetBlockHeader := mk_get_block_header {
  gh_hash : bytes;
  gh_confirmations : Z;
  gh_height : Z;
  gh_version : Z;
  gh_version_hex : string;
  gh_merkleroot : string;
  gh_time : Z;
  gh_mediantime : Z;
  gh_nonce : Z;
  gh_bits : string;
  gh_difficulty : spec_float;
  gh_chainwork : string;
  gh_n_tx : Z;
  gh_previousblockhash : option bytes;
  gh_nextblockhash : option bytes;
}.

(** [getblock]: the fields of the header, the sizes and the transaction ids. *)
Record GetBlock := mk_get_block {
  gb_header : GetBlockHeader;
  gb_size : Z;
  gb_strippedsize : Z;
  gb_weight : Z;
  gb_tx : list bytes;
}.

Record ScriptSig := mk_script_sig { ss_asm : string; ss_hex : string }.

Record Vin := mk_vin {
  vin_txid : option bytes;
  vin_vout : option Z;
  vin_script_sig : option ScriptSig;
  vin_txinwitness : option (list string);
  vin_sequence : Z;
  vin_coinbase : option string;
}.

Record ScriptPubKey := mk_script_pub_key {
  sk_asm : string;
  sk_hex : string;
  sk_script_type : string;
  sk_address : option string;
}.

Record Vout := mk_vout {
  vout_value : spec_float;
  vout_n : Z;
  vout_script_pub_key : ScriptPubKey;
}.

Record GetRawTransaction := mk_get_raw_transaction {
  rt_in_active_chain : option bool;
  rt_hex : string;
  rt_txid : bytes;
  rt_hash : bytes;
  rt_size : Z;
  rt_vsize : Z;
  rt_weight : Z;
  rt_version : Z;
  rt_locktime : Z;
  rt_vin : list Vin;
  rt_vout : list Vout;
  rt_blockhash : option bytes;
  rt_confirmations : option Z;
  rt_blocktime : option Z;
  rt_time : option Z;
}.

Record GetMempoolInfo := mk_mempool_info {
  mi_loaded : bool;
  mi_size : Z;
  mi_bytes : Z;
  mi_usage : Z;
  mi_total_fee : spec_float;
  mi_maxmempool : Z;
  mi_mempoolminfee : spec_float;
  mi_minrelaytxfee : spec_float;
  mi_incrementalrelayfee : spec_float;
  mi_unbroadcastcount : Z;
  mi_fullrbf : bool;
}.

Record GetNetworkInfo := mk_network_info {
  ni_version : Z;
  ni_subversion : string;
  ni_protocolversion : Z;
  ni_localservices : string;
  ni_localrelay : bool;
  ni_timeoffset : Z;
  ni_networkactive : bool;
  ni_connections : Z;
  ni_connections_in : Z;
  ni_connections_out : Z;
  ni_relayfee : spec_float;
  ni_incrementalfee : spec_float;
  ni_localaddresses : list string;
  ni_warnings : list string;
}.

Record EstimateSmartFee := mk_estimate {
  es_feerate : option spec_float;
  es_errors : option (list string);
  es_blocks : Z;
}.

(** [serde_json::Value]: a string, or an object. *)
Inductive JsonValue :=
| JsonString (s : string)
| JsonBlock (b : GetBlock)
| JsonHeader (h : GetBlockHeader)
| JsonTransaction (t : GetRawTransaction)
| JsonTxids (l : list bytes)
| JsonEntries (l : list bytes).

(** ** Blocks ([blockchain.rs]) *)

(** [f64] division and multiplication, in the order of the source. *)
Definition difficulty_from_bits (bits : Z) : spec_float :=
  let mantissa := Z.land bits 0x00ffffff in
  let exponent := Z.shiftr bits 24 in
  if mantissa =? 0 then f64_of 0
  else
    let shift := 8 * (exponent - 3) in
    let diff := f64_mul (f64_div (f64_of 0xffff) (f64_of mantissa)) (f64_pow2 (- shift)) in
    if f64_gt diff (f64_of 0) then diff else f64_of 0.

(** [{:08x}] of a 32-bit number. *)
Definition hex_u32 (z : Z) : string :=
  let z := wrap_u32 z in
  hex_byte (z / 2 ^ 24) +:+ (hex_byte (z / 2 ^ 16 mod 256) +:+ (hex_byte (z / 2 ^ 8 mod 256) +:+ hex_byte (z mod 256))).

Section blockchain.
Context `{!TxApi, !ExtrinsicCodec, !ChainApi, !BlockApi, !RpcCodec, !RpcFormat}.
Context (network : Network).
Implicit Types (c : NodeClient).

(** The text of a hash: its bytes from the last on. *)
Definition display_hash (h : bytes) : string := hex_encode (reverse h).

Definition get_bitcoin_block c (block_hash : bytes) : res BtcError Block :=
  substrate_block_hash ← ok_or BtcBlockNotFound (substrate_block_hash_for (backend c) block_hash);
  b ← map_err BtcBlockchain (of_sum (client_block c substrate_block_hash));
  substrate_block ← ok_or BtcBlockNotFound b;
  map_err BtcHeader (convert_to_bitcoin_block substrate_block).

Definition get_block_number c (block_hash : bytes) : res BtcError Z :=
  ok_or BtcBlockNotFound (backend_block_number (backend c) block_hash).

Definition btc_best_number c : Z := best_number (backend c).

Definition calculate_confirmations {E : Type} c (block_height : Z) : res E Z :=
  let best := btc_best_number c in
  if best <? block_height then Ok 0
  else n ← expect (checked_u32 (best - block_height + 1)); Ok (wrap_i32 n).

Definition get_next_block_hash {E : Type} c (block_height : Z) : res E (option bytes) :=
  next ← expect (checked_u32 (block_height + 1));
  Ok (backend_block_hash (backend c) next).

Definition header_to_get_block_header {E : Type} c (header : Header) (height n_tx : Z) : res E GetBlockHeader :=
  confirmations ← calculate_confirmations c height;
  nextblockhash ← get_next_block_hash c height;
  Ok (mk_get_block_header (block_hash header) confirmations height (header_version header)
        (hex_u32 (header_version header)) (display_hash (merkle_root header)) (header_time header) (header_time header)
        (nonce header) (hex_u32 (bits header)) (difficulty_from_bits (bits header)) "0" n_tx
        (if 0 <? height then Some (prev_blockhash header) else None) nextblockhash).

(** The size is that of the encoding; the arithmetic is on [u32]. *)
Definition strippedsize {E : Type} (size weight : Z) : res E Z :=
  quadruple ← expect (checked_u32 (4 * size));
  Ok (0 `max` (quadruple - weight) / 3).

Definition block_to_get_block {E : Type} c (block : Block) (height : Z) : res E GetBlock :=
  let size := wrap_u32 (Z.of_nat (length (encode_block block))) in
  let weight := wrap_u32 (block_weight block) in
  stripped ← strippedsize size weight;
  header ← header_to_get_block_header c (block_header block) height (wrap_u32 (Z.of_nat (length (txdata block))));
  Ok (mk_get_block header size stripped weight (map compute_txid (txdata block))).

Definition get_best_block_hash c : res BtcError bytes :=
  ok_or (BtcOther "Best block hash not found") (bitcoin_block_hash_for (backend c) (best_hash (backend c))).

Definition get_blockchain_info c : res BtcError GetBlockchainInfo :=
  best_hash ← get_best_block_hash c;
  let best_number := btc_best_number c in
  block ← get_bitcoin_block c best_hash;
  Ok (mk_blockchain_info (to_core_arg network) best_number best_number best_hash
        (difficulty_from_bits (bits (block_header block))) (f64_of 1) false "0" 0 false []).

Definition get_block_count c : res BtcError Z := Ok (btc_best_number c).

Definition get_block_hash c (height : Z) : res BtcError bytes :=
  ok_or BtcBlockHeightOutOfRange (backend_block_hash (backend c) height).

Definition get_block c (blockhash : bytes) (verbosity : option Z) : res BtcError JsonValue :=
  block ← get_bitcoin_block c blockhash;
  height ← get_block_number c blockhash;
  match default 1 verbosity with
  | 0 => Ok (JsonString (hex_encode (encode_block block)))
  | 1 | 2 => b ← block_to_get_block c block height; Ok (JsonBlock b)
  | _ => Err (BtcOther "Invalid verbosity level")
  end.

Definition get_block_header c (blockhash : bytes) (verbose : option bool) : res BtcError JsonValue :=
  block ← get_bitcoin_block c blockhash;
  height ← get_block_number c blockhash;
  if default true verbose then
    h ← header_to_get_block_header c (block_header block) height (wrap_u32 (Z.of_nat (length (txdata block))));
    Ok (JsonHeader h)
  else Ok (JsonString (hex_encode (encode_header (block_header block)))).
End blockchain.

(** ** Transactions ([rawtx.rs]) *)

(** [TxoutType::script_type]. *)
Definition script_type (t : TxoutType) : string :=
  match t with
  | NonStandard => "nonstandard"
  | Anchor => "anchor"
  | PubKey _ => "pubkey"
  | PubKeyHash _ => "pubkeyhash"
  | ScriptHash _ => "scripthash"
  | Multisig _ _ _ => "multisig"
  | NullData => "nulldata"
  | WitnessV0ScriptHash _ => "witness_v0_scripthash"
  | WitnessV0KeyHash _ => "witness_v0_keyhash"
  | WitnessV1Taproot _ => "witness_v1_taproot"
  | WitnessUnknown _ => "witness_unknown"
  end.

Section rawtx.
Context `{!ScriptApi, !TxApi, !PoolTxApi, !ExtrinsicCodec, !ChainApi, !RpcCodec, !RpcFormat, !AddressApi}.
Context {T : Type} `{!TransactionIndex T} {N : Type} `{!NetworkApi N}.
Context (network : Network).
Implicit Types (c : NodeClient).

Definition vin_of (input : TxIn) : Vin :=
  let witness := match txin_witness input with [] => None | w => Some (map hex_encode w) end in
  if is_null (previous_output input) then
    mk_vin None None None witness (sequence input) (Some (hex_encode (script_sig input)))
  else
    mk_vin (Some (op_txid (previous_output input))) (Some (op_vout (previous_output input)))
      (Some (mk_script_sig (to_asm_string (script_sig input)) (hex_encode (script_sig input)))) witness (sequence input) None.

Definition vout_of {E : Type} (n : nat) (output : TxOut) : res E Vout :=
  let script := script_pubkey output in
  kind ← solve script;
  Ok (mk_vout (to_btc (value output)) (wrap_u32 (Z.of_nat n))
        (mk_script_pub_key (to_asm_string script) (hex_encode script) (script_type kind) (address_from_script network script))).

Fixpoint vouts_of {E : Type} (n : nat) (outputs : list TxOut) : res E (list Vout) :=
  match outputs with
  | [] => Ok []
  | output :: outputs =>
      v ← vout_of n output;
      rest ← vouts_of (S n) outputs;
      Ok (v :: rest)
  end.

Definition tx_to_get_raw_transaction {E : Type} c (tx : Transaction) (block_hash : option bytes)
    (block_height block_time : option Z) : res E GetRawTransaction :=
  vout ← vouts_of 0 (tx_output tx);
  confirmations ← match block_height with
                  | Some h => n ← calculate_confirmations c h; Ok (Some n)
                  | None => Ok None
                  end;
  Ok (mk_get_raw_transaction ((fun _ => true) <$> block_hash) (serialize_hex tx) (compute_txid tx) (compute_wtxid tx)
        (wrap_u32 (total_size tx)) (wrap_u32 (to_vbytes_ceil (weight tx))) (wrap_u32 (weight tx))
        (tx_version tx) (tx_lock_time tx) (map vin_of (tx_input tx)) vout block_hash confirmations block_time block_time).

(** The block of a transaction that is not in the pool, its position and itself. *)
Definition find_transaction c (index : T) (txid : bytes) : res BtcError (TxPosition * Block * Transaction) :=
  position ← map_err BtcBlockchain (of_sum (tx_index txid index));
  p ← ok_or BtcTransactionNotFound position;
  h ← map_err BtcBlockchain (of_sum (client_hash (backend c) (tx_block_number p)));
  substrate_block_hash ← ok_or BtcBlockNotFound h;
  b ← map_err BtcBlockchain (of_sum (client_block c substrate_block_hash));
  substrate_block ← ok_or BtcBlockNotFound b;
  bitcoin_block ← map_err BtcHeader (convert_to_bitcoin_block substrate_block);
  tx ← ok_or BtcTransactionNotFound (txdata bitcoin_block !! Z.to_nat (tx_pos_index p));
  Ok (p, bitcoin_block, tx).

Definition btc_get_raw_transaction c (index : T) (n : N) (txid : bytes) (verbose : option bool) : res BtcError JsonValue :=
  match net_get_transaction txid n with
  | Some tx =>
      if default false verbose then
        t ← tx_to_get_raw_transaction c tx None None None;
        Ok (JsonTransaction t)
      else Ok (JsonString (serialize_hex tx))
  | None =>
      '(p, bitcoin_block, tx) ← find_transaction c index txid;
      let h := block_header bitcoin_block in
      if default false verbose then
        t ← tx_to_get_raw_transaction c tx (Some (block_hash h)) (Some (tx_block_number p)) (Some (header_time h));
        Ok (JsonTransaction t)
      else Ok (JsonString (serialize_hex tx))
  end.

Definition btc_send_raw_transaction (hexstring : string) (n : N) : res BtcError (SendTransactionResult * N * list ProcessorEffect) :=
  if net_enabled n then
    tx ← ok_or BtcDecodeHex (deserialize_hex hexstring);
    Ok (net_send_transaction tx n)
  else Err BtcNetworkUnavailable.

Definition btc_decode_raw_transaction c (hexstring : string) : res BtcError JsonValue :=
  tx ← ok_or BtcDecodeHex (deserialize_hex hexstring);
  t ← tx_to_get_raw_transaction c tx None None None;
  Ok (JsonTransaction t).
End rawtx.

(** ** Pool, network and fees ([mempool.rs], [network.rs], [mining.rs]) *)

(** [0.00001]. *)
Definition MIN_FEE : spec_float := f64_div (f64_of 1) (f64_of 100000).

Definition get_raw_mempool (verbose : option bool) : JsonValue :=
  if default false verbose then JsonEntries [] else JsonTxids [].

Definition get_mempool_info : GetMempoolInfo :=
  mk_mempool_info true 0 0 0 (f64_of 0) 300000000 MIN_FEE MIN_FEE MIN_FEE 0 false.

Definition get_mempool_entry (txid : bytes) : res BtcError JsonValue := Err BtcTransactionNotFound.

(** The number of peers the handler was told. *)
Record NetworkRpc := mk_network_rpc { num_peers : Z }.

Definition network_rpc_new : NetworkRpc := mk_network_rpc 0.
Definition set_num_peers (num : Z) (r : NetworkRpc) : NetworkRpc := mk_network_rpc num.

Definition get_network_info (r : NetworkRpc) : GetNetworkInfo :=
  mk_network_info 270000 "/Subcoin:0.1.0/" 70016 "0000000000000409" true 0 true (num_peers r) 0 (num_peers r) MIN_FEE MIN_FEE [] [].

Definition estimate_smart_fee (conf_target : Z) : EstimateSmartFee := mk_estimate (Some MIN_FEE) None conf_target.
