(* ===== verification/RpcFacts.v ===== *)
(** * What the JSON-RPC methods answer

    The blocks that a node gives out are the ones it imported, but for the witnesses
    of coinbases; with the index of its best chain it finds every transaction.  Two
    computed fields are not what they are said to be. *)

From Stdlib Require Import ZArith Lia String Floats.SpecFloat Ascii.
From stdpp Require Import prelude gmap strings countable sorting.
From S2P Require Import Prelude ScriptTypes Stack CheckSig Sample Bitcoin Runtime PalletTypes Client HeaderVerify Import BlockVerify Ledger Solver.
From S2P Require Import Collections MempoolTypes IndexerDb IndexerQuery IndexerFacts IndexerChain IndexerSpec Indexer IndexerRun NetworkApi NodeChain Rpc RpcBitcoind.

(** ** The table of transactions *)

Section table.
Context `{!AddressApi, !HashApi, !TxApi, !ChainApi}.
Context (network : Network).
Implicit Types (d : IndexerDatabase).

Lemma ref_inputs_table height txid vin inputs d d' :
  ref_inputs height txid vin inputs d = Ok d' -> transactions d' = transactions d.
Proof.
  revert vin d. induction inputs as [| i inputs IH]; intros vin d; cbn [ref_inputs]; [by intros [= <-] |].
  intros (d1 & Hd1 & Hrest)%bind_Ok. rewrite (IH _ _ Hrest). revert Hd1. unfold ref_input.
  destruct (is_null _); [by intros [= <-] |]. destruct (get_output_info _ _) as [[a v] |]; [| by intros [= <-]].
  intros (_ & Ht & _)%insert_history_frame. by rewrite Ht.
Qed.

Lemma ref_outputs_table height txid vout outs d d' :
  ref_outputs network height txid vout outs d = Ok d' -> transactions d' = transactions d.
Proof.
  revert vout d. induction outs as [| o outs IH]; intros vout d; cbn [ref_outputs]; [by intros [= <-] |].
  intros (d1 & Hd1 & Hrest)%bind_Ok. rewrite (IH _ _ Hrest). revert Hd1. unfold ref_output.
  destruct (script_to_address _ _); [| by intros [= <-]].
  intros (_ & Ht & _)%insert_history_frame. by rewrite Ht.
Qed.

Lemma ref_transaction_table height i tx d d' :
  ref_transaction network height i tx d = Ok d' ->
  transactions d' = <[compute_txid tx := (height, Z.of_nat i)]> (transactions d).
Proof.
  unfold ref_transaction. intros (d1 & Hin & Hout)%bind_Ok.
  by rewrite (ref_outputs_table _ _ _ _ _ _ Hout), (ref_inputs_table _ _ _ _ _ _ Hin).
Qed.

Lemma ref_transactions_other height i txs d d' t :
  ref_transactions network height i txs d = Ok d' -> t ∉ map compute_txid txs ->
  transactions d' !! t = transactions d !! t.
Proof.
  revert i d. induction txs as [| tx txs IH]; intros i d; cbn [ref_transactions map]; [by intros [= <-] |].
  intros (d1 & Hd1 & Hrest)%bind_Ok [Hne Hnot]%not_elem_of_cons.
  rewrite (IH _ _ Hrest Hnot), (ref_transaction_table _ _ _ _ _ Hd1). by rewrite lookup_insert_ne.
Qed.

Lemma ref_transactions_row height i txs d d' j tx :
  ref_transactions network height i txs d = Ok d' -> NoDup (map compute_txid txs) -> txs !! j = Some tx ->
  transactions d' !! compute_txid tx = Some (height, Z.of_nat (i + j)).
Proof.
  revert i d j. induction txs as [| x txs IH]; intros i d j; cbn [ref_transactions map]; [done |].
  intros (d1 & Hd1 & Hrest)%bind_Ok [Hnot Hnd]%NoDup_cons. destruct j as [| j]; cbn.
  - intros [= ->]. rewrite (ref_transactions_other _ _ _ _ _ _ Hrest Hnot), (ref_transaction_table _ _ _ _ _ Hd1), lookup_insert_eq.
    by rewrite Nat.add_0_r.
  - intros Hj. rewrite (IH _ _ _ Hrest Hnd Hj). by rewrite Nat.add_succ_comm.
Qed.

Lemma ref_blocks_other chain d d' t :
  ref_blocks network chain d = Ok d' -> t ∉ batch_txids chain -> transactions d' !! t = transactions d !! t.
Proof.
  unfold ref_blocks. revert d. induction chain as [| hb chain IH]; intros d; cbn [rfold]; [by intros [= <-] |].
  intros (d1 & Hd1 & Hrest)%bind_Ok. unfold batch_txids. cbn [batch_txs flat_map].
  rewrite map_app, not_elem_of_app. intros [Hnot Hnots].
  rewrite (IH _ Hrest Hnots). by rewrite (ref_transactions_other _ _ _ _ _ _ Hd1 Hnot).
Qed.

(** In the index of a chain without repeated transactions each has its position. *)
Lemma ref_blocks_row chain d d' h b i tx :
  ref_blocks network chain d = Ok d' -> NoDup (batch_txids chain) -> (h, b) ∈ chain -> txdata b !! i = Some tx ->
  transactions d' !! compute_txid tx = Some (h, Z.of_nat i).
Proof.
  unfold ref_blocks. revert d. induction chain as [| hb chain IH]; intros d; cbn [rfold]; [by intros _ _ ?%elem_of_nil |].
  intros (d1 & Hd1 & Hrest)%bind_Ok. unfold batch_txids. cbn [batch_txs flat_map].
  rewrite map_app. intros (Hnd & Hdis & Hnds)%NoDup_app [Heq | Hin]%elem_of_cons Htx; [| by apply (IH _ Hrest)].
  subst hb. cbn [fst snd] in *. assert (Hx : compute_txid tx ∈ map compute_txid (txdata b)).
  { apply list_elem_of_fmap. exists tx. split; [done |]. by apply list_elem_of_lookup_2 in Htx. }
  rewrite (ref_blocks_other _ _ _ _ Hrest); [| by apply Hdis].
  by apply (ref_transactions_row _ _ _ _ _ _ _ Hd1).
Qed.
End table.

(** ** Blocks *)

Section blocks.
Context `{!ScriptApi, !HashApi, !TxApi, !TxLaws, !ExtrinsicCodec, !ExtrinsicCodecLaws, !ChainApi, !ChainLaws, !PowApi, !BlockApi}.
Context `{!RpcCodec, !RpcCodecLaws, !RpcFormat, !AddressApi}.
Context (genesis : Block) (state_root : bytes) (header_hash : list bytes -> bytes -> list DigestItem -> bytes).
Implicit Types (c : NodeClient).

(** The hash of a block. *)
Definition id_of (b : Block) : bytes := block_hash (block_header b).

Lemma stored_txids b : map compute_txid (txdata (stored_block b)) = map compute_txid (txdata b).
Proof. cbn. rewrite map_map. apply map_ext. apply Types.stored_txid. Qed.

Lemma held_header c b e : holds c b e -> header c (Some (id_of b)) = Ok (Some (block_header b)).
Proof.
  intros [Hk _ (h & Hh & Hx & _)]. unfold header, substrate_block_hash, id_of.
  rewrite (k_sub _ _ _ Hk). rbind. cbn [ok_or]. rbind. rewrite Hh. rbind. cbn. by rewrite Hx.
Qed.

Lemma held_block c b e :
  holds c b e -> block c (Some (id_of b)) = Ok (Some (stored_block b)) /\ get_bitcoin_block c (id_of b) = Ok (stored_block b).
Proof.
  intros Hh. destruct (holds_convert _ _ _ Hh) as (sb & Hsb & Hc). destruct Hh as [Hk _ _].
  unfold block, substrate_block_hash, get_bitcoin_block, id_of. rewrite (k_sub _ _ _ Hk). cbn [ok_or]. rbind. rewrite Hsb. cbn. by rewrite Hc.
Qed.

(** What the methods answer for a block that the node holds. *)
Record answers c (b : Block) : Prop := {
  an_header : header c (Some (id_of b)) = Ok (Some (block_header b));
  an_block : block c (Some (id_of b)) = Ok (Some (stored_block b));
  an_txids : block_with_txids c (Some (id_of b)) =
    Ok (Some (mk_block_with_txids (block_header b) (map compute_txid (txdata b)) (map Types.stored (txdata b))));
  an_raw : exists s, raw_block c (Some (id_of b)) = Ok (Some s) /\ get_block c (id_of b) (Some 0) = Ok (JsonString s) /\
    (hex_decode s ≫= decode_block) = Some (stored_block b);
  an_raw_header : exists s, get_block_header c (id_of b) (Some false) = Ok (JsonString s) /\
    (hex_decode s ≫= decode_header) = Some (block_header b);
  an_number : exists n, block_number c (id_of b) = Ok (Some n);
}.

Lemma held_answers c b e : holds c b e -> answers c b.
Proof.
  intros Hh. destruct (held_block _ _ _ Hh) as [Hb Hg]. pose proof (k_number _ _ _ (ho_known _ _ _ Hh)) as Hn.
  split.
  - by apply (held_header _ _ e).
  - done.
  - unfold block_with_txids. rewrite Hb. rbind. by rewrite stored_txids.
  - exists (hex_encode (encode_block (stored_block b))). unfold raw_block, get_block, get_block_number, id_of in *.
    rewrite Hb, Hg, Hn, hex_decode_encode. cbn. by rewrite decode_encode_block.
  - exists (hex_encode (encode_header (block_header b))). unfold get_block_header, get_block_number, id_of in *.
    rewrite Hg, Hn, hex_decode_encode. cbn. by rewrite decode_encode_header.
  - unfold block_number, id_of in *. rewrite Hn. eauto.
Qed.

(** C38: a node that starts from the Bitcoin genesis block and imports blocks answers
    for each of them: the header, the block without the witness of its coinbase, the
    ids of all its transactions, and hexadecimal texts, the same in both interfaces,
    that decode to that block and header.  For every other hash each method reports
    that the block is not known.  The best block it names heads a chain with the most
    work, and is the one it gives out when no hash is asked for. *)
Theorem rpc_blocks_spec c blocks :
  length (genesis_hash genesis state_root header_hash) = 32%nat ->
  node_imports genesis state_root header_hash c blocks ->
  (forall b, b ∈ blocks -> answers c b) /\
  (forall hash v verbose, length hash = 32%nat -> hash ∉ map id_of blocks ->
     header c (Some hash) = Err RpcSubstrateBlockHashNotFound /\ block c (Some hash) = Err RpcSubstrateBlockHashNotFound /\
     block_number c hash = Ok None /\ get_block c hash v = Err BtcBlockNotFound /\
     get_block_header c hash verbose = Err BtcBlockNotFound) /\
  exists best w, best ∈ blocks /\ best_block_hash c = Ok (id_of best) /\ get_best_block_hash c = Ok (id_of best) /\
    block c None = Ok (Some (stored_block best)) /\ chain_work (backend c) (block_header genesis) (id_of best) w /\
    forall hash w', chain_work (backend c) (block_header genesis) hash w' -> w' <= w.
Proof.
  intros Hl Hi. pose proof (node_imports_holds genesis state_root header_hash Hl c blocks Hi) as Hholds. split_and!.
  - intros b Hb. destruct (Hholds b Hb) as [e He]. by apply (held_answers _ _ e).
  - intros hash v verbose Hlen Hnot. pose proof (node_imports_unknown genesis state_root header_hash c blocks hash Hi Hlen Hnot) as Hx.
    unfold header, block, substrate_block_hash, get_block, get_block_header, get_bitcoin_block, block_number, backend_block_number, substrate_block_hash_for.
    by rewrite Hx.
  - destruct (imports_tree _ _ _ (node_imports_backend genesis state_root header_hash Hl c blocks Hi)) as (M & bst & Ht).
    destruct (t_best _ _ _ _ Ht) as [Hb Hbs]. pose proof (t_known _ _ _ _ Ht _ _ Hb) as Hk.
    destruct (decide (block_hash (e_header bst) ∈ map id_of blocks)) as [Hin | Hnot]; cycle 1.
    { pose proof (k_sub _ _ _ Hk) as Hs. unfold substrate_block_hash_for in Hs.
      by rewrite (node_imports_unknown genesis state_root header_hash c blocks _ Hi (known_length _ _ _ Hk) Hnot) in Hs. }
    apply list_elem_of_fmap in Hin as (best & Heq & Hin). destruct (Hholds best Hin) as [e He].
    assert (Hsub : e_sub e = best_hash (backend c)).
    { pose proof (k_sub _ _ _ (ho_known _ _ _ He)) as Hs. rewrite <- Hbs. unfold id_of in Heq.
      rewrite <- Heq, (k_sub _ _ _ Hk) in Hs. congruence. }
    exists best, (e_total bst). unfold best_block_hash, get_best_block_hash. rewrite <- Hsub, (k_back _ _ _ (ho_known _ _ _ He)).
    split_and!; try done.
    + destruct (held_block _ _ _ He) as [Hblk _]. unfold block, substrate_block_hash, id_of in *.
      rewrite (k_sub _ _ _ (ho_known _ _ _ He)) in Hblk. by rewrite <- Hsub.
    + rewrite <- Heq. by apply (chain_work_tree _ _ _ _ _ _ Ht).
    + intros hash w' (e' & He' & <-)%(tree_chain_work _ _ _ _ _ _ Ht). by apply (t_max _ _ _ _ Ht hash).
Qed.
End blocks.

(** ** Transactions *)

Section transactions.
Context `{!ScriptApi, !HashApi, !TxApi, !TxLaws, !TxidLaws, !PoolTxApi, !ExtrinsicCodec, !ExtrinsicCodecLaws, !ChainApi, !ChainLaws, !PowApi}.
Context `{!RpcCodec, !RpcCodecLaws, !RpcFormat, !AddressApi}.
Context {N : Type} `{!NetworkApi N}.
Context (network : Network).
Implicit Types (c : NodeClient) (d : IndexerDatabase) (n : N).

(** The blocks that the client holds at their heights. *)
Definition best_chain c (chain : list (Z * Block)) : Prop :=
  Forall (fun hb => exists e, client_hash (backend c) hb.1 = inr (Some (e_sub e)) /\ holds c hb.2 e) chain.

(** Heights and positions are [u32]. *)
Definition positions_ok (chain : list (Z * Block)) : Prop :=
  Forall (fun hb => is_u32 hb.1 /\ Z.of_nat (length (txdata hb.2)) <= u32_max) chain.

(** Where the index of a chain has its transactions. *)
Lemma indexed_position chain last d h b i tx :
  valid_chain chain -> positions_ok chain -> indexed network chain last d ->
  (h, b) ∈ chain -> txdata b !! i = Some tx ->
  get_tx_position (compute_txid tx) d = Some (mk_position h (Z.of_nat i)).
Proof.
  intros Hvc Hpos (d0 & Hrun & ->) Hin Htx. unfold get_tx_position, get_transaction, save_state. cbn.
  rewrite (ref_blocks_row network chain empty_db d0 h b i tx Hrun (vc_txids _ Hvc) Hin Htx). cbn.
  unfold positions_ok in Hpos. rewrite Forall_forall in Hpos. destruct (Hpos _ Hin) as [Hh Hlen]. cbn in Hh, Hlen.
  apply lookup_lt_Some in Htx. unfold is_u32, u32_max, wrap_u32 in *. by rewrite !Z.mod_small by lia.
Qed.

Lemma unindexed_position chain last d t :
  indexed network chain last d -> t ∉ batch_txids chain -> get_tx_position t d = None.
Proof.
  intros (d0 & Hrun & ->) Hnot. unfold get_tx_position, get_transaction, save_state. cbn.
  by rewrite (ref_blocks_other network chain empty_db d0 t Hrun Hnot).
Qed.

Lemma find_indexed c chain last d h b i tx :
  best_chain c chain -> valid_chain chain -> positions_ok chain -> indexed network chain last d ->
  (h, b) ∈ chain -> txdata b !! i = Some tx ->
  find_transaction c d (compute_txid tx) = Ok (mk_position h (Z.of_nat i), stored_block b, Types.stored tx) /\
  transaction c d (compute_txid tx) = Ok (Some (Types.stored tx)).
Proof.
  intros Hc Hvc Hpos Hix Hin Htx. unfold find_transaction, transaction. cbn [tx_index indexer_index of_sum].
  rewrite (indexed_position chain last d h b i tx Hvc Hpos Hix Hin Htx). cbn.
  unfold best_chain in Hc. rewrite Forall_forall in Hc. destruct (Hc _ Hin) as (e & He & Hh). cbn in He. rewrite He. cbn.
  destruct (holds_convert _ _ _ Hh) as (sb & Hsb & Hconv). cbn in Hsb, Hconv. rewrite Hsb. cbn. rewrite Hconv. cbn.
  by rewrite Nat2Z.id, list_lookup_fmap, Htx.
Qed.

(** C39: with the index of its best chain the node finds exactly the transactions of
    that chain by their ids: both interfaces give out the transaction, without the
    witness of a coinbase, as it is or in hexadecimal, and the verbose answer names
    its block, the time and the number of confirmations.  A transaction of the pool
    is preferred, and other ids are reported as not found. *)
Theorem rpc_transactions_spec c n chain last d :
  best_chain c chain -> valid_chain chain -> positions_ok chain -> indexed network chain last d ->
  (forall h b i tx, (h, b) ∈ chain -> txdata b !! i = Some tx ->
     let txid := compute_txid tx in
     transaction c d txid = Ok (Some (Types.stored tx)) /\ compute_txid (Types.stored tx) = txid /\
     (net_get_transaction txid n = None ->
      btc_get_raw_transaction network c d n txid (Some false) = Ok (JsonString (serialize_hex (Types.stored tx))) /\
      deserialize_hex (serialize_hex (Types.stored tx)) = Some (Types.stored tx) /\
      (forall vouts, vouts_of (E := BtcError) network 0 (tx_output tx) = Ok vouts ->
       h <= best_number (backend c) -> best_number (backend c) - h < i32_max ->
       exists t, btc_get_raw_transaction network c d n txid (Some true) = Ok (JsonTransaction t) /\
         rt_txid t = txid /\ rt_blockhash t = Some (block_hash (block_header b)) /\
         rt_confirmations t = Some (best_number (backend c) - h + 1) /\ rt_blocktime t = Some (header_time (block_header b)) /\
         rt_vout t = vouts))) /\
  (forall txid, txid ∉ batch_txids chain ->
     transaction c d txid = Ok None /\
     (net_get_transaction txid n = None -> forall v, btc_get_raw_transaction network c d n txid v = Err BtcTransactionNotFound)) /\
  (forall txid tx, net_get_transaction txid n = Some tx ->
     get_raw_transaction txid n = Some (serialize_hex tx) /\
     btc_get_raw_transaction network c d n txid (Some false) = Ok (JsonString (serialize_hex tx))).
Proof.
  intros Hc Hvc Hpos Hix. split_and!.
  - intros h b i tx Hin Htx txid. subst txid. destruct (find_indexed c chain last d h b i tx Hc Hvc Hpos Hix Hin Htx) as [Hf Ht].
    split_and!; [exact Ht | apply Types.stored_txid |]. intros Hn. unfold btc_get_raw_transaction. rewrite Hn, Hf. rbind.
    split_and!; [done | |].
    + unfold deserialize_hex, serialize_hex. rewrite hex_decode_encode. cbn. apply decode_encode_transaction.
    + intros vouts Hv Hbest Hmax. cbn [default]. unfold tx_to_get_raw_transaction, calculate_confirmations, btc_best_number.
      change (tx_output (Types.stored tx)) with (tx_output tx). rewrite Hv. rbind. cbn [tx_block_number].
      rewrite (proj2 (Z.ltb_ge _ _)) by done. rewrite checked_u32_Ok by (unfold is_u32, u32_max, i32_max in *; lia). rbind.
      eexists. split; [done |]. cbn. split_and!; try done; [apply Types.stored_txid |].
      unfold wrap_i32, i32_max in *. f_equal. rewrite Z.mod_small by lia. lia.
  - intros txid Hnot. pose proof (unindexed_position chain last d txid Hix Hnot) as Hp. split.
    + unfold transaction. cbn. by rewrite Hp.
    + intros Hn v. unfold btc_get_raw_transaction, find_transaction. rewrite Hn. cbn. by rewrite Hp.
  - intros txid tx Hn. unfold get_raw_transaction, btc_get_raw_transaction. by rewrite Hn.
Qed.
End transactions.

(** ** Deviations *)

Section deviations.
Context `{!ScriptApi, !HashApi, !TxApi, !ChainApi, !BlockApi, !PoolTxApi, !RpcCodec, !RpcCodecLaws, !RpcFormat, !AddressApi}.

(** The size without witnesses: the weight counts every byte of the block once, and
    three times more the bytes that are not witness data.  What [getblock] calls the
    stripped size is the rest, the size of the witnesses. *)
Lemma strippedsize_is_witness {E : Type} (size base : Z) :
  0 <= base <= size -> 4 * size <= u32_max -> strippedsize (E := E) size (3 * base + size) = Ok (size - base).
Proof.
  intros Hb Hs. unfold strippedsize. rewrite checked_u32_Ok by (unfold is_u32; lia). rbind. f_equal.
  rewrite Z.max_r by lia. replace (4 * size - (3 * base + size)) with ((size - base) * 3) by lia. by rewrite Z.div_mul.
Qed.

(** A script that starts with a number and is followed by 256 pushes makes the
    methods that classify it panic. *)
Lemma classify_panic (network : Network) c (tx : Transaction) (out : TxOut) (m : Z) (keys : list bytes) :
  tx_output tx = [out] -> is_p2sh (script_pubkey out) = false -> witness_version (script_pubkey out) = None ->
  is_op_return (script_pubkey out) = false -> p2pk_public_key (script_pubkey out) = None -> is_p2pkh (script_pubkey out) = false ->
  instructions (script_pubkey out) = inr (Op (0x50 + m)) :: map (fun k => inr (PushBytes k)) keys ->
  1 <= m <= 16 -> (256 <= length keys)%nat ->
  btc_decode_raw_transaction network c (serialize_hex tx) = Panic.
Proof.
  intros Hout Hp2sh Hw Hret Hpk Hpkh Hi Hm Hk. unfold btc_decode_raw_transaction, deserialize_hex, serialize_hex. rewrite hex_decode_encode. cbn.
  rewrite decode_encode_transaction. rbind. cbn. unfold tx_to_get_raw_transaction. rewrite Hout. cbn [vouts_of]. unfold vout_of.
  unfold solve. rewrite Hp2sh, Hw, Hret, Hpk, Hpkh, (match_multisig_panic _ m keys); done.
Qed.
End deviations.

(** The difficulty of the easiest target is one; the answer is 2 to the -208. *)
Lemma difficulty_one : difficulty_from_bits 0x1d00ffff = f64_pow2 (-208) /\ f64_gt (f64_of 1) (difficulty_from_bits 0x1d00ffff) = true.
Proof. by vm_compute. Qed.

(** ** Examples of the JSON-RPC methods

    A node with two blocks, on which the theorems on the answers are applied. *)

Module SampleRpc.
Import (hints) SampleChain SamplePow.
#[export] Existing Instances SampleChain.chain_api SampleChain.chain_laws SamplePow.pow_api SampleBlock.block_api Sample.script_api Sample.hash_api.

(** *** Encodings through numbers *)

#[export] Instance txin_countable : Countable TxIn.
Proof.
  refine (inj_countable' (fun i => (previous_output i, script_sig i, sequence i, txin_witness i)) (fun '(o, s, q, w) => mk_txin o s q w) _).
  by intros [].
Defined.
#[export] Instance txout_countable : Countable TxOut.
Proof. refine (inj_countable' (fun o => (value o, script_pubkey o)) (fun '(v, s) => mk_txout v s) _). by intros []. Defined.
#[export] Instance tx_countable : Countable Transaction.
Proof.
  refine (inj_countable' (fun t => (tx_version t, tx_lock_time t, tx_input t, tx_output t)) (fun '(v, l, i, o) => mk_tx v l i o) _).
  by intros [].
Defined.
#[export] Instance header_eq_dec : EqDecision Header.
Proof. solve_decision. Defined.
#[export] Instance header_countable : Countable Header.
Proof.
  refine (inj_countable' (fun h => (header_version h, prev_blockhash h, merkle_root h, header_time h, bits h, nonce h))
    (fun '(v, p, m, t, b, n) => mk_header v p m t b n) _). by intros [].
Defined.
#[export] Instance block_eq_dec : EqDecision Block.
Proof. solve_decision. Defined.
#[export] Instance block_countable : Countable Block.
Proof. refine (inj_countable' (fun b => (block_header b, txdata b)) (fun '(h, t) => mk_block h t) _). by intros []. Defined.

(** A number as text, in base two. *)
Fixpoint text (p : positive) : string :=
  match p with
  | xH => EmptyString
  | xO p => String "0" (text p)
  | xI p => String "1" (text p)
  end.
Fixpoint number (s : string) : positive :=
  match s with
  | EmptyString => xH
  | String c s => if Ascii.eqb c "1" then xI (number s) else xO (number s)
  end.

Lemma number_text p : number (text p) = p.
Proof. induction p; cbn; congruence. Qed.

Definition to_bytes {A} `{Countable A} (a : A) : bytes := [Zpos (encode a)].
Definition of_bytes {A} `{Countable A} (bs : bytes) : option A := match bs with [Zpos p] => decode p | _ => None end.

Lemma of_to_bytes {A} `{Countable A} (a : A) : of_bytes (to_bytes a) = Some a.
Proof. unfold of_bytes, to_bytes. apply decode_encode. Qed.

#[export] Instance codec : RpcCodec := {|
  hex_encode bs := text (encode bs);
  hex_decode s := decode (number s);
  encode_block := to_bytes;
  decode_block := of_bytes;
  encode_transaction := to_bytes;
  decode_transaction := of_bytes;
  indexer_error_text _ := "index"%string;
|}.

#[export] Instance codec_laws : RpcCodecLaws.
Proof. split; [| apply of_to_bytes ..]. intros bs. cbn. rewrite number_text. apply decode_encode. Qed.

#[export] Instance format : RpcFormat := {|
  to_core_arg _ := "main"%string;
  to_asm_string _ := ""%string;
  to_btc v := f64_div (f64_of v) (f64_of 100000000);
  total_size tx := Z.of_nat (length (tx_output tx));
|}.

#[export] Instance pool_tx : PoolTxApi := {| compute_wtxid tx := [tx_version tx]; weight _ := 4 |}.

#[export] Instance addresses : AddressApi := {|
  address_from_script _ s := match s with [b] => Some (String (ascii_of_N (Z.to_N b)) EmptyString) | _ => None end;
  address_p2pkh _ _ := "key"%string;
  compressed_pubkey_hash _ := None;
|}.

(** *** Transactions, identified by their lock time *)

#[export] Instance lock_tx_api : TxApi := {|
  compute_txid tx := tx_lock_time tx :: replicate 31 0;
  base_size _ := 0;
  count_sigops_legacy _ := 0;
  total_sigop_cost _ _ := 0;
  lock_time_from_consensus n := if n <? LOCK_TIME_THRESHOLD then AbsBlocks n else AbsSeconds n;
  height_from_consensus n := if n <? LOCK_TIME_THRESHOLD then Some n else None;
  time_from_consensus n := if n <? LOCK_TIME_THRESHOLD then None else Some n;
|}.
#[export] Instance lock_tx_laws : TxLaws.
Proof. split; try done. intros tx tx' Heq. cbn. injection Heq as _ Hl _ _. by rewrite Hl. Qed.
#[export] Instance lock_txid_laws : TxidLaws.
Proof. by split. Qed.

(** *** Extrinsics *)

#[export] Instance rt_lock_eq_dec : EqDecision Types.LockTime.
Proof. solve_decision. Defined.
#[export] Instance rt_lock_countable : Countable Types.LockTime.
Proof.
  refine (inj_countable' (fun l => match l with Types.Height n => inl n | Types.Time n => inr n end)
    (fun s => match s with inl n => Types.Height n | inr n => Types.Time n end) _). by intros [].
Defined.
#[export] Instance rt_regular_eq_dec : EqDecision Types.RegularTxIn.
Proof. solve_decision. Defined.
#[export] Instance rt_in_eq_dec : EqDecision Types.TxIn.
Proof. solve_decision. Defined.
#[export] Instance rt_in_countable : Countable Types.TxIn.
Proof.
  refine (inj_countable' (fun i => match i with
      | Types.Coinbase d s => inl (d, s)
      | Types.Regular r => inr (Types.previous_output r, Types.unlocking_script r, Types.sequence r, Types.witness r)
      end)
    (fun s => match s with
      | inl (d, s) => Types.Coinbase d s
      | inr (o, u, q, w) => Types.Regular (Types.mk_regular_txin o u q w)
      end) _). by intros [| []].
Defined.
#[export] Instance rt_out_eq_dec : EqDecision Types.TxOut.
Proof. solve_decision. Defined.
#[export] Instance rt_out_countable : Countable Types.TxOut.
Proof. refine (inj_countable' (fun o => (Types.value o, Types.script_pubkey o)) (fun '(v, s) => Types.mk_txout v s) _). by intros []. Defined.
#[export] Instance rt_tx_eq_dec : EqDecision Types.Transaction.
Proof. solve_decision. Defined.
#[export] Instance rt_tx_countable : Countable Types.Transaction.
Proof.
  refine (inj_countable' (fun t => (Types.version t, Types.lock_time t, Types.input t, Types.output t))
    (fun '(v, l, i, o) => Types.mk_transaction v l i o) _). by intros [].
Defined.
#[export] Instance call_eq_dec : EqDecision RuntimeCall.
Proof. solve_decision. Defined.
#[export] Instance call_countable : Countable RuntimeCall.
Proof.
  refine (inj_countable' (fun c => match c with Transact t => inl t | OtherCall z => inr z end)
    (fun s => match s with inl t => Transact t | inr z => OtherCall z end) _). by intros [].
Defined.

#[export] Instance extrinsic_codec : ExtrinsicCodec := {| encode_extrinsic := to_bytes; decode_extrinsic := of_bytes |}.
#[export] Instance extrinsic_codec_laws : ExtrinsicCodecLaws.
Proof. split. apply of_to_bytes. Qed.

(** *** A node with two blocks *)

Definition first_coinbase : Transaction := mk_tx 1 100 [mk_txin null_outpoint [4] 0 [[9]]] [mk_txout 50 [65]].
Definition first : Block := mk_block (SampleChain.header 1 100) [first_coinbase].
Definition payment : Transaction := mk_tx 1 201 [mk_txin (mk_outpoint (100 :: replicate 31 0) 0) [1] 0 [[2]]] [mk_txout 30 [66]].
Definition second : Block :=
  mk_block (SampleChain.header 2 130) [mk_tx 1 101 [mk_txin null_outpoint [5] 0 []] [mk_txout 50 [66]]; payment].

Definition sub1 : bytes := replicate 32 7.
Definition sub2 : bytes := replicate 32 8.
Definition at_start : NodeClient := start_client first [] (fun _ _ _ => sub1).
Definition node : NodeClient := import_block_into at_start (0 + 1) second sub2 4 true.

Lemma node_reached : node_imports first [] (fun _ _ _ => sub1) node [second; first].
Proof. apply node_import; try reflexivity. apply node_start. Qed.

(** The same with the hashes of the best chain by height. *)
Definition best_client : Client := {|
  get_aux := get_aux (backend node);
  client_number := client_number (backend node);
  client_hash n := inr (if n =? 0 then Some sub1 else if n =? 1 then Some sub2 else None);
  client_header := client_header (backend node);
  best_hash := best_hash (backend node);
  best_number := best_number (backend node);
|}.
Definition best_node : NodeClient := mk_node_client best_client (client_block node).

Lemma best_node_holds b e : holds node b e -> holds best_node b e.
Proof. intros [[K1 K2 K3 K4 K5 K6 K7] Hh Hb]. split; [split; assumption | exact Hh | exact Hb]. Qed.

Definition chain : list (Z * Block) := [(0, first); (1, second)].
Definition index : IndexerDatabase := from_ok empty_db (ref_blocks Mainnet chain empty_db).

Lemma chain_served : best_chain best_node chain.
Proof.
  pose proof (node_imports_holds first [] (fun _ _ _ => sub1) eq_refl node _ node_reached) as Hh.
  repeat constructor; cbn [fst snd].
  - destruct (Hh first) as [e He]; [by right; left |]. exists e. split; [| by apply best_node_holds].
    assert (Hs : Some (e_sub e) = Some sub1) by (rewrite <- (k_sub _ _ _ (ho_known _ _ _ He)); vm_compute; reflexivity).
    cbn. by rewrite Hs.
  - destruct (Hh second) as [e He]; [by left |]. exists e. split; [| by apply best_node_holds].
    assert (Hs : Some (e_sub e) = Some sub2) by (rewrite <- (k_sub _ _ _ (ho_known _ _ _ He)); vm_compute; reflexivity).
    cbn. by rewrite Hs.
Qed.

Lemma served_chain_valid : valid_chain chain.
Proof.
  split; [repeat (constructor; cbn; try lia) | refine (bool_decide_unpack _ _); vm_compute; exact I .. |].
  repeat (apply Forall_cons; split; [split; [repeat (apply Forall_cons; split; [unfold amount_ok, i64_max; cbn; lia |]);
    apply Forall_nil_2 | unfold u32_max; cbn; lia] |]); apply Forall_nil_2.
Qed.

Lemma chain_positions : positions_ok chain.
Proof. repeat (constructor; cbn; [unfold is_u32, u32_max; lia |]); constructor. Qed.

Lemma index_built : ref_blocks Mainnet chain empty_db = Ok index.
Proof. apply from_ok_eq. vm_compute. reflexivity. Qed.
End SampleRpc.

Module RpcWitness.
Import SampleRpc.

(** The second block is found, and the first one comes without its witness. *)
Lemma rpc_blocks_spec_witness :
  block node (Some (id_of first)) = Ok (Some (stored_block first)) /\ stored_block first <> first /\
  best_block_hash node = Ok (id_of second).
Proof.
  destruct (rpc_blocks_spec first [] (fun _ _ _ => sub1) node [second; first] eq_refl node_reached) as (Ha & _ & _).
  split_and!; [| discriminate | reflexivity].
  apply (an_block _ _ (Ha first ltac:(by right; left))).
Defined.

(** A payment of the second block, with its witness. *)
Lemma rpc_transactions_spec_witness :
  transaction best_node (save_state (Active 1) index) (compute_txid payment) = Ok (Some payment) /\
  btc_get_raw_transaction Mainnet best_node (save_state (Active 1) index) no_network (compute_txid payment) (Some false) =
    Ok (JsonString (serialize_hex payment)).
Proof.
  destruct (rpc_transactions_spec Mainnet best_node no_network chain 1 (save_state (Active 1) index)
    chain_served served_chain_valid chain_positions) as (Ha & _ & _).
  { exists index. split; [exact index_built | reflexivity]. }
  destruct (Ha 1 second 1%nat payment) as (Ht & _ & Hraw); [by right; left | reflexivity |].
  split; [exact Ht |]. by apply Hraw.
Defined.
End RpcWitness.
